(* ===== verification/_CoqProject ===== *)
-Q . S2P
Prelude.v
Str.v
Layout.v
Kalloc.v
Vm.v
PageTable.v
Uvm.v
Ucopy.v
Freewalk.v
Aspace.v
Kvm.v
Image.v
Demo.v
VmSpec.v
ProcState.v
Sched.v
SchedSpec.v
Lock.v
LockSpec.v
Pipe.v
PipeSpec.v
Bio.v
BioProofs.v
BioSpec.v
BioView.v
Log.v
LogProofs.v
LogSpec.v
LogOps.v
LogSpace.v
Block.v
Fs.v
Dir.v
FsAlloc.v
FsFile.v
FsInode.v
FsRw.v
Txn.v
FsSpec.v
DirSpec.v
Namei.v
Virtio.v
VirtioSpec.v
Printf.v
Console.v
ConsoleSpec.v
Kern.v
File.v
Proc.v
Sysproc.v
Sysfile.v
Exec.v
ExecLoad.v
ExecStack.v
ExecCommit.v
ExecSpec.v
Syscall.v
Trap.v
KernCalm.v
KernInv.v
FileInv.v
ProcInv.v
KernSpec.v
KernRun.v
TrapSpec.v
Asm.v
Boot.v
Main.v
MainSpec.v
AsmSpec.v
Ulib.v
Grep.v
Umalloc.v
UmallocSpec.v
Sh.v
ShSpec.v
Mkfs.v
MkfsFile.v
MkfsSpec.v
Uprog.v
