(* ===== verification/Prelude.v ===== *)
(** * xv6 (OSN variant): a verification library

    ** The program

    A teaching operating system for RISC-V: a kernel (src/kernel), the program that makes
    the first disk image (src/mkfs) and user programs (src/user).  Compared with xv6 it
    adds copy-on-write fork, five schedulers chosen at compile time (round robin, FCFS,
    lottery, priority, multi-level feedback queue), alarms (sigalarm and sigreturn),
    strace and waitx.  A trap enters through assembly, [usertrap] calls [syscall], a
    system call works on processes, memory, open files, pipes and the console; files lie
    on inodes, inodes on blocks, blocks in the buffer cache and the log, and these on the
    disk driver.

    ** How code is modelled

    Kernel code is a function of type [M S A], from a state [S] to an [outcome]: a value
    and a new state, a [Panic], a [Block] (the code sleeps and nothing in the modelled
    step wakes it) or [Diverge] (a loop used up its fuel).  [wp c s Q] says that [c] run
    from [s] returns and [Q] holds of the result, so a theorem with [wp], or with an
    equation [c s = Ret _], includes termination and the absence of panics.  [pwp] allows
    panics and sleep; it is used only for invariants of all reachable states.  User
    code is a function to [option], where [None] is lack of fuel, or to [M].

    Integers are [Z] with the wrap-around of their width written out ([u8], [u16], [u32],
    [u64], [i32]).  Memory is a function from addresses to bytes; page tables, the lists
    of free pages, the disk's queue and the heap of user programs live in it, through
    loads and stores of little-endian words.  A pointer into a table of the kernel is an
    index.  A section under a spin lock is one step, which [Lock] justifies: at most
    one CPU owns a lock.  Interleaving is explicit where processes share data
    across sleeps: pipes, the log's reservations, disk requests, schedulers, traps.
    A call that would sleep in the middle of a larger model (an inode or a buffer locked by
    somebody else, an empty pipe or console) has the outcome [Block].

    ** Files

    - [Prelude]: outcomes, the monad, [wp] and [pwp] with their rules and tactics, machine
      integers, lists.  [Str]: kernel/string.c.  [Layout]: the macros of
      riscv.h, memlayout.h, param.h.
    - [Kalloc]: kernel/kalloc.c.  [Vm]: kernel/vm.c; [PageTable], [Uvm] and [Ucopy] give
      its functions a meaning as maps from virtual pages to entries and as the bytes a
      process sees; [Freewalk], [Aspace] and [Image] follow an address space from its first
      page to its end; [Kvm] is the kernel's own page table; [Demo] is a small
      machine for the instances in [VmSpec].
    - [ProcState], [Sched]: struct proc, the schedulers and the state changes of sleep,
      wakeup, kill and yield (kernel/proc.c); theorems in [SchedSpec].
    - [Lock], [LockSpec]: kernel/spinlock.c, an instruction per step.  [Pipe], [PipeSpec]:
      kernel/pipe.c.
    - [Bio]: kernel/bio.c and sleeplock.c; [BioProofs], [BioSpec], [BioView] its
      correctness.  [Log]: kernel/log.c; [LogProofs], [LogSpec], [LogOps], [LogSpace].
      [Block]: the class of block operations and of the laws a client of cache and log
      relies on, with the instance that discharges them.  [Fs] and [Dir]: kernel/fs.c over
      that interface; [FsAlloc], [FsFile], [FsInode], [FsRw], [Txn], [FsSpec], [DirSpec],
      and [Namei] for paths.
    - [Virtio], [VirtioSpec]: kernel/virtio_disk.c.  [Printf]: kernel/printf.c and
      procdump.  [Console], [ConsoleSpec]: kernel/uart.c and console.c.
    - [Kern] puts the state together; [File] (kernel/file.c), [Proc] (the life of a
      process), [Syscall] (kernel/syscall.c), [Sysproc] (with the arguments of
      system calls), [Sysfile], [Exec] and [Trap] are the files of the same names.
      [KernCalm], [KernInv], [FileInv], [ProcInv], [KernSpec], [KernRun] and [TrapSpec]
      prove them; [ExecLoad], [ExecStack], [ExecCommit] and [ExecSpec] prove exec.
    - [Asm]: an interpreter of the instructions that swtch.S, trampoline.S, kernelvec.S
      and entry.S use, and these files; [Boot]: start.c; [AsmSpec].  [Main]: main.c,
      plic.c and the initialisers it calls; [MainSpec].
    - [Ulib] (user/ulib.c, user/printf.c), [Grep], [Umalloc] with [UmallocSpec], [Sh] with
      [ShSpec], [Uprog] (wc, cat, echo, ls): user programs.  [Mkfs], [MkfsFile],
      [MkfsSpec]: mkfs/mkfs.c.

    ** What is shown

    - Storage.  A transaction, and so a write to a file, is atomic under a loss of power
      between any two disk writes; what is written is read back; the log never overflows
      if it has the room it reserves; a directory is a finite map; a path is its
      elements, and namei finds the inode they lead to; the image of mkfs satisfies the invariant these theorems start from.
      The driver carries out each request as asked, however requests,
      device and interrupts interleave.
    - Start.  From power on [main] reaches the scheduler, with paging on, the disk
      ready and one process, in the state the next theorems start from.
    - Processes.  In every state reached from [userinit], through any traps, system calls
      and scheduling, reference counts of open files are exact, pids are distinct and
      every process has a live parent.  No process runs on two CPUs; each scheduler
      picks what its policy says; under MLFQ a waiting process climbs to the
      first queue.
      [exec] either replaces the image of the process by what the file asks for, with the
      arguments on its stack, or changes nothing.
    - Memory.  The kernel's page table has guard pages and nothing both
      writable and executable; fork shares copy-on-write, and a write
      then touches no other process.
    - Sharing.  Spin locks exclude; a pipe is a bounded queue and loses no wakeup; the
      console is a line discipline.
    - Traps.  Context switches, traps from user space and from the kernel, the timer and
      alarms give back the registers they interrupted.
    - User programs.  The shell's parser agrees with a grammar and the shell starts
      exactly the programs its input asks for, wired as asked; malloc and free keep
      blocks apart and lose none; grep prints exactly the matching lines; the numbers of
      printf are read back by atoi; wc counts.
    - Defects.  Theorems on copyout across pages, the faulting address kept in an int,
      kill(0), a killed writer of a pipe and the log that is one block short
      exhibit runs in which the code goes wrong.

    ** Fuel

    A loop with a counter recurses on the iterations left, computed from its bounds, so
    it cannot run out.  Searches of the buffer list get [nbuf] steps, one per buffer;
    [namex] the length of the path; number output 32 digits.  Where fuel
    is an argument the theorem names an amount that is enough: the length of the
    string for string functions, four times the length of the line
    plus 4 for the shell's parser (a token is at least one byte, and at most four calls
    nest between two tokens), the length
    of the input for the shell, and 2^26 steps for malloc and free, because
    the heap has at most the 2^27 bytes of physical memory, in blocks of at least 16.

    Theorems that need free pages name a number that is enough: 333 for the kernel's page
    table (its tables, and a stack with at most two tables for each of 64 processes), 345
    for the whole start (three more for the disk, nine for the first process), and for
    exec twelve and three for each page of the image.

    ** Not modelled

    - ramdisk.c, which is not built; tests (usertests, grind, forktest and the like),
      which have no contract beyond the kernel's.
    - User programs that only hand their arguments to a system call (kill, ln,
      mkdir, rm, strace, setpriority, settickets, time, init), the listing loop of ls, and the
      [main] of cat, wc and grep, which opens the files.
    - The stubs that usys.pl generates, and linker scripts; the addresses they choose are
      parameters.
    - The hardware: devices answer as parameters of the state say; the TLB, weak memory
      and the order of device register accesses are outside the model, and the disk below
      the buffer cache writes one block at a time, atomically and in order.
    - Concurrent file-system calls of several processes: theorems about files are about
      one process between [begin_op] and [end_op]; several at a time are covered for the
      reservation of log space and for reference counts. *)

From stdpp Require Import base numbers list strings.
From Stdlib Require Import FunctionalExtensionality.
Local Open Scope Z_scope.

(** ** Outcomes of kernel code *)

(** What running a piece of kernel code gives: a value, a call of [panic]
    (printf.c), a call of [sleep] with nobody to make progress in the modelled
    step, or more loop iterations than the fuel the model gave it. *)
Inductive outcome (A : Type) : Type :=
| Ret (a : A)
| Panic (msg : string)
| Block (chan : string)
| Diverge.
Arguments Ret {A} a.
Arguments Panic {A} msg.
Arguments Block {A} chan.
Arguments Diverge {A}.

(** State-passing computations over a component's state. *)
Definition M (S A : Type) : Type := S → outcome (A * S).

#[global] Instance M_ret S : MRet (M S) := λ A a s, Ret (a, s).
#[global] Instance M_bind S : MBind (M S) := λ A B f m s,
  match m s with
  | Ret (a, s') => f a s'
  | Panic e => Panic e
  | Block c => Block c
  | Diverge => Diverge
  end.

Definition panic {S A} (msg : string) : M S A := λ _, Panic msg.
Definition block {S A} (chan : string) : M S A := λ _, Block chan.
Definition diverge {S A} : M S A := λ _, Diverge.
Definition gets {S A} (f : S → A) : M S A := λ s, Ret (f s, s).
Definition modify {S} (f : S → S) : M S unit := λ s, Ret (tt, f s).
Definition when {S} (b : bool) (m : M S unit) : M S unit :=
  if b then m else mret tt.
Definition assert {S} (b : bool) (msg : string) : M S unit :=
  if b then mret tt else panic msg.

(** Run a computation of a component inside a larger state. *)
Definition zoom {S T A} (get : S → T) (set : T → S → S) (m : M T A) : M S A := λ s,
  match m (get s) with
  | Ret (a, t) => Ret (a, set t s)
  | Panic e => Panic e
  | Block c => Block c
  | Diverge => Diverge
  end.

(** Total correctness: the code returns, without panic, without sleeping and
    within its fuel, and the result and final state satisfy [Q]. *)
Definition wp {S A} (m : M S A) (s : S) (Q : A → S → Prop) : Prop :=
  match m s with
  | Ret (a, s') => Q a s'
  | _ => False
  end.

(** Partial correctness: if the code returns, the result and final state satisfy [Q]. *)
Definition pwp {S A} (m : M S A) (s : S) (Q : A → S → Prop) : Prop :=
  match m s with
  | Ret (a, s') => Q a s'
  | _ => True
  end.

(** Projections of an outcome, for evaluating code on concrete inputs. *)
Definition run_val {S A} (o : outcome (A * S)) : option A :=
  match o with Ret (a, _) => Some a | _ => None end.
Definition run_state {S A} (o : outcome (A * S)) (d : S) : S :=
  match o with Ret (_, s) => s | _ => d end.
Definition panics {S A} (o : outcome (A * S)) : bool :=
  match o with Panic _ => true | _ => false end.

(** ** Machine integers *)

Definition u8 (x : Z) : Z := x mod 2 ^ 8.
Definition u16 (x : Z) : Z := x mod 2 ^ 16.
Definition u32 (x : Z) : Z := x mod 2 ^ 32.
Definition u64 (x : Z) : Z := x mod 2 ^ 64.
Definition i16 (x : Z) : Z := (x + 2 ^ 15) mod 2 ^ 16 - 2 ^ 15.
Definition i32 (x : Z) : Z := (x + 2 ^ 31) mod 2 ^ 32 - 2 ^ 31.
Definition i64 (x : Z) : Z := (x + 2 ^ 63) mod 2 ^ 64 - 2 ^ 63.

(** C truth value of an integer. *)
Definition nonzero (x : Z) : bool := negb (x =? 0).

(** ** Memories as functions *)

Definition upd {A} (f : Z → A) (k : Z) (v : A) : Z → A :=
  λ a, if a =? k then v else f a.

(** Byte memory and its little-endian words. *)
Fixpoint load_le (m : Z → Z) (a : Z) (n : nat) : Z :=
  match n with
  | O => 0
  | S n' => u8 (m a) + 256 * load_le m (a + 1) n'
  end.

Fixpoint store_le (m : Z → Z) (a : Z) (n : nat) (v : Z) : Z → Z :=
  match n with
  | O => m
  | S n' => upd (store_le m (a + 1) n' (v / 256)) a (u8 v)
  end.

Definition load64 (m : Z → Z) (a : Z) : Z := load_le m a 8.
Definition store64 (m : Z → Z) (a v : Z) : Z → Z := store_le m a 8 v.
Definition load32 (m : Z → Z) (a : Z) : Z := load_le m a 4.
Definition store32 (m : Z → Z) (a v : Z) : Z → Z := store_le m a 4 v.

(** ** Tactics *)

Create HintDb xv6.

(** [lia] reasons about [/] and [mod] by constants. *)
Ltac Zify.zify_post_hook ::= Z.to_euclidean_division_equations.

(** Close a range goal on machine integers. *)
Ltac word_lia :=
  unfold u8, u16, u32, u64, i16, i32, i64, nonzero in *; lia.

(** Turn the boolean tests of the code into propositions. *)
Ltac bool_cases :=
  repeat match goal with
  | H : (_ && _)%bool = true |- _ => apply andb_prop in H; destruct H
  | H : (_ || _)%bool = false |- _ => apply orb_false_elim in H; destruct H
  | H : negb _ = true |- _ => apply negb_true_iff in H
  | H : negb _ = false |- _ => apply negb_false_iff in H
  | H : (_ =? _) = true |- _ => apply Z.eqb_eq in H
  | H : (_ =? _) = false |- _ => apply Z.eqb_neq in H
  | H : (_ <? _) = true |- _ => apply Z.ltb_lt in H
  | H : (_ <? _) = false |- _ => apply Z.ltb_ge in H
  | H : (_ <=? _) = true |- _ => apply Z.leb_le in H
  | H : (_ <=? _) = false |- _ => apply Z.leb_gt in H
  end.

(** ** The monad *)

Lemma wp_ret {S A} (a : A) (s : S) (Q : A → S → Prop) : Q a s → wp (mret a) s Q.
Proof. done. Qed.

Lemma wp_bind {S A B} (m : M S A) (f : A → M S B) s (Q : B → S → Prop) :
  wp m s (λ a s', wp (f a) s' Q) → wp (m ≫= f) s Q.
Proof.
  unfold wp, mbind, M_bind. destruct (m s) as [[a s']| | |]; done.
Qed.

Lemma wp_assoc {S A B C} (m : M S A) (n : A → M S B) (k : B → M S C) s (Q : C → S → Prop) :
  wp ((x ← m; n x) ≫= k) s Q → wp (x ← m; y ← n x; k y) s Q.
Proof. unfold wp, mbind, M_bind. by destruct (m s) as [[a s']| | |]. Qed.

Lemma wp_then {S A B} (m : M S A) (n k : A → M S B) s (Q : B → S → Prop) :
  (∀ a s', wp (n a) s' Q → wp (k a) s' Q) → wp (x ← m; n x) s Q → wp (x ← m; k x) s Q.
Proof. intros H. unfold wp, mbind, M_bind in *. destruct (m s) as [[a s']| | |]; try done. apply H. Qed.

Lemma wp_flat {S A B C} (m : M S A) (n : A → M S B) (k : B → M S C) s (Q : C → S → Prop) :
  wp (x ← m; y ← n x; k y) s Q → wp ((x ← m; n x) ≫= k) s Q.
Proof. unfold wp, mbind, M_bind. by destruct (m s) as [[a s']| | |]. Qed.

Lemma wp_assoc3 {S A B C D E} (m1 : M S A) (m2 : M S B) (m3 : B → M S C) (m4 : M S D)
    (k : M S E) s (Q : E → S → Prop) :
  wp ((m1;; x ← m2; m3 x;; m4);; k) s Q → wp (m1;; x ← m2; m3 x;; m4;; k) s Q.
Proof.
  unfold wp, mbind, M_bind. destruct (m1 s) as [[a s1]| | |]; [|done..].
  destruct (m2 s1) as [[b s2]| | |]; [|done..]. by destruct (m3 b s2) as [[c s3]| | |].
Qed.

Lemma wp_mono {S A} (m : M S A) s (P Q : A → S → Prop) :
  wp m s P → (∀ a s', P a s' → Q a s') → wp m s Q.
Proof. unfold wp. destruct (m s) as [[a s']| | |]; naive_solver. Qed.

Lemma wp_gets {S A} (f : S → A) s (Q : A → S → Prop) : Q (f s) s → wp (gets f) s Q.
Proof. done. Qed.

Lemma wp_modify {S} (f : S → S) s (Q : unit → S → Prop) : Q tt (f s) → wp (modify f) s Q.
Proof. done. Qed.

Lemma wp_assert {S} (b : bool) msg (s : S) (Q : unit → S → Prop) :
  b = true → Q tt s → wp (assert b msg) s Q.
Proof. by intros ->. Qed.

Lemma wp_zoom {S T A} (get : S → T) (set : T → S → S) (m : M T A) s Q :
  wp m (get s) (λ a t, Q a (set t s)) → wp (zoom get set m) s Q.
Proof. unfold wp, zoom. destruct (m (get s)) as [[a t]| | |]; done. Qed.

Lemma wp_elim {S A} (m : M S A) s Q :
  wp m s Q → ∃ a s', m s = Ret (a, s') ∧ Q a s'.
Proof. unfold wp. destruct (m s) as [[a s']| | |]; naive_solver. Qed.

Lemma wp_intro {S A} (m : M S A) s a s' (Q : A → S → Prop) :
  m s = Ret (a, s') → Q a s' → wp m s Q.
Proof. unfold wp. by intros ->. Qed.

(** The same rules for partial correctness. *)
Lemma pwp_ret {S A} (a : A) (s : S) (Q : A → S → Prop) : Q a s → pwp (mret a) s Q.
Proof. done. Qed.

Lemma pwp_bind {S A B} (m : M S A) (f : A → M S B) s Q :
  pwp m s (λ a s', pwp (f a) s' Q) → pwp (m ≫= f) s Q.
Proof. unfold pwp, mbind, M_bind. destruct (m s) as [[a s']| | |]; done. Qed.

Lemma pwp_mono {S A} (m : M S A) s (P Q : A → S → Prop) :
  pwp m s P → (∀ a s', P a s' → Q a s') → pwp m s Q.
Proof. unfold pwp. destruct (m s) as [[a s']| | |]; auto. Qed.

Lemma pwp_zoom {S T A} (get : S → T) (set : T → S → S) (m : M T A) s Q :
  pwp m (get s) (λ a t, Q a (set t s)) → pwp (zoom get set m) s Q.
Proof. unfold pwp, zoom. by destruct (m (get s)) as [[a t]| | |]. Qed.

Lemma pwp_gets {S A} (f : S → A) s (Q : A → S → Prop) : Q (f s) s → pwp (gets f) s Q.
Proof. done. Qed.

Lemma pwp_modify {S} (f : S → S) s (Q : unit → S → Prop) : Q tt (f s) → pwp (modify f) s Q.
Proof. done. Qed.

Lemma pwp_any {S A} (m : M S A) s (Q : A → S → Prop) : (∀ a s', Q a s') → pwp m s Q.
Proof. unfold pwp. destruct (m s) as [[a s']| | |]; auto. Qed.

Lemma pwp_elim {S A} (m : M S A) s a s' (Q : A → S → Prop) : pwp m s Q → m s = Ret (a, s') → Q a s'.
Proof. unfold pwp. intros H E. by rewrite E in H. Qed.

Lemma run_ret {S A} (o : outcome (A * S)) a d :
  run_val o = Some a → o = Ret (a, run_state o d).
Proof. destruct o as [[a' s']| | |]; naive_solver. Qed.

Lemma run_val_ret {S A} (o : outcome (A * S)) a s : o = Ret (a, s) → run_val o = Some a.
Proof. by intros ->. Qed.

(** A sequence that returns, split at its first step. *)
Lemma bind_Ret {S A B} (m : M S A) (k : A → M S B) s b s' :
  (m ≫= k) s = Ret (b, s') → ∃ a s1, m s = Ret (a, s1) ∧ k a s1 = Ret (b, s').
Proof. unfold mbind, M_bind. destruct (m s) as [[a s1]| | |]; [by exists a, s1 | done..]. Qed.

(** The final state of a run that does not go wrong. *)
Lemma wp_run {S A} (m : M S A) s (Q : A → S → Prop) d :
  wp m s Q → ∃ a, Q a (run_state (m s) d).
Proof. unfold wp, run_state. destruct (m s) as [[a s']| | |]; [by exists a | done..]. Qed.

Lemma Ret_inj {A S} (a b : A) (s t : S) : Ret (a, s) = Ret (b, t) → a = b ∧ s = t.
Proof. intros H. by injection H. Qed.

Lemma bind_ret_inv {S A B} (m : M S A) (f : A → M S B) s b s' :
  (m ≫= f) s = Ret (b, s') → ∃ a s1, m s = Ret (a, s1) ∧ f a s1 = Ret (b, s').
Proof.
  unfold mbind, M_bind. destruct (m s) as [[a s1]| | |]; naive_solver.
Qed.

(** Step through straight-line monadic code. *)
Ltac wp_step :=
  match goal with
  | |- wp (_ ≫= _) _ _ => apply wp_bind
  | |- wp (mret _) _ _ => apply wp_ret
  | |- wp (gets _) _ _ => apply wp_gets
  | |- wp (modify _) _ _ => apply wp_modify
  end.
Ltac wp_steps := repeat (wp_step; simpl).

(** ** Integer lemmas *)

Lemma u8_bound x : 0 ≤ u8 x < 256.
Proof. unfold u8. apply Z.mod_pos_bound. lia. Qed.

Lemma u32_bound x : 0 ≤ u32 x < 2 ^ 32.
Proof. unfold u32. apply Z.mod_pos_bound. lia. Qed.

Lemma u64_bound x : 0 ≤ u64 x < 2 ^ 64.
Proof. unfold u64. apply Z.mod_pos_bound. lia. Qed.

Lemma i32_bound x : - 2 ^ 31 ≤ i32 x < 2 ^ 31.
Proof. unfold i32. pose proof (Z.mod_pos_bound (x + 2 ^ 31) (2 ^ 32)). lia. Qed.

Lemma u32_small x : 0 ≤ x < 2 ^ 32 → u32 x = x.
Proof. apply Z.mod_small. Qed.

Lemma u64_small x : 0 ≤ x < 2 ^ 64 → u64 x = x.
Proof. apply Z.mod_small. Qed.

Lemma i32_small x : - 2 ^ 31 ≤ x < 2 ^ 31 → i32 x = x.
Proof. intros H. unfold i32. rewrite Z.mod_small; lia. Qed.

#[export] Hint Resolve u8_bound u32_bound u64_bound i32_bound : xv6.

(** ** Updated functions *)

Lemma upd_eq {A} (f : Z → A) k v : upd f k v k = v.
Proof. unfold upd. by rewrite Z.eqb_refl. Qed.

Lemma upd_ne {A} (f : Z → A) k v a : a ≠ k → upd f k v a = f a.
Proof. intros H. unfold upd. apply Z.eqb_neq in H. by rewrite H. Qed.

Lemma store_le_out m a n v b :
  b < a ∨ a + Z.of_nat n ≤ b → store_le m a n v b = m b.
Proof.
  revert a v. induction n as [|n IH]; intros a v Hb; [done|].
  cbn [store_le]. rewrite upd_ne by lia. apply IH. lia.
Qed.

Lemma load_le_ext m m' a n :
  (∀ b, a ≤ b < a + Z.of_nat n → m b = m' b) → load_le m a n = load_le m' a n.
Proof.
  revert a. induction n as [|n IH]; intros a Hb; [done|].
  cbn [load_le]. rewrite (Hb a) by lia. rewrite (IH (a + 1)); [done|].
  intros b Hb'. apply Hb. lia.
Qed.

Lemma load_le_bound m a n : 0 ≤ load_le m a n < 256 ^ Z.of_nat n.
Proof.
  revert a. induction n as [|n IH]; intros a; [simpl; lia|].
  cbn [load_le]. rewrite Nat2Z.inj_succ, Z.pow_succ_r by lia.
  specialize (IH (a + 1)). pose proof (u8_bound (m a)). lia.
Qed.

Lemma load_store_le m a n v : load_le (store_le m a n v) a n = v mod 256 ^ Z.of_nat n.
Proof.
  revert a v. induction n as [|n IH]; intros a v.
  { simpl. by rewrite Z.mod_1_r. }
  cbn [load_le store_le]. rewrite upd_eq.
  rewrite (load_le_ext _ (store_le m (a + 1) n (v / 256))).
  2: { intros b Hb. apply upd_ne. lia. }
  rewrite IH, Nat2Z.inj_succ, Z.pow_succ_r by lia.
  rewrite Z.rem_mul_r by (try lia; apply Z.pow_pos_nonneg; lia).
  unfold u8. change (2 ^ 8) with 256.
  rewrite Z.mod_mod by lia. lia.
Qed.

Lemma load64_store64 m a v : load64 (store64 m a v) a = u64 v.
Proof. unfold load64, store64. rewrite load_store_le. done. Qed.

Lemma load64_store64_ne m a b v :
  b + 8 ≤ a ∨ a + 8 ≤ b → load64 (store64 m a v) b = load64 m b.
Proof.
  intros H. apply load_le_ext. intros c Hc. apply store_le_out. lia.
Qed.

Lemma store64_out m a v b : b < a ∨ a + 8 ≤ b → store64 m a v b = m b.
Proof. intros H. apply store_le_out. lia. Qed.

Lemma load64_bound m a : 0 ≤ load64 m a < 2 ^ 64.
Proof. apply (load_le_bound m a 8). Qed.

Lemma load64_ext m m' a :
  (∀ b, a ≤ b < a + 8 → m b = m' b) → load64 m a = load64 m' a.
Proof. intros H. apply load_le_ext. intros b Hb. apply H. lia. Qed.

Lemma load_store_le_out m a n v b k :
  b + Z.of_nat k ≤ a ∨ a + Z.of_nat n ≤ b → load_le (store_le m a n v) b k = load_le m b k.
Proof. intros H. apply load_le_ext. intros c Hc. apply store_le_out. lia. Qed.

Lemma load32_store32_ne m a b v :
  b + 4 ≤ a ∨ a + 4 ≤ b → load32 (store32 m a v) b = load32 m b.
Proof. intros H. apply load_le_ext. intros c Hc. apply store_le_out. lia. Qed.

Lemma load32_bound m a : 0 ≤ load32 m a < 2 ^ 32.
Proof. apply (load_le_bound m a 4). Qed.

Lemma load32_store32 m a v : load32 (store32 m a v) a = u32 v.
Proof. unfold load32, store32. rewrite load_store_le. done. Qed.

#[export] Hint Resolve load64_bound : xv6.
Create Rewrite HintDb xv6_mem.
#[export] Hint Rewrite @upd_eq load64_store64 : xv6_mem.

(** ** Folds of a state update over a range of indices *)

Lemma nonzero_true x : nonzero x = true ↔ x ≠ 0.
Proof. unfold nonzero. rewrite negb_true_iff, Z.eqb_neq. done. Qed.

Lemma nonzero_false x : nonzero x = false ↔ x = 0.
Proof. unfold nonzero. rewrite negb_false_iff, Z.eqb_eq. done. Qed.

(** ** Lists *)

Lemma insert_Some {A} (l : list A) (c d : nat) (x x0 y : A) :
  l !! c = Some x0 →
  <[c:=x]> l !! d = Some y ↔ (d = c ∧ x = y) ∨ (d ≠ c ∧ l !! d = Some y).
Proof.
  intros Hc. destruct (decide (d = c)) as [->|Hd].
  - rewrite list_lookup_insert_eq by (by eapply lookup_lt_Some).
    split; [intros [= ->]; by left | intros [[_ ->]|[? _]]; done].
  - rewrite list_lookup_insert_ne by done.
    split; [by right | intros [[? _]|[_ ?]]; done].
Qed.
