(* ===== verification/Str.v ===== *)
(** * kernel/string.c: byte and string routines over a byte memory

    The routines run on a memory [Z → Z] of bytes.  Each loop of the source is
    a [Fixpoint] on the number of iterations left ([memset], [memmove],
    [memcmp], [strncmp], [strncpy], [safestrcpy]) or on fuel ([strlen]).  The
    theorems give their input/output behaviour; [mset] and [mmove] are the
    closed forms the memory-management files use in place of the loops, and
    [memset_mset] and [memmove_mmove] show that they are the same functions. *)

From stdpp Require Import base numbers list strings.
From Stdlib Require Import FunctionalExtensionality.
From S2P Require Import Prelude.
Local Open Scope Z_scope.

(** ** The routines *)

Fixpoint memset_loop (n : nat) (i dst c : Z) (m : Z → Z) : Z → Z :=
  match n with
  | O => m
  | S n' => memset_loop n' (i + 1) dst c (upd m (dst + i) (u8 c))
  end.

Definition memset (dst c n : Z) (m : Z → Z) : Z → Z :=
  memset_loop (Z.to_nat (u32 n)) 0 dst c m.

Fixpoint memcmp_loop (n : nat) (s1 s2 : Z) (m : Z → Z) : Z :=
  match n with
  | O => 0
  | S n' =>
      if negb (u8 (m s1) =? u8 (m s2)) then u8 (m s1) - u8 (m s2)
      else memcmp_loop n' (s1 + 1) (s2 + 1) m
  end.

Definition memcmp (v1 v2 n : Z) (m : Z → Z) : Z :=
  memcmp_loop (Z.to_nat (u32 n)) v1 v2 m.

(** [while(n-- > 0) *--d = *--s;] *)
Fixpoint move_down (n : nat) (d s : Z) (m : Z → Z) : Z → Z :=
  match n with
  | O => m
  | S n' => move_down n' (d - 1) (s - 1) (upd m (d - 1) (m (s - 1)))
  end.

(** [while(n-- > 0) *d++ = *s++;] *)
Fixpoint move_up (n : nat) (d s : Z) (m : Z → Z) : Z → Z :=
  match n with
  | O => m
  | S n' => move_up n' (d + 1) (s + 1) (upd m d (m s))
  end.

Definition memmove (dst src n : Z) (m : Z → Z) : Z → Z :=
  let n := u32 n in
  if n =? 0 then m
  else if (src <? dst) && (dst <? src + n)
  then move_down (Z.to_nat n) (dst + n) (src + n) m
  else move_up (Z.to_nat n) dst src m.

Definition memcpy (dst src n : Z) (m : Z → Z) : Z → Z := memmove dst src n m.

(** The loop [while(n > 0 && *p && *p == *q) n--, p++, q++;] and the tests
    after it. *)
Fixpoint strncmp_loop (n : nat) (p q : Z) (m : Z → Z) : Z :=
  match n with
  | O => 0
  | S n' =>
      if nonzero (u8 (m p)) && (u8 (m p) =? u8 (m q))
      then strncmp_loop n' (p + 1) (q + 1) m
      else u8 (m p) - u8 (m q)
  end.

Definition strncmp (p q n : Z) (m : Z → Z) : Z :=
  strncmp_loop (Z.to_nat (u32 n)) p q m.

(** The second loop of [strncpy]: [while(n-- > 0) *s++ = 0;]. *)
Fixpoint strncpy_pad (n : nat) (s : Z) (m : Z → Z) : Z → Z :=
  match n with
  | O => m
  | S n' => strncpy_pad n' (s + 1) (upd m s 0)
  end.

(** The first loop: [while(n-- > 0 && ( *s++ = *t++ ) != 0);]. *)
Fixpoint strncpy_loop (n : nat) (s t : Z) (m : Z → Z) : Z → Z :=
  match n with
  | O => m
  | S n' =>
      let c := u8 (m t) in
      if nonzero c then strncpy_loop n' (s + 1) (t + 1) (upd m s c)
      else strncpy_pad n' (s + 1) (upd m s c)
  end.

Definition strncpy (s t n : Z) (m : Z → Z) : Z → Z :=
  strncpy_loop (Z.to_nat n) s t m.

(** [while(--n > 0 && ( *s++ = *t++ ) != 0); *s = 0;], entered with [n > 0]
    and [k = n - 1] copies left.  When a NUL is copied, [s] already points
    past it and the final store writes a second one there. *)
Fixpoint safestrcpy_loop (k : nat) (s t : Z) (m : Z → Z) : Z → Z :=
  match k with
  | O => upd m s 0
  | S k' =>
      let c := u8 (m t) in
      if nonzero c then safestrcpy_loop k' (s + 1) (t + 1) (upd m s c)
      else upd (upd m s c) (s + 1) 0
  end.

Definition safestrcpy (s t n : Z) (m : Z → Z) : Z → Z :=
  if n <=? 0 then m else safestrcpy_loop (Z.to_nat (n - 1)) s t m.

(** [for(n = 0; s[n]; n++);] with fuel; [None] when the fuel runs out. *)
Fixpoint strlen_loop (fuel : nat) (n s : Z) (m : Z → Z) : option Z :=
  match fuel with
  | O => None
  | S f => if nonzero (u8 (m (s + n))) then strlen_loop f (n + 1) s m else Some n
  end.

Definition strlen (fuel : nat) (s : Z) (m : Z → Z) : option Z :=
  strlen_loop fuel 0 s m.

(** ** Specification vocabulary *)

(** Closed forms of [memset] and [memmove]. *)
Definition mset (dst c n : Z) (m : Z → Z) : Z → Z := λ a,
  if (dst <=? a) && (a <? dst + n) then u8 c else m a.

Definition mmove (dst src n : Z) (m : Z → Z) : Z → Z := λ a,
  if (dst <=? a) && (a <? dst + n) then m (src + (a - dst)) else m a.

(** The C string at [p], cut at its NUL or after [n] bytes. *)
Fixpoint cstr (n : nat) (p : Z) (m : Z → Z) : list Z :=
  match n with
  | O => []
  | S n' => if nonzero (u8 (m p)) then u8 (m p) :: cstr n' (p + 1) m else []
  end.

(** ** [memset] and [memmove] *)

Lemma memset_loop_spec n i dst c m a :
  memset_loop n i dst c m a =
  if (dst + i <=? a) && (a <? dst + i + Z.of_nat n) then u8 c else m a.
Proof.
  revert i m. induction n as [|n IH]; intros i m; cbn [memset_loop].
  { destruct (Z.leb_spec (dst + i) a), (Z.ltb_spec a (dst + i + Z.of_nat 0)); simpl; lia || done. }
  rewrite IH. unfold upd.
  destruct (Z.leb_spec (dst + (i + 1)) a), (Z.ltb_spec a (dst + (i + 1) + Z.of_nat n)),
    (Z.leb_spec (dst + i) a), (Z.ltb_spec a (dst + i + Z.of_nat (S n))),
    (Z.eqb_spec a (dst + i)); simpl; lia || done.
Qed.

(** [memset] is its closed form. *)
Lemma memset_mset dst c n m : 0 ≤ n < 2 ^ 32 → memset dst c n m = mset dst c n m.
Proof.
  intros Hn. extensionality a. unfold memset, mset.
  rewrite memset_loop_spec, u32_small, Z2Nat.id, Z.add_0_r by lia. done.
Qed.

Lemma move_up_spec n d s m a :
  ¬ (s < d < s + Z.of_nat n) →
  move_up n d s m a =
  if (d <=? a) && (a <? d + Z.of_nat n) then m (s + (a - d)) else m a.
Proof.
  revert d s m. induction n as [|n IH]; intros d s m Hno; cbn [move_up].
  { destruct (Z.leb_spec d a), (Z.ltb_spec a (d + Z.of_nat 0)); simpl; lia || done. }
  rewrite IH by lia. unfold upd.
  destruct (Z.leb_spec (d + 1) a), (Z.ltb_spec a (d + 1 + Z.of_nat n)),
    (Z.leb_spec d a), (Z.ltb_spec a (d + Z.of_nat (S n))),
    (Z.eqb_spec a d), (Z.eqb_spec (s + 1 + (a - (d + 1))) d); simpl; try lia;
    try done; f_equal; lia.
Qed.

Lemma move_down_spec n d s m a :
  ¬ (d < s < d + Z.of_nat n) →
  move_down n d s m a =
  if (d - Z.of_nat n <=? a) && (a <? d) then m (s + (a - d)) else m a.
Proof.
  revert d s m. induction n as [|n IH]; intros d s m Hno; cbn [move_down].
  { destruct (Z.leb_spec (d - Z.of_nat 0) a), (Z.ltb_spec a d); simpl; lia || done. }
  rewrite IH by lia. unfold upd.
  destruct (Z.leb_spec (d - 1 - Z.of_nat n) a), (Z.ltb_spec a (d - 1)),
    (Z.leb_spec (d - Z.of_nat (S n)) a), (Z.ltb_spec a d),
    (Z.eqb_spec a (d - 1)), (Z.eqb_spec (s - 1 + (a - (d - 1))) (d - 1)); simpl; try lia;
    try done; f_equal; lia.
Qed.

Lemma memmove_mmove dst src n m :
  0 ≤ n < 2 ^ 32 → memmove dst src n m = mmove dst src n m.
Proof.
  intros Hn. extensionality a. unfold memmove, mmove. rewrite u32_small by lia. cbn zeta.
  destruct (Z.eqb_spec n 0) as [->|].
  { destruct (Z.leb_spec dst a), (Z.ltb_spec a (dst + 0)); simpl; lia || done. }
  destruct (Z.ltb_spec src dst), (Z.ltb_spec dst (src + n)); simpl;
    rewrite ?move_down_spec, ?move_up_spec by lia; rewrite ?Z2Nat.id by lia;
    try done.
  replace (dst + n - n) with dst by lia.
  replace (src + n + (a - (dst + n))) with (src + (a - dst)) by lia. done.
Qed.

(** [memmove] copies correctly whether or not the two regions overlap: each
    byte of the destination becomes the byte the source region held before the
    call, and no other byte changes. *)
Theorem memmove_correct dst src n m a :
  0 ≤ n < 2 ^ 32 →
  memmove dst src n m a =
  if (dst <=? a) && (a <? dst + n) then m (src + (a - dst)) else m a.
Proof. intros Hn. by rewrite memmove_mmove. Qed.

Lemma memmove_correct_witness :
  memmove 101 100 4 (λ a, a) 104 = 103.
Proof. rewrite (memmove_correct 101 100 4 (λ a, a) 104); [reflexivity | lia]. Defined.

(** ** Strings *)

Lemma memcmp_loop_0 n s1 s2 m :
  memcmp_loop n s1 s2 m = 0 ↔
  (∀ i, 0 ≤ i < Z.of_nat n → u8 (m (s1 + i)) = u8 (m (s2 + i))).
Proof.
  revert s1 s2. induction n as [|n IH]; intros s1 s2; cbn [memcmp_loop].
  { split; [intros _ i Hi; lia | done]. }
  destruct (Z.eqb_spec (u8 (m s1)) (u8 (m s2))) as [E|E]; simpl.
  - rewrite IH. split; intros H i Hi.
    + destruct (decide (i = 0)) as [->|]; [by rewrite !Z.add_0_r|].
      specialize (H (i - 1)). replace (s1 + 1 + (i - 1)) with (s1 + i) in H by lia.
      replace (s2 + 1 + (i - 1)) with (s2 + i) in H by lia. apply H. lia.
    + specialize (H (i + 1)). replace (s1 + (i + 1)) with (s1 + 1 + i) in H by lia.
      replace (s2 + (i + 1)) with (s2 + 1 + i) in H by lia. apply H. lia.
  - split; [lia|]. intros H. specialize (H 0). rewrite !Z.add_0_r in H.
    destruct E. apply H. lia.
Qed.

Lemma strncmp_loop_cstr n p q m :
  strncmp_loop n p q m = 0 ↔ cstr n p m = cstr n q m.
Proof.
  revert p q. induction n as [|n IH]; intros p q; cbn [strncmp_loop cstr]; [done|].
  destruct (nonzero (u8 (m p))) eqn:Ep; simpl.
  - destruct (Z.eqb_spec (u8 (m p)) (u8 (m q))) as [E|E].
    + rewrite IH, <- E, Ep. split; [by intros -> | by intros [=]].
    + split; [lia|]. destruct (nonzero (u8 (m q))); [by intros [=] | done].
  - apply nonzero_false in Ep. rewrite Ep.
    destruct (nonzero (u8 (m q))) eqn:Eq.
    + apply nonzero_true in Eq. split; [lia | done].
    + apply nonzero_false in Eq. rewrite Eq. done.
Qed.

(** [strncmp(p, q, n)] is 0 exactly when the two C strings, cut after [n]
    bytes, are the same string. *)
Theorem strncmp_equal p q n m :
  0 ≤ n < 2 ^ 32 →
  strncmp p q n m = 0 ↔ cstr (Z.to_nat n) p m = cstr (Z.to_nat n) q m.
Proof. intros Hn. unfold strncmp. rewrite u32_small by lia. apply strncmp_loop_cstr. Qed.

Lemma strncmp_equal_witness :
  strncmp 0 10 3 (λ a, if a <? 10 then 97 + a else 87 + a) = 0.
Proof. apply (strncmp_equal 0 10 3); [lia | reflexivity]. Defined.

(** A store outside the bytes a string occupies does not change it. *)
Lemma cstr_ext n p m m' :
  (∀ a, p ≤ a < p + Z.of_nat n → m a = m' a) → cstr n p m = cstr n p m'.
Proof.
  revert p. induction n as [|n IH]; intros p H; cbn [cstr]; [done|].
  rewrite (H p) by lia. rewrite (IH (p + 1)); [done|]. intros a Ha. apply H. lia.
Qed.

Lemma strncpy_pad_out n s m a :
  a < s ∨ s + Z.of_nat n ≤ a → strncpy_pad n s m a = m a.
Proof.
  revert s m. induction n as [|n IH]; intros s m Ha; cbn [strncpy_pad]; [done|].
  rewrite IH, upd_ne by lia. done.
Qed.

Lemma strncpy_loop_out n s t m a :
  a < s ∨ s + Z.of_nat n ≤ a → strncpy_loop n s t m a = m a.
Proof.
  revert s t m. induction n as [|n IH]; intros s t m Ha; cbn [strncpy_loop]; [done|].
  destruct (nonzero (u8 (m t))).
  - rewrite IH, upd_ne by lia. done.
  - rewrite strncpy_pad_out, upd_ne by lia. done.
Qed.

Lemma u8_idem x : u8 (u8 x) = u8 x.
Proof. unfold u8. apply Z.mod_mod. lia. Qed.

Lemma strncpy_loop_cstr n s t m :
  t + Z.of_nat n ≤ s ∨ s + Z.of_nat n ≤ t →
  cstr n s (strncpy_loop n s t m) = cstr n t m.
Proof.
  revert s t m. induction n as [|n IH]; intros s t m Hd; [done|].
  cbn [strncpy_loop]. destruct (nonzero (u8 (m t))) eqn:E; cbn [cstr]; rewrite E.
  - rewrite strncpy_loop_out, upd_eq, u8_idem, E by lia. f_equal.
    rewrite IH by lia. apply cstr_ext. intros a Ha. apply upd_ne. lia.
  - rewrite strncpy_pad_out, upd_eq, u8_idem, E by lia. done.
Qed.

(** [strncpy] into a disjoint buffer of [n] bytes stores the source string
    cut after [n] bytes and changes nothing outside the buffer. *)
Theorem strncpy_correct s t n m :
  0 ≤ n → t + n ≤ s ∨ s + n ≤ t →
  cstr (Z.to_nat n) s (strncpy s t n m) = cstr (Z.to_nat n) t m ∧
  (∀ a, a < s ∨ s + n ≤ a → strncpy s t n m a = m a).
Proof.
  intros Hn Hd. unfold strncpy. split.
  - apply strncpy_loop_cstr. lia.
  - intros a Ha. apply strncpy_loop_out. lia.
Qed.

Lemma strncpy_correct_witness :
  cstr (Z.to_nat 4) 20 (strncpy 20 0 4 (λ a, if a <? 3 then 97 + a else 0)) = [97; 98; 99].
Proof.
  rewrite (proj1 (strncpy_correct 20 0 4 (λ a, if a <? 3 then 97 + a else 0)
    ltac:(lia) ltac:(lia))).
  reflexivity.
Defined.

Lemma safestrcpy_loop_out k s t m a :
  a < s ∨ s + Z.of_nat k < a → safestrcpy_loop k s t m a = m a.
Proof.
  revert s t m. induction k as [|k IH]; intros s t m Ha; cbn [safestrcpy_loop].
  { rewrite upd_ne by lia. done. }
  destruct (nonzero (u8 (m t))); rewrite ?IH, ?upd_ne by lia; done.
Qed.

Lemma safestrcpy_loop_cstr k s t m :
  t + Z.of_nat k ≤ s ∨ s + Z.of_nat k < t →
  cstr (S k) s (safestrcpy_loop k s t m) = cstr k t m.
Proof.
  revert s t m. induction k as [|k IH]; intros s t m Hd.
  { cbn. rewrite upd_eq. done. }
  cbn [safestrcpy_loop]. remember (S k) as k1 eqn:Ek1. cbn [cstr]. subst k1.
  destruct (nonzero (u8 (m t))) eqn:E.
  - rewrite safestrcpy_loop_out, upd_eq, u8_idem, E by lia.
    rewrite IH by lia. cbn [cstr]. rewrite E. f_equal. apply cstr_ext.
    intros a Ha. apply upd_ne. lia.
  - rewrite upd_ne, upd_eq, u8_idem, E by lia. cbn [cstr]. by rewrite E.
Qed.

(** [safestrcpy] into a disjoint buffer of [n > 0] bytes always leaves a
    NUL-terminated string there, the source cut to [n - 1] bytes, and writes
    nothing outside the [n] bytes. *)
Theorem safestrcpy_terminates s t n m :
  0 < n → t + n ≤ s ∨ s + n ≤ t →
  cstr (Z.to_nat n) s (safestrcpy s t n m) = cstr (Z.to_nat (n - 1)) t m ∧
  (∀ a, a < s ∨ s + n ≤ a → safestrcpy s t n m a = m a).
Proof.
  intros Hn Hd. unfold safestrcpy. destruct (Z.leb_spec n 0); [lia|]. split.
  - replace (Z.to_nat n) with (S (Z.to_nat (n - 1))) by lia.
    apply safestrcpy_loop_cstr. lia.
  - intros a Ha. apply safestrcpy_loop_out. lia.
Qed.

Lemma safestrcpy_terminates_witness :
  cstr (Z.to_nat 3) 20 (safestrcpy 20 0 3 (λ a, if a <? 5 then 97 + a else 0)) = [97; 98].
Proof.
  rewrite (proj1 (safestrcpy_terminates 20 0 3 (λ a, if a <? 5 then 97 + a else 0)
    ltac:(lia) ltac:(lia))).
  reflexivity.
Defined.

Lemma strlen_loop_enough fuel n s m k :
  n ≤ k → (Z.to_nat (k - n) < fuel)%nat →
  (∀ i, n ≤ i < k → u8 (m (s + i)) ≠ 0) → u8 (m (s + k)) = 0 →
  strlen_loop fuel n s m = Some k.
Proof.
  revert n. induction fuel as [|f IH]; intros n Hle Hf Hnz Hz; [lia|].
  cbn [strlen_loop]. destruct (decide (n = k)) as [->|].
  - rewrite Hz. done.
  - rewrite (proj2 (nonzero_true _)) by (apply Hnz; lia).
    apply IH; [lia | lia | intros i Hi; apply Hnz; lia | done].
Qed.

(** [strlen] returns the position of the first NUL, with any fuel above it. *)
Lemma strlen_correct fuel s m k :
  0 ≤ k → (Z.to_nat k < fuel)%nat →
  (∀ i, 0 ≤ i < k → u8 (m (s + i)) ≠ 0) → u8 (m (s + k)) = 0 →
  strlen fuel s m = Some k.
Proof. intros. apply strlen_loop_enough; [lia | by rewrite Z.sub_0_r | done | done]. Qed.
