(* ===== verification/Layout.v ===== *)
(** * kernel/riscv.h, kernel/memlayout.h, kernel/param.h: constants and macros

    The address-arithmetic macros of riscv.h ([PGROUNDUP], [PA2PTE], [PX], ...)
    as functions on [Z], the memory layout, the table sizes of param.h, and the
    addresses the linker script kernel.ld defines, which are a parameter
    ([Linker]) with the order kernel.ld gives them ([LinkerOk]). *)

From stdpp Require Import base numbers list strings.
From S2P Require Import Prelude.
Local Open Scope Z_scope.

(** ** riscv.h *)

Definition PGSIZE : Z := 4096.
Definition PGSHIFT : Z := 12.

Definition PGROUNDUP (sz : Z) : Z := Z.land (u64 (sz + PGSIZE - 1)) (Z.lnot (PGSIZE - 1)).
Definition PGROUNDDOWN (a : Z) : Z := Z.land a (Z.lnot (PGSIZE - 1)).

Definition PTE_V : Z := Z.shiftl 1 0.
Definition PTE_R : Z := Z.shiftl 1 1.
Definition PTE_W : Z := Z.shiftl 1 2.
Definition PTE_X : Z := Z.shiftl 1 3.
Definition PTE_U : Z := Z.shiftl 1 4.
Definition PTE_COW : Z := Z.shiftl 1 8.

Definition PA2PTE (pa : Z) : Z := u64 (Z.shiftl (Z.shiftr pa 12) 10).
Definition PTE2PA (pte : Z) : Z := u64 (Z.shiftl (Z.shiftr pte 10) 12).
Definition PTE_FLAGS (pte : Z) : Z := Z.land pte 0x3FF.

Definition PXMASK : Z := 0x1FF.
Definition PXSHIFT (level : Z) : Z := PGSHIFT + 9 * level.
Definition PX (level va : Z) : Z := Z.land (Z.shiftr va (PXSHIFT level)) PXMASK.

Definition MAXVA : Z := Z.shiftl 1 (9 + 9 + 9 + 12 - 1).

(** ** memlayout.h *)

Definition UART0 : Z := 0x10000000.
Definition VIRTIO0 : Z := 0x10001000.
Definition PLIC : Z := 0x0c000000.
Definition KERNBASE : Z := 0x80000000.
Definition PHYSTOP : Z := KERNBASE + 128 * 1024 * 1024.
Definition TRAMPOLINE : Z := MAXVA - PGSIZE.
Definition KSTACK (p : Z) : Z := TRAMPOLINE - (p + 1) * 2 * PGSIZE.
Definition TRAPFRAME : Z := TRAMPOLINE - PGSIZE.

(** ** param.h *)

Definition NPROC : Z := 64.
Definition NOFILE : Z := 16.
Definition NFILE : Z := 100.
Definition NINODE : Z := 50.
Definition NDEV : Z := 10.
Definition ROOTDEV : Z := 1.
Definition MAXARG : Z := 32.
Definition MAXOPBLOCKS : Z := 10.
Definition LOGSIZE : Z := MAXOPBLOCKS * 3.
Definition NBUF : Z := MAXOPBLOCKS * 3.
Definition FSSIZE : Z := 2000.
Definition MAXPATH : Z := 128.

(** ** kernel.ld *)

(** The symbols of the linker script: the trampoline page, the end of the
    kernel text and the first address after the kernel. *)
Class Linker := {
  lk_trampoline : Z;
  lk_etext : Z;
  lk_end : Z;
}.

(** kernel.ld places the kernel at [KERNBASE], aligns the trampoline page and
    [etext] to a page, and puts [end] last; the image fits in RAM. *)
Class LinkerOk (L : Linker) : Prop := {
  lk_trampoline_lo : KERNBASE ≤ lk_trampoline;
  lk_trampoline_al : lk_trampoline mod PGSIZE = 0;
  lk_etext_al : lk_etext mod PGSIZE = 0;
  lk_order1 : lk_trampoline + PGSIZE ≤ lk_etext;
  lk_order2 : lk_etext ≤ lk_end;
  lk_fits : lk_end ≤ PHYSTOP;
}.

(** ** Page arithmetic *)

(** Constants unfolded for [lia]. *)
Ltac layout_lia :=
  unfold TRAPFRAME, KSTACK, TRAMPOLINE, PHYSTOP, KERNBASE, PGSIZE, PGSHIFT in *;
  try change MAXVA with 274877906944 in *; lia.

Lemma land_lnot_page a : Z.land a (Z.lnot 4095) = a - a mod 4096.
Proof.
  change (Z.lnot 4095) with (Z.lnot (Z.ones 12)).
  rewrite <- Z.ldiff_land, Z.ldiff_ones_r, Z.shiftl_mul_pow2, Z.shiftr_div_pow2 by lia.
  change (2 ^ 12) with 4096. lia.
Qed.

Lemma PGROUNDDOWN_spec a : PGROUNDDOWN a = a - a mod PGSIZE.
Proof. apply land_lnot_page. Qed.

Lemma PGROUNDDOWN_mod a : PGROUNDDOWN a mod PGSIZE = 0.
Proof. rewrite PGROUNDDOWN_spec. unfold PGSIZE. lia. Qed.

Lemma PGROUNDDOWN_id a : a mod PGSIZE = 0 → PGROUNDDOWN a = a.
Proof. rewrite PGROUNDDOWN_spec. lia. Qed.

Lemma PGROUNDUP_spec sz :
  0 ≤ sz < 2 ^ 64 - PGSIZE → PGROUNDUP sz = (sz + 4095) / 4096 * 4096.
Proof.
  intros H. unfold PGROUNDUP. rewrite u64_small by (unfold PGSIZE in *; lia).
  change (PGSIZE - 1) with 4095. rewrite land_lnot_page. unfold PGSIZE. lia.
Qed.

Lemma PGROUNDUP_mod sz : 0 ≤ sz < 2 ^ 64 - PGSIZE → PGROUNDUP sz mod PGSIZE = 0.
Proof. intros H. rewrite PGROUNDUP_spec by done. unfold PGSIZE. lia. Qed.

Lemma PGROUNDUP_bounds sz :
  0 ≤ sz < 2 ^ 64 - PGSIZE → sz ≤ PGROUNDUP sz < sz + PGSIZE.
Proof. intros H. rewrite PGROUNDUP_spec by done. unfold PGSIZE. lia. Qed.

Lemma PGROUNDUP_id sz :
  0 ≤ sz < 2 ^ 64 - PGSIZE → sz mod PGSIZE = 0 → PGROUNDUP sz = sz.
Proof. intros H. rewrite PGROUNDUP_spec by done. unfold PGSIZE. lia. Qed.

(** ** Page-table entries *)

Lemma PA2PTE_spec pa : 0 ≤ pa < 2 ^ 56 → PA2PTE pa = pa / 4096 * 1024.
Proof.
  intros H. unfold PA2PTE. rewrite Z.shiftr_div_pow2, Z.shiftl_mul_pow2 by lia.
  rewrite u64_small; [done|]. change (2 ^ 12) with 4096. lia.
Qed.

Lemma PTE2PA_spec pte : 0 ≤ pte < 2 ^ 62 → PTE2PA pte = pte / 1024 * 4096.
Proof.
  intros H. unfold PTE2PA. rewrite Z.shiftr_div_pow2, Z.shiftl_mul_pow2 by lia.
  rewrite u64_small; [done|]. change (2 ^ 10) with 1024. lia.
Qed.

(** A flag test of the code is a bit test. *)
Lemma land_bit x k : 0 ≤ k → nonzero (Z.land x (Z.shiftl 1 k)) = Z.testbit x k.
Proof.
  intros Hk. destruct (Z.testbit x k) eqn:E.
  - apply nonzero_true. intros H0. apply (f_equal (λ z, Z.testbit z k)) in H0.
    rewrite Z.land_spec, E, Z.shiftl_spec, Z.sub_diag, Z.bits_0 in H0 by lia. done.
  - apply nonzero_false. apply Z.bits_inj'. intros n Hn.
    rewrite Z.land_spec, Z.bits_0, Z.shiftl_spec by lia.
    destruct (decide (n = k)) as [->|]; [by rewrite E|].
    destruct (Z.ltb_spec n k).
    + rewrite (Z.testbit_neg_r 1) by lia. apply andb_false_r.
    + rewrite (Z.bits_above_log2 1 (n - k)) by (simpl; lia). apply andb_false_r.
Qed.

Lemma shiftr_small f k : 0 ≤ k → 0 ≤ f < 2 ^ k → Z.shiftr f k = 0.
Proof. intros Hk Hf. rewrite Z.shiftr_div_pow2 by lia. by apply Z.div_small. Qed.

(** [PA2PTE] leaves the ten flag bits clear. *)
Lemma PA2PTE_testbit pa k :
  0 ≤ pa < 2 ^ 56 → 0 ≤ k < 10 → Z.testbit (PA2PTE pa) k = false.
Proof.
  intros Hpa Hk. rewrite PA2PTE_spec by done. change 1024 with (2 ^ 10).
  rewrite <- Z.shiftl_mul_pow2, Z.shiftl_spec by lia. apply Z.testbit_neg_r. lia.
Qed.

(** The page of an entry is the page it was built from, whatever its flags. *)
Lemma PTE2PA_PA2PTE pa f :
  0 ≤ pa < 2 ^ 56 → pa mod PGSIZE = 0 → 0 ≤ f < 1024 →
  PTE2PA (Z.lor (PA2PTE pa) f) = pa.
Proof.
  intros Hpa Hal Hf. unfold PTE2PA. rewrite Z.shiftr_lor, (shiftr_small f) by lia.
  rewrite Z.lor_0_r, PA2PTE_spec by done.
  rewrite Z.shiftr_div_pow2, Z.shiftl_mul_pow2 by lia.
  change (2 ^ 10) with 1024. change (2 ^ 12) with 4096. unfold PGSIZE in Hal.
  rewrite u64_small; lia.
Qed.

Lemma PTE_FLAGS_PA2PTE pa f :
  0 ≤ pa < 2 ^ 56 → 0 ≤ f < 1024 → PTE_FLAGS (Z.lor (PA2PTE pa) f) = f.
Proof.
  intros Hpa Hf. unfold PTE_FLAGS. change 0x3FF with (Z.ones 10).
  rewrite Z.land_lor_distr_l, !Z.land_ones by lia. change (2 ^ 10) with 1024.
  rewrite (Z.mod_small f), PA2PTE_spec, Z.mod_mul by lia. apply Z.lor_0_l.
Qed.

Lemma lor_bound a b n : 0 ≤ n → 0 ≤ a < 2 ^ n → 0 ≤ b < 2 ^ n → 0 ≤ Z.lor a b < 2 ^ n.
Proof.
  intros Hn Ha Hb. split; [apply Z.lor_nonneg; lia|].
  destruct (decide (Z.lor a b = 0)) as [->|Hz]; [apply Z.pow_pos_nonneg; lia|].
  pose proof (Z.lor_nonneg a b). apply Z.log2_lt_pow2; [lia|].
  rewrite Z.log2_lor by lia. apply Z.max_lub_lt.
  - destruct (decide (a = 0)) as [->|]; [|apply Z.log2_lt_pow2; lia].
    simpl. destruct (decide (n = 0)) as [->|]; [|lia]. simpl in *.
    assert (b = 0) by lia. subst b. done.
  - destruct (decide (b = 0)) as [->|]; [|apply Z.log2_lt_pow2; lia].
    simpl. destruct (decide (n = 0)) as [->|]; [|lia]. simpl in *.
    assert (a = 0) by lia. subst a. done.
Qed.

Lemma land_bound a b n : 0 ≤ n → 0 ≤ a < 2 ^ n → 0 ≤ Z.land a b < 2 ^ n.
Proof.
  intros Hn Ha. split; [apply Z.land_nonneg; lia|].
  assert (E : Z.land (Z.land a b) (Z.ones n) = Z.land a b).
  { rewrite <- Z.land_assoc, (Z.land_comm b), Z.land_assoc, Z.land_ones by lia.
    by rewrite Z.mod_small. }
  rewrite <- E, Z.land_ones by lia. apply Z.mod_pos_bound, Z.pow_pos_nonneg; lia.
Qed.

(** An entry without reserved bits is its page number and its flags. *)
Lemma pte_split w :
  0 ≤ w < 2 ^ 54 → Z.testbit w 0 = true →
  Z.lor (Z.lor (PA2PTE (PTE2PA w)) (PTE_FLAGS w)) PTE_V = w.
Proof.
  intros Hw Hv. rewrite PTE2PA_spec, PA2PTE_spec by lia.
  rewrite Z.div_mul by done. change 1024 with (2 ^ 10).
  rewrite <- Z.shiftr_div_pow2, <- Z.shiftl_mul_pow2 by lia.
  unfold PTE_FLAGS. change 0x3FF with (Z.ones 10). apply Z.bits_inj'. intros n Hn.
  rewrite !Z.lor_spec, Z.land_spec, Z.shiftl_spec by done.
  change PTE_V with (2 ^ 0). rewrite Z.pow2_bits_eqb by lia.
  destruct (Z.ltb_spec n 10).
  - rewrite Z.testbit_neg_r, Z.ones_spec_low by lia.
    destruct (Z.eqb_spec 0 n) as [<-|]; [by rewrite Hv|]. simpl. by rewrite andb_true_r, orb_false_r.
  - rewrite Z.shiftr_spec, Z.ones_spec_high by lia. rewrite (proj2 (Z.eqb_neq 0 n)) by lia.
    rewrite andb_false_r, !orb_false_r. f_equal. lia.
Qed.

Lemma PA2PTE_bound pa : 0 ≤ pa < 2 ^ 56 → 0 ≤ PA2PTE pa < 2 ^ 54.
Proof. intros H. rewrite PA2PTE_spec by done. lia. Qed.

Lemma pte_bound pa f :
  0 ≤ pa < 2 ^ 56 → 0 ≤ f < 1024 → 0 ≤ Z.lor (PA2PTE pa) f < 2 ^ 54.
Proof.
  intros Hpa Hf. apply lor_bound; [lia | by apply PA2PTE_bound | lia].
Qed.

(** Encoding and decoding of a page-table entry are inverse: an entry built
    by [PA2PTE(pa) | flags] from a page-aligned physical address and ten bits
    of flags gives back the address with [PTE2PA] and the flags with
    [PTE_FLAGS]. *)
Theorem pte_roundtrip pa f :
  0 ≤ pa < 2 ^ 56 → pa mod PGSIZE = 0 → 0 ≤ f < 1024 →
  PTE2PA (Z.lor (PA2PTE pa) f) = pa ∧ PTE_FLAGS (Z.lor (PA2PTE pa) f) = f.
Proof. auto using PTE2PA_PA2PTE, PTE_FLAGS_PA2PTE. Qed.

Lemma pte_roundtrip_witness :
  PTE2PA (Z.lor (PA2PTE 0x80005000) 0x11F) = 0x80005000 ∧
  PTE_FLAGS (Z.lor (PA2PTE 0x80005000) 0x11F) = 0x11F.
Proof. apply (pte_roundtrip 0x80005000 0x11F); [lia | reflexivity | lia]. Defined.

(** ** Page-table indices *)

Lemma PX_spec level va : 0 ≤ level → PX level va = va / 2 ^ (12 + 9 * level) mod 512.
Proof.
  intros Hl. unfold PX, PXMASK, PXSHIFT, PGSHIFT. change 0x1FF with (Z.ones 9).
  rewrite Z.land_ones, Z.shiftr_div_pow2 by lia. done.
Qed.

Lemma PX_bound level va : 0 ≤ level → 0 ≤ PX level va < 512.
Proof. intros Hl. rewrite PX_spec by done. apply Z.mod_pos_bound. lia. Qed.

(** The three indices of a virtual address determine its page. *)
Lemma PX_page va :
  0 ≤ va < MAXVA → va / PGSIZE = PX 2 va * 2 ^ 18 + PX 1 va * 2 ^ 9 + PX 0 va.
Proof.
  intros Hva. rewrite !PX_spec by lia. change MAXVA with (2 ^ 38) in Hva.
  change (12 + 9 * 2) with 30. change (12 + 9 * 1) with 21. change (12 + 9 * 0) with 12.
  unfold PGSIZE. change (2 ^ 12) with 4096. change (2 ^ 21) with (4096 * 512).
  change (2 ^ 30) with (4096 * 512 * 512). rewrite <- !Z.div_div by lia.
  change (2 ^ 18) with (512 * 512). change (2 ^ 9) with 512. lia.
Qed.

Lemma PX_inj va va' :
  0 ≤ va < MAXVA → 0 ≤ va' < MAXVA →
  PX 2 va = PX 2 va' → PX 1 va = PX 1 va' → PX 0 va = PX 0 va' →
  va / PGSIZE = va' / PGSIZE.
Proof. intros Hva Hva' E2 E1 E0. rewrite !PX_page, E2, E1, E0 by done. done. Qed.

Lemma PX_ext level va va' :
  0 ≤ level → va / PGSIZE = va' / PGSIZE → PX level va = PX level va'.
Proof.
  intros Hl E. rewrite !PX_spec by done.
  replace (2 ^ (12 + 9 * level)) with (PGSIZE * 2 ^ (9 * level)).
  2: { rewrite Z.pow_add_r by lia. done. }
  rewrite <- !Z.div_div, E by (try (apply Z.pow_pos_nonneg; lia); unfold PGSIZE; lia).
  done.
Qed.
