(* ===== verification/Kalloc.v ===== *)
(** * kernel/kalloc.c: the physical page allocator with reference counts

    State: the byte memory, the head pointer [kmem.freelist] and the array
    [refs].  The free list is the linked list of the source, its [next]
    pointers stored in the first eight bytes of each free page.  Each function
    runs inside [kmem.lock] and is one atomic step here.  [kinv s l] says that
    [l] is the free list of [s], that its pages are distinct and unreferenced,
    and that every other page of the managed range is referenced. *)

From stdpp Require Import base numbers list strings relations.
From S2P Require Import Prelude Str Layout.
Local Open Scope Z_scope.

(** ** State and operations *)

Record kstate := KState {
  mem : Z → Z;
  freelist : Z;
  refs : Z → Z;
}.

Definition set_mem (f : (Z → Z) → (Z → Z)) (s : kstate) : kstate :=
  KState (f (mem s)) (freelist s) (refs s).
Definition set_freelist (p : Z) (s : kstate) : kstate :=
  KState (mem s) p (refs s).
Definition set_ref (idx v : Z) (s : kstate) : kstate :=
  KState (mem s) (freelist s) (upd (refs s) idx v).

Section Kalloc.
Context {L : Linker}.

Definition incRef (pa : Z) : M kstate unit :=
  let toInc := i32 (pa / PGSIZE) in
  if (toInc <? 0) || (PHYSTOP / PGSIZE <=? toInc)
  then panic "incRef: invalid pa"
  else r ← gets (λ s, refs s toInc); modify (set_ref toInc (i32 (r + 1))).

Definition kfree (pa : Z) : M kstate unit :=
  if nonzero (pa mod PGSIZE) || (pa <? lk_end) || (PHYSTOP <=? pa)
  then panic "kfree"
  else
    let idx := i32 (pa / PGSIZE) in
    r ← gets (λ s, refs s idx);
    if r <=? 0 then panic "kfree: ref count is 0"
    else
      modify (set_ref idx (r - 1));;
      r' ← gets (λ s, refs s idx);
      if r' =? 0 then
        modify (set_mem (mset pa 1 PGSIZE));;
        next ← gets freelist;
        modify (set_mem (λ m, store64 m pa next));;
        modify (set_freelist pa)
      else mret tt.

Definition kalloc : M kstate Z :=
  r ← gets freelist;
  (if nonzero r then
     next ← gets (λ s, load64 (mem s) r);
     modify (set_freelist next);;
     let idx := i32 (r / PGSIZE) in
     rc ← gets (λ s, refs s idx);
     if nonzero rc then panic "Allocating a page that is already allocated"
     else modify (set_ref idx 1)
   else mret tt);;
  when (nonzero r) (modify (set_mem (mset r 5 PGSIZE)));;
  mret r.

Fixpoint freerange_loop (fuel : nat) (p pa_end : Z) : M kstate unit :=
  match fuel with
  | O => diverge
  | S f =>
      if p + PGSIZE <=? pa_end then
        rc ← gets (λ s, refs s (p / PGSIZE));
        modify (set_ref (p / PGSIZE) (i32 (rc + 1)));;
        kfree p;;
        freerange_loop f (p + PGSIZE) pa_end
      else mret tt
  end.

Definition freerange (pa_start pa_end : Z) : M kstate unit :=
  let p := PGROUNDUP pa_start in
  freerange_loop (S (Z.to_nat ((pa_end - p) / PGSIZE))) p pa_end.

Definition kinit : M kstate unit := freerange lk_end PHYSTOP.

(** The allocator before [kinit]: cleared bss, arbitrary page contents. *)
Definition boot_kstate (m : Z → Z) : kstate := KState m 0 (λ _, 0).

(** ** Invariant *)

(** A page the allocator manages. *)
Definition valid_page (pa : Z) : Prop := pa mod PGSIZE = 0 ∧ lk_end ≤ pa < PHYSTOP.

(** The number of references to a page. *)
Definition rc (s : kstate) (pa : Z) : Z := refs s (pa / PGSIZE).
#[global] Arguments rc : simpl never.

(** [p] is the head of the linked list [l] in memory [m]. *)
Fixpoint chain (m : Z → Z) (p : Z) (l : list Z) : Prop :=
  match l with
  | [] => p = 0
  | q :: l' => p = q ∧ q ≠ 0 ∧ chain m (load64 m q) l'
  end.

(** The allocator when the pages that satisfy [D] have been handed to it. *)
Record kinv_on (D : Z → Prop) (s : kstate) (l : list Z) : Prop := KInv {
  ki_chain : chain (mem s) (freelist s) l;
  ki_nodup : NoDup l;
  ki_valid : ∀ p, p ∈ l → valid_page p;
  ki_free : ∀ p, p ∈ l → rc s p = 0;
  ki_used : ∀ p, valid_page p → D p → p ∉ l → 0 < rc s p < 2 ^ 31;
}.

Definition kinv : kstate → list Z → Prop := kinv_on (λ _, True).

(** Two memories agree on a page. *)
Definition same_page (m m' : Z → Z) (p : Z) : Prop :=
  ∀ b, p ≤ b < p + PGSIZE → m' b = m b.

(** The pages from [p] on, [n] of them. *)
Fixpoint page_range (p : Z) (n : nat) : list Z :=
  match n with
  | O => []
  | S n' => p :: page_range (p + PGSIZE) n'
  end.

(** What clients of the allocator do: allocate, add and drop references to
    pages they hold, and write into pages they hold. *)
Inductive kstep : kstate → kstate → Prop :=
| kstep_alloc s p s' : kalloc s = Ret (p, s') → kstep s s'
| kstep_inc s pa s' :
    valid_page pa → 0 < rc s pa < 2 ^ 31 - 1 → incRef pa s = Ret (tt, s') → kstep s s'
| kstep_free s pa s' :
    valid_page pa → 0 < rc s pa → kfree pa s = Ret (tt, s') → kstep s s'
| kstep_write s pa a v :
    valid_page pa → 0 < rc s pa → pa ≤ a < pa + PGSIZE →
    kstep s (set_mem (λ m, upd m a v) s).

(** ** Pages *)

Lemma page_disjoint p q b :
  p mod PGSIZE = 0 → q mod PGSIZE = 0 → p ≠ q → q ≤ b < q + PGSIZE →
  b < p ∨ p + PGSIZE ≤ b.
Proof. unfold PGSIZE. lia. Qed.

Lemma page_idx_inj p q :
  p mod PGSIZE = 0 → q mod PGSIZE = 0 → p / PGSIZE = q / PGSIZE → p = q.
Proof. unfold PGSIZE. lia. Qed.

Lemma chain_ext m m' p l :
  (∀ q, q ∈ l → same_page m m' q) → chain m p l → chain m' p l.
Proof.
  revert p. induction l as [|q l IH]; intros p Hm; simpl; [done|].
  intros (-> & Hq & Hc). split; [done|]. split; [done|].
  rewrite (load64_ext m' m).
  - apply IH; [|done]. intros r Hr. apply Hm. by right.
  - intros b Hb. apply (Hm q); [by left|]. unfold PGSIZE. lia.
Qed.

Context `{!LinkerOk L}.

Lemma valid_page_bounds p : valid_page p → 0 < p < 2 ^ 32 ∧ p mod PGSIZE = 0.
Proof.
  intros [Hal Hr]. pose proof lk_trampoline_lo. pose proof lk_order1.
  pose proof lk_order2. split; [layout_lia | done].
Qed.

Lemma valid_page_idx p : valid_page p → i32 (p / PGSIZE) = p / PGSIZE.
Proof.
  intros Hv. pose proof (valid_page_bounds p Hv). apply i32_small. unfold PGSIZE in *. lia.
Qed.

(** The counter of a page changes only when that page's counter is set. *)
Lemma rc_set_ref s p q v :
  valid_page p → valid_page q →
  rc (set_ref (p / PGSIZE) v s) q = if bool_decide (p = q) then v else rc s q.
Proof.
  intros [Hp _] [Hq _]. unfold rc, set_ref; simpl. unfold upd.
  case_bool_decide as E; [subst; by rewrite Z.eqb_refl|].
  destruct (Z.eqb_spec (q / PGSIZE) (p / PGSIZE)) as [E'|]; [|done].
  destruct E. symmetry. by apply page_idx_inj.
Qed.

(** Writes outside the free pages keep the allocator's invariant. *)
Lemma kinv_mem D s l f :
  kinv_on D s l → (∀ q, q ∈ l → same_page (mem s) (f (mem s)) q) →
  kinv_on D (set_mem f s) l.
Proof.
  intros [Hc Hn Hv Hf Hu] Hm. split; try done. simpl.
  eapply chain_ext; [apply Hm | done].
Qed.

(** ** [kalloc] *)

(** What [kalloc] does: with an empty free list it returns 0 and changes
    nothing; otherwise it hands out the head of the list with one reference,
    filled with 5s, and touches no other page and no other counter. *)
Definition kalloc_post (s : kstate) (l : list Z) (p : Z) (s' : kstate) : Prop :=
  match l with
  | [] => p = 0 ∧ s' = s
  | q :: l' =>
      p = q ∧ kinv s' l' ∧ rc s' q = 1 ∧
      (∀ x, valid_page x → x ≠ q → rc s' x = rc s x) ∧
      mem s' = mset q 5 PGSIZE (mem s)
  end.

Lemma mset_out dst c n m a : a < dst ∨ dst + n ≤ a → mset dst c n m a = m a.
Proof.
  intros Ha. unfold mset. destruct (Z.leb_spec dst a), (Z.ltb_spec a (dst + n)); simpl; lia || done.
Qed.

Lemma mset_in dst c n m a : dst ≤ a < dst + n → mset dst c n m a = u8 c.
Proof.
  intros Ha. unfold mset. destruct (Z.leb_spec dst a), (Z.ltb_spec a (dst + n)); simpl; lia || done.
Qed.

Lemma same_page_mset m p q c :
  p mod PGSIZE = 0 → q mod PGSIZE = 0 → p ≠ q → same_page m (mset p c PGSIZE m) q.
Proof.
  intros Hp Hq Hne b Hb. apply mset_out. eapply page_disjoint; [..|exact Hb]; done.
Qed.

Lemma kalloc_wp s l : kinv s l → wp kalloc s (kalloc_post s l).
Proof.
  intros Hi. pose proof Hi as [Hc Hn Hv Hf Hu]. unfold kalloc. wp_steps.
  destruct l as [|q l]; simpl in Hc.
  - rewrite Hc. simpl. by wp_steps.
  - destruct Hc as (-> & Hq0 & Hc). assert (Hvq : valid_page q) by (apply Hv; by left).
    apply NoDup_cons in Hn as [Hql Hn].
    rewrite (proj2 (nonzero_true q) Hq0), (valid_page_idx q Hvq). wp_steps.
    assert (Hr : refs s (q / PGSIZE) = 0) by (apply (Hf q); by left).
    rewrite Hr. simpl. wp_steps.
    assert (Hne : ∀ x, x ∈ l → x ≠ q) by (intros x Hx ->; done).
    assert (Hvl : ∀ x, x ∈ l → valid_page x) by (intros x Hx; apply Hv; by right).
    assert (Hrc : ∀ x, valid_page x →
      rc (set_ref (q / PGSIZE) 1 s) x = if bool_decide (q = x) then 1 else rc s x).
    { intros x Hx. by apply rc_set_ref. }
    split; [done|]. split; [|split; [|split]]; simpl.
    + split; simpl; try done.
      * eapply chain_ext; [|done]. intros x Hx. apply same_page_mset; [by apply Hvq | by apply Hvl |].
        intros ->. by apply (Hne x).
      * intros x Hx. change (rc (set_ref (q / PGSIZE) 1 s) x = 0). rewrite Hrc by auto.
        rewrite bool_decide_false by (intros ->; by apply (Hne x)). apply Hf. by right.
      * intros x Hx _ Hxl. change (0 < rc (set_ref (q / PGSIZE) 1 s) x < 2 ^ 31).
        rewrite Hrc by done. case_bool_decide as E; [lia|]. apply Hu; [done..|].
        intros [->|]%elem_of_cons; done.
    + change (rc (set_ref (q / PGSIZE) 1 s) q = 1). rewrite Hrc by done.
      by rewrite bool_decide_true.
    + intros x Hx Hxq. change (rc (set_ref (q / PGSIZE) 1 s) x = rc s x).
      rewrite Hrc by done. by rewrite bool_decide_false.
    + done.
Qed.

(** ** [kfree] and [incRef] *)

(** What [kfree] does to a referenced page: the last reference puts the page at
    the head of the free list, an earlier one only drops the counter. *)
Definition kfree_post (s : kstate) (l : list Z) (pa : Z) (s' : kstate) : Prop :=
  rc s' pa = rc s pa - 1 ∧
  (∀ x, valid_page x → x ≠ pa → rc s' x = rc s x) ∧
  (∀ b, b < pa ∨ pa + PGSIZE ≤ b → mem s' b = mem s b) ∧
  if rc s pa =? 1 then kinv s' (pa :: l) else kinv s' l ∧ mem s' = mem s.

Lemma kfree_on_wp D s l pa :
  kinv_on D s l → valid_page pa → pa ∉ l → 0 < rc s pa < 2 ^ 31 →
  wp (kfree pa) s (λ _ s',
    rc s' pa = rc s pa - 1 ∧
    (∀ x, valid_page x → x ≠ pa → rc s' x = rc s x) ∧
    (∀ b, b < pa ∨ pa + PGSIZE ≤ b → mem s' b = mem s b) ∧
    if rc s pa =? 1 then kinv_on D s' (pa :: l)
    else kinv_on D s' l ∧ mem s' = mem s).
Proof.
  intros Hi Hpa Hl Hr. pose proof Hi as [Hc Hn Hv Hf Hu].
  pose proof (valid_page_bounds pa Hpa) as [Hb Hal]. pose proof Hpa as [_ Hrange].
  unfold kfree. rewrite Hal. rewrite (proj2 (Z.ltb_ge _ _)) by lia.
  rewrite (proj2 (Z.leb_gt _ _)) by lia. simpl. rewrite valid_page_idx by done. wp_steps.
  change (refs s (pa / PGSIZE)) with (rc s pa). rewrite (proj2 (Z.leb_gt _ _)) by lia.
  wp_steps. rewrite upd_eq.
  set (s1 := set_ref (pa / PGSIZE) (rc s pa - 1) s).
  assert (Hrc : ∀ x, valid_page x →
    rc s1 x = if bool_decide (pa = x) then rc s pa - 1 else rc s x).
  { intros x Hx. by apply rc_set_ref. }
  assert (Hrc_pa : rc s1 pa = rc s pa - 1) by (by rewrite Hrc, bool_decide_true).
  assert (Hrc_ne : ∀ x, valid_page x → x ≠ pa → rc s1 x = rc s x).
  { intros x Hx Hne. by rewrite Hrc, bool_decide_false. }
  assert (Hne : ∀ x, x ∈ l → x ≠ pa) by (intros x Hx ->; done).
  destruct (Z.eqb_spec (rc s pa) 1) as [E|E].
  - rewrite (proj2 (Z.eqb_eq (rc s pa - 1) 0)) by lia. wp_steps.
    split; [done|]. split; [done|]. split.
    { intros b Hbb. rewrite store64_out by (unfold PGSIZE in *; lia). by apply mset_out. }
    split; simpl.
    + split; [done|]. split; [lia|]. rewrite load64_store64.
      eapply chain_ext with (m := mem s).
      { intros x Hx b Hbx. assert (b < pa ∨ pa + PGSIZE ≤ b).
        { eapply page_disjoint; [done | apply (Hv x Hx) | |exact Hbx]. intros ->. by apply (Hne x). }
        rewrite store64_out by (unfold PGSIZE in *; lia). by apply mset_out. }
      destruct l as [|q l'].
      { simpl in Hc. rewrite Hc. done. }
      destruct Hc as (-> & Hq0 & Hc). rewrite u64_small; [done|].
      pose proof (valid_page_bounds q ltac:(apply Hv; by left)). lia.
    + by constructor.
    + intros x [->|Hx]%elem_of_cons; [done | by apply Hv].
    + intros x [->|Hx]%elem_of_cons; [change (rc s1 pa = 0); lia|].
      change (rc s1 x = 0). rewrite Hrc_ne by auto. by apply Hf.
    + intros x Hx HD Hxl. change (0 < rc s1 x < 2 ^ 31).
      apply not_elem_of_cons in Hxl as [Hx1 Hx2]. rewrite Hrc_ne by done. by apply Hu.
  - rewrite (proj2 (Z.eqb_neq _ _)) by lia. wp_steps.
    split; [done|]. split; [done|]. split; [done|]. split; [|done]. split; try done.
    + intros x Hx. rewrite Hrc_ne by auto. by apply Hf.
    + intros x Hx HD Hxl. rewrite Hrc by done. case_bool_decide; [lia | by apply Hu].
Qed.

Lemma kinv_used s l pa : kinv s l → valid_page pa → 0 < rc s pa → (pa ∉ l) ∧ rc s pa < 2 ^ 31.
Proof.
  intros Hi Hv Hr. assert (pa ∉ l) by (intros Hin; rewrite (ki_free _ _ _ Hi pa Hin) in Hr; lia).
  split; [done|]. by apply (ki_used _ _ _ Hi).
Qed.

Lemma kfree_wp s l pa :
  kinv s l → valid_page pa → 0 < rc s pa →
  wp (kfree pa) s (λ _ s', kfree_post s l pa s').
Proof.
  intros Hi Hv Hr. destruct (kinv_used s l pa) as [Hl Hr']; [done..|].
  by apply kfree_on_wp.
Qed.

Lemma kinv_nonneg s l x : kinv s l → valid_page x → 0 ≤ rc s x.
Proof.
  intros Hk Hx. destruct (decide (x ∈ l)) as [Hl|Hl].
  - by rewrite (ki_free _ _ _ Hk x Hl).
  - apply (ki_used _ _ _ Hk) in Hl; [lia | done | done].
Qed.

Lemma incRef_wp s l pa :
  kinv s l → valid_page pa → 0 < rc s pa < 2 ^ 31 - 1 →
  wp (incRef pa) s (λ _ s', kinv s' l ∧ mem s' = mem s ∧ rc s' pa = rc s pa + 1 ∧
    ∀ x, valid_page x → x ≠ pa → rc s' x = rc s x).
Proof.
  intros Hi Hpa Hr. pose proof Hi as [Hc Hn Hv Hf Hu]. unfold incRef.
  destruct (kinv_used s l pa) as [Hl _]; [done | done | lia |].
  rewrite valid_page_idx by done.
  pose proof (valid_page_bounds pa Hpa) as [Hb Hal]. pose proof Hpa as [_ Hrange].
  rewrite (proj2 (Z.ltb_ge _ _)) by (unfold PGSIZE in *; lia).
  rewrite (proj2 (Z.leb_gt _ _)) by layout_lia. simpl. wp_steps.
  change (refs s (pa / PGSIZE)) with (rc s pa). rewrite i32_small by lia.
  assert (Hrc : ∀ x, valid_page x → rc (set_ref (pa / PGSIZE) (rc s pa + 1) s) x =
    if bool_decide (pa = x) then rc s pa + 1 else rc s x).
  { intros x Hx. by apply rc_set_ref. }
  split; [split; try done|split; [done|split]].
  - intros x Hx. rewrite Hrc by auto. rewrite bool_decide_false; [by apply Hf | by intros ->].
  - intros x Hx _ Hxl. rewrite Hrc by done. case_bool_decide; [lia | by apply Hu].
  - etrans; [by apply Hrc|]. by rewrite bool_decide_true.
  - intros x Hx Hne. etrans; [by apply Hrc|]. by rewrite bool_decide_false.
Qed.

(** ** [kinit] *)

Lemma elem_page_range x p n :
  x ∈ page_range p n ↔ ∃ i, 0 ≤ i < Z.of_nat n ∧ x = p + i * PGSIZE.
Proof.
  revert p. induction n as [|n IH]; intros p; cbn [page_range].
  { split; [by intros ?%elem_of_nil | intros (i & ? & _); lia]. }
  rewrite elem_of_cons, IH. split.
  - intros [->|(i & Hi & ->)]; [exists 0; lia | exists (i + 1); lia].
  - intros (i & Hi & ->). destruct (decide (i = 0)) as [->|]; [left; lia|].
    right. exists (i - 1). lia.
Qed.

Lemma kinv_used_more (D D' : Z → Prop) s l :
  kinv_on D s l → (∀ p, valid_page p → D' p → p ∉ l → D p) → kinv_on D' s l.
Proof. intros [Hc Hn Hv Hf Hu] HD. split; auto. Qed.

(** Count up one counter that was 0 and free the page. *)
Lemma freerange_step_wp s l p :
  valid_page p → kinv_on (λ x, x < p) s l → p ∉ l → rc s p = 0 →
  wp (modify (set_ref (p / PGSIZE) (i32 (rc s p + 1)));; kfree p) s (λ _ s',
    kinv_on (λ x, x < p + PGSIZE) s' (p :: l) ∧
    (∀ x, valid_page x → x ≠ p → rc s' x = rc s x)).
Proof.
  intros Hp Hi Hpl Hr. pose proof Hi as [Hc Hn Hv Hf Hu]. wp_steps.
  rewrite Hr. change (i32 (0 + 1)) with 1. set (s1 := set_ref (p / PGSIZE) 1 s).
  assert (Hrc : ∀ x, valid_page x → rc s1 x = if bool_decide (p = x) then 1 else rc s x).
  { intros x Hx. by apply rc_set_ref. }
  assert (Hrp : rc s1 p = 1) by (by rewrite Hrc, bool_decide_true).
  eapply wp_mono; [apply (kfree_on_wp (λ x, x < p) s1 l p)|].
  - split; try done.
    + intros x Hx. rewrite Hrc by auto. rewrite bool_decide_false by (intros ->; done). auto.
    + intros x Hx HD Hxl. rewrite Hrc by done. case_bool_decide; [lia | auto].
  - done.
  - done.
  - rewrite Hrp. lia.
  - rewrite Hrp. simpl. intros _ s' (_ & Ho & _ & Hk). split.
    + eapply kinv_used_more; [done|]. intros x [Hx _] HD [Hxp _]%not_elem_of_cons.
      destruct Hp as [Hp _]. unfold PGSIZE in *. lia.
    + intros x Hx Hne. rewrite Ho, Hrc by done. by rewrite bool_decide_false.
Qed.

Lemma freerange_loop_wp fuel p l s n :
  p mod PGSIZE = 0 → lk_end ≤ p → PHYSTOP - p = Z.of_nat n * PGSIZE → (n < fuel)%nat →
  kinv_on (λ x, x < p) s l → (∀ x, x ∈ l → x < p) →
  (∀ x, valid_page x → p ≤ x → rc s x = 0) →
  wp (freerange_loop fuel p PHYSTOP) s (λ _ s', kinv s' (rev (page_range p n) ++ l)).
Proof.
  revert p l s n. induction fuel as [|f IH]; intros p l s n Hal Hlo Hn Hf Hi Hl Hz; [lia|].
  cbn [freerange_loop]. destruct n as [|n].
  - rewrite (proj2 (Z.leb_gt _ _)) by (unfold PGSIZE in *; lia). wp_steps.
    eapply kinv_used_more; [done|]. intros x [_ Hx] _ _. lia.
  - rewrite (proj2 (Z.leb_le _ _)) by (unfold PGSIZE in *; lia).
    apply wp_bind, wp_gets. change (refs s (p / PGSIZE)) with (rc s p).
    assert (Hp : valid_page p) by (split; [done | unfold PGSIZE in *; lia]).
    assert (Hpl : p ∉ l) by (intros Hin%Hl; lia).
    pose proof (freerange_step_wp s l p Hp Hi Hpl (Hz p Hp ltac:(lia))) as Hstep.
    unfold wp, mbind, M_bind in Hstep |- *.
    destruct ((modify (set_ref (p / PGSIZE) (i32 (rc s p + 1)))) s) as [[[] s1]| | |]; try done.
    destruct (kfree p s1) as [[[] s2]| | |]; try done.
    destruct Hstep as [Hi2 Hz2]. cbn [page_range rev]. rewrite <- app_assoc. simpl.
    apply IH; [unfold PGSIZE in *; lia..| done | |].
    + intros x [->|Hx%Hl]%elem_of_cons; unfold PGSIZE; lia.
    + intros x Hx Hpx. rewrite Hz2 by (done || (unfold PGSIZE in *; lia)).
      apply Hz; [done | unfold PGSIZE in *; lia].
Qed.

(** The pages [kinit] hands to the allocator, in free-list order. *)
Definition boot_pages : list Z :=
  rev (page_range (PGROUNDUP lk_end) (Z.to_nat ((PHYSTOP - PGROUNDUP lk_end) / PGSIZE))).

Lemma roundup_end :
  PGROUNDUP lk_end mod PGSIZE = 0 ∧ lk_end ≤ PGROUNDUP lk_end ≤ PHYSTOP ∧
  PGROUNDUP lk_end < lk_end + PGSIZE.
Proof.
  pose proof lk_trampoline_lo. pose proof lk_order1. pose proof lk_order2. pose proof lk_fits.
  assert (0 ≤ lk_end < 2 ^ 64 - PGSIZE) by layout_lia.
  pose proof (PGROUNDUP_mod lk_end ltac:(done)). pose proof (PGROUNDUP_bounds lk_end ltac:(done)).
  layout_lia.
Qed.

Lemma kinit_wp m : wp kinit (boot_kstate m) (λ _ s', kinv s' boot_pages).
Proof.
  destruct roundup_end as (Hal & Hr & Hr'). unfold kinit, freerange.
  set (n := Z.to_nat ((PHYSTOP - PGROUNDUP lk_end) / PGSIZE)).
  assert (Hn : PHYSTOP - PGROUNDUP lk_end = Z.of_nat n * PGSIZE) by (subst n; layout_lia).
  eapply wp_mono; [apply (freerange_loop_wp (S n) _ [] _ n); try done; try lia|].
  - split; [done | apply NoDup_nil_2 | by intros p ?%elem_of_nil | by intros p ?%elem_of_nil |].
    intros x [Hx1 Hx2] Hx _. layout_lia.
  - by intros x ?%elem_of_nil.
  - intros a s' Hk. cbn beta in Hk. by rewrite app_nil_r in Hk.
Qed.

Lemma boot_pages_valid p : p ∈ boot_pages ↔ valid_page p.
Proof.
  destruct roundup_end as (Hal & Hr & Hr'). unfold boot_pages.
  rewrite list_elem_of_In, <- in_rev, <- list_elem_of_In, elem_page_range. split.
  - intros (i & Hi & ->). split; layout_lia.
  - intros [Hx1 Hx2]. exists ((p - PGROUNDUP lk_end) / PGSIZE). layout_lia.
Qed.

(** ** Reachable states *)

Lemma kstep_inv s s' l : kinv s l → kstep s s' → ∃ l', kinv s' l'.
Proof.
  intros Hi Hs. destruct Hs as [s p s' E|s pa s' Hv Hr E|s pa s' Hv Hr E|s pa a v Hv Hr Ha].
  - pose proof (kalloc_wp s l Hi) as Hw. unfold wp in Hw. rewrite E in Hw.
    destruct l as [|q l]; [destruct Hw as [_ ->]; eauto | destruct Hw as (_ & ? & _); eauto].
  - pose proof (incRef_wp s l pa Hi Hv Hr) as Hw. unfold wp in Hw. rewrite E in Hw.
    exists l. apply Hw.
  - pose proof (kfree_wp s l pa Hi Hv Hr) as Hw. unfold wp in Hw. rewrite E in Hw.
    destruct Hw as (_ & _ & _ & Hw). destruct (rc s pa =? 1); [eauto | destruct Hw; eauto].
  - exists l. apply kinv_mem; [done|]. intros q Hq b Hb. apply upd_ne. intros ->.
    destruct (kinv_used s l pa Hi Hv Hr) as [Hpl _].
    destruct (page_disjoint pa q a) as [?|?]; [apply Hv | by apply (ki_valid _ _ _ Hi) | | done | lia | lia].
    intros ->. done.
Qed.

Lemma kstep_rtc_inv s s' l : kinv s l → rtc kstep s s' → ∃ l', kinv s' l'.
Proof.
  intros Hi Hr. revert l Hi. induction Hr as [|s s1 s2 H1 _ IH]; intros l Hi; [eauto|].
  destruct (kstep_inv s s1 l Hi H1) as [l1 Hi1]. eauto.
Qed.
End Kalloc.

(** ** Properties *)

(** A machine with two free pages below [PHYSTOP], for the witnesses. *)
Definition tiny : Linker := {|
  lk_trampoline := KERNBASE;
  lk_etext := KERNBASE + PGSIZE;
  lk_end := PHYSTOP - 2 * PGSIZE - 8;
|}.

#[global] Instance tiny_ok : LinkerOk tiny.
Proof. split; vm_compute; done || (intros; discriminate). Qed.

Section Properties.
Context {L : Linker} `{!LinkerOk L}.

(** [kinit] terminates without panic from a cleared bss and leaves a
    well-formed free list, linked through the pages themselves, that holds
    exactly the whole pages between [end] and [PHYSTOP], each once and each with
    reference count 0. *)
Theorem kinit_correct m :
  ∃ s' l, kinit (boot_kstate m) = Ret (tt, s') ∧ kinv s' l ∧ ∀ p, p ∈ l ↔ valid_page p.
Proof.
  destruct (wp_elim _ _ _ (kinit_wp m)) as ([] & s' & E & Hi).
  exists s', boot_pages. auto using boot_pages_valid.
Qed.

(** In every state that clients reach from [kinit] by allocating, by adding
    and dropping references to pages they hold, and by writing into pages they
    hold, [kalloc] does not panic, and it returns 0 only when no page is free;
    otherwise it returns a page nobody references, with count 1, and leaves the
    count of every other page alone: no page is handed out twice. *)
Theorem kalloc_reachable_fresh m s0 s :
  kinit (boot_kstate m) = Ret (tt, s0) → rtc kstep s0 s →
  ∃ p s', kalloc s = Ret (p, s') ∧
    ((p = 0 ∧ s' = s ∧ ∀ q, valid_page q → 0 < rc s q) ∨
     (valid_page p ∧ rc s p = 0 ∧ rc s' p = 1 ∧
      ∀ q, valid_page q → q ≠ p → rc s' q = rc s q)).
Proof.
  intros E0 Hr. pose proof (kinit_wp m) as Hw. unfold wp in Hw. rewrite E0 in Hw.
  destruct (kstep_rtc_inv s0 s _ Hw Hr) as [l Hi].
  destruct (wp_elim _ _ _ (kalloc_wp s l Hi)) as (p & s' & E & Hp).
  exists p, s'. split; [done|]. destruct l as [|q l].
  - left. destruct Hp as [-> ->]. split; [done|]. split; [done|].
    intros q Hq. apply (ki_used _ _ _ Hi q Hq I). apply not_elem_of_nil.
  - right. destruct Hp as (-> & _ & Hr1 & Hro & _).
    split; [apply (ki_valid _ _ _ Hi); by left|].
    split; [apply (ki_free _ _ _ Hi); by left|]. done.
Qed.

(** In every reachable state [kfree] of a held page does not panic.  It
    drops that page's count by one and no other; the last reference puts the
    page at the head of the free list, so the next [kalloc] returns it, and an
    earlier reference leaves memory and free list untouched. *)
Theorem kfree_reachable m s0 s pa :
  kinit (boot_kstate m) = Ret (tt, s0) → rtc kstep s0 s →
  valid_page pa → 0 < rc s pa →
  ∃ s', kfree pa s = Ret (tt, s') ∧ rc s' pa = rc s pa - 1 ∧
    (∀ q, valid_page q → q ≠ pa → rc s' q = rc s q) ∧
    (rc s pa = 1 → ∃ s'', kalloc s' = Ret (pa, s'')) ∧
    (rc s pa ≠ 1 → mem s' = mem s ∧ freelist s' = freelist s).
Proof.
  intros E0 Hr Hv Hpa. pose proof (kinit_wp m) as Hw. unfold wp in Hw. rewrite E0 in Hw.
  destruct (kstep_rtc_inv s0 s _ Hw Hr) as [l Hi].
  destruct (wp_elim _ _ _ (kfree_wp s l pa Hi Hv Hpa)) as ([] & s' & E & H1 & H2 & _ & H3).
  exists s'. split; [done|]. split; [done|]. split; [done|].
  destruct (Z.eqb_spec (rc s pa) 1) as [E1|E1]; split; try done.
  - intros _. destruct (wp_elim _ _ _ (kalloc_wp s' _ H3)) as (p & s'' & E' & Hp).
    destruct Hp as [-> _]. eauto.
  - intros _. destruct H3 as [Hi' Hm]. split; [done|].
    pose proof (ki_chain _ _ _ Hi) as Hc. pose proof (ki_chain _ _ _ Hi') as Hc'.
    destruct l as [|q l]; simpl in Hc, Hc'; [congruence|].
    by destruct Hc as [-> _], Hc' as [-> _].
Qed.
End Properties.

(** The state after [kinit] on the two-page machine, and after one allocation. *)
Definition tiny_boot : kstate :=
  run_state (kinit (L := tiny) (boot_kstate (λ _, 0))) (boot_kstate (λ _, 0)).
Definition tiny_held : kstate := run_state (kalloc tiny_boot) tiny_boot.

Lemma tiny_boot_eq : kinit (L := tiny) (boot_kstate (λ _, 0)) = Ret (tt, tiny_boot).
Proof.
  destruct (wp_elim _ _ _ (kinit_wp (L := tiny) (λ _, 0))) as ([] & s & E & _).
  unfold tiny_boot. by rewrite E.
Qed.

Lemma tiny_held_eq : kalloc tiny_boot = Ret (PHYSTOP - PGSIZE, tiny_held).
Proof. apply run_ret. vm_compute. reflexivity. Qed.

Lemma kinit_correct_witness :
  ∃ s' l, kinit (L := tiny) (boot_kstate (λ _, 0)) = Ret (tt, s') ∧
    kinv (L := tiny) s' l ∧ (PHYSTOP - PGSIZE ∈ l).
Proof.
  destruct (kinit_correct (L := tiny) (λ _, 0)) as (s' & l & E & Hi & Hl).
  exists s', l. split; [exact E|]. split; [exact Hi|]. apply Hl.
  vm_compute. repeat split; intros; discriminate.
Defined.

Lemma kalloc_reachable_fresh_witness :
  ∃ p s', kalloc tiny_boot = Ret (p, s') ∧ p = PHYSTOP - PGSIZE.
Proof.
  destruct (kalloc_reachable_fresh (L := tiny) (λ _, 0) tiny_boot tiny_boot
    tiny_boot_eq ltac:(constructor)) as (p & s' & E & _).
  exists p, s'. split; [exact E|]. rewrite tiny_held_eq in E. congruence.
Defined.

Lemma kfree_reachable_witness :
  ∃ s', kfree (L := tiny) (PHYSTOP - PGSIZE) tiny_held = Ret (tt, s') ∧
    rc s' (PHYSTOP - PGSIZE) = 0.
Proof.
  destruct (kfree_reachable (L := tiny) (λ _, 0) tiny_boot tiny_held (PHYSTOP - PGSIZE))
    as (s' & E & Hr & _).
  - exact tiny_boot_eq.
  - apply rtc_once. exact (kstep_alloc _ _ _ tiny_held_eq).
  - vm_compute. repeat split; intros; discriminate.
  - vm_compute. reflexivity.
  - exists s'. split; [exact E|]. rewrite Hr. vm_compute. reflexivity.
Defined.
