(* ===== verification/Vm.v ===== *)
(** * kernel/vm.c: Sv39 page tables in physical memory

    The functions of vm.c as computations on the allocator state of
    [Kalloc.v]: page tables are pages of 512 little-endian 64-bit entries in
    the byte memory, exactly as the MMU reads them.  A kernel buffer that
    [copyout] reads or [copyin] and [copyinstr] fill is a list of bytes. *)

From stdpp Require Import base numbers list strings relations.
From S2P Require Import Prelude Str Layout Kalloc.
Local Open Scope Z_scope.

(** ** Reading and writing memory *)

Definition loadM (a : Z) : M kstate Z := gets (λ s, load64 (mem s) a).
Definition storeM (a v : Z) : M kstate unit := modify (set_mem (λ m, store64 m a v)).
Definition memsetM (dst c n : Z) : M kstate unit := modify (set_mem (mset dst c n)).
Definition memmoveM (dst src n : Z) : M kstate unit := modify (set_mem (mmove dst src n)).

(** [memmove] from a kernel buffer whose bytes are [bs]. *)
Fixpoint write_bytes (dst : Z) (bs : list Z) (m : Z → Z) : Z → Z :=
  match bs with
  | [] => m
  | b :: bs' => write_bytes (dst + 1) bs' (upd m dst (u8 b))
  end.

(** [memmove] to a kernel buffer. *)
Fixpoint read_bytes (src : Z) (n : nat) (m : Z → Z) : list Z :=
  match n with
  | O => []
  | S n' => u8 (m src) :: read_bytes (src + 1) n' m
  end.

Section Vm.
Context {L : Linker}.

(** ** Page-table walks *)

Fixpoint walk_loop (level : nat) (pagetable va : Z) (alloc : bool) : M kstate Z :=
  match level with
  | O => mret (pagetable + 8 * PX 0 va)
  | S level' =>
      let pte := pagetable + 8 * PX (Z.of_nat level) va in
      w ← loadM pte;
      if nonzero (Z.land w PTE_V) then walk_loop level' (PTE2PA w) va alloc
      else if negb alloc then mret 0
      else
        pg ← kalloc;
        if pg =? 0 then mret 0
        else
          memsetM pg 0 PGSIZE;;
          storeM pte (Z.lor (PA2PTE pg) PTE_V);;
          walk_loop level' pg va alloc
  end.

Definition walk (pagetable va : Z) (alloc : bool) : M kstate Z :=
  if MAXVA <=? va then panic "walk" else walk_loop 2 pagetable va alloc.

Definition walkaddr (pagetable va : Z) : M kstate Z :=
  if MAXVA <=? va then mret 0
  else
    pte ← walk pagetable va false;
    if pte =? 0 then mret 0
    else
      w ← loadM pte;
      if Z.land w PTE_V =? 0 then mret 0
      else if Z.land w PTE_U =? 0 then mret 0
      else mret (PTE2PA w).

Fixpoint mappages_loop (fuel : nat) (pagetable a last pa perm : Z) : M kstate Z :=
  match fuel with
  | O => diverge
  | S f =>
      pte ← walk pagetable a true;
      if pte =? 0 then mret (-1)
      else
        w ← loadM pte;
        if nonzero (Z.land w PTE_V) then panic "mappages: remap"
        else
          storeM pte (Z.lor (Z.lor (PA2PTE pa) perm) PTE_V);;
          if a =? last then mret 0
          else mappages_loop f pagetable (u64 (a + PGSIZE)) last (u64 (pa + PGSIZE)) perm
  end.

(** Iterations [mappages] can make: to [last], or to [MAXVA], where [walk]
    panics, when [va + size - 1] wrapped around. *)
Definition mappages_fuel (a last : Z) : nat :=
  S (S (Z.to_nat (((if last <? a then MAXVA else last) - a) / PGSIZE))).

Definition mappages (pagetable va size pa perm : Z) : M kstate Z :=
  if size =? 0 then panic "mappages: size"
  else
    let a := PGROUNDDOWN va in
    let last := PGROUNDDOWN (u64 (va + size - 1)) in
    mappages_loop (mappages_fuel a last) pagetable a last pa perm.

Definition kvmmap (kpgtbl va pa sz perm : Z) : M kstate unit :=
  r ← mappages kpgtbl va sz pa perm;
  if nonzero r then panic "kvmmap" else mret tt.

Fixpoint uvmunmap_loop (fuel : nat) (pagetable a end_ : Z) (do_free : bool) : M kstate unit :=
  if a <? end_ then
    match fuel with
    | O => diverge
    | S f =>
        pte ← walk pagetable a false;
        if pte =? 0 then panic "uvmunmap: walk"
        else
          w ← loadM pte;
          if Z.land w PTE_V =? 0 then panic "uvmunmap: not mapped"
          else if PTE_FLAGS w =? PTE_V then panic "uvmunmap: not a leaf"
          else
            when do_free (kfree (PTE2PA w));;
            storeM pte 0;;
            uvmunmap_loop f pagetable (u64 (a + PGSIZE)) end_ do_free
    end
  else mret tt.

Definition uvmunmap (pagetable va npages : Z) (do_free : bool) : M kstate unit :=
  if nonzero (va mod PGSIZE) then panic "uvmunmap: not aligned"
  else uvmunmap_loop (Z.to_nat npages) pagetable va (u64 (va + npages * PGSIZE)) do_free.

Definition uvmcreate : M kstate Z :=
  pagetable ← kalloc;
  if pagetable =? 0 then mret 0
  else memsetM pagetable 0 PGSIZE;; mret pagetable.

Definition uvmfirst (pagetable : Z) (src : list Z) : M kstate unit :=
  if PGSIZE <=? Z.of_nat (length src) then panic "uvmfirst: more than a page"
  else
    mem ← kalloc;
    memsetM mem 0 PGSIZE;;
    mappages pagetable 0 PGSIZE mem (Z.lor (Z.lor (Z.lor PTE_W PTE_R) PTE_X) PTE_U);;
    modify (set_mem (write_bytes mem src)).

(** ** Growing, shrinking and freeing *)

Definition uvmdealloc (pagetable oldsz newsz : Z) : M kstate Z :=
  if oldsz <=? newsz then mret oldsz
  else
    when (PGROUNDUP newsz <? PGROUNDUP oldsz)
      (let npages := i32 ((PGROUNDUP oldsz - PGROUNDUP newsz) / PGSIZE) in
       uvmunmap pagetable (PGROUNDUP newsz) npages true);;
    mret newsz.

Fixpoint uvmalloc_loop (fuel : nat) (pagetable oldsz a newsz xperm : Z) : M kstate Z :=
  if a <? newsz then
    match fuel with
    | O => diverge
    | S f =>
        mem ← kalloc;
        if mem =? 0 then
          uvmdealloc pagetable a oldsz;; mret 0
        else
          memsetM mem 0 PGSIZE;;
          r ← mappages pagetable a PGSIZE mem (Z.lor (Z.lor PTE_R PTE_U) xperm);
          if nonzero r then
            kfree mem;; uvmdealloc pagetable a oldsz;; mret 0
          else uvmalloc_loop f pagetable oldsz (u64 (a + PGSIZE)) newsz xperm
    end
  else mret newsz.

Definition uvmalloc (pagetable oldsz newsz xperm : Z) : M kstate Z :=
  if newsz <? oldsz then mret oldsz
  else
    let oldsz := PGROUNDUP oldsz in
    uvmalloc_loop (Z.to_nat ((newsz - oldsz) / PGSIZE + 1)) pagetable oldsz oldsz newsz xperm.

(** The loop of [freewalk] over the entries of a page, [rec] being the recursive call. *)
Fixpoint freewalk_loop (rec : Z → M kstate unit) (pagetable : Z) (n : nat) (i : Z) : M kstate unit :=
  match n with
  | O => mret tt
  | S n' =>
      pte ← loadM (pagetable + 8 * i);
      (if nonzero (Z.land pte PTE_V) && (Z.land pte (Z.lor (Z.lor PTE_R PTE_W) PTE_X) =? 0)
       then rec (PTE2PA pte);; storeM (pagetable + 8 * i) 0
       else if nonzero (Z.land pte PTE_V) then panic "freewalk: leaf"
       else mret tt);;
      freewalk_loop rec pagetable n' (i + 1)
  end.

(** [freewalk] recurses once per page-table level, so three levels of depth
    are enough. *)
Fixpoint freewalk (depth : nat) (pagetable : Z) : M kstate unit :=
  match depth with
  | O => diverge
  | S d => freewalk_loop (freewalk d) pagetable 512 0;; kfree pagetable
  end.

Definition uvmfree (pagetable sz : Z) : M kstate unit :=
  when (0 <? sz) (uvmunmap pagetable 0 (PGROUNDUP sz / PGSIZE) true);;
  freewalk 3 pagetable.

Fixpoint uvmcopy_loop (fuel : nat) (old new i sz : Z) : M kstate Z :=
  if i <? sz then
    match fuel with
    | O => diverge
    | S f =>
        pte ← walk old i false;
        if pte =? 0 then panic "uvmcopy: pte should exist"
        else
          w ← loadM pte;
          if Z.land w PTE_V =? 0 then panic "uvmcopy: page not present"
          else
            let pa := PTE2PA w in
            storeM pte (Z.land w (Z.lnot PTE_W));;
            w1 ← loadM pte;
            storeM pte (Z.lor w1 PTE_COW);;
            w2 ← loadM pte;
            let flags := PTE_FLAGS w2 in
            r ← mappages new i PGSIZE pa flags;
            if nonzero r then
              uvmunmap new 0 (i / PGSIZE) true;; mret (-1)
            else
              incRef pa;;
              uvmcopy_loop f old new (u64 (i + PGSIZE)) sz
    end
  else mret 0.

Definition uvmcopy (old new sz : Z) : M kstate Z :=
  uvmcopy_loop (Z.to_nat (sz / PGSIZE + 1)) old new 0 sz.

Definition uvmclear (pagetable va : Z) : M kstate unit :=
  pte ← walk pagetable va false;
  if pte =? 0 then panic "uvmclear"
  else w ← loadM pte; storeM pte (Z.land w (Z.lnot PTE_U)).

(** ** Copies between kernel and user memory *)

(** The loop of [copyout] over the pages of the destination. *)
Fixpoint copyout_loop (fuel : nat) (pagetable dstva : Z) (src : list Z) : M kstate Z :=
  if 0 <? Z.of_nat (length src) then
    match fuel with
    | O => diverge
    | S f =>
        let va0 := PGROUNDDOWN dstva in
        pa0 ← walkaddr pagetable va0;
        if pa0 =? 0 then mret (-1)
        else
          let n := Z.min (PGSIZE - (dstva - va0)) (Z.of_nat (length src)) in
          modify (set_mem (write_bytes (pa0 + (dstva - va0)) (take (Z.to_nat n) src)));;
          copyout_loop f pagetable (u64 (va0 + PGSIZE)) (drop (Z.to_nat n) src)
    end
  else mret 0.

Definition copyout (pagetable dstva : Z) (src : list Z) : M kstate Z :=
  let va0 := PGROUNDDOWN dstva in
  if MAXVA <=? va0 then mret (-1)
  else if va0 =? 0 then mret (-1)
  else
    pte ← walk pagetable va0 false;
    if pte =? 0 then mret (-1)
    else
      w ← loadM pte;
      if negb (nonzero (Z.land w PTE_W)) && negb (nonzero (Z.land w PTE_COW)) then mret (-1)
      else if negb (nonzero (Z.land w PTE_U)) || negb (nonzero (Z.land w PTE_V)) then mret (-1)
      else
        new ← kalloc;
        if new =? 0 then mret (-1)
        else
          w1 ← loadM pte;
          memmoveM new (PTE2PA w1) PGSIZE;;
          w2 ← loadM pte;
          let old := PTE2PA w2 in
          storeM pte (Z.lor (Z.lor (Z.lor (Z.lor (Z.lor (PA2PTE new) PTE_V) PTE_R) PTE_W) PTE_U) PTE_X);;
          w3 ← loadM pte;
          storeM pte (Z.land w3 (Z.lnot PTE_COW));;
          kfree old;;
          copyout_loop (S (length src)) pagetable dstva src.

(** [copyin] returns its result and the bytes it stored at [dst]. *)
Fixpoint copyin_loop (fuel : nat) (pagetable srcva len : Z) (dst : list Z) : M kstate (Z * list Z) :=
  if 0 <? len then
    match fuel with
    | O => diverge
    | S f =>
        let va0 := PGROUNDDOWN srcva in
        pa0 ← walkaddr pagetable va0;
        if pa0 =? 0 then mret (-1, dst)
        else
          let n := Z.min (PGSIZE - (srcva - va0)) len in
          bs ← gets (λ s, read_bytes (pa0 + (srcva - va0)) (Z.to_nat n) (mem s));
          copyin_loop f pagetable (u64 (va0 + PGSIZE)) (len - n) (dst ++ bs)
    end
  else mret (0, dst).

Definition copyin (pagetable srcva len : Z) : M kstate (Z * list Z) :=
  copyin_loop (Z.to_nat (len + 1)) pagetable srcva len [].

(** The inner loop of [copyinstr]: copy up to [n] bytes from [p] until a NUL;
    the bytes stored and whether a NUL was met. *)
Fixpoint copyinstr_page (n : nat) (p : Z) (m : Z → Z) : list Z * bool :=
  match n with
  | O => ([], false)
  | S n' =>
      if u8 (m p) =? 0 then ([0], true)
      else let '(bs, got) := copyinstr_page n' (p + 1) m in (u8 (m p) :: bs, got)
  end.

Fixpoint copyinstr_loop (fuel : nat) (pagetable srcva max : Z) (got_null : bool) (dst : list Z) :
    M kstate (Z * list Z) :=
  if negb got_null && (0 <? max) then
    match fuel with
    | O => diverge
    | S f =>
        let va0 := PGROUNDDOWN srcva in
        pa0 ← walkaddr pagetable va0;
        if pa0 =? 0 then mret (-1, dst)
        else
          let n := Z.min (PGSIZE - (srcva - va0)) max in
          r ← gets (λ s, copyinstr_page (Z.to_nat n) (pa0 + (srcva - va0)) (mem s));
          let '(bs, got) := (r : list Z * bool) in
          copyinstr_loop f pagetable (u64 (va0 + PGSIZE))
            (max - (Z.of_nat (length bs) - Z.b2z got)) got (dst ++ bs)
    end
  else mret (if got_null then 0 else -1, dst).

Definition copyinstr (pagetable srcva max : Z) : M kstate (Z * list Z) :=
  copyinstr_loop (Z.to_nat (max + 1)) pagetable srcva max false [].

(** ** The kernel page table *)

(** proc.c: a stack page for each process, below the trampoline. *)
Fixpoint proc_mapstacks_loop (n : nat) (p kpgtbl : Z) : M kstate unit :=
  match n with
  | O => mret tt
  | S n' =>
      pa ← kalloc;
      if pa =? 0 then panic "kalloc"
      else
        kvmmap kpgtbl (KSTACK p) pa PGSIZE (Z.lor PTE_R PTE_W);;
        proc_mapstacks_loop n' (p + 1) kpgtbl
  end.

Definition proc_mapstacks (kpgtbl : Z) : M kstate unit :=
  proc_mapstacks_loop (Z.to_nat NPROC) 0 kpgtbl.

Definition kvmmake : M kstate Z :=
  kpgtbl ← kalloc;
  memsetM kpgtbl 0 PGSIZE;;
  kvmmap kpgtbl UART0 UART0 PGSIZE (Z.lor PTE_R PTE_W);;
  kvmmap kpgtbl VIRTIO0 VIRTIO0 PGSIZE (Z.lor PTE_R PTE_W);;
  kvmmap kpgtbl PLIC PLIC 0x400000 (Z.lor PTE_R PTE_W);;
  kvmmap kpgtbl KERNBASE KERNBASE (lk_etext - KERNBASE) (Z.lor PTE_R PTE_X);;
  kvmmap kpgtbl lk_etext lk_etext (PHYSTOP - lk_etext) (Z.lor PTE_R PTE_W);;
  kvmmap kpgtbl TRAMPOLINE lk_trampoline PGSIZE (Z.lor PTE_R PTE_X);;
  proc_mapstacks kpgtbl;;
  mret kpgtbl.

(** ** Page tables of processes (proc.c) *)

Definition proc_pagetable (trapframe : Z) : M kstate Z :=
  pagetable ← uvmcreate;
  if pagetable =? 0 then mret 0
  else
    r1 ← mappages pagetable TRAMPOLINE PGSIZE lk_trampoline (Z.lor PTE_R PTE_X);
    if r1 <? 0 then uvmfree pagetable 0;; mret 0
    else
      r2 ← mappages pagetable TRAPFRAME PGSIZE trapframe (Z.lor PTE_R PTE_W);
      if r2 <? 0 then
        uvmunmap pagetable TRAMPOLINE 1 false;; uvmfree pagetable 0;; mret 0
      else mret pagetable.

Definition proc_freepagetable (pagetable sz : Z) : M kstate unit :=
  uvmunmap pagetable TRAMPOLINE 1 false;;
  uvmunmap pagetable TRAPFRAME 1 false;;
  uvmfree pagetable sz.
End Vm.

(** ** Bytes in memory *)

Lemma write_bytes_spec bs dst m a :
  write_bytes dst bs m a =
  match bs !! Z.to_nat (a - dst) with
  | Some b => if dst <=? a then u8 b else m a
  | None => m a
  end.
Proof.
  revert dst m. induction bs as [|b bs IH]; intros dst m; [done|]. simpl write_bytes.
  rewrite IH. destruct (Z.leb_spec dst a).
  - destruct (decide (a = dst)) as [->|].
    + rewrite Z.sub_diag. simpl. rewrite (proj2 (Z.leb_gt _ _)) by lia. rewrite upd_eq.
      by destruct (bs !! _).
    + replace (Z.to_nat (a - dst)) with (S (Z.to_nat (a - (dst + 1)))) by lia. simpl.
      rewrite (proj2 (Z.leb_le (dst + 1) a)) by lia. by rewrite upd_ne by lia.
  - rewrite (proj2 (Z.leb_gt (dst + 1) a)) by lia. rewrite upd_ne by lia.
    replace (Z.to_nat (a - dst)) with 0%nat by lia. replace (Z.to_nat (a - (dst + 1))) with 0%nat by lia.
    simpl. by destruct (bs !! _).
Qed.

Lemma length_read n a m : length (read_bytes a n m) = n.
Proof. revert a. induction n as [|n IH]; intros a; simpl; [done|]. by rewrite IH. Qed.

Lemma read_bytes_lookup n a m j : (j < n)%nat → read_bytes a n m !! j = Some (u8 (m (a + Z.of_nat j))).
Proof.
  revert a j. induction n as [|n IH]; intros a j Hj; [lia|]. cbn [read_bytes]. destruct j as [|j]; simpl.
  - do 3 f_equal. lia.
  - rewrite IH by lia. do 3 f_equal. lia.
Qed.

Lemma write_bytes_out bs dst m a :
  a < dst ∨ dst + Z.of_nat (length bs) ≤ a → write_bytes dst bs m a = m a.
Proof.
  intros Ha. rewrite write_bytes_spec. destruct (bs !! Z.to_nat (a - dst)) eqn:E; [|done].
  apply lookup_lt_Some in E. by rewrite (proj2 (Z.leb_gt _ _)) by lia.
Qed.
