(* ===== verification/PageTable.v ===== *)
(** * Page tables as maps from virtual pages to entries

    The specification layer over [Vm.v].  [node m root p] is the page-table
    page at path [p] below [root], read from memory; [pte_of m root va] is the
    entry that translates [va] (0 when an intermediate page is missing).
    [pt_wf] is the well-formedness invariant: the page-table pages are
    allocated, counted once and pairwise distinct.  [pt_upd f s s' root] says
    that [s'] differs from [s] by updating each entry [w] of [va] to [f va w]
    in the tree of [root], possibly with new page-table pages, and by nothing
    else that is visible through any other allocated page. *)

From stdpp Require Import base numbers list strings relations.
From S2P Require Import Prelude Str Layout Kalloc Vm.
Local Open Scope Z_scope.

(** ** Vocabulary *)

Definition next_table (m : Z → Z) (t i : Z) : option Z :=
  let w := load64 m (t + 8 * i) in
  if Z.testbit w 0 then Some (PTE2PA w) else None.

Fixpoint node (m : Z → Z) (t : Z) (p : list Z) : option Z :=
  match p with
  | [] => Some t
  | i :: p' => match next_table m t i with Some t' => node m t' p' | None => None end
  end.

Definition vpath (p : list Z) : Prop := (length p ≤ 2)%nat ∧ Forall (λ i, 0 ≤ i < 512) p.

Definition idx (va : Z) : list Z := [PX 2 va; PX 1 va].

Definition slot (m : Z → Z) (root va : Z) : option Z :=
  (λ t, t + 8 * PX 0 va) <$> node m root (idx va).

Definition pte_of (m : Z → Z) (root va : Z) : Z :=
  match slot m root va with Some a => load64 m a | None => 0 end.

Definition pt_node (s : kstate) (root x : Z) : Prop :=
  ∃ p, vpath p ∧ node (mem s) root p = Some x.

Section PageTable.
Context {L : Linker}.

(** An entry that points to a table: no permission bit. *)
Definition inner_pte (w : Z) : Prop := Z.land w (Z.lor (Z.lor PTE_R PTE_W) PTE_X) = 0.

Record pt_wf (s : kstate) (root : Z) : Prop := PtWf {
  pw_page : ∀ p x, vpath p → node (mem s) root p = Some x → valid_page x ∧ rc s x = 1;
  pw_inj : ∀ p q x, vpath p → vpath q →
    node (mem s) root p = Some x → node (mem s) root q = Some x → p = q;
  pw_inner : ∀ p x i, vpath p → (length p ≤ 1)%nat → node (mem s) root p = Some x → 0 ≤ i < 512 →
    next_table (mem s) x i ≠ None → inner_pte (load64 (mem s) (x + 8 * i));
  pw_low : ∀ j, 256 ≤ j < 512 → next_table (mem s) root j = None;
}.

Record pt_upd (f : Z → Z → Z) (s s' : kstate) (root : Z) : Prop := PtUpd {
  pu_wf : pt_wf s' root;
  pu_node : ∀ p x, vpath p → node (mem s) root p = Some x → node (mem s') root p = Some x;
  pu_pte : ∀ va, 0 ≤ va < MAXVA → pte_of (mem s') root va = f va (pte_of (mem s) root va);
  pu_rc : ∀ x, valid_page x → 0 < rc s x → rc s' x = rc s x;
  pu_frame : ∀ x, valid_page x → 0 < rc s x → ¬ pt_node s root x →
    same_page (mem s) (mem s') x;
  pu_new : ∀ x, pt_node s' root x → pt_node s root x ∨ ¬ 0 < rc s x;
  pu_leak : ∀ x, valid_page x → rc s x = 0 →
    rc s' x = 0 ∨ (rc s' x = 1 ∧ pt_node s' root x);
}.

(** The tree grows, no translation changes. *)
Definition pt_grow : kstate → kstate → Z → Prop := pt_upd (λ _ w, w).

(** The entry of one page is replaced. *)
Definition set_pte (va v : Z) : Z → Z → Z := λ va' w,
  if va' / PGSIZE =? va / PGSIZE then v else w.

(** The entries of [n] pages from [a] on map consecutive pages from [pa] on. *)
Definition map_pte (a n pa perm : Z) : Z → Z → Z := λ va' w,
  let i := va' / PGSIZE - a / PGSIZE in
  if (0 <=? i) && (i <? n)
  then Z.lor (Z.lor (PA2PTE (pa + i * PGSIZE)) perm) PTE_V else w.

(** Two trees share no page-table page. *)
Definition pt_disj (s : kstate) (r1 r2 : Z) : Prop :=
  ∀ x, pt_node s r1 x → pt_node s r2 x → False.

(** ** Paths *)

Lemma vpath_nil : vpath [].
Proof. split; [simpl; lia | apply Forall_nil_2]. Qed.

Lemma vpath_idx va : vpath (idx va).
Proof.
  split; [simpl; lia|]. unfold idx. rewrite !Forall_cons, Forall_nil.
  pose proof (PX_bound 2 va). pose proof (PX_bound 1 va). lia.
Qed.

Lemma vpath_take va n : vpath (take n (idx va)).
Proof.
  destruct (vpath_idx va) as [H1 H2]. split; [rewrite length_take; simpl in *; lia|].
  by apply Forall_take.
Qed.

Lemma vpath_inv1 j : vpath [j] → 0 ≤ j < 512.
Proof. intros [_ H]. rewrite !Forall_cons in H. lia. Qed.

Lemma vpath_inv2 j k : vpath [j; k] → 0 ≤ j < 512 ∧ 0 ≤ k < 512.
Proof. intros [_ H]. rewrite !Forall_cons in H. lia. Qed.

Lemma vpath_1 j : 0 ≤ j < 512 → vpath [j].
Proof. intros. split; [simpl; lia | rewrite !Forall_cons, Forall_nil; lia]. Qed.

Lemma vpath_2 j k : 0 ≤ j < 512 → 0 ≤ k < 512 → vpath [j; k].
Proof. intros. split; [simpl; lia | rewrite !Forall_cons, Forall_nil; lia]. Qed.

Lemma node_idx_ext m root va va' :
  va / PGSIZE = va' / PGSIZE → slot m root va = slot m root va'.
Proof.
  intros E. unfold slot, idx. rewrite !(PX_ext _ va va') by (done || lia). done.
Qed.

Lemma pte_of_ext m root va va' :
  va / PGSIZE = va' / PGSIZE → pte_of m root va = pte_of m root va'.
Proof. intros E. unfold pte_of. by rewrite (node_idx_ext m root va va'). Qed.

Lemma node_app m root p p' t : node m root p = Some t → node m root (p ++ p') = node m t p'.
Proof.
  revert root. induction p as [|i p IH]; intros root; simpl; [by intros [= ->]|].
  destruct (next_table m root i); [apply IH | done].
Qed.

(** ** Memories that agree on the tree *)

Lemma same_page_load m m' t i :
  same_page m m' t → 0 ≤ i < 512 → load64 m' (t + 8 * i) = load64 m (t + 8 * i).
Proof.
  intros Hs Hi. apply load64_ext. intros b Hb. apply Hs. unfold PGSIZE. lia.
Qed.

Lemma next_table_ext m m' t i :
  same_page m m' t → 0 ≤ i < 512 → next_table m' t i = next_table m t i.
Proof. intros Hs Hi. unfold next_table. by rewrite (same_page_load m m'). Qed.

Lemma node_ext m m' root p :
  (∀ q x, vpath q → (length q ≤ 1)%nat → node m root q = Some x → same_page m m' x) →
  vpath p → node m' root p = node m root p.
Proof.
  intros Hs Hp. destruct p as [|j [|k [|? ?]]]; [done| | |destruct Hp as [Hp _]; simpl in Hp; lia].
  - apply vpath_inv1 in Hp. simpl.
    rewrite (next_table_ext m m') by (auto; apply (Hs []); auto using vpath_nil; simpl; lia).
    done.
  - apply vpath_inv2 in Hp as [Hj Hk]. simpl.
    rewrite (next_table_ext m m') by (auto; apply (Hs []); auto using vpath_nil; simpl; lia).
    destruct (next_table m root j) as [t|] eqn:E; [|done].
    rewrite (next_table_ext m m' t k); [done| |done].
    apply (Hs [j]); [by apply vpath_1 | simpl; lia | simpl; by rewrite E].
Qed.

Lemma slot_ext m m' root va :
  (∀ q x, vpath q → (length q ≤ 1)%nat → node m root q = Some x → same_page m m' x) →
  slot m' root va = slot m root va.
Proof. intros Hs. unfold slot. rewrite (node_ext m m'); auto using vpath_idx. Qed.

Lemma slot_inv m root va a :
  slot m root va = Some a → ∃ t, node m root (idx va) = Some t ∧ a = t + 8 * PX 0 va.
Proof. unfold slot. intros (t & E & ->)%fmap_Some. eauto. Qed.

Lemma pte_of_same m m' root va :
  (∀ q x, vpath q → node m root q = Some x → same_page m m' x) →
  pte_of m' root va = pte_of m root va.
Proof.
  intros Hs. unfold pte_of. rewrite (slot_ext m m') by eauto.
  destruct (slot m root va) as [a|] eqn:E; [|done].
  apply slot_inv in E as (t & E & ->). apply same_page_load; [|apply PX_bound; lia].
  eapply Hs; [apply vpath_idx | done].
Qed.

(** Interior pages that keep their bytes keep their entries. *)
Lemma inner_same m m' root :
  (∀ q x, vpath q → (length q ≤ 1)%nat → node m root q = Some x → same_page m m' x) →
  (∀ p x i, vpath p → (length p ≤ 1)%nat → node m root p = Some x → 0 ≤ i < 512 →
    next_table m x i ≠ None → inner_pte (load64 m (x + 8 * i))) →
  (∀ j, 256 ≤ j < 512 → next_table m root j = None) →
  (∀ p x i, vpath p → (length p ≤ 1)%nat → node m' root p = Some x → 0 ≤ i < 512 →
    next_table m' x i ≠ None → inner_pte (load64 m' (x + 8 * i))) ∧
  (∀ j, 256 ≤ j < 512 → next_table m' root j = None).
Proof.
  intros Hs Hi Hl. split.
  - intros p x i Hp Hlen E Hb. rewrite (node_ext m m') in E by done.
    rewrite (next_table_ext m m'), (same_page_load m m') by eauto. by eapply Hi.
  - intros j Hj. rewrite (next_table_ext m m'); [by apply Hl | | lia].
    apply (Hs []); [apply vpath_nil | simpl; lia | done].
Qed.

Lemma pt_same s s' root :
  pt_wf s root →
  (∀ x, pt_node s root x → same_page (mem s) (mem s') x ∧ rc s' x = rc s x) →
  pt_wf s' root ∧ (∀ p, vpath p → node (mem s') root p = node (mem s) root p) ∧
  (∀ va, pte_of (mem s') root va = pte_of (mem s) root va).
Proof.
  intros Hw Hs.
  assert (Hs' : ∀ q x, vpath q → node (mem s) root q = Some x → same_page (mem s) (mem s') x).
  { intros q x Hq E. apply Hs. by exists q. }
  assert (Hn : ∀ p, vpath p → node (mem s') root p = node (mem s) root p).
  { intros p Hp. apply node_ext; eauto. }
  destruct (inner_same (mem s) (mem s') root) as [Hi Hl]; [by eauto | apply Hw | apply Hw|].
  split; [|split; [done|]].
  - split; [| |done|done].
    + intros p x Hp E. rewrite Hn in E by done. destruct (pw_page _ _ Hw p x Hp E) as [Hv Hr].
      split; [done|]. destruct (Hs x) as [_ ->]; [by exists p | done].
    + intros p q x Hp Hq. rewrite !Hn by done. by apply (pw_inj _ _ Hw).
  - intros va. by apply pte_of_same.
Qed.

(** ** Composition of updates *)

Lemma pt_upd_trans f g s1 s2 s3 root :
  pt_upd f s1 s2 root → pt_upd g s2 s3 root →
  pt_upd (λ va w, g va (f va w)) s1 s3 root.
Proof.
  intros [A1 A2 A3 A4 A5 A6 A7] [B1 B2 B3 B4 B5 B6 B7]. split; [done|auto| | | | |].
  - intros va Hva. by rewrite B3, A3.
  - intros x Hx Hr. rewrite B4, A4; [done..|]. by rewrite A4.
  - intros x Hx Hr Hn b Hb. rewrite B5, A5; [done..| | |done].
    + by rewrite A4.
    + intros Hn'. destruct (A6 x Hn'); done.
  - intros x Hx. destruct (B6 x Hx) as [Hx'|Hr]; [by apply A6|]. right. intros Hr1.
    destruct Hx as (p & Hp & Ep). destruct (pw_page _ _ B1 p x Hp Ep) as [Hv _].
    rewrite A4 in Hr by done. done.
  - intros x Hx Hr. destruct (A7 x Hx Hr) as [Hr2|[Hr2 (p & Hp & Ep)]]; [auto|].
    right. rewrite B4, Hr2 by (done || lia). split; [done|]. exists p. auto.
Qed.

Lemma pt_upd_ext f g s s' root :
  (∀ va w, 0 ≤ va < MAXVA → f va w = g va w) → pt_upd f s s' root → pt_upd g s s' root.
Proof. intros E [A1 A2 A3 A4 A5 A6 A7]. split; auto. intros va Hva. by rewrite A3, E. Qed.

Lemma pt_grow_trans s1 s2 s3 root : pt_grow s1 s2 root → pt_grow s2 s3 root → pt_grow s1 s3 root.
Proof. apply (pt_upd_trans (λ _ w, w) (λ _ w, w)). Qed.

Lemma pt_grow_refl s root : pt_wf s root → pt_grow s s root.
Proof. intros H. split; auto. by intros x ? ? ?. Qed.

(** An update of one tree is invisible in a disjoint one. *)
Lemma pt_upd_other f s s' root root2 :
  pt_upd f s s' root → pt_wf s root2 → pt_disj s root2 root →
  pt_wf s' root2 ∧ pt_disj s' root2 root ∧
  (∀ p, vpath p → node (mem s') root2 p = node (mem s) root2 p) ∧
  (∀ va, pte_of (mem s') root2 va = pte_of (mem s) root2 va).
Proof.
  intros Hu Hw Hd.
  destruct (pt_same s s' root2 Hw) as (Hw' & Hn & Hp).
  { intros x Hx. pose proof Hx as (q & Hq & E). destruct (pw_page _ _ Hw q x Hq E) as [Hv Hr].
    split; [|apply (pu_rc _ _ _ _ Hu); [done | lia]].
    apply (pu_frame _ _ _ _ Hu x Hv); [lia|]. intros Hx'. by apply (Hd x). }
  split; [done|]. split; [|done]. intros x (p & Hp' & E) Hx. rewrite Hn in E by done.
  destruct (pw_page _ _ Hw p x Hp' E) as [Hv Hr].
  destruct (pu_new _ _ _ _ Hu x Hx) as [Hx'|Hx']; [|lia].
  apply (Hd x); [by exists p | done].
Qed.

Context `{!LinkerOk L}.

(** ** Storing an entry *)

Lemma entry_disjoint t t' i i' :
  t mod PGSIZE = 0 → t' mod PGSIZE = 0 → 0 ≤ i < 512 → 0 ≤ i' < 512 →
  (t ≠ t' ∨ i ≠ i') →
  t + 8 * i + 8 ≤ t' + 8 * i' ∨ t' + 8 * i' + 8 ≤ t + 8 * i.
Proof. unfold PGSIZE. lia. Qed.

Lemma same_page_store m t i v x :
  t mod PGSIZE = 0 → x mod PGSIZE = 0 → 0 ≤ i < 512 → x ≠ t →
  same_page m (store64 m (t + 8 * i) v) x.
Proof. intros Ht Hx Hi Hne b Hb. apply store64_out. unfold PGSIZE in *. lia. Qed.

(** The leaf entry of [va] is replaced; nothing else changes. *)
Lemma store_leaf s root va a v :
  pt_wf s root → 0 ≤ va < MAXVA → slot (mem s) root va = Some a →
  pt_upd (set_pte va (u64 v)) s (set_mem (λ m, store64 m a v) s) root.
Proof.
  intros Hw Hva Hs. apply slot_inv in Hs as (t & Et & ->).
  pose proof (PX_bound 0 va ltac:(lia)) as Hi.
  destruct (pw_page _ _ Hw _ _ (vpath_idx va) Et) as [[Ht _] Hrt].
  set (s' := set_mem (λ m, store64 m (t + 8 * PX 0 va) v) s).
  assert (Hsame : ∀ x, valid_page x → x ≠ t → same_page (mem s) (mem s') x).
  { intros x [Hx _] Hne. by apply same_page_store. }
  assert (Hup : ∀ q x, vpath q → (length q ≤ 1)%nat → node (mem s) root q = Some x →
    same_page (mem s) (mem s') x).
  { intros q x Hq Hl E. apply Hsame; [by apply (pw_page _ _ Hw q)|]. intros ->.
    assert (q = idx va) by (by apply (pw_inj _ _ Hw q (idx va) t (Hq) (vpath_idx va))).
    subst q. simpl in Hl. lia. }
  assert (Hn : ∀ p, vpath p → node (mem s') root p = node (mem s) root p).
  { intros p Hp. by apply node_ext. }
  destruct (inner_same (mem s) (mem s') root Hup) as [Hin Hlow]; [apply Hw..|].
  split.
  - split; [intros p x Hp; rewrite Hn by done; by apply (pw_page _ _ Hw)| |done|done].
    intros p q x Hp Hq. rewrite !Hn by done. by apply (pw_inj _ _ Hw).
  - intros p x Hp. by rewrite Hn.
  - intros va' Hva'. unfold pte_of at 1, set_pte. rewrite (slot_ext (mem s)) by done.
    destruct (Z.eqb_spec (va' / PGSIZE) (va / PGSIZE)) as [E|E].
    + rewrite (node_idx_ext _ _ va' va E). unfold slot. rewrite Et. simpl.
      by rewrite load64_store64.
    + unfold pte_of. destruct (slot (mem s) root va') as [a'|] eqn:Ea'; [|done].
      apply slot_inv in Ea' as (t' & Et' & ->). simpl. apply load64_store64_ne.
      destruct (pw_page _ _ Hw _ _ (vpath_idx va') Et') as [[Ht' _] _].
      apply entry_disjoint; [done..|apply PX_bound; lia | done |].
      destruct (decide (t' = t)) as [->|]; [|auto]. right. intros E0. destruct E.
      pose proof (pw_inj _ _ Hw _ _ _ (vpath_idx va') (vpath_idx va) Et' Et) as E12.
      injection E12 as E2 E1. by apply PX_inj.
  - done.
  - intros x Hx Hr Hno. apply Hsame; [done|]. intros ->. apply Hno.
    exists (idx va). auto using vpath_idx.
  - intros x (p & Hp & E). left. exists p. rewrite Hn in E by done. auto.
  - auto.
Qed.

(** ** Adding a page-table page *)

(** The tree after entry [i] of the page [t] at path [q] has been pointed to a
    zeroed page [pg]. *)
Section Extend.
Context (m m' : Z → Z) (root t i pg : Z) (q : list Z).
Hypothesis Hq : vpath q.
Hypothesis Hlen : (length q ≤ 1)%nat.
Hypothesis Hnode : node m root q = Some t.
Hypothesis Hi : 0 ≤ i < 512.
Hypothesis Hnone : next_table m t i = None.
Hypothesis Hsome : next_table m' t i = Some pg.
Hypothesis Hinj : ∀ p p' x, vpath p → vpath p' →
  node m root p = Some x → node m root p' = Some x → p = p'.
Hypothesis Hsame : ∀ p x, vpath p → node m root p = Some x → x ≠ t → same_page m m' x.
Hypothesis Hrest : ∀ j, 0 ≤ j < 512 → j ≠ i → load64 m' (t + 8 * j) = load64 m (t + 8 * j).
Hypothesis Hzero : ∀ j, 0 ≤ j < 512 → load64 m' (pg + 8 * j) = 0.

Lemma extend_entry j :
  0 ≤ j < 512 → next_table m' t j = if bool_decide (j = i) then Some pg else next_table m t j.
Proof.
  intros Hj. case_bool_decide as E; [by subst|]. unfold next_table. by rewrite Hrest.
Qed.

Lemma extend_zero j : 0 ≤ j < 512 → next_table m' pg j = None.
Proof. intros Hj. unfold next_table. by rewrite Hzero. Qed.

(** Entries of pages other than [t] are unchanged. *)
Lemma extend_other p x j :
  vpath p → node m root p = Some x → p ≠ q → 0 ≤ j < 512 → next_table m' x j = next_table m x j.
Proof.
  intros Hp E Hne Hj. apply next_table_ext; [|done]. apply (Hsame p); [done..|].
  intros ->. by apply Hne, (Hinj p q t).
Qed.

Lemma extend_node p :
  vpath p →
  node m' root p =
  if bool_decide (p = q ++ [i]) then Some pg
  else if bool_decide (take (S (length q)) p = q ++ [i]) then None
  else node m root p.
Proof.
  intros Hp. pose proof Hnode as Hn. assert (Hq' : q = [] ∨ ∃ a, q = [a]).
  { pose proof Hlen as Hl. destruct q as [|a [|? ?]]; simpl in Hl; [auto | eauto | lia]. }
  destruct Hq' as [Eq|[a Eq]]; rewrite Eq in Hn |- *; simpl in Hn.
  - injection Hn as Er. rewrite Er.
    destruct p as [|j [|k [|? ?]]]; [done| | |destruct Hp as [Hp _]; simpl in Hp; lia].
    + apply vpath_inv1 in Hp. simpl. rewrite extend_entry by done.
      case_bool_decide as E; [subst j; by rewrite bool_decide_true|].
      by rewrite !bool_decide_false by congruence.
    + apply vpath_inv2 in Hp as [Hj Hk]. simpl. rewrite extend_entry by done.
      rewrite (bool_decide_false ([j; k] = [i])) by congruence.
      case_bool_decide as E.
      * rewrite E, bool_decide_true by done. by rewrite extend_zero.
      * rewrite bool_decide_false by congruence.
        destruct (next_table m t j) as [t1|] eqn:E1; [|done].
        rewrite (extend_other [j] t1 k); [done|by apply vpath_1| |by rewrite Eq|done].
        simpl. by rewrite Er, E1.
  - assert (Ha : 0 ≤ a < 512) by (apply vpath_inv1; by rewrite <- Eq).
    assert (Hroot : ∀ j, 0 ≤ j < 512 → next_table m' root j = next_table m root j).
    { intros j Hj. by apply (extend_other [] root j); [apply vpath_nil|done|rewrite Eq|]. }
    destruct p as [|j [|k [|? ?]]]; [done| | |destruct Hp as [Hp _]; simpl in Hp; lia].
    + apply vpath_inv1 in Hp. simpl. by rewrite Hroot, !bool_decide_false by (done || congruence).
    + apply vpath_inv2 in Hp as [Hj Hk]. simpl. rewrite Hroot by done.
      destruct (next_table m root j) as [t1|] eqn:E1.
      2: { rewrite !bool_decide_false; [done|..]; intros [= -> ->]; by rewrite E1 in Hn. }
      destruct (decide (j = a)) as [->|Hja].
      * rewrite E1 in Hn. injection Hn as Et. rewrite Et.
        rewrite extend_entry by done. case_bool_decide as Ek.
        { rewrite Ek. by rewrite bool_decide_true. }
        by rewrite !bool_decide_false by congruence.
      * rewrite (extend_other [j] t1 k);
          [|by apply vpath_1|simpl; by rewrite E1|rewrite Eq; congruence|done].
        by rewrite !bool_decide_false by congruence.
Qed.

Lemma extend_mono p x : vpath p → node m root p = Some x → node m' root p = Some x.
Proof.
  intros Hp E. rewrite extend_node by done.
  assert (Hno : take (S (length q)) p ≠ q ++ [i]).
  { intros Et. rewrite <- (take_drop (S (length q)) p), Et, <- app_assoc in E.
    by rewrite (node_app _ _ _ _ t Hnode) in E; simpl in E; rewrite Hnone in E. }
  rewrite !bool_decide_false; [done|done|]. intros ->. apply Hno.
  rewrite take_ge; [done|]. rewrite length_app. simpl. lia.
Qed.

Lemma extend_inv p x :
  vpath p → node m' root p = Some x → node m root p = Some x ∨ (p = q ++ [i] ∧ x = pg).
Proof.
  intros Hp E. rewrite extend_node in E by done.
  repeat case_bool_decide; simplify_eq; auto.
Qed.
End Extend.

Lemma load64_zero m a n p :
  p ≤ a → a + 8 ≤ p + n → load64 (mset p 0 n m) a = 0.
Proof.
  intros H1 H2. rewrite (load64_ext _ (λ _, 0)).
  - reflexivity.
  - intros b Hb. apply mset_in. lia.
Qed.

(** The new entry of an interior page: it is valid and points to the page. *)
Lemma interior_entry m t i pg :
  valid_page pg →
  next_table (store64 m (t + 8 * i) (Z.lor (PA2PTE pg) PTE_V)) t i = Some pg.
Proof.
  intros Hp. destruct (valid_page_bounds pg Hp) as [Hb Hal]. unfold next_table.
  rewrite load64_store64. change PTE_V with 1.
  pose proof (pte_bound pg 1 ltac:(lia) ltac:(lia)).
  rewrite u64_small by lia. rewrite Z.lor_spec, orb_true_r.
  by rewrite PTE2PA_PA2PTE by lia.
Qed.

Lemma interior_inner m t i pg :
  valid_page pg → inner_pte (load64 (store64 m (t + 8 * i) (Z.lor (PA2PTE pg) PTE_V)) (t + 8 * i)).
Proof.
  intros Hp. destruct (valid_page_bounds pg Hp) as [Hb _]. rewrite load64_store64. change PTE_V with 1.
  pose proof (pte_bound pg 1 ltac:(lia) ltac:(lia)). rewrite u64_small by lia.
  apply Z.bits_inj'. intros k Hk. rewrite Z.land_spec, Z.lor_spec, Z.bits_0.
  destruct (Z.testbit (Z.lor (Z.lor PTE_R PTE_W) PTE_X) k) eqn:Ek; [|by rewrite andb_false_r].
  assert (1 ≤ k ≤ 3).
  { change (Z.lor (Z.lor PTE_R PTE_W) PTE_X) with 14 in Ek. destruct (Z.ltb_spec 3 k) as [H3|].
    - rewrite Z.bits_above_log2 in Ek by (simpl; lia). done.
    - destruct (decide (k = 0)) as [->|]; [done | lia]. }
  rewrite PA2PTE_testbit by lia.
  replace (Z.testbit 1 k) with false; [done|]. symmetry. apply Z.bits_above_log2; simpl; lia.
Qed.

Section Grow.
Context (s s1 : kstate) (root t i pg : Z) (q l : list Z).
Hypothesis Hk : kinv s (pg :: l).
Hypothesis Hw : pt_wf s root.
Hypothesis Hq : vpath q.
Hypothesis Hlen : (length q ≤ 1)%nat.
Hypothesis Hnode : node (mem s) root q = Some t.
Hypothesis Hi : 0 ≤ i < 512.
Hypothesis Hlow : q = [] → i < 256.
Hypothesis Hnone : next_table (mem s) t i = None.
Hypothesis Hpost : kalloc_post s (pg :: l) pg s1.

(** The state after the new page is cleared and linked in. *)
Definition grown : kstate :=
  set_mem (λ m, store64 m (t + 8 * i) (Z.lor (PA2PTE pg) PTE_V))
    (set_mem (mset pg 0 PGSIZE) s1).

Lemma grow_pg : valid_page pg ∧ rc s pg = 0.
Proof.
  split; [apply (ki_valid _ _ _ Hk) | apply (ki_free _ _ _ Hk)]; by left.
Qed.

Lemma grow_t : valid_page t ∧ rc s t = 1.
Proof. by apply (pw_page _ _ Hw q). Qed.

Lemma grow_rc x : valid_page x → rc grown x = if bool_decide (x = pg) then 1 else rc s x.
Proof.
  intros Hx. destruct Hpost as (_ & _ & Hr1 & Hr & _).
  change (rc grown x) with (rc s1 x). case_bool_decide; [by subst | by apply Hr].
Qed.

Lemma grow_mem_out b :
  (b < pg ∨ pg + PGSIZE ≤ b) → (b < t + 8 * i ∨ t + 8 * i + 8 ≤ b) → mem grown b = mem s b.
Proof.
  intros H1 H2. destruct Hpost as (_ & _ & _ & _ & Hm). unfold grown; simpl.
  rewrite store64_out by lia. rewrite mset_out by lia. rewrite Hm. by apply mset_out.
Qed.

Lemma grow_same x : valid_page x → x ≠ t → x ≠ pg → same_page (mem s) (mem grown) x.
Proof.
  intros [Hx _] Ht Hpg b Hb. destruct grow_t as [[Ht0 _] _], grow_pg as [[Hp0 _] _].
  apply grow_mem_out; unfold PGSIZE in *; lia.
Qed.

Lemma grow_zero j : 0 ≤ j < 512 → load64 (mem grown) (pg + 8 * j) = 0.
Proof.
  intros Hj. destruct grow_t as [[Ht0 _] Hrt], grow_pg as [[Hp0 _] Hrp].
  assert (t ≠ pg) by (intros ->; lia). unfold grown; simpl.
  rewrite load64_store64_ne by (unfold PGSIZE in *; lia).
  apply load64_zero; unfold PGSIZE; lia.
Qed.

Lemma grow_rest j :
  0 ≤ j < 512 → j ≠ i → load64 (mem grown) (t + 8 * j) = load64 (mem s) (t + 8 * j).
Proof.
  intros Hj Hne. destruct grow_t as [[Ht0 _] Hrt], grow_pg as [[Hp0 _] Hrp].
  assert (t ≠ pg) by (intros ->; lia). apply load64_ext. intros b Hb.
  apply grow_mem_out; unfold PGSIZE in *; lia.
Qed.

Lemma grow_node_page p x : vpath p → node (mem s) root p = Some x → valid_page x ∧ x ≠ pg.
Proof.
  intros Hp E. destruct (pw_page _ _ Hw p x Hp E) as [Hv Hr]. split; [done|].
  intros ->. destruct grow_pg. lia.
Qed.

Lemma grow_mono p x :
  vpath p → node (mem s) root p = Some x → node (mem grown) root p = Some x.
Proof.
  apply (extend_mono (mem s) (mem grown) root t i pg q); auto using grow_rest, grow_zero.
  - apply interior_entry. apply grow_pg.
  - apply (pw_inj _ _ Hw).
  - intros p' x' Hp' E Hne. destruct (grow_node_page p' x' Hp' E). by apply grow_same.
Qed.

Lemma grow_inv p x :
  vpath p → node (mem grown) root p = Some x →
  node (mem s) root p = Some x ∨ (p = q ++ [i] ∧ x = pg).
Proof.
  apply (extend_inv (mem s) (mem grown) root t i pg q); auto using grow_rest, grow_zero.
  - apply interior_entry. apply grow_pg.
  - apply (pw_inj _ _ Hw).
  - intros p' x' Hp' E Hne. destruct (grow_node_page p' x' Hp' E). by apply grow_same.
Qed.

Lemma grow_at : node (mem grown) root (q ++ [i]) = Some pg.
Proof.
  rewrite (node_app _ _ _ _ t) by (by apply grow_mono). simpl.
  unfold grown; simpl. by rewrite interior_entry by apply grow_pg.
Qed.

Lemma grow_vpath : vpath (q ++ [i]).
Proof.
  destruct Hq as [H1 H2]. split; [rewrite length_app; simpl; lia|].
  apply Forall_app. split; [done|]. by rewrite Forall_singleton.
Qed.

Lemma grow_wf : pt_wf grown root.
Proof.
  split.
  - intros p x Hp E. destruct (grow_inv p x Hp E) as [E'|[_ ->]].
    + destruct (pw_page _ _ Hw p x Hp E') as [Hv Hr]. split; [done|].
      rewrite grow_rc by done. rewrite bool_decide_false; [done|].
      by apply (grow_node_page p).
    + split; [apply grow_pg|]. rewrite grow_rc by apply grow_pg. by rewrite bool_decide_true.
  - intros p p' x Hp Hp' E E'.
    destruct (grow_inv p x Hp E) as [E1|[Ep Ex]], (grow_inv p' x Hp' E') as [E2|[Ep' Ex']].
    + by apply (pw_inj _ _ Hw p p' x).
    + destruct (grow_node_page p x Hp E1). congruence.
    + destruct (grow_node_page p' x Hp' E2). congruence.
    + congruence.
  - intros p x j Hp Hl E Hj Hv. destruct (grow_inv p x Hp E) as [E1|[-> ->]].
    + destruct (decide (p = q)) as [->|Hpq].
      * assert (x = t) as -> by congruence. destruct (decide (j = i)) as [->|Hji].
        { unfold grown. simpl. apply interior_inner, grow_pg. }
        rewrite grow_rest by done. unfold next_table in Hv. rewrite grow_rest in Hv by done.
        by apply (pw_inner _ _ Hw q t j).
      * assert (Hs : same_page (mem s) (mem grown) x).
        { destruct (grow_node_page p x Hp E1). apply grow_same; [done| |done]. intros ->.
          by apply Hpq, (pw_inj _ _ Hw p q t). }
        rewrite (same_page_load (mem s)) by done. rewrite (next_table_ext (mem s)) in Hv by done.
        by apply (pw_inner _ _ Hw p x j).
    + unfold next_table in Hv. by rewrite grow_zero in Hv.
  - intros j Hj. assert (Hroot : node (mem s) root [] = Some root) by done.
    destruct (decide (q = [])) as [Hq0|Hq0].
    + assert (Er : root = t) by (pose proof Hnode as E; rewrite Hq0 in E; simpl in E; congruence).
      pose proof (pw_low _ _ Hw j Hj) as Hnx. unfold next_table in Hnx |- *. rewrite Er in Hnx |- *.
      rewrite grow_rest; [done | lia|]. specialize (Hlow Hq0). lia.
    + rewrite (next_table_ext (mem s)); [by apply (pw_low _ _ Hw) | | lia].
      destruct (grow_node_page [] root vpath_nil Hroot). apply grow_same; [done| |done]. intros ->.
      by destruct Hq0; symmetry; apply (pw_inj _ _ Hw [] q t vpath_nil).
Qed.

Lemma grow_pte va : pte_of (mem grown) root va = pte_of (mem s) root va.
Proof.
  unfold pte_of, slot. destruct (node (mem s) root (idx va)) as [x|] eqn:E.
  - rewrite (grow_mono _ _ (vpath_idx va) E). simpl.
    destruct (grow_node_page _ _ (vpath_idx va) E) as [Hv Hne].
    apply same_page_load; [|apply PX_bound; lia]. apply grow_same; [done| |done].
    intros ->. pose proof (pw_inj _ _ Hw q (idx va) t Hq (vpath_idx va) Hnode E) as Eq.
    rewrite Eq in Hlen. simpl in Hlen. lia.
  - destruct (node (mem grown) root (idx va)) as [x|] eqn:E'; [|done].
    destruct (grow_inv _ _ (vpath_idx va) E') as [?|[_ ->]]; [congruence|]. simpl.
    apply grow_zero, PX_bound. lia.
Qed.

Lemma grow_grow : pt_grow s grown root.
Proof.
  split.
  - apply grow_wf.
  - apply grow_mono.
  - intros va _. apply grow_pte.
  - intros x Hx Hr. rewrite grow_rc by done. rewrite bool_decide_false; [done|].
    intros ->. destruct grow_pg. lia.
  - intros x Hx Hr Hn. apply grow_same; [done| |].
    + intros ->. apply Hn. by exists q.
    + intros ->. destruct grow_pg. lia.
  - intros x (p & Hp & E). destruct (grow_inv p x Hp E) as [E'|[_ ->]].
    + left. by exists p.
    + right. destruct grow_pg. lia.
  - intros x Hx Hr. rewrite grow_rc by done. case_bool_decide as E; [|auto].
    right. split; [done|]. subst x. exists (q ++ [i]). split; [apply grow_vpath | apply grow_at].
Qed.

Lemma grow_kinv : kinv grown l.
Proof.
  destruct Hpost as (_ & Hk1 & Hr1 & Hr & Hm). unfold grown.
  assert (Hne : ∀ x, x ∈ l → valid_page x ∧ x ≠ pg ∧ x ≠ t).
  { intros x Hx. pose proof (ki_valid _ _ _ Hk1 x Hx) as Hv. pose proof (ki_free _ _ _ Hk1 x Hx) as H0.
    split; [done|]. split; [intros ->; lia|]. intros ->. destruct grow_t as [Hvt Hrt].
    rewrite Hr in H0; [lia|done|]. intros ->. destruct grow_pg. lia. }
  destruct grow_t as [[Ht0 _] _], grow_pg as [[Hp0 _] _].
  apply kinv_mem; [apply kinv_mem; [done|]|]; intros x Hx; destruct (Hne x Hx) as ([Hx0 _] & H1 & H2).
  - by apply same_page_mset.
  - by apply same_page_store.
Qed.
End Grow.

(** ** [walk] *)

Lemma land_V w : nonzero (Z.land w PTE_V) = Z.testbit w 0.
Proof. apply land_bit. lia. Qed.

Lemma MAXVA_lt : MAXVA < 2 ^ 63.
Proof. done. Qed.

Lemma land_V0 w : (Z.land w PTE_V =? 0) = negb (Z.testbit w 0).
Proof. rewrite <- land_V. unfold nonzero. by rewrite negb_involutive. Qed.

Lemma walk_loop_step level t va alloc :
  walk_loop (S level) t va alloc =
  (w ← loadM (t + 8 * PX (Z.of_nat (S level)) va);
   if nonzero (Z.land w PTE_V) then walk_loop level (PTE2PA w) va alloc
   else if negb alloc then mret 0
   else
     pg ← kalloc;
     if pg =? 0 then mret 0
     else
       memsetM pg 0 PGSIZE;;
       storeM (t + 8 * PX (Z.of_nat (S level)) va) (Z.lor (PA2PTE pg) PTE_V);;
       walk_loop level pg va alloc).
Proof. done. Qed.

(** The lookup walk returns the slot of [va], or 0 when a table is missing, and
    changes nothing. *)
Lemma walk_lookup_wp s root va :
  0 ≤ va < MAXVA →
  wp (walk root va false) s (λ r s', s' = s ∧ r = default 0 (slot (mem s) root va)).
Proof.
  intros Hva. unfold walk. rewrite (proj2 (Z.leb_gt _ _)) by lia.
  rewrite walk_loop_step. apply wp_bind, wp_gets. change (Z.of_nat 2) with 2.
  unfold slot, idx. cbn [node]. unfold next_table. rewrite land_V.
  destruct (Z.testbit (load64 (mem s) (root + 8 * PX 2 va)) 0); [|done].
  rewrite walk_loop_step. apply wp_bind, wp_gets. change (Z.of_nat 1) with 1.
  rewrite land_V. set (t := PTE2PA _).
  destruct (Z.testbit (load64 (mem s) (t + 8 * PX 1 va)) 0); done.
Qed.

Lemma PX_low va : 0 ≤ va < MAXVA → PX 2 va < 256.
Proof.
  intros Hva. change MAXVA with 274877906944 in Hva. rewrite PX_spec by lia. change (2 ^ (12 + 9 * 2)) with 1073741824. lia.
Qed.

(** One level of an allocating walk. *)
Lemma walk_alloc_step s l root va level q t (Q : Z → kstate → Prop) :
  kinv s l → pt_wf s root → 0 ≤ va < MAXVA → (level < 2)%nat → (length q = 1 - level)%nat →
  vpath q → node (mem s) root q = Some t →
  (∀ t' s' l', kinv s' l' → (length l ≤ length l' + 1)%nat → pt_grow s s' root →
     node (mem s') root (q ++ [PX (Z.of_nat (S level)) va]) = Some t' →
     wp (walk_loop level t' va true) s' Q) →
  (l = [] → Q 0 s) →
  wp (walk_loop (S level) t va true) s Q.
Proof.
  intros Hk Hw Hva Hlv Hlen Hq Hn Hnext Hfail. rewrite walk_loop_step.
  apply wp_bind, wp_gets. rewrite land_V.
  pose proof (PX_bound (Z.of_nat (S level)) va ltac:(lia)) as Hi.
  set (i := PX (Z.of_nat (S level)) va) in *.
  destruct (next_table (mem s) t i) as [t'|] eqn:E.
  - pose proof E as E'. unfold next_table in E'.
    destruct (Z.testbit (load64 (mem s) (t + 8 * i)) 0); [|done]. injection E' as ->.
    apply (Hnext t' s l); [done | lia | by apply pt_grow_refl|].
    rewrite (node_app _ _ _ _ t) by done. simpl. by rewrite E.
  - pose proof E as E'. unfold next_table in E'.
    destruct (Z.testbit (load64 (mem s) (t + 8 * i)) 0); [done|]. simpl.
    apply wp_bind. eapply wp_mono; [apply kalloc_wp, Hk|]. intros pg s1 Hp.
    destruct l as [|pg' l'].
    { destruct Hp as [-> ->]. rewrite Z.eqb_refl. apply wp_ret. by apply Hfail. }
    pose proof Hp as (<- & _). assert (Hpg : pg ≠ 0).
    { destruct (valid_page_bounds pg); [apply (ki_valid _ _ _ Hk); by left | lia]. }
    rewrite (proj2 (Z.eqb_neq _ _) Hpg).
    assert (Hlow : q = [] → i < 256).
    { intros ->. simpl in Hlen. unfold i. replace level with 1%nat by lia. by apply PX_low. }
    apply wp_bind, wp_modify, wp_bind, wp_modify.
    apply (Hnext pg (grown s1 t i pg) l').
    + apply (grow_kinv s s1 root t i pg q l'); done || lia.
    + simpl. lia.
    + apply (grow_grow s s1 root t i pg q l'); done || lia.
    + apply (grow_at s s1 root t i pg q l'); done || lia.
Qed.

(** Where the tables are there, the allocating walk finds the slot. *)
Lemma walk_present_wp s root va a :
  0 ≤ va < MAXVA → slot (mem s) root va = Some a → wp (walk root va true) s (λ r s', r = a ∧ s' = s).
Proof.
  intros Hva. unfold walk. rewrite (proj2 (Z.leb_gt _ _)) by lia.
  rewrite walk_loop_step. unfold slot, idx. cbn [node]. unfold next_table.
  destruct (Z.testbit (load64 (mem s) (root + 8 * PX 2 va)) 0) eqn:E2; [|done].
  set (t := PTE2PA _). destruct (Z.testbit (load64 (mem s) (t + 8 * PX 1 va)) 0) eqn:E1; [|done].
  intros [= <-]. apply wp_bind, wp_gets. change (Z.of_nat 2) with 2. rewrite land_V, E2. fold t.
  rewrite walk_loop_step. apply wp_bind, wp_gets. change (Z.of_nat 1) with 1. rewrite land_V, E1. done.
Qed.

(** The page-table pages a walk to [va] may need. *)
Definition missing (m : Z → Z) (root va : Z) : Z := match slot m root va with Some _ => 0 | None => 2 end.

(** The allocating walk returns 0 only when memory is exhausted, and otherwise
    the slot of [va]; every translation is unchanged. *)
Lemma walk_alloc_wp s l root va :
  kinv s l → pt_wf s root → 0 ≤ va < MAXVA →
  wp (walk root va true) s (λ r s', ∃ l', kinv s' l' ∧ pt_grow s s' root ∧
    ((r = 0 ∧ l' = [] ∧ Z.of_nat (length l) < missing (mem s) root va) ∨
     (slot (mem s') root va = Some r ∧ Z.of_nat (length l) ≤ Z.of_nat (length l') + missing (mem s) root va))).
Proof.
  intros Hk Hw Hva. unfold missing. destruct (slot (mem s) root va) as [a|] eqn:Es.
  { eapply wp_mono; [by apply (walk_present_wp s root va a)|]. intros r s' [-> ->]. exists l. split; [done|].
    split; [by apply pt_grow_refl|]. right. split; [done | lia]. }
  unfold walk. rewrite (proj2 (Z.leb_gt _ _)) by lia.
  apply (walk_alloc_step s l root va 1 [] root); auto using vpath_nil.
  2: { intros ->. exists []. split; [done|]. split; [by apply pt_grow_refl|]. left. split_and!; [done | done | simpl; lia]. }
  intros t1 s1 l1 Hk1 Hc1 Hg1 Hn1. simpl in Hn1.
  apply (walk_alloc_step s1 l1 root va 0 [PX 2 va] t1); auto.
  - apply (pu_wf _ _ _ _ Hg1).
  - apply vpath_1, PX_bound. lia.
  - intros t0 s0 l0 Hk0 Hc0 Hg0 Hn0. simpl. apply wp_ret. exists l0. split; [done|]. split.
    + by apply pt_grow_trans with s1.
    + right. unfold slot. change (idx va) with ([PX 2 va] ++ [PX (Z.of_nat 1) va]).
      rewrite Hn0. split; [done | lia].
  - intros ->. exists []. split; [done|]. split; [done|]. left. simpl in Hc1. split_and!; [done | done | lia].
Qed.

(** ** [mappages] *)

(** [pte_of] is 0 or the content of a slot, so at most 64 bits wide. *)
Lemma pte_of_bound m root va : 0 ≤ pte_of m root va < 2 ^ 64.
Proof. unfold pte_of. destruct (slot m root va); [apply load64_bound | lia]. Qed.

Lemma slot_pos s root va a : pt_wf s root → slot (mem s) root va = Some a → 0 < a.
Proof.
  intros Hw (t & E & ->)%slot_inv. destruct (pw_page _ _ Hw _ _ (vpath_idx va) E) as [Hv _].
  destruct (valid_page_bounds t Hv). pose proof (PX_bound 0 va). lia.
Qed.

(** Walk to the slot of [va] and store there: the entry of [va] is replaced. *)
Lemma walk_store s s1 root va a v :
  pt_grow s s1 root → 0 ≤ va < MAXVA → slot (mem s1) root va = Some a →
  pt_upd (set_pte va (u64 v)) s (set_mem (λ m, store64 m a v) s1) root.
Proof.
  intros Hg Hva Hs. apply (pt_upd_trans (λ _ w, w) (set_pte va (u64 v)) s s1); [done|].
  apply store_leaf; [apply (pu_wf _ _ _ _ Hg) | done | done].
Qed.

Lemma kinv_store s l root va a v :
  kinv s l → pt_wf s root → slot (mem s) root va = Some a →
  kinv (set_mem (λ m, store64 m a v) s) l.
Proof.
  intros Hk Hw (t & E & ->)%slot_inv. apply kinv_mem; [done|]. intros x Hx.
  destruct (pw_page _ _ Hw _ _ (vpath_idx va) E) as [[Ht _] Hr].
  apply same_page_store; [done | apply (ki_valid _ _ _ Hk x Hx) | apply PX_bound; lia |].
  intros ->. rewrite (ki_free _ _ _ Hk t Hx) in Hr. lia.
Qed.

Lemma pte_perm_bound pa perm :
  0 ≤ pa < 2 ^ 56 → 0 ≤ perm < 1024 →
  0 ≤ Z.lor (Z.lor (PA2PTE pa) perm) PTE_V < 2 ^ 54.
Proof.
  intros Hpa Hp. change PTE_V with 1. rewrite <- Z.lor_assoc.
  apply pte_bound; [done|]. apply (lor_bound perm 1 10); lia.
Qed.

Lemma map_pte_1 a pa perm va' w :
  a mod PGSIZE = 0 → 0 ≤ pa < 2 ^ 56 → 0 ≤ perm < 1024 →
  set_pte a (u64 (Z.lor (Z.lor (PA2PTE pa) perm) PTE_V)) va' w = map_pte a 1 pa perm va' w.
Proof.
  intros Ha Hpa Hp. unfold set_pte, map_pte.
  rewrite u64_small by (pose proof (pte_perm_bound pa perm); lia).
  destruct (Z.eqb_spec (va' / PGSIZE) (a / PGSIZE)) as [E|E].
  - rewrite E, Z.sub_diag, Z.mul_0_l, Z.add_0_r. done.
  - destruct (Z.leb_spec 0 (va' / PGSIZE - a / PGSIZE)),
      (Z.ltb_spec (va' / PGSIZE - a / PGSIZE) 1); simpl; done || lia.
Qed.

Lemma map_pte_S a n pa perm va' w :
  a mod PGSIZE = 0 → 0 ≤ n →
  map_pte (a + PGSIZE) n (pa + PGSIZE) perm va' (map_pte a 1 pa perm va' w) =
  map_pte a (n + 1) pa perm va' w.
Proof.
  intros Ha Hn. unfold map_pte.
  replace ((a + PGSIZE) / PGSIZE) with (a / PGSIZE + 1) by (unfold PGSIZE; lia).
  set (i := va' / PGSIZE - a / PGSIZE).
  replace (va' / PGSIZE - (a / PGSIZE + 1)) with (i - 1) by lia.
  replace (pa + PGSIZE + (i - 1) * PGSIZE) with (pa + i * PGSIZE) by lia.
  destruct (Z.leb_spec 0 (i - 1)), (Z.ltb_spec (i - 1) n), (Z.leb_spec 0 i), (Z.ltb_spec i 1),
    (Z.ltb_spec i (n + 1)); simpl; done || lia.
Qed.

(** At most two page-table pages for each of the 2 MB regions the [n] pages from [a] on
    lie in. *)
Definition regions (a n : Z) : Z := (a / PGSIZE + n - 1) / 512 - a / PGSIZE / 512 + 1.

Lemma regions_1 a : regions a 1 = 1.
Proof. unfold regions. replace (a / PGSIZE + 1 - 1) with (a / PGSIZE) by lia. lia. Qed.

Lemma missing_bound m root va : 0 ≤ missing m root va ≤ 2.
Proof. unfold missing. destruct (slot m root va); lia. Qed.

(** The next page needs no table of its own, unless it starts a region. *)
Lemma regions_next m m' root a n :
  0 ≤ a → a mod PGSIZE = 0 → 0 < n → slot m' root a ≠ None →
  missing m root a + (2 * regions (a + PGSIZE) n - 2 + missing m' root (a + PGSIZE)) ≤ 2 * regions a (n + 1) - 2 + missing m root a.
Proof.
  intros Ha Hm Hn Hs. unfold regions. replace ((a + PGSIZE) / PGSIZE) with (a / PGSIZE + 1) by (unfold PGSIZE; lia).
  replace (a / PGSIZE + 1 + n - 1) with (a / PGSIZE + (n + 1) - 1) by lia. set (p := a / PGSIZE).
  pose proof (missing_bound m' root (a + PGSIZE)).
  destruct (decide ((p + 1) / 512 = p / 512)) as [E|E]; [|assert ((p + 1) / 512 = p / 512 + 1) by (clearbody p; lia); lia]. rewrite E.
  replace (missing m' root (a + PGSIZE)) with 0; [lia|]. unfold missing.
  assert (En : idx (a + PGSIZE) = idx a).
  { unfold idx. rewrite !PX_spec by lia. change (2 ^ (12 + 9 * 2)) with (4096 * 512 * 512). change (2 ^ (12 + 9 * 1)) with (4096 * 512).
    rewrite <- !Z.div_div by lia. unfold p, PGSIZE in E, Hm |- *. replace ((a + 4096) / 4096) with (a / 4096 + 1) by lia. by rewrite E. }
  unfold slot in *. rewrite En. by destruct (node m' root (idx a)).
Qed.

(** The result of mapping [n] pages: all of them, or a prefix when memory ran
    out. *)
Definition mappages_post (s : kstate) (l : list Z) (root a n pa perm r : Z) (s' : kstate) : Prop :=
  ∃ l', kinv s' l' ∧
    ((r = 0 ∧ pt_upd (map_pte a n pa perm) s s' root ∧
      Z.of_nat (length l) ≤ Z.of_nat (length l') + (2 * regions a n - 2 + missing (mem s) root a)) ∨
     (r = -1 ∧ l' = [] ∧ Z.of_nat (length l) < 2 * regions a n - 2 + missing (mem s) root a ∧
      ∃ k, 0 ≤ k < n ∧ pt_upd (map_pte a k pa perm) s s' root)).

Lemma mappages_loop_wp fuel n s l root a last pa perm :
  kinv s l → pt_wf s root → 0 ≤ a → a mod PGSIZE = 0 → last = a + Z.of_nat n * PGSIZE →
  last < MAXVA → (n < fuel)%nat → 0 ≤ perm < 1024 → 0 ≤ pa →
  pa + (Z.of_nat n + 1) * PGSIZE ≤ 2 ^ 56 →
  (∀ i, 0 ≤ i ≤ Z.of_nat n → Z.testbit (pte_of (mem s) root (a + i * PGSIZE)) 0 = false) →
  wp (mappages_loop fuel root a last pa perm) s
    (mappages_post s l root a (Z.of_nat n + 1) pa perm).
Proof.
  revert n s l a pa. induction fuel as [|f IH];
    intros n s l a pa Hk Hw Ha Hal -> Hlast Hf Hperm Hpa Hpa2 Hfree; [lia|].
  cbn [mappages_loop]. apply wp_bind.
  assert (Hva : 0 ≤ a < MAXVA) by (unfold PGSIZE in *; lia).
  eapply wp_mono; [apply (walk_alloc_wp s l); done|]. intros r s1 (l1 & Hk1 & Hg1 & Hr).
  destruct Hr as [(-> & -> & Hc)|[Hs Hc]].
  { simpl. apply wp_ret. exists []. split; [done|]. right. split; [done|]. split; [done|].
    split; [unfold regions, PGSIZE in *; lia|]. exists 0. split; [lia|]. eapply pt_upd_ext; [|apply Hg1]. intros va' w _. unfold map_pte.
    destruct (Z.leb_spec 0 (va' / PGSIZE - a / PGSIZE)),
      (Z.ltb_spec (va' / PGSIZE - a / PGSIZE) 0); simpl; done || lia. }
  pose proof (pu_wf _ _ _ _ Hg1) as Hw1. pose proof (slot_pos _ _ _ _ Hw1 Hs) as Hr0.
  rewrite (proj2 (Z.eqb_neq r 0)) by lia. apply wp_bind, wp_gets. rewrite land_V.
  assert (Hp1 : load64 (mem s1) r = pte_of (mem s) root a).
  { rewrite <- (pu_pte _ _ _ _ Hg1) by done. unfold pte_of. by rewrite Hs. }
  specialize (Hfree 0 ltac:(lia)) as Hf0. rewrite Z.mul_0_l, Z.add_0_r in Hf0.
  rewrite Hp1, Hf0. apply wp_bind, wp_modify.
  set (v := Z.lor (Z.lor (PA2PTE pa) perm) PTE_V).
  set (s2 := set_mem (λ m, store64 m r v) s1).
  assert (Hu : pt_upd (map_pte a 1 pa perm) s s2 root).
  { eapply pt_upd_ext; [|by apply (walk_store s s1 root a r v)]. intros va' w _.
    apply map_pte_1; done || (unfold PGSIZE in *; lia). }
  assert (Hk2 : kinv s2 l1) by (by apply (kinv_store s1 l1 root a)).
  destruct n as [|n].
  - rewrite (proj2 (Z.eqb_eq _ _)) by lia. apply wp_ret. exists l1. split; [done|]. left. split_and!; [done | done |]. change (Z.of_nat 0 + 1) with 1. rewrite regions_1. lia.
  - assert (Hs2 : slot (mem s2) root a ≠ None).
    { pose proof (store_leaf s1 root a r v Hw1 Hva Hs) as U2. fold s2 in U2. apply slot_inv in Hs as (t & Et & _). unfold slot.
      by rewrite (pu_node _ _ _ _ U2 _ _ (vpath_idx a) Et). }
    pose proof (regions_next (mem s) (mem s2) root a (Z.of_nat n + 1) Ha Hal ltac:(lia) Hs2) as Hreg.
    replace (Z.of_nat n + 1 + 1) with (Z.of_nat (S n) + 1) in Hreg by lia.
    rewrite (proj2 (Z.eqb_neq _ _)) by (unfold PGSIZE; lia).
    change MAXVA with 274877906944 in *.
    rewrite (u64_small (a + PGSIZE)), (u64_small (pa + PGSIZE)) by (unfold PGSIZE in *; lia).
    eapply wp_mono; [apply (IH n s2 l1 (a + PGSIZE) (pa + PGSIZE))|]; try done;
      try (unfold PGSIZE in *; lia).
    + apply (pu_wf _ _ _ _ Hu).
    + intros i Hi. rewrite (pu_pte _ _ _ _ Hu)
        by (change MAXVA with 274877906944; unfold PGSIZE in *; lia).
      unfold map_pte. rewrite (proj2 (Z.ltb_ge _ 1)), andb_false_r by (unfold PGSIZE in *; lia).
      replace (a + PGSIZE + i * PGSIZE) with (a + (i + 1) * PGSIZE) by lia. apply Hfree. lia.
    + intros r' s' (l' & Hk' & Hr'). exists l'. split; [done|].
      destruct Hr' as [(-> & Hu' & Hc')|(-> & -> & Hc' & k & Hkn & Hu')].
      * left. split; [done|]. split; [|lia]. eapply pt_upd_ext; [|by eapply pt_upd_trans].
        intros va' w _. cbn beta. rewrite map_pte_S by (done || lia). f_equal. lia.
      * right. split; [done|]. split; [done|]. split; [lia|]. exists (k + 1). split; [lia|].
        eapply pt_upd_ext; [|by eapply pt_upd_trans].
        intros va' w _. cbn beta. by rewrite map_pte_S by (done || lia).
Qed.

(** Mapping whole pages. *)
Lemma mappages_wp s l root va n pa perm :
  kinv s l → pt_wf s root → 0 ≤ va → va mod PGSIZE = 0 → 0 < n → va + n * PGSIZE ≤ MAXVA →
  0 ≤ perm < 1024 → 0 ≤ pa → pa + n * PGSIZE ≤ 2 ^ 56 →
  (∀ i, 0 ≤ i < n → Z.testbit (pte_of (mem s) root (va + i * PGSIZE)) 0 = false) →
  wp (mappages root va (n * PGSIZE) pa perm) s (mappages_post s l root va n pa perm).
Proof.
  intros Hk Hw Hva Hal Hn Hend Hperm Hpa Hpa2 Hfree. unfold mappages.
  rewrite (proj2 (Z.eqb_neq _ _)) by (unfold PGSIZE; lia).
  rewrite (PGROUNDDOWN_id va) by done. change MAXVA with 274877906944 in *.
  rewrite u64_small by (unfold PGSIZE in *; lia).
  replace (PGROUNDDOWN (va + n * PGSIZE - 1)) with (va + (n - 1) * PGSIZE)
    by (rewrite PGROUNDDOWN_spec; unfold PGSIZE in *; lia).
  replace n with (Z.of_nat (Z.to_nat (n - 1)) + 1) at 3 by lia.
  apply (mappages_loop_wp _ (Z.to_nat (n - 1)) s l); try done;
    try (change MAXVA with 274877906944; unfold PGSIZE in *; lia).
  - unfold mappages_fuel. rewrite (proj2 (Z.ltb_ge _ _)) by (unfold PGSIZE; lia).
    unfold PGSIZE. lia.
  - intros i Hi. apply Hfree. lia.
Qed.

(** ** New trees *)

(** A cleared page is a tree with no translation. *)
Lemma empty_tree s root :
  valid_page root → rc s root = 1 →
  (∀ b, root ≤ b < root + PGSIZE → mem s b = 0) →
  pt_wf s root ∧ (∀ va, pte_of (mem s) root va = 0) ∧ (∀ x, pt_node s root x → x = root).
Proof.
  intros Hv Hr Hz.
  assert (Hnone : ∀ j, 0 ≤ j < 512 → next_table (mem s) root j = None).
  { intros j Hj. unfold next_table. rewrite (load64_ext _ (λ _, 0)); [done|].
    intros b Hb. apply Hz. unfold PGSIZE. lia. }
  assert (Hn : ∀ p x, vpath p → node (mem s) root p = Some x → p = [] ∧ x = root).
  { intros [|j p] x [Hl Hf] E; simpl in E; [by injection E as <-|].
    rewrite Forall_cons in Hf. by rewrite Hnone in E by apply Hf. }
  split; [split|split].
  - intros p x Hp E. by destruct (Hn p x Hp E) as [_ ->].
  - intros p q x Hp Hq E E'. destruct (Hn p x Hp E) as [-> _]. by destruct (Hn q x Hq E') as [-> _].
  - intros p x i Hp _ E Hi Hnx. destruct (Hn p x Hp E) as [_ ->]. by rewrite Hnone in Hnx.
  - intros j Hj. apply Hnone. lia.
  - intros va. unfold pte_of, slot, idx. simpl. rewrite Hnone; [done|]. apply PX_bound. lia.
  - intros x (p & Hp & E). by destruct (Hn p x Hp E).
Qed.

Lemma uvmcreate_wp s l :
  kinv s l →
  wp uvmcreate s (λ root s',
    (root = 0 ∧ l = [] ∧ s' = s) ∨
    (∃ l', l = root :: l' ∧ kinv s' l' ∧ pt_wf s' root ∧
      (∀ va, pte_of (mem s') root va = 0) ∧ (∀ x, pt_node s' root x → x = root) ∧
      (∀ x, valid_page x → x ≠ root → rc s' x = rc s x ∧ same_page (mem s) (mem s') x))).
Proof.
  intros Hk. unfold uvmcreate. apply wp_bind. eapply wp_mono; [by apply kalloc_wp|].
  intros root s1 Hp. destruct l as [|root' l].
  { destruct Hp as [-> ->]. left. done. }
  destruct Hp as (<- & Hk1 & Hr & Hro & Hm).
  assert (Hv : valid_page root) by (apply (ki_valid _ _ _ Hk); by left).
  destruct (valid_page_bounds root Hv) as [Hb Hal].
  rewrite (proj2 (Z.eqb_neq _ _)) by lia. apply wp_bind, wp_modify, wp_ret. right. exists l.
  set (s2 := set_mem (mset root 0 PGSIZE) s1).
  assert (Hsame : ∀ x, valid_page x → x ≠ root → same_page (mem s) (mem s2) x).
  { intros x [Hx _] Hne b Hbx. simpl. rewrite Hm.
    rewrite !mset_out; [done|..]; eapply page_disjoint; eauto. }
  split; [done|]. split.
  { apply kinv_mem; [done|]. intros x Hx. apply same_page_mset; [done | apply (ki_valid _ _ _ Hk1 x Hx)|].
    intros ->. rewrite (ki_free _ _ _ Hk1 x Hx) in Hr. lia. }
  destruct (empty_tree s2 root) as (H1 & H2 & H3); [done | done | |].
  { intros b Hbb. simpl. by rewrite mset_in. }
  split; [done|]. split; [done|]. split; [done|]. intros x Hx Hne. split; [|auto].
  change (rc s2 x) with (rc s1 x). auto.
Qed.

(** ** States that agree on a tree *)

Lemma pt_node_same s s' root x :
  (∀ p, vpath p → node (mem s') root p = node (mem s) root p) →
  pt_node s' root x ↔ pt_node s root x.
Proof.
  intros Hn. split; intros (p & Hp & E); exists p; (split; [done|]);
    [rewrite <- Hn | rewrite Hn]; done.
Qed.

Lemma slot_some s root va :
  Z.testbit (pte_of (mem s) root va) 0 = true →
  ∃ a, slot (mem s) root va = Some a ∧ load64 (mem s) a = pte_of (mem s) root va.
Proof.
  unfold pte_of. destruct (slot (mem s) root va) as [a|] eqn:E; [eauto | done].
Qed.

End PageTable.
