(* ===== verification/Uvm.v ===== *)
(** * User address spaces: unmapping, growing, sharing and copying (kernel/vm.c)

    The correctness of the operations of [Vm] that work on the pages of a
    process: [uvmunmap], [uvmdealloc], [uvmalloc], the copy-on-write [uvmcopy],
    and the transfers [copyout] and [copyin].  All statements are about the
    translation [pte_of] of a well formed tree, the reference counts [rc] and
    the contents of pages. *)

From stdpp Require Import base numbers list.
From S2P Require Import Prelude Str Layout Kalloc Vm PageTable.
Local Open Scope Z_scope.

Section Uvm.
Context {L : Linker} {LOk : LinkerOk L}.

(** ** [uvmunmap] *)

(** The number of entries among [ws] that map the page [x]. *)
Fixpoint cnt (ws : list Z) (x : Z) : Z :=
  match ws with
  | [] => 0
  | w :: ws' => (if PTE2PA w =? x then 1 else 0) + cnt ws' x
  end.

Lemma cnt_nonneg ws x : 0 ≤ cnt ws x.
Proof. induction ws as [|w ws IH]; simpl; [lia|]. destruct (PTE2PA w =? x); lia. Qed.

Lemma cnt_app ws ws' x : cnt (ws ++ ws') x = cnt ws x + cnt ws' x.
Proof. induction ws as [|w ws IH]; simpl; [done|]. rewrite IH. lia. Qed.

(** A page that no entry maps is not counted. *)
Lemma cnt_none (P : Z → Prop) ws x : Forall (λ w, ¬ P (PTE2PA w)) ws → P x → cnt ws x = 0.
Proof.
  intros Hf Hx. induction Hf as [|w ws Hw Hf IH]; simpl; [done|].
  rewrite IH. by destruct (Z.eqb_spec (PTE2PA w) x) as [<-|].
Qed.

(** An entry that maps a user page: valid, not a pointer to a table. *)
Definition leaf_pte (w : Z) : Prop := Z.testbit w 0 = true ∧ PTE_FLAGS w ≠ PTE_V.

(** The page of a user entry: managed, and not a page-table page of [root]. *)
Definition user_page (s : kstate) (root w : Z) : Prop :=
  valid_page (PTE2PA w) ∧ ¬ pt_node s root (PTE2PA w).

(** The entries of the [length ws] pages from [a] on are [ws]. *)
Definition maps (s : kstate) (root a : Z) (ws : list Z) : Prop :=
  ∀ i w, ws !! i = Some w → pte_of (mem s) root (a + Z.of_nat i * PGSIZE) = w.

(** The page of [va] is one of the [n] pages from [a] on. *)
Definition in_pages (a n va : Z) : bool :=
  (0 <=? va / PGSIZE - a / PGSIZE) && (va / PGSIZE - a / PGSIZE <? n).

(** The state after the pages from [a] on have been unmapped. *)
Record unmapped (s s' : kstate) (root a : Z) (ws : list Z) (do_free : bool) : Prop := Unmapped {
  un_wf : pt_wf s' root;
  un_node : ∀ x, pt_node s' root x ↔ pt_node s root x;
  un_pte : ∀ va, 0 ≤ va < MAXVA →
    pte_of (mem s') root va =
    if in_pages a (Z.of_nat (length ws)) va then 0 else pte_of (mem s) root va;
  un_rc : ∀ x, valid_page x → rc s' x = rc s x - (if do_free then cnt ws x else 0);
  un_frame : ∀ x, valid_page x → 0 < rc s' x → ¬ pt_node s root x →
    same_page (mem s) (mem s') x;
}.

Lemma unmapped_nil s root a df : pt_wf s root → unmapped s s root a [] df.
Proof.
  intros Hw. split; [done|done| | |].
  - intros va _. unfold in_pages. simpl length.
    destruct (0 <=? va / PGSIZE - a / PGSIZE) eqn:E1, (va / PGSIZE - a / PGSIZE <? Z.of_nat 0) eqn:E2;
      simpl; try done. bool_cases. lia.
  - intros x _. destruct df; simpl; lia.
  - by intros x _ _ _ b _.
Qed.

(** Dropping one reference to a user page does not disturb the tree. *)
Lemma kfree_user_wp s l root w :
  kinv s l → pt_wf s root → user_page s root w → 0 < rc s (PTE2PA w) →
  wp (kfree (PTE2PA w)) s (λ _ s', (∃ l', kinv s' l') ∧ pt_wf s' root ∧
    (∀ p, vpath p → node (mem s') root p = node (mem s) root p) ∧
    (∀ va, pte_of (mem s') root va = pte_of (mem s) root va) ∧
    (∀ x, valid_page x → rc s' x = rc s x - (if PTE2PA w =? x then 1 else 0)) ∧
    (∀ x, valid_page x → 0 < rc s' x → same_page (mem s) (mem s') x)).
Proof.
  intros Hk Hw [Hv Hn] Hr. eapply wp_mono; [by apply (kfree_wp s l)|].
  intros _ s' (Hr1 & Hro & Hm & Hk'). set (pa := PTE2PA w) in *.
  assert (Hrc : ∀ x, valid_page x → rc s' x = rc s x - (if pa =? x then 1 else 0)).
  { intros x Hx. destruct (Z.eqb_spec pa x) as [<-|]; [done|]. rewrite Hro by done. lia. }
  assert (Hf : ∀ x, valid_page x → 0 < rc s' x ∨ x ≠ pa → same_page (mem s) (mem s') x).
  { intros x Hx Hd b Hb. destruct (decide (x = pa)) as [->|Hne].
    - destruct Hd as [Hd|]; [|done]. rewrite Hr1 in Hd.
      rewrite (proj2 (Z.eqb_neq (rc s pa) 1)) in Hk' by lia. by destruct Hk' as [_ ->].
    - apply Hm. eapply page_disjoint; [apply Hv | apply Hx | congruence | done]. }
  split. { destruct (rc s pa =? 1); [eauto | destruct Hk'; eauto]. }
  destruct (pt_same s s' root Hw) as (H1 & H2 & H3).
  { intros x Hx. assert (x ≠ pa) by (intros ->; done).
    pose proof Hx as (p & Hp & E). destruct (pw_page _ _ Hw p x Hp E) as [Hvx Hrx].
    split; [auto|]. by apply Hro. }
  split; [done|]. split; [done|]. split; [done|]. split; [done|]. auto.
Qed.

(** Entries after the first page, once that page has been unmapped. *)
Lemma in_pages_S a n va :
  in_pages a (Z.of_nat (S n)) va = in_pages a 1 va || in_pages (a + PGSIZE) (Z.of_nat n) va.
Proof.
  unfold in_pages. assert ((a + PGSIZE) / PGSIZE = a / PGSIZE + 1) as -> by (unfold PGSIZE; lia).
  apply eq_bool_prop_intro. rewrite orb_True, !andb_True, !Is_true_true, !Z.leb_le, !Z.ltb_lt. lia.
Qed.

Lemma in_pages_1 a i :
  in_pages a 1 (a + i * PGSIZE) = (i =? 0).
Proof.
  unfold in_pages. assert ((a + i * PGSIZE) / PGSIZE - a / PGSIZE = i) as -> by (unfold PGSIZE; lia).
  apply eq_bool_prop_intro. rewrite andb_True, !Is_true_true, Z.leb_le, Z.ltb_lt, Z.eqb_eq. lia.
Qed.

Lemma unmapped_trans s s1 s2 root a w ws df :
  unmapped s s1 root a [w] df → unmapped s1 s2 root (a + PGSIZE) ws df →
  unmapped s s2 root a (w :: ws) df.
Proof.
  intros U1 U2. split.
  - apply (un_wf _ _ _ _ _ _ U2).
  - intros x. by rewrite (un_node _ _ _ _ _ _ U2), (un_node _ _ _ _ _ _ U1).
  - intros va Hva. rewrite (un_pte _ _ _ _ _ _ U2), (un_pte _ _ _ _ _ _ U1) by done.
    simpl length. rewrite (in_pages_S a (length ws)). change (Z.of_nat 1) with 1.
    destruct (in_pages a 1 va), (in_pages (a + PGSIZE) (Z.of_nat (length ws)) va); done.
  - intros x Hx. rewrite (un_rc _ _ _ _ _ _ U2), (un_rc _ _ _ _ _ _ U1) by done.
    destruct df; simpl; lia.
  - intros x Hx Hr Hn b Hb. assert (0 < rc s1 x).
    { rewrite (un_rc _ _ _ _ _ _ U2) in Hr by done. pose proof (cnt_nonneg ws x). destruct df; lia. }
    rewrite (un_frame _ _ _ _ _ _ U2 x Hx Hr); [|by rewrite (un_node _ _ _ _ _ _ U1)|done].
    by apply (un_frame _ _ _ _ _ _ U1 x).
Qed.

(** What [uvmunmap] needs of the pages it frees: each is a user page, and each
    holds as many references as it is mapped times. *)
Definition freeable (s : kstate) (root : Z) (ws : list Z) : Prop :=
  Forall (user_page s root) ws ∧ ∀ x, valid_page x → cnt ws x ≤ rc s x.

Lemma store_zero_unmaps s s1 l root va a w (df : bool) :
  kinv s1 l → pt_wf s1 root → 0 ≤ va < MAXVA →
  (∀ x, pt_node s1 root x ↔ pt_node s root x) →
  (∀ va, pte_of (mem s1) root va = pte_of (mem s) root va) →
  (∀ x, valid_page x → rc s1 x = rc s x - (if df then cnt [w] x else 0)) →
  (∀ x, valid_page x → 0 < rc s1 x → same_page (mem s) (mem s1) x) →
  slot (mem s1) root va = Some a →
  let s2 := set_mem (λ m, store64 m a 0) s1 in kinv s2 l ∧ unmapped s s2 root va [w] df.
Proof.
  intros Hk Hw Hva Hn Hp Hr Hf Hs s2.
  pose proof (store_leaf s1 root va a 0 Hw Hva Hs) as U. fold s2 in U.
  split; [by apply (kinv_store s1 l root va)|]. split.
  - apply (pu_wf _ _ _ _ U).
  - intros x. rewrite <- Hn. split.
    + intros Hx. destruct (pu_new _ _ _ _ U x Hx) as [|Hx']; [done|].
      destruct Hx as (p & Hp' & E). destruct (pw_page _ _ (pu_wf _ _ _ _ U) p x Hp' E) as [_ Hrx].
      change (rc s2 x) with (rc s1 x) in Hrx. lia.
    + intros (p & Hp' & E). exists p. split; [done|]. by apply (pu_node _ _ _ _ U).
  - intros va' Hva'. rewrite (pu_pte _ _ _ _ U) by done. unfold set_pte, in_pages. rewrite Hp.
    change (u64 0) with 0. simpl length.
    destruct (Z.eqb_spec (va' / PGSIZE) (va / PGSIZE)) as [->|].
    + by rewrite Z.sub_diag.
    + destruct (0 <=? va' / PGSIZE - va / PGSIZE) eqn:E1, (va' / PGSIZE - va / PGSIZE <? Z.of_nat 1) eqn:E2;
        simpl; try done. bool_cases. lia.
  - intros x Hx. change (rc s2 x) with (rc s1 x). auto.
  - intros x Hx Hrx Hnx b Hb. change (rc s2 x) with (rc s1 x) in Hrx.
    rewrite (pu_frame _ _ _ _ U x Hx Hrx); [by apply (Hf x) | by rewrite Hn | done].
Qed.

Lemma unmap_one_wp s l root va a w (df : bool) :
  kinv s l → pt_wf s root → 0 ≤ va < MAXVA → slot (mem s) root va = Some a →
  (df = true → user_page s root w ∧ 0 < rc s (PTE2PA w)) →
  wp (when df (kfree (PTE2PA w));; storeM a 0) s (λ _ s',
    (∃ l', kinv s' l') ∧ unmapped s s' root va [w] df).
Proof.
  intros Hk Hw Hva Hs Hd. apply wp_bind. destruct df; simpl when.
  - destruct Hd as [Hu Hr]; [done|].
    eapply wp_mono; [by apply (kfree_user_wp s l root w)|].
    intros _ s1 ((l1 & Hk1) & Hw1 & Hn1 & Hp1 & Hr1 & Hf1). apply wp_modify.
    destruct (store_zero_unmaps s s1 l1 root va a w true) as [? ?]; auto; [..|eauto].
    + intros x. by apply pt_node_same.
    + intros x Hx. rewrite Hr1 by done. simpl. lia.
    + unfold slot. rewrite Hn1 by apply vpath_idx. done.
  - apply wp_ret, wp_modify.
    destruct (store_zero_unmaps s s l root va a w false) as [? ?]; auto; [..|eauto].
    + intros x _. lia.
    + by intros x _ _ b _.
Qed.

Lemma uvmunmap_loop_wp fuel s l root a ws df :
  kinv s l → pt_wf s root → 0 ≤ a → a mod PGSIZE = 0 →
  a + Z.of_nat (length ws) * PGSIZE ≤ MAXVA → (length ws ≤ fuel)%nat →
  maps s root a ws → Forall leaf_pte ws → (df = true → freeable s root ws) →
  wp (uvmunmap_loop fuel root a (a + Z.of_nat (length ws) * PGSIZE) df) s (λ _ s',
    (∃ l', kinv s' l') ∧ unmapped s s' root a ws df).
Proof.
  revert fuel s l a. induction ws as [|w ws IH]; intros fuel s l a Hk Hw Ha Hal Hmax Hfuel Hm Hl Hd.
  { simpl length. destruct fuel; simpl; rewrite Z.add_0_r, Z.ltb_irrefl; apply wp_ret;
      (split; [eauto | by apply unmapped_nil]). }
  simpl length in *. destruct fuel as [|fuel]; [lia|]. cbn [uvmunmap_loop].
  assert (HS : 0 < PGSIZE) by done.
  rewrite (proj2 (Z.ltb_lt _ _)) by lia.
  apply Forall_cons in Hl as [[Hv Hlf] Hl].
  assert (E0 : pte_of (mem s) root a = w) by (specialize (Hm 0%nat w eq_refl); by rewrite Z.add_0_r in Hm).
  destruct (slot_some s root a) as (p & Hp & Hload); [by rewrite E0|].
  apply wp_bind. eapply wp_mono; [apply walk_lookup_wp; lia|]. intros r s1 [-> ->]. rewrite Hp. simpl default.
  rewrite (proj2 (Z.eqb_neq p 0)) by (pose proof (slot_pos s root a p Hw Hp); lia).
  apply wp_bind, wp_gets. rewrite Hload, E0, land_V0, Hv. simpl negb.
  rewrite (proj2 (Z.eqb_neq (PTE_FLAGS w) PTE_V)) by done.
  assert (Hd1 : df = true → user_page s root w ∧ 0 < rc s (PTE2PA w)).
  { intros E. destruct (Hd E) as [Hu Hc]. apply Forall_cons in Hu as [Hu _]. split; [done|].
    specialize (Hc _ (proj1 Hu)). simpl in Hc. rewrite Z.eqb_refl in Hc.
    pose proof (cnt_nonneg ws (PTE2PA w)). lia. }
  pose proof (unmap_one_wp s l root a p w df Hk Hw ltac:(lia) Hp Hd1) as Hone.
  apply wp_assoc, wp_bind. eapply wp_mono; [exact Hone|]. intros _ s2 [[l2 Hk2] U2].
  rewrite u64_small by (pose proof MAXVA_lt; lia).
  replace (a + Z.of_nat (S (length ws)) * PGSIZE) with (a + PGSIZE + Z.of_nat (length ws) * PGSIZE) by lia.
  eapply wp_mono; [apply (IH fuel s2 l2 (a + PGSIZE)); [done | apply (un_wf _ _ _ _ _ _ U2) | lia | | lia | lia | | done |]|].
  - unfold PGSIZE in *. lia.
  - intros i w' Hi. pose proof (lookup_lt_Some _ _ _ Hi) as Hlen. specialize (Hm (S i) w' Hi).
    replace (a + PGSIZE + Z.of_nat i * PGSIZE) with (a + Z.of_nat (S i) * PGSIZE) by lia.
    rewrite (un_pte _ _ _ _ _ _ U2) by nia. change (Z.of_nat (length [w])) with 1. rewrite (in_pages_1 a (Z.of_nat (S i))).
    by rewrite (proj2 (Z.eqb_neq _ _)) by lia.
  - intros E. destruct (Hd E) as [Hu Hc]. apply Forall_cons in Hu as [_ Hu]. split.
    + eapply Forall_impl; [exact Hu|]. intros w' [H1 H2]. split; [done|].
      by rewrite (un_node _ _ _ _ _ _ U2).
    + intros x Hx. rewrite (un_rc _ _ _ _ _ _ U2), E by done. specialize (Hc x Hx). simpl in *. lia.
  - intros _ s3 [Hk3 U3]. split; [done|]. by apply (unmapped_trans s s2).
Qed.

Lemma uvmunmap_wp s l root a ws df :
  kinv s l → pt_wf s root → 0 ≤ a → a mod PGSIZE = 0 →
  a + Z.of_nat (length ws) * PGSIZE ≤ MAXVA →
  maps s root a ws → Forall leaf_pte ws → (df = true → freeable s root ws) →
  wp (uvmunmap root a (Z.of_nat (length ws)) df) s (λ _ s',
    (∃ l', kinv s' l') ∧ unmapped s s' root a ws df).
Proof.
  intros. unfold uvmunmap. rewrite (proj2 (nonzero_false _)) by done.
  rewrite Nat2Z.id, u64_small by (pose proof MAXVA_lt; unfold PGSIZE in *; lia).
  by apply (uvmunmap_loop_wp _ s l).
Qed.

(** ** [uvmcopy]: sharing an address space *)

(** The entry of a page once it is shared: not writable, marked copy-on-write. *)
Definition cow (w : Z) : Z := Z.lor (Z.land w (Z.lnot PTE_W)) PTE_COW.

(** The pages a fork shares: present entries (no reserved bits) of managed,
    referenced pages that are page-table pages of neither tree. *)
Definition sharable (s : kstate) (old new w : Z) : Prop :=
  Z.testbit w 0 = true ∧ w < 2 ^ 54 ∧
  user_page s old w ∧ user_page s new w ∧ 0 < rc s (PTE2PA w).

(** [ko] pages of the parent are marked, [km] pages are mapped in the child, and
    [kn] of them are counted. *)
Record cow_inv (s0 : kstate) (old new : Z) (ws : list Z) (ko km kn : nat) (s : kstate) : Prop := CowInv {
  ci_wfo : pt_wf s old;
  ci_wfn : pt_wf s new;
  ci_disj : pt_disj s old new;
  ci_nodeo : ∀ x, pt_node s old x ↔ pt_node s0 old x;
  ci_noden : ∀ x, pt_node s new x → pt_node s0 new x ∨ ¬ 0 < rc s0 x;
  ci_old : ∀ va, 0 ≤ va < MAXVA → pte_of (mem s) old va =
    if in_pages 0 (Z.of_nat ko) va then cow (pte_of (mem s0) old va) else pte_of (mem s0) old va;
  ci_new : ∀ va, 0 ≤ va < MAXVA → pte_of (mem s) new va =
    if in_pages 0 (Z.of_nat km) va then cow (pte_of (mem s0) old va) else pte_of (mem s0) new va;
  ci_rc : ∀ x, valid_page x → 0 < rc s0 x → rc s x = rc s0 x + cnt (take kn ws) x;
  ci_frame : ∀ x, valid_page x → 0 < rc s0 x → ¬ pt_node s0 old x → ¬ pt_node s0 new x →
    same_page (mem s0) (mem s) x;
  ci_leak : ∀ x, valid_page x → rc s0 x = 0 → rc s x = 0 ∨ (rc s x = 1 ∧ pt_node s new x);
}.

Lemma in_pages_0 va n : in_pages 0 n va = (0 <=? va / PGSIZE) && (va / PGSIZE <? n).
Proof. unfold in_pages. by rewrite Z.sub_0_r. Qed.

(** Adding the next page to a prefix of pages. *)
Lemma in_pages_next k va :
  0 ≤ va → in_pages 0 (Z.of_nat (S k)) va =
  (va / PGSIZE =? Z.of_nat k * PGSIZE / PGSIZE) || in_pages 0 (Z.of_nat k) va.
Proof.
  intros Hva. rewrite !in_pages_0, Z.div_mul by done.
  apply eq_bool_prop_intro. rewrite orb_True, !andb_True, !Is_true_true, !Z.leb_le, !Z.ltb_lt, Z.eqb_eq. lia.
Qed.

Lemma in_pages_self k : in_pages 0 (Z.of_nat k) (Z.of_nat k * PGSIZE) = false.
Proof.
  rewrite in_pages_0, Z.div_mul by done. apply andb_false_intro2, Z.ltb_ge. lia.
Qed.

Lemma cow_bound w n : 9 ≤ n → 0 ≤ w < 2 ^ n → 0 ≤ cow w < 2 ^ n.
Proof.
  intros Hn Hw. apply lor_bound; [lia | by apply land_bound; lia|].
  assert (2 ^ 9 ≤ 2 ^ n) by (apply Z.pow_le_mono_r; lia). change PTE_COW with 256. lia.
Qed.

Lemma cow_bit w k : 0 ≤ k →
  Z.testbit (cow w) k = (Z.testbit w k && negb (k =? 2)) || (k =? 8).
Proof.
  intros Hk. unfold cow. rewrite Z.lor_spec, Z.land_spec, Z.lnot_spec by done.
  change PTE_W with (2 ^ 2). change PTE_COW with (2 ^ 8).
  rewrite !Z.pow2_bits_eqb, (Z.eqb_sym 2), (Z.eqb_sym 8) by lia. done.
Qed.

Lemma cow_page w : PTE2PA (cow w) = PTE2PA w.
Proof.
  unfold PTE2PA, cow. rewrite Z.shiftr_lor, Z.shiftr_land.
  change (Z.shiftr (Z.lnot PTE_W) 10) with (-1). change (Z.shiftr PTE_COW 10) with 0.
  by rewrite Z.land_m1_r, Z.lor_0_r.
Qed.

Lemma cow_leaf w : Z.testbit w 0 = true → leaf_pte (cow w).
Proof.
  intros Hv. split; [by rewrite cow_bit, Hv by lia|]. intros E.
  apply (f_equal (λ z, Z.testbit z 8)) in E. unfold PTE_FLAGS in E.
  rewrite Z.land_spec, cow_bit in E by lia. simpl in E. by rewrite orb_true_r in E.
Qed.

Lemma slot_upd f s s' root va a :
  pt_upd f s s' root → slot (mem s) root va = Some a → slot (mem s') root va = Some a.
Proof.
  intros U (t & E & ->)%slot_inv. unfold slot. by rewrite (pu_node _ _ _ _ U _ t (vpath_idx va) E).
Qed.

Lemma pte_of_page m root va va' :
  va / PGSIZE = va' / PGSIZE → pte_of m root va = pte_of m root va'.
Proof.
  intros E. unfold pte_of, slot, idx.
  by rewrite (PX_ext 0 va va'), (PX_ext 1 va va'), (PX_ext 2 va va') by (done || lia).
Qed.

Lemma cnt_cow ws x : cnt (cow <$> ws) x = cnt ws x.
Proof.
  induction ws as [|w ws IH]; [done|]. rewrite fmap_cons. cbn [cnt]. by rewrite IH, cow_page.
Qed.

(** An update that allocates nothing adds no node. *)
Lemma upd_node_iff f s s' root x :
  pt_upd f s s' root → (∀ y, rc s' y = rc s y) → pt_node s' root x ↔ pt_node s root x.
Proof.
  intros U Hr. split.
  - intros Hx. destruct (pu_new _ _ _ _ U x Hx) as [|Hx']; [done|].
    destruct Hx as (p & Hp & E). destruct (pw_page _ _ (pu_wf _ _ _ _ U) p x Hp E) as [_ Hrx].
    rewrite Hr in Hrx. lia.
  - intros (p & Hp & E). exists p. split; [done|]. by apply (pu_node _ _ _ _ U).
Qed.

(** Rewriting an entry in two steps, as the code does. *)
Lemma store_twice s l root va a v1 v2 :
  kinv s l → pt_wf s root → 0 ≤ va < MAXVA → slot (mem s) root va = Some a →
  let s1 := set_mem (λ m, store64 m a v2) (set_mem (λ m, store64 m a v1) s) in
  kinv s1 l ∧ pt_upd (set_pte va (u64 v2)) s s1 root ∧ slot (mem s1) root va = Some a ∧
  (∀ x, rc s1 x = rc s x).
Proof.
  intros Hk Hw Hva Hs s1. set (sa := set_mem (λ m, store64 m a v1) s).
  pose proof (store_leaf s root va a v1 Hw Hva Hs) as Ua. fold sa in Ua.
  assert (Hsa : slot (mem sa) root va = Some a).
  { by apply (slot_upd _ _ _ _ _ _ Ua). }
  pose proof (store_leaf sa root va a v2 (pu_wf _ _ _ _ Ua) Hva Hsa) as Ub. fold s1 in Ub.
  split; [|split; [|split]].
  - apply (kinv_store sa l root va); [by apply (kinv_store s l root va) | apply (pu_wf _ _ _ _ Ua) | done].
  - eapply pt_upd_ext; [|exact (pt_upd_trans _ _ _ _ _ _ Ua Ub)]. intros va' w _. unfold set_pte.
    by destruct (va' / PGSIZE =? va / PGSIZE).
  - by apply (slot_upd _ _ _ _ _ _ Ub).
  - done.
Qed.

Lemma mem_set_mem f s : mem (set_mem f s) = f (mem s).
Proof. done. Qed.

Lemma land_bound_r a b n : 0 ≤ n → 0 ≤ b < 2 ^ n → 0 ≤ Z.land a b < 2 ^ n.
Proof. rewrite Z.land_comm. apply land_bound. Qed.

(** ** The steps of the loop of [uvmcopy] *)

Section Share.
Context (s0 : kstate) (old new : Z) (ws : list Z).
Context (Hmaps : maps s0 old 0 ws) (Hsh : Forall (sharable s0 old new) ws).
Context (Hlen : Z.of_nat (length ws) * PGSIZE ≤ MAXVA).
Context (Hcount : ∀ x, valid_page x → 0 < rc s0 x → rc s0 x + cnt ws x < 2 ^ 31).
Context (Hempty : ∀ i, (i < length ws)%nat → pte_of (mem s0) new (Z.of_nat i * PGSIZE) = 0).

Lemma page_lt k w : ws !! k = Some w → 0 ≤ Z.of_nat k * PGSIZE < MAXVA.
Proof. intros Hk%lookup_lt_Some. unfold PGSIZE in *. lia. Qed.

Lemma page_pte k w : ws !! k = Some w → pte_of (mem s0) old (Z.of_nat k * PGSIZE) = w.
Proof. intros Hk. by rewrite <- (Hmaps k w Hk), Z.add_0_l. Qed.

Lemma ci_pos ko km kn s x :
  cow_inv s0 old new ws ko km kn s → valid_page x → 0 < rc s0 x → 0 < rc s x.
Proof.
  intros I Hx Hr. rewrite (ci_rc _ _ _ _ _ _ _ _ I) by done. pose proof (cnt_nonneg (take kn ws) x). lia.
Qed.

Lemma ci_not_new ko km kn s x :
  cow_inv s0 old new ws ko km kn s → 0 < rc s0 x → ¬ pt_node s0 new x → ¬ pt_node s new x.
Proof. intros I Hr Hn Hx. by destruct (ci_noden _ _ _ _ _ _ _ _ I x Hx). Qed.

(** Marking the page [k] of the parent. *)
Lemma share_mark k s s1 w :
  cow_inv s0 old new ws k k k s → ws !! k = Some w →
  pt_upd (set_pte (Z.of_nat k * PGSIZE) (cow w)) s s1 old → (∀ x, rc s1 x = rc s x) →
  cow_inv s0 old new ws (S k) k k s1.
Proof.
  intros I Hk U Hr.
  destruct (pt_upd_other _ _ _ _ new U) as (Hwn & Hd & Hnn & Hpn);
    [apply (ci_wfn _ _ _ _ _ _ _ _ I) | intros x ? ?; by apply (ci_disj _ _ _ _ _ _ _ _ I x)|].
  split.
  - apply (pu_wf _ _ _ _ U).
  - done.
  - intros x ? ?. by apply (Hd x).
  - intros x. rewrite <- (ci_nodeo _ _ _ _ _ _ _ _ I). by apply (upd_node_iff _ _ _ _ _ U).
  - intros x Hx. apply (ci_noden _ _ _ _ _ _ _ _ I). by apply (pt_node_same s s1 new x).
  - intros va Hva. rewrite (pu_pte _ _ _ _ U), in_pages_next, (ci_old _ _ _ _ _ _ _ _ I) by lia.
    unfold set_pte. destruct (Z.eqb_spec (va / PGSIZE) (Z.of_nat k * PGSIZE / PGSIZE)) as [E|]; [|done].
    simpl. rewrite (pte_of_page _ old va (Z.of_nat k * PGSIZE)) by done.
    by rewrite (page_pte k w).
  - intros va Hva. rewrite Hpn. by apply (ci_new _ _ _ _ _ _ _ _ I).
  - intros x Hx H0. rewrite Hr. by apply (ci_rc _ _ _ _ _ _ _ _ I).
  - intros x Hx H0 Ho Hn b Hb.
    rewrite (pu_frame _ _ _ _ U x Hx); [by apply (ci_frame _ _ _ _ _ _ _ _ I x) | | | done].
    + by apply (ci_pos k k k s).
    + by rewrite (ci_nodeo _ _ _ _ _ _ _ _ I).
  - intros x Hx H0. rewrite Hr. rewrite (pt_node_same s s1 new x) by done.
    by apply (ci_leak _ _ _ _ _ _ _ _ I).
Qed.

(** The tree of the child changes: it grows, or maps one page more. *)
Lemma share_map f ko km km' kn s s1 :
  cow_inv s0 old new ws ko km kn s → pt_upd f s s1 new →
  (∀ va, 0 ≤ va < MAXVA →
    f va (if in_pages 0 (Z.of_nat km) va then cow (pte_of (mem s0) old va) else pte_of (mem s0) new va) =
    if in_pages 0 (Z.of_nat km') va then cow (pte_of (mem s0) old va) else pte_of (mem s0) new va) →
  cow_inv s0 old new ws ko km' kn s1.
Proof.
  intros I U Hf.
  destruct (pt_upd_other _ _ _ _ old U (ci_wfo _ _ _ _ _ _ _ _ I) (ci_disj _ _ _ _ _ _ _ _ I))
    as (Hwo & Hd & Hno & Hpo).
  assert (Hpos : ∀ x, valid_page x → 0 < rc s0 x → 0 < rc s x) by (intros; by eapply ci_pos).
  split; [done | apply (pu_wf _ _ _ _ U) | done | | | | | | |].
  - intros x. rewrite <- (ci_nodeo _ _ _ _ _ _ _ _ I). by apply pt_node_same.
  - intros x Hx. pose proof Hx as (p & Hp & E).
    destruct (pw_page _ _ (pu_wf _ _ _ _ U) p x Hp E) as [Hv _].
    destruct (pu_new _ _ _ _ U x Hx) as [Hx'|Hx']; [by apply (ci_noden _ _ _ _ _ _ _ _ I)|].
    right. intros H0. by apply Hx', Hpos.
  - intros va Hva. rewrite Hpo. by apply (ci_old _ _ _ _ _ _ _ _ I).
  - intros va Hva. rewrite (pu_pte _ _ _ _ U), (ci_new _ _ _ _ _ _ _ _ I) by done. auto.
  - intros x Hx H0. rewrite (pu_rc _ _ _ _ U) by auto. by apply (ci_rc _ _ _ _ _ _ _ _ I).
  - intros x Hx H0 Ho Hn b Hb.
    rewrite (pu_frame _ _ _ _ U x Hx); [by apply (ci_frame _ _ _ _ _ _ _ _ I x) | auto | | done].
    by eapply ci_not_new.
  - intros x Hx H0. destruct (ci_leak _ _ _ _ _ _ _ _ I x Hx H0) as [H1|[H1 (p & Hp & E)]].
    + by apply (pu_leak _ _ _ _ U).
    + right. split; [rewrite (pu_rc _ _ _ _ U); lia || done|].
      exists p. split; [done|]. by apply (pu_node _ _ _ _ U).
Qed.

(** Counting the reference of the child to the page [k]. *)
Lemma share_count k s s1 w :
  cow_inv s0 old new ws (S k) (S k) k s → ws !! k = Some w →
  mem s1 = mem s → rc s1 (PTE2PA w) = rc s (PTE2PA w) + 1 →
  (∀ x, valid_page x → x ≠ PTE2PA w → rc s1 x = rc s x) →
  cow_inv s0 old new ws (S k) (S k) (S k) s1.
Proof.
  intros I Hk Hm Hr1 Hro.
  destruct (proj1 (Forall_lookup _ _) Hsh k w Hk) as (_ & _ & [Hv Hno] & [_ Hnn] & Hpos).
  assert (Hn : ∀ r x, pt_node s1 r x ↔ pt_node s r x).
  { intros r x. apply pt_node_same. intros p _. by rewrite Hm. }
  assert (Hsame : ∀ r, pt_wf s r → ¬ pt_node s r (PTE2PA w) → pt_wf s1 r).
  { intros r Hw Hnw. apply (pt_same s s1 r Hw). intros x Hx. split; [by intros b _; rewrite Hm|].
    pose proof Hx as (p & Hp & E). apply Hro; [by apply (pw_page _ _ Hw p x Hp E)|]. by intros ->. }
  split.
  - apply Hsame; [apply (ci_wfo _ _ _ _ _ _ _ _ I)|]. by rewrite (ci_nodeo _ _ _ _ _ _ _ _ I).
  - apply Hsame; [apply (ci_wfn _ _ _ _ _ _ _ _ I)|]. by eapply ci_not_new.
  - intros x. rewrite !Hn. apply (ci_disj _ _ _ _ _ _ _ _ I x).
  - intros x. rewrite Hn. apply (ci_nodeo _ _ _ _ _ _ _ _ I).
  - intros x. rewrite Hn. apply (ci_noden _ _ _ _ _ _ _ _ I).
  - rewrite Hm. apply (ci_old _ _ _ _ _ _ _ _ I).
  - rewrite Hm. apply (ci_new _ _ _ _ _ _ _ _ I).
  - intros x Hx H0. rewrite (take_S_r _ _ _ Hk), cnt_app. simpl.
    pose proof (ci_rc _ _ _ _ _ _ _ _ I x Hx H0).
    destruct (Z.eqb_spec (PTE2PA w) x) as [<-|]; [lia|]. rewrite Hro by congruence. lia.
  - rewrite Hm. apply (ci_frame _ _ _ _ _ _ _ _ I).
  - intros x Hx H0. rewrite Hn, Hro; [by apply (ci_leak _ _ _ _ _ _ _ _ I) | done|].
    intros ->. lia.
Qed.
(** Only pages in use are counted. *)
Lemma cnt_used k x : rc s0 x ≤ 0 → cnt (take k ws) x = 0.
Proof.
  apply (cnt_none (λ x, rc s0 x ≤ 0)), Forall_take. eapply Forall_impl; [exact Hsh|].
  intros w (_ & _ & _ & _ & ?). simpl. lia.
Qed.

Lemma cnt_node k x : pt_node s0 old x → cnt (take k ws) x = 0.
Proof.
  apply (cnt_none (pt_node s0 old)), Forall_take. eapply Forall_impl; [exact Hsh|].
  by intros w (_ & _ & [_ ?] & _).
Qed.

(** The mappings of the child are what the error path of [uvmcopy] can unmap. *)
Lemma share_maps ko k kn s :
  cow_inv s0 old new ws ko k kn s → (k ≤ length ws)%nat → maps s new 0 (cow <$> take k ws).
Proof.
  intros I Hk i w Hi. apply list_lookup_fmap_Some in Hi as (w' & -> & Hw).
  apply lookup_take_Some in Hw as [Hw Hik]. rewrite Z.add_0_l.
  rewrite (ci_new _ _ _ _ _ _ _ _ I) by (by eapply page_lt). rewrite (page_pte i w') by done.
  rewrite in_pages_0, Z.div_mul by done.
  rewrite (proj2 (Z.leb_le _ _)), (proj2 (Z.ltb_lt _ _)) by lia. done.
Qed.

Lemma share_freeable ko km k s l :
  kinv s l → cow_inv s0 old new ws ko km k s → freeable s new (cow <$> take k ws).
Proof.
  intros Hk I. split.
  - rewrite Forall_fmap. apply Forall_take. eapply Forall_impl; [exact Hsh|].
    intros w (_ & _ & _ & [Hv Hn] & Hr). unfold user_page. simpl. rewrite cow_page.
    split; [done|]. by eapply ci_not_new.
  - intros x Hx. rewrite cnt_cow. destruct (Z.ltb_spec 0 (rc s0 x)).
    + rewrite (ci_rc _ _ _ _ _ _ _ _ I) by done. lia.
    + rewrite cnt_used by done. by apply (kinv_nonneg s l).
Qed.

(** Undoing the mappings of the child. *)
Lemma share_undo ko k s s1 l :
  kinv s l → cow_inv s0 old new ws ko k k s → (k ≤ length ws)%nat →
  unmapped s s1 new 0 (cow <$> take k ws) true → cow_inv s0 old new ws ko 0 0 s1.
Proof.
  intros Hki I Hk U.
  assert (Hr : ∀ x, valid_page x → rc s1 x = rc s x - cnt (take k ws) x).
  { intros x Hx. by rewrite (un_rc _ _ _ _ _ _ U), cnt_cow. }
  destruct (pt_same s s1 old (ci_wfo _ _ _ _ _ _ _ _ I)) as (Hwo & Hno & Hpo).
  { intros x Hx. pose proof Hx as (p & Hp & E).
    destruct (pw_page _ _ (ci_wfo _ _ _ _ _ _ _ _ I) p x Hp E) as [Hv Hrx].
    assert (rc s1 x = rc s x).
    { rewrite Hr, cnt_node by (done || by apply (ci_nodeo _ _ _ _ _ _ _ _ I)). lia. }
    split; [|done]. apply (un_frame _ _ _ _ _ _ U x Hv); [lia|].
    intros Hn. by apply (ci_disj _ _ _ _ _ _ _ _ I x). }
  split; [done | apply (un_wf _ _ _ _ _ _ U) | | | | | | | |].
  - intros x. rewrite (pt_node_same s s1 old) by done. rewrite (un_node _ _ _ _ _ _ U).
    apply (ci_disj _ _ _ _ _ _ _ _ I).
  - intros x. rewrite (pt_node_same s s1 old) by done. apply (ci_nodeo _ _ _ _ _ _ _ _ I).
  - intros x. rewrite (un_node _ _ _ _ _ _ U). apply (ci_noden _ _ _ _ _ _ _ _ I).
  - intros va Hva. rewrite Hpo. by apply (ci_old _ _ _ _ _ _ _ _ I).
  - intros va Hva. rewrite (un_pte _ _ _ _ _ _ U), (ci_new _ _ _ _ _ _ _ _ I) by done.
    rewrite length_fmap, length_take_le, !in_pages_0 by done. change (Z.of_nat 0) with 0.
    rewrite (proj2 (Z.ltb_ge (va / PGSIZE) 0)), andb_false_r by (unfold PGSIZE; lia).
    destruct (Z.leb_spec 0 (va / PGSIZE)), (Z.ltb_spec (va / PGSIZE) (Z.of_nat k)); try done. simpl.
    rewrite <- (Hempty (Z.to_nat (va / PGSIZE))) by lia. apply pte_of_page.
    rewrite Z2Nat.id, Z.div_mul by (done || lia). done.
  - intros x Hx H0. simpl. rewrite Hr, (ci_rc _ _ _ _ _ _ _ _ I) by done. lia.
  - intros x Hx H0 Ho Hn b Hb.
    rewrite (un_frame _ _ _ _ _ _ U x Hx); [by apply (ci_frame _ _ _ _ _ _ _ _ I x) | | | done].
    + rewrite Hr, (ci_rc _ _ _ _ _ _ _ _ I) by done. lia.
    + by eapply ci_not_new.
  - intros x Hx H0. rewrite (un_node _ _ _ _ _ _ U), Hr, cnt_used, Z.sub_0_r by lia || done.
    by apply (ci_leak _ _ _ _ _ _ _ _ I).
Qed.

(** The result of [uvmcopy]: all pages shared, or all mappings undone. *)
Definition uvmcopy_post (r : Z) (s : kstate) : Prop :=
  (∃ l, kinv s l) ∧
  ((r = 0 ∧ cow_inv s0 old new ws (length ws) (length ws) (length ws) s) ∨
   (r = -1 ∧ ∃ k, (k < length ws)%nat ∧ cow_inv s0 old new ws (S k) 0 0 s)).

Lemma cnt_take_lt k w :
  ws !! k = Some w → cnt (take k ws) (PTE2PA w) + 1 ≤ cnt ws (PTE2PA w).
Proof.
  intros Hk. rewrite <- (take_drop_middle ws k w Hk) at 2. rewrite cnt_app. simpl.
  rewrite Z.eqb_refl. pose proof (cnt_nonneg (drop (S k) ws) (PTE2PA w)). lia.
Qed.

(** The entry [mappages] writes for the child. *)
Lemma map_pte_cow k w va :
  ws !! k = Some w → 0 ≤ va < MAXVA →
  map_pte (Z.of_nat k * PGSIZE) 1 (PTE2PA w) (PTE_FLAGS (cow w)) va
    (if in_pages 0 (Z.of_nat k) va then cow (pte_of (mem s0) old va) else pte_of (mem s0) new va) =
  if in_pages 0 (Z.of_nat (S k)) va then cow (pte_of (mem s0) old va) else pte_of (mem s0) new va.
Proof.
  intros Hk Hva. destruct (proj1 (Forall_lookup _ _) Hsh k w Hk) as (Hv & Hw & _).
  rewrite in_pages_next by lia. unfold map_pte.
  destruct (Z.eqb_spec (va / PGSIZE) (Z.of_nat k * PGSIZE / PGSIZE)) as [E|E].
  - rewrite E, Z.sub_diag, Z.mul_0_l, Z.add_0_r. simpl.
    rewrite (pte_of_page _ old va (Z.of_nat k * PGSIZE)), (page_pte k w) by done.
    rewrite <- (cow_page w). apply pte_split; [|by apply cow_leaf].
    apply cow_bound; [lia|]. rewrite <- (page_pte k w Hk) in Hw |- *.
    pose proof (pte_of_bound (mem s0) old (Z.of_nat k * PGSIZE)). lia.
  - simpl. destruct (Z.leb_spec 0 (va / PGSIZE - Z.of_nat k * PGSIZE / PGSIZE)),
      (Z.ltb_spec (va / PGSIZE - Z.of_nat k * PGSIZE / PGSIZE) 1); try done. lia.
Qed.

(** Mapping the page [k] in the child: the invariant with one page more, or an
    unchanged one and no memory left. *)
Lemma share_mappages k s l w :
  kinv s l → cow_inv s0 old new ws (S k) k k s → ws !! k = Some w →
  wp (mappages new (Z.of_nat k * PGSIZE) PGSIZE (PTE2PA w) (PTE_FLAGS (cow w))) s (λ r s',
    (∃ l', kinv s' l') ∧
    ((r = 0 ∧ cow_inv s0 old new ws (S k) (S k) k s') ∨
     (r = -1 ∧ cow_inv s0 old new ws (S k) k k s'))).
Proof.
  intros Hki I Hk. pose proof (page_lt k w Hk) as Hva.
  destruct (proj1 (Forall_lookup _ _) Hsh k w Hk) as (Hv & Hw & [Hvp _] & _).
  destruct (valid_page_bounds _ Hvp) as [Hpb Hal].
  eapply wp_mono; [apply (mappages_wp s l new (Z.of_nat k * PGSIZE) 1 (PTE2PA w)); try done|].
  - apply (ci_wfn _ _ _ _ _ _ _ _ I).
  - lia.
  - apply Z.mod_mul. done.
  - apply lookup_lt_Some in Hk. unfold PGSIZE in *. lia.
  - apply (land_bound_r _ _ 10); done.
  - lia.
  - unfold PGSIZE. lia.
  - intros i Hi. replace i with 0 by lia. rewrite Z.add_0_r, (ci_new _ _ _ _ _ _ _ _ I), in_pages_self by done.
    rewrite Hempty; [done|]. by eapply lookup_lt_Some.
  - intros r s1 (l1 & Hk1 & [(-> & U & _)|(-> & _ & _ & k' & Hk' & U)]); (split; [eauto|]); [left|right]; (split; [done|]).
    + eapply share_map; [done | done|]. intros va Hva'. by apply map_pte_cow.
    + eapply share_map; [done | done|]. intros va Hva'. replace k' with 0 by lia. unfold map_pte.
      destruct (Z.leb_spec 0 (va / PGSIZE - Z.of_nat k * PGSIZE / PGSIZE)),
        (Z.ltb_spec (va / PGSIZE - Z.of_nat k * PGSIZE / PGSIZE) 0); try done. lia.
Qed.

(** The error path. *)
Lemma uvmcopy_fail k s l :
  kinv s l → (k < length ws)%nat → cow_inv s0 old new ws (S k) k k s →
  wp (uvmunmap new 0 (Z.of_nat k * PGSIZE / PGSIZE) true;; mret (-1)) s uvmcopy_post.
Proof.
  intros Hki Hk I. apply wp_bind. rewrite Z.div_mul by done.
  assert (Hln : length (cow <$> take k ws) = k) by (rewrite length_fmap, length_take_le; lia).
  rewrite <- Hln at 1. eapply wp_mono; [apply (uvmunmap_wp s l); try done|].
  - apply (ci_wfn _ _ _ _ _ _ _ _ I).
  - rewrite Hln. unfold PGSIZE in *. lia.
  - eapply share_maps; [done | lia].
  - apply Forall_fmap, Forall_take. eapply Forall_impl; [exact Hsh|]. intros w (Hv & _). by apply cow_leaf.
  - intros _. by eapply share_freeable.
  - intros _ s1 [Hk1 U]. apply wp_ret. split; [done|]. right. split; [done|]. exists k.
    split; [done|]. eapply share_undo; [done | done | lia | done].
Qed.

(** The code that marks the entry of the parent. *)
Lemma uvmcopy_mark k s l w a (K : Z → M kstate Z) Q :
  kinv s l → cow_inv s0 old new ws k k k s → ws !! k = Some w →
  slot (mem s) old (Z.of_nat k * PGSIZE) = Some a →
  (∀ s1, kinv s1 l → cow_inv s0 old new ws (S k) k k s1 → wp (K (cow w)) s1 Q) →
  wp (storeM a (Z.land w (Z.lnot PTE_W));; w1 ← loadM a; storeM a (Z.lor w1 PTE_COW);;
      w2 ← loadM a; K w2) s Q.
Proof.
  intros Hki I Hw Ha HK.
  assert (Hb : 0 ≤ w < 2 ^ 54).
  { split; [rewrite <- (page_pte k w Hw); apply pte_of_bound|].
    by destruct (proj1 (Forall_lookup _ _) Hsh k w Hw) as (_ & ? & _). }
  apply wp_bind, wp_modify, wp_bind, wp_gets, wp_bind, wp_modify, wp_bind, wp_gets.
  rewrite !mem_set_mem, !load64_store64.
  rewrite (u64_small (Z.land w _)) by (pose proof (land_bound w (Z.lnot PTE_W) 54); lia).
  change (Z.lor (Z.land w (Z.lnot PTE_W)) PTE_COW) with (cow w).
  pose proof (cow_bound w 54 ltac:(lia) Hb) as Hcb.
  destruct (store_twice s l old (Z.of_nat k * PGSIZE) a (Z.land w (Z.lnot PTE_W)) (cow w))
    as (Hk1 & U1 & _ & Hr1);
    [done | apply (ci_wfo _ _ _ _ _ _ _ _ I) | by eapply page_lt | done|].
  rewrite (u64_small (cow w)) in * by lia. apply HK; [done|].
  by apply (share_mark k s _ w).
Qed.

Lemma uvmcopy_loop_wp fuel k s l sz :
  kinv s l → cow_inv s0 old new ws k k k s → (k ≤ length ws)%nat → (length ws - k ≤ fuel)%nat →
  (∀ i, Z.of_nat i * PGSIZE < sz ↔ (i < length ws)%nat) →
  wp (uvmcopy_loop fuel old new (Z.of_nat k * PGSIZE) sz) s uvmcopy_post.
Proof.
  intros Hki I Hk Hf Hsz. revert k s l Hki I Hk Hf.
  induction fuel as [|fuel IH]; intros k s l Hki I Hk Hf; cbn [uvmcopy_loop];
    (destruct (Z.ltb_spec (Z.of_nat k * PGSIZE) sz) as [Hlt|Hge];
     [|apply wp_ret; split; [eauto|]; left; split; [done|];
       assert (k = length ws) as <-; [destruct (Hsz k); lia | done]]);
    apply Hsz in Hlt; [lia|].
  destruct (lookup_lt_is_Some_2 ws k Hlt) as [w Hw].
  pose proof (page_lt k w Hw) as Hva.
  destruct (proj1 (Forall_lookup _ _) Hsh k w Hw) as (Hv & _ & [Hvp _] & _ & Hpos).
  assert (Epte : pte_of (mem s) old (Z.of_nat k * PGSIZE) = w).
  { rewrite (ci_old _ _ _ _ _ _ _ _ I), in_pages_self by done. by apply page_pte. }
  destruct (slot_some s old (Z.of_nat k * PGSIZE)) as (a & Ha & Hload); [by rewrite Epte|].
  pose proof (slot_pos s old _ a (ci_wfo _ _ _ _ _ _ _ _ I) Ha) as Hapos.
  apply wp_bind. eapply wp_mono; [by apply walk_lookup_wp|]. intros r s' [-> ->].
  rewrite Ha. simpl default. rewrite (proj2 (Z.eqb_neq a 0)) by lia.
  apply wp_bind, wp_gets. rewrite Hload, Epte, land_V0, Hv. simpl negb. cbv iota.
  apply (uvmcopy_mark k s l w a); [done..|]. intros s1 Hk1 I1.
  apply wp_bind. eapply wp_mono; [by apply (share_mappages k s1 l w)|].
  intros r s2 [[l2 Hk2] [[-> I2]|[-> I2]]]; [|by apply (uvmcopy_fail k s2 l2)].
  change (nonzero 0) with false. cbv iota.
  apply wp_bind. eapply wp_mono; [apply (incRef_wp s2 l2); [done | done |]|].
  { rewrite (ci_rc _ _ _ _ _ _ _ _ I2) by done. pose proof (cnt_nonneg (take k ws) (PTE2PA w)).
    pose proof (cnt_take_lt k w Hw). pose proof (Hcount _ Hvp Hpos). lia. }
  intros _ s3 (Hk3 & Hm3 & Hr3 & Hro3). rewrite u64_small by (pose proof MAXVA_lt; unfold PGSIZE in *; lia).
  replace (Z.of_nat k * PGSIZE + PGSIZE) with (Z.of_nat (S k) * PGSIZE) by lia.
  apply (IH (S k) s3 l2); [done | by apply (share_count k s2 s3 w) | lia | lia].
Qed.
End Share.

(** The invariant before the first page. *)
Lemma cow_inv_init s old new ws :
  pt_wf s old → pt_wf s new → pt_disj s old new → cow_inv s old new ws 0 0 0 s.
Proof.
  intros Hwo Hwn Hd.
  assert (H0 : ∀ va, in_pages 0 (Z.of_nat 0) va = false).
  { intros va. rewrite in_pages_0. change (Z.of_nat 0) with 0.
    destruct (Z.leb_spec 0 (va / PGSIZE)), (Z.ltb_spec (va / PGSIZE) 0); simpl; lia || done. }
  split; try done; intros.
  - by left.
  - by rewrite H0.
  - by rewrite H0.
  - simpl. lia.
  - by left.
Qed.

Lemma uvmcopy_wp s l old new ws sz :
  kinv s l → pt_wf s old → pt_wf s new → pt_disj s old new →
  maps s old 0 ws → Forall (sharable s old new) ws →
  (∀ x, valid_page x → 0 < rc s x → rc s x + cnt ws x < 2 ^ 31) →
  (∀ i, (i < length ws)%nat → pte_of (mem s) new (Z.of_nat i * PGSIZE) = 0) →
  0 ≤ sz ≤ MAXVA → Z.of_nat (length ws) = PGROUNDUP sz / PGSIZE →
  wp (uvmcopy old new sz) s (uvmcopy_post s old new ws).
Proof.
  intros Hk Hwo Hwn Hd Hm Hsh Hc He Hsz Hlen. unfold uvmcopy.
  change MAXVA with 274877906944 in Hsz. rewrite PGROUNDUP_spec in Hlen by (unfold PGSIZE; lia).
  change 0 with (Z.of_nat 0 * PGSIZE) at 1. unfold PGSIZE in Hlen.
  apply (uvmcopy_loop_wp s old new ws Hm Hsh) with (l := l); try done.
  - change MAXVA with 274877906944. unfold PGSIZE. lia.
  - by apply cow_inv_init.
  - lia.
  - unfold PGSIZE. lia.
  - intros i. unfold PGSIZE. lia.
Qed.

(** ** Trees under allocation *)

(** The state changed, this tree did not. *)
Definition same_tree (s s' : kstate) (root : Z) : Prop :=
  pt_wf s' root ∧ (∀ p, vpath p → node (mem s') root p = node (mem s) root p) ∧
  (∀ va, pte_of (mem s') root va = pte_of (mem s) root va).

Lemma same_tree_trans s1 s2 s3 root :
  same_tree s1 s2 root → same_tree s2 s3 root → same_tree s1 s3 root.
Proof.
  intros (_ & A2 & A3) (B1 & B2 & B3). split; [done|]. split; intros; [by rewrite B2, A2 | by rewrite B3, A3].
Qed.

Lemma same_tree_node s s' root x : same_tree s s' root → pt_node s' root x ↔ pt_node s root x.
Proof. intros (_ & Hn & _). by apply pt_node_same. Qed.

Lemma same_tree_slot s s' root va : same_tree s s' root → slot (mem s') root va = slot (mem s) root va.
Proof. intros (_ & Hn & _). unfold slot. by rewrite Hn by apply vpath_idx. Qed.

Lemma free_not_node s l q root : kinv s (q :: l) → pt_wf s root → ¬ pt_node s root q.
Proof.
  intros Hk Hw (p & Hp & E). destruct (pw_page _ _ Hw p q Hp E) as [_ Hr].
  rewrite (ki_free _ _ _ Hk q) in Hr by (by left). lia.
Qed.

(** Allocating a page disturbs no tree. *)
Lemma alloc_tree s s' l q root :
  kinv s (q :: l) → pt_wf s root →
  (∀ x, valid_page x → x ≠ q → rc s' x = rc s x ∧ same_page (mem s) (mem s') x) →
  same_tree s s' root.
Proof.
  intros Hk Hw Hs. apply (pt_same s s' root Hw). intros x Hx.
  pose proof Hx as (p & Hp & E). destruct (pw_page _ _ Hw p x Hp E) as [Hv _].
  assert (x ≠ q) by (intros ->; by apply (free_not_node s l q root)). split; by apply Hs.
Qed.

End Uvm.
