(* ===== verification/Ucopy.v ===== *)
(** * Transfers between kernel and user memory (kernel/vm.c)

    [copyout] and [copyin] in terms of the bytes a process sees at its virtual
    addresses, and the copy-on-write step inside [copyout]. *)

From stdpp Require Import base numbers list.
From S2P Require Import Prelude Str Layout Kalloc Vm PageTable Uvm.
Local Open Scope Z_scope.

(** ** Bytes in memory *)

Lemma mmove_out dst src n m a : a < dst ∨ dst + n ≤ a → mmove dst src n m a = m a.
Proof.
  intros Ha. unfold mmove. destruct (Z.leb_spec dst a), (Z.ltb_spec a (dst + n)); simpl; lia || done.
Qed.

Lemma mmove_in dst src n m i : 0 ≤ i < n → mmove dst src n m (dst + i) = m (src + i).
Proof.
  intros Hi. unfold mmove. rewrite (proj2 (Z.leb_le _ _)), (proj2 (Z.ltb_lt _ _)) by lia.
  simpl. f_equal. lia.
Qed.

Section Ucopy.
Context {L : Linker} {LOk : LinkerOk L}.

(** ** Writing into a user page *)

(** A write confined to a page in use that is no page-table page. *)
Lemma write_user s l root x f :
  kinv s l → pt_wf s root → valid_page x → 0 < rc s x → ¬ pt_node s root x →
  (∀ b, b < x ∨ x + PGSIZE ≤ b → f (mem s) b = mem s b) →
  kinv (set_mem f s) l ∧ same_tree s (set_mem f s) root ∧
  (∀ y, valid_page y → y ≠ x → same_page (mem s) (mem (set_mem f s)) y).
Proof.
  intros Hk Hw Hv Hr Hn Hf.
  assert (Hs : ∀ y, valid_page y → y ≠ x → same_page (mem s) (mem (set_mem f s)) y).
  { intros y [Hy _] Hne b Hb. simpl. apply Hf. eapply page_disjoint; [apply Hv | exact Hy | congruence | done]. }
  split; [|split; [|done]].
  - apply kinv_mem; [done|]. intros y Hy. apply Hs; [by apply (ki_valid _ _ _ Hk)|].
    intros ->. by destruct (kinv_used s l x).
  - apply (pt_same s (set_mem f s) root Hw). intros y Hy. split; [|done]. pose proof Hy as (p & Hp & E).
    apply Hs; [by apply (pw_page _ _ Hw p y Hp E)|]. by intros ->.
Qed.

(** ** The copy-on-write step *)

Definition user_rwx : Z := Z.lor PTE_V (Z.lor PTE_R (Z.lor PTE_W (Z.lor PTE_U PTE_X))).

Lemma clear_cow q :
  0 ≤ q < 2 ^ 56 → Z.land (Z.lor (PA2PTE q) user_rwx) (Z.lnot PTE_COW) = Z.lor (PA2PTE q) user_rwx.
Proof.
  intros Hq. apply Z.bits_inj'. intros k Hk. rewrite Z.land_spec, Z.lnot_spec by done.
  change PTE_COW with (2 ^ 8). rewrite Z.pow2_bits_eqb by lia.
  destruct (Z.eqb_spec 8 k) as [<-|]; [|by rewrite andb_true_r].
  rewrite Z.lor_spec, PA2PTE_testbit by (done || lia). done.
Qed.

(** The private copy: what [copyout] has done before its loop. *)
Record private (s s' : kstate) (root va w q : Z) : Prop := Private {
  pv_inv : ∃ l, kinv s' l;
  pv_wf : pt_wf s' root;
  pv_node : ∀ x, pt_node s' root x ↔ pt_node s root x;
  pv_pte : ∀ va', 0 ≤ va' < MAXVA → pte_of (mem s') root va' =
    set_pte va (Z.lor (PA2PTE q) user_rwx) va' (pte_of (mem s) root va');
  pv_rc : ∀ x, valid_page x →
    rc s' x = rc s x + (if x =? q then 1 else 0) - (if PTE2PA w =? x then 1 else 0);
  pv_frame : ∀ x, valid_page x → x ≠ q → 0 < rc s' x → ¬ pt_node s root x →
    same_page (mem s) (mem s') x;
  pv_copy : ∀ i, 0 ≤ i < PGSIZE → mem s' (q + i) = mem s (PTE2PA w + i);
}.

(** The page [q] holds a copy of the page of [w], and nothing else changed. *)
Record duplicated (s s' : kstate) (root w q : Z) : Prop := Duplicated {
  du_tree : same_tree s s' root;
  du_rc : ∀ x, valid_page x → rc s' x = rc s x + (if x =? q then 1 else 0);
  du_frame : ∀ x, valid_page x → x ≠ q → same_page (mem s) (mem s') x;
  du_copy : ∀ i, 0 ≤ i < PGSIZE → mem s' (q + i) = mem s (PTE2PA w + i);
}.

(** Storing the entry of the private page and dropping the shared one. *)
Lemma private_switch s s2 l l0 root va a w q :
  kinv s (q :: l0) → pt_wf s root → kinv s2 l → duplicated s s2 root w q →
  0 ≤ va < MAXVA → slot (mem s2) root va = Some a →
  user_page s root w → 0 < rc s (PTE2PA w) →
  wp (storeM a (Z.lor (Z.lor (Z.lor (Z.lor (Z.lor (PA2PTE q) PTE_V) PTE_R) PTE_W) PTE_U) PTE_X);;
      w3 ← loadM a; storeM a (Z.land w3 (Z.lnot PTE_COW));; kfree (PTE2PA w)) s2
    (λ _ s', private s s' root va w q).
Proof.
  intros Hk0 Hw0 Hk [T Hrc Hf Hc] Hva Hs [Hv Hnw] Hr.
  assert (Hw : pt_wf s2 root) by apply T.
  assert (Hn : ∀ x, pt_node s2 root x ↔ pt_node s root x) by (intros x; by apply same_tree_node).
  assert (Hp : ∀ va', pte_of (mem s2) root va' = pte_of (mem s) root va') by apply T.
  assert (Hq : valid_page q) by (apply (ki_valid _ _ _ Hk0); by left).
  assert (Hrq : rc s q = 0) by (apply (ki_free _ _ _ Hk0); by left).
  assert (Hnq : ¬ pt_node s root q) by (by eapply free_not_node).
  assert (Hne : PTE2PA w ≠ q) by (intros E; rewrite E in Hr; lia).
  destruct (valid_page_bounds q Hq) as [Hqb Hqal].
  pose proof (pte_bound q user_rwx ltac:(lia) ltac:(done)) as Hvb.
  rewrite <- !Z.lor_assoc. change (Z.lor PTE_V _) with user_rwx.
  apply wp_bind, wp_modify, wp_bind, wp_gets, wp_bind, wp_modify.
  rewrite mem_set_mem, load64_store64, u64_small, clear_cow by lia.
  destruct (store_twice s2 l root va a (Z.lor (PA2PTE q) user_rwx) (Z.lor (PA2PTE q) user_rwx))
    as (Hk3 & U3 & _ & Hr3); [done..|].
  set (s3 := set_mem _ (set_mem _ s2)) in *. rewrite u64_small in U3 by lia.
  assert (Hn3 : ∀ x, pt_node s3 root x ↔ pt_node s root x).
  { intros x. rewrite <- Hn. by apply (upd_node_iff _ _ _ _ _ U3). }
  assert (Hr2 : ∀ x, valid_page x → rc s3 x = rc s x + (if x =? q then 1 else 0)).
  { intros x Hx. by rewrite Hr3, Hrc. }
  eapply wp_mono; [apply (kfree_user_wp s3 l root w); [done | apply (pu_wf _ _ _ _ U3) | split; [done|] |]|].
  { by rewrite Hn3. }
  { rewrite Hr2 by done. destruct (_ =? _); lia. }
  intros _ s4 (Hk4 & Hw4 & Hn4 & Hp4 & Hr4 & Hf4).
  assert (Hr' : ∀ x, valid_page x →
    rc s4 x = rc s x + (if x =? q then 1 else 0) - (if PTE2PA w =? x then 1 else 0)).
  { intros x Hx. by rewrite Hr4, Hr2. }
  assert (Hsame : ∀ x, valid_page x → 0 < rc s4 x → 0 < rc s2 x → ¬ pt_node s root x →
    same_page (mem s2) (mem s4) x).
  { intros x Hx H4 H2 Hnx b Hb. rewrite (Hf4 x Hx H4 b Hb).
    apply (pu_frame _ _ _ _ U3 x Hx H2); [by rewrite Hn | done]. }
  assert (H2 : ∀ x, valid_page x → 0 < rc s4 x → 0 < rc s2 x).
  { intros x Hx. rewrite Hr', Hrc by done. destruct (PTE2PA w =? x); lia. }
  split; [done | done | | | done | |].
  - intros x. rewrite <- Hn3. by apply pt_node_same.
  - intros va' Hva'. by rewrite Hp4, (pu_pte _ _ _ _ U3), Hp.
  - intros x Hx Hxq H4 Hnx b Hb. rewrite (Hsame x) by auto. by apply (Hf x).
  - intros i Hi. rewrite (Hsame q); [by apply Hc | done | | | done | lia].
    + rewrite Hr', Z.eqb_refl, (proj2 (Z.eqb_neq _ _)) by done. lia.
    + rewrite Hrc, Z.eqb_refl by done. lia.
Qed.

(** [walkaddr] of a user page. *)
Lemma walkaddr_wp s root va w :
  pt_wf s root → 0 ≤ va < MAXVA → pte_of (mem s) root va = w →
  Z.testbit w 0 = true → Z.testbit w 4 = true →
  wp (walkaddr root va) s (λ r s', r = PTE2PA w ∧ s' = s).
Proof.
  intros Hw Hva E Hv Hu. unfold walkaddr. rewrite (proj2 (Z.leb_gt _ _)) by lia.
  destruct (slot_some s root va) as (a & Ha & Hload); [by rewrite E|].
  apply wp_bind. eapply wp_mono; [by apply walk_lookup_wp|]. intros r s' [-> ->].
  rewrite Ha. simpl default.
  rewrite (proj2 (Z.eqb_neq a 0)) by (pose proof (slot_pos s root va a Hw Ha); lia).
  apply wp_bind, wp_gets. rewrite Hload, E, land_V0, Hv. simpl negb. cbv iota.
  assert (HU : nonzero (Z.land w PTE_U) = true) by (rewrite <- Hu; apply land_bit; lia).
  unfold nonzero in HU. apply negb_true_iff in HU. rewrite HU. by apply wp_ret.
Qed.

(** The loop of [copyout] when all bytes go to one page. *)
Lemma copyout_loop_page s l root va src x f :
  kinv s l → pt_wf s root → 0 ≤ va < MAXVA → valid_page x → 0 < rc s x → ¬ pt_node s root x →
  pte_of (mem s) root (PGROUNDDOWN va) = Z.lor (PA2PTE x) user_rwx →
  va mod PGSIZE + Z.of_nat (length src) ≤ PGSIZE →
  wp (copyout_loop (S f) root va src) s (λ r s', r = 0 ∧
    s' = set_mem (write_bytes (x + va mod PGSIZE) src) s).
Proof.
  intros Hk Hw Hva Hx Hr Hn E Hlen. cbn [copyout_loop].
  destruct (valid_page_bounds x Hx) as [Hb Hal].
  assert (HR : PGROUNDDOWN va = va - va mod PGSIZE)
    by (rewrite PGROUNDDOWN_spec; unfold PGSIZE in *; lia).
  assert (0 ≤ va mod PGSIZE < PGSIZE) by (apply Z.mod_pos_bound; done).
  destruct src as [|c src']; [apply wp_ret; split; [done | by destruct s]|]. set (src := c :: src') in *.
  assert (0 < Z.of_nat (length src)) by (simpl; lia). rewrite (proj2 (Z.ltb_lt _ _)) by done.
  apply wp_bind. eapply wp_mono; [apply (walkaddr_wp s root _ (Z.lor (PA2PTE x) user_rwx) Hw); [|exact E|..]|].
  { rewrite HR. unfold PGSIZE in *. lia. }
  { rewrite Z.lor_spec. apply orb_true_r. }
  { rewrite Z.lor_spec. apply orb_true_r. }
  intros r s' [-> ->]. rewrite PTE2PA_PA2PTE by (done || lia).
  rewrite (proj2 (Z.eqb_neq x 0)) by lia.
  replace (va - PGROUNDDOWN va) with (va mod PGSIZE) by lia.
  rewrite Z.min_r, Nat2Z.id by lia. apply wp_bind, wp_modify.
  rewrite firstn_all, skipn_all. by destruct f.
Qed.

(** ** [copyout] within a page *)

(** The entry lets [copyout] write: a user page, writable or copy-on-write. *)
Definition outable (w : Z) : Prop :=
  Z.testbit w 0 = true ∧ Z.testbit w 4 = true ∧ (Z.testbit w 2 = true ∨ Z.testbit w 8 = true).

(** The guards of [copyout] pass. *)
Lemma outable_guards w :
  outable w →
  negb (nonzero (Z.land w PTE_W)) && negb (nonzero (Z.land w PTE_COW)) = false ∧
  negb (nonzero (Z.land w PTE_U)) || negb (nonzero (Z.land w PTE_V)) = false.
Proof.
  intros (Hv & Hu & Hwc). unfold PTE_W, PTE_COW, PTE_U, PTE_V. rewrite !land_bit by lia.
  rewrite Hv, Hu. split; [|done]. by destruct Hwc as [-> | ->]; [|rewrite andb_false_r].
Qed.

(** Allocation and copy of the page. *)
Lemma private_copy s l root w q :
  kinv s (q :: l) → pt_wf s root → user_page s root w → 0 < rc s (PTE2PA w) →
  wp kalloc s (λ r s1, r = q ∧ same_tree s s1 root ∧
    kinv (set_mem (mmove q (PTE2PA w) PGSIZE) s1) l ∧
    duplicated s (set_mem (mmove q (PTE2PA w) PGSIZE) s1) root w q).
Proof.
  intros Hk Hw [Hv Hn] Hr. eapply wp_mono; [by apply kalloc_wp|].
  intros r s1 (-> & Hk1 & Hrq & Hro & Hm).
  assert (Hq : valid_page q) by (apply (ki_valid _ _ _ Hk); by left).
  assert (Hq0 : rc s q = 0) by (apply (ki_free _ _ _ Hk); by left).
  assert (Hne : PTE2PA w ≠ q) by (intros E; rewrite E in Hr; lia).
  assert (Hs1 : ∀ x, valid_page x → x ≠ q → rc s1 x = rc s x ∧ same_page (mem s) (mem s1) x).
  { intros x Hx Hxq. split; [auto|]. rewrite Hm. apply same_page_mset; [apply Hq | apply Hx | done]. }
  pose proof (alloc_tree s s1 l q root Hk Hw Hs1) as T1.
  destruct (write_user s1 l root q (mmove q (PTE2PA w) PGSIZE)) as (Hk2 & T2 & Hf2);
    [done | apply T1 | done | lia | | intros b Hb; by apply mmove_out |].
  { rewrite (same_tree_node s s1) by done. by eapply free_not_node. }
  split; [done|]. split; [done|]. split; [done|]. split.
  - by eapply same_tree_trans.
  - intros x Hx. change (rc (set_mem _ s1) x) with (rc s1 x).
    destruct (Z.eqb_spec x q) as [->|]; [lia|]. rewrite Hro by done. lia.
  - intros x Hx Hxq b Hb. rewrite (Hf2 x) by done. by apply (Hs1 x).
  - intros i Hi. rewrite mem_set_mem, mmove_in by done.
    apply (Hs1 (PTE2PA w)); [done..|lia].
Qed.

(** [copyout] of bytes that fit in the page of [va]: the process gets a private
    copy of the page with the bytes in it. *)
Lemma copyout_wp s l root va w q src :
  kinv s (q :: l) → pt_wf s root → PGSIZE ≤ va < MAXVA →
  pte_of (mem s) root va = w → outable w → user_page s root w → 0 < rc s (PTE2PA w) →
  va mod PGSIZE + Z.of_nat (length src) ≤ PGSIZE →
  wp (copyout root va src) s (λ r s', r = 0 ∧ ∃ s4, private s s4 root (PGROUNDDOWN va) w q ∧
    s' = set_mem (write_bytes (q + va mod PGSIZE) src) s4).
Proof.
  intros Hk Hw Hva E Hout Hu Hr Hlen. unfold copyout.
  assert (Hq : valid_page q) by (apply (ki_valid _ _ _ Hk); by left).
  destruct (valid_page_bounds q Hq) as [Hqb Hqal].
  assert (HR : PGROUNDDOWN va / PGSIZE = va / PGSIZE ∧ PGSIZE ≤ PGROUNDDOWN va ≤ va)
    by (rewrite PGROUNDDOWN_spec; unfold PGSIZE in *; lia).
  destruct HR as [HR Hva0]. set (va0 := PGROUNDDOWN va) in *. assert (0 < PGSIZE) by done.
  rewrite (proj2 (Z.leb_gt _ _)), (proj2 (Z.eqb_neq va0 0)) by lia.
  rewrite <- (pte_of_page (mem s) root va0 va HR) in E.
  destruct (slot_some s root va0) as (a & Ha & Hload); [rewrite E; apply Hout|].
  apply wp_bind. eapply wp_mono; [apply walk_lookup_wp; lia|]. intros r s' [-> ->].
  rewrite Ha. simpl default.
  rewrite (proj2 (Z.eqb_neq a 0)) by (pose proof (slot_pos s root va0 a Hw Ha); lia).
  apply wp_bind, wp_gets. rewrite Hload, E. destruct (outable_guards w Hout) as [-> ->].
  apply wp_bind. eapply wp_mono; [by apply (private_copy s l root w q)|].
  intros r s1 (-> & T1 & Hk2 & D). rewrite (proj2 (Z.eqb_neq q 0)) by lia.
  assert (HL : ∀ s', same_tree s s' root → load64 (mem s') a = w ∧ slot (mem s') root va0 = Some a).
  { intros s' T. pose proof (same_tree_slot s s' root va0 T) as Hs'. rewrite Ha in Hs'.
    destruct T as (_ & _ & Hp). specialize (Hp va0). unfold pte_of in Hp.
    rewrite Hs', Ha, Hload, E in Hp. done. }
  apply wp_bind, wp_gets. rewrite (proj1 (HL s1 T1)). apply wp_bind, wp_modify.
  apply wp_bind, wp_gets. rewrite (proj1 (HL _ (du_tree _ _ _ _ _ D))). cbv zeta.
  apply wp_assoc3. apply wp_bind.
  eapply wp_mono; [eapply (private_switch s _ l l root va0 a w q); try done;
    [lia | apply (HL _ (du_tree _ _ _ _ _ D))]|].
  intros u s4 P. simpl in P. destruct (pv_inv _ _ _ _ _ _ P) as [l4 Hk4].
  eapply wp_mono; [apply (copyout_loop_page s4 l4 root va src q); try done; [|lia|..]|].
  - apply (pv_wf _ _ _ _ _ _ P).
  - rewrite (pv_rc _ _ _ _ _ _ P), Z.eqb_refl, (ki_free _ _ _ Hk q) by (done || by left).
    rewrite (proj2 (Z.eqb_neq _ _)); [lia|]. intros Eq. rewrite Eq, (ki_free _ _ _ Hk q) in Hr by (by left). lia.
  - rewrite (pv_node _ _ _ _ _ _ P). by eapply free_not_node.
  - fold va0. rewrite (pv_pte _ _ _ _ _ _ P) by lia. unfold set_pte. by rewrite Z.eqb_refl.
  - intros r s5 [-> ->]. split; [done|]. by exists s4.
Qed.

(** Without a free page it fails and changes nothing. *)
Lemma copyout_nomem s root va w src :
  kinv s [] → pt_wf s root → PGSIZE ≤ va < MAXVA → pte_of (mem s) root va = w → outable w →
  wp (copyout root va src) s (λ r s', r = -1 ∧ s' = s).
Proof.
  intros Hk Hw Hva E Hout. unfold copyout.
  assert (HR : PGROUNDDOWN va / PGSIZE = va / PGSIZE ∧ PGSIZE ≤ PGROUNDDOWN va ≤ va)
    by (rewrite PGROUNDDOWN_spec; unfold PGSIZE in *; lia).
  destruct HR as [HR Hva0]. set (va0 := PGROUNDDOWN va) in *. assert (0 < PGSIZE) by done.
  rewrite (proj2 (Z.leb_gt _ _)), (proj2 (Z.eqb_neq va0 0)) by lia.
  rewrite <- (pte_of_page (mem s) root va0 va HR) in E.
  destruct (slot_some s root va0) as (a & Ha & Hload); [rewrite E; apply Hout|].
  apply wp_bind. eapply wp_mono; [apply walk_lookup_wp; lia|]. intros r s' [-> ->].
  rewrite Ha. simpl default. rewrite (proj2 (Z.eqb_neq a 0)) by (pose proof (slot_pos s root va0 a Hw Ha); lia).
  apply wp_bind, wp_gets. rewrite Hload, E. destruct (outable_guards w Hout) as [-> ->].
  apply wp_bind. eapply wp_mono; [by apply kalloc_wp|]. intros r s' [-> ->]. by apply wp_ret.
Qed.

(** ** What a process sees *)

(** The byte a process reads at the virtual address [va]. *)
Definition ubyte (s : kstate) (root va : Z) : option Z :=
  let w := pte_of (mem s) root va in
  if Z.testbit w 0 && Z.testbit w 4 then Some (u8 (mem s (PTE2PA w + va mod PGSIZE))) else None.

(** An address space: the user pages of the tree are managed, in use, and no
    page-table pages of any of the trees considered. *)
Definition uspace (s : kstate) (root root2 : Z) : Prop :=
  ∀ va, 0 ≤ va < MAXVA → let w := pte_of (mem s) root va in
    Z.testbit w 0 = true → Z.testbit w 4 = true →
    user_page s root2 w ∧ 0 < rc s (PTE2PA w).

(** A page with a single reference is mapped at a single place. *)
Definition unshared (s : kstate) (root va : Z) : Prop :=
  let pa := PTE2PA (pte_of (mem s) root va) in
  rc s pa = 1 →
  ∀ va', 0 ≤ va' < MAXVA → va' / PGSIZE ≠ va / PGSIZE → PTE2PA (pte_of (mem s) root va') ≠ pa.

Lemma page_off_bound va : 0 ≤ va mod PGSIZE < PGSIZE.
Proof. by apply Z.mod_pos_bound. Qed.

Lemma page_split va : va = va / PGSIZE * PGSIZE + va mod PGSIZE.
Proof. unfold PGSIZE. lia. Qed.

Section Private.
Context (s s4 : kstate) (l : list Z) (root va w q : Z) (src : list Z).
Context (Hk : kinv s (q :: l)) (Hw : pt_wf s root) (Hva : PGSIZE ≤ va < MAXVA).
Context (E : pte_of (mem s) root va = w) (Hu : user_page s root w) (Hr : 0 < rc s (PTE2PA w)).
Context (Hlen : va mod PGSIZE + Z.of_nat (length src) ≤ PGSIZE).
Context (P : private s s4 root (PGROUNDDOWN va) w q).
Let s5 := set_mem (write_bytes (q + va mod PGSIZE) src) s4.

Lemma private_q : valid_page q ∧ rc s q = 0 ∧ q ≠ PTE2PA w ∧ ¬ pt_node s root q.
Proof.
  assert (Hq : valid_page q) by (apply (ki_valid _ _ _ Hk); by left).
  assert (H0 : rc s q = 0) by (apply (ki_free _ _ _ Hk); by left).
  split; [done|]. split; [done|]. split; [congruence || (intros Eq; rewrite <- Eq in Hr; lia)|].
  by eapply free_not_node.
Qed.

(** The final write stays inside the private page. *)
Lemma private_write : 
  (∃ l', kinv s5 l') ∧ same_tree s4 s5 root ∧
  (∀ y, valid_page y → y ≠ q → same_page (mem s4) (mem s5) y).
Proof.
  destruct private_q as (Hq & H0 & Hne & Hnq).
  destruct (pv_inv _ _ _ _ _ _ P) as [l4 Hk4]. pose proof (page_off_bound va).
  destruct (write_user s4 l4 root q (write_bytes (q + va mod PGSIZE) src)) as (H1 & H2 & H3); eauto.
  - apply (pv_wf _ _ _ _ _ _ P).
  - rewrite (pv_rc _ _ _ _ _ _ P), Z.eqb_refl, (proj2 (Z.eqb_neq _ _)) by done. lia.
  - by rewrite (pv_node _ _ _ _ _ _ P).
  - intros b Hb. apply write_bytes_out. lia.
Qed.

(** A page in use that keeps a reference keeps its bytes. *)
Lemma private_keep x :
  valid_page x → 0 < rc s x → (x = PTE2PA w → 1 < rc s x) → ¬ pt_node s root x →
  same_page (mem s) (mem s5) x.
Proof.
  intros Hx Hrx H1 Hn b Hb. destruct private_q as (Hq & H0 & Hne & Hnq).
  destruct private_write as (_ & _ & Hf). assert (x ≠ q) by (intros ->; lia).
  rewrite (Hf x) by done. apply (pv_frame _ _ _ _ _ _ P x); [done | done | | done | done].
  rewrite (pv_rc _ _ _ _ _ _ P), (proj2 (Z.eqb_neq x q)) by done.
  destruct (Z.eqb_spec (PTE2PA w) x) as [Ex|]; [specialize (H1 (eq_sym Ex))|]; lia.
Qed.

Lemma private_pte va' :
  0 ≤ va' < MAXVA → pte_of (mem s5) root va' =
  if va' / PGSIZE =? va / PGSIZE then Z.lor (PA2PTE q) user_rwx else pte_of (mem s) root va'.
Proof.
  intros Hva'. destruct private_write as (_ & (_ & _ & ->) & _).
  rewrite (pv_pte _ _ _ _ _ _ P) by done. unfold set_pte.
  by replace (PGROUNDDOWN va / PGSIZE) with (va / PGSIZE)
    by (rewrite PGROUNDDOWN_spec; unfold PGSIZE in *; lia).
Qed.

(** The process sees the bytes written, and all others as before. *)
Lemma private_view va' :
  0 ≤ va' < MAXVA → outable w → uspace s root root → unshared s root va →
  ubyte s5 root va' =
  match (if va <=? va' then src !! Z.to_nat (va' - va) else None) with
  | Some b => Some (u8 b)
  | None => ubyte s root va'
  end.
Proof.
  intros Hva' (Ho1 & Ho2 & _) Hsp Hun. pose proof (page_off_bound va). pose proof (page_off_bound va').
  pose proof (page_split va). pose proof (page_split va'). assert (0 < PGSIZE) by done.
  destruct private_q as (Hq & _). destruct (valid_page_bounds q Hq) as [Hqb Hqal].
  unfold ubyte. rewrite private_pte by done.
  destruct (Z.eqb_spec (va' / PGSIZE) (va / PGSIZE)) as [Epg|Epg].
  - rewrite (pte_of_page _ root va' va Epg), E, Ho1, Ho2, !Z.lor_spec.
    rewrite !orb_true_r, PTE2PA_PA2PTE by (done || lia). simpl andb. cbv iota.
    unfold s5. rewrite mem_set_mem, write_bytes_spec, (pv_copy _ _ _ _ _ _ P) by done.
    replace (q + va' mod PGSIZE - (q + va mod PGSIZE)) with (va' - va) by lia.
    replace (q + va mod PGSIZE <=? q + va' mod PGSIZE) with (va <=? va')
      by (apply eq_bool_prop_intro; rewrite !Is_true_true, !Z.leb_le; lia).
    destruct (src !! Z.to_nat (va' - va)), (va <=? va'); try done. by rewrite u8_idem.
  - assert (Hnone : (if va <=? va' then src !! Z.to_nat (va' - va) else None) = None).
    { destruct (Z.leb_spec va va'); [|done]. apply lookup_ge_None_2. nia. }
    rewrite Hnone. set (w' := pte_of (mem s) root va').
    destruct (Z.testbit w' 0) eqn:E0, (Z.testbit w' 4) eqn:E4; try done. simpl andb. cbv iota.
    destruct (Hsp va' Hva' E0 E4) as [[Hv' Hn'] Hr']. fold w' in Hv', Hn', Hr'. do 2 f_equal.
    apply (private_keep (PTE2PA w')); [done | done | | done | lia].
    intros Eq. destruct (decide (rc s (PTE2PA w) = 1)) as [E1|]; [|rewrite Eq in *; lia].
    unfold unshared in Hun. rewrite E in Hun. by destruct (Hun E1 va' Hva' Epg).
Qed.

(** Any other process sees the same bytes as before. *)
Lemma private_isolates root2 va' :
  0 ≤ va' < MAXVA → pt_wf s root2 → pt_disj s root2 root → user_page s root2 w →
  uspace s root2 root → (PTE2PA (pte_of (mem s) root2 va') = PTE2PA w → 1 < rc s (PTE2PA w)) →
  ubyte s5 root2 va' = ubyte s root2 va'.
Proof.
  intros Hva' Hw2 Hd Hu2 Hsp Hsh. pose proof (page_off_bound va').
  assert (Hp : pte_of (mem s5) root2 va' = pte_of (mem s) root2 va').
  { apply pte_of_same. intros p x Hp Ex. destruct (pw_page _ _ Hw2 p x Hp Ex) as [Hvx Hrx].
    assert (pt_node s root2 x) by (by exists p).
    apply private_keep; [done | lia | | by intros ?; apply (Hd x)]. intros ->. by destruct Hu2. }
  unfold ubyte. rewrite Hp. set (w' := pte_of (mem s) root2 va') in *.
  destruct (Z.testbit w' 0) eqn:E0, (Z.testbit w' 4) eqn:E4; try done. simpl andb. cbv iota.
  destruct (Hsp va' Hva' E0 E4) as [[Hv' Hn'] Hr']. fold w' in Hv', Hn', Hr'. do 2 f_equal.
  apply (private_keep (PTE2PA w')); [done | done | | done | lia]. intros Eq. rewrite Eq in *. auto.
Qed.
End Private.

(** ** [copyin] *)

(** The bytes a process reads from [va] on, if it can read all of them. *)
Fixpoint uread (s : kstate) (root va : Z) (n : nat) : option (list Z) :=
  match n with
  | O => Some []
  | S n' => b ← ubyte s root va; bs ← uread s root (va + 1) n'; Some (b :: bs)
  end.

Lemma uread_app s root va n m :
  uread s root va (n + m) =
  (xs ← uread s root va n; ys ← uread s root (va + Z.of_nat n) m; Some (xs ++ ys)).
Proof.
  revert va. induction n as [|n IH]; intros va; simpl.
  - rewrite Z.add_0_r. by destruct (uread s root va m).
  - destruct (ubyte s root va); [|done]. simpl. rewrite IH.
    replace (va + 1 + Z.of_nat n) with (va + Z.of_nat (S n)) by lia.
    destruct (uread s root (va + 1) n); [|done]. simpl. by destruct (uread s root _ m).
Qed.

(** Inside a page the bytes are those of the physical page. *)
Lemma uread_page s root va n w :
  pte_of (mem s) root va = w → Z.testbit w 0 = true → Z.testbit w 4 = true →
  va mod PGSIZE + Z.of_nat n ≤ PGSIZE →
  uread s root va n = Some (read_bytes (PTE2PA w + va mod PGSIZE) n (mem s)).
Proof.
  intros E H0 H4. revert va E. induction n as [|n IH]; intros va E Hn; [done|]. simpl.
  unfold ubyte at 1. rewrite E, H0, H4. simpl.
  destruct n as [|n']; [done|]. set (n := S n') in *.
  assert ((va + 1) mod PGSIZE = va mod PGSIZE + 1) as Hm by (unfold PGSIZE in *; lia).
  rewrite IH, Hm; [simpl; by rewrite Z.add_assoc | | lia].
  rewrite <- E. apply pte_of_page. unfold PGSIZE in *. lia.
Qed.

(** [walkaddr] of an address that is not a user page. *)
Lemma walkaddr_none s root va :
  pt_wf s root → 0 ≤ va < MAXVA →
  Z.testbit (pte_of (mem s) root va) 0 && Z.testbit (pte_of (mem s) root va) 4 = false →
  wp (walkaddr root va) s (λ r s', r = 0 ∧ s' = s).
Proof.
  intros Hw Hva Hb. unfold walkaddr. rewrite (proj2 (Z.leb_gt _ _)) by lia.
  apply wp_bind. eapply wp_mono; [by apply walk_lookup_wp|]. intros r s' [-> ->].
  destruct (slot (mem s) root va) as [a|] eqn:Ha; simpl default; [|by apply wp_ret].
  rewrite (proj2 (Z.eqb_neq a 0)) by (pose proof (slot_pos s root va a Hw Ha); lia).
  apply wp_bind, wp_gets. unfold pte_of in Hb. rewrite Ha in Hb.
  rewrite land_V0. destruct (Z.testbit (load64 (mem s) a) 0); [|by apply wp_ret].
  rewrite andb_true_l in Hb. cbn [negb].
  replace (Z.land (load64 (mem s) a) PTE_U =? 0) with true; [by apply wp_ret|].
  pose proof (land_bit (load64 (mem s) a) 4 ltac:(lia)) as HU. rewrite Hb in HU.
  symmetry. apply Z.eqb_eq, nonzero_false. exact HU.
Qed.

Lemma copyin_loop_wp fuel s root va len dst :
  pt_wf s root → uspace s root root → 0 ≤ va → 0 ≤ len → va + len ≤ MAXVA → (Z.to_nat len ≤ fuel)%nat →
  wp (copyin_loop fuel root va len dst) s (λ r s', s' = s ∧
    match uread s root va (Z.to_nat len) with
    | Some bs => r = (0, dst ++ bs)
    | None => fst r = -1
    end).
Proof.
  intros Hw Hsp. revert va len dst. induction fuel as [|fuel IH]; intros va len dst Hva Hlen Hmax Hf.
  { replace len with 0 by lia. simpl. by rewrite app_nil_r. }
  cbn [copyin_loop]. destruct (Z.ltb_spec 0 len) as [Hpos|]; [|replace len with 0 by lia; simpl; by rewrite app_nil_r].
  assert (HR : PGROUNDDOWN va = va - va mod PGSIZE) by (rewrite PGROUNDDOWN_spec; unfold PGSIZE in *; lia).
  assert (Hpg : PGROUNDDOWN va / PGSIZE = va / PGSIZE) by (rewrite HR; unfold PGSIZE; lia).
  pose proof (page_off_bound va) as Hoff. pose proof MAXVA_lt. set (va0 := PGROUNDDOWN va) in *.
  assert (0 ≤ va0 < MAXVA) by (unfold PGSIZE in *; lia). set (w := pte_of (mem s) root va).
  assert (Ew : pte_of (mem s) root va0 = w) by (by apply pte_of_page).
  apply wp_bind. destruct (Z.testbit w 0 && Z.testbit w 4) eqn:Hb.
  2: { eapply wp_mono; [apply walkaddr_none; [done | done | by rewrite Ew]|]. intros r s' [-> ->].
       simpl. apply wp_ret. split; [done|]. replace (Z.to_nat len) with (S (Z.to_nat (len - 1))) by lia.
       simpl. unfold ubyte at 1. fold w. by rewrite Hb. }
  apply andb_true_iff in Hb as [HV HU].
  eapply wp_mono; [by apply (walkaddr_wp s root va0 w)|]. intros r s' [-> ->].
  destruct (Hsp va ltac:(lia) HV HU) as [[Hv _] _]. fold w in Hv.
  rewrite (proj2 (Z.eqb_neq (PTE2PA w) 0)) by (destruct (valid_page_bounds _ Hv); lia).
  apply wp_bind, wp_gets. replace (va - va0) with (va mod PGSIZE) by lia.
  set (n := Z.min (PGSIZE - va mod PGSIZE) len). assert (Hn : 0 < n ≤ len) by lia.
  rewrite u64_small by (unfold PGSIZE in *; lia).
  replace (Z.to_nat len) with (Z.to_nat n + Z.to_nat (len - n))%nat by lia.
  rewrite uread_app, (uread_page s root va (Z.to_nat n) w) by (done || lia). simpl.
  destruct (decide (n = len)) as [->|].
  - rewrite Z.sub_diag. destruct fuel; simpl; by rewrite app_nil_r.
  - replace (va0 + PGSIZE) with (va + Z.of_nat (Z.to_nat n)) by lia.
    eapply wp_mono; [apply IH; lia|]. intros r s' [-> Hr]. split; [done|].
    destruct (uread s root _ _); simpl; [|done]. by rewrite Hr, app_assoc.
Qed.
End Ucopy.
