(* ===== verification/Freewalk.v ===== *)
(** * Freeing page tables and address spaces (kernel/vm.c, kernel/proc.c)

    [freewalk] gives back every page of a tree whose leaf entries are clear, and
    [proc_freepagetable] everything that an address space holds. *)

From stdpp Require Import base numbers list strings.
From S2P Require Import Prelude Str Layout Kalloc Vm PageTable Uvm Ucopy.
Local Open Scope Z_scope.

(** ** The pages of a tree *)

#[local] Opaque seqZ.

(** The page-table pages of the tree of depth [d] at [t]. *)
Fixpoint subnodes (m : Z → Z) (d : nat) (t : Z) : list Z :=
  match d with
  | O => []
  | S d' =>
      t :: concat ((λ i, match next_table m t i with Some t' => subnodes m d' t' | None => [] end) <$> seqZ 0 512)
  end.

(** The ones below the entries [ids] of a page. *)
Definition below (m : Z → Z) (d : nat) (t : Z) (ids : list Z) : list Z :=
  concat ((λ i, match next_table m t i with Some t' => subnodes m d t' | None => [] end) <$> ids).

(** Valid entries lead to tables, down to pages without any. *)
Fixpoint clear (m : Z → Z) (d : nat) (t : Z) : Prop :=
  match d with
  | O => False
  | S d' => ∀ i t', 0 ≤ i < 512 → next_table m t i = Some t' → inner_pte (load64 m (t + 8 * i)) ∧ clear m d' t'
  end.

Lemma below_cons m d t i ids :
  below m d t (i :: ids) = match next_table m t i with Some t' => subnodes m d t' | None => [] end ++ below m d t ids.
Proof. done. Qed.

Lemma elem_below m d t ids x :
  x ∈ below m d t ids ↔ ∃ i t', i ∈ ids ∧ next_table m t i = Some t' ∧ x ∈ subnodes m d t'.
Proof.
  induction ids as [|i ids IH]; [split; [by intros ?%elem_of_nil | by intros (? & ? & ?%elem_of_nil & _)]|].
  rewrite below_cons, elem_of_app, IH. split.
  - intros [H|(j & t' & Hj & E & H)].
    + destruct (next_table m t i) as [t'|] eqn:E; [|by apply elem_of_nil in H]. exists i, t'. by split; [left|].
    + exists j, t'. by split; [right|].
  - intros (j & t' & [->|Hj]%elem_of_cons & E & H); [left; by rewrite E | right; eauto].
Qed.

Lemma seqZ_range i : i ∈ seqZ 0 512 ↔ 0 ≤ i < 512.
Proof. rewrite elem_of_seqZ. lia. Qed.

(** The pages are the nodes. *)
Lemma elem_subnodes m d t x :
  x ∈ subnodes m (S d) t ↔ ∃ p, (length p ≤ d)%nat ∧ Forall (λ i, 0 ≤ i < 512) p ∧ node m t p = Some x.
Proof.
  revert t. induction d as [|d IH]; intros t.
  - cbn [subnodes]. rewrite elem_of_cons. split.
    + intros [->|H]; [exists []; by split_and!; [simpl; lia | constructor |]|].
      apply (elem_below m 0 t) in H as (? & ? & _ & _ & H). by apply elem_of_nil in H.
    + intros ([|i p] & Hl & _ & E); simpl in *; [left; congruence | lia].
  - change (subnodes m (S (S d)) t) with (t :: below m (S d) t (seqZ 0 512)). rewrite elem_of_cons, elem_below. split.
    + intros [->|(i & t' & Hi & E & H)]; [exists []; by split_and!; [simpl; lia | constructor |]|].
      apply IH in H as (p & Hl & Hf & En). exists (i :: p). split; [simpl; lia|].
      rewrite Forall_cons, <- seqZ_range. split; [done|]. simpl. by rewrite E.
    + intros ([|i p] & Hl & Hf & E); simpl in *; [left; congruence|]. right.
      apply Forall_cons in Hf as [Hi Hf]. destruct (next_table m t i) as [t'|] eqn:Et; [|done].
      exists i, t'. rewrite seqZ_range. split; [done|]. split; [done|]. apply IH. exists p. by split_and!; [lia|..].
Qed.

Lemma NoDup_concat_fmap (f : Z → list Z) ids :
  NoDup ids → (∀ i, i ∈ ids → NoDup (f i)) → (∀ i j x, i ∈ ids → j ∈ ids → x ∈ f i → x ∈ f j → i = j) → NoDup (concat (f <$> ids)).
Proof.
  induction 1 as [|i ids Hi Hn IH]; intros Hf Hd; [constructor|]. rewrite fmap_cons. simpl. apply NoDup_app. split; [apply Hf; by left|]. split.
  - intros x Hx Hx'. apply list_elem_of_In, in_concat in Hx' as (l & Hl & Hxl).
    apply list_elem_of_In, list_elem_of_fmap in Hl as (j & -> & Hj). apply list_elem_of_In in Hxl.
    assert (i = j) as -> by (apply (Hd i j x); [by left | by right | done | done]). done.
  - apply IH; [intros; apply Hf; by right|]. intros j k x Hj Hk. apply Hd; by right.
Qed.

Lemma NoDup_subnodes m d t :
  (∀ p q x, (length p ≤ d)%nat → (length q ≤ d)%nat → Forall (λ i, 0 ≤ i < 512) p → Forall (λ i, 0 ≤ i < 512) q →
    node m t p = Some x → node m t q = Some x → p = q) → NoDup (subnodes m (S d) t).
Proof.
  revert t. induction d as [|d IH]; intros t Hi.
  - cbn [subnodes]. apply NoDup_cons. split.
    + intros H. apply (elem_below m 0 t) in H as (? & ? & _ & _ & H). by apply elem_of_nil in H.
    + apply NoDup_concat_fmap; [apply NoDup_seqZ| |]; intros i; destruct (next_table m t i); try constructor; by intros ? ? ? ? ?%elem_of_nil.
  - change (subnodes m (S (S d)) t) with (t :: below m (S d) t (seqZ 0 512)). apply NoDup_cons. split.
    + intros (i & t' & Hr & E & H)%elem_below. apply elem_subnodes in H as (p & Hl & Hf & En).
      discriminate (Hi (i :: p) [] t); [simpl; lia | simpl; lia | by apply Forall_cons; rewrite <- seqZ_range | constructor | simpl; by rewrite E | done].
    + apply NoDup_concat_fmap; [apply NoDup_seqZ| |].
      * intros i Hr. destruct (next_table m t i) as [t'|] eqn:E; [|constructor]. apply IH. intros p q x Hp Hq Fp Fq Ep Eq.
        assert (i :: p = i :: q) as [= ->]; [|done]. apply seqZ_range in Hr.
        apply (Hi _ _ x); [simpl; lia | simpl; lia | by constructor | by constructor | simpl; by rewrite E | simpl; by rewrite E].
      * intros i j x Hr Hr' Hx Hx'. apply seqZ_range in Hr, Hr'.
        destruct (next_table m t i) as [ti|] eqn:Ei; [|by apply elem_of_nil in Hx]. destruct (next_table m t j) as [tj|] eqn:Ej; [|by apply elem_of_nil in Hx'].
        apply elem_subnodes in Hx as (p & Hp & Fp & Ep). apply elem_subnodes in Hx' as (q & Hq & Fq & Eq).
        assert (i :: p = j :: q) as [= ? ?]; [|done].
        apply (Hi _ _ x); [simpl; lia | simpl; lia | by constructor | by constructor | simpl; by rewrite Ei | simpl; by rewrite Ej].
Qed.

(** A tree whose pages keep their bytes. *)
Lemma subnodes_ext m m' d t :
  (∀ x, x ∈ subnodes m d t → same_page m m' x) → subnodes m' d t = subnodes m d t ∧ (clear m d t → clear m' d t).
Proof.
  revert t. induction d as [|d IH]; intros t Hs; [done|].
  assert (Ht : same_page m m' t) by (apply Hs; by left).
  assert (Hc : ∀ i t', 0 ≤ i < 512 → next_table m t i = Some t' →
    subnodes m' d t' = subnodes m d t' ∧ (clear m d t' → clear m' d t')).
  { intros i t' Hi E. apply IH. intros x Hx. apply Hs. right. apply (elem_below m d t). exists i, t'. by rewrite seqZ_range. }
  split.
  - cbn [subnodes]. f_equal. f_equal. apply list_fmap_ext. intros k i Hi.
    assert (0 ≤ i < 512) by (apply seqZ_range; by eapply list_elem_of_lookup_2).
    rewrite (next_table_ext m m' t i Ht) by done. destruct (next_table m t i) as [t'|] eqn:E; [|done].
    by apply (Hc i).
  - intros H i t' Hi E. rewrite (next_table_ext m m' t i Ht) in E by done.
    destruct (H i t' Hi E) as [Hin Hcl]. rewrite (same_page_load m m' t i Ht) by done. split; [done|]. by apply (Hc i).
Qed.

Lemma below_ext m m' d t ids :
  (∀ i, i ∈ ids → next_table m' t i = next_table m t i) → (∀ x, x ∈ below m d t ids → same_page m m' x) →
  below m' d t ids = below m d t ids.
Proof.
  intros He Hs. unfold below. f_equal. apply list_fmap_ext. intros k i Hi. apply list_elem_of_lookup_2 in Hi.
  rewrite He by done. destruct (next_table m t i) as [t'|] eqn:E; [|done]. apply subnodes_ext.
  intros x Hx. apply Hs, elem_below. eauto.
Qed.

(** ** [freewalk] *)

Section Freewalk.
Context {L : Linker} {LOk : LinkerOk L}.

(** The pages [N] have been freed, and no other page changed, except maybe those of [X]. *)
Record freed (s s' : kstate) (N X : list Z) : Prop := Freed {
  fd_rc : ∀ x, valid_page x → rc s' x = if bool_decide (x ∈ N) then 0 else rc s x;
  fd_frame : ∀ x, valid_page x → x ∉ N → x ∉ X → same_page (mem s) (mem s') x;
}.

Lemma freed_refl s X : freed s s [] X.
Proof. split; [intros x _; by rewrite bool_decide_false by apply not_elem_of_nil | by intros x _ _ _ b _]. Qed.

Lemma freed_trans s1 s2 s3 N1 N2 X : freed s1 s2 N1 X → freed s2 s3 N2 X → freed s1 s3 (N1 ++ N2) X.
Proof.
  intros [R1 F1] [R2 F2]. split.
  - intros x Hx. rewrite R2, R1 by done. rewrite (bool_decide_ext (x ∈ N1 ++ N2) (x ∈ N1 ∨ x ∈ N2)) by apply elem_of_app.
    repeat case_bool_decide; tauto.
  - intros x Hx Hn HX b Hb. rewrite elem_of_app in Hn. rewrite (F2 x), (F1 x) by tauto. done.
Qed.

Lemma freed_more s s' N X X' : X ⊆ X' → freed s s' N X → freed s s' N X'.
Proof. intros H [R F]. split; [done|]. intros x Hx Hn HX. apply F; [done | done|]. intros ?. by apply HX, H. Qed.

(** Clearing an entry of the page [t], in use. *)
Lemma clear_entry s l t i :
  kinv s l → valid_page t → 0 < rc s t → 0 ≤ i < 512 →
  let s' := set_mem (λ m, store64 m (t + 8 * i) 0) s in kinv s' l ∧ freed s s' [] [t].
Proof.
  intros Hk Ht Hr Hi s'.
  assert (Hs : ∀ x, valid_page x → x ≠ t → same_page (mem s) (mem s') x).
  { intros x [Hx _] Hne. apply same_page_store; [apply Ht | done..]. }
  split.
  - apply kinv_mem; [done|]. intros x Hx. apply Hs; [by apply (ki_valid _ _ _ Hk)|].
    intros ->. by destruct (kinv_used s l t).
  - split; [intros x _; by rewrite bool_decide_false by apply not_elem_of_nil|].
    intros x Hx _ Hne. apply Hs; [done|]. intros ->. apply Hne. by left.
Qed.

Definition freewalks (rec : Z → M kstate unit) (d : nat) : Prop := ∀ t s l,
  kinv s l → clear (mem s) d t → NoDup (subnodes (mem s) d t) →
  (∀ x, x ∈ subnodes (mem s) d t → valid_page x ∧ rc s x = 1) →
  wp (rec t) s (λ _ s', (∃ l', kinv s' l') ∧ freed s s' (subnodes (mem s) d t) []).

(** Going on with the entries from [i] on when [N] has been freed: the pages below them are
    as they were. *)
Lemma freewalk_next s s1 d t i n N :
  freed s s1 N [t] → 0 < rc s t → valid_page t → 0 ≤ i → i + n = 512 →
  NoDup (t :: N ++ below (mem s) d t (seqZ i n)) →
  (∀ x, x ∈ below (mem s) d t (seqZ i n) → valid_page x ∧ rc s x = 1) →
  (∀ j, i ≤ j < 512 → load64 (mem s1) (t + 8 * j) = load64 (mem s) (t + 8 * j)) →
  (∀ j t', i ≤ j < 512 → next_table (mem s) t j = Some t' → inner_pte (load64 (mem s) (t + 8 * j)) ∧ clear (mem s) d t') →
  below (mem s1) d t (seqZ i n) = below (mem s) d t (seqZ i n) ∧ 0 < rc s1 t ∧
  (∀ x, x ∈ below (mem s) d t (seqZ i n) → valid_page x ∧ rc s1 x = 1) ∧
  (∀ j t', i ≤ j < 512 → next_table (mem s1) t j = Some t' → inner_pte (load64 (mem s1) (t + 8 * j)) ∧ clear (mem s1) d t').
Proof.
  intros F Hr Ht Hi Hn Hd Hv Hrow Hc.
  apply NoDup_cons in Hd as [Htn Hd]. rewrite elem_of_app in Htn. apply NoDup_app in Hd as (_ & Hdis & Hd2).
  assert (Hsame : ∀ x, x ∈ below (mem s) d t (seqZ i n) → same_page (mem s) (mem s1) x ∧ valid_page x ∧ rc s1 x = 1).
  { intros x Hx. destruct (Hv x Hx) as [Hvx Hrx]. assert (x ∉ N) by (intros H; by apply (Hdis x)).
    split; [apply (fd_frame _ _ _ _ F); [done | done | intros ->%list_elem_of_singleton; tauto]|].
    by rewrite (fd_rc _ _ _ _ F), bool_decide_false. }
  assert (Hent : ∀ j, i ≤ j < 512 → next_table (mem s1) t j = next_table (mem s) t j).
  { intros j Hj. unfold next_table. by rewrite Hrow. }
  split; [|split; [|split]].
  - apply below_ext; [|intros x Hx; by apply Hsame]. intros j Hj%elem_of_seqZ. apply Hent. lia.
  - rewrite (fd_rc _ _ _ _ F), bool_decide_false by tauto. done.
  - intros x Hx. by apply Hsame.
  - intros j t' Hj E. rewrite Hent in E by done. destruct (Hc j t' Hj E) as [H1 H2]. rewrite Hrow by done. split; [done|].
    apply (subnodes_ext (mem s)); [|done]. intros x Hx. apply Hsame, elem_below. exists j, t'. rewrite elem_of_seqZ. by split; [lia|].
Qed.

Lemma freewalk_loop_wp rec d t n i s l :
  freewalks rec d → kinv s l → valid_page t → 0 < rc s t → 0 ≤ i → i + Z.of_nat n = 512 →
  (∀ j t', i ≤ j < 512 → next_table (mem s) t j = Some t' → inner_pte (load64 (mem s) (t + 8 * j)) ∧ clear (mem s) d t') →
  NoDup (t :: below (mem s) d t (seqZ i (Z.of_nat n))) →
  (∀ x, x ∈ below (mem s) d t (seqZ i (Z.of_nat n)) → valid_page x ∧ rc s x = 1) →
  wp (freewalk_loop rec t n i) s (λ _ s', (∃ l', kinv s' l') ∧ freed s s' (below (mem s) d t (seqZ i (Z.of_nat n))) [t]).
Proof.
  intros Hrec. revert i s l. induction n as [|n IH]; intros i s l Hk Ht Hr Hi Hn Hc Hd Hv.
  { apply wp_ret. split; [eauto|]. change (Z.of_nat 0) with 0. rewrite seqZ_nil by lia. apply freed_refl. }
  rewrite seqZ_cons in * by lia. replace (Z.pred (Z.of_nat (S n))) with (Z.of_nat n) in * by lia.
  rewrite below_cons in *. replace (Z.succ i) with (i + 1) in * by lia.
  cbn [freewalk_loop]. apply wp_bind, wp_gets. rewrite land_V.
  set (N := match next_table (mem s) t i with Some t' => subnodes (mem s) d t' | None => [] end) in *.
  assert (Hgo : ∀ s1 l1, kinv s1 l1 → freed s s1 N [t] →
    (∀ j, i + 1 ≤ j < 512 → load64 (mem s1) (t + 8 * j) = load64 (mem s) (t + 8 * j)) →
    wp (freewalk_loop rec t n (i + 1)) s1 (λ _ s', (∃ l', kinv s' l') ∧ freed s s' (N ++ below (mem s) d t (seqZ (i + 1) (Z.of_nat n))) [t])).
  { intros s1 l1 Hk1 F Hrow.
    destruct (freewalk_next s s1 d t (i + 1) (Z.of_nat n) N F Hr Ht ltac:(lia) ltac:(lia) Hd) as (Eb & Hr1 & Hv1 & Hc1);
      [intros x Hx; apply Hv; rewrite elem_of_app; tauto | done | intros j t' Hj; apply Hc; lia|].
    eapply wp_mono; [apply (IH (i + 1) s1 l1); try done; try lia; rewrite Eb; [|done]|].
    - apply NoDup_cons in Hd as [H1 H2]. rewrite elem_of_app in H1. apply NoDup_app in H2 as (_ & _ & H2). apply NoDup_cons. tauto.
    - intros _ s2 [Hk2 F2]. rewrite Eb in F2. split; [done|]. by eapply freed_trans. }
  pose proof (eq_refl N) as EN. unfold N at 2 in EN. unfold next_table in EN.
  destruct (Z.testbit (load64 (mem s) (t + 8 * i)) 0) eqn:Ev.
  - destruct (Hc i (PTE2PA (load64 (mem s) (t + 8 * i)))) as [Hin Hcl]; [lia | unfold next_table; by rewrite Ev|].
    unfold inner_pte in Hin. rewrite (proj2 (Z.eqb_eq _ 0) Hin). cbn [andb].
    apply wp_bind, wp_bind. eapply wp_mono; [apply (Hrec _ s l); [done | done | |]|].
    { rewrite <- EN. apply NoDup_cons in Hd as [_ Hd]. by apply NoDup_app in Hd as (? & _). }
    { intros x Hx. rewrite <- EN in Hx. apply Hv. rewrite elem_of_app. tauto. }
    intros _ s1 [[l1 Hk1] F1]. rewrite <- EN in F1. apply wp_modify.
    assert (Htn : t ∉ N) by (apply NoDup_cons in Hd as [H _]; rewrite elem_of_app in H; tauto).
    assert (Hr1 : 0 < rc s1 t) by (by rewrite (fd_rc _ _ _ _ F1), bool_decide_false).
    destruct (clear_entry s1 l1 t i Hk1 Ht Hr1 ltac:(lia)) as [Hk2 F2]. apply (Hgo _ l1); [done| |].
    + rewrite <- (app_nil_r N). eapply freed_trans; [|exact F2]. eapply freed_more; [|exact F1]. apply list_subseteq_nil.
    + intros j Hj. simpl. rewrite load64_store64_ne by lia. apply same_page_load; [|lia].
      apply (fd_frame _ _ _ _ F1); [done | done | apply not_elem_of_nil].
  - cbn [andb]. apply wp_bind, wp_ret. apply (Hgo s l); [done | rewrite EN; apply freed_refl | done].
Qed.

Lemma freewalk_wp d : freewalks (freewalk d) d.
Proof.
  induction d as [|d IH]; intros t s l Hk Hc Hd Hv; [done|]. cbn [freewalk].
  change (subnodes (mem s) (S d) t) with (t :: below (mem s) d t (seqZ 0 512)) in *.
  destruct (Hv t) as [Ht Hr]; [by left|].
  apply wp_bind. eapply wp_mono; [apply (freewalk_loop_wp _ d t 512 0 s l IH); try done; try lia|].
  - intros x Hx. apply Hv. by right.
  - intros _ s1 [[l1 Hk1] F]. change (Z.of_nat 512) with 512 in F. apply NoDup_cons in Hd as [Htn _].
    assert (Hr1 : rc s1 t = 1) by (by rewrite (fd_rc _ _ _ _ F), bool_decide_false).
    eapply wp_mono; [apply (kfree_wp s1 l1); [done | done | lia]|]. intros _ s2 (R1 & R2 & M2 & K2).
    rewrite (proj2 (Z.eqb_eq _ 1) Hr1) in K2. split; [eauto|]. split.
    + intros x Hx. destruct (decide (x = t)) as [->|Hne].
      * rewrite bool_decide_true by (by left). lia.
      * rewrite R2, (fd_rc _ _ _ _ F) by done. apply (f_equal (λ b : bool, if b then 0 else rc s x)), bool_decide_ext.
        rewrite elem_of_cons. tauto.
    + intros x Hx Hn _ b Hb. rewrite elem_of_cons in Hn. rewrite M2 by (eapply page_disjoint; [apply Ht | apply Hx | | done]; intros ->; tauto).
      apply (fd_frame _ _ _ _ F x); [done | tauto | intros ->%list_elem_of_singleton; tauto | done].
Qed.

(** ** Trees without mappings *)

Lemma va_indices i k j : 0 ≤ i < 256 → 0 ≤ k < 512 → 0 ≤ j < 512 →
  let va := ((i * 512 + k) * 512 + j) * 4096 in 0 ≤ va < MAXVA ∧ PX 2 va = i ∧ PX 1 va = k ∧ PX 0 va = j.
Proof.
  intros Hi Hk Hj va. change MAXVA with 274877906944. rewrite !PX_spec by lia.
  change (2 ^ (12 + 9 * 2)) with 1073741824. change (2 ^ (12 + 9 * 1)) with 2097152. change (2 ^ (12 + 9 * 0)) with 4096.
  unfold va. lia.
Qed.

(** A tree that maps nothing can be freed by [freewalk]. *)
Lemma empty_clear s root :
  pt_wf s root → (∀ va, 0 ≤ va < MAXVA → Z.testbit (pte_of (mem s) root va) 0 = false) →
  clear (mem s) 3 root ∧ NoDup (subnodes (mem s) 3 root) ∧ ∀ x, x ∈ subnodes (mem s) 3 root ↔ pt_node s root x.
Proof.
  intros Hw He. split; [|split].
  - intros i t1 Hi E1. assert (i < 256).
    { destruct (Z.ltb_spec i 256); [done|]. by rewrite (pw_low _ _ Hw i) in E1 by lia. }
    assert (N1 : node (mem s) root [i] = Some t1) by (simpl; by rewrite E1).
    split; [apply (pw_inner _ _ Hw [] root i); [apply vpath_nil | simpl; lia | done | done | by rewrite E1]|].
    intros k t2 Hk E2. assert (N2 : node (mem s) root [i; k] = Some t2) by (simpl; by rewrite E1, E2).
    split; [apply (pw_inner _ _ Hw [i] t1 k); [by apply vpath_1 | simpl; lia | done | done | by rewrite E2]|].
    intros j t3 Hj E3. destruct (va_indices i k j) as (Hva & P2 & P1 & P0); [lia..|].
    specialize (He _ Hva). unfold pte_of, slot, idx in He. rewrite P2, P1, P0, N2 in He. cbn [fmap option_fmap option_map] in He.
    unfold next_table in E3. by rewrite He in E3.
  - apply NoDup_subnodes. intros p q x Hp Hq Fp Fq. apply (pw_inj _ _ Hw); by split.
  - intros x. rewrite elem_subnodes. split; [intros (p & Hl & Hf & E) | intros (p & [Hl Hf] & E)]; exists p; by repeat split.
Qed.

Lemma freewalk_tree_wp s l root :
  kinv s l → pt_wf s root → (∀ va, 0 ≤ va < MAXVA → Z.testbit (pte_of (mem s) root va) 0 = false) →
  wp (freewalk 3 root) s (λ _ s', (∃ l', kinv s' l') ∧
    (∀ x, pt_node s root x → rc s' x = 0) ∧
    (∀ x, valid_page x → ¬ pt_node s root x → rc s' x = rc s x ∧ same_page (mem s) (mem s') x)).
Proof.
  intros Hk Hw He. destruct (empty_clear s root Hw He) as (Hc & Hd & Hn).
  eapply wp_mono; [apply (freewalk_wp 3 root s l Hk Hc Hd)|].
  - intros x (p & Hp & E)%Hn. by apply (pw_page _ _ Hw p).
  - intros _ s' [Hk' [R F]]. split; [done|]. split.
    + intros x Hx. pose proof Hx as (p & Hp & E). destruct (pw_page _ _ Hw p x Hp E) as [Hv _].
      rewrite R, bool_decide_true by (done || by apply Hn). done.
    + intros x Hv Hx. split; [|apply F; [done | by rewrite Hn | apply not_elem_of_nil]].
      by rewrite R, bool_decide_false by (done || by rewrite Hn).
Qed.
End Freewalk.
