(* ===== verification/Aspace.v ===== *)
(** * Building an address space (kernel/vm.c, kernel/proc.c)

    What exec and fork do between the creation of a page table and its use or its end:
    from the memory [s0] on, the kernel has acquired the pages of a tree and some other
    pages, and has left alone everything that was in use. *)

From stdpp Require Import base numbers list strings.
From S2P Require Import Prelude Str Layout Kalloc Vm PageTable Uvm Ucopy Freewalk.
Local Open Scope Z_scope.

Section Aspace.
Context {L : Linker} {LOk : LinkerOk L}.

(** ** What has been acquired *)

(** Since [s0] the pages of the tree [root] and the pages [P] have been taken, each with one
    reference; pages that were in use have their bytes and references. *)
Record taken_from (s0 s : kstate) (root : Z) (P : list Z) : Prop := TakenFrom {
  tk_inv0 : ∃ l, kinv s0 l;
  tk_inv : ∃ l, kinv s l;
  tk_wf : pt_wf s root;
  tk_nodup : NoDup P;
  tk_page : ∀ x, x ∈ P → valid_page x ∧ rc s x = 1 ∧ rc s0 x = 0 ∧ ¬ pt_node s root x;
  tk_node : ∀ x, pt_node s root x → rc s0 x = 0;
  tk_keep : ∀ x, valid_page x → 0 < rc s0 x → rc s x = rc s0 x ∧ same_page (mem s0) (mem s) x;
  tk_leak : ∀ x, valid_page x → rc s0 x = 0 → rc s x = 0 ∨ x ∈ P ∨ pt_node s root x;
}.

(** Everything is as it was, but for the contents of free pages. *)
Definition restored (s0 s : kstate) : Prop :=
  (∃ l, kinv s l) ∧ (∀ x, valid_page x → rc s x = rc s0 x) ∧
  (∀ x, valid_page x → 0 < rc s0 x → same_page (mem s0) (mem s) x).

(** An update of the tree. *)
Lemma taken_upd f s0 s s' l root P :
  taken_from s0 s root P → pt_upd f s s' root → kinv s' l →
  taken_from s0 s' root P ∧ ∀ x, x ∈ P → same_page (mem s) (mem s') x.
Proof.
  intros T U Hk. assert (Hp : ∀ x, x ∈ P → rc s' x = 1 ∧ same_page (mem s) (mem s') x ∧ ¬ pt_node s' root x).
  { intros x Hx. destruct (tk_page _ _ _ _ T x Hx) as (Hv & Hr & _ & Hn). split; [by rewrite (pu_rc _ _ _ _ U) by (done || lia)|].
    split; [apply (pu_frame _ _ _ _ U); [done | lia | done]|]. intros Hx'. destruct (pu_new _ _ _ _ U x Hx'); [done | lia]. }
  split; [|intros x Hx; by apply Hp]. split; [apply T | eauto | apply U | apply T | | | |].
  - intros x Hx. destruct (tk_page _ _ _ _ T x Hx) as (? & _ & ? & _). by destruct (Hp x Hx) as (? & _ & ?).
  - intros x Hx. destruct (pu_new _ _ _ _ U x Hx) as [Hx'|Hx']; [by apply (tk_node _ _ _ _ T)|].
    pose proof Hx as (p & Hpp & E). destruct (pw_page _ _ (pu_wf _ _ _ _ U) p x Hpp E) as [Hv _].
    destruct (tk_inv0 _ _ _ _ T) as [l0 Hk0]. pose proof (kinv_nonneg s0 l0 x Hk0 Hv).
    destruct (decide (rc s0 x = 0)); [done|]. destruct (tk_keep _ _ _ _ T x Hv) as [Hr _]; lia.
  - intros x Hv H0. destruct (tk_keep _ _ _ _ T x Hv H0) as [Hr Hs]. split; [rewrite (pu_rc _ _ _ _ U); [done | done | lia]|].
    intros b Hb. rewrite (pu_frame _ _ _ _ U x Hv); [by apply Hs | lia | | done].
    intros Hx. pose proof (tk_node _ _ _ _ T x Hx). lia.
  - intros x Hv H0. destruct (tk_leak _ _ _ _ T x Hv H0) as [Hr|[Hx|Hx]].
    + destruct (pu_leak _ _ _ _ U x Hv Hr) as [|[_ ?]]; auto.
    + auto.
    + right. right. destruct Hx as (p & Hpp & E). exists p. split; [done|]. by apply (pu_node _ _ _ _ U).
Qed.

(** A page of one's own is written. *)
Lemma taken_write s0 s root P x f :
  taken_from s0 s root P → x ∈ P → (∀ b, b < x ∨ x + PGSIZE ≤ b → f (mem s) b = mem s b) →
  taken_from s0 (set_mem f s) root P ∧ same_tree s (set_mem f s) root ∧
  (∀ y, valid_page y → y ≠ x → same_page (mem s) (mem (set_mem f s)) y).
Proof.
  intros T Hx Hf. destruct (tk_inv _ _ _ _ T) as [l Hk]. destruct (tk_page _ _ _ _ T x Hx) as (Hv & Hr & H0 & Hn).
  destruct (write_user s l root x f Hk (tk_wf _ _ _ _ T) Hv ltac:(lia) Hn Hf) as (Hk' & St & Hs).
  split; [|done]. assert (HN : ∀ y, pt_node (set_mem f s) root y ↔ pt_node s root y) by (intros y; by apply same_tree_node).
  split; [apply T | eauto | apply St | apply T | | | |].
  - intros y Hy. rewrite HN. by apply (tk_page _ _ _ _ T).
  - intros y. rewrite HN. apply (tk_node _ _ _ _ T).
  - intros y Hvy Hy. destruct (tk_keep _ _ _ _ T y Hvy Hy) as [Hry Hsy]. split; [done|]. intros b Hb.
    rewrite (Hs y) by (done || intros ->; lia). by apply Hsy.
  - intros y Hvy Hy. rewrite HN. by apply (tk_leak _ _ _ _ T).
Qed.

(** A page more. *)
Lemma taken_alloc s0 s l root P :
  taken_from s0 s root P → kinv s l →
  wp kalloc s (λ q s', (q = 0 ∧ s' = s ∧ l = []) ∨
    (valid_page q ∧ (∃ l', l = q :: l' ∧ kinv s' l') ∧ taken_from s0 s' root (P ++ [q]) ∧ same_tree s s' root ∧
     ∀ x, x ∈ P → same_page (mem s) (mem s') x)).
Proof.
  intros T Hk. eapply wp_mono; [by apply kalloc_wp|]. intros q s' Hp.
  destruct l as [|q' l]; [left; by destruct Hp as [-> ->]|]. destruct Hp as (<- & Hk' & Hr & Hro & Hm). right.
  assert (Hq : valid_page q) by (apply (ki_valid _ _ _ Hk); by left). assert (Hq0 : rc s q = 0) by (apply (ki_free _ _ _ Hk); by left).
  assert (Hs : ∀ x, valid_page x → x ≠ q → rc s' x = rc s x ∧ same_page (mem s) (mem s') x).
  { intros x Hx Hne. split; [by apply Hro|]. rewrite Hm. apply same_page_mset; [apply Hq | apply Hx | done]. }
  pose proof (alloc_tree s s' l q root Hk (tk_wf _ _ _ _ T) Hs) as St.
  assert (HN : ∀ y, pt_node s' root y ↔ pt_node s root y) by (intros y; by apply same_tree_node).
  assert (Hnq : ¬ pt_node s root q) by (eapply free_not_node; [done | apply T]).
  assert (HP : ∀ x, x ∈ P → x ≠ q) by (intros x Hx ->; destruct (tk_page _ _ _ _ T q Hx) as (_ & ? & _); lia).
  assert (H0q : rc s0 q = 0).
  { destruct (tk_inv0 _ _ _ _ T) as [l0 Hk0]. pose proof (kinv_nonneg s0 l0 q Hk0 Hq).
    destruct (decide (rc s0 q = 0)); [done|]. destruct (tk_keep _ _ _ _ T q Hq) as [H1 _]; lia. }
  split; [done|]. split; [eauto|]. split; [|split; [done|intros x Hx; apply Hs; [by apply (tk_page _ _ _ _ T) | by apply HP]]].
  split; [apply T | eauto | apply St | | | | |].
  - apply NoDup_app. split; [apply T|]. split; [|apply NoDup_singleton]. intros x Hx ->%list_elem_of_singleton. by destruct (HP q Hx).
  - intros x [Hx| ->%list_elem_of_singleton]%elem_of_app; [|by rewrite HN].
    rewrite HN. destruct (tk_page _ _ _ _ T x Hx) as (Hv & ? & ? & ?). split; [done|]. by rewrite (proj1 (Hs x Hv (HP x Hx))).
  - intros x. rewrite HN. apply (tk_node _ _ _ _ T).
  - intros x Hv Hx. assert (x ≠ q) by (intros ->; lia). destruct (tk_keep _ _ _ _ T x Hv Hx) as [H1 H2].
    destruct (Hs x Hv) as [H3 H4]; [done|]. split; [congruence|]. intros b Hb. rewrite (H4 b Hb). by apply H2.
  - intros x Hv Hx. rewrite HN, elem_of_app, list_elem_of_singleton. destruct (decide (x = q)) as [->|Hne]; [tauto|].
    destruct (tk_leak _ _ _ _ T x Hv Hx) as [H1|[H1|H1]]; [left; by rewrite (proj1 (Hs x Hv Hne)) | tauto..].
Qed.

Lemma cnt_nodup ws x : NoDup (PTE2PA <$> ws) → cnt ws x = if bool_decide (x ∈ PTE2PA <$> ws) then 1 else 0.
Proof.
  induction ws as [|w ws IH]; [done|]. rewrite fmap_cons. intros [Hw Hn]%NoDup_cons. cbn [cnt]. rewrite IH by done.
  destruct (Z.eqb_spec (PTE2PA w) x) as [<-|Hne].
  - by rewrite bool_decide_false, bool_decide_true by (done || by left).
  - apply (f_equal (λ b : bool, if b then 1 else 0)), bool_decide_ext. rewrite elem_of_cons. split; [by right|]. intros [->|]; done.
Qed.

(** Giving up the pages [Q]: the others stay. *)
Lemma taken_drop s0 s s' l root P Q :
  taken_from s0 s root (P ++ Q) → kinv s' l → pt_wf s' root → (∀ x, pt_node s' root x ↔ pt_node s root x) →
  (∀ x, valid_page x → rc s' x = if bool_decide (x ∈ Q) then 0 else rc s x) →
  (∀ x, valid_page x → 0 < rc s' x → ¬ pt_node s root x → same_page (mem s) (mem s') x) →
  taken_from s0 s' root P ∧ ∀ x, x ∈ P → same_page (mem s) (mem s') x.
Proof.
  intros T Hk Hw HN Hr Hf. pose proof (tk_nodup _ _ _ _ T) as (ND1 & ND2 & ND3)%NoDup_app.
  assert (HPQ : ∀ x, x ∈ P → x ∈ P ++ Q) by (intros x; rewrite elem_of_app; tauto).
  assert (Hp : ∀ x, x ∈ P → rc s' x = 1 ∧ same_page (mem s) (mem s') x).
  { intros x Hx. destruct (tk_page _ _ _ _ T x (HPQ x Hx)) as (Hv & H1 & _ & Hn).
    assert (E : rc s' x = 1) by (rewrite Hr, bool_decide_false by (done || by apply ND2); done).
    split; [done|]. apply Hf; [done | lia | done]. }
  assert (HQ : ∀ x, valid_page x → 0 < rc s0 x → x ∉ Q).
  { intros x Hv H0 Hx. destruct (tk_page _ _ _ _ T x) as (_ & _ & ? & _); [rewrite elem_of_app; tauto | lia]. }
  split; [|intros x Hx; by apply Hp]. split; [apply T | eauto | done | done | | | |].
  - intros x Hx. rewrite HN. destruct (tk_page _ _ _ _ T x (HPQ x Hx)) as (? & _ & ? & ?). by destruct (Hp x Hx).
  - intros x. rewrite HN. apply (tk_node _ _ _ _ T).
  - intros x Hv H0. destruct (tk_keep _ _ _ _ T x Hv H0) as [H1 H2].
    assert (E : rc s' x = rc s x) by (rewrite Hr, bool_decide_false by (done || by apply HQ); done).
    split; [congruence|]. intros b Hb. rewrite (Hf x Hv); [by apply H2 | lia | | done].
    intros Hx. pose proof (tk_node _ _ _ _ T x Hx). lia.
  - intros x Hv H0. rewrite HN, Hr by done. destruct (tk_leak _ _ _ _ T x Hv H0) as [H1|[H1|H1]]; [..|tauto].
    + left. by case_bool_decide.
    + apply elem_of_app in H1 as [H1|H1]; [tauto|]. left. by rewrite bool_decide_true.
Qed.

(** Freeing a page that is not mapped. *)
Lemma taken_kfree s0 s root P q :
  taken_from s0 s root (P ++ [q]) →
  wp (kfree q) s (λ _ s', taken_from s0 s' root P ∧ same_tree s s' root ∧ ∀ x, x ∈ P → same_page (mem s) (mem s') x).
Proof.
  intros T. destruct (tk_inv _ _ _ _ T) as [l Hk].
  destruct (tk_page _ _ _ _ T q) as (Hv & Hr & _ & Hn); [rewrite elem_of_app, list_elem_of_singleton; tauto|].
  eapply wp_mono; [apply (kfree_wp s l); [done | done | lia]|]. intros _ s' (R1 & R2 & M & K).
  rewrite (proj2 (Z.eqb_eq _ 1) Hr) in K.
  assert (Hs : ∀ x, valid_page x → x ≠ q → same_page (mem s) (mem s') x).
  { intros x Hx Hne b Hb. apply M. eapply page_disjoint; [apply Hv | apply Hx | congruence | done]. }
  pose proof (pt_same s s' root (tk_wf _ _ _ _ T)) as St.
  destruct St as (Hw & HN & HP).
  { intros x Hx. assert (x ≠ q) by (by intros ->). pose proof Hx as (p & Hp & E).
    destruct (pw_page _ _ (tk_wf _ _ _ _ T) p x Hp E) as [Hvx _]. split; [by apply Hs | by apply R2]. }
  destruct (taken_drop s0 s s' (q :: l) root P [q] T K Hw) as [T' HS].
  - intros x. by apply pt_node_same.
  - intros x Hx. destruct (decide (x = q)) as [->|Hne]; [rewrite bool_decide_true by (by left); lia|].
    rewrite bool_decide_false by (by intros ?%list_elem_of_singleton). by apply R2.
  - intros x Hx Hrx _. apply Hs; [done|]. intros ->. lia.
  - split; [done|]. by split.
Qed.

(** Unmapping and freeing pages. *)
Lemma taken_unmap s0 s s' l root P a ws :
  taken_from s0 s root (P ++ (PTE2PA <$> ws)) → kinv s' l → unmapped s s' root a ws true →
  taken_from s0 s' root P ∧ ∀ x, x ∈ P → same_page (mem s) (mem s') x.
Proof.
  intros T Hk [U1 U2 U3 U4 U5]. apply (taken_drop s0 s s' l root P (PTE2PA <$> ws)); try done.
  intros x Hv. pose proof (tk_nodup _ _ _ _ T) as (_ & _ & ND)%NoDup_app. rewrite U4, cnt_nodup by done.
  case_bool_decide as Hx; [|lia]. destruct (tk_page _ _ _ _ T x) as (_ & -> & _); [rewrite elem_of_app; tauto | done].
Qed.

(** Freeing the tree itself. *)
Lemma taken_freewalk s0 s root :
  taken_from s0 s root [] → (∀ va, 0 ≤ va < MAXVA → Z.testbit (pte_of (mem s) root va) 0 = false) →
  wp (freewalk 3 root) s (λ _ s', restored s0 s').
Proof.
  intros T He. destruct (tk_inv _ _ _ _ T) as [l Hk]. destruct (tk_inv0 _ _ _ _ T) as [l0 Hk0].
  eapply wp_mono; [by apply (freewalk_tree_wp s l root Hk (tk_wf _ _ _ _ T))|]. intros _ s' (Hk' & R1 & R2).
  assert (Hn : ∀ x, 0 < rc s0 x → ¬ pt_node s root x) by (intros x Hx Hn; pose proof (tk_node _ _ _ _ T x Hn); lia).
  split; [done|]. split.
  - intros x Hv. destruct (Z.ltb_spec 0 (rc s0 x)) as [H0|H0].
    + rewrite (proj1 (R2 x Hv (Hn x H0))). by apply (tk_keep _ _ _ _ T).
    + assert (E0 : rc s0 x = 0) by (pose proof (kinv_nonneg s0 l0 x Hk0 Hv); lia). rewrite E0.
      destruct (tk_leak _ _ _ _ T x Hv E0) as [H|[H|H]]; [|by apply elem_of_nil in H|by apply R1].
      destruct (decide (rc s' x = 0)) as [|Hne]; [done|].
      destruct (Z.eqb_spec (rc s x) (rc s' x)) as [|]; [congruence|]. exfalso. assert (Hx : ¬ pt_node s root x).
      { intros Hx. by rewrite (R1 x Hx) in Hne. }
      destruct (R2 x Hv Hx). congruence.
  - intros x Hv H0 b Hb. rewrite (proj2 (R2 x Hv (Hn x H0)) b Hb). by apply (tk_keep _ _ _ _ T x Hv H0).
Qed.

(** ** Entries of an address space *)

(** The entry [mappages] writes for the page [pa]. *)
Definition entry (pa perm : Z) : Z := Z.lor (Z.lor (PA2PTE pa) perm) PTE_V.

Lemma entry_page pa perm : 0 ≤ pa < 2 ^ 56 → pa mod PGSIZE = 0 → 0 ≤ perm < 1024 → PTE2PA (entry pa perm) = pa.
Proof.
  intros Hp Ha Hq. unfold entry. rewrite <- Z.lor_assoc. apply PTE2PA_PA2PTE; [done..|].
  change PTE_V with 1. apply (lor_bound perm 1 10); lia.
Qed.

Lemma entry_bit pa perm k : 0 ≤ pa < 2 ^ 56 → 0 ≤ k < 10 → Z.testbit (entry pa perm) k = Z.testbit perm k || (k =? 0).
Proof.
  intros Hp Hk. unfold entry. rewrite !Z.lor_spec, PA2PTE_testbit by done. change PTE_V with (2 ^ 0).
  rewrite Z.pow2_bits_eqb, (Z.eqb_sym 0) by lia. done.
Qed.

Lemma entry_leaf pa perm : 0 ≤ pa < 2 ^ 56 → Z.testbit perm 1 = true → leaf_pte (entry pa perm).
Proof.
  intros Hp Hq. split; [by rewrite entry_bit, orb_true_r by lia|]. intros E.
  apply (f_equal (λ z, Z.testbit z 1)) in E. unfold PTE_FLAGS in E. rewrite Z.land_spec, entry_bit, Hq in E by lia. done.
Qed.

(** The user pages [ws] from address 0 on, the trap frame and the trampoline at the top. *)
Definition space_pte (tf : Z) (ws : list Z) (va : Z) : Z :=
  if va / PGSIZE =? TRAMPOLINE / PGSIZE then entry lk_trampoline (Z.lor PTE_R PTE_X)
  else if va / PGSIZE =? TRAPFRAME / PGSIZE then entry tf (Z.lor PTE_R PTE_W)
  else default 0 (ws !! Z.to_nat (va / PGSIZE)).

Definition has_space (s : kstate) (root tf : Z) (ws : list Z) : Prop :=
  ∀ va, 0 ≤ va < MAXVA → pte_of (mem s) root va = space_pte tf ws va.

Lemma TRAMPOLINE_page : TRAMPOLINE / PGSIZE = 67108863.
Proof. reflexivity. Qed.

Lemma TRAPFRAME_page : TRAPFRAME / PGSIZE = 67108862.
Proof. reflexivity. Qed.

Lemma MAXVA_value : MAXVA = 274877906944.
Proof. reflexivity. Qed.

(** No more pages than there are. *)
Lemma length_page_range p n : length (page_range p n) = n.
Proof. revert p. induction n as [|n IH]; intros p; [done|]. cbn [page_range length]. by rewrite IH. Qed.

Lemma pages_bound P : NoDup P → (∀ x, x ∈ P → valid_page x) → Z.of_nat (length P) ≤ 32768.
Proof.
  intros Hn Hv. set (n := Z.to_nat 32768).
  assert (P ⊆+ page_range KERNBASE n) as Hs%submseteq_length.
  { apply NoDup_submseteq; [done|]. intros x Hx. destruct (Hv x Hx) as [Ha Hb]. apply elem_page_range.
    pose proof lk_trampoline_lo. pose proof lk_order1. pose proof lk_order2. exists ((x - KERNBASE) / PGSIZE).
    unfold n. rewrite Z2Nat.id by lia. layout_lia. }
  rewrite length_page_range in Hs. unfold n in Hs. lia.
Qed.

Lemma taken_bound s0 s root P : taken_from s0 s root P → Z.of_nat (length P) ≤ 32768.
Proof. intros T. apply pages_bound; [apply T|]. intros x Hx. by apply (tk_page _ _ _ _ T). Qed.

(** Below the trap frame the entries are the user pages. *)
Lemma space_user tf ws va : 0 ≤ va / PGSIZE < 67108862 → space_pte tf ws va = default 0 (ws !! Z.to_nat (va / PGSIZE)).
Proof.
  intros H. unfold space_pte. rewrite TRAMPOLINE_page, TRAPFRAME_page.
  by rewrite (proj2 (Z.eqb_neq _ 67108863)), (proj2 (Z.eqb_neq _ 67108862)) by lia.
Qed.

Lemma space_maps s root tf ws a : has_space s root tf ws → 0 ≤ a → a mod PGSIZE = 0 → Z.of_nat (length ws) ≤ 32768 →
  maps s root a (drop (Z.to_nat (a / PGSIZE)) ws).
Proof.
  intros H Ha Hm Hl i w Hi. rewrite lookup_drop in Hi. pose proof (lookup_lt_Some _ _ _ Hi).
  assert (E : (a + Z.of_nat i * PGSIZE) / PGSIZE = a / PGSIZE + Z.of_nat i) by (unfold PGSIZE in *; lia).
  assert (0 ≤ a / PGSIZE) by (unfold PGSIZE; lia).
  rewrite H by (rewrite MAXVA_value; unfold PGSIZE in *; lia). rewrite space_user by lia. rewrite E, Z2Nat.inj_add, Nat2Z.id, Hi by lia. done.
Qed.

(** ** Growing and shrinking *)

(** An address space that has been built since [s0]. *)
Record built (s0 s : kstate) (root tf : Z) (ws : list Z) : Prop := Built {
  bt_taken : taken_from s0 s root (PTE2PA <$> ws);
  bt_space : has_space s root tf ws;
  bt_leaf : Forall leaf_pte ws;
}.

(** The bytes of pages stay. *)
Definition keeps (P : list Z) (s s' : kstate) : Prop := ∀ x, x ∈ P → same_page (mem s) (mem s') x.

Lemma keeps_refl P s : keeps P s s.
Proof. by intros x _ b _. Qed.

Lemma keeps_trans P s1 s2 s3 : keeps P s1 s2 → keeps P s2 s3 → keeps P s1 s3.
Proof. intros H1 H2 x Hx b Hb. rewrite (H2 x Hx b Hb). by apply (H1 x Hx). Qed.

Lemma keeps_sub P Q s s' : P ⊆ Q → keeps Q s s' → keeps P s s'.
Proof. intros H K x Hx. by apply K, H. Qed.

Lemma built_len s0 s root tf ws : built s0 s root tf ws → Z.of_nat (length ws) ≤ 32768.
Proof. intros B. pose proof (taken_bound _ _ _ _ (bt_taken _ _ _ _ _ B)) as H. by rewrite length_fmap in H. Qed.

Lemma space_snoc tf ws w va : 0 ≤ va < MAXVA → Z.of_nat (length ws) ≤ 32768 →
  (if va / PGSIZE =? Z.of_nat (length ws) then w else space_pte tf ws va) = space_pte tf (ws ++ [w]) va.
Proof.
  intros Hva Hl. rewrite MAXVA_value in Hva. assert (0 ≤ va / PGSIZE < 67108864) by (unfold PGSIZE; lia).
  unfold space_pte. rewrite TRAMPOLINE_page, TRAPFRAME_page.
  destruct (Z.eqb_spec (va / PGSIZE) (Z.of_nat (length ws))) as [E|E].
  - rewrite (proj2 (Z.eqb_neq _ 67108863)), (proj2 (Z.eqb_neq _ 67108862)) by lia. rewrite E, Nat2Z.id.
    by rewrite lookup_app_r, Nat.sub_diag by lia.
  - destruct (_ =? 67108863); [done|]. destruct (_ =? 67108862); [done|]. f_equal.
    destruct (Z.ltb_spec (va / PGSIZE) (Z.of_nat (length ws))).
    + by rewrite lookup_app_l by lia.
    + rewrite lookup_ge_None_2 by lia. rewrite lookup_ge_None_2; [done|]. rewrite length_app. simpl. lia.
Qed.

(** Mapping a page in hand at the end. *)
Lemma built_map s0 s l root tf ws q perm :
  kinv s l → taken_from s0 s root ((PTE2PA <$> ws) ++ [q]) → has_space s root tf ws → Forall leaf_pte ws →
  0 ≤ perm < 1024 → Z.testbit perm 1 = true →
  wp (mappages root (Z.of_nat (length ws) * PGSIZE) PGSIZE q perm) s (λ r s',
    keeps ((PTE2PA <$> ws) ++ [q]) s s' ∧
    ((r = 0 ∧ built s0 s' root tf (ws ++ [entry q perm]) ∧ ∃ l', kinv s' l' ∧ (length l ≤ length l' + 2)%nat) ∨
     (r = -1 ∧ taken_from s0 s' root ((PTE2PA <$> ws) ++ [q]) ∧ has_space s' root tf ws ∧ (length l < 2)%nat))).
Proof.
  intros Hk T Hs Hlf Hp Hp1. pose proof (taken_bound _ _ _ _ T) as Hl.
  rewrite length_app, length_fmap in Hl. simpl in Hl. rewrite Nat2Z.inj_add in Hl.
  destruct (tk_page _ _ _ _ T q) as (Hv & _); [rewrite elem_of_app, list_elem_of_singleton; tauto|].
  destruct (valid_page_bounds q Hv) as [Hq Hqa]. set (a := Z.of_nat (length ws) * PGSIZE).
  assert (Ha : a / PGSIZE = Z.of_nat (length ws)) by (unfold a; by rewrite Z.div_mul).
  eapply wp_mono; [apply (mappages_wp s l root a 1 q perm); try done|].
  - apply T.
  - unfold a, PGSIZE. lia.
  - unfold a. by apply Z.mod_mul.
  - rewrite MAXVA_value. unfold a, PGSIZE. lia.
  - lia.
  - unfold PGSIZE. lia.
  - intros i Hi. replace (a + i * PGSIZE) with a by (unfold PGSIZE; lia). rewrite Hs by (rewrite MAXVA_value; unfold a, PGSIZE; lia).
    rewrite space_user, Ha, Nat2Z.id by lia. by rewrite lookup_ge_None_2 by lia.
  - pose proof (missing_bound (mem s) root a) as Hmb.
    intros r s' (l' & Hk' & [(-> & U & Hc)|(-> & _ & Hc & k & Hk0 & U)]); (destruct (taken_upd _ s0 s s' l' root _ T U Hk') as [T' K]; split; [exact K|]);
      rewrite regions_1 in Hc; [left|right]; (split; [done|]).
    + split; [|exists l'; split; [done | lia]]. split; [|intros va Hva; rewrite (pu_pte _ _ _ _ U), Hs by done|].
      * rewrite fmap_app. simpl. by rewrite entry_page by (done || lia).
      * rewrite <- space_snoc by (done || lia). unfold map_pte. rewrite Ha.
        assert (0 ≤ va / PGSIZE) by (unfold PGSIZE; lia).
        destruct (Z.eqb_spec (va / PGSIZE) (Z.of_nat (length ws))) as [E|].
        { rewrite E, Z.sub_diag, Z.mul_0_l, Z.add_0_r. done. }
        destruct (Z.leb_spec 0 (va / PGSIZE - Z.of_nat (length ws))), (Z.ltb_spec (va / PGSIZE - Z.of_nat (length ws)) 1); simpl; lia || done.
      * apply Forall_app. split; [done|]. apply Forall_singleton. apply entry_leaf; [lia | done].
    + split; [done|]. split; [|lia]. intros va Hva. rewrite (pu_pte _ _ _ _ U), Hs by done. unfold map_pte. replace k with 0 by lia.
      destruct (Z.leb_spec 0 (va / PGSIZE - a / PGSIZE)), (Z.ltb_spec (va / PGSIZE - a / PGSIZE) 0); simpl; lia || done.
Qed.

Lemma taken_freeable s0 s root P ws : taken_from s0 s root (P ++ (PTE2PA <$> ws)) → freeable s root ws.
Proof.
  intros T. destruct (tk_inv _ _ _ _ T) as [l Hk]. pose proof (tk_nodup _ _ _ _ T) as (_ & _ & ND)%NoDup_app. split.
  - apply Forall_forall. intros w Hw. destruct (tk_page _ _ _ _ T (PTE2PA w)) as (? & _ & _ & ?); [|done].
    apply elem_of_app. right. by apply list_elem_of_fmap_2.
  - intros x Hx. rewrite cnt_nodup by done. case_bool_decide as Hin; [|by apply (kinv_nonneg s l)].
    destruct (tk_page _ _ _ _ T x) as (_ & -> & _); [apply elem_of_app; tauto | done].
Qed.

Lemma space_take tf ws vs va : 0 ≤ va < MAXVA → Z.of_nat (length (ws ++ vs)) ≤ 32768 →
  (if in_pages (Z.of_nat (length ws) * PGSIZE) (Z.of_nat (length vs)) va then 0 else space_pte tf (ws ++ vs) va) = space_pte tf ws va.
Proof.
  intros Hva Hl. rewrite MAXVA_value in Hva. rewrite length_app in Hl. assert (0 ≤ va / PGSIZE < 67108864) by (unfold PGSIZE; lia).
  unfold in_pages. rewrite Z.div_mul by done. unfold space_pte. rewrite TRAMPOLINE_page, TRAPFRAME_page.
  destruct (Z.leb_spec 0 (va / PGSIZE - Z.of_nat (length ws))) as [H1|H1], (Z.ltb_spec (va / PGSIZE - Z.of_nat (length ws)) (Z.of_nat (length vs))) as [H2|H2];
    simpl; (destruct (Z.eqb_spec (va / PGSIZE) 67108863); [lia || done|]); (destruct (Z.eqb_spec (va / PGSIZE) 67108862); [lia || done|]).
  - by rewrite lookup_ge_None_2 by lia.
  - rewrite (lookup_ge_None_2 ws) by lia. rewrite lookup_ge_None_2; [done|]. rewrite length_app. lia.
  - by rewrite lookup_app_l by lia.
  - by rewrite lookup_app_l by lia.
Qed.

(** Taking the last pages back. *)
Lemma uvmdealloc_wp s0 s root tf ws vs :
  built s0 s root tf (ws ++ vs) →
  wp (uvmdealloc root (Z.of_nat (length (ws ++ vs)) * PGSIZE) (Z.of_nat (length ws) * PGSIZE)) s (λ _ s',
    built s0 s' root tf ws ∧ keeps (PTE2PA <$> ws) s s').
Proof.
  intros B. pose proof (built_len _ _ _ _ _ B) as Hl. rewrite length_app in *. unfold uvmdealloc.
  destruct B as [T Hs Hlf]. rewrite fmap_app in T. destruct (tk_inv _ _ _ _ T) as [l Hk].
  assert (HR : ∀ n, 0 ≤ n ≤ 32768 → PGROUNDUP (n * PGSIZE) = n * PGSIZE) by (intros n Hn; rewrite PGROUNDUP_spec; unfold PGSIZE; lia).
  destruct vs as [|v vs'].
  { rewrite app_nil_r in *. rewrite (proj2 (Z.leb_le _ _)) by (simpl; lia).
    apply wp_ret. split; [by split | apply keeps_refl]. }
  set (vs := v :: vs') in *. assert (0 < Z.of_nat (length vs)) by (unfold vs; simpl; lia).
  rewrite (proj2 (Z.leb_gt _ _)) by (unfold PGSIZE; lia). rewrite !HR by lia.
  rewrite (proj2 (Z.ltb_lt _ _)) by (unfold PGSIZE; lia). cbn [when].
  replace ((Z.of_nat (length ws + length vs) * PGSIZE - Z.of_nat (length ws) * PGSIZE) / PGSIZE) with (Z.of_nat (length vs)) by (unfold PGSIZE; lia).
  rewrite i32_small by lia. apply Forall_app in Hlf as [Hl1 Hl2].
  assert (Hdrop : drop (Z.to_nat (Z.of_nat (length ws) * PGSIZE / PGSIZE)) (ws ++ vs) = vs).
  { rewrite Z.div_mul, Nat2Z.id by done. apply drop_app_length. }
  apply wp_bind. eapply wp_mono; [apply (uvmunmap_wp s l root _ vs true Hk (tk_wf _ _ _ _ T)); try done|].
  - unfold PGSIZE. lia.
  - by apply Z.mod_mul.
  - rewrite MAXVA_value. unfold PGSIZE. lia.
  - rewrite <- Hdrop. eapply space_maps; [done | unfold PGSIZE; lia | by apply Z.mod_mul | rewrite length_app; lia].
  - intros _. by eapply taken_freeable.
  - intros _ s' [[l' Hk'] U]. apply wp_ret. destruct (taken_unmap s0 s s' l' root _ _ vs T Hk' U) as [T' K]. split; [|done].
    split; [done| |done]. intros va Hva. rewrite (un_pte _ _ _ _ _ _ U), Hs by done. apply space_take; [done|]. rewrite length_app. lia.
Qed.

(** What [uvmalloc] adds: zeroed pages with the permissions asked for. *)
Definition new_pages (s : kstate) (xperm : Z) (vs : list Z) : Prop :=
  Forall (λ w, ∃ q, valid_page q ∧ w = entry q (Z.lor (Z.lor PTE_R PTE_U) xperm) ∧ ∀ b, q ≤ b < q + PGSIZE → mem s b = 0) vs.

(** It fails only with less than three free pages per page to add, and uses no more. *)
Definition uvmalloc_post (s0 s : kstate) (root tf : Z) (l ws : list Z) (newsz xperm r : Z) (s' : kstate) : Prop :=
  keeps (PTE2PA <$> ws) s s' ∧
  ((r = 0 ∧ built s0 s' root tf ws ∧ Z.of_nat (length l) < 3 * ((newsz + PGSIZE - 1) / PGSIZE - Z.of_nat (length ws))) ∨
   (r = newsz ∧ ∃ vs, built s0 s' root tf (ws ++ vs) ∧ new_pages s' xperm vs ∧
     (Z.of_nat (length (ws ++ vs)) - 1) * PGSIZE < newsz ≤ Z.of_nat (length (ws ++ vs)) * PGSIZE ∧
     ∃ l', kinv s' l' ∧ (length l ≤ length l' + 3 * length vs)%nat)).

Lemma new_pages_keep s s' xperm vs : new_pages s xperm vs → keeps (PTE2PA <$> vs) s s' → 0 ≤ xperm < 1024 → new_pages s' xperm vs.
Proof.
  intros H K Hx. apply Forall_forall. intros w Hw. unfold new_pages in H. rewrite Forall_forall in H. destruct (H w Hw) as (q & Hv & -> & Hz).
  exists q. split; [done|]. split; [done|]. intros b Hb. rewrite (K q); [by apply Hz| |done].
  destruct (valid_page_bounds q Hv) as [Hqb Hqa]. rewrite <- (entry_page q (Z.lor (Z.lor PTE_R PTE_U) xperm)); [by apply list_elem_of_fmap_2 | lia | done|].
  apply (lor_bound _ _ 10); [lia | done | done].
Qed.

(** One round of [uvmalloc]: a zeroed page more, or no memory. *)
Lemma uvmalloc_round s0 s l root tf ws xperm old (K : M kstate Z) (Q : Z → kstate → Prop) :
  kinv s l → built s0 s root tf ws → 0 ≤ xperm < 1024 →
  ((length l < 3)%nat → ∀ s', built s0 s' root tf ws → keeps (PTE2PA <$> ws) s s' → wp (uvmdealloc root (Z.of_nat (length ws) * PGSIZE) old;; mret 0) s' Q) →
  (∀ s' q l', valid_page q → kinv s' l' → (length l ≤ length l' + 3)%nat →
    built s0 s' root tf (ws ++ [entry q (Z.lor (Z.lor PTE_R PTE_U) xperm)]) → keeps (PTE2PA <$> ws) s s' →
    (∀ b, q ≤ b < q + PGSIZE → mem s' b = 0) → wp K s' Q) →
  wp (mem ← kalloc;
      if mem =? 0 then uvmdealloc root (Z.of_nat (length ws) * PGSIZE) old;; mret 0
      else
        memsetM mem 0 PGSIZE;;
        r ← mappages root (Z.of_nat (length ws) * PGSIZE) PGSIZE mem (Z.lor (Z.lor PTE_R PTE_U) xperm);
        if nonzero r then kfree mem;; uvmdealloc root (Z.of_nat (length ws) * PGSIZE) old;; mret 0
        else K) s Q.
Proof.
  intros Hk [T Hs Hlf] Hx HF HK. apply wp_bind. eapply wp_mono; [by apply (taken_alloc s0 s l root)|].
  intros q s1 [(-> & -> & ->)|(Hv & (l1 & -> & Hk1) & T1 & St1 & K1)]; [simpl; apply HF; [simpl; lia | by split | apply keeps_refl]|].
  destruct (valid_page_bounds q Hv) as [Hqb Hqa]. rewrite (proj2 (Z.eqb_neq q 0)) by lia.
  assert (Hin : q ∈ (PTE2PA <$> ws) ++ [q]) by (rewrite elem_of_app, list_elem_of_singleton; tauto).
  assert (Hout : ∀ b, b < q ∨ q + PGSIZE ≤ b → mset q 0 PGSIZE (mem s1) b = mem s1 b) by (intros; by apply mset_out).
  apply wp_bind, wp_modify. destruct (taken_write s0 s1 root _ q (mset q 0 PGSIZE) T1 Hin Hout) as (T2 & St2 & S2).
  assert (Hk2 : kinv (set_mem (mset q 0 PGSIZE) s1) l1).
  { destruct (tk_page _ _ _ _ T1 q Hin) as (_ & Hrq & _). apply kinv_mem; [done|]. intros x Hx'.
    apply same_page_mset; [done | apply (ki_valid _ _ _ Hk1 x Hx') |]. intros Eq. rewrite Eq, (ki_free _ _ _ Hk1 x Hx') in Hrq. lia. }
  set (s2 := set_mem (mset q 0 PGSIZE) s1) in *.
  assert (Hs2 : has_space s2 root tf ws).
  { intros va Hva. destruct St1 as (_ & _ & E1), St2 as (_ & _ & E2). rewrite E2, E1. by apply Hs. }
  assert (K2 : keeps (PTE2PA <$> ws) s s2).
  { intros x Hx'. destruct (tk_page _ _ _ _ T x Hx') as (Hvx & Hrx & _). apply (keeps_trans _ s s1 s2 K1) with (x := x); [|done].
    intros y Hy. destruct (tk_page _ _ _ _ T y Hy) as (Hvy & Hry & _). apply S2; [done|]. intros ->.
    pose proof (tk_nodup _ _ _ _ T1) as (_ & ND & _)%NoDup_app. apply (ND q Hy). by left. }
  assert (Hb : 0 ≤ Z.lor (Z.lor PTE_R PTE_U) xperm < 1024) by (apply (lor_bound _ _ 10); [lia | done | done]).
  apply wp_bind. eapply wp_mono; [apply (built_map s0 s2 l1 root tf ws q _ Hk2 T2 Hs2 Hlf Hb); by rewrite Z.lor_spec|].
  intros r s3 (K3 & [(-> & B & l3 & Hk3 & Hc3)|(-> & T3 & Hs3 & Hc3)]).
  - change (nonzero 0) with false. cbv iota. apply (HK s3 q l3); [done | done | simpl; lia | done| |].
    + eapply keeps_trans; [exact K2|]. eapply keeps_sub; [|exact K3]. intros x Hx'. rewrite elem_of_app. tauto.
    + intros b Hbb. rewrite (K3 q Hin b Hbb). unfold s2. simpl. by rewrite mset_in.
  - change (nonzero (-1)) with true. cbv iota. apply wp_bind. eapply wp_mono; [by apply (taken_kfree s0 s3 root (PTE2PA <$> ws) q)|].
    intros _ s4 (T4 & St4 & K4). apply HF; [simpl; lia| |].
    + split; [done| |done]. intros va Hva. destruct St4 as (_ & _ & E). rewrite E. by apply Hs3.
    + eapply keeps_trans; [exact K2|]. eapply keeps_trans; [|exact K4]. eapply keeps_sub; [|exact K3]. intros x Hx'. rewrite elem_of_app. tauto.
Qed.

Lemma uvmalloc_loop_wp fuel s0 s l root tf ws vs newsz xperm :
  kinv s l → built s0 s root tf (ws ++ vs) → new_pages s xperm vs → 0 ≤ xperm < 1024 →
  newsz - Z.of_nat (length (ws ++ vs)) * PGSIZE < Z.of_nat fuel * PGSIZE → (Z.of_nat (length (ws ++ vs)) - 1) * PGSIZE < newsz →
  wp (uvmalloc_loop fuel root (Z.of_nat (length ws) * PGSIZE) (Z.of_nat (length (ws ++ vs)) * PGSIZE) newsz xperm) s (λ r s',
    ∀ l0, (length l0 ≤ length l + 3 * length vs)%nat → uvmalloc_post s0 s root tf l0 ws newsz xperm r s').
Proof.
  intros Hk B Hn Hx. revert s l vs Hk B Hn. induction fuel as [|f IH]; intros s l vs Hk B Hn Hf Hlo; cbn [uvmalloc_loop];
    (destruct (Z.ltb_spec (Z.of_nat (length (ws ++ vs)) * PGSIZE) newsz) as [Hlt|Hge];
     [|apply wp_ret; intros l0 Hl0; split; [apply keeps_refl|]; right; split; [done|]; exists vs; split_and!; [done | done | lia | lia | by exists l]]); [lia|].
  apply (uvmalloc_round s0 s l root tf (ws ++ vs) xperm); [done | done | done| |].
  - intros Hc s1 B1 K1. apply wp_bind. eapply wp_mono; [by apply uvmdealloc_wp|]. intros _ s2 [B2 K2]. apply wp_ret. intros l0 Hl0.
    split; [|left; split_and!; [done | done | rewrite length_app in Hlt; unfold PGSIZE in *; lia]].
    eapply keeps_trans; [|exact K2]. eapply keeps_sub; [|exact K1]. rewrite fmap_app. intros x Hx'. rewrite elem_of_app. tauto.
  - intros s1 q l1 Hv Hk1 Hc1 B1 K1 Hz. pose proof (built_len _ _ _ _ _ B1) as Hl1. rewrite <- app_assoc in B1.
    set (w := entry q _) in *.
    assert (Hlen : Z.of_nat (length (ws ++ vs ++ [w])) = Z.of_nat (length (ws ++ vs)) + 1) by (rewrite !length_app; simpl; lia).
    rewrite length_app in Hl1. simpl in Hl1.
    rewrite u64_small by (unfold PGSIZE; lia).
    replace (Z.of_nat (length (ws ++ vs)) * PGSIZE + PGSIZE) with (Z.of_nat (length (ws ++ vs ++ [w])) * PGSIZE) by lia.
    eapply wp_mono; [apply (IH s1 l1 (vs ++ [w]) Hk1 B1)|].
    + apply Forall_app. split; [|apply Forall_singleton; by exists q]. eapply new_pages_keep; [done| |done].
      eapply keeps_sub; [|exact K1]. rewrite fmap_app. intros x Hx'. rewrite elem_of_app. tauto.
    + rewrite Hlen. lia.
    + rewrite Hlen. lia.
    + intros r s2 HP l0 Hl0. destruct (HP l0) as [K2 HP']; [rewrite length_app; simpl; lia|]. split; [|done].
      eapply keeps_trans; [|exact K2]. eapply keeps_sub; [|exact K1]. rewrite fmap_app. intros x Hx'. rewrite elem_of_app. tauto.
Qed.

(** [uvmalloc] for any new size: memory runs out before the addresses do. *)
Lemma uvmalloc_wp s0 s l root tf ws sz newsz xperm :
  kinv s l → built s0 s root tf ws → PGROUNDUP sz = Z.of_nat (length ws) * PGSIZE → 0 ≤ sz < 2 ^ 64 - PGSIZE → sz ≤ newsz < 2 ^ 64 → 0 ≤ xperm < 1024 →
  wp (uvmalloc root sz newsz xperm) s (uvmalloc_post s0 s root tf l ws newsz xperm).
Proof.
  intros Hk B HR Hsz Hn Hx. unfold uvmalloc. rewrite (proj2 (Z.ltb_ge _ _)) by lia. cbv zeta. rewrite HR.
  pose proof (PGROUNDUP_bounds sz Hsz) as Hb. rewrite HR in Hb.
  rewrite <- (app_nil_r ws) in B. rewrite <- (app_nil_r ws) at 3.
  eapply wp_mono; [apply (uvmalloc_loop_wp _ s0 s l); [done | done | apply Forall_nil_2 | done | | ]; rewrite app_nil_r; unfold PGSIZE in *; lia|].
  intros r s' HP. apply HP. simpl. lia.
Qed.

(** ** The end of an address space *)

(** Unmapping the two pages at the top. *)
Lemma unmap_top_wp s l root tf ws :
  kinv s l → pt_wf s root → has_space s root tf ws → 0 ≤ tf < 2 ^ 56 →
  wp (uvmunmap root TRAMPOLINE 1 false;; uvmunmap root TRAPFRAME 1 false) s (λ _ s', (∃ l', kinv s' l') ∧ pt_wf s' root ∧
    (∀ x, pt_node s' root x ↔ pt_node s root x) ∧
    (∀ va, 0 ≤ va < MAXVA → pte_of (mem s') root va = if va / PGSIZE <? 67108862 then space_pte tf ws va else 0) ∧
    (∀ x, valid_page x → rc s' x = rc s x) ∧
    (∀ x, valid_page x → 0 < rc s x → ¬ pt_node s root x → same_page (mem s) (mem s') x)).
Proof.
  intros Hk Hw Hs Ht. pose proof lk_trampoline_lo. pose proof lk_order1. pose proof lk_order2. pose proof lk_fits.
  apply wp_bind. eapply wp_mono; [apply (uvmunmap_wp s l root TRAMPOLINE [entry lk_trampoline (Z.lor PTE_R PTE_X)] false Hk Hw); try done|].
  - intros [|[|]] w [= <-]. rewrite Hs by done. reflexivity.
  - apply Forall_singleton, entry_leaf; [layout_lia | done].
  - intros _ s1 [[l1 Hk1] U1].
    eapply wp_mono; [apply (uvmunmap_wp s1 l1 root TRAPFRAME [entry tf (Z.lor PTE_R PTE_W)] false Hk1 (un_wf _ _ _ _ _ _ U1)); try done|].
    + intros [|[|]] w [= <-]. rewrite (un_pte _ _ _ _ _ _ U1), Hs by done. reflexivity.
    + apply Forall_singleton, entry_leaf; [lia | done].
    + intros _ s2 [Hk2 U2]. split; [done|]. split; [apply U2|]. split; [|split; [|split]].
      * intros x. by rewrite (un_node _ _ _ _ _ _ U2), (un_node _ _ _ _ _ _ U1).
      * intros va Hva. rewrite (un_pte _ _ _ _ _ _ U2), (un_pte _ _ _ _ _ _ U1), Hs by done. rewrite MAXVA_value in Hva.
        assert (va / PGSIZE < 67108864) by (unfold PGSIZE; lia). unfold in_pages. simpl length. rewrite TRAMPOLINE_page, TRAPFRAME_page.
        destruct (Z.ltb_spec (va / PGSIZE) 67108862).
        { rewrite (proj2 (Z.leb_gt 0 (va / PGSIZE - 67108862))), (proj2 (Z.leb_gt 0 (va / PGSIZE - 67108863))) by lia. done. }
        destruct (Z.leb_spec 0 (va / PGSIZE - 67108862)), (Z.ltb_spec (va / PGSIZE - 67108862) (Z.of_nat 1)),
          (Z.leb_spec 0 (va / PGSIZE - 67108863)), (Z.ltb_spec (va / PGSIZE - 67108863) (Z.of_nat 1)); simpl; lia || done.
      * intros x Hx. rewrite (un_rc _ _ _ _ _ _ U2), (un_rc _ _ _ _ _ _ U1) by done. lia.
      * intros x Hx Hr Hn b Hb. assert (rc s1 x = rc s x) by (rewrite (un_rc _ _ _ _ _ _ U1) by done; lia).
        assert (rc s2 x = rc s1 x) by (rewrite (un_rc _ _ _ _ _ _ U2) by done; lia).
        rewrite (un_frame _ _ _ _ _ _ U2 x Hx); [|lia|by rewrite (un_node _ _ _ _ _ _ U1)|done].
        apply (un_frame _ _ _ _ _ _ U1 x Hx); [lia | done | done].
Qed.

(** An address space in use: its user pages may be shared with others. *)
Record live_space (s : kstate) (root tf : Z) (ws : list Z) : Prop := LiveSpace {
  ls_wf : pt_wf s root;
  ls_space : has_space s root tf ws;
  ls_leaf : Forall leaf_pte ws;
  ls_free : freeable s root ws;
  ls_len : Z.of_nat (length ws) ≤ 32768;
  ls_tf : 0 ≤ tf < 2 ^ 56;
}.

(** [proc_freepagetable] drops one reference per user page and frees the tree. *)
Lemma proc_freepagetable_wp s l root tf ws sz :
  kinv s l → live_space s root tf ws → 0 ≤ sz < 2 ^ 64 - PGSIZE → PGROUNDUP sz = Z.of_nat (length ws) * PGSIZE →
  wp (proc_freepagetable root sz) s (λ _ s', (∃ l', kinv s' l') ∧
    (∀ x, pt_node s root x → rc s' x = 0) ∧
    (∀ x, valid_page x → ¬ pt_node s root x → rc s' x = rc s x - cnt ws x) ∧
    (∀ x, valid_page x → ¬ pt_node s root x → 0 < rc s' x → same_page (mem s) (mem s') x)).
Proof.
  intros Hk [Hw Hs Hlf Hfr Hl Ht] Hsz HR. unfold proc_freepagetable, uvmfree. apply wp_assoc, wp_bind.
  eapply wp_mono; [by apply (unmap_top_wp s l root tf ws)|]. intros _ s1 ([l1 Hk1] & Hw1 & HN1 & HP1 & HR1 & HF1).
  assert (Hm : maps s1 root 0 ws).
  { intros i w Hi. pose proof (lookup_lt_Some _ _ _ Hi). rewrite Z.add_0_l.
    rewrite HP1 by (rewrite MAXVA_value; unfold PGSIZE; lia). rewrite Z.div_mul by done. rewrite (proj2 (Z.ltb_lt _ _)) by lia.
    rewrite space_user by (rewrite Z.div_mul by done; lia). by rewrite Z.div_mul, Nat2Z.id, Hi by done. }
  (* the user pages *)
  set (K := freewalk 3 root).
  assert (HU : wp (when (0 <? sz) (uvmunmap root 0 (PGROUNDUP sz / PGSIZE) true)) s1 (λ _ s2, (∃ l2, kinv s2 l2) ∧ unmapped s1 s2 root 0 ws true)).
  { pose proof (PGROUNDUP_bounds sz Hsz) as Hb. rewrite HR in Hb |- *. rewrite Z.div_mul by done.
    destruct (Z.ltb_spec 0 sz); cbn [when].
    - apply (uvmunmap_wp s1 l1); try done; [rewrite MAXVA_value; unfold PGSIZE; lia|]. intros _. destruct Hfr as [F1 F2]. split.
      + eapply Forall_impl; [exact F1|]. intros w [H1 H2]. split; [done | by rewrite HN1].
      + intros x Hx. rewrite HR1 by done. by apply F2.
    - assert (length ws = 0%nat) as ->%nil_length_inv by (unfold PGSIZE in *; lia). apply wp_ret. split; [eauto | by apply unmapped_nil]. }
  apply wp_bind. eapply wp_mono; [exact HU|]. intros _ s2 [[l2 Hk2] U].
  eapply wp_mono; [apply (freewalk_tree_wp s2 l2 root Hk2 (un_wf _ _ _ _ _ _ U))|].
  { intros va Hva. rewrite (un_pte _ _ _ _ _ _ U), HP1 by done. rewrite in_pages_0. rewrite MAXVA_value in Hva.
    assert (0 ≤ va / PGSIZE) by (unfold PGSIZE; lia). rewrite (proj2 (Z.leb_le 0 _)) by done. simpl.
    destruct (Z.ltb_spec (va / PGSIZE) (Z.of_nat (length ws))); [done|].
    destruct (Z.ltb_spec (va / PGSIZE) 67108862); [|done]. rewrite space_user by lia. by rewrite lookup_ge_None_2 by lia. }
  intros _ s3 (Hk3 & R1 & R2).
  assert (HN : ∀ x, pt_node s2 root x ↔ pt_node s root x) by (intros x; by rewrite (un_node _ _ _ _ _ _ U), HN1).
  split; [done|]. split; [intros x Hx; apply R1; by rewrite HN|].
  assert (Hrc : ∀ x, valid_page x → ¬ pt_node s root x → rc s3 x = rc s x - cnt ws x).
  { intros x Hx Hn. rewrite (proj1 (R2 x Hx ltac:(by rewrite HN))), (un_rc _ _ _ _ _ _ U), HR1 by done. done. }
  split; [done|]. intros x Hx Hn Hr b Hb. destruct (R2 x Hx ltac:(by rewrite HN)) as [E2 F2]. rewrite (F2 b Hb).
  pose proof (cnt_nonneg ws x). rewrite (un_frame _ _ _ _ _ _ U x Hx); [|lia|by rewrite HN1|done].
  apply (HF1 x Hx); [rewrite Hrc in Hr by done; lia | done | done].
Qed.

Lemma built_live s0 s root tf ws : built s0 s root tf ws → 0 ≤ tf < 2 ^ 56 → live_space s root tf ws.
Proof.
  intros B Ht. pose proof (built_len _ _ _ _ _ B). destruct B as [T Hs Hlf].
  split; [apply T | done | done | by apply (taken_freeable s0 s root []) | done | done].
Qed.

(** Giving up an address space that was built leaves what there was before. *)
Lemma built_free s0 s root tf ws sz :
  built s0 s root tf ws → 0 ≤ tf < 2 ^ 56 → 0 ≤ sz < 2 ^ 64 - PGSIZE → PGROUNDUP sz = Z.of_nat (length ws) * PGSIZE →
  wp (proc_freepagetable root sz) s (λ _ s', restored s0 s').
Proof.
  intros B Ht Hsz HR. pose proof (built_live _ _ _ _ _ B Ht) as U. destruct B as [T Hs Hlf]. destruct (tk_inv _ _ _ _ T) as [l Hk].
  destruct (tk_inv0 _ _ _ _ T) as [l0 Hk0].
  eapply wp_mono; [by apply (proc_freepagetable_wp s l root tf ws)|]. intros _ s' (Hk' & R1 & R2 & F).
  assert (Hu : ∀ x, valid_page x → 0 < rc s0 x → ¬ pt_node s root x ∧ rc s' x = rc s0 x).
  { intros x Hx H0. assert (Hn : ¬ pt_node s root x) by (intros Hn; pose proof (tk_node _ _ _ _ T x Hn); lia). split; [done|].
    rewrite R2, cnt_nodup, (proj1 (tk_keep _ _ _ _ T x Hx H0)) by (done || apply T). rewrite bool_decide_false; [lia|].
    intros Hin. destruct (tk_page _ _ _ _ T x Hin) as (_ & _ & ? & _). lia. }
  split; [done|]. split.
  - intros x Hx. destruct (Z.ltb_spec 0 (rc s0 x)) as [H0|H0]; [by apply Hu|].
    assert (E0 : rc s0 x = 0) by (pose proof (kinv_nonneg s0 l0 x Hk0 Hx); lia). rewrite E0.
    destruct (tk_leak _ _ _ _ T x Hx E0) as [H|[H|H]]; [| |by apply R1].
    + assert (Hn : ¬ pt_node s root x) by (intros (p & Hp & E); destruct (pw_page _ _ (tk_wf _ _ _ _ T) p x Hp E); lia).
      rewrite R2, cnt_nodup, H by (done || apply T). rewrite bool_decide_false; [done|].
      intros Hin. destruct (tk_page _ _ _ _ T x Hin) as (_ & ? & _). lia.
    + destruct (tk_page _ _ _ _ T x H) as (_ & Hr & _ & Hn). rewrite R2, cnt_nodup, bool_decide_true, Hr by (done || apply T). done.
  - intros x Hx H0 b Hb. destruct (Hu x Hx H0) as [Hn E]. rewrite (F x Hx Hn ltac:(lia) b Hb). by apply (tk_keep _ _ _ _ T x Hx H0).
Qed.

(** ** The beginning of an address space *)

Lemma restored_refl s l : kinv s l → restored s s.
Proof. intros Hk. split; [eauto|]. split; [done|]. by intros x _ _ b _. Qed.

Lemma uvmcreate_taken s0 l0 : kinv s0 l0 →
  wp uvmcreate s0 (λ root s, (root = 0 ∧ s = s0 ∧ l0 = []) ∨
    (valid_page root ∧ (∃ l, l0 = root :: l ∧ kinv s l) ∧ taken_from s0 s root [] ∧ ∀ va, pte_of (mem s) root va = 0)).
Proof.
  intros Hk. eapply wp_mono; [by apply (uvmcreate_wp s0 l0)|]. intros root s [(-> & -> & ->)|(l & -> & Hk1 & Hw & HP & HN & HS)]; [by left|].
  right. assert (Hv : valid_page root) by (apply (ki_valid _ _ _ Hk); by left). assert (H0 : rc s0 root = 0) by (apply (ki_free _ _ _ Hk); by left).
  split; [done|]. split; [eauto|]. split; [|done]. split; [eauto | eauto | done | constructor | by intros x ?%elem_of_nil | | |].
  - by intros x ->%HN.
  - intros x Hx Hr. assert (x ≠ root) by (intros ->; lia). by apply HS.
  - intros x Hx Hr. destruct (decide (x = root)) as [->|Hne].
    + right. right. exists []. split; [apply vpath_nil | done].
    + left. rewrite (proj1 (HS x Hx Hne)). done.
Qed.

(** Mapping one page, not an owned one, at a free place. *)
Lemma taken_map s0 s l root va pa perm :
  kinv s l → taken_from s0 s root [] → 0 ≤ va → va + PGSIZE ≤ MAXVA → va mod PGSIZE = 0 → 0 ≤ perm < 1024 → 0 ≤ pa → pa + PGSIZE ≤ 2 ^ 56 →
  pte_of (mem s) root va = 0 →
  wp (mappages root va PGSIZE pa perm) s (λ r s', taken_from s0 s' root [] ∧
    ((r = 0 ∧ (∃ l', kinv s' l' ∧ (length l ≤ length l' + 2)%nat) ∧
      ∀ va', 0 ≤ va' < MAXVA → pte_of (mem s') root va' = if va' / PGSIZE =? va / PGSIZE then entry pa perm else pte_of (mem s) root va') ∨
     (r = -1 ∧ (length l < 2)%nat ∧ ∀ va', 0 ≤ va' < MAXVA → pte_of (mem s') root va' = pte_of (mem s) root va'))).
Proof.
  intros Hk T Hva Hm Ha Hp Hpa Hpa2 He. pose proof (missing_bound (mem s) root va).
  eapply wp_mono; [apply (mappages_wp s l root va 1 pa perm Hk (tk_wf _ _ _ _ T)); try done; try lia|].
  { intros i Hi. replace (va + i * PGSIZE) with va by (unfold PGSIZE; lia). by rewrite He. }
  intros r s' (l' & Hk' & [(-> & U & Hc)|(-> & _ & Hc & k & Hk0 & U)]); destruct (taken_upd _ s0 s s' l' root [] T U Hk') as [T' _];
    rewrite regions_1 in Hc; (split; [done|]); [left|right]; (split; [done|]); (split; [first [lia | exists l'; split; [done | lia]]|]); intros va' Hva'; rewrite (pu_pte _ _ _ _ U) by done; unfold map_pte.
  - destruct (Z.eqb_spec (va' / PGSIZE) (va / PGSIZE)) as [->|].
    + rewrite Z.sub_diag, Z.mul_0_l, Z.add_0_r. done.
    + destruct (Z.leb_spec 0 (va' / PGSIZE - va / PGSIZE)), (Z.ltb_spec (va' / PGSIZE - va / PGSIZE) 1); simpl; lia || done.
  - replace k with 0 by lia. destruct (Z.leb_spec 0 (va' / PGSIZE - va / PGSIZE)), (Z.ltb_spec (va' / PGSIZE - va / PGSIZE) 0); simpl; lia || done.
Qed.

(** [proc_pagetable] makes an address space without user pages, or nothing. *)
Lemma proc_pagetable_wp s0 l0 tf : kinv s0 l0 → 0 ≤ tf → tf + PGSIZE ≤ 2 ^ 56 →
  wp (proc_pagetable tf) s0 (λ root s, (root = 0 ∧ restored s0 s ∧ (length l0 < 5)%nat) ∨
    (valid_page root ∧ built s0 s root tf [] ∧ ∃ l, kinv s l ∧ (length l0 ≤ length l + 5)%nat)).
Proof.
  intros Hk Ht Ht2. pose proof lk_trampoline_lo. pose proof lk_order1. pose proof lk_order2. pose proof lk_fits.
  unfold proc_pagetable. apply wp_bind. eapply wp_mono; [by apply (uvmcreate_taken s0 l0)|].
  intros root s1 [(-> & -> & ->)|(Hv & (l1 & -> & Hk1) & T1 & HP1)]; [left; split_and!; [done | by eapply restored_refl | simpl; lia]|].
  destruct (valid_page_bounds root Hv) as [Hrb _]. rewrite (proj2 (Z.eqb_neq root 0)) by lia.
  apply wp_bind. eapply wp_mono; [apply (taken_map s0 s1 l1 root TRAMPOLINE lk_trampoline); done || layout_lia|].
  intros r1 s2 (T2 & [(-> & (l2 & Hk2 & Hc2) & HP2)|(-> & Hc2 & HP2)]).
  2:{ change (-1 <? 0) with true. cbv iota. unfold uvmfree. apply wp_bind, wp_bind. change (0 <? 0) with false. cbn [when]. apply wp_ret.
      eapply wp_mono; [apply (taken_freewalk s0 s2 root T2)|].
      - intros va Hva. by rewrite HP2, HP1.
      - intros [] s3 R. apply wp_ret. left. split_and!; [done | done | simpl; lia]. }
  change (0 <? 0) with false. cbv iota. apply wp_bind.
  eapply wp_mono; [apply (taken_map s0 s2 l2 root TRAPFRAME tf); [done | done | layout_lia | layout_lia | done | done | lia | lia|]|].
  { rewrite HP2, HP1 by layout_lia. done. }
  intros r2 s3 (T3 & [(-> & (l3 & Hk3 & Hc3) & HP3)|(-> & Hc3 & HP3)]).
  - change (0 <? 0) with false. cbv iota. apply wp_ret. right. split; [done|]. split; [|exists l3; split; [done | simpl; lia]]. split; [done| |constructor].
    intros va Hva. rewrite HP3, HP2, HP1 by done. rewrite MAXVA_value in Hva. unfold space_pte.
    destruct (Z.eqb_spec (va / PGSIZE) (TRAPFRAME / PGSIZE)) as [->|]; [done|]. by destruct (va / PGSIZE =? TRAMPOLINE / PGSIZE).
  - change (-1 <? 0) with true. cbv iota. destruct (tk_inv _ _ _ _ T3) as [l3 Hk3].
    apply wp_bind. eapply wp_mono; [apply (uvmunmap_wp s3 l3 root TRAMPOLINE [entry lk_trampoline (Z.lor PTE_R PTE_X)] false Hk3 (tk_wf _ _ _ _ T3)); try done|].
    + intros [|[|]] w [= <-]. rewrite HP3, HP2 by done. reflexivity.
    + apply Forall_singleton, entry_leaf; [layout_lia | done].
    + intros _ s4 [[l4 Hk4] U]. unfold uvmfree. apply wp_bind, wp_bind. change (0 <? 0) with false. cbn [when]. apply wp_ret.
      destruct (taken_drop s0 s3 s4 l4 root [] [] T3 Hk4) as [T4 _]; [apply U | apply U | | |].
      * intros x Hx. rewrite (un_rc _ _ _ _ _ _ U), bool_decide_false by (done || apply not_elem_of_nil). lia.
      * intros x Hx Hr Hn. by apply (un_frame _ _ _ _ _ _ U).
      * eapply wp_mono; [apply (taken_freewalk s0 s4 root T4)|].
        { intros va Hva. rewrite (un_pte _ _ _ _ _ _ U), HP3, HP2, HP1 by done. unfold in_pages. simpl length. change (Z.of_nat 1) with 1.
          destruct (Z.eqb_spec (va / PGSIZE) (TRAMPOLINE / PGSIZE)) as [->|]; [by rewrite Z.sub_diag|]. by destruct (_ && _). }
        intros [] s5 R. apply wp_ret. left. split_and!; [done | done | simpl; lia].
Qed.
End Aspace.
