(* ===== verification/Kvm.v ===== *)
(** * The kernel's page table (kernel/vm.c, kernel/proc.c)

    [kvmmake] maps the devices and physical memory at their own addresses, the
    trampoline, and a stack for each process with an unmapped page below it. *)

From stdpp Require Import base numbers list strings.
From S2P Require Import Prelude Str Layout Kalloc Vm PageTable Uvm Ucopy Freewalk Aspace.
Local Open Scope Z_scope.

(** ** Maps as lists of regions *)

(** [rg_n] pages from [rg_va] on, mapped to the pages from [rg_pa] on. *)
Record region : Type := Region { rg_va : Z; rg_n : Z; rg_pa : Z; rg_perm : Z }.

Definition rg_has (r : region) (va : Z) : bool :=
  (0 <=? va / PGSIZE - rg_va r / PGSIZE) && (va / PGSIZE - rg_va r / PGSIZE <? rg_n r).
Definition rg_pte (r : region) (va : Z) : Z := entry (rg_pa r + (va / PGSIZE - rg_va r / PGSIZE) * PGSIZE) (rg_perm r).

Fixpoint translate (m : list region) (va : Z) : Z :=
  match m with
  | [] => 0
  | r :: m' => if rg_has r va then rg_pte r va else translate m' va
  end.

Definition RW : Z := Z.lor PTE_R PTE_W.
Definition RX : Z := Z.lor PTE_R PTE_X.

(** The stacks in the pages [qs], from process [p] on, the last one first. *)
Fixpoint stack_regions (p : Z) (qs : list Z) (m : list region) : list region :=
  match qs with
  | [] => m
  | q :: qs' => stack_regions (p + 1) qs' (Region (KSTACK p) 1 q RW :: m)
  end.

Section Kvm.
Context {L : Linker} {LOk : LinkerOk L}.

Definition base_map : list region :=
  [Region TRAMPOLINE 1 lk_trampoline RX;
   Region lk_etext ((PHYSTOP - lk_etext) / PGSIZE) lk_etext RW;
   Region KERNBASE ((lk_etext - KERNBASE) / PGSIZE) KERNBASE RX;
   Region PLIC 1024 PLIC RW; Region VIRTIO0 1 VIRTIO0 RW; Region UART0 1 UART0 RW].

Definition kernel_map (qs : list Z) : list region := stack_regions 0 qs base_map.

(** ** [kvmmap] *)

Record mapped_as (s0 s : kstate) (l : list Z) (root : Z) (P : list Z) (m : list region) : Prop := MappedAs {
  ma_inv : kinv s l;
  ma_taken : taken_from s0 s root P;
  ma_pte : ∀ va, 0 ≤ va < MAXVA → pte_of (mem s) root va = translate m va;
}.

(** A region that can be added to a map. *)
Record region_ok (m : list region) (r : region) : Prop := RegionOk {
  ro_va : 0 ≤ rg_va r ∧ rg_va r mod PGSIZE = 0 ∧ rg_va r + rg_n r * PGSIZE ≤ MAXVA;
  ro_n : 0 < rg_n r;
  ro_pa : 0 ≤ rg_pa r ∧ rg_pa r + rg_n r * PGSIZE ≤ 2 ^ 56;
  ro_perm : 0 ≤ rg_perm r < 1024;
  ro_free : ∀ va, rg_has r va = true → translate m va = 0;
}.

Lemma kvmmap_wp s0 s l root P m r :
  mapped_as s0 s l root P m → region_ok m r → 2 * regions (rg_va r) (rg_n r) ≤ Z.of_nat (length l) →
  wp (kvmmap root (rg_va r) (rg_pa r) (rg_n r * PGSIZE) (rg_perm r)) s (λ _ s',
    ∃ l', mapped_as s0 s' l' root P (r :: m) ∧ Z.of_nat (length l) ≤ Z.of_nat (length l') + 2 * regions (rg_va r) (rg_n r)).
Proof.
  intros [K T HP] [(V1 & V2 & V3) Hn (A1 & A2) Hp Hf] Hl. unfold kvmmap. apply wp_bind. pose proof (missing_bound (mem s) root (rg_va r)) as Hm.
  eapply wp_mono; [apply (mappages_wp s l root (rg_va r) (rg_n r) (rg_pa r) (rg_perm r) K (tk_wf _ _ _ _ T)); try done|].
  { intros i Hi. rewrite HP by (unfold PGSIZE in *; lia). rewrite Hf; [done|]. unfold rg_has. unfold PGSIZE in *. lia. }
  intros q s' (l' & K' & [(-> & U & Hc)|(_ & _ & Hc & _)]); [|lia]. change (nonzero 0) with false. cbv iota. apply wp_ret. exists l'.
  split; [|lia]. destruct (taken_upd _ _ _ _ _ _ _ T U K') as [T' _]. split; [done | done|].
  intros va Hva. rewrite (pu_pte _ _ _ _ U) by done. rewrite HP by done. reflexivity.
Qed.

(** ** Stacks *)

(** The process whose stack is at [va]. *)
Definition stack_of (va : Z) : option Z :=
  let d := TRAMPOLINE / PGSIZE - va / PGSIZE in if (0 <? d) && (d mod 2 =? 0) then Some (d / 2 - 1) else None.

Lemma stack_region p q va : 0 ≤ p → rg_has (Region (KSTACK p) 1 q RW) va = bool_decide (stack_of va = Some p) ∧
  (stack_of va = Some p → rg_pte (Region (KSTACK p) 1 q RW) va = entry q RW).
Proof.
  intros Hp. unfold rg_has, rg_pte, stack_of. cbn [rg_va rg_n rg_pa rg_perm].
  assert (E : KSTACK p / PGSIZE = 67108863 - (p + 1) * 2) by (unfold KSTACK; change TRAMPOLINE with (67108863 * PGSIZE); unfold PGSIZE; lia).
  rewrite E, TRAMPOLINE_page. set (i := va / PGSIZE). split.
  - apply eq_true_iff_eq. rewrite bool_decide_eq_true, andb_true_iff, Z.leb_le, Z.ltb_lt.
    destruct (Z.ltb_spec 0 (67108863 - i)), (Z.eqb_spec ((67108863 - i) mod 2) 0); cbn [andb]; split; intros H'; try done; try lia; try (f_equal; lia);
      injection H' as H'; lia.
  - destruct (Z.ltb_spec 0 (67108863 - i)), (Z.eqb_spec ((67108863 - i) mod 2) 0); cbn [andb]; intros H'; try done. injection H' as H'.
    f_equal. unfold PGSIZE. lia.
Qed.

Lemma stacks_translate p qs m va : 0 ≤ p → translate (stack_regions p qs m) va =
  match stack_of va with
  | Some j => if p <=? j then default (translate m va) ((λ q, entry q RW) <$> qs !! Z.to_nat (j - p)) else translate m va
  | None => translate m va
  end.
Proof.
  revert p m. induction qs as [|q qs IH]; intros p m Hp; cbn [stack_regions].
  { destruct (stack_of va) as [j|]; [|done]. by destruct (p <=? j). }
  rewrite IH by lia. cbn [translate]. destruct (stack_region p q va Hp) as [-> Hq]. destruct (stack_of va) as [j|]; [|done].
  destruct (Z.leb_spec (p + 1) j) as [H1|H1], (Z.leb_spec p j) as [H2|H2]; try lia.
  - rewrite bool_decide_false by (intros [= ->]; lia). replace (Z.to_nat (j - p)) with (S (Z.to_nat (j - (p + 1)))) by lia. done.
  - assert (j = p) as -> by lia. rewrite bool_decide_true by done. rewrite Z.sub_diag. simpl. by apply Hq.
  - rewrite bool_decide_false by (intros [= ->]; lia). done.
Qed.

Lemma stack_regions_snoc p qs q m : stack_regions p (qs ++ [q]) m = Region (KSTACK (p + Z.of_nat (length qs))) 1 q RW :: stack_regions p qs m.
Proof.
  revert p m. induction qs as [|x qs IH]; intros p m; simpl; [by rewrite Z.add_0_r|]. rewrite IH. do 2 f_equal. f_equal. lia.
Qed.

Lemma translate_none m va : Forall (λ r, rg_has r va = false) m → translate m va = 0.
Proof. induction 1 as [|r m Hr Hm IH]; [done|]. cbn [translate]. by rewrite Hr. Qed.

(** The slots of the stacks are outside of the other regions. *)
Lemma base_stack va j : stack_of va = Some j → 0 ≤ j < NPROC → translate base_map va = 0.
Proof.
  intros H Hj. assert (E : va / PGSIZE = 67108863 - (j + 1) * 2).
  { unfold stack_of in H. rewrite TRAMPOLINE_page in H. destruct (_ && _) eqn:B; [|done]. apply andb_prop in B as [_ B%Z.eqb_eq]. injection H as H. lia. }
  pose proof lk_trampoline_lo. pose proof lk_order1. pose proof lk_order2. pose proof lk_fits.
  apply translate_none. unfold base_map, NPROC, PLIC, VIRTIO0, UART0 in *.
  repeat constructor; unfold rg_has; cbn [rg_va rg_n]; rewrite E, ?TRAMPOLINE_page; layout_lia.
Qed.

Lemma proc_mapstacks_loop_wp n s0 s l root qs :
  mapped_as s0 s l root qs (kernel_map qs) → Z.of_nat (length qs) + Z.of_nat n ≤ NPROC → (3 * n ≤ length l)%nat →
  wp (proc_mapstacks_loop n (Z.of_nat (length qs)) root) s (λ _ s', ∃ qs' l', length qs' = (length qs + n)%nat ∧
    mapped_as s0 s' l' root qs' (kernel_map qs') ∧ (length l ≤ length l' + 3 * n)%nat).
Proof.
  revert s l qs. induction n as [|n IH]; intros s l qs H Hn Hl; cbn [proc_mapstacks_loop].
  { apply wp_ret. exists qs, l. split; [lia|]. split; [done | lia]. }
  destruct H as [K T HP]. apply wp_bind. eapply wp_mono; [by apply (taken_alloc s0 s l root qs)|].
  intros q s1 [(_ & _ & ->)|(Hv & (l1 & -> & K1) & T1 & (_ & _ & E1) & _)]; [simpl in Hl; lia|].
  destruct (valid_page_bounds q Hv) as [Hq _]. rewrite (proj2 (Z.eqb_neq q 0)) by lia. apply wp_bind.
  set (r := Region (KSTACK (Z.of_nat (length qs))) 1 q RW). assert (Hnr : NPROC = 64) by done.
  eapply wp_mono; [apply (kvmmap_wp s0 s1 l1 root (qs ++ [q]) (kernel_map qs) r)|].
  - split; [done | done|]. intros va Hva. rewrite E1. by apply HP.
  - split; unfold r; cbn [rg_va rg_n rg_pa rg_perm]; [| lia | unfold PGSIZE; lia | done |].
    + rewrite MAXVA_value. unfold KSTACK. change TRAMPOLINE with (67108863 * PGSIZE). unfold PGSIZE. lia.
    + intros va Hva. destruct (stack_region (Z.of_nat (length qs)) q va ltac:(lia)) as [Hh _]. rewrite Hh in Hva. apply bool_decide_eq_true in Hva.
      unfold kernel_map. rewrite stacks_translate, Hva by lia. rewrite (proj2 (Z.leb_le 0 _)), Z.sub_0_r by lia.
      rewrite lookup_ge_None_2 by lia. simpl. apply (base_stack va (Z.of_nat (length qs)) Hva). lia.
  - unfold r. cbn [rg_va rg_n]. rewrite regions_1. simpl in Hl. lia.
  - intros [] s2 (l2 & H2 & Hc). unfold r in H2, Hc. cbn [rg_va rg_n] in Hc. rewrite regions_1 in Hc.
    assert (E : kernel_map (qs ++ [q]) = r :: kernel_map qs) by (unfold kernel_map; by rewrite stack_regions_snoc). fold r in H2. rewrite <- E in H2.
    replace (Z.of_nat (length qs) + 1) with (Z.of_nat (length (qs ++ [q]))) by (rewrite length_app; simpl; lia).
    eapply wp_mono; [apply (IH s2 l2 (qs ++ [q]) H2); rewrite ?length_app; simpl in Hl |- *; lia|].
    intros [] s3 (qs' & l' & Hlen & H3 & Hc3). exists qs', l'. split; [rewrite Hlen, length_app; simpl; lia|]. split; [done | simpl length in *; lia].
Qed.

(** ** The whole table *)

Lemma fresh_root {A} s q l (K : Z → M kstate A) Q : kinv s (q :: l) →
  wp (root ← uvmcreate; K root) s Q → wp (root ← kalloc; memsetM root 0 PGSIZE;; K root) s Q.
Proof.
  intros Hk. assert (Hq : valid_page q) by (apply (ki_valid _ _ _ Hk); by left). destruct (valid_page_bounds q Hq) as [Hb _].
  destruct (wp_elim _ _ _ (kalloc_wp s (q :: l) Hk)) as (r & s1 & E & Hp). destruct Hp as (-> & _).
  unfold uvmcreate, wp, mbind, M_bind. rewrite E. by rewrite (proj2 (Z.eqb_neq q 0)) by lia.
Qed.

(** Adding a region of the fixed part. *)
Lemma kvmmap_step {A} s0 s l root P m r (c : Z) (K : M kstate A) Q :
  mapped_as s0 s l root P m → region_ok m r → regions (rg_va r) (rg_n r) ≤ c → 2 * c ≤ Z.of_nat (length l) →
  (∀ s' l', mapped_as s0 s' l' root P (r :: m) → Z.of_nat (length l) ≤ Z.of_nat (length l') + 2 * c → wp K s' Q) →
  wp (kvmmap root (rg_va r) (rg_pa r) (rg_n r * PGSIZE) (rg_perm r);; K) s Q.
Proof.
  intros H Hr Hc Hl HK. apply wp_bind. eapply wp_mono; [apply (kvmmap_wp s0 s l root P m r H Hr); lia|].
  intros [] s' (l' & H' & Hl'). apply (HK s' l' H'). lia.
Qed.

(** Solves the side conditions of a fixed region. *)
Ltac region_tac :=
  split; cbn [rg_va rg_n rg_pa rg_perm]; [layout_lia | layout_lia | layout_lia | done |];
  intros va Hva; apply translate_none; unfold rg_has in Hva; cbn [rg_va rg_n] in Hva; rewrite ?TRAMPOLINE_page in Hva;
  repeat constructor; unfold rg_has; cbn [rg_va rg_n]; layout_lia.

Lemma kvmmake_wp s0 l : kinv s0 l → (333 ≤ length l)%nat →
  wp kvmmake s0 (λ root s, ∃ qs l', length qs = 64%nat ∧ mapped_as s0 s l' root qs (kernel_map qs) ∧ (length l ≤ length l' + 333)%nat).
Proof.
  intros Hk Hl. pose proof lk_trampoline_lo. pose proof lk_order1. pose proof lk_order2. pose proof lk_fits.
  pose proof lk_etext_al. pose proof lk_trampoline_al. assert (Hpg : lk_etext < PHYSTOP).
  { destruct l as [|q l]; [simpl in Hl; lia|]. destruct (ki_valid _ _ _ Hk q ltac:(by left)) as [_ Hv]. unfold valid_page in Hv. layout_lia. }
  unfold kvmmake. destruct l as [|q l]; [simpl in Hl; lia|]. apply (fresh_root s0 q l); [done|]. simpl in Hl.
  apply wp_bind. eapply wp_mono; [by apply (uvmcreate_taken s0 (q :: l))|].
  intros root s1 [(_ & _ & ?)|(_ & (l1 & [= -> ->] & K1) & T1 & HP1)]; [done|].
  assert (M1 : mapped_as s0 s1 l1 root [] []) by (by split). fold RW RX.
  assert (Ht : lk_etext - KERNBASE = (lk_etext - KERNBASE) / PGSIZE * PGSIZE) by layout_lia. rewrite Ht.
  assert (Hd : PHYSTOP - lk_etext = (PHYSTOP - lk_etext) / PGSIZE * PGSIZE) by layout_lia. rewrite Hd. clear Ht Hd.
  (* the regions of two parts of memory *)
  assert (Hreg : regions KERNBASE ((lk_etext - KERNBASE) / PGSIZE) + regions lk_etext ((PHYSTOP - lk_etext) / PGSIZE) ≤ 65) by (unfold regions; layout_lia).
  assert (Hr0 : 0 ≤ regions KERNBASE ((lk_etext - KERNBASE) / PGSIZE)) by (unfold regions; layout_lia).
  assert (Hr1 : 0 ≤ regions lk_etext ((PHYSTOP - lk_etext) / PGSIZE)) by (unfold regions; layout_lia).
  eapply (kvmmap_step _ _ _ _ _ _ (Region UART0 1 UART0 RW) 1); [exact M1 | unfold UART0; region_tac | done | lia|]. clear M1 K1 T1 HP1. intros s2 l2 M2 C2.
  eapply (kvmmap_step _ _ _ _ _ _ (Region VIRTIO0 1 VIRTIO0 RW) 1); [exact M2 | unfold VIRTIO0, UART0; region_tac | done | lia|]. clear M2. intros s3 l3 M3 C3.
  eapply (kvmmap_step _ _ _ _ _ _ (Region PLIC 1024 PLIC RW) 2); [exact M3 | unfold PLIC, VIRTIO0, UART0; region_tac | done | lia|]. clear M3. intros s4 l4 M4 C4.
  eapply (kvmmap_step _ _ _ _ _ _ (Region KERNBASE ((lk_etext - KERNBASE) / PGSIZE) KERNBASE RX)); [exact M4 | unfold PLIC, VIRTIO0, UART0; region_tac | apply Z.le_refl | cbn [rg_va rg_n]; lia|]. clear M4. intros s5 l5 M5 C5.
  eapply (kvmmap_step _ _ _ _ _ _ (Region lk_etext ((PHYSTOP - lk_etext) / PGSIZE) lk_etext RW)); [exact M5 | unfold PLIC, VIRTIO0, UART0; region_tac | apply Z.le_refl | cbn [rg_va rg_n] in *; lia|]. clear M5. intros s6 l6 M6 C6.
  eapply (kvmmap_step _ _ _ _ _ _ (Region TRAMPOLINE 1 lk_trampoline RX) 1); [exact M6 | unfold PLIC, VIRTIO0, UART0; region_tac | cbn [rg_va rg_n]; rewrite regions_1; lia | cbn [rg_va rg_n] in *; lia|]. clear M6. intros s7 l7 M7 C7.
  cbn [rg_va rg_n] in *. unfold proc_mapstacks. apply wp_bind. change 0 with (Z.of_nat (length (@nil Z))) at 1.
  eapply wp_mono; [apply (proc_mapstacks_loop_wp (Z.to_nat NPROC) s0 s7 l7 root []); [exact M7 | done | change (Z.to_nat NPROC) with 64%nat; lia]|].
  intros [] s8 (qs & l8 & Hlen & M8 & C8). apply wp_ret. exists qs, l8. split; [done|]. split; [done|]. change (Z.to_nat NPROC) with 64%nat in C8. simpl length. lia.
Qed.

(** ** What the table says *)

(** Addresses mapped to themselves: devices and physical memory. *)
Definition identity (va : Z) : Prop :=
  UART0 ≤ va < UART0 + PGSIZE ∨ VIRTIO0 ≤ va < VIRTIO0 + PGSIZE ∨ PLIC ≤ va < PLIC + 0x400000 ∨ KERNBASE ≤ va < PHYSTOP.

Lemma stack_of_high va j : stack_of va = Some j → 0 ≤ j < NPROC → 67108735 ≤ va / PGSIZE < 67108863.
Proof.
  unfold stack_of, NPROC. rewrite TRAMPOLINE_page. destruct (_ && _) eqn:B; [|done]. apply andb_prop in B as [_ B%Z.eqb_eq]. intros [= H]. lia.
Qed.

Lemma rg_identity va0 n perm va : 0 ≤ va0 → va0 mod PGSIZE = 0 → va0 + n * PGSIZE ≤ 2 ^ 32 → 0 ≤ perm < 1024 → va0 ≤ va < va0 + n * PGSIZE →
  rg_has (Region va0 n va0 perm) va = true ∧ PTE2PA (rg_pte (Region va0 n va0 perm) va) + va mod PGSIZE = va.
Proof.
  intros H0 Ha Hb Hp Hv. unfold rg_has, rg_pte. cbn [rg_va rg_n rg_pa rg_perm].
  split; [unfold PGSIZE in *; lia|]. rewrite entry_page; unfold PGSIZE in *; lia.
Qed.

Lemma translate_hit m1 r m2 va : Forall (λ r, rg_has r va = false) m1 → rg_has r va = true → translate (m1 ++ r :: m2) va = rg_pte r va.
Proof. intros H Hr. induction H as [|x m1 Hx _ IH]; cbn [app translate]; [by rewrite Hr | by rewrite Hx]. Qed.

(** The entry of an address in a region mapped to itself. *)
Lemma identity_entry m1 va0 n perm m2 va : Forall (λ r, rg_has r va = false) m1 → 0 ≤ va0 → va0 mod PGSIZE = 0 → va0 + n * PGSIZE ≤ 2 ^ 32 → 0 ≤ perm < 1024 →
  va0 ≤ va < va0 + n * PGSIZE → let w := translate (m1 ++ Region va0 n va0 perm :: m2) va in
  Z.testbit w 0 = true ∧ PTE2PA w + va mod PGSIZE = va ∧ Z.testbit w 3 = Z.testbit perm 3.
Proof.
  intros Hm H0 Ha Hb Hp Hv w. destruct (rg_identity va0 n perm va H0 Ha Hb Hp Hv) as [Hh He]. unfold w. rewrite translate_hit by done.
  split; [|split; [done|]]; unfold rg_pte; cbn [rg_va rg_n rg_pa rg_perm]; rewrite entry_bit by (unfold PGSIZE in *; lia); [apply orb_true_r | apply orb_false_r].
Qed.

Ltac outside_tac := repeat constructor; unfold rg_has; cbn [rg_va rg_n]; rewrite ?TRAMPOLINE_page; unfold PLIC, VIRTIO0, UART0 in *; layout_lia.

Lemma base_identity va : lk_etext < PHYSTOP → identity va →
  let w := translate base_map va in Z.testbit w 0 = true ∧ PTE2PA w + va mod PGSIZE = va ∧ Z.testbit w 3 = (KERNBASE <=? va) && (va <? lk_etext).
Proof.
  intros Hpg Hi w. pose proof lk_trampoline_lo. pose proof lk_order1. pose proof lk_order2. pose proof lk_fits. pose proof lk_etext_al.
  assert (G : ∀ m1 va0 n perm m2, base_map = m1 ++ Region va0 n va0 perm :: m2 → Forall (λ r, rg_has r va = false) m1 → 0 ≤ va0 → va0 mod PGSIZE = 0 → va0 + n * PGSIZE ≤ 2 ^ 32 →
    0 ≤ perm < 1024 → va0 ≤ va < va0 + n * PGSIZE → Z.testbit perm 3 = (KERNBASE <=? va) && (va <? lk_etext) →
    Z.testbit w 0 = true ∧ PTE2PA w + va mod PGSIZE = va ∧ Z.testbit w 3 = (KERNBASE <=? va) && (va <? lk_etext)).
  { intros m1 va0 n perm m2 E Hm H5 H6 H7 H8 H9 <-. unfold w. rewrite E. by apply identity_entry. }
  unfold identity, UART0, VIRTIO0, PLIC in Hi. destruct Hi as [Hi|[Hi|[Hi|Hi]]].
  - apply (G (take 5 base_map) UART0 1 RW []); [done | outside_tac | done | done | done | done | done | symmetry; apply andb_false_iff; left; layout_lia].
  - apply (G (take 4 base_map) VIRTIO0 1 RW (drop 5 base_map)); [done | outside_tac | done | done | done | done | done | symmetry; apply andb_false_iff; left; layout_lia].
  - apply (G (take 3 base_map) PLIC 1024 RW (drop 4 base_map)); [done | outside_tac | done | done | done | done | done | symmetry; apply andb_false_iff; left; layout_lia].
  - destruct (Z.ltb_spec va lk_etext).
    + apply (G (take 2 base_map) KERNBASE ((lk_etext - KERNBASE) / PGSIZE) RX (drop 3 base_map)); [done | outside_tac | done | done | layout_lia | done | layout_lia |].
      symmetry. rewrite (proj2 (Z.leb_le _ _)) by lia. done.
    + apply (G (take 1 base_map) lk_etext ((PHYSTOP - lk_etext) / PGSIZE) RW (drop 2 base_map)); [done | outside_tac | layout_lia | done | layout_lia | done | layout_lia |].
      by rewrite andb_false_r.
Qed.

(** No page is writable and executable, and none is for user programs. *)
Definition kernel_pte (w : Z) : Prop := Z.testbit w 2 && Z.testbit w 3 = false ∧ Z.testbit w 4 = false.

Lemma translate_kernel m va : Forall (λ r, (rg_perm r = RW ∨ rg_perm r = RX) ∧ 0 ≤ rg_pa r ∧ rg_pa r + rg_n r * PGSIZE ≤ 2 ^ 56) m → kernel_pte (translate m va).
Proof.
  induction 1 as [|r m (Hp & H0 & H1) _ IH]; cbn [translate]; [done|]. destruct (rg_has r va) eqn:Hh; [|done]. unfold rg_has in Hh. unfold rg_pte.
  assert (Hb : 0 ≤ rg_pa r + (va / PGSIZE - rg_va r / PGSIZE) * PGSIZE < 2 ^ 56) by (unfold PGSIZE in *; lia).
  unfold kernel_pte. rewrite !entry_bit by lia. destruct Hp as [-> | ->]; done.
Qed.

Lemma stack_regions_perm p qs m : Forall valid_page qs → Forall (λ r, (rg_perm r = RW ∨ rg_perm r = RX) ∧ 0 ≤ rg_pa r ∧ rg_pa r + rg_n r * PGSIZE ≤ 2 ^ 56) m →
  Forall (λ r, (rg_perm r = RW ∨ rg_perm r = RX) ∧ 0 ≤ rg_pa r ∧ rg_pa r + rg_n r * PGSIZE ≤ 2 ^ 56) (stack_regions p qs m).
Proof.
  intros Hv. revert p m. induction Hv as [|q qs Hq _ IH]; intros p m Hm; cbn [stack_regions]; [done|]. apply IH. constructor; [|done].
  destruct (valid_page_bounds q Hq). cbn [rg_perm rg_pa rg_n]. unfold PGSIZE. split; [by left | lia].
Qed.

(** The page of a stack and the one below it. *)
Lemma kstack_slots p : 0 ≤ p < 64 → 0 ≤ KSTACK p < MAXVA ∧ 0 ≤ KSTACK p - PGSIZE < MAXVA ∧ stack_of (KSTACK p) = Some p ∧ stack_of (KSTACK p - PGSIZE) = None.
Proof.
  intros Hp. assert (E : KSTACK p = (67108863 - (p + 1) * 2) * PGSIZE) by (unfold KSTACK; change TRAMPOLINE with (67108863 * PGSIZE); lia).
  assert (E' : KSTACK p - PGSIZE = (67108862 - (p + 1) * 2) * PGSIZE) by (rewrite E; lia). rewrite E', E, MAXVA_value.
  split; [unfold PGSIZE; lia|]. split; [unfold PGSIZE; lia|]. unfold stack_of. rewrite TRAMPOLINE_page, !Z.div_mul by done. split.
  - replace (67108863 - (67108863 - (p + 1) * 2)) with ((p + 1) * 2) by lia. rewrite Z.mod_mul, Z.div_mul, (proj2 (Z.ltb_lt _ _)) by lia. simpl. f_equal. lia.
  - destruct (Z.ltb_spec 0 (67108863 - (67108862 - (p + 1) * 2))), (Z.eqb_spec ((67108863 - (67108862 - (p + 1) * 2)) mod 2) 0); try done. lia.
Qed.

Lemma base_guard p : 0 ≤ p < 64 → translate base_map (KSTACK p - PGSIZE) = 0.
Proof.
  intros Hp. pose proof lk_trampoline_lo. pose proof lk_order1. pose proof lk_order2. pose proof lk_fits.
  assert (Hd : (KSTACK p - PGSIZE) / PGSIZE = 67108862 - (p + 1) * 2) by (unfold KSTACK; change TRAMPOLINE with (67108863 * PGSIZE); unfold PGSIZE; lia).
  apply translate_none. unfold base_map, PLIC, VIRTIO0, UART0. repeat constructor; unfold rg_has; cbn [rg_va rg_n]; rewrite Hd, ?TRAMPOLINE_page; layout_lia.
Qed.

(** What the page table of the kernel in [s] says, with the stacks in the pages [qs]:
    devices and memory at their own addresses, executable exactly in the text; the
    trampoline; a stack for each process above an unmapped page; nothing that is both
    writable and executable or open to user programs. *)
Record kernel_space (s : kstate) (root : Z) (qs : list Z) : Prop := KernelSpace {
  ks_wf : pt_wf s root;
  ks_nodup : NoDup qs;
  ks_len : length qs = Z.to_nat NPROC;
  ks_identity : ∀ va, identity va → let w := pte_of (mem s) root va in
    Z.testbit w 0 = true ∧ PTE2PA w + va mod PGSIZE = va ∧ Z.testbit w 3 = (KERNBASE <=? va) && (va <? lk_etext);
  ks_trampoline : pte_of (mem s) root TRAMPOLINE = entry lk_trampoline RX;
  ks_stacks : ∀ p q, qs !! p = Some q →
    pte_of (mem s) root (KSTACK (Z.of_nat p)) = entry q RW ∧ pte_of (mem s) root (KSTACK (Z.of_nat p) - PGSIZE) = 0;
  ks_safe : ∀ va, 0 ≤ va < MAXVA → kernel_pte (pte_of (mem s) root va);
}.

(** Pages in use stay as they are. *)
Definition grown (s s' : kstate) : Prop :=
  ∀ x, valid_page x → 0 < rc s x → rc s' x = rc s x ∧ same_page (mem s) (mem s') x.

Lemma grown_refl s : grown s s.
Proof. by intros x _ _. Qed.

Lemma grown_trans s1 s2 s3 : grown s1 s2 → grown s2 s3 → grown s1 s3.
Proof.
  intros H1 H2 x Hx Hr. destruct (H1 x Hx Hr) as [E1 S1]. destruct (H2 x Hx) as [E2 S2]; [lia|]. split; [lia|].
  intros b Hb. by rewrite S2, S1.
Qed.

Lemma grown_tree s s' root : grown s s' → pt_wf s root → same_tree s s' root.
Proof.
  intros G W. apply (pt_same s s' root W). intros x (p & Hp & E). destruct (pw_page _ _ W p x Hp E) as [Hv Hr].
  destruct (G x Hv ltac:(lia)) as [E' Hs]. by split.
Qed.

Lemma kernel_space_grown s s' root qs : grown s s' → kernel_space s root qs → kernel_space s' root qs.
Proof.
  intros G [W N Hl Hi Ht Hs Hk]. destruct (grown_tree s s' root G W) as (W' & _ & E). split; try done.
  - intros va Hv. rewrite E. by apply Hi.
  - by rewrite E.
  - intros p q Hq. rewrite !E. by apply Hs.
  - intros va Hv. rewrite E. by apply Hk.
Qed.

Lemma kvmmake_space s0 l : kinv s0 l → (333 ≤ length l)%nat →
  wp kvmmake s0 (λ root s, ∃ qs l', kinv s l' ∧ (length l ≤ length l' + 333)%nat ∧ kernel_space s root qs ∧ grown s0 s ∧
    ∀ x, valid_page x → rc s0 x = 0 → 0 < rc s x → x ∈ qs ∨ pt_node s root x).
Proof.
  intros Hk Hl. eapply wp_mono; [by apply (kvmmake_wp s0 l)|]. intros root s (qs & l' & Hlen & [K T HP] & Hc).
  pose proof lk_trampoline_lo. pose proof lk_order1. pose proof lk_order2. pose proof lk_fits.
  assert (Hpg : lk_etext < PHYSTOP).
  { destruct l as [|q l]; [simpl in Hl; lia|]. destruct (ki_valid _ _ _ Hk q ltac:(by left)) as [_ Hv]. layout_lia. }
  assert (Hqv : Forall valid_page qs) by (apply Forall_forall; intros q Hq; by apply (tk_page _ _ _ _ T)).
  assert (HT : ∀ va, 0 ≤ va < MAXVA → (∀ j, stack_of va = Some j → ¬ 0 ≤ j < NPROC) → pte_of (mem s) root va = translate base_map va).
  { intros va Hva Hns. rewrite HP by done. unfold kernel_map. rewrite stacks_translate by lia. destruct (stack_of va) as [j|]; [|done].
    destruct (Z.leb_spec 0 j); [|done]. rewrite lookup_ge_None_2; [done|]. specialize (Hns j eq_refl). unfold NPROC in Hns. lia. }
  exists qs, l'. split; [done|]. split; [done|]. split; [split|split].
  - apply T.
  - apply T.
  - done.
  - intros va Hi. cbv zeta. rewrite HT; [by apply base_identity | unfold identity, UART0, VIRTIO0, PLIC in Hi; layout_lia|].
    intros j Hj Hjb. pose proof (stack_of_high va j Hj Hjb). unfold identity, UART0, VIRTIO0, PLIC in Hi. layout_lia.
  - rewrite HT; [|layout_lia|by intros j Hj; unfold stack_of in Hj; rewrite TRAMPOLINE_page in Hj]. unfold base_map. cbn [translate]. unfold rg_has, rg_pte. cbn [rg_va rg_n rg_pa rg_perm].
    rewrite TRAMPOLINE_page. f_equal. lia.
  - intros p q Hp. pose proof (lookup_lt_Some _ _ _ Hp) as Hpl. rewrite Hlen in Hpl.
    destruct (kstack_slots (Z.of_nat p) ltac:(lia)) as (Hb & Hb' & Hs & Hg). split.
    + rewrite HP by done. unfold kernel_map. rewrite stacks_translate by lia. by rewrite Hs, (proj2 (Z.leb_le 0 _)), Z.sub_0_r, Nat2Z.id, Hp by lia.
    + rewrite HT; [apply base_guard; lia | done | by rewrite Hg].
  - intros va Hva. rewrite HP by done. apply translate_kernel, stack_regions_perm; [done|]. unfold base_map, PLIC, VIRTIO0, UART0. repeat constructor; cbn [rg_perm rg_pa rg_n]; (by left) || (by right) || layout_lia.
  - intros x Hx Hr. by apply (tk_keep _ _ _ _ T).
  - intros x Hx Hx0 Hr. destruct (tk_leak _ _ _ _ T x Hx Hx0) as [|[|]]; [lia | by left | by right].
Qed.

(** C23. [kvmmake], given 333 free pages, returns without panic a page table that maps
    every device register and every byte of physical memory at its own address,
    executable exactly in the text of the kernel; the trampoline at its place; and for
    each process a stack in a page of its own, with the page below it unmapped.  No
    page is both writable and executable, none is open to user programs, the pages
    used before have not changed, and only tables and stacks have been allocated. *)
Theorem kernel_map_correct s0 l : kinv s0 l → (333 ≤ length l)%nat →
  ∃ root s qs, kvmmake s0 = Ret (root, s) ∧ (∃ l', kinv s l') ∧ kernel_space s root qs ∧ grown s0 s ∧
  (∀ x, valid_page x → rc s0 x = 0 → 0 < rc s x → x ∈ qs ∨ pt_node s root x).
Proof.
  intros Hk Hl. destruct (wp_elim _ _ _ (kvmmake_space s0 l Hk Hl)) as (root & s & E & qs & l' & K & _ & H). exists root, s, qs. eauto.
Qed.
End Kvm.

(** ** A machine with four hundred free pages *)

Definition roomy : Linker := {|
  lk_trampoline := KERNBASE;
  lk_etext := KERNBASE + PGSIZE;
  lk_end := PHYSTOP - 400 * PGSIZE;
|}.

Lemma roomy_ok : LinkerOk roomy.
Proof. split; vm_compute; done || (intros; discriminate). Qed.

Lemma kernel_map_correct_witness : ∃ s0 root s (qs : list Z), kinit (L := roomy) (boot_kstate (λ _, 0)) = Ret (tt, s0) ∧
  kvmmake (L := roomy) s0 = Ret (root, s) ∧ length qs = 64%nat ∧ ∀ p q, qs !! p = Some q → pte_of (mem s) root (KSTACK (Z.of_nat p) - PGSIZE) = 0.
Proof.
  destruct (wp_elim _ _ _ (kinit_wp (LinkerOk0 := roomy_ok) (λ _, 0))) as ([] & s0 & E & K). exists s0.
  destruct (kernel_map_correct (L := roomy) (LOk := roomy_ok) s0 _ K) as (root & s & qs & E2 & _ & [_ _ Hl _ _ Hs _] & _);
    [vm_compute; repeat constructor|].
  exists root, s, qs. split; [exact E|]. split; [exact E2|]. split; [exact Hl|]. intros p q Hp. apply (Hs p q Hp).
Defined.
