(* ===== verification/Image.v ===== *)
(** * The bytes of an address space under construction (kernel/exec.c, kernel/vm.c)

    The pages of an address space hold an image, a byte for each address; writing into
    pages, growing the space, closing the guard page and copying arguments to the stack
    change the image as they should. *)

From stdpp Require Import base numbers list strings.
From S2P Require Import Prelude Str Layout Kalloc Vm PageTable Uvm Ucopy Freewalk Aspace.
Local Open Scope Z_scope.

Section Image.
Context {L : Linker} {LOk : LinkerOk L}.

(** The user pages [ws], from address 0 on, hold the bytes [img]. *)
Definition shows (s : kstate) (ws : list Z) (img : Z → Z) : Prop :=
  ∀ i w o, ws !! i = Some w → 0 ≤ o < PGSIZE → u8 (mem s (PTE2PA w + o)) = img (Z.of_nat i * PGSIZE + o).

(** Nothing is beyond the pages. *)
Definition ends (ws : list Z) (img : Z → Z) : Prop := ∀ va, Z.of_nat (length ws) * PGSIZE ≤ va → img va = 0.

(** Each page has its permissions. *)
Definition perms (ws ps : list Z) : Prop := Forall2 (λ w p, ∃ q, valid_page q ∧ w = entry q p) ws ps.

Lemma shows_keeps s s' ws img : keeps (PTE2PA <$> ws) s s' → shows s ws img → shows s' ws img.
Proof.
  intros K H i w o Hi Ho. rewrite (K (PTE2PA w)); [by apply H | | lia].
  apply list_elem_of_fmap_2. by eapply list_elem_of_lookup_2.
Qed.

Lemma new_perm_bound xperm : 0 ≤ xperm < 1024 → 0 ≤ Z.lor (Z.lor PTE_R PTE_U) xperm < 1024.
Proof. intros H. by apply (lor_bound _ _ 10). Qed.

Lemma shows_grow s ws vs xperm img : 0 ≤ xperm < 1024 →
  shows s ws img → ends ws img → new_pages s xperm vs → shows s (ws ++ vs) img ∧ ends (ws ++ vs) img.
Proof.
  intros Hx Hs He Hn. split.
  - intros i w o Hi Ho. destruct (decide (i < length ws)%nat) as [Hl|Hl]; [rewrite lookup_app_l in Hi by lia; by apply (Hs i w o)|].
    rewrite lookup_app_r in Hi by lia. unfold new_pages in Hn. rewrite Forall_lookup in Hn. destruct (Hn _ _ Hi) as (q & Hv & -> & Hz).
    destruct (valid_page_bounds q Hv). rewrite entry_page by (done || lia || by apply new_perm_bound). rewrite Hz by lia.
    rewrite He; [done|]. unfold PGSIZE in *. lia.
  - intros va Hva. apply He. rewrite length_app in Hva. unfold PGSIZE in *. lia.
Qed.

Lemma perms_grow s ws vs ps xperm :
  perms ws ps → new_pages s xperm vs → perms (ws ++ vs) (ps ++ replicate (length vs) (Z.lor (Z.lor PTE_R PTE_U) xperm)).
Proof.
  intros H Hn. apply Forall2_app; [done|]. clear H. induction Hn as [|w vs (q & Hv & -> & _) Hn IH]; [constructor|].
  simpl. constructor; [eauto | done].
Qed.

(** Writing bytes inside a page. *)
Lemma built_write s0 s l root tf ws i w o bs :
  built s0 s root tf ws → kinv s l → ws !! i = Some w → 0 ≤ o → o + Z.of_nat (length bs) ≤ PGSIZE →
  let s' := set_mem (write_bytes (PTE2PA w + o) bs) s in
  built s0 s' root tf ws ∧ kinv s' l ∧
  ∀ img, shows s ws img → shows s' ws (write_bytes (Z.of_nat i * PGSIZE + o) bs img).
Proof.
  intros [T Hs Hlf] Hk Hi Ho Hl s'.
  assert (Hin : PTE2PA w ∈ PTE2PA <$> ws) by (apply list_elem_of_fmap_2; by eapply list_elem_of_lookup_2).
  assert (Hout : ∀ b, b < PTE2PA w ∨ PTE2PA w + PGSIZE ≤ b → write_bytes (PTE2PA w + o) bs (mem s) b = mem s b).
  { intros b Hb. apply write_bytes_out. lia. }
  destruct (tk_page _ _ _ _ T _ Hin) as (Hv & Hr & _ & Hn).
  destruct (taken_write s0 s root _ _ (write_bytes (PTE2PA w + o) bs) T Hin Hout) as (T' & St & S').
  destruct (write_user s l root _ (write_bytes (PTE2PA w + o) bs) Hk (tk_wf _ _ _ _ T) Hv ltac:(lia) Hn Hout) as (Hk' & _).
  split; [split; [done| |done]|].
  { intros va Hva. destruct St as (_ & _ & E). rewrite E. by apply Hs. }
  split; [done|]. intros img H j v p Hj Hp. destruct (decide (j = i)) as [->|Hne].
  - assert (v = w) as -> by congruence. unfold s'. simpl. rewrite !write_bytes_spec.
    replace (PTE2PA w + p - (PTE2PA w + o)) with (p - o) by lia.
    replace (Z.of_nat i * PGSIZE + p - (Z.of_nat i * PGSIZE + o)) with (p - o) by lia.
    rewrite <- (H i w p Hi Hp). destruct (bs !! Z.to_nat (p - o)); [|done].
    destruct (Z.leb_spec (PTE2PA w + o) (PTE2PA w + p)), (Z.leb_spec (Z.of_nat i * PGSIZE + o) (Z.of_nat i * PGSIZE + p)); try lia; by rewrite ?u8_idem.
  - assert (Hnd : PTE2PA v ≠ PTE2PA w).
    { intros E. apply Hne. pose proof (tk_nodup _ _ _ _ T) as ND. rewrite NoDup_alt in ND.
      apply (ND j i (PTE2PA w)); rewrite list_lookup_fmap; [by rewrite Hj, <- E | by rewrite Hi]. }
    destruct (tk_page _ _ _ _ T (PTE2PA v)) as (Hvv & _); [apply list_elem_of_fmap_2; by eapply list_elem_of_lookup_2|].
    rewrite (S' _ Hvv Hnd) by lia. rewrite write_bytes_out; [by apply H|]. unfold PGSIZE in *. nia.
Qed.

(** Replacing one entry of the space. *)
Lemma space_insert tf ws i w va : (i < length ws)%nat → Z.of_nat (length ws) ≤ 32768 → 0 ≤ va < MAXVA →
  (if va / PGSIZE =? Z.of_nat i then w else space_pte tf ws va) = space_pte tf (<[i := w]> ws) va.
Proof.
  intros Hi Hl Hva. rewrite MAXVA_value in Hva. assert (0 ≤ va / PGSIZE < 67108864) by (unfold PGSIZE; lia).
  unfold space_pte. rewrite TRAMPOLINE_page, TRAPFRAME_page.
  destruct (Z.eqb_spec (va / PGSIZE) (Z.of_nat i)) as [E|E].
  - rewrite (proj2 (Z.eqb_neq _ 67108863)), (proj2 (Z.eqb_neq _ 67108862)) by lia. rewrite E, Nat2Z.id. by rewrite list_lookup_insert_eq.
  - by rewrite list_lookup_insert_ne by lia.
Qed.

(** The guard page: the entry loses [PTE_U] and keeps its page. *)
Lemma entry_clear q p : 0 ≤ q < 2 ^ 56 → Z.land (entry q p) (Z.lnot PTE_U) = entry q (Z.land p (Z.lnot PTE_U)).
Proof.
  intros Hq. unfold entry. rewrite !Z.land_lor_distr_l. f_equal. f_equal. apply Z.bits_inj'. intros k Hk.
  rewrite Z.land_spec, Z.lnot_spec by done. change PTE_U with (2 ^ 4). rewrite Z.pow2_bits_eqb by lia.
  destruct (Z.eqb_spec 4 k) as [<-|]; [by rewrite PA2PTE_testbit by lia | by rewrite andb_true_r].
Qed.

Lemma clear_bound p : 0 ≤ p < 1024 → 0 ≤ Z.land p (Z.lnot PTE_U) < 1024.
Proof.
  intros H. rewrite <- Z.ldiff_land. assert (E : Z.ldiff p PTE_U = Z.ldiff p PTE_U mod 2 ^ 10).
  { rewrite <- Z.land_ones by lia. apply Z.bits_inj'. intros k Hk.
    rewrite Z.land_spec, Z.ldiff_spec, Z.testbit_ones by lia. destruct (Z.ltb_spec k 10) as [|Hge]; [by rewrite (proj2 (Z.leb_le 0 k)), andb_true_r by lia|].
    rewrite (Z.bits_above_log2 p); [done | lia|]. destruct (decide (p = 0)) as [->|]; [simpl; lia|].
    apply Z.log2_lt_pow2; [lia|]. assert (1024 ≤ 2 ^ k) by (change 1024 with (2 ^ 10); apply Z.pow_le_mono_r; lia). lia. }
  rewrite E. apply Z.mod_pos_bound. lia.
Qed.

Lemma entry_bound q p : 0 ≤ q < 2 ^ 56 → 0 ≤ p < 1024 → 0 ≤ entry q p < 2 ^ 54.
Proof.
  intros Hq Hp. unfold entry. apply lor_bound; [lia | by apply pte_bound | done].
Qed.

Lemma built_clear s0 s l root tf ws i q p :
  built s0 s root tf ws → kinv s l → ws !! i = Some (entry q p) → valid_page q → 0 ≤ p < 1024 → Z.testbit p 1 = true →
  wp (uvmclear root (Z.of_nat i * PGSIZE)) s (λ _ s', kinv s' l ∧ let ws' := <[i := entry q (Z.land p (Z.lnot PTE_U))]> ws in
    built s0 s' root tf ws' ∧ ∀ img, shows s ws img → shows s' ws' img).
Proof.
  intros B Hk Hi Hv Hp Hp1. pose proof (built_len _ _ _ _ _ B) as Hl. pose proof (lookup_lt_Some _ _ _ Hi) as Hil.
  destruct B as [T Hs Hlf]. destruct (valid_page_bounds q Hv) as [Hq Hqa]. pose proof (clear_bound p Hp) as Hcb.
  set (va := Z.of_nat i * PGSIZE). assert (Hd : va / PGSIZE = Z.of_nat i) by (unfold va; by rewrite Z.div_mul).
  assert (Hva : 0 ≤ va < MAXVA) by (rewrite MAXVA_value; unfold va, PGSIZE; lia).
  assert (E : pte_of (mem s) root va = entry q p) by (rewrite Hs, space_user, Hd, Nat2Z.id, Hi by lia; done).
  destruct (slot_some s root va) as (a & Ha & Hload); [rewrite E, entry_bit by lia; by rewrite orb_true_r|].
  unfold uvmclear. apply wp_bind. eapply wp_mono; [by apply walk_lookup_wp|]. intros r s' [-> ->]. rewrite Ha. simpl default.
  rewrite (proj2 (Z.eqb_neq a 0)) by (pose proof (slot_pos s root va a (tk_wf _ _ _ _ T) Ha); lia).
  apply wp_bind, wp_gets. rewrite Hload, E, entry_clear by lia. set (w' := entry q (Z.land p (Z.lnot PTE_U))).
  apply wp_modify. pose proof (kinv_store s l root va a w' Hk (tk_wf _ _ _ _ T) Ha) as Hk'.
  pose proof (store_leaf s root va a w' (tk_wf _ _ _ _ T) Hva Ha) as U. split; [done|].
  destruct (taken_upd _ _ _ _ l _ _ T U Hk') as [T' K].
  assert (Hpg : PTE2PA <$> <[i := w']> ws = PTE2PA <$> ws).
  { rewrite list_fmap_insert. apply list_insert_id. rewrite list_lookup_fmap, Hi. simpl. unfold w'. by rewrite !entry_page by (done || lia). }
  cbv zeta. split.
  - split; [by rewrite Hpg| |].
    + intros va' Hva'. rewrite (pu_pte _ _ _ _ U), <- space_insert by done. unfold set_pte. rewrite Hd, Hs by done.
      destruct (_ =? _); [|done]. unfold u64. apply Z.mod_small. pose proof (entry_bound q (Z.land p (Z.lnot PTE_U)) ltac:(lia) Hcb). fold w' in H. lia.
    + apply Forall_insert; [done|]. apply entry_leaf; [lia|]. rewrite Z.land_spec, Hp1. done.
  - intros img H j v o Hj Ho. destruct (decide (j = i)) as [->|Hne].
    + rewrite list_lookup_insert_eq in Hj by done. injection Hj as <-. rewrite <- (H i (entry q p) o Hi Ho). unfold w'.
      rewrite !entry_page by (done || lia). rewrite (K q); [done| |lia]. rewrite <- (entry_page q p) by (done || lia). apply list_elem_of_fmap_2. by eapply list_elem_of_lookup_2.
    + rewrite list_lookup_insert_ne in Hj by done. rewrite <- (H j v o Hj Ho). rewrite (K (PTE2PA v)); [done| |lia].
      apply list_elem_of_fmap_2. by eapply list_elem_of_lookup_2.
Qed.

(** ** [copyout] to a page of the space *)

Lemma elem_insert (P : list Z) i x y z : NoDup P → P !! i = Some y →
  z ∈ <[i := x]> P ↔ z = x ∨ (z ∈ P ∧ z ≠ y).
Proof.
  intros ND Hi. pose proof (lookup_lt_Some _ _ _ Hi) as Hl. rewrite !list_elem_of_lookup. split.
  - intros [j Hj]. destruct (decide (j = i)) as [->|Hne]; [rewrite list_lookup_insert_eq in Hj by done; left; congruence|].
    rewrite list_lookup_insert_ne in Hj by done. right. split; [by exists j|]. intros ->.
    rewrite NoDup_alt in ND. by apply Hne, (ND j i y).
  - intros [->|[[j Hj] Hne]]; [exists i; by rewrite list_lookup_insert_eq|]. exists j. rewrite list_lookup_insert_ne; [done|]. intros ->. congruence.
Qed.

Lemma nodup_insert (P : list Z) i x : NoDup P → x ∉ P → NoDup (<[i := x]> P).
Proof.
  intros ND Hx. rewrite NoDup_alt in *. assert (Hno : ∀ j, P !! j ≠ Some x) by (intros j Hj; apply Hx; by eapply list_elem_of_lookup_2).
  intros j j' y. destruct (decide (i < length P)%nat) as [Hl|]; [|rewrite list_insert_ge by lia; apply ND].
  destruct (decide (i = j)) as [<-|], (decide (i = j')) as [<-|]; rewrite ?list_lookup_insert_eq, ?list_lookup_insert_ne by done; intros; simplify_eq; try done.
  - by destruct (Hno j').
  - by destruct (Hno j).
  - by apply (ND j j' y).
Qed.

(** A page of the space gives way to a private copy. *)
Lemma taken_swap s0 s s' l root va P i w q :
  taken_from s0 s root P → P !! i = Some (PTE2PA w) → kinv s (q :: l) → private s s' root va w q →
  taken_from s0 s' root (<[i := q]> P) ∧ rc s' (PTE2PA w) = 0 ∧ ∀ x, x ∈ P → x ≠ PTE2PA w → same_page (mem s) (mem s') x.
Proof.
  intros T Hi Hk [I W HN _ R F C]. assert (HiP : PTE2PA w ∈ P) by (by eapply list_elem_of_lookup_2).
  assert (Hq : valid_page q) by (apply (ki_valid _ _ _ Hk); by left). assert (Hq0 : rc s q = 0) by (apply (ki_free _ _ _ Hk); by left).
  assert (HqP : q ∉ P) by (intros H; destruct (tk_page _ _ _ _ T q H) as (_ & ? & _); lia).
  assert (Hwq : PTE2PA w ≠ q) by (intros E; by rewrite E in HiP). destruct (tk_inv0 _ _ _ _ T) as [l0 Hk0].
  assert (Hq00 : rc s0 q = 0).
  { pose proof (kinv_nonneg s0 l0 q Hk0 Hq). destruct (decide (rc s0 q = 0)); [done|]. destruct (tk_keep _ _ _ _ T q Hq); lia. }
  assert (Hqn : ¬ pt_node s root q) by (eapply free_not_node; [done | apply T]).
  assert (Ro : ∀ x, valid_page x → x ≠ q → x ≠ PTE2PA w → rc s' x = rc s x).
  { intros x Hx H1 H2. rewrite R by done. rewrite (proj2 (Z.eqb_neq x q)), (proj2 (Z.eqb_neq _ x)) by congruence. lia. }
  assert (Rq : rc s' q = 1) by (rewrite R, Z.eqb_refl, (proj2 (Z.eqb_neq _ q)) by done; lia).
  destruct (tk_page _ _ _ _ T _ HiP) as (Hv & Hr & Hr0 & Hn).
  assert (Rw : rc s' (PTE2PA w) = 0) by (rewrite R, Z.eqb_refl, (proj2 (Z.eqb_neq _ q)) by done; lia).
  pose proof (elem_insert P i q (PTE2PA w)) as Hel. pose proof (tk_nodup _ _ _ _ T) as ND.
  assert (HS : ∀ x, valid_page x → x ≠ q → x ≠ PTE2PA w → 0 < rc s x → ¬ pt_node s root x → same_page (mem s) (mem s') x).
  { intros x H1 H2 H3 H4 H5. apply F; [done | done | by rewrite Ro | done]. }
  split; [|split; [done|]]; [|intros x Hx Hne; destruct (tk_page _ _ _ _ T x Hx) as (? & ? & _ & ?); apply HS; [done | by intros -> | done | lia | done]].
  split; [apply T | done | done | by apply nodup_insert | | | |].
  - intros x. rewrite Hel, HN by done. intros [->|[Hx Hne]]; [done|]. destruct (tk_page _ _ _ _ T x Hx) as (? & ? & ? & ?).
    rewrite Ro by (done || by intros ->). done.
  - intros x. rewrite HN. apply (tk_node _ _ _ _ T).
  - intros x Hx H0. destruct (tk_keep _ _ _ _ T x Hx H0) as [E1 E2].
    assert (x ≠ q) by (intros ->; lia). assert (x ≠ PTE2PA w) by (intros ->; lia). rewrite Ro by done. split; [done|].
    intros b Hb. rewrite (HS x) by (done || lia || (intros Hx'; pose proof (tk_node _ _ _ _ T x Hx'); lia)). by apply E2.
  - intros x Hx H0. rewrite Hel, HN by done. destruct (decide (x = q)) as [->|]; [tauto|].
    destruct (decide (x = PTE2PA w)) as [->|]; [tauto|]. rewrite Ro by done. destruct (tk_leak _ _ _ _ T x Hx H0); tauto.
Qed.

Lemma user_rwx_entry q : Z.lor (PA2PTE q) user_rwx = entry q 30.
Proof. unfold entry, user_rwx. rewrite <- !Z.lor_assoc. reflexivity. Qed.

(** Bytes within one page: the page is replaced by a private one that holds them too. *)
Lemma built_copyout s0 s l root tf ws i w va src :
  built s0 s root tf ws → kinv s l → ws !! i = Some w → outable w → PGSIZE ≤ va → va / PGSIZE = Z.of_nat i →
  va mod PGSIZE + Z.of_nat (length src) ≤ PGSIZE →
  wp (copyout root va src) s (λ r s',
    (r = -1 ∧ l = [] ∧ s' = s) ∨
    (r = 0 ∧ ∃ q l', valid_page q ∧ kinv s' l' ∧ l' ≠ [] ∧ let ws' := <[i := entry q 30]> ws in
      built s0 s' root tf ws' ∧ ∀ img, shows s ws img → shows s' ws' (write_bytes va src img))).
Proof.
  intros B Hk Hi Ho Hva Hd Hlen. pose proof (built_len _ _ _ _ _ B) as Hl. pose proof (lookup_lt_Some _ _ _ Hi) as Hil.
  pose proof B as [T Hs Hlf]. assert (HM : PGSIZE ≤ va < MAXVA) by (rewrite MAXVA_value; unfold PGSIZE in *; lia).
  assert (E : pte_of (mem s) root va = w) by (rewrite Hs, space_user, Hd, Nat2Z.id, Hi by (unfold PGSIZE in *; lia); done).
  assert (HiP : (PTE2PA <$> ws) !! i = Some (PTE2PA w)) by (by rewrite list_lookup_fmap, Hi).
  destruct (tk_page _ _ _ _ T (PTE2PA w)) as (Hv & Hr & _ & Hn); [by eapply list_elem_of_lookup_2|].
  destruct l as [|q l]; [eapply wp_mono; [apply (copyout_nomem s root va w src); (done || apply T)|]; intros r s' [-> ->]; by left|].
  eapply wp_mono; [apply (copyout_wp s l root va w q src); (done || apply T || lia || by split)|].
  intros r s' (-> & s4 & P & ->). right. split; [done|]. destruct (taken_swap s0 s s4 l root _ _ i w q T HiP Hk P) as (T4 & R4 & F4).
  assert (Hq : valid_page q) by (apply (ki_valid _ _ _ Hk); by left). destruct (valid_page_bounds q Hq) as [Hqb Hqa].
  set (w' := entry q 30). assert (Hw' : PTE2PA w' = q) by (unfold w'; apply entry_page; [lia | done | done]).
  assert (B4 : built s0 s4 root tf (<[i := w']> ws)).
  { split; [by rewrite list_fmap_insert, Hw' | | apply Forall_insert; [done|]; apply entry_leaf; [lia | done]].
    intros va' Hva'. rewrite (pv_pte _ _ _ _ _ _ P), <- space_insert by done. unfold set_pte. rewrite user_rwx_entry, Hs by done.
    replace (PGROUNDDOWN va / PGSIZE) with (Z.of_nat i); [done|]. rewrite PGROUNDDOWN_spec by (unfold PGSIZE in *; lia). unfold PGSIZE in *; lia. }
  destruct (pv_inv _ _ _ _ _ _ P) as [l4 Hk4].
  assert (Hi4 : <[i := w']> ws !! i = Some w') by (by apply list_lookup_insert_eq).
  pose proof (Z.mod_pos_bound va PGSIZE ltac:(done)) as Hvm.
  destruct (built_write s0 s4 l4 root tf _ i w' (va mod PGSIZE) src B4 Hk4 Hi4 ltac:(lia) Hlen) as (B5 & K5 & S5). rewrite Hw' in *.
  exists q, l4. cbv zeta. fold w'. split_and!; [done | done | | done |].
  { intros ->. pose proof (ki_used _ _ _ Hk4 (PTE2PA w) Hv Logic.I ltac:(by apply not_elem_of_nil)). lia. }
  intros img H. replace va with (Z.of_nat i * PGSIZE + va mod PGSIZE) at 2 by (unfold PGSIZE in *; lia). apply S5.
  intros j v o Hj Hoo. destruct (decide (j = i)) as [->|Hne].
  - rewrite Hi4 in Hj. injection Hj as <-. rewrite Hw'. rewrite (pv_copy _ _ _ _ _ _ P) by done. by apply H.
  - rewrite list_lookup_insert_ne in Hj by done. rewrite (F4 (PTE2PA v)); [by apply H | | |lia].
    + apply list_elem_of_fmap_2. by eapply list_elem_of_lookup_2.
    + intros Ev. apply Hne. pose proof (tk_nodup _ _ _ _ T) as ND. rewrite NoDup_alt in ND.
      apply (ND j i (PTE2PA w)); [by rewrite list_lookup_fmap, Hj, <- Ev | done].
Qed.
End Image.
