(* ===== verification/Demo.v ===== *)
(** * A small machine, run

    A machine with twenty-four free pages on which a parent process with two
    pages is built and forked.  The states are the ones the operations of
    [Kalloc] and [Vm] compute; the lemmas establish the hypotheses of the
    theorems about address spaces on them. *)

From stdpp Require Import base numbers list relations.
From S2P Require Import Prelude Str Layout Kalloc Vm PageTable Uvm Ucopy.
Local Open Scope Z_scope.

#[global] Instance small : Linker | 50 := {|
  lk_trampoline := KERNBASE;
  lk_etext := KERNBASE + PGSIZE;
  lk_end := PHYSTOP - 24 * PGSIZE;
|}.

#[global] Instance small_ok : LinkerOk small.
Proof. split; vm_compute; done || (intros; discriminate). Qed.

Definition small_boot : kstate :=
  run_state (kinit (boot_kstate (λ _, 0))) (boot_kstate (λ _, 0)).

Lemma small_boot_inv : kinit (boot_kstate (λ _, 0)) = Ret (tt, small_boot) ∧ kinv small_boot boot_pages.
Proof.
  pose proof (kinit_wp (λ _, 0)) as H. apply wp_elim in H as ([] & s & E & H).
  unfold small_boot. rewrite E. split; [reflexivity | exact H].
Qed.

(** The n-th page from the top of memory; pages are handed out in this order. *)
Definition pg (n : Z) : Z := PHYSTOP - n * PGSIZE.

Definition urw : Z := Z.lor (Z.lor PTE_R PTE_W) PTE_U.

(** The parent: its page table, two pages mapped at 0 and [PGSIZE]. *)
Definition d1 : kstate := run_state (uvmcreate small_boot) small_boot.
Definition d2 : kstate := run_state (kalloc d1) d1.
Definition d3 : kstate := run_state (mappages (pg 1) 0 PGSIZE (pg 2) urw d2) d2.
Definition d4 : kstate := run_state (kalloc d3) d3.
Definition d5 : kstate := run_state (mappages (pg 1) PGSIZE PGSIZE (pg 5) urw d4) d4.
(** The child: an empty page table, then the copy. *)
Definition d6 : kstate := run_state (uvmcreate d5) d5.
Definition d7 : kstate := run_state (uvmcopy (pg 1) (pg 6) (2 * PGSIZE) d6) d6.

Lemma d1_eq : uvmcreate small_boot = Ret (pg 1, d1).
Proof. apply run_ret. vm_compute. reflexivity. Qed.
Lemma d2_eq : kalloc d1 = Ret (pg 2, d2).
Proof. apply run_ret. vm_compute. reflexivity. Qed.
Lemma d3_eq : mappages (pg 1) 0 PGSIZE (pg 2) urw d2 = Ret (0, d3).
Proof. apply run_ret. vm_compute. reflexivity. Qed.
Lemma d4_eq : kalloc d3 = Ret (pg 5, d4).
Proof. apply run_ret. vm_compute. reflexivity. Qed.
Lemma d5_eq : mappages (pg 1) PGSIZE PGSIZE (pg 5) urw d4 = Ret (0, d5).
Proof. apply run_ret. vm_compute. reflexivity. Qed.
Lemma d6_eq : uvmcreate d5 = Ret (pg 6, d6).
Proof. apply run_ret. vm_compute. reflexivity. Qed.
Lemma d7_eq : uvmcopy (pg 1) (pg 6) (2 * PGSIZE) d6 = Ret (0, d7).
Proof. apply run_ret. vm_compute. reflexivity. Qed.

#[global] Opaque small_boot d1 d2 d3 d4 d5 d6 d7.

(** ** The steps, on any machine *)

(** A page is allocated and mapped. *)
Lemma alloc_map s l root pa s1 va perm s2 :
  kinv s l → pt_wf s root → kalloc s = Ret (pa, s1) → pa ≠ 0 →
  0 ≤ va < MAXVA → va mod PGSIZE = 0 → 0 ≤ perm < 1024 →
  Z.testbit (pte_of (mem s) root va) 0 = false →
  mappages root va PGSIZE pa perm s1 = Ret (0, s2) →
  (∃ l', kinv s2 l') ∧ pt_wf s2 root ∧ valid_page pa ∧ rc s2 pa = 1 ∧ ¬ pt_node s2 root pa ∧
  (∀ va', 0 ≤ va' < MAXVA →
    pte_of (mem s2) root va' = map_pte va 1 pa perm va' (pte_of (mem s) root va')) ∧
  (∀ x, valid_page x → 0 < rc s x → rc s2 x = rc s x) ∧
  (∀ x, valid_page x → 0 < rc s x → ¬ pt_node s root x → ¬ pt_node s2 root x).
Proof.
  intros Hk Hw Ek Hpa Hva Hal Hperm Hfree Em.
  pose proof (kalloc_wp s l Hk) as H. unfold wp in H. rewrite Ek in H.
  destruct l as [|q l]; [by destruct H|]. destruct H as (-> & Hk1 & Hr1 & Hro & Hm).
  assert (Hq : valid_page q) by (apply (ki_valid _ _ _ Hk); by left).
  assert (Hq0 : rc s q = 0) by (apply (ki_free _ _ _ Hk); by left).
  destruct (valid_page_bounds q Hq) as [Hqb _].
  assert (T : same_tree s s1 root).
  { apply (alloc_tree s s1 l q root Hk Hw). intros x Hx Hne. split; [auto|].
    rewrite Hm. apply same_page_mset; [apply Hq | apply Hx | done]. }
  pose proof (free_not_node s l q root Hk Hw) as Hnq. rewrite <- (same_tree_node s s1) in Hnq by done.
  assert (Hmp := mappages_wp s1 l root va 1 q perm Hk1 (proj1 T)). unfold wp in Hmp.
  change (1 * PGSIZE) with PGSIZE in Hmp. rewrite Em in Hmp.
  destruct Hmp as (l2 & Hk2 & [(_ & U & _)|[? _]]); [lia | done | lia | | done | lia | | | | lia].
  { unfold PGSIZE in *. change MAXVA with 274877906944 in *. lia. }
  { unfold PGSIZE. lia. }
  { intros i Hi. replace i with 0 by lia. rewrite Z.add_0_r. destruct T as (_ & _ & ->). done. }
  split; [eauto|]. split; [apply (pu_wf _ _ _ _ U)|]. split; [done|].
  split; [rewrite (pu_rc _ _ _ _ U); lia || done|].
  split; [intros Hn; destruct (pu_new _ _ _ _ U q Hn); [done | lia]|].
  split; [intros va' Hva'; rewrite (pu_pte _ _ _ _ U) by done; by destruct T as (_ & _ & ->)|].
  split.
  - intros x Hx Hr. assert (x ≠ q) by (intros ->; lia).
    rewrite (pu_rc _ _ _ _ U), Hro by (done || rewrite ?Hro; done). done.
  - intros x Hx Hr Hn Hn'. assert (x ≠ q) by (intros ->; lia).
    destruct (pu_new _ _ _ _ U x Hn') as [H1|H1]; [|by rewrite Hro in H1].
    by rewrite (same_tree_node s s1) in H1.
Qed.

(** A second tree is created. *)
Lemma create_tree s l root new s' :
  kinv s l → pt_wf s root → uvmcreate s = Ret (new, s') → new ≠ 0 →
  (∃ l', kinv s' l') ∧ same_tree s s' root ∧ pt_wf s' new ∧ pt_disj s' root new ∧
  (∀ va, pte_of (mem s') new va = 0) ∧
  (∀ x, valid_page x → 0 < rc s x → rc s' x = rc s x ∧ ¬ pt_node s' new x).
Proof.
  intros Hk Hw E Hne. pose proof (uvmcreate_wp s l Hk) as H. unfold wp in H. rewrite E in H.
  destruct H as [(? & _)|(l' & -> & Hk' & Hw' & Hp & Hn & Hf)]; [done|].
  assert (H0 : rc s new = 0) by (apply (ki_free _ _ _ Hk); by left).
  pose proof (alloc_tree s s' l' new root Hk Hw Hf) as T.
  split; [eauto|]. split; [done|]. split; [done|]. split.
  { intros x Hx ->%Hn. rewrite (same_tree_node s s') in Hx by done. by eapply free_not_node. }
  split; [done|]. intros x Hx Hr. assert (x ≠ new) by (intros ->; lia).
  split; [by apply Hf|]. by intros ->%Hn.
Qed.

(** ** The parent *)

Definition dpte (pa : Z) : Z := Z.lor (Z.lor (PA2PTE pa) urw) PTE_V.

(** The state holds the parent: its two pages at 0 and [PGSIZE]. *)
Definition parent_in (s : kstate) (f : Z → Z) : Prop :=
  pt_wf s (pg 1) ∧
  (∀ va, 0 ≤ va < MAXVA → pte_of (mem s) (pg 1) va =
    if va / PGSIZE =? 0 then f (dpte (pg 2)) else if va / PGSIZE =? 1 then f (dpte (pg 5)) else 0) ∧
  (∀ x, x = pg 2 ∨ x = pg 5 → valid_page x ∧ ¬ pt_node s (pg 1) x).

(** The construction of the parent, from any state with free pages. *)
Lemma build_parent s0 s1 s2 s3 s4 s5 l0 :
  kinv s0 l0 → uvmcreate s0 = Ret (pg 1, s1) → kalloc s1 = Ret (pg 2, s2) →
  mappages (pg 1) 0 PGSIZE (pg 2) urw s2 = Ret (0, s3) → kalloc s3 = Ret (pg 5, s4) →
  mappages (pg 1) PGSIZE PGSIZE (pg 5) urw s4 = Ret (0, s5) →
  (∃ l, kinv s5 l) ∧ parent_in s5 (λ w, w) ∧ ∀ x, x = pg 2 ∨ x = pg 5 → rc s5 x = 1.
Proof.
  intros K0 E1 E2 E3 E4 E5.
  pose proof (uvmcreate_wp _ _ K0) as H. unfold wp in H. rewrite E1 in H.
  destruct H as [[H _]|(l1 & _ & K1 & W1 & P1 & _ & _)]; [discriminate H|].
  destruct (alloc_map s1 l1 (pg 1) (pg 2) s2 0 urw s3 K1 W1 E2 ltac:(discriminate) ltac:(done)
    ltac:(done) ltac:(done)) as ((l3 & K3) & W3 & V2 & R2 & N2 & P3 & _).
  { by rewrite P1. }
  { exact E3. }
  assert (P3' : ∀ va, 0 ≤ va < MAXVA → pte_of (mem s3) (pg 1) va =
    if va / PGSIZE =? 0 then dpte (pg 2) else 0).
  { intros va Hva. rewrite P3, P1 by done. unfold map_pte.
    change (0 / PGSIZE) with 0. rewrite Z.sub_0_r.
    destruct (Z.eqb_spec (va / PGSIZE) 0) as [->|Hn]; [by vm_compute|].
    clear - Hn. destruct (Z.leb_spec 0 (va / PGSIZE)), (Z.ltb_spec (va / PGSIZE) 1); first [lia | reflexivity]. }
  destruct (alloc_map s3 l3 (pg 1) (pg 5) s4 PGSIZE urw s5 K3 W3 E4 ltac:(discriminate) ltac:(done)
    ltac:(done) ltac:(done)) as (K5 & W5 & V5 & R5 & N5 & P5 & R5' & N5').
  { rewrite P3' by done. by vm_compute. }
  { exact E5. }
  split; [exact K5|]. split; [split; [exact W5|split]|].
  - intros va Hva. rewrite P5, P3' by done. unfold map_pte. change (PGSIZE / PGSIZE) with 1.
    destruct (Z.eqb_spec (va / PGSIZE) 0) as [->|H0]; [by vm_compute|].
    destruct (Z.eqb_spec (va / PGSIZE) 1) as [->|H1]; [by vm_compute|].
    clear - H0 H1. destruct (Z.leb_spec 0 (va / PGSIZE - 1)), (Z.ltb_spec (va / PGSIZE - 1) 1); first [lia | reflexivity].
  - intros x [-> | ->]; [|done]. split; [done|]. apply N5'; [exact V2 | rewrite R2; done | exact N2].
  - intros x [-> | ->]; [|exact R5]. rewrite R5'; [exact R2 | exact V2 | rewrite R2; done].
Qed.

Lemma d5_parent : (∃ l, kinv d5 l) ∧ parent_in d5 (λ w, w) ∧ ∀ x, x = pg 2 ∨ x = pg 5 → rc d5 x = 1.
Proof.
  exact (build_parent small_boot d1 d2 d3 d4 d5 boot_pages (proj2 small_boot_inv)
    d1_eq d2_eq d3_eq d4_eq d5_eq).
Qed.

Definition dws : list Z := [dpte (pg 2); dpte (pg 5)].

(** The hypotheses of [uvmcopy_wp], of the parent and an empty child. *)
Definition forkable (s : kstate) : Prop := ∃ l, kinv s l ∧ parent_in s (λ w, w) ∧ pt_wf s (pg 6) ∧
  pt_disj s (pg 1) (pg 6) ∧ (∀ va, pte_of (mem s) (pg 6) va = 0) ∧
  maps s (pg 1) 0 dws ∧ Forall (sharable s (pg 1) (pg 6)) dws ∧
  (∀ x, x = pg 2 ∨ x = pg 5 → rc s x = 1).

Lemma build_child s5 s6 :
  (∃ l, kinv s5 l) ∧ parent_in s5 (λ w, w) ∧ (∀ x, x = pg 2 ∨ x = pg 5 → rc s5 x = 1) →
  uvmcreate s5 = Ret (pg 6, s6) → forkable s6.
Proof.
  intros HP E6.
  destruct HP as ((l5 & K5) & (W5 & P5 & V5) & R5).
  destruct (create_tree s5 l5 (pg 1) (pg 6) s6 K5 W5 E6 ltac:(discriminate))
    as ((l6 & K6) & T & W6 & D & Z6 & R6).
  assert (P6 : ∀ va, pte_of (mem s6) (pg 1) va = pte_of (mem s5) (pg 1) va) by apply T.
  assert (V6 : ∀ x, x = pg 2 ∨ x = pg 5 →
    valid_page x ∧ ¬ pt_node s6 (pg 1) x ∧ ¬ pt_node s6 (pg 6) x ∧ rc s6 x = 1).
  { intros x Hx. destruct (V5 x Hx) as [Hv Hn]. specialize (R5 x Hx).
    destruct (R6 x Hv) as [R Hn6]; [rewrite R5; done|]. rewrite (same_tree_node s5 s6) by exact T. by rewrite R. }
  exists l6. split; [exact K6|]. split.
  { split; [apply T|]. split; [intros va Hva; rewrite P6; by apply P5|].
    intros x Hx. destruct (V6 x Hx) as (? & ? & _). done. }
  split; [exact W6|]. split; [exact D|]. split; [exact Z6|].
  split; [|split; [|intros x Hx; by apply V6]].
  - intros i w Hi. rewrite P6. destruct i as [|[|i]]; [..|done]; injection Hi as <-.
    + rewrite P5 by done. by vm_compute.
    + rewrite P5 by done. by vm_compute.
  - unfold dws. rewrite !Forall_cons, Forall_nil.
    assert (Hs : ∀ pa, pa = pg 2 ∨ pa = pg 5 → sharable s6 (pg 1) (pg 6) (dpte pa)).
    { intros pa Hpa. destruct (V6 pa Hpa) as (Hv & H1 & H6 & Hr).
      assert (E : PTE2PA (dpte pa) = pa) by (destruct Hpa as [-> | ->]; vm_compute; reflexivity).
      split; [by destruct Hpa as [-> | ->]; vm_compute|]. split; [by destruct Hpa as [-> | ->]; vm_compute|].
      unfold user_page. rewrite E, Hr. done. }
    split; [apply Hs; by left|]. split; [apply Hs; by right | done].
Qed.

Lemma d6_forkable : forkable d6.
Proof. exact (build_child d5 d6 d5_parent d6_eq). Qed.

(** ** The fork *)

(** Parent and child share their two pages, copy-on-write. *)
Definition shared_at (s : kstate) (root : Z) : Prop :=
  pt_wf s root ∧
  ∀ va, 0 ≤ va < MAXVA → pte_of (mem s) root va =
    if va / PGSIZE =? 0 then cow (dpte (pg 2)) else if va / PGSIZE =? 1 then cow (dpte (pg 5)) else 0.

Definition forked (s : kstate) : Prop :=
  (∃ l, kinv s l) ∧ shared_at s (pg 1) ∧ shared_at s (pg 6) ∧ pt_disj s (pg 1) (pg 6) ∧
  ∀ x, x = pg 2 ∨ x = pg 5 →
    valid_page x ∧ ¬ pt_node s (pg 1) x ∧ ¬ pt_node s (pg 6) x ∧ rc s x = 2.

Lemma dws_cnt x : cnt dws x = (if pg 2 =? x then 1 else 0) + (if pg 5 =? x then 1 else 0).
Proof.
  unfold dws, cnt. assert (PTE2PA (dpte (pg 2)) = pg 2) as -> by (vm_compute; reflexivity).
  assert (PTE2PA (dpte (pg 5)) = pg 5) as -> by (vm_compute; reflexivity). lia.
Qed.

Lemma forkable_count s x :
  forkable s → valid_page x → 0 < rc s x → rc s x + cnt dws x < 2 ^ 31.
Proof.
  intros (l & K & _ & _ & _ & _ & _ & _ & R) Hx Hr. rewrite dws_cnt.
  destruct (kinv_used s l x K Hx Hr) as [_ Hb].
  destruct (Z.eqb_spec (pg 2) x) as [E|]; [rewrite R by (by left)|
    destruct (Z.eqb_spec (pg 5) x) as [E|]; [rewrite R by (by right)|lia]].
  - destruct (pg 5 =? x); lia.
  - lia.
Qed.

Lemma shared_ptes s0 s1 r (f : Z → Z) :
  parent_in s0 (λ w, w) →
  (∀ va, 0 ≤ va < MAXVA → pte_of (mem s1) r va =
    if in_pages 0 2 va then cow (pte_of (mem s0) (pg 1) va) else f va) →
  (∀ va, 0 ≤ va < MAXVA → va / PGSIZE ≠ 0 → va / PGSIZE ≠ 1 → f va = 0) →
  ∀ va, 0 ≤ va < MAXVA → pte_of (mem s1) r va =
    if va / PGSIZE =? 0 then cow (dpte (pg 2)) else if va / PGSIZE =? 1 then cow (dpte (pg 5)) else 0.
Proof.
  intros (_ & P & _) H Hf va Hva. rewrite H, in_pages_0, P by done.
  assert (0 ≤ va / PGSIZE) by (unfold PGSIZE; lia). rewrite (proj2 (Z.leb_le _ _)) by done.
  destruct (Z.eqb_spec (va / PGSIZE) 0) as [->|]; [done|].
  destruct (Z.eqb_spec (va / PGSIZE) 1) as [->|]; [done|].
  rewrite (proj2 (Z.ltb_ge (va / PGSIZE) 2)) by lia. by apply Hf.
Qed.

Lemma build_fork s6 s7 :
  forkable s6 → uvmcopy (pg 1) (pg 6) (2 * PGSIZE) s6 = Ret (0, s7) → forked s7.
Proof.
  intros F E. pose proof F as (l & K & Hpar & W6 & D & Z6 & Hm & Hs & R).
  pose proof Hpar as (W1 & P1 & V).
  pose proof (uvmcopy_wp s6 l (pg 1) (pg 6) dws (2 * PGSIZE) K W1 W6 D Hm Hs) as H.
  unfold wp in H. rewrite E in H.
  destruct H as [K7 [[_ I]|[H _]]]; [intros; by apply forkable_count | by intros; apply Z6 | done | done | | discriminate H].
  split; [exact K7|]. split; [|split; [|split]].
  - split; [apply (ci_wfo _ _ _ _ _ _ _ _ I)|].
    apply (shared_ptes s6 s7 (pg 1) (pte_of (mem s6) (pg 1)) Hpar); [apply (ci_old _ _ _ _ _ _ _ _ I)|].
    intros va Hva H0 H1. rewrite P1 by done. by rewrite !(proj2 (Z.eqb_neq _ _)).
  - split; [apply (ci_wfn _ _ _ _ _ _ _ _ I)|].
    apply (shared_ptes s6 s7 (pg 6) (pte_of (mem s6) (pg 6)) Hpar); [apply (ci_new _ _ _ _ _ _ _ _ I)|].
    intros. apply Z6.
  - apply (ci_disj _ _ _ _ _ _ _ _ I).
  - intros x Hx. destruct (V x Hx) as [Hv Hn]. assert (Hr : 0 < rc s6 x) by (by rewrite R).
    split; [done|]. split; [by rewrite (ci_nodeo _ _ _ _ _ _ _ _ I)|]. split.
    + apply (ci_not_new s6 (pg 1) (pg 6) dws 2 2 2 s7 x I Hr).
      unfold dws in Hs. rewrite !Forall_cons in Hs. destruct Hs as ((_ & _ & _ & [_ H2] & _) & (_ & _ & _ & [_ H5] & _) & _).
      destruct Hx as [-> | ->]; [exact H2 | exact H5].
    + rewrite (ci_rc _ _ _ _ _ _ _ _ I) by done. rewrite take_ge by (simpl; lia).
      rewrite dws_cnt, R by done. by destruct Hx as [-> | ->].
Qed.

Lemma d7_forked : forked d7.
Proof. exact (build_fork d6 d7 d6_forkable d7_eq). Qed.

Lemma kalloc_some s l q s' : kinv s l → kalloc s = Ret (q, s') → q ≠ 0 → ∃ l', l = q :: l'.
Proof.
  intros K E Hq. pose proof (kalloc_wp s l K) as H. unfold wp in H. rewrite E in H.
  destruct l as [|q' l']; [by destruct H|]. destruct H as [<- _]. eauto.
Qed.

Definition d8 : kstate := run_state (kalloc d7) d7.
Lemma d8_eq : kalloc d7 = Ret (pg 9, d8).
Proof. apply run_ret. vm_compute. reflexivity. Qed.
#[global] Opaque d8.

Lemma d7_free : ∃ l, kinv d7 (pg 9 :: l).
Proof.
  destruct d7_forked as [[l K] _].
  destruct (kalloc_some d7 l (pg 9) d8 K d8_eq ltac:(discriminate)) as [l' ->]. exists l'. exact K.
Qed.

(** The address spaces of both processes are sound, and shared pages have a
    reference from each. *)
Lemma shared_page s root va :
  shared_at s root → 0 ≤ va < MAXVA → Z.testbit (pte_of (mem s) root va) 0 = true →
  PTE2PA (pte_of (mem s) root va) = pg 2 ∨ PTE2PA (pte_of (mem s) root va) = pg 5.
Proof.
  intros [_ P] Hva. rewrite P by done.
  destruct (va / PGSIZE =? 0); [left; vm_compute; reflexivity|].
  destruct (va / PGSIZE =? 1); [right; vm_compute; reflexivity | discriminate].
Qed.

Lemma forked_space s root : forked s → root = pg 1 ∨ root = pg 6 → uspace s root (pg 6).
Proof.
  intros (_ & S1 & S6 & _ & V) Hroot va Hva w Hb0 _.
  assert (Hp : PTE2PA w = pg 2 ∨ PTE2PA w = pg 5) by (destruct Hroot as [-> | ->]; by apply (shared_page s)).
  destruct (V _ Hp) as (Hv & _ & Hn & Hr). split; [by split|]. by rewrite Hr.
Qed.

Lemma forked_unshared s va :
  forked s → 0 ≤ va < MAXVA → Z.testbit (pte_of (mem s) (pg 6) va) 0 = true → unshared s (pg 6) va.
Proof.
  intros (_ & S1 & S6 & _ & V) Hva Hb Hr.
  destruct (V _ (shared_page s (pg 6) va S6 Hva Hb)) as (_ & _ & _ & Hr2). by rewrite Hr in Hr2.
Qed.
