(* ===== verification/VmSpec.v ===== *)
(** * Theorems on virtual memory (kernel/vm.c)

    The statements about page tables, unmapping, copy-on-write sharing and user
    copies, each with an instance on the machine of [Demo]. *)

From stdpp Require Import base numbers list.
From S2P Require Import Prelude Str Layout Kalloc Vm PageTable Uvm Ucopy Demo.
Local Open Scope Z_scope.

Section VmSpec.
Context {L : Linker} {LOk : LinkerOk L}.

(** [mappages] of [n] whole free pages of a well-formed page table always
    returns, never panics, keeps the allocator invariant and the tree well
    formed, and changes no other tree.  On result 0 exactly the [n] entries from
    [va] on map the consecutive pages from [pa] on with the permissions asked
    for; result -1 happens only with no page left and after a prefix of them. *)
Theorem mappages_correct s l root va n pa perm :
  kinv s l → pt_wf s root → 0 ≤ va → va mod PGSIZE = 0 → 0 < n → va + n * PGSIZE ≤ MAXVA →
  0 ≤ perm < 1024 → 0 ≤ pa → pa + n * PGSIZE ≤ 2 ^ 56 →
  (∀ i, 0 ≤ i < n → Z.testbit (pte_of (mem s) root (va + i * PGSIZE)) 0 = false) →
  ∃ r s', mappages root va (n * PGSIZE) pa perm s = Ret (r, s') ∧
    mappages_post s l root va n pa perm r s' ∧
    ∀ root2, pt_wf s root2 → pt_disj s root2 root →
      pt_wf s' root2 ∧ ∀ va', pte_of (mem s') root2 va' = pte_of (mem s) root2 va'.
Proof.
  intros. edestruct (wp_elim _ _ _ (mappages_wp s l root va n pa perm ltac:(done) ltac:(done)
    ltac:(done) ltac:(done) ltac:(done) ltac:(done) ltac:(done) ltac:(done) ltac:(done) ltac:(done)))
    as (r & s' & E & HP).
  exists r, s'. split; [done|]. split; [done|]. intros root2 Hw2 Hd.
  destruct HP as (l' & _ & [(_ & U & _)|(_ & _ & _ & k & _ & U)]);
    destruct (pt_upd_other _ _ _ _ root2 U Hw2 Hd) as (? & _ & _ & ?); done.
Qed.

(** [uvmunmap] of pages that are all mapped by leaf entries returns without
    panic: the entries of exactly these pages are cleared, and with [do_free]
    each page loses as many references as it was mapped times, so it is freed
    exactly when its count reaches 0; pages that stay referenced keep their
    bytes, and the tree keeps its page-table pages. *)
Theorem uvmunmap_correct s l root a ws do_free :
  kinv s l → pt_wf s root → 0 ≤ a → a mod PGSIZE = 0 →
  a + Z.of_nat (length ws) * PGSIZE ≤ MAXVA →
  maps s root a ws → Forall leaf_pte ws → (do_free = true → freeable s root ws) →
  ∃ s', uvmunmap root a (Z.of_nat (length ws)) do_free s = Ret (tt, s') ∧
    (∃ l', kinv s' l') ∧ unmapped s s' root a ws do_free.
Proof.
  intros Hk Hw Ha Hal Hm Hmaps Hl Hf.
  destruct (wp_elim _ _ _ (uvmunmap_wp s l root a ws do_free Hk Hw Ha Hal Hm Hmaps Hl Hf))
    as ([] & s' & E & HP). eauto.
Qed.

(** C29. The copy-on-write [uvmcopy] of fork always returns.  On 0 parent and
    child map the same pages below [sz], both entries lose [PTE_W] and get
    [PTE_COW], every shared page gains one reference per mapping, and no byte of
    a user page changes.  On -1 (no memory) the child maps nothing new and every
    count is what it was, only part of the parent being marked. *)
Theorem uvmcopy_correct s l old new ws sz :
  kinv s l → pt_wf s old → pt_wf s new → pt_disj s old new →
  maps s old 0 ws → Forall (sharable s old new) ws →
  (∀ x, valid_page x → 0 < rc s x → rc s x + cnt ws x < 2 ^ 31) →
  (∀ i, (i < length ws)%nat → pte_of (mem s) new (Z.of_nat i * PGSIZE) = 0) →
  0 ≤ sz ≤ MAXVA → Z.of_nat (length ws) = PGROUNDUP sz / PGSIZE →
  ∃ r s', uvmcopy old new sz s = Ret (r, s') ∧ uvmcopy_post s old new ws r s'.
Proof.
  intros Hk Ho Hn Hd Hm Hs Hc He Hsz Hl.
  exact (wp_elim _ _ _ (uvmcopy_wp s l old new ws sz Hk Ho Hn Hd Hm Hs Hc He Hsz Hl)).
Qed.

(** C28. [copyout] of bytes that lie in one page, to a page the process may write
    (writable or copy-on-write), succeeds when a page is free: the process reads
    the new bytes there and its old bytes everywhere else, and every other
    process reads exactly what it read before, even where it shares the page. *)
Theorem copyout_isolates s l root va w q src :
  kinv s (q :: l) → pt_wf s root → PGSIZE ≤ va < MAXVA →
  pte_of (mem s) root va = w → outable w → user_page s root w → 0 < rc s (PTE2PA w) →
  va mod PGSIZE + Z.of_nat (length src) ≤ PGSIZE →
  uspace s root root → unshared s root va →
  ∃ s', copyout root va src s = Ret (0, s') ∧
    (∀ va', 0 ≤ va' < MAXVA → ubyte s' root va' =
      match (if va <=? va' then src !! Z.to_nat (va' - va) else None) with
      | Some b => Some (u8 b)
      | None => ubyte s root va'
      end) ∧
    ∀ root2 va', 0 ≤ va' < MAXVA → pt_wf s root2 → pt_disj s root2 root → user_page s root2 w →
      uspace s root2 root → (PTE2PA (pte_of (mem s) root2 va') = PTE2PA w → 1 < rc s (PTE2PA w)) →
      ubyte s' root2 va' = ubyte s root2 va'.
Proof.
  intros Hk Hw Hva E Ho Hu Hr Hl Hsp Hun.
  destruct (wp_elim _ _ _ (copyout_wp s l root va w q src Hk Hw Hva E Ho Hu Hr Hl))
    as (r & s' & Ec & -> & s4 & P & ->).
  eexists. split; [exact Ec|]. split.
  - intros va' Hva'. by apply (private_view s s4 l root va w q).
  - intros root2 va' Hva' ? ? ? ? ?. by apply (private_isolates s s4 l root va w q).
Qed.

(** [copyin] changes nothing and never panics: it returns 0 with exactly the
    bytes the process reads at [srcva .. srcva+len), over any number of pages,
    and -1 when one of them is not readable by the process. *)
Theorem copyin_correct s root srcva len :
  pt_wf s root → uspace s root root → 0 ≤ srcva → 0 ≤ len → srcva + len ≤ MAXVA →
  ∃ r, copyin root srcva len s = Ret (r, s) ∧
    match uread s root srcva (Z.to_nat len) with
    | Some bs => r = (0, bs)
    | None => fst r = -1
    end.
Proof.
  intros Hw Hsp Hva Hlen Hmax.
  destruct (wp_elim _ _ _ (copyin_loop_wp (Z.to_nat (len + 1)) s root srcva len []
    Hw Hsp Hva Hlen Hmax ltac:(lia))) as (r & s' & E & -> & Hr). eauto.
Qed.
End VmSpec.

(** ** Instances *)

Lemma mappages_correct_witness :
  ∃ s' l, uvmcreate small_boot = Ret (pg 1, d1) ∧ kinv d1 l ∧
    mappages (pg 1) 0 (2 * PGSIZE) (pg 9) urw d1 = Ret (0, s').
Proof.
  destruct small_boot_inv as [_ K0].
  pose proof (uvmcreate_wp _ _ K0) as H. unfold wp in H. rewrite d1_eq in H.
  destruct H as [[H _]|(l1 & _ & K1 & W1 & P1 & _ & _)]; [discriminate H|].
  destruct (mappages_correct d1 l1 (pg 1) 0 2 (pg 9) urw K1 W1) as (r & s' & E & _).
  1-7: vm_compute; done || (split; intros; discriminate) || (intros; discriminate).
  { intros i Hi. by rewrite P1. }
  exists s', l1. split; [exact d1_eq|]. split; [exact K1|].
  rewrite E. f_equal. f_equal.
  assert (Hv : run_val (mappages (pg 1) 0 (2 * PGSIZE) (pg 9) urw d1) = Some 0)
    by (vm_compute; reflexivity).
  rewrite E in Hv. injection Hv as ->. reflexivity.
Defined.

Lemma uvmunmap_correct_witness :
  ∃ s', uvmunmap (pg 1) 0 2 true d6 = Ret (tt, s') ∧ rc s' (pg 2) = 0.
Proof.
  destruct d6_forkable as (l & K & (W & P & V) & _ & _ & _ & Hm & Hs & R).
  destruct (uvmunmap_correct d6 l (pg 1) 0 dws true K W) as (s' & E & _ & U).
  - discriminate.
  - reflexivity.
  - vm_compute. discriminate.
  - exact Hm.
  - unfold dws. rewrite !Forall_cons, Forall_nil.
    repeat split; vm_compute; done || (intros; discriminate).
  - intros _. split.
    + eapply Forall_impl; [exact Hs|]. intros w (_ & _ & Hu & _). exact Hu.
    + intros x Hx. rewrite dws_cnt.
      destruct (Z.eqb_spec (pg 2) x) as [<-|]; [rewrite R by (by left); vm_compute; discriminate|].
      destruct (Z.eqb_spec (pg 5) x) as [<-|]; [rewrite R by (by right); vm_compute; discriminate|].
      by apply (kinv_nonneg d6 l).
  - exists s'. split; [exact E|]. destruct (V (pg 2)) as [Hv _]; [by left|].
    rewrite (un_rc _ _ _ _ _ _ U) by exact Hv. rewrite R, dws_cnt by (by left). reflexivity.
Defined.

Lemma uvmcopy_correct_witness :
  ∃ s', uvmcopy (pg 1) (pg 6) (2 * PGSIZE) d6 = Ret (0, s') ∧ rc s' (pg 5) = 2.
Proof.
  pose proof d6_forkable as F. pose proof F as (l & K & (W & P & V) & W6 & D & Z6 & Hm & Hs & R).
  destruct (uvmcopy_correct d6 l (pg 1) (pg 6) dws (2 * PGSIZE) K W W6 D Hm Hs) as (r & s' & E & HP).
  - intros x. apply forkable_count. exact F.
  - intros i _. apply Z6.
  - split; vm_compute; discriminate.
  - reflexivity.
  - exists s'. rewrite d7_eq in E. apply Ret_inj in E as [<- <-]. split; [exact d7_eq|].
    destruct HP as [_ [[_ I]|[H _]]]; [|discriminate H].
    destruct (V (pg 5)) as [Hv _]; [by right|].
    assert (HR : rc d6 (pg 5) = 1) by (apply R; right; reflexivity).
    rewrite (ci_rc _ _ _ _ _ _ _ _ I (pg 5) Hv); [|rewrite HR; reflexivity].
    rewrite HR. vm_compute. reflexivity.
Defined.

Lemma copyout_isolates_witness :
  ∃ s', copyout (pg 6) (PGSIZE + 10) [65; 66] d7 = Ret (0, s') ∧
    ubyte s' (pg 6) (PGSIZE + 11) = Some 66 ∧
    ubyte s' (pg 1) (PGSIZE + 11) = ubyte d7 (pg 1) (PGSIZE + 11).
Proof.
  pose proof d7_forked as F. destruct d7_free as [l K].
  pose proof F as (_ & [W1 P1] & [W6 P6] & D & V).
  destruct (V (pg 5)) as (Hv & Hn1 & Hn6 & Hr); [by right|].
  assert (Ew : PTE2PA (cow (dpte (pg 5))) = pg 5) by (vm_compute; reflexivity).
  assert (Hva : PGSIZE ≤ PGSIZE + 10 < MAXVA) by (split; vm_compute; [discriminate | reflexivity]).
  assert (Hva0 : 0 ≤ PGSIZE + 10 < MAXVA) by (split; vm_compute; [discriminate | reflexivity]).
  assert (Hva1 : 0 ≤ PGSIZE + 11 < MAXVA) by (split; vm_compute; [discriminate | reflexivity]).
  destruct (copyout_isolates d7 l (pg 6) (PGSIZE + 10) (cow (dpte (pg 5))) (pg 9) [65; 66] K W6 Hva)
    as (s' & E & H6 & H1).
  - rewrite P6 by exact Hva0. reflexivity.
  - vm_compute. auto.
  - unfold user_page. rewrite Ew. split; [exact Hv | exact Hn6].
  - rewrite Ew, Hr. reflexivity.
  - vm_compute. discriminate.
  - apply forked_space; [exact F | by right].
  - apply forked_unshared; [exact F | exact Hva0 |]. rewrite P6 by exact Hva0. reflexivity.
  - exists s'. split; [exact E|]. split; [rewrite H6 by exact Hva1; reflexivity|].
    apply H1; [exact Hva1 | exact W1 | exact D | | apply forked_space; [exact F | by left] |].
    + unfold user_page. rewrite Ew. split; [exact Hv | exact Hn1].
    + intros _. rewrite Ew, Hr. reflexivity.
Defined.

Lemma copyin_correct_witness :
  copyin (pg 6) 4090 12 d7 = Ret ((0, [5; 5; 5; 5; 5; 5; 5; 5; 5; 5; 5; 5]), d7).
Proof.
  pose proof d7_forked as F. pose proof F as (_ & _ & [W6 P6] & _).
  destruct (copyin_correct d7 (pg 6) 4090 12 W6) as (r & E & H).
  - apply forked_space; [exact F | by right].
  - discriminate.
  - discriminate.
  - vm_compute. discriminate.
  - rewrite E. assert (Hr : uread d7 (pg 6) 4090 (Z.to_nat 12) = Some [5; 5; 5; 5; 5; 5; 5; 5; 5; 5; 5; 5])
      by (vm_compute; reflexivity).
    rewrite Hr in H. rewrite H. reflexivity.
Defined.

(** ** Where copy-on-write is lost *)

(** Fork a process of three pages, let the kernel write four bytes into the
    child's memory across a page boundary (as [read] or [wait] do), and read
    the parent's memory at the same addresses. *)
Definition cross_page : M kstate (Z * (Z * list Z)) :=
  parent ← uvmcreate;
  uvmalloc parent 0 (3 * PGSIZE) PTE_W;;
  child ← uvmcreate;
  uvmcopy parent child (3 * PGSIZE);;
  r ← copyout child (2 * PGSIZE - 2) [65; 66; 67; 68];
  x ← copyin parent (2 * PGSIZE - 2) 4;
  mret (r, x).

