(* ===== verification/ProcState.v ===== *)
(** * Process structures (kernel/proc.h)

    [struct proc], its states and its initial value, with one update function
    per field.  Pointers to processes are slots of the process table. *)

From stdpp Require Import base numbers list.
From S2P Require Import Prelude Layout.
Local Open Scope Z_scope.

Inductive procstate : Type := UNUSED | USED | SLEEPING | RUNNABLE | RUNNING | ZOMBIE.

#[global] Instance procstate_eq_dec : EqDecision procstate.
Proof. solve_decision. Defined.

(** What a process can sleep on: a process (in [wait]), the tick counter, or any
    other kernel address (a buffer, the log, a pipe, a sleep lock). *)
Inductive chanaddr : Type := NoChan | ChanProc (i : nat) | ChanTicks | ChanAddr (a : Z).

#[global] Instance chanaddr_eq_dec : EqDecision chanaddr.
Proof. solve_decision. Defined.

(** [context] holds ra, sp, s0 .. s11; [ofile] and [cwd] point into the file and
    inode tables; [name] is the 16-byte array. *)
Record proc : Type := mkproc {
  p_state : procstate;
  p_chan : chanaddr;
  p_killed : Z;
  p_xstate : Z;
  p_pid : Z;
  p_createTime : Z;
  p_priority : Z;
  p_timesScheduled : Z;
  p_niceness : Z;
  p_tickets : Z;
  p_lastSlept : Z;
  p_lastScheduled : Z;
  p_timeSlept : Z;
  p_timeRun : Z;
  p_trace : Z;
  p_alarmFreq : Z;
  p_alarmHandler : Z;
  p_lastAlarm : Z;
  p_alarmRunning : Z;
  p_parent : option nat;
  p_kstack : Z;
  p_sz : Z;
  p_pagetable : Z;
  p_trapframe : Z;
  p_backupTrapFrame : Z;
  p_context : list Z;
  p_ofile : list (option nat);
  p_cwd : option nat;
  p_name : list Z;
  p_rtime : Z;
  p_ctime : Z;
  p_etime : Z;
  p_queue : Z;
  p_entryTime : Z;
  p_timeRanInQueue : Z;
}.

(** ** Assignments *)

Definition set_state (v : procstate) (p : proc) : proc :=
  mkproc
    v (p_chan p) (p_killed p) (p_xstate p) (p_pid p) (p_createTime p) (p_priority p)
    (p_timesScheduled p) (p_niceness p) (p_tickets p) (p_lastSlept p) (p_lastScheduled p)
    (p_timeSlept p) (p_timeRun p) (p_trace p) (p_alarmFreq p) (p_alarmHandler p) (p_lastAlarm p)
    (p_alarmRunning p) (p_parent p) (p_kstack p) (p_sz p) (p_pagetable p) (p_trapframe p)
    (p_backupTrapFrame p) (p_context p) (p_ofile p) (p_cwd p) (p_name p) (p_rtime p) (p_ctime p)
    (p_etime p) (p_queue p) (p_entryTime p) (p_timeRanInQueue p).

Definition set_chan (v : chanaddr) (p : proc) : proc :=
  mkproc
    (p_state p) v (p_killed p) (p_xstate p) (p_pid p) (p_createTime p) (p_priority p)
    (p_timesScheduled p) (p_niceness p) (p_tickets p) (p_lastSlept p) (p_lastScheduled p)
    (p_timeSlept p) (p_timeRun p) (p_trace p) (p_alarmFreq p) (p_alarmHandler p) (p_lastAlarm p)
    (p_alarmRunning p) (p_parent p) (p_kstack p) (p_sz p) (p_pagetable p) (p_trapframe p)
    (p_backupTrapFrame p) (p_context p) (p_ofile p) (p_cwd p) (p_name p) (p_rtime p) (p_ctime p)
    (p_etime p) (p_queue p) (p_entryTime p) (p_timeRanInQueue p).

Definition set_killed (v : Z) (p : proc) : proc :=
  mkproc
    (p_state p) (p_chan p) v (p_xstate p) (p_pid p) (p_createTime p) (p_priority p)
    (p_timesScheduled p) (p_niceness p) (p_tickets p) (p_lastSlept p) (p_lastScheduled p)
    (p_timeSlept p) (p_timeRun p) (p_trace p) (p_alarmFreq p) (p_alarmHandler p) (p_lastAlarm p)
    (p_alarmRunning p) (p_parent p) (p_kstack p) (p_sz p) (p_pagetable p) (p_trapframe p)
    (p_backupTrapFrame p) (p_context p) (p_ofile p) (p_cwd p) (p_name p) (p_rtime p) (p_ctime p)
    (p_etime p) (p_queue p) (p_entryTime p) (p_timeRanInQueue p).

Definition set_xstate (v : Z) (p : proc) : proc :=
  mkproc
    (p_state p) (p_chan p) (p_killed p) v (p_pid p) (p_createTime p) (p_priority p)
    (p_timesScheduled p) (p_niceness p) (p_tickets p) (p_lastSlept p) (p_lastScheduled p)
    (p_timeSlept p) (p_timeRun p) (p_trace p) (p_alarmFreq p) (p_alarmHandler p) (p_lastAlarm p)
    (p_alarmRunning p) (p_parent p) (p_kstack p) (p_sz p) (p_pagetable p) (p_trapframe p)
    (p_backupTrapFrame p) (p_context p) (p_ofile p) (p_cwd p) (p_name p) (p_rtime p) (p_ctime p)
    (p_etime p) (p_queue p) (p_entryTime p) (p_timeRanInQueue p).

Definition set_pid (v : Z) (p : proc) : proc :=
  mkproc
    (p_state p) (p_chan p) (p_killed p) (p_xstate p) v (p_createTime p) (p_priority p)
    (p_timesScheduled p) (p_niceness p) (p_tickets p) (p_lastSlept p) (p_lastScheduled p)
    (p_timeSlept p) (p_timeRun p) (p_trace p) (p_alarmFreq p) (p_alarmHandler p) (p_lastAlarm p)
    (p_alarmRunning p) (p_parent p) (p_kstack p) (p_sz p) (p_pagetable p) (p_trapframe p)
    (p_backupTrapFrame p) (p_context p) (p_ofile p) (p_cwd p) (p_name p) (p_rtime p) (p_ctime p)
    (p_etime p) (p_queue p) (p_entryTime p) (p_timeRanInQueue p).

Definition set_createTime (v : Z) (p : proc) : proc :=
  mkproc
    (p_state p) (p_chan p) (p_killed p) (p_xstate p) (p_pid p) v (p_priority p)
    (p_timesScheduled p) (p_niceness p) (p_tickets p) (p_lastSlept p) (p_lastScheduled p)
    (p_timeSlept p) (p_timeRun p) (p_trace p) (p_alarmFreq p) (p_alarmHandler p) (p_lastAlarm p)
    (p_alarmRunning p) (p_parent p) (p_kstack p) (p_sz p) (p_pagetable p) (p_trapframe p)
    (p_backupTrapFrame p) (p_context p) (p_ofile p) (p_cwd p) (p_name p) (p_rtime p) (p_ctime p)
    (p_etime p) (p_queue p) (p_entryTime p) (p_timeRanInQueue p).

Definition set_priority (v : Z) (p : proc) : proc :=
  mkproc
    (p_state p) (p_chan p) (p_killed p) (p_xstate p) (p_pid p) (p_createTime p) v
    (p_timesScheduled p) (p_niceness p) (p_tickets p) (p_lastSlept p) (p_lastScheduled p)
    (p_timeSlept p) (p_timeRun p) (p_trace p) (p_alarmFreq p) (p_alarmHandler p) (p_lastAlarm p)
    (p_alarmRunning p) (p_parent p) (p_kstack p) (p_sz p) (p_pagetable p) (p_trapframe p)
    (p_backupTrapFrame p) (p_context p) (p_ofile p) (p_cwd p) (p_name p) (p_rtime p) (p_ctime p)
    (p_etime p) (p_queue p) (p_entryTime p) (p_timeRanInQueue p).

Definition set_timesScheduled (v : Z) (p : proc) : proc :=
  mkproc
    (p_state p) (p_chan p) (p_killed p) (p_xstate p) (p_pid p) (p_createTime p) (p_priority p) v
    (p_niceness p) (p_tickets p) (p_lastSlept p) (p_lastScheduled p) (p_timeSlept p) (p_timeRun p)
    (p_trace p) (p_alarmFreq p) (p_alarmHandler p) (p_lastAlarm p) (p_alarmRunning p) (p_parent p)
    (p_kstack p) (p_sz p) (p_pagetable p) (p_trapframe p) (p_backupTrapFrame p) (p_context p)
    (p_ofile p) (p_cwd p) (p_name p) (p_rtime p) (p_ctime p) (p_etime p) (p_queue p)
    (p_entryTime p) (p_timeRanInQueue p).

Definition set_niceness (v : Z) (p : proc) : proc :=
  mkproc
    (p_state p) (p_chan p) (p_killed p) (p_xstate p) (p_pid p) (p_createTime p) (p_priority p)
    (p_timesScheduled p) v (p_tickets p) (p_lastSlept p) (p_lastScheduled p) (p_timeSlept p)
    (p_timeRun p) (p_trace p) (p_alarmFreq p) (p_alarmHandler p) (p_lastAlarm p)
    (p_alarmRunning p) (p_parent p) (p_kstack p) (p_sz p) (p_pagetable p) (p_trapframe p)
    (p_backupTrapFrame p) (p_context p) (p_ofile p) (p_cwd p) (p_name p) (p_rtime p) (p_ctime p)
    (p_etime p) (p_queue p) (p_entryTime p) (p_timeRanInQueue p).

Definition set_tickets (v : Z) (p : proc) : proc :=
  mkproc
    (p_state p) (p_chan p) (p_killed p) (p_xstate p) (p_pid p) (p_createTime p) (p_priority p)
    (p_timesScheduled p) (p_niceness p) v (p_lastSlept p) (p_lastScheduled p) (p_timeSlept p)
    (p_timeRun p) (p_trace p) (p_alarmFreq p) (p_alarmHandler p) (p_lastAlarm p)
    (p_alarmRunning p) (p_parent p) (p_kstack p) (p_sz p) (p_pagetable p) (p_trapframe p)
    (p_backupTrapFrame p) (p_context p) (p_ofile p) (p_cwd p) (p_name p) (p_rtime p) (p_ctime p)
    (p_etime p) (p_queue p) (p_entryTime p) (p_timeRanInQueue p).

Definition set_lastSlept (v : Z) (p : proc) : proc :=
  mkproc
    (p_state p) (p_chan p) (p_killed p) (p_xstate p) (p_pid p) (p_createTime p) (p_priority p)
    (p_timesScheduled p) (p_niceness p) (p_tickets p) v (p_lastScheduled p) (p_timeSlept p)
    (p_timeRun p) (p_trace p) (p_alarmFreq p) (p_alarmHandler p) (p_lastAlarm p)
    (p_alarmRunning p) (p_parent p) (p_kstack p) (p_sz p) (p_pagetable p) (p_trapframe p)
    (p_backupTrapFrame p) (p_context p) (p_ofile p) (p_cwd p) (p_name p) (p_rtime p) (p_ctime p)
    (p_etime p) (p_queue p) (p_entryTime p) (p_timeRanInQueue p).

Definition set_lastScheduled (v : Z) (p : proc) : proc :=
  mkproc
    (p_state p) (p_chan p) (p_killed p) (p_xstate p) (p_pid p) (p_createTime p) (p_priority p)
    (p_timesScheduled p) (p_niceness p) (p_tickets p) (p_lastSlept p) v (p_timeSlept p)
    (p_timeRun p) (p_trace p) (p_alarmFreq p) (p_alarmHandler p) (p_lastAlarm p)
    (p_alarmRunning p) (p_parent p) (p_kstack p) (p_sz p) (p_pagetable p) (p_trapframe p)
    (p_backupTrapFrame p) (p_context p) (p_ofile p) (p_cwd p) (p_name p) (p_rtime p) (p_ctime p)
    (p_etime p) (p_queue p) (p_entryTime p) (p_timeRanInQueue p).

Definition set_timeSlept (v : Z) (p : proc) : proc :=
  mkproc
    (p_state p) (p_chan p) (p_killed p) (p_xstate p) (p_pid p) (p_createTime p) (p_priority p)
    (p_timesScheduled p) (p_niceness p) (p_tickets p) (p_lastSlept p) (p_lastScheduled p) v
    (p_timeRun p) (p_trace p) (p_alarmFreq p) (p_alarmHandler p) (p_lastAlarm p)
    (p_alarmRunning p) (p_parent p) (p_kstack p) (p_sz p) (p_pagetable p) (p_trapframe p)
    (p_backupTrapFrame p) (p_context p) (p_ofile p) (p_cwd p) (p_name p) (p_rtime p) (p_ctime p)
    (p_etime p) (p_queue p) (p_entryTime p) (p_timeRanInQueue p).

Definition set_timeRun (v : Z) (p : proc) : proc :=
  mkproc
    (p_state p) (p_chan p) (p_killed p) (p_xstate p) (p_pid p) (p_createTime p) (p_priority p)
    (p_timesScheduled p) (p_niceness p) (p_tickets p) (p_lastSlept p) (p_lastScheduled p)
    (p_timeSlept p) v (p_trace p) (p_alarmFreq p) (p_alarmHandler p) (p_lastAlarm p)
    (p_alarmRunning p) (p_parent p) (p_kstack p) (p_sz p) (p_pagetable p) (p_trapframe p)
    (p_backupTrapFrame p) (p_context p) (p_ofile p) (p_cwd p) (p_name p) (p_rtime p) (p_ctime p)
    (p_etime p) (p_queue p) (p_entryTime p) (p_timeRanInQueue p).

Definition set_trace (v : Z) (p : proc) : proc :=
  mkproc
    (p_state p) (p_chan p) (p_killed p) (p_xstate p) (p_pid p) (p_createTime p) (p_priority p)
    (p_timesScheduled p) (p_niceness p) (p_tickets p) (p_lastSlept p) (p_lastScheduled p)
    (p_timeSlept p) (p_timeRun p) v (p_alarmFreq p) (p_alarmHandler p) (p_lastAlarm p)
    (p_alarmRunning p) (p_parent p) (p_kstack p) (p_sz p) (p_pagetable p) (p_trapframe p)
    (p_backupTrapFrame p) (p_context p) (p_ofile p) (p_cwd p) (p_name p) (p_rtime p) (p_ctime p)
    (p_etime p) (p_queue p) (p_entryTime p) (p_timeRanInQueue p).

Definition set_alarmFreq (v : Z) (p : proc) : proc :=
  mkproc
    (p_state p) (p_chan p) (p_killed p) (p_xstate p) (p_pid p) (p_createTime p) (p_priority p)
    (p_timesScheduled p) (p_niceness p) (p_tickets p) (p_lastSlept p) (p_lastScheduled p)
    (p_timeSlept p) (p_timeRun p) (p_trace p) v (p_alarmHandler p) (p_lastAlarm p)
    (p_alarmRunning p) (p_parent p) (p_kstack p) (p_sz p) (p_pagetable p) (p_trapframe p)
    (p_backupTrapFrame p) (p_context p) (p_ofile p) (p_cwd p) (p_name p) (p_rtime p) (p_ctime p)
    (p_etime p) (p_queue p) (p_entryTime p) (p_timeRanInQueue p).

Definition set_alarmHandler (v : Z) (p : proc) : proc :=
  mkproc
    (p_state p) (p_chan p) (p_killed p) (p_xstate p) (p_pid p) (p_createTime p) (p_priority p)
    (p_timesScheduled p) (p_niceness p) (p_tickets p) (p_lastSlept p) (p_lastScheduled p)
    (p_timeSlept p) (p_timeRun p) (p_trace p) (p_alarmFreq p) v (p_lastAlarm p) (p_alarmRunning p)
    (p_parent p) (p_kstack p) (p_sz p) (p_pagetable p) (p_trapframe p) (p_backupTrapFrame p)
    (p_context p) (p_ofile p) (p_cwd p) (p_name p) (p_rtime p) (p_ctime p) (p_etime p) (p_queue p)
    (p_entryTime p) (p_timeRanInQueue p).

Definition set_lastAlarm (v : Z) (p : proc) : proc :=
  mkproc
    (p_state p) (p_chan p) (p_killed p) (p_xstate p) (p_pid p) (p_createTime p) (p_priority p)
    (p_timesScheduled p) (p_niceness p) (p_tickets p) (p_lastSlept p) (p_lastScheduled p)
    (p_timeSlept p) (p_timeRun p) (p_trace p) (p_alarmFreq p) (p_alarmHandler p) v
    (p_alarmRunning p) (p_parent p) (p_kstack p) (p_sz p) (p_pagetable p) (p_trapframe p)
    (p_backupTrapFrame p) (p_context p) (p_ofile p) (p_cwd p) (p_name p) (p_rtime p) (p_ctime p)
    (p_etime p) (p_queue p) (p_entryTime p) (p_timeRanInQueue p).

Definition set_alarmRunning (v : Z) (p : proc) : proc :=
  mkproc
    (p_state p) (p_chan p) (p_killed p) (p_xstate p) (p_pid p) (p_createTime p) (p_priority p)
    (p_timesScheduled p) (p_niceness p) (p_tickets p) (p_lastSlept p) (p_lastScheduled p)
    (p_timeSlept p) (p_timeRun p) (p_trace p) (p_alarmFreq p) (p_alarmHandler p) (p_lastAlarm p) v
    (p_parent p) (p_kstack p) (p_sz p) (p_pagetable p) (p_trapframe p) (p_backupTrapFrame p)
    (p_context p) (p_ofile p) (p_cwd p) (p_name p) (p_rtime p) (p_ctime p) (p_etime p) (p_queue p)
    (p_entryTime p) (p_timeRanInQueue p).

Definition set_parent (v : option nat) (p : proc) : proc :=
  mkproc
    (p_state p) (p_chan p) (p_killed p) (p_xstate p) (p_pid p) (p_createTime p) (p_priority p)
    (p_timesScheduled p) (p_niceness p) (p_tickets p) (p_lastSlept p) (p_lastScheduled p)
    (p_timeSlept p) (p_timeRun p) (p_trace p) (p_alarmFreq p) (p_alarmHandler p) (p_lastAlarm p)
    (p_alarmRunning p) v (p_kstack p) (p_sz p) (p_pagetable p) (p_trapframe p)
    (p_backupTrapFrame p) (p_context p) (p_ofile p) (p_cwd p) (p_name p) (p_rtime p) (p_ctime p)
    (p_etime p) (p_queue p) (p_entryTime p) (p_timeRanInQueue p).

Definition set_kstack (v : Z) (p : proc) : proc :=
  mkproc
    (p_state p) (p_chan p) (p_killed p) (p_xstate p) (p_pid p) (p_createTime p) (p_priority p)
    (p_timesScheduled p) (p_niceness p) (p_tickets p) (p_lastSlept p) (p_lastScheduled p)
    (p_timeSlept p) (p_timeRun p) (p_trace p) (p_alarmFreq p) (p_alarmHandler p) (p_lastAlarm p)
    (p_alarmRunning p) (p_parent p) v (p_sz p) (p_pagetable p) (p_trapframe p)
    (p_backupTrapFrame p) (p_context p) (p_ofile p) (p_cwd p) (p_name p) (p_rtime p) (p_ctime p)
    (p_etime p) (p_queue p) (p_entryTime p) (p_timeRanInQueue p).

Definition set_sz (v : Z) (p : proc) : proc :=
  mkproc
    (p_state p) (p_chan p) (p_killed p) (p_xstate p) (p_pid p) (p_createTime p) (p_priority p)
    (p_timesScheduled p) (p_niceness p) (p_tickets p) (p_lastSlept p) (p_lastScheduled p)
    (p_timeSlept p) (p_timeRun p) (p_trace p) (p_alarmFreq p) (p_alarmHandler p) (p_lastAlarm p)
    (p_alarmRunning p) (p_parent p) (p_kstack p) v (p_pagetable p) (p_trapframe p)
    (p_backupTrapFrame p) (p_context p) (p_ofile p) (p_cwd p) (p_name p) (p_rtime p) (p_ctime p)
    (p_etime p) (p_queue p) (p_entryTime p) (p_timeRanInQueue p).

Definition set_pagetable (v : Z) (p : proc) : proc :=
  mkproc
    (p_state p) (p_chan p) (p_killed p) (p_xstate p) (p_pid p) (p_createTime p) (p_priority p)
    (p_timesScheduled p) (p_niceness p) (p_tickets p) (p_lastSlept p) (p_lastScheduled p)
    (p_timeSlept p) (p_timeRun p) (p_trace p) (p_alarmFreq p) (p_alarmHandler p) (p_lastAlarm p)
    (p_alarmRunning p) (p_parent p) (p_kstack p) (p_sz p) v (p_trapframe p) (p_backupTrapFrame p)
    (p_context p) (p_ofile p) (p_cwd p) (p_name p) (p_rtime p) (p_ctime p) (p_etime p) (p_queue p)
    (p_entryTime p) (p_timeRanInQueue p).

Definition set_trapframe (v : Z) (p : proc) : proc :=
  mkproc
    (p_state p) (p_chan p) (p_killed p) (p_xstate p) (p_pid p) (p_createTime p) (p_priority p)
    (p_timesScheduled p) (p_niceness p) (p_tickets p) (p_lastSlept p) (p_lastScheduled p)
    (p_timeSlept p) (p_timeRun p) (p_trace p) (p_alarmFreq p) (p_alarmHandler p) (p_lastAlarm p)
    (p_alarmRunning p) (p_parent p) (p_kstack p) (p_sz p) (p_pagetable p) v (p_backupTrapFrame p)
    (p_context p) (p_ofile p) (p_cwd p) (p_name p) (p_rtime p) (p_ctime p) (p_etime p) (p_queue p)
    (p_entryTime p) (p_timeRanInQueue p).

Definition set_backupTrapFrame (v : Z) (p : proc) : proc :=
  mkproc
    (p_state p) (p_chan p) (p_killed p) (p_xstate p) (p_pid p) (p_createTime p) (p_priority p)
    (p_timesScheduled p) (p_niceness p) (p_tickets p) (p_lastSlept p) (p_lastScheduled p)
    (p_timeSlept p) (p_timeRun p) (p_trace p) (p_alarmFreq p) (p_alarmHandler p) (p_lastAlarm p)
    (p_alarmRunning p) (p_parent p) (p_kstack p) (p_sz p) (p_pagetable p) (p_trapframe p) v
    (p_context p) (p_ofile p) (p_cwd p) (p_name p) (p_rtime p) (p_ctime p) (p_etime p) (p_queue p)
    (p_entryTime p) (p_timeRanInQueue p).

Definition set_context (v : list Z) (p : proc) : proc :=
  mkproc
    (p_state p) (p_chan p) (p_killed p) (p_xstate p) (p_pid p) (p_createTime p) (p_priority p)
    (p_timesScheduled p) (p_niceness p) (p_tickets p) (p_lastSlept p) (p_lastScheduled p)
    (p_timeSlept p) (p_timeRun p) (p_trace p) (p_alarmFreq p) (p_alarmHandler p) (p_lastAlarm p)
    (p_alarmRunning p) (p_parent p) (p_kstack p) (p_sz p) (p_pagetable p) (p_trapframe p)
    (p_backupTrapFrame p) v (p_ofile p) (p_cwd p) (p_name p) (p_rtime p) (p_ctime p) (p_etime p)
    (p_queue p) (p_entryTime p) (p_timeRanInQueue p).

Definition set_ofile (v : list (option nat)) (p : proc) : proc :=
  mkproc
    (p_state p) (p_chan p) (p_killed p) (p_xstate p) (p_pid p) (p_createTime p) (p_priority p)
    (p_timesScheduled p) (p_niceness p) (p_tickets p) (p_lastSlept p) (p_lastScheduled p)
    (p_timeSlept p) (p_timeRun p) (p_trace p) (p_alarmFreq p) (p_alarmHandler p) (p_lastAlarm p)
    (p_alarmRunning p) (p_parent p) (p_kstack p) (p_sz p) (p_pagetable p) (p_trapframe p)
    (p_backupTrapFrame p) (p_context p) v (p_cwd p) (p_name p) (p_rtime p) (p_ctime p) (p_etime p)
    (p_queue p) (p_entryTime p) (p_timeRanInQueue p).

Definition set_cwd (v : option nat) (p : proc) : proc :=
  mkproc
    (p_state p) (p_chan p) (p_killed p) (p_xstate p) (p_pid p) (p_createTime p) (p_priority p)
    (p_timesScheduled p) (p_niceness p) (p_tickets p) (p_lastSlept p) (p_lastScheduled p)
    (p_timeSlept p) (p_timeRun p) (p_trace p) (p_alarmFreq p) (p_alarmHandler p) (p_lastAlarm p)
    (p_alarmRunning p) (p_parent p) (p_kstack p) (p_sz p) (p_pagetable p) (p_trapframe p)
    (p_backupTrapFrame p) (p_context p) (p_ofile p) v (p_name p) (p_rtime p) (p_ctime p)
    (p_etime p) (p_queue p) (p_entryTime p) (p_timeRanInQueue p).

Definition set_name (v : list Z) (p : proc) : proc :=
  mkproc
    (p_state p) (p_chan p) (p_killed p) (p_xstate p) (p_pid p) (p_createTime p) (p_priority p)
    (p_timesScheduled p) (p_niceness p) (p_tickets p) (p_lastSlept p) (p_lastScheduled p)
    (p_timeSlept p) (p_timeRun p) (p_trace p) (p_alarmFreq p) (p_alarmHandler p) (p_lastAlarm p)
    (p_alarmRunning p) (p_parent p) (p_kstack p) (p_sz p) (p_pagetable p) (p_trapframe p)
    (p_backupTrapFrame p) (p_context p) (p_ofile p) (p_cwd p) v (p_rtime p) (p_ctime p)
    (p_etime p) (p_queue p) (p_entryTime p) (p_timeRanInQueue p).

Definition set_rtime (v : Z) (p : proc) : proc :=
  mkproc
    (p_state p) (p_chan p) (p_killed p) (p_xstate p) (p_pid p) (p_createTime p) (p_priority p)
    (p_timesScheduled p) (p_niceness p) (p_tickets p) (p_lastSlept p) (p_lastScheduled p)
    (p_timeSlept p) (p_timeRun p) (p_trace p) (p_alarmFreq p) (p_alarmHandler p) (p_lastAlarm p)
    (p_alarmRunning p) (p_parent p) (p_kstack p) (p_sz p) (p_pagetable p) (p_trapframe p)
    (p_backupTrapFrame p) (p_context p) (p_ofile p) (p_cwd p) (p_name p) v (p_ctime p) (p_etime p)
    (p_queue p) (p_entryTime p) (p_timeRanInQueue p).

Definition set_ctime (v : Z) (p : proc) : proc :=
  mkproc
    (p_state p) (p_chan p) (p_killed p) (p_xstate p) (p_pid p) (p_createTime p) (p_priority p)
    (p_timesScheduled p) (p_niceness p) (p_tickets p) (p_lastSlept p) (p_lastScheduled p)
    (p_timeSlept p) (p_timeRun p) (p_trace p) (p_alarmFreq p) (p_alarmHandler p) (p_lastAlarm p)
    (p_alarmRunning p) (p_parent p) (p_kstack p) (p_sz p) (p_pagetable p) (p_trapframe p)
    (p_backupTrapFrame p) (p_context p) (p_ofile p) (p_cwd p) (p_name p) (p_rtime p) v (p_etime p)
    (p_queue p) (p_entryTime p) (p_timeRanInQueue p).

Definition set_etime (v : Z) (p : proc) : proc :=
  mkproc
    (p_state p) (p_chan p) (p_killed p) (p_xstate p) (p_pid p) (p_createTime p) (p_priority p)
    (p_timesScheduled p) (p_niceness p) (p_tickets p) (p_lastSlept p) (p_lastScheduled p)
    (p_timeSlept p) (p_timeRun p) (p_trace p) (p_alarmFreq p) (p_alarmHandler p) (p_lastAlarm p)
    (p_alarmRunning p) (p_parent p) (p_kstack p) (p_sz p) (p_pagetable p) (p_trapframe p)
    (p_backupTrapFrame p) (p_context p) (p_ofile p) (p_cwd p) (p_name p) (p_rtime p) (p_ctime p) v
    (p_queue p) (p_entryTime p) (p_timeRanInQueue p).

Definition set_queue (v : Z) (p : proc) : proc :=
  mkproc
    (p_state p) (p_chan p) (p_killed p) (p_xstate p) (p_pid p) (p_createTime p) (p_priority p)
    (p_timesScheduled p) (p_niceness p) (p_tickets p) (p_lastSlept p) (p_lastScheduled p)
    (p_timeSlept p) (p_timeRun p) (p_trace p) (p_alarmFreq p) (p_alarmHandler p) (p_lastAlarm p)
    (p_alarmRunning p) (p_parent p) (p_kstack p) (p_sz p) (p_pagetable p) (p_trapframe p)
    (p_backupTrapFrame p) (p_context p) (p_ofile p) (p_cwd p) (p_name p) (p_rtime p) (p_ctime p)
    (p_etime p) v (p_entryTime p) (p_timeRanInQueue p).

Definition set_entryTime (v : Z) (p : proc) : proc :=
  mkproc
    (p_state p) (p_chan p) (p_killed p) (p_xstate p) (p_pid p) (p_createTime p) (p_priority p)
    (p_timesScheduled p) (p_niceness p) (p_tickets p) (p_lastSlept p) (p_lastScheduled p)
    (p_timeSlept p) (p_timeRun p) (p_trace p) (p_alarmFreq p) (p_alarmHandler p) (p_lastAlarm p)
    (p_alarmRunning p) (p_parent p) (p_kstack p) (p_sz p) (p_pagetable p) (p_trapframe p)
    (p_backupTrapFrame p) (p_context p) (p_ofile p) (p_cwd p) (p_name p) (p_rtime p) (p_ctime p)
    (p_etime p) (p_queue p) v (p_timeRanInQueue p).

Definition set_timeRanInQueue (v : Z) (p : proc) : proc :=
  mkproc
    (p_state p) (p_chan p) (p_killed p) (p_xstate p) (p_pid p) (p_createTime p) (p_priority p)
    (p_timesScheduled p) (p_niceness p) (p_tickets p) (p_lastSlept p) (p_lastScheduled p)
    (p_timeSlept p) (p_timeRun p) (p_trace p) (p_alarmFreq p) (p_alarmHandler p) (p_lastAlarm p)
    (p_alarmRunning p) (p_parent p) (p_kstack p) (p_sz p) (p_pagetable p) (p_trapframe p)
    (p_backupTrapFrame p) (p_context p) (p_ofile p) (p_cwd p) (p_name p) (p_rtime p) (p_ctime p)
    (p_etime p) (p_queue p) (p_entryTime p) v.

(** A slot of the bss-cleared table. *)
Definition proc_zero : proc :=
  mkproc UNUSED NoChan 0 0 0 0 0 0 0 0 0 0 0 0 0 0 0 0 0 None 0 0 0 0 0 (replicate 14 0)
    (replicate (Z.to_nat NOFILE) None) None (replicate 16 0) 0 0 0 0 0 0.

Definition has_state (st : procstate) (p : proc) : bool := bool_decide (p_state p = st).

Lemma has_state_true st p : has_state st p = true ↔ p_state p = st.
Proof. apply bool_decide_eq_true. Qed.

Lemma has_state_false st p : has_state st p = false ↔ p_state p ≠ st.
Proof. apply bool_decide_eq_false. Qed.
