(* ===== verification/Sched.v ===== *)
(** * Scheduling (kernel/proc.c)

    The random number generator, the dynamic priority, the selection loops of
    the five schedulers (RR, FCFS, LBS, PBS, MLFQ, chosen at compile time), the
    queue maintenance of MLFQ, and the state changes of [yield], [sleep],
    [wakeup] and [kill] on the process table.  A table is the list of its
    slots.  Each loop body runs under the lock of its slot, so it is one
    function of the slot. *)

From stdpp Require Import base numbers list relations.
From S2P Require Import Prelude Layout ProcState.
Local Open Scope Z_scope.

(** ** Random numbers and priorities *)

(** [next] is an unsigned 64-bit word; the value and the new [next]. *)
Definition rand (next : Z) : Z * Z :=
  let next := u64 (next * 1103515245 + 12345) in
  (u32 (next / 65536) mod 32768, next).

Definition srand (seed next : Z) : Z := if seed =? 0 then seed else next.

Definition getDP (p : proc) : Z :=
  let dp := i32 (p_priority p - p_niceness p + 5) in
  let dp := if 100 <? dp then 100 else dp in
  if dp <? 0 then 0 else dp.

Fixpoint num_digits_loop (fuel : nat) (num digits : Z) : Z :=
  if 0 <? num then
    match fuel with
    | O => digits
    | S f => num_digits_loop f (num / 10) (digits + 1)
    end
  else digits.

(** A 32-bit number has at most ten decimal digits. *)
Definition num_digits (num : Z) : Z :=
  let is_neg := if num <? 0 then 1 else 0 in
  let num := if num <? 0 then i32 (num * -1) else num in
  if num =? 0 then 1 else num_digits_loop 10 num 0 + is_neg.

(** ** The selection loops *)

(** The loop all selections share: keep the slot that is eligible and better
    than the one kept so far. *)
Fixpoint scan_loop (el : proc → bool) (better : proc → proc → bool)
    (i : nat) (ps : list proc) (best : option (nat * proc)) : option (nat * proc) :=
  match ps with
  | [] => best
  | p :: ps' =>
      let best' :=
        if el p && match best with None => true | Some (_, b) => better p b end
        then Some (i, p) else best in
      scan_loop el better (S i) ps' best'
  end.

Definition runnable : proc → bool := has_state RUNNABLE.

Definition fcfs_better (p min : proc) : bool := p_createTime p <? p_createTime min.
Definition fcfs_select (t : list proc) : option (nat * proc) :=
  scan_loop runnable fcfs_better 0 t None.

Definition pbs_better (p max : proc) : bool :=
  let newDp := getDP p in
  let maxDp := getDP max in
  if newDp <? maxDp then true
  else if newDp =? maxDp then
    if p_timesScheduled p <? p_timesScheduled max then true
    else if p_timesScheduled p =? p_timesScheduled max then p_createTime p <? p_createTime max
    else false
  else false.
Definition pbs_select (t : list proc) : option (nat * proc) :=
  scan_loop runnable pbs_better 0 t None.

(** LBS: the sum of the tickets, the draw, and the loop that finds the winner. *)
Fixpoint total_tickets (t : list proc) (acc : Z) : Z :=
  match t with
  | [] => acc
  | p :: t' => total_tickets t' (if runnable p then i32 (acc + p_tickets p) else acc)
  end.

Fixpoint lbs_loop (i : nat) (t : list proc) (random : Z) : option nat :=
  match t with
  | [] => None
  | p :: t' =>
      if runnable p then
        let random := i32 (random - p_tickets p) in
        if random <? 0 then Some i else lbs_loop (S i) t' random
      else lbs_loop (S i) t' random
  end.

(** [rand() % totalTickets]: [None] is the remainder by zero, undefined in C. *)
Definition lbs_draw (r total : Z) : option Z :=
  if total =? 0 then None else Some (Z.rem r total).

(** The whole selection: the outcome of the draw and the new [next]. *)
Definition lbs_select (next : Z) (t : list proc) : option (option nat) * Z :=
  let total := total_tickets t 0 in
  let '(r, next) := rand next in
  ((λ random, lbs_loop 0 t random) <$> lbs_draw r total, next).

(** ** MLFQ *)

Definition mlfq_limit (queue : Z) : Z :=
  if queue =? 0 then 1 else if queue =? 1 then 2 else if queue =? 2 then 4
  else if queue =? 3 then 8 else 16.

Definition demote1 (ticks : Z) (p : proc) : proc :=
  if has_state RUNNING p || has_state RUNNABLE p then
    if (mlfq_limit (p_queue p) <=? p_timeRanInQueue p) && (p_queue p <? 4)
    then set_timeRanInQueue 0 (set_entryTime (i32 ticks) (set_queue (p_queue p + 1) p))
    else p
  else p.

Definition age_limit (queue : Z) : Z :=
  if queue =? 1 then 40 else if queue =? 2 then 30 else if queue =? 3 then 25 else 20.

Definition age1 (ticks : Z) (p : proc) : proc :=
  if has_state RUNNABLE p || has_state SLEEPING p then
    if nonzero (p_queue p) then
      let waitTime := i32 (ticks - p_entryTime p - p_timeRanInQueue p) in
      if age_limit (p_queue p) <=? waitTime
      then set_entryTime (i32 ticks) (set_timeRanInQueue 0 (set_queue (p_queue p - 1) p))
      else p
    else p
  else p.

Definition age (ticks : Z) (t : list proc) : list proc := map (age1 ticks) t.

(** The first loop of the MLFQ scheduler, then [age]. *)
Definition mlfq_maintain (ticks : Z) (t : list proc) : list proc :=
  age ticks (map (demote1 ticks) t).

Definition mlfq_better (p best : proc) : bool :=
  if p_queue p <? p_queue best then true
  else if p_queue p =? p_queue best then p_entryTime p <? p_entryTime best
  else false.

Definition queue_select (q : Z) (t : list proc) : option (nat * proc) :=
  scan_loop (λ p, runnable p && (p_queue p =? q)) mlfq_better 0 t None.

(** Queues 0 to 3 in turn, each scanned only when the ones before gave nothing. *)
Definition mlfq_select (t : list proc) : option (nat * proc) :=
  match queue_select 0 t with
  | Some x => Some x
  | None =>
      match queue_select 1 t with
      | Some x => Some x
      | None => match queue_select 2 t with Some x => Some x | None => queue_select 3 t end
      end
  end.

(** ** Dispatching *)

(** The five build variants. *)
Inductive policy : Type := RR | FCFS | LBS | PBS | MLFQ.

#[global] Instance policy_eq_dec : EqDecision policy.
Proof. solve_decision. Defined.

(** The assignments before [swtch] in RR, FCFS, LBS and the MLFQ queues 0-3. *)
Definition dispatch1 (ticks : Z) (p : proc) : proc :=
  set_lastScheduled (i32 ticks) (set_state RUNNING p).

(** The same in PBS, which counts, and in the MLFQ loop over queue 4. *)
Definition pbs_dispatch1 (ticks : Z) (p : proc) : proc :=
  set_lastScheduled (i32 ticks) (set_timesScheduled (i32 (p_timesScheduled p + 1)) (set_state RUNNING p)).
Definition rr4_dispatch1 (p : proc) : proc := set_state RUNNING p.

Definition dispatch (pol : policy) (ticks : Z) (p : proc) : proc :=
  match pol with
  | PBS => pbs_dispatch1 ticks p
  | MLFQ => if p_queue p =? 4 then rr4_dispatch1 p else dispatch1 ticks p
  | _ => dispatch1 ticks p
  end.

(** The chosen process is run only if it is still RUNNABLE under its lock. *)
Definition run_chosen (pol : policy) (ticks : Z) (p : proc) : option proc :=
  if has_state RUNNABLE p then Some (dispatch pol ticks p) else None.

(** ** State changes of processes *)

Definition update_niceness (p : proc) : proc :=
  let total := i32 (p_timeSlept p + p_timeRun p) in
  if nonzero total then set_niceness (i32 (Z.quot (i32 (10 * p_timeSlept p)) total)) p else p.

(** [yield], up to the call of [sched]. *)
Definition yield1 (ticks : Z) (p : proc) : proc :=
  let p := set_state RUNNABLE p in
  let p := set_timeRun (i32 (p_timeRun p + (ticks - p_lastScheduled p))) p in
  let p := set_timeRanInQueue (i32 (p_timeRanInQueue p + (ticks - p_lastScheduled p))) p in
  update_niceness p.

(** [sleep], up to the call of [sched], and after it. *)
Definition sleep1 (chan : chanaddr) (ticks : Z) (p : proc) : proc :=
  set_lastSlept (i32 ticks) (set_state SLEEPING (set_chan chan p)).
Definition sleep2 (p : proc) : proc := set_chan NoChan p.

Definition wakeup1 (chan : chanaddr) (ticks : Z) (p : proc) : proc :=
  if has_state SLEEPING p && bool_decide (p_chan p = chan) then
    let p := set_state RUNNABLE p in
    let p := set_timeSlept (i32 (p_timeSlept p + (ticks - p_lastSlept p))) p in
    let p := update_niceness p in
    set_lastSlept (-1) p
  else p.

(** [cur] is [myproc()], none in an interrupt of an idle CPU. *)
Definition wakeup (cur : option nat) (chan : chanaddr) (ticks : Z) (t : list proc) : list proc :=
  imap (λ i p, if bool_decide (cur = Some i) then p else wakeup1 chan ticks p) t.

Definition kill1 (p : proc) : proc :=
  let p := set_killed 1 p in
  if has_state SLEEPING p then set_state RUNNABLE p else p.

Fixpoint kill (pid : Z) (t : list proc) : Z * list proc :=
  match t with
  | [] => (-1, [])
  | p :: t' =>
      if p_pid p =? pid then (0, kill1 p :: t')
      else let '(r, t'') := kill pid t' in (r, p :: t'')
  end.

Definition setkilled (p : proc) : proc := set_killed 1 p.
Definition killed (p : proc) : Z := p_killed p.

Definition update_time (t : list proc) : list proc :=
  map (λ p, if has_state RUNNING p then set_rtime (u32 (p_rtime p + 1)) p else p) t.

(** The slot of the first process with this pid. *)
Fixpoint getProc (i : nat) (pid : Z) (t : list proc) : option nat :=
  match t with
  | [] => None
  | p :: t' => if p_pid p =? pid then Some i else getProc (S i) pid t'
  end.

(** ** CPUs *)

(** A CPU is in its scheduler, has chosen a slot but not locked it yet, or runs
    the process of a slot. *)
Inductive cpust : Type := Idle | Chosen (i : nat) | Runs (i : nat).

Record machine : Type := Machine {
  m_procs : list proc;
  m_cpus : list cpust;
  m_ticks : Z;
}.

Definition set_procs (t : list proc) (m : machine) : machine :=
  Machine t (m_cpus m) (m_ticks m).
Definition set_proc (i : nat) (p : proc) (m : machine) : machine :=
  set_procs (<[i := p]> (m_procs m)) m.
Definition set_cpu (c : nat) (x : cpust) (m : machine) : machine :=
  Machine (m_procs m) (<[c := x]> (m_cpus m)) (m_ticks m).

Definition procinit (t : list proc) : list proc :=
  imap (λ i p, set_kstack (KSTACK (Z.of_nat i)) (set_state UNUSED p)) t.

(** The machine after [procinit]: no process, all CPUs in the scheduler. *)
Definition machine_boot (ncpu : nat) : machine :=
  Machine (procinit (replicate (Z.to_nat NPROC) proc_zero)) (replicate ncpu Idle) 0.

(** The steps of all CPUs, interleaved at the granularity of a held [p->lock].
    The scan of a scheduler reads slots other CPUs change meanwhile, so which
    slot it ends up with is left open. *)
Inductive mstep (pol : policy) (m : machine) : machine → Prop :=
| ms_choose c i :
    m_cpus m !! c = Some Idle → mstep pol m (set_cpu c (Chosen i) m)
| ms_skip c i p :
    m_cpus m !! c = Some (Chosen i) → m_procs m !! i = Some p →
    run_chosen pol (m_ticks m) p = None → mstep pol m (set_cpu c Idle m)
| ms_dispatch c i p p' :
    m_cpus m !! c = Some (Chosen i) → m_procs m !! i = Some p →
    run_chosen pol (m_ticks m) p = Some p' →
    mstep pol m (set_cpu c (Runs i) (set_proc i p' m))
| ms_yield c i p :
    m_cpus m !! c = Some (Runs i) → m_procs m !! i = Some p →
    mstep pol m (set_cpu c Idle (set_proc i (yield1 (m_ticks m) p) m))
| ms_sleep c i p chan :
    m_cpus m !! c = Some (Runs i) → m_procs m !! i = Some p →
    mstep pol m (set_cpu c Idle (set_proc i (sleep1 chan (m_ticks m) p) m))
| ms_exit c i p status :
    m_cpus m !! c = Some (Runs i) → m_procs m !! i = Some p →
    mstep pol m (set_cpu c Idle
      (set_proc i (set_etime (u32 (m_ticks m)) (set_state ZOMBIE (set_xstate status p))) m))
| ms_awake c i p :
    m_cpus m !! c = Some (Runs i) → m_procs m !! i = Some p →
    mstep pol m (set_proc i (sleep2 p) m)
| ms_wakeup c x cur chan :
    m_cpus m !! c = Some x → cur = match x with Runs i => Some i | _ => None end →
    mstep pol m (set_procs (wakeup cur chan (m_ticks m) (m_procs m)) m)
| ms_kill pid : mstep pol m (set_procs (snd (kill pid (m_procs m))) m)
| ms_maintain : pol = MLFQ → mstep pol m (set_procs (mlfq_maintain (m_ticks m) (m_procs m)) m)
| ms_update_time : mstep pol m (set_procs (update_time (m_procs m)) m)
| ms_tick : mstep pol m (Machine (m_procs m) (m_cpus m) (u32 (m_ticks m + 1)))
| ms_alloc i p :
    m_procs m !! i = Some p → p_state p = UNUSED → mstep pol m (set_proc i (set_state USED p) m)
| ms_ready i p :
    m_procs m !! i = Some p → p_state p = USED → mstep pol m (set_proc i (set_state RUNNABLE p) m)
| ms_free i p :
    m_procs m !! i = Some p → p_state p = ZOMBIE ∨ p_state p = USED →
    mstep pol m (set_proc i (set_state UNUSED p) m).

(** ** Selection *)

(** What a scan of [l] ends with: nothing when no slot is eligible, otherwise an
    eligible slot no eligible slot is better than, the first of the best ones. *)
Definition best_of (el : proc → bool) (better : proc → proc → bool) (l : list proc)
    (best : option (nat * proc)) : Prop :=
  match best with
  | None => ∀ j p, l !! j = Some p → el p = false
  | Some (i, b) =>
      l !! i = Some b ∧ el b = true ∧
      ∀ j p, l !! j = Some p → el p = true →
        better p b = false ∧ ((j < i)%nat → better b p = true)
  end.

(** The comparisons of the schedulers are strict weak orders. *)
Class StrictWeak (better : proc → proc → bool) : Prop := {
  sw_irrefl p : better p p = false;
  sw_trans p q r : better p q = true → better q r = true → better p r = true;
  sw_cotrans p q r : better p q = false → better q r = false → better p r = false;
}.

#[global] Instance fcfs_better_sw : StrictWeak fcfs_better.
Proof. split; unfold fcfs_better; intros; bool_cases; (apply Z.ltb_lt || apply Z.ltb_ge); lia. Qed.

(** Lexicographic comparison through integer keys. *)
Ltac lex_solve :=
  repeat match goal with
  | H : context [?a <? ?b] |- _ => destruct (Z.ltb_spec a b)
  | H : context [?a =? ?b] |- _ => destruct (Z.eqb_spec a b)
  | |- context [?a <? ?b] => destruct (Z.ltb_spec a b)
  | |- context [?a =? ?b] => destruct (Z.eqb_spec a b)
  end; try discriminate; try reflexivity; try lia.

#[global] Instance mlfq_better_sw : StrictWeak mlfq_better.
Proof. split; unfold mlfq_better; intros; lex_solve. Qed.

#[global] Instance pbs_better_sw : StrictWeak pbs_better.
Proof.
  split; unfold pbs_better; cbv zeta; intros p; try intros q r;
    generalize (getDP p) (p_timesScheduled p) (p_createTime p); intros a b c;
    try (generalize (getDP q) (p_timesScheduled q) (p_createTime q); intros a' b' c';
         generalize (getDP r) (p_timesScheduled r) (p_createTime r); intros a'' b'' c'');
    intros; lex_solve.
Qed.

Section Scan.
Context (el : proc → bool) (better : proc → proc → bool) `{!StrictWeak better}.

Lemma best_of_snoc l best p :
  best_of el better l best →
  best_of el better (l ++ [p])
    (if el p && match best with None => true | Some (_, b) => better p b end
     then Some (length l, p) else best).
Proof.
  intros Hb.
  assert (Hl : ∀ j q, (l ++ [p]) !! j = Some q → l !! j = Some q ∨ (j = length l ∧ q = p)).
  { intros j q [H|[Hj H]]%lookup_app_Some; [by left|right].
    apply list_lookup_singleton_Some in H as [H <-]. split; [lia | done]. }
  destruct best as [[i b]|]; simpl in Hb.
  - destruct Hb as (Hi & Heb & Hbest). assert (Hi' : (l ++ [p]) !! i = Some b) by (by apply lookup_app_l_Some).
    destruct (el p && better p b) eqn:E; simpl.
    + apply andb_true_iff in E as [Ep Eb]. split; [by apply list_lookup_middle|]. split; [done|].
      intros j q [Hq|[-> ->]]%Hl Heq; [|split; [apply sw_irrefl | lia]].
      destruct (Hbest j q Hq Heq) as [Hqb _]. split.
      * destruct (better q p) eqn:E'; [|done]. by rewrite (sw_trans q p b E' Eb) in Hqb.
      * intros _. destruct (better p q) eqn:E'; [done|]. by rewrite (sw_cotrans p q b E' Hqb) in Eb.
    + split; [done|]. split; [done|]. intros j q [Hq|[-> ->]]%Hl Heq; [by apply Hbest|].
      rewrite Heq in E. split; [done|]. apply lookup_lt_Some in Hi. lia.
  - rewrite andb_true_r. destruct (el p) eqn:Ep; simpl.
    + split; [by apply list_lookup_middle|]. split; [done|].
      intros j q [Hq|[-> ->]]%Hl Heq; [by rewrite (Hb j q) in Heq|]. split; [apply sw_irrefl | lia].
    + intros j q [Hq|[-> ->]]%Hl; [by apply (Hb j) | done].
Qed.

Lemma scan_loop_best pre ps best :
  best_of el better pre best →
  best_of el better (pre ++ ps) (scan_loop el better (length pre) ps best).
Proof.
  revert pre best. induction ps as [|p ps IH]; intros pre best Hb; simpl.
  - by rewrite app_nil_r.
  - replace (pre ++ p :: ps) with ((pre ++ [p]) ++ ps) by (by rewrite <- app_assoc).
    replace (S (length pre)) with (length (pre ++ [p])) by (rewrite length_app; simpl; lia).
    by apply IH, best_of_snoc.
Qed.

Lemma scan_best t : best_of el better t (scan_loop el better 0 t None).
Proof. by apply (scan_loop_best []). Qed.
End Scan.

(** ** The lottery *)

(** Tickets held by the runnable processes among the first [k] slots. *)
Fixpoint tickets_below (t : list proc) (k : nat) : Z :=
  match t, k with
  | p :: t', S k' => (if runnable p then p_tickets p else 0) + tickets_below t' k'
  | _, _ => 0
  end.

Definition tickets_sum (t : list proc) : Z := tickets_below t (length t).

(** Every runnable process has a ticket, and the sum fits an [int]. *)
Definition tickets_ok (t : list proc) : Prop :=
  Forall (λ p, runnable p = true → 0 < p_tickets p) t ∧ tickets_sum t < 2 ^ 31.

Lemma tickets_ok_cons p t : tickets_ok (p :: t) → tickets_ok t.
Proof.
  intros [Hf Hs]. apply Forall_cons in Hf as [Hp Hf]. split; [done|].
  unfold tickets_sum in *. simpl in Hs. destruct (runnable p); [specialize (Hp eq_refl)|]; lia.
Qed.

Lemma tickets_below_nonneg t k : Forall (λ p, runnable p = true → 0 < p_tickets p) t → 0 ≤ tickets_below t k.
Proof.
  intros Hf. revert k. induction Hf as [|p t Hp Hf IH]; intros [|k]; simpl; try lia.
  specialize (IH k). destruct (runnable p); [specialize (Hp eq_refl)|]; lia.
Qed.

Lemma tickets_below_le t k p :
  Forall (λ p, runnable p = true → 0 < p_tickets p) t → t !! k = Some p → runnable p = true →
  tickets_below t k + p_tickets p ≤ tickets_sum t.
Proof.
  intros Hf. revert k. unfold tickets_sum.
  induction Hf as [|q t Hq Hf IH]; intros [|k] Hk Hp; simpl in *; try done.
  - injection Hk as ->. rewrite Hp. pose proof (tickets_below_nonneg t (length t) Hf). lia.
  - specialize (IH k Hk Hp). lia.
Qed.

Lemma total_tickets_sum t acc :
  tickets_ok t → 0 ≤ acc → acc + tickets_sum t < 2 ^ 31 → total_tickets t acc = acc + tickets_sum t.
Proof.
  revert acc. unfold tickets_sum. induction t as [|p t IH]; intros acc Hok Ha Hs; simpl in *; [lia|].
  pose proof (tickets_ok_cons p t Hok) as Hok'. destruct Hok as [Hf _].
  apply Forall_cons in Hf as [Hp Hf]. pose proof (tickets_below_nonneg t (length t) Hf).
  destruct (runnable p); [|rewrite IH; lia || done]. specialize (Hp eq_refl).
  rewrite i32_small, IH by (done || lia). lia.
Qed.

Lemma lbs_loop_ge t j r n : lbs_loop j t r = Some n → (j ≤ n)%nat.
Proof.
  revert j r. induction t as [|x t IH]; intros j r; simpl; [done|].
  destruct (runnable x); [destruct (_ <? _)|]; [intros [= <-]; lia | intros H%IH; lia | intros H%IH; lia].
Qed.

(** Slot [k] wins exactly for the draws of its own tickets. *)
Lemma lbs_loop_wins t j k p r :
  tickets_ok t → t !! k = Some p → runnable p = true → 0 ≤ r < 2 ^ 31 →
  lbs_loop j t r = Some (j + k)%nat ↔ tickets_below t k ≤ r < tickets_below t k + p_tickets p.
Proof.
  revert j k r. induction t as [|q t IH]; intros j k r Hok Hk Hp Hr; [done|].
  pose proof (tickets_ok_cons q t Hok) as Hok'. pose proof Hok as [Hf Hs].
  apply Forall_cons in Hf as [Hq Hf]. simpl.
  destruct k as [|k]; simpl in Hk.
  - injection Hk as ->. rewrite Hp. specialize (Hq Hp). simpl.
    unfold tickets_sum in Hs. simpl in Hs. rewrite Hp in Hs.
    pose proof (tickets_below_nonneg t (length t) Hf).
    rewrite i32_small, Nat.add_0_r by lia. destruct (Z.ltb_spec (r - p_tickets p) 0); [split; done || lia|].
    split; [|lia]. intros Hge%lbs_loop_ge. lia.
  - pose proof (tickets_below_nonneg t k Hf). rewrite <- Nat.add_succ_comm.
    destruct (runnable q) eqn:Eq; [|rewrite Z.add_0_l; by apply IH].
    specialize (Hq eq_refl). unfold tickets_sum in Hs. simpl in Hs. rewrite Eq in Hs.
    pose proof (tickets_below_nonneg t (length t) Hf).
    rewrite i32_small by lia. destruct (Z.ltb_spec (r - p_tickets q) 0).
    + split; [intros [= Hj]; lia | lia].
    + rewrite IH by (done || lia). lia.
Qed.

Lemma lbs_loop_total t j r :
  tickets_ok t → 0 ≤ r < tickets_sum t → is_Some (lbs_loop j t r).
Proof.
  revert j r. unfold tickets_sum. induction t as [|q t IH]; intros j r Hok Hr; simpl in *; [lia|].
  pose proof (tickets_ok_cons q t Hok) as Hok'. destruct Hok as [Hf Hs].
  apply Forall_cons in Hf as [Hq Hf]. unfold tickets_sum in Hs. simpl in Hs.
  destruct (runnable q); [|apply IH; [done | lia]]. specialize (Hq eq_refl).
  pose proof (tickets_below_nonneg t (length t) Hf).
  rewrite i32_small by lia. destruct (Z.ltb_spec (r - p_tickets q) 0); [done|].
  apply IH; [done | lia].
Qed.

(** ** Ageing *)

(** A process that waits while the queues are maintained at each of the [n]
    ticks after [tk]. *)
Fixpoint waits (n : nat) (tk : Z) (p : proc) : proc :=
  match n with
  | O => p
  | S n' => waits n' (tk + 1) (age1 (tk + 1) (demote1 (tk + 1) p))
  end.

(** Ticks a process of this queue waits at most to climb to queue 0. *)
Definition climb (q : Z) : Z :=
  if q =? 0 then 0 else if q =? 1 then 40 else if q =? 2 then 70 else if q =? 3 then 95 else 115.

(** The maintenance as a function of queue, time run in it and entry time. *)
Definition demote3 (tk : Z) (x : Z * Z * Z) : Z * Z * Z :=
  let '(q, r, e) := x in
  if (mlfq_limit q <=? r) && (q <? 4) then (q + 1, 0, tk) else x.
Definition age3 (tk : Z) (x : Z * Z * Z) : Z * Z * Z :=
  let '(q, r, e) := x in
  if nonzero q && (age_limit q <=? tk - e - r) then (q - 1, 0, tk) else x.

Definition qre (p : proc) : Z * Z * Z := (p_queue p, p_timeRanInQueue p, p_entryTime p).

(** Times that fit: no [int] of the maintenance overflows. *)
Definition times_ok (tk : Z) (x : Z * Z * Z) : Prop :=
  let '(q, r, e) := x in 0 ≤ q ≤ 4 ∧ 0 ≤ r ∧ 0 ≤ e ∧ e + r ≤ tk.

Lemma demote1_qre tk p :
  p_state p = RUNNABLE → 0 ≤ tk < 2 ^ 31 →
  p_state (demote1 tk p) = RUNNABLE ∧ qre (demote1 tk p) = demote3 tk (qre p).
Proof.
  intros Hs Htk. unfold demote1, demote3, qre. rewrite (proj2 (has_state_true _ _) Hs), orb_true_r.
  rewrite i32_small by lia. by destruct (_ && _).
Qed.

Lemma age1_qre tk p :
  p_state p = RUNNABLE → 0 ≤ tk < 2 ^ 31 → times_ok tk (qre p) →
  p_state (age1 tk p) = RUNNABLE ∧ qre (age1 tk p) = age3 tk (qre p).
Proof.
  intros Hs Htk (Hq & Hr & He & Het). unfold age1, age3, qre.
  rewrite (proj2 (has_state_true _ _) Hs), !i32_small by lia.
  destruct (nonzero (p_queue p)); [|done]. simpl andb. cbv iota. by destruct (_ <=? _).
Qed.

Lemma queue_cases q : 0 ≤ q ≤ 4 → q = 0 ∨ q = 1 ∨ q = 2 ∨ q = 3 ∨ q = 4.
Proof. lia. Qed.

(** A waiting process after the maintenance at [tk], [m] ticks from queue 0. *)
Definition waiting (tk m : Z) (x : Z * Z * Z) : Prop :=
  let '(q, r, e) := x in
  times_ok tk x ∧ (q = 4 ∨ r < mlfq_limit q) ∧
  (q ≠ 0 → tk - e - r < age_limit q ∧ climb q - (tk - e - r) ≤ m).

Lemma demote3_ok tk x : times_ok tk x → times_ok tk (demote3 tk x).
Proof.
  destruct x as [[q r] e]. intros (Hq & Hr & He & Het). unfold demote3.
  destruct (_ <=? _); [|done]. destruct (Z.ltb_spec q 4); [|done]. simpl. lia.
Qed.

Lemma times_ok_mono tk tk' x : tk ≤ tk' → times_ok tk x → times_ok tk' x.
Proof. destruct x as [[q r] e]. unfold times_ok. lia. Qed.

(** Any pass of the maintenance leaves at most the ticks of the queue to go. *)
Lemma age3_climb tk x :
  times_ok tk x → (x.1.1 = 4 ∨ x.1.2 < mlfq_limit x.1.1) → waiting tk 115 (age3 tk x).
Proof.
  destruct x as [[q r] e]. intros (Hq & Hr & He & Het) Hst. simpl in Hst. unfold age3.
  destruct (queue_cases q Hq) as [-> | [-> | [-> | [-> | ->]]]];
    (destruct (nonzero _ && _) eqn:E; bool_cases; unfold waiting, times_ok, mlfq_limit, age_limit, climb in *;
     simpl in *; bool_cases; try discriminate; lia).
Qed.

Lemma waiting_step tk m x :
  waiting tk m x → 0 ≤ m → waiting (tk + 1) (Z.max 0 (m - 1)) (age3 (tk + 1) (demote3 (tk + 1) x)).
Proof.
  destruct x as [[q r] e]. intros ((Hq & Hr & He & Het) & Hst & Hm) Hm0.
  unfold demote3. replace (_ && _) with false.
  2: { symmetry. apply andb_false_iff. rewrite Z.leb_gt, Z.ltb_ge. lia. }
  unfold age3. destruct (nonzero q) eqn:E0; simpl andb; cbv iota.
  2: { apply nonzero_false in E0. subst q. unfold waiting, times_ok. lia. }
  apply nonzero_true in E0. destruct (Hm E0) as [Hl Hc].
  destruct (queue_cases q Hq) as [-> | [-> | [-> | [-> | ->]]]]; [done|..];
    (destruct (_ <=? _) eqn:E; bool_cases; unfold waiting, times_ok, mlfq_limit, age_limit, climb in *;
     simpl in *; lia).
Qed.

Lemma waits_climb n tk m p :
  p_state p = RUNNABLE → waiting tk m (qre p) → 0 ≤ tk → 0 ≤ m ≤ Z.of_nat n →
  tk + Z.of_nat n < 2 ^ 31 → p_queue (waits n tk p) = 0.
Proof.
  revert tk m p. induction n as [|n IH]; intros tk m p Hs Hw Htk Hm Hb.
  - simpl. destruct Hw as ((Hq & _ & _ & Het) & _ & H0).
    destruct (decide (p_queue p = 0)) as [|Hne]; [done|]. destruct (H0 Hne) as [Hl Hc].
    destruct (queue_cases _ Hq) as [Eq|[Eq|[Eq|[Eq|Eq]]]]; rewrite Eq in *; [done|..];
      unfold age_limit, climb in *; simpl in *; lia.
  - simpl. assert (Hok : times_ok (tk + 1) (qre p))
      by (apply (times_ok_mono tk); [lia | by destruct Hw]).
    destruct (demote1_qre (tk + 1) p Hs) as [Hs1 E1]; [lia|].
    destruct (age1_qre (tk + 1) (demote1 (tk + 1) p) Hs1) as [Hs2 E2]; [lia | rewrite E1; by apply demote3_ok|].
    apply (IH (tk + 1) (Z.max 0 (m - 1))); [done | | lia | lia | lia].
    rewrite E2, E1. apply waiting_step; [done | lia].
Qed.

Lemma demote3_stable tk x :
  times_ok tk x → (demote3 tk x).1.1 = 4 ∨ (demote3 tk x).1.2 < mlfq_limit (demote3 tk x).1.1.
Proof.
  destruct x as [[q r] e]. intros (Hq & Hr & He & Het). unfold demote3.
  destruct (queue_cases q Hq) as [-> | [-> | [-> | [-> | ->]]]];
    (destruct (_ && _) eqn:E; [unfold mlfq_limit; simpl; lia|]);
    apply andb_false_iff in E; rewrite Z.leb_gt, Z.ltb_ge in E; simpl; lia.
Qed.

(** A process that is runnable and never run reaches queue 0. *)
Lemma waits_queue0 n tk p :
  p_state p = RUNNABLE → times_ok tk (qre p) → 0 ≤ tk → tk + Z.of_nat n < 2 ^ 31 → 116 ≤ Z.of_nat n →
  p_queue (waits n tk p) = 0.
Proof.
  intros Hs Hok Htk Hb Hn. destruct n as [|n]; [lia|]. cbn [waits].
  assert (Hok' : times_ok (tk + 1) (qre p)) by (apply (times_ok_mono tk); [lia | done]).
  destruct (demote1_qre (tk + 1) p Hs) as [Hs1 E1]; [lia|].
  destruct (age1_qre (tk + 1) (demote1 (tk + 1) p) Hs1) as [Hs2 E2]; [lia | rewrite E1; by apply demote3_ok|].
  apply (waits_climb n (tk + 1) 115); [done | | lia | lia | lia].
  rewrite E2, E1. apply age3_climb; [by apply demote3_ok | by apply demote3_stable].
Qed.

(** ** Who runs where *)

(** A process is RUNNING exactly when one CPU, and only one, runs it. *)
Record running_ok (m : machine) : Prop := RunningOk {
  ro_iff : ∀ i p, m_procs m !! i = Some p →
    p_state p = RUNNING ↔ ∃ c, m_cpus m !! c = Some (Runs i);
  ro_one : ∀ c c' i, m_cpus m !! c = Some (Runs i) → m_cpus m !! c' = Some (Runs i) → c = c';
  ro_slot : ∀ c i, m_cpus m !! c = Some (Runs i) → is_Some (m_procs m !! i);
}.

(** Table updates under which nobody starts or stops running. *)
Definition keeps_running (t t' : list proc) : Prop :=
  ∀ i p', t' !! i = Some p' → ∃ p, t !! i = Some p ∧ (p_state p' = RUNNING ↔ p_state p = RUNNING).

Lemma running_ok_table m t' :
  running_ok m → length t' = length (m_procs m) → keeps_running (m_procs m) t' →
  running_ok (set_procs t' m).
Proof.
  intros [H1 H2 H3] Hlen Hk. split; simpl; [|done|].
  - intros i p' Hi. destruct (Hk i p' Hi) as (p & Hp & ->). by apply H1.
  - intros c i Hc. apply lookup_lt_is_Some. rewrite Hlen. apply lookup_lt_is_Some. eauto.
Qed.

Lemma keeps_running_map f t :
  (∀ p, p_state (f p) = RUNNING ↔ p_state p = RUNNING) → keeps_running t (map f t).
Proof.
  intros Hf i p' Hi. change (map f t) with (f <$> t) in Hi.
  apply list_lookup_fmap_Some in Hi as (p & -> & Hp). eauto.
Qed.

Lemma keeps_running_trans t1 t2 t3 :
  keeps_running t1 t2 → keeps_running t2 t3 → keeps_running t1 t3.
Proof.
  intros H1 H2 i p3 Hi. destruct (H2 i p3 Hi) as (p2 & Hp2 & E2).
  destruct (H1 i p2 Hp2) as (p1 & Hp1 & E1). exists p1. split; [done|]. by rewrite E2.
Qed.

Lemma keeps_running_insert t i p p' :
  t !! i = Some p → (p_state p' = RUNNING ↔ p_state p = RUNNING) → keeps_running t (<[i := p']> t).
Proof.
  intros Hi Hp j q Hj. destruct (decide (i = j)) as [<-|].
  - rewrite list_lookup_insert_eq in Hj by (by eapply lookup_lt_Some). injection Hj as <-. eauto.
  - rewrite list_lookup_insert_ne in Hj by done. eauto.
Qed.

Lemma update_niceness_state p : p_state (update_niceness p) = p_state p.
Proof. unfold update_niceness. by destruct (nonzero _). Qed.

Lemma wakeup1_running chan tk p : p_state (wakeup1 chan tk p) = RUNNING ↔ p_state p = RUNNING.
Proof.
  unfold wakeup1. destruct (has_state SLEEPING p) eqn:E; [|done]. apply has_state_true in E.
  destruct (bool_decide _); simpl; [|done]. rewrite update_niceness_state. simpl. by rewrite E.
Qed.

Lemma kill1_running p : p_state (kill1 p) = RUNNING ↔ p_state p = RUNNING.
Proof.
  unfold kill1. destruct (has_state SLEEPING (set_killed 1 p)) eqn:E; [|done].
  apply has_state_true in E. simpl in *. by rewrite E.
Qed.

Lemma kill_table pid t : length (kill pid t).2 = length t ∧ keeps_running t (kill pid t).2.
Proof.
  induction t as [|p t [IHl IH]]; simpl; [split; [done | by intros i ? ?]|].
  destruct (p_pid p =? pid); simpl.
  - split; [done|]. intros [|i] q Hi; simpl in *; [|eauto]. injection Hi as <-. exists p.
    split; [done | apply kill1_running].
  - destruct (kill pid t) as [r t'']. simpl in *. split; [congruence|].
    intros [|i] q Hi; simpl in *; [|by apply IH]. injection Hi as <-. by exists p.
Qed.

Lemma wakeup_table cur chan tk t :
  length (wakeup cur chan tk t) = length t ∧ keeps_running t (wakeup cur chan tk t).
Proof.
  unfold wakeup. split; [apply length_imap|]. intros i q Hi. rewrite list_lookup_imap in Hi.
  apply fmap_Some in Hi as (p & Hp & ->). exists p. split; [done|].
  destruct (bool_decide _); [done | apply wakeup1_running].
Qed.

Lemma maintain1_running tk p : p_state (age1 tk (demote1 tk p)) = p_state p.
Proof.
  assert (Ha : ∀ q, p_state (age1 tk q) = p_state q).
  { intros q. unfold age1. destruct (_ || _); [|done]. destruct (nonzero _); [|done]. by destruct (_ <=? _). }
  rewrite Ha. unfold demote1. destruct (_ || _); [|done]. by destruct (_ && _).
Qed.

(** A CPU goes from the scheduler to the scheduler, or between choices. *)
Lemma running_ok_cpu m c x y :
  running_ok m → m_cpus m !! c = Some x → (∀ i, x ≠ Runs i) → (∀ i, y ≠ Runs i) →
  running_ok (set_cpu c y m).
Proof.
  intros [H1 H2 H3] Hc Hx Hy.
  assert (Hl : ∀ d i, <[c:=y]> (m_cpus m) !! d = Some (Runs i) ↔ m_cpus m !! d = Some (Runs i)).
  { intros d i. destruct (decide (c = d)) as [<-|]; [|by rewrite list_lookup_insert_ne].
    rewrite list_lookup_insert_eq by (by eapply lookup_lt_Some). rewrite Hc.
    split; intros [= E]; [by destruct (Hy i) | by destruct (Hx i)]. }
  split; simpl.
  - intros i p Hi. setoid_rewrite Hl. by apply H1.
  - intros d d' i. rewrite !Hl. apply H2.
  - intros d i. rewrite Hl. apply H3.
Qed.

(** The process of a CPU stops running. *)
Lemma running_ok_stop m c i p p' :
  running_ok m → m_cpus m !! c = Some (Runs i) → m_procs m !! i = Some p → p_state p' ≠ RUNNING →
  running_ok (set_cpu c Idle (set_proc i p' m)).
Proof.
  intros [H1 H2 H3] Hc Hi Hp'.
  assert (Hl : ∀ d j, <[c:=Idle]> (m_cpus m) !! d = Some (Runs j) ↔
    d ≠ c ∧ m_cpus m !! d = Some (Runs j)).
  { intros d j. rewrite (insert_Some _ _ _ _ _ _ Hc). split; [intros [[_ ?]|?]; done | by right]. }
  split; simpl.
  - intros j q Hj. setoid_rewrite Hl. destruct (decide (i = j)) as [<-|Hne].
    + rewrite list_lookup_insert_eq in Hj by (by eapply lookup_lt_Some). injection Hj as <-.
      split; [done|]. intros (d & Hd & Hr). by destruct Hd; apply (H2 d c i).
    + rewrite list_lookup_insert_ne in Hj by done. rewrite (H1 j q Hj). split; intros (d & Hd); exists d.
      * split; [|done]. intros ->. rewrite Hc in Hd. by injection Hd.
      * by apply Hd.
  - intros d d' j. rewrite !Hl. intros [_ Ha] [_ Hb]. by apply (H2 d d' j).
  - intros d j. rewrite Hl. intros [_ Ha]. rewrite list_lookup_insert_is_Some. eauto.
Qed.

(** A CPU starts to run a process that was not running. *)
Lemma running_ok_start m c i p p' :
  running_ok m → m_cpus m !! c = Some (Chosen i) → m_procs m !! i = Some p →
  p_state p ≠ RUNNING → p_state p' = RUNNING →
  running_ok (set_cpu c (Runs i) (set_proc i p' m)).
Proof.
  intros [H1 H2 H3] Hc Hi Hp Hp'.
  assert (Hno : ∀ d, m_cpus m !! d ≠ Some (Runs i)).
  { intros d Hd. apply Hp, (H1 i p Hi). by exists d. }
  assert (Hl : ∀ d j, <[c:=Runs i]> (m_cpus m) !! d = Some (Runs j) ↔
    (d = c ∧ i = j) ∨ (d ≠ c ∧ m_cpus m !! d = Some (Runs j))).
  { intros d j. rewrite (insert_Some _ _ _ _ _ _ Hc).
    split; (intros [[-> Hj]|?]; [left; split; [done | congruence] | by right]). }
  split; simpl.
  - intros j q Hj. setoid_rewrite Hl. destruct (decide (i = j)) as [<-|Hne].
    + rewrite list_lookup_insert_eq in Hj by (by eapply lookup_lt_Some). injection Hj as <-.
      split; [|done]. intros _. exists c. by left.
    + rewrite list_lookup_insert_ne in Hj by done. rewrite (H1 j q Hj). split.
      * intros (d & Hd). exists d. right. split; [|done]. intros ->. by rewrite Hc in Hd.
      * intros (d & [[_ ?]|[_ ?]]); [done | by exists d].
  - intros d d' j. rewrite !Hl. intros [[-> <-]|[_ Ha]] [[-> Hj]|[_ Hb]]; [done | | | by apply (H2 d d' j)].
    + by destruct (Hno d').
    + subst j. by destruct (Hno d).
  - intros d j. rewrite Hl, list_lookup_insert_is_Some. intros [[-> <-]|[_ Ha]]; eauto.
Qed.

Lemma run_chosen_spec pol tk p p' :
  run_chosen pol tk p = Some p' → p_state p = RUNNABLE ∧ p_state p' = RUNNING.
Proof.
  unfold run_chosen. destruct (has_state RUNNABLE p) eqn:E; [|done]. apply has_state_true in E.
  intros [= <-]. split; [done|]. unfold dispatch. destruct pol; try done. by destruct (_ =? _).
Qed.

(** One slot changes, running or not as before. *)
Lemma running_ok_slot m i p p' :
  running_ok m → m_procs m !! i = Some p → (p_state p' = RUNNING ↔ p_state p = RUNNING) →
  running_ok (set_proc i p' m).
Proof.
  intros Hok Hi Hp. apply running_ok_table; [done | apply length_insert | by apply (keeps_running_insert _ i p)].
Qed.

Lemma mstep_running_ok pol m m' : mstep pol m m' → running_ok m → running_ok m'.
Proof.
  intros Hs Hok. destruct Hs as [c i Hc | c i p Hc Hp Hr | c i p p' Hc Hp Hr | c i p Hc Hp
    | c i p chan Hc Hp | c i p status Hc Hp | c i p Hc Hp | c x cur chan Hc -> | pid | -> | |
    | i p Hp Hu | i p Hp Hu | i p Hp Hu].
  - by apply (running_ok_cpu m c Idle).
  - by apply (running_ok_cpu m c (Chosen i)).
  - destruct (run_chosen_spec _ _ _ _ Hr) as [E E'].
    apply (running_ok_start m c i p); [done | done | done | by rewrite E | done].
  - apply (running_ok_stop m c i p); [done..|]. unfold yield1. by rewrite update_niceness_state.
  - by apply (running_ok_stop m c i p).
  - by apply (running_ok_stop m c i p).
  - by apply (running_ok_slot m i p).
  - destruct (wakeup_table (match x with Runs i => Some i | _ => None end) chan (m_ticks m) (m_procs m)).
    by apply running_ok_table.
  - destruct (kill_table pid (m_procs m)). by apply running_ok_table.
  - apply running_ok_table; [done | unfold mlfq_maintain, age; by rewrite !length_map|].
    unfold mlfq_maintain, age. rewrite map_map. apply keeps_running_map.
    intros p. by rewrite maintain1_running.
  - apply running_ok_table; [done | apply length_map|]. apply keeps_running_map.
    intros p. destruct (has_state RUNNING p); done.
  - destruct Hok as [H1 H2 H3]. by split.
  - apply (running_ok_slot m i p); [done | done|]. simpl. by rewrite Hu.
  - apply (running_ok_slot m i p); [done | done|]. simpl. by rewrite Hu.
  - apply (running_ok_slot m i p); [done | done|]. simpl. by destruct Hu as [-> | ->].
Qed.

Lemma msteps_running_ok pol m m' : rtc (mstep pol) m m' → running_ok m → running_ok m'.
Proof. induction 1; eauto using mstep_running_ok. Qed.

Lemma machine_boot_ok ncpu : running_ok (machine_boot ncpu).
Proof.
  split; unfold machine_boot; cbn [m_procs m_cpus].
  - intros i p Hi. unfold procinit in Hi. rewrite list_lookup_imap in Hi.
    apply fmap_Some in Hi as (q & _ & ->). cbn.
    split; [done|]. by intros (c & [? _]%lookup_replicate).
  - by intros c c' i [? _]%lookup_replicate.
  - by intros c i [? _]%lookup_replicate.
Qed.
