(* ===== verification/SchedSpec.v ===== *)
(** * Theorems on scheduling (kernel/proc.c) *)

From stdpp Require Import base numbers list relations.
From S2P Require Import Prelude Layout ProcState Sched.
Local Open Scope Z_scope.

(** ** Which process each policy selects *)

(** FCFS selects a RUNNABLE process with the least creation time, the lowest
    slot among equals, and nothing exactly when no process is RUNNABLE. *)
Theorem fcfs_select_correct t :
  match fcfs_select t with
  | None => ∀ j p, t !! j = Some p → p_state p ≠ RUNNABLE
  | Some (i, b) =>
      t !! i = Some b ∧ p_state b = RUNNABLE ∧
      ∀ j p, t !! j = Some p → p_state p = RUNNABLE →
        p_createTime b ≤ p_createTime p ∧ ((j < i)%nat → p_createTime b < p_createTime p)
  end.
Proof.
  pose proof (scan_best runnable fcfs_better t) as H. unfold fcfs_select.
  destruct (scan_loop _ _ _ _ _) as [[i b]|]; simpl in H.
  - destruct H as (Hi & Hb & H). split; [done|]. split; [by apply has_state_true|].
    intros j p Hj Hp. destruct (H j p Hj) as [H1 H2]; [by apply has_state_true|].
    unfold fcfs_better in *. split; [by apply Z.ltb_ge|]. intros Hji. by apply Z.ltb_lt, H2.
  - intros j p Hj. apply has_state_false. by apply (H j).
Qed.

(** C27. PBS selects a RUNNABLE process that is least in dynamic priority, then in
    the number of times scheduled, then in creation time. *)
Theorem pbs_select_correct t :
  match pbs_select t with
  | None => ∀ j p, t !! j = Some p → p_state p ≠ RUNNABLE
  | Some (i, b) =>
      t !! i = Some b ∧ p_state b = RUNNABLE ∧
      ∀ j p, t !! j = Some p → p_state p = RUNNABLE →
        getDP b < getDP p ∨
        (getDP b = getDP p ∧ p_timesScheduled b < p_timesScheduled p) ∨
        (getDP b = getDP p ∧ p_timesScheduled b = p_timesScheduled p ∧ p_createTime b ≤ p_createTime p)
  end.
Proof.
  pose proof (scan_best runnable pbs_better t) as H. unfold pbs_select.
  destruct (scan_loop _ _ _ _ _) as [[i b]|]; simpl in H.
  - destruct H as (Hi & Hb & H). split; [done|]. split; [by apply has_state_true|].
    intros j p Hj Hp. destruct (H j p Hj) as [H1 _]; [by apply has_state_true|].
    unfold pbs_better in H1. cbv zeta in H1.
    destruct (Z.ltb_spec (getDP p) (getDP b)); [done|].
    destruct (Z.eqb_spec (getDP p) (getDP b)); [|lia].
    destruct (Z.ltb_spec (p_timesScheduled p) (p_timesScheduled b)); [done|].
    destruct (Z.eqb_spec (p_timesScheduled p) (p_timesScheduled b)); [|lia].
    apply Z.ltb_ge in H1. lia.
  - intros j p Hj. apply has_state_false. by apply (H j).
Qed.

(** What one queue gives. *)
Lemma queue_select_spec q t :
  match queue_select q t with
  | None => ∀ j p, t !! j = Some p → p_state p = RUNNABLE → p_queue p ≠ q
  | Some (i, b) =>
      t !! i = Some b ∧ p_state b = RUNNABLE ∧ p_queue b = q ∧
      ∀ j p, t !! j = Some p → p_state p = RUNNABLE → p_queue p = q →
        p_entryTime b ≤ p_entryTime p ∧ ((j < i)%nat → p_entryTime b < p_entryTime p)
  end.
Proof.
  pose proof (scan_best (λ p, runnable p && (p_queue p =? q)) mlfq_better t) as H. unfold queue_select.
  assert (He : ∀ p, runnable p && (p_queue p =? q) = true ↔ p_state p = RUNNABLE ∧ p_queue p = q).
  { intros p. unfold runnable. by rewrite andb_true_iff, Z.eqb_eq, has_state_true. }
  destruct (scan_loop _ _ _ _ _) as [[i b]|]; simpl in H.
  - destruct H as (Hi & Hb & H). apply He in Hb as [Hs Hq]. split; [done|]. split; [done|]. split; [done|].
    intros j p Hj Hp Hpq. destruct (H j p Hj) as [H1 H2]; [by apply He|].
    unfold mlfq_better in *. rewrite Hq, Hpq, Z.ltb_irrefl, Z.eqb_refl in *.
    split; [by apply Z.ltb_ge|]. intros Hji. by apply Z.ltb_lt, H2.
  - intros j p Hj Hp Hpq. specialize (H j p Hj). simpl in H.
    by rewrite (proj2 (He p)) in H.
Qed.

(** C25. MLFQ selects, among the RUNNABLE processes of queues 0 to 3, one of the
    lowest non-empty queue, and in it the one that entered first (the lowest slot
    among equals); it selects nothing, and so falls back to round robin over
    queue 4, exactly when these four queues have no RUNNABLE process. *)
Theorem mlfq_select_correct t :
  match mlfq_select t with
  | None => ∀ j p, t !! j = Some p → p_state p = RUNNABLE → ¬ 0 ≤ p_queue p ≤ 3
  | Some (i, b) =>
      t !! i = Some b ∧ p_state b = RUNNABLE ∧ 0 ≤ p_queue b ≤ 3 ∧
      ∀ j p, t !! j = Some p → p_state p = RUNNABLE → 0 ≤ p_queue p →
        p_queue b < p_queue p ∨
        (p_queue b = p_queue p ∧ p_entryTime b ≤ p_entryTime p ∧
         ((j < i)%nat → p_entryTime b < p_entryTime p))
  end.
Proof.
  unfold mlfq_select.
  pose proof (queue_select_spec 0 t) as H0. pose proof (queue_select_spec 1 t) as H1.
  pose proof (queue_select_spec 2 t) as H2. pose proof (queue_select_spec 3 t) as H3.
  assert (Hsome : ∀ q i b, 0 ≤ q ≤ 3 →
    (∀ q' j p, 0 ≤ q' < q → t !! j = Some p → p_state p = RUNNABLE → p_queue p ≠ q') →
    t !! i = Some b ∧ p_state b = RUNNABLE ∧ p_queue b = q ∧
      (∀ j p, t !! j = Some p → p_state p = RUNNABLE → p_queue p = q →
        p_entryTime b ≤ p_entryTime p ∧ ((j < i)%nat → p_entryTime b < p_entryTime p)) →
    t !! i = Some b ∧ p_state b = RUNNABLE ∧ 0 ≤ p_queue b ≤ 3 ∧
      ∀ j p, t !! j = Some p → p_state p = RUNNABLE → 0 ≤ p_queue p →
        p_queue b < p_queue p ∨
        (p_queue b = p_queue p ∧ p_entryTime b ≤ p_entryTime p ∧
         ((j < i)%nat → p_entryTime b < p_entryTime p))).
  { intros q i b Hq Hlow (Hi & Hs & Hbq & Hmin). split; [done|]. split; [done|]. split; [lia|].
    intros j p Hj Hp Hp0. destruct (Z.lt_trichotomy q (p_queue p)) as [|[E|Hlt]]; [left; lia | |].
    - right. split; [lia|]. by apply Hmin.
    - by destruct (Hlow (p_queue p) j p ltac:(lia) Hj Hp). }
  destruct (queue_select 0 t) as [[i b]|].
  { apply (Hsome 0); [lia | intros; lia | done]. }
  destruct (queue_select 1 t) as [[i b]|].
  { apply (Hsome 1); [lia | | done]. intros q' j p Hq'. replace q' with 0 by lia. by apply H0. }
  destruct (queue_select 2 t) as [[i b]|].
  { apply (Hsome 2); [lia | | done]. intros q' j p Hq' Hj Hp. specialize (H0 j p Hj Hp). specialize (H1 j p Hj Hp). lia. }
  destruct (queue_select 3 t) as [[i b]|].
  { apply (Hsome 3); [lia | | done]. intros q' j p Hq' Hj Hp.
    specialize (H0 j p Hj Hp). specialize (H1 j p Hj Hp). specialize (H2 j p Hj Hp). lia. }
  intros j p Hj Hp. specialize (H0 j p Hj Hp). specialize (H1 j p Hj Hp).
  specialize (H2 j p Hj Hp). specialize (H3 j p Hj Hp). lia.
Qed.

(** ** The lottery *)

(** C26. With at least one ticket per RUNNABLE process and a sum that fits an
    [int], every value of [rand() % totalTickets] has a winner, and a RUNNABLE
    process wins for exactly as many of the [totalTickets] values as it has
    tickets: those of one interval of that length. *)
Theorem lbs_tickets_proportional t i p :
  tickets_ok t → t !! i = Some p → p_state p = RUNNABLE →
  0 < total_tickets t 0 ∧
  (∀ r, 0 ≤ r < total_tickets t 0 → is_Some (lbs_loop 0 t r)) ∧
  ∃ a, 0 ≤ a ∧ a + p_tickets p ≤ total_tickets t 0 ∧
    ∀ r, 0 ≤ r < total_tickets t 0 → lbs_loop 0 t r = Some i ↔ a ≤ r < a + p_tickets p.
Proof.
  intros Hok Hi Hs%has_state_true. pose proof Hok as [Hf Hsum].
  rewrite total_tickets_sum by (done || lia). rewrite Z.add_0_l.
  pose proof (tickets_below_le t i p Hf Hi Hs). pose proof (tickets_below_nonneg t i Hf).
  pose proof (proj1 (Forall_lookup _ _) Hf i p Hi Hs).
  split; [lia|]. split; [intros r Hr; by apply lbs_loop_total|].
  exists (tickets_below t i). split; [done|]. split; [lia|]. intros r Hr.
  apply (lbs_loop_wins t 0 i p); done || lia.
Qed.

Lemma rand_bound next : 0 ≤ fst (rand next) < 32768.
Proof. unfold rand. simpl. by apply Z.mod_pos_bound. Qed.

(** [rand] gives 15 bits: when the RUNNABLE processes in the slots before [i]
    hold 32768 tickets or more, the process of slot [i] is never drawn, whatever
    the seed, so the lottery starves it. *)
Theorem lbs_starves_beyond_rand t i p next :
  tickets_ok t → t !! i = Some p → p_state p = RUNNABLE → 32768 ≤ tickets_below t i →
  fst (lbs_select next t) ≠ Some (Some i).
Proof.
  intros Hok Hi Hs%has_state_true Hb. pose proof Hok as [Hf Hsum]. unfold lbs_select.
  pose proof (rand_bound next) as Hr. destruct (rand next) as [r next']. simpl in Hr |- *.
  pose proof (tickets_below_le t i p Hf Hi Hs).
  pose proof (proj1 (Forall_lookup _ _) Hf i p Hi Hs).
  rewrite total_tickets_sum by (done || lia). rewrite Z.add_0_l.
  unfold lbs_draw. rewrite (proj2 (Z.eqb_neq _ _)) by lia.
  rewrite Z.rem_small by lia. simpl. intros [= Hw].
  apply (lbs_loop_wins t 0 i p r) in Hw; done || lia.
Qed.

Lemma total_tickets_none t acc :
  (∀ j p, t !! j = Some p → p_state p ≠ RUNNABLE) → total_tickets t acc = acc.
Proof.
  revert acc. induction t as [|p t IH]; intros acc H; [done|]. simpl.
  unfold runnable at 1. rewrite (proj2 (has_state_false RUNNABLE p) (H 0%nat p eq_refl)).
  apply IH. intros j q Hj. by apply (H (S j)).
Qed.

(** Whenever no process is RUNNABLE, the lottery computes a remainder by
    zero. *)
Theorem lbs_idle_divides_by_zero t next :
  (∀ j p, t !! j = Some p → p_state p ≠ RUNNABLE) → fst (lbs_select next t) = None.
Proof.
  intros H. unfold lbs_select. rewrite total_tickets_none by done. by destruct (rand next).
Qed.

(** ** MLFQ over time *)

(** C24. No starvation by waiting in MLFQ: a RUNNABLE process that is never run
    is in queue 0 after at most 116 ticks of queue maintenance, from any queue
    and whatever time slice it had used. *)
Theorem mlfq_no_starvation n tk p :
  p_state p = RUNNABLE → 0 ≤ p_queue p ≤ 4 → 0 ≤ p_timeRanInQueue p → 0 ≤ p_entryTime p →
  p_entryTime p + p_timeRanInQueue p ≤ tk → tk + Z.of_nat n < 2 ^ 31 → 116 ≤ Z.of_nat n →
  p_queue (waits n tk p) = 0.
Proof. intros. apply waits_queue0; unfold times_ok, qre; simpl; done || lia. Qed.

(** The run time charged by [yield] is the time since the dispatch, except
    for MLFQ processes of queue 4: their round-robin loop does not record the
    dispatch, so they are charged from an older one. *)
Theorem yield_charges pol t1 t2 p :
  0 ≤ t1 < 2 ^ 31 →
  p_timeRun (yield1 t2 (dispatch pol t1 p)) =
  i32 (p_timeRun p + (t2 - if bool_decide (pol = MLFQ) && (p_queue p =? 4) then p_lastScheduled p else t1)).
Proof.
  intros Ht. assert (Hn : ∀ q, p_timeRun (update_niceness q) = p_timeRun q).
  { intros q. unfold update_niceness. by destruct (nonzero _). }
  unfold yield1. rewrite Hn. unfold dispatch, dispatch1, pbs_dispatch1.
  destruct pol; simpl; rewrite ?(i32_small t1) by lia; try done.
  destruct (p_queue p =? 4); simpl; rewrite ?(i32_small t1) by lia; done.
Qed.

(** ** All CPUs together *)

(** C10. In every state the machine reaches from [procinit] under any of the five
    policies, with the steps of any number of CPUs interleaved, no process runs
    on two CPUs, and a process is RUNNING exactly while a CPU runs it. *)
Theorem runs_on_one_cpu pol ncpu m :
  rtc (mstep pol) (machine_boot ncpu) m →
  (∀ c c' i, m_cpus m !! c = Some (Runs i) → m_cpus m !! c' = Some (Runs i) → c = c') ∧
  ∀ i p, m_procs m !! i = Some p → p_state p = RUNNING ↔ ∃ c, m_cpus m !! c = Some (Runs i).
Proof.
  intros Hr. destruct (msteps_running_ok pol _ _ Hr (machine_boot_ok ncpu)) as [H1 H2 _]. done.
Qed.

(** Queue numbers of a table. *)
Definition queues_ok (t : list proc) : Prop := Forall (λ p, 0 ≤ p_queue p ≤ 4) t.

Lemma queues_ok_insert t i p : queues_ok t → 0 ≤ p_queue p ≤ 4 → queues_ok (<[i := p]> t).
Proof. intros Ht Hp. by apply Forall_insert. Qed.

Lemma update_niceness_queue p : p_queue (update_niceness p) = p_queue p.
Proof. unfold update_niceness. by destruct (nonzero _). Qed.

Lemma kill_queues pid t : queues_ok t → queues_ok (kill pid t).2.
Proof.
  induction 1 as [|p t Hp Ht IH]; simpl; [apply Forall_nil_2|].
  destruct (p_pid p =? pid); simpl.
  - apply Forall_cons. split; [|done]. unfold kill1. by destruct (has_state _ _).
  - destruct (kill pid t) as [r t'']. simpl in *. by apply Forall_cons.
Qed.

Lemma wakeup_queues cur chan tk t : queues_ok t → queues_ok (wakeup cur chan tk t).
Proof.
  intros Ht. apply Forall_lookup. intros i q Hi. unfold wakeup in Hi. rewrite list_lookup_imap in Hi.
  apply fmap_Some in Hi as (p & Hp & ->). pose proof (proj1 (Forall_lookup _ _) Ht i p Hp).
  destruct (bool_decide _); [done|]. unfold wakeup1. destruct (_ && _); [|done]. simpl.
  by rewrite update_niceness_queue.
Qed.

Lemma maintain_queues tk t : queues_ok t → queues_ok (mlfq_maintain tk t).
Proof.
  intros Ht. unfold mlfq_maintain, age. rewrite map_map. apply Forall_fmap.
  eapply Forall_impl; [exact Ht|]. intros p Hp. simpl in *.
  assert (Hd : 0 ≤ p_queue (demote1 tk p) ≤ 4).
  { unfold demote1. destruct (_ || _); [|done]. destruct (_ <=? _); [|done].
    destruct (Z.ltb_spec (p_queue p) 4); simpl; lia. }
  revert Hd. generalize (demote1 tk p). intros d Hd.
  unfold age1. destruct (_ || _); [|done]. destruct (nonzero _) eqn:E; [|done].
  apply nonzero_true in E. destruct (_ <=? _); simpl; lia.
Qed.

Lemma dispatch_queue pol tk p : p_queue (dispatch pol tk p) = p_queue p.
Proof. unfold dispatch. destruct pol; try done. by destruct (_ =? _). Qed.

Lemma mstep_queues pol m m' : mstep pol m m' → queues_ok (m_procs m) → queues_ok (m_procs m').
Proof.
  intros Hs Hok.
  assert (Hq : ∀ i p, m_procs m !! i = Some p → 0 ≤ p_queue p ≤ 4)
    by (intros i p; apply (proj1 (Forall_lookup _ _) Hok)).
  assert (Hset : ∀ i p p', m_procs m !! i = Some p → p_queue p' = p_queue p →
    queues_ok (<[i := p']> (m_procs m))).
  { intros i p p' Hi E. apply queues_ok_insert; [done|]. rewrite E. eauto. }
  destruct Hs as [c i Hc | c i p Hc Hp Hr | c i p p' Hc Hp Hr | c i p Hc Hp
    | c i p chan Hc Hp | c i p status Hc Hp | c i p Hc Hp | c x cur chan Hc _ | pid | -> | |
    | i p Hp Hu | i p Hp Hu | i p Hp Hu]; simpl; try done; try (by apply (Hset i p)).
  - apply (Hset i p); [done|]. unfold run_chosen in Hr. destruct (has_state _ _); [|done].
    injection Hr as <-. apply dispatch_queue.
  - apply (Hset i p); [done|]. unfold yield1. by rewrite update_niceness_queue.
  - by apply wakeup_queues.
  - by apply kill_queues.
  - by apply maintain_queues.
  - unfold update_time. apply Forall_fmap. eapply Forall_impl; [exact Hok|].
    intros p Hp. simpl in *. by destruct (has_state _ _).
Qed.

(** Under every policy and interleaving all queue numbers stay between 0 and
    4, so every RUNNABLE process of MLFQ is in a queue some loop looks at. *)
Theorem queues_in_range pol ncpu m :
  rtc (mstep pol) (machine_boot ncpu) m → Forall (λ p, 0 ≤ p_queue p ≤ 4) (m_procs m).
Proof.
  intros Hr. assert (H0 : queues_ok (m_procs (machine_boot ncpu))).
  { apply Forall_lookup. intros i p Hi. unfold machine_boot, procinit in Hi. cbn [m_procs] in Hi.
    rewrite list_lookup_imap in Hi. apply fmap_Some in Hi as (q & [-> _]%lookup_replicate & ->).
    cbn. lia. }
  revert H0. induction Hr; eauto using mstep_queues.
Qed.

(** [wakeup] makes RUNNABLE exactly the processes that sleep on the channel,
    the caller excepted, and charges them the time they slept; every other slot
    is unchanged, so no sleeper on the channel is missed and none on another one
    is woken. *)
Theorem wakeup_exact cur chan tk t i p :
  t !! i = Some p →
  ∃ p', wakeup cur chan tk t !! i = Some p' ∧
    if decide (cur ≠ Some i ∧ p_state p = SLEEPING ∧ p_chan p = chan)
    then p_state p' = RUNNABLE ∧ p_lastSlept p' = -1 ∧
      p_timeSlept p' = i32 (p_timeSlept p + (tk - p_lastSlept p))
    else p' = p.
Proof.
  intros Hi. eexists. split; [unfold wakeup; rewrite list_lookup_imap, Hi; reflexivity|].
  assert (Hn : ∀ q, p_state (update_niceness q) = p_state q ∧ p_timeSlept (update_niceness q) = p_timeSlept q).
  { intros q. unfold update_niceness. by destruct (nonzero _). }
  destruct (decide _) as [(Hc & Hs & Hch)|Hno].
  - rewrite bool_decide_eq_false_2 by done. unfold wakeup1.
    rewrite (proj2 (has_state_true _ _) Hs), bool_decide_eq_true_2 by done. simpl.
    destruct (Hn (set_timeSlept (i32 (p_timeSlept p + (tk - p_lastSlept p))) (set_state RUNNABLE p))) as [-> ->].
    done.
  - destruct (bool_decide (cur = Some i)) eqn:E; [done|]. apply bool_decide_eq_false in E.
    unfold wakeup1. destruct (has_state SLEEPING p) eqn:Es; [|done]. apply has_state_true in Es.
    destruct (bool_decide (p_chan p = chan)) eqn:Ec; [|done]. apply bool_decide_eq_true in Ec.
    by destruct Hno.
Qed.

(** Dynamic priorities stay between 0 and 100, and niceness, once computed
    from non-negative times, between 0 and 10. *)
Theorem priority_bounds p :
  0 ≤ p_timeSlept p < 2 ^ 27 → 0 ≤ p_timeRun p < 2 ^ 27 → 0 ≤ p_niceness p ≤ 10 →
  0 ≤ getDP p ≤ 100 ∧ 0 ≤ p_niceness (update_niceness p) ≤ 10.
Proof.
  intros Hs Hr Hn. split.
  - unfold getDP. destruct (Z.ltb_spec 100 (i32 (p_priority p - p_niceness p + 5))); [done|].
    destruct (Z.ltb_spec (i32 (p_priority p - p_niceness p + 5)) 0); lia.
  - unfold update_niceness. rewrite (i32_small (p_timeSlept p + p_timeRun p)) by lia.
    destruct (nonzero _) eqn:E; [|done]. apply nonzero_true in E. simpl.
    rewrite (i32_small (10 * p_timeSlept p)) by lia. rewrite Z.quot_div_nonneg by lia.
    assert (0 ≤ 10 * p_timeSlept p / (p_timeSlept p + p_timeRun p) ≤ 10)
      by (split; [apply Z.div_pos; lia | apply Z.div_le_upper_bound; lia]).
    rewrite i32_small by lia. done.
Qed.

(** ** Instances *)

(** A table of three processes: two can run, with 2 and 3 tickets. *)
Definition demo_proc (st : procstate) (pid tickets : Z) : proc :=
  set_tickets tickets (set_pid pid (set_state st proc_zero)).
Definition demo_table : list proc :=
  [demo_proc RUNNABLE 1 2; set_chan ChanTicks (demo_proc SLEEPING 2 7); demo_proc RUNNABLE 3 3].

Lemma demo_tickets_ok : tickets_ok demo_table.
Proof. split; [|reflexivity]. unfold demo_table. rewrite !Forall_cons, Forall_nil. done. Qed.

Lemma lbs_tickets_proportional_witness :
  0 < total_tickets demo_table 0 ∧ is_Some (lbs_loop 0 demo_table 4).
Proof.
  destruct (lbs_tickets_proportional demo_table 2 (demo_proc RUNNABLE 3 3) demo_tickets_ok
    ltac:(reflexivity) ltac:(reflexivity)) as (H1 & H2 & _).
  split; [exact H1|]. apply H2. vm_compute. split; [discriminate | reflexivity].
Defined.

Definition rich_table : list proc := [demo_proc RUNNABLE 1 40000; demo_proc RUNNABLE 2 1].

Lemma lbs_starves_beyond_rand_witness : fst (lbs_select 1 rich_table) ≠ Some (Some 1%nat).
Proof.
  apply (lbs_starves_beyond_rand rich_table 1 (demo_proc RUNNABLE 2 1)).
  - split; [|reflexivity]. unfold rich_table. rewrite !Forall_cons, Forall_nil. done.
  - reflexivity.
  - reflexivity.
  - vm_compute. discriminate.
Defined.

Lemma lbs_idle_divides_by_zero_witness : fst (lbs_select 1 [demo_proc SLEEPING 1 5]) = None.
Proof.
  apply lbs_idle_divides_by_zero. intros [|j] p Hj; [|discriminate Hj].
  injection Hj as <-. discriminate.
Defined.

Definition low_proc : proc :=
  set_timeRanInQueue 3 (set_entryTime 10 (set_queue 4 (demo_proc RUNNABLE 5 1))).

Lemma mlfq_no_starvation_witness : p_queue (waits 116 20 low_proc) = 0.
Proof. apply mlfq_no_starvation; vm_compute; done || (split; discriminate) || discriminate. Defined.

Lemma yield_charges_witness : p_timeRun (yield1 107 (dispatch RR 100 low_proc)) = 7.
Proof. rewrite (yield_charges RR 100 107 low_proc); [vm_compute; reflexivity | lia]. Defined.

(** Two CPUs after [procinit]; slot 3 is allocated, made runnable and run. *)
Definition wm0 : machine := machine_boot 2.
Definition wp0 : proc := set_kstack (KSTACK 3) (set_state UNUSED proc_zero).
Definition wm1 : machine := set_proc 3 (set_state USED wp0) wm0.
Definition wm2 : machine := set_proc 3 (set_state RUNNABLE (set_state USED wp0)) wm1.
Definition wm3 : machine := set_cpu 1 (Chosen 3) wm2.
Definition wm4 : machine :=
  set_cpu 1 (Runs 3) (set_proc 3 (dispatch FCFS 0 (set_state RUNNABLE (set_state USED wp0))) wm3).

Lemma wm4_reachable : rtc (mstep FCFS) (machine_boot 2) wm4.
Proof.
  apply rtc_l with wm1; [by apply (ms_alloc FCFS wm0 3 wp0)|].
  apply rtc_l with wm2; [by apply (ms_ready FCFS wm1 3 (set_state USED wp0))|].
  apply rtc_l with wm3; [by apply (ms_choose FCFS wm2 1 3)|].
  apply rtc_once. by apply (ms_dispatch FCFS wm3 1 3 (set_state RUNNABLE (set_state USED wp0))).
Qed.

Lemma runs_on_one_cpu_witness : ∃ c, m_cpus wm4 !! c = Some (Runs 3).
Proof.
  destruct (runs_on_one_cpu FCFS 2 wm4 wm4_reachable) as [_ H].
  apply (H 3%nat (dispatch FCFS 0 (set_state RUNNABLE (set_state USED wp0)))); reflexivity.
Defined.

Lemma queues_in_range_witness : Forall (λ p, 0 ≤ p_queue p ≤ 4) (m_procs wm4).
Proof. exact (queues_in_range FCFS 2 wm4 wm4_reachable). Defined.

Lemma wakeup_exact_witness :
  ∃ p', wakeup (Some 0%nat) ChanTicks 9 demo_table !! 1%nat = Some p' ∧ p_state p' = RUNNABLE.
Proof.
  destruct (wakeup_exact (Some 0%nat) ChanTicks 9 demo_table 1
    (set_chan ChanTicks (demo_proc SLEEPING 2 7)) ltac:(reflexivity)) as (p' & E & H).
  exists p'. split; [exact E|].
  destruct (decide _) as [_|Hn]; [apply H | by destruct Hn].
Defined.

Lemma priority_bounds_witness : 0 ≤ getDP low_proc ≤ 100.
Proof.
  apply (priority_bounds low_proc); split; vm_compute; done || discriminate.
Defined.
