(* ===== verification/Lock.v ===== *)
(** * Spin locks (kernel/spinlock.c)

    The instructions of [acquire] and [release] on several CPUs.  The atomic swap
    is one step, and so is every store to a lock's [cpu] field; the CPUs take
    their steps in any order.  [sstatus.SIE], the interrupt enable bit of a CPU,
    is the field [sie]. *)

From stdpp Require Import base numbers list strings relations.
From S2P Require Import Prelude.
Local Open Scope Z_scope.

Record spinlock : Type := SpinLock { locked : Z; lk_cpu : option nat }.
Record cpu : Type := Cpu { noff : Z; intena : bool; sie : bool }.
Record lkstate : Type := LkState { locks : list spinlock; cpus : list cpu }.

Definition lock0 : spinlock := SpinLock 0 None.
Definition cpu0 : cpu := Cpu 0 false false.
Definition lock_at (s : lkstate) (l : nat) : spinlock := default lock0 (locks s !! l).
Definition cpu_at (s : lkstate) (c : nat) : cpu := default cpu0 (cpus s !! c).
Definition set_lock_at (l : nat) (v : spinlock) (s : lkstate) : lkstate := LkState (<[l := v]> (locks s)) (cpus s).
Definition set_cpu_at (c : nat) (v : cpu) (s : lkstate) : lkstate := LkState (locks s) (<[c := v]> (cpus s)).

(** riscv.h. *)
Definition intr_get (c : nat) : M lkstate bool := gets (λ s, sie (cpu_at s c)).
Definition intr_set (b : bool) (c : nat) : M lkstate unit :=
  k ← gets (λ s, cpu_at s c); modify (set_cpu_at c (Cpu (noff k) (intena k) b)).

Definition initlock (l : nat) : M lkstate unit := modify (set_lock_at l (SpinLock 0 None)).

Definition push_off (c : nat) : M lkstate unit :=
  old ← intr_get c;
  intr_set false c;;
  k ← gets (λ s, cpu_at s c);
  let intena' := if noff k =? 0 then old else intena k in
  modify (set_cpu_at c (Cpu (noff k + 1) intena' (sie k))).

Definition pop_off (c : nat) : M lkstate unit :=
  on ← intr_get c;
  if on : bool then panic "pop_off - interruptible"
  else
    k ← gets (λ s, cpu_at s c);
    if noff k <? 1 then panic "pop_off"
    else
      modify (set_cpu_at c (Cpu (noff k - 1) (intena k) (sie k)));;
      k ← gets (λ s, cpu_at s c);
      when ((noff k =? 0) && intena k) (intr_set true c).

Definition holding (c l : nat) : M lkstate bool :=
  k ← gets (λ s, lock_at s l); mret (nonzero (locked k) && bool_decide (lk_cpu k = Some c)).

(** [acquire] up to its loop. *)
Definition acquire_enter (c l : nat) : M lkstate unit :=
  push_off c;; h ← holding c l; if h : bool then panic "acquire" else mret tt.

(** [__sync_lock_test_and_set(&lk->locked, 1)]: the old value. *)
Definition test_and_set (l : nat) : M lkstate Z :=
  k ← gets (λ s, lock_at s l); modify (set_lock_at l (SpinLock 1 (lk_cpu k)));; mret (locked k).

Definition set_owner (o : option nat) (l : nat) : M lkstate unit :=
  k ← gets (λ s, lock_at s l); modify (set_lock_at l (SpinLock (locked k) o)).

Fixpoint spin (fuel : nat) (l : nat) : M lkstate unit :=
  old ← test_and_set l;
  if nonzero old then match fuel with O => diverge | S f => spin f l end else mret tt.

(** [acquire] when nobody else runs: it spins forever on a lock that is taken. *)
Definition acquire (fuel : nat) (c l : nat) : M lkstate unit :=
  acquire_enter c l;; spin fuel l;; set_owner (Some c) l.

(** [release] up to the store of [lk->cpu], and the store of [lk->locked]. *)
Definition release_enter (c l : nat) : M lkstate unit :=
  h ← holding c l; if negb h then panic "release" else set_owner None l.

Definition lock_release (l : nat) : M lkstate unit :=
  k ← gets (λ s, lock_at s l); modify (set_lock_at l (SpinLock 0 (lk_cpu k))).

Definition release (c l : nat) : M lkstate unit := release_enter c l;; lock_release l;; pop_off c.

(** ** All CPUs together *)

(** Where a CPU is: outside the lock code, or inside it with lock [l]. *)
Inductive lpc : Type :=
| Run
| Spin (l : nat)     (* acquire: at the swap *)
| Won (l : nat)      (* the swap returned 0 *)
| Left (l : nat)     (* release: lk->cpu cleared *)
| Freed (l : nat).   (* lk->locked cleared, pop_off to do *)

Definition config : Type := lkstate * (nat → lpc).
Definition goes (c : nat) (p : lpc) (pcs : nat → lpc) : nat → lpc := λ c', if decide (c' = c) then p else pcs c'.

Inductive lkstep : config → config → Prop :=
| k_enter s s' pcs c l :
    pcs c = Run → (c < length (cpus s))%nat → (l < length (locks s))%nat →
    acquire_enter c l s = Ret (tt, s') → lkstep (s, pcs) (s', goes c (Spin l) pcs)
| k_swap s s' pcs c l old :
    pcs c = Spin l → test_and_set l s = Ret (old, s') →
    lkstep (s, pcs) (s', goes c (if nonzero old then Spin l else Won l) pcs)
| k_own s s' pcs c l :
    pcs c = Won l → set_owner (Some c) l s = Ret (tt, s') → lkstep (s, pcs) (s', goes c Run pcs)
| k_leave s s' pcs c l :
    pcs c = Run → (c < length (cpus s))%nat → (l < length (locks s))%nat →
    release_enter c l s = Ret (tt, s') → lkstep (s, pcs) (s', goes c (Left l) pcs)
| k_free s s' pcs c l :
    pcs c = Left l → lock_release l s = Ret (tt, s') → lkstep (s, pcs) (s', goes c (Freed l) pcs)
| k_pop s s' pcs c l :
    pcs c = Freed l → pop_off c s = Ret (tt, s') → lkstep (s, pcs) (s', goes c Run pcs)
(** Code that holds no lock may enable and disable interrupts. *)
| k_intr s s' pcs c b :
    pcs c = Run → noff (cpu_at s c) = 0 → intr_set b c s = Ret (tt, s') → lkstep (s, pcs) (s', pcs).

(** CPU [c] has lock [l], from the successful swap to the store that frees it. *)
Definition owns (st : config) (c l : nat) : Prop :=
  lk_cpu (lock_at st.1 l) = Some c ∨ st.2 c = Won l ∨ st.2 c = Left l.

(** The locks recorded as held by [c]. *)
Definition held_by (s : lkstate) (c : nat) : Z :=
  Z.of_nat (length (filter (λ k, lk_cpu k = Some c) (locks s))).

(** Inside the lock code a CPU counts one more. *)
Definition busy (p : lpc) : Z := match p with Run => 0 | _ => 1 end.
