(* ===== verification/LockSpec.v ===== *)
(** * Theorems on spin locks (kernel/spinlock.c) *)

From stdpp Require Import base numbers list strings relations.
From S2P Require Import Prelude Lock.
Local Open Scope Z_scope.

(** ** Effects of the steps *)

Lemma cpu_at_set s c k c' :
  (c < length (cpus s))%nat → cpu_at (set_cpu_at c k s) c' = if decide (c' = c) then k else cpu_at s c'.
Proof.
  intros Hc. unfold cpu_at, set_cpu_at. simpl. destruct (decide (c' = c)) as [->|Hne].
  - by rewrite list_lookup_insert_eq.
  - by rewrite list_lookup_insert_ne.
Qed.

Lemma lock_at_set s l k l' :
  (l < length (locks s))%nat → lock_at (set_lock_at l k s) l' = if decide (l' = l) then k else lock_at s l'.
Proof.
  intros Hc. unfold lock_at, set_lock_at. simpl. destruct (decide (l' = l)) as [->|Hne].
  - by rewrite list_lookup_insert_eq.
  - by rewrite list_lookup_insert_ne.
Qed.

Lemma set_cpu_twice s c k k' : set_cpu_at c k' (set_cpu_at c k s) = set_cpu_at c k' s.
Proof. unfold set_cpu_at. simpl. by rewrite list_insert_insert_eq. Qed.

Lemma push_off_eq s c :
  (c < length (cpus s))%nat →
  push_off c s = Ret (tt, set_cpu_at c (Cpu (noff (cpu_at s c) + 1)
    (if noff (cpu_at s c) =? 0 then sie (cpu_at s c) else intena (cpu_at s c)) false) s).
Proof.
  intros Hc. unfold push_off, intr_get, intr_set, mbind, M_bind, gets, modify.
  rewrite cpu_at_set, decide_True by done. simpl. by rewrite set_cpu_twice.
Qed.

Lemma pop_off_eq s c :
  (c < length (cpus s))%nat → sie (cpu_at s c) = false → 1 ≤ noff (cpu_at s c) →
  pop_off c s = Ret (tt, set_cpu_at c (Cpu (noff (cpu_at s c) - 1) (intena (cpu_at s c))
    ((noff (cpu_at s c) =? 1) && intena (cpu_at s c))) s).
Proof.
  intros Hc Hs Hn. unfold pop_off, intr_get, intr_set, when, mbind, M_bind, gets, modify.
  rewrite Hs. rewrite (proj2 (Z.ltb_ge (noff (cpu_at s c)) 1)) by lia.
  rewrite cpu_at_set, decide_True by done. simpl.
  replace (noff (cpu_at s c) - 1 =? 0) with (noff (cpu_at s c) =? 1) by lia.
  destruct ((noff (cpu_at s c) =? 1) && intena (cpu_at s c)); [|by rewrite Hs].
  rewrite cpu_at_set, decide_True by done. by rewrite set_cpu_twice.
Qed.

(** ** Counting held locks *)

Definition one (b : bool) : Z := if b then 1 else 0.

Lemma held_by_set s c l k :
  (l < length (locks s))%nat →
  held_by (set_lock_at l k s) c =
  held_by s c - one (bool_decide (lk_cpu (lock_at s l) = Some c)) + one (bool_decide (lk_cpu k = Some c)).
Proof.
  intros Hl. destruct (lookup_lt_is_Some_2 _ _ Hl) as [k0 Hk]. unfold held_by, lock_at, set_lock_at. simpl.
  rewrite Hk. simpl. rewrite insert_take_drop by done. rewrite <- (take_drop_middle _ _ _ Hk) at 3.
  rewrite !filter_app, !filter_cons, !length_app.
  rewrite !bool_decide_decide. unfold one.
  destruct (decide (lk_cpu k = Some c)), (decide (lk_cpu k0 = Some c)); simpl; lia.
Qed.

Lemma held_by_pos s c l :
  (l < length (locks s))%nat → lk_cpu (lock_at s l) = Some c → 1 ≤ held_by s c.
Proof.
  intros Hl Hc. destruct (lookup_lt_is_Some_2 _ _ Hl) as [k Hk]. unfold lock_at in Hc. rewrite Hk in Hc. simpl in Hc.
  unfold held_by. rewrite <- (take_drop_middle _ _ _ Hk), filter_app, filter_cons, decide_True by done.
  rewrite length_app. simpl. lia.
Qed.

(** ** The invariant *)

Record lkinv (st : config) : Prop := LkInv {
  li_one : ∀ c c' l, owns st c l → owns st c' l → c = c';
  li_locked : ∀ c l, owns st c l → locked (lock_at st.1 l) ≠ 0;
  li_owned : ∀ l, locked (lock_at st.1 l) ≠ 0 → ∃ c, owns st c l;
  li_fresh : ∀ c l, st.2 c = Won l ∨ st.2 c = Left l → lk_cpu (lock_at st.1 l) = None;
  li_noff : ∀ c, noff (cpu_at st.1 c) = held_by st.1 c + busy (st.2 c);
  li_sie : ∀ c, 0 < noff (cpu_at st.1 c) → sie (cpu_at st.1 c) = false;
  li_range : ∀ c l, st.2 c = Spin l ∨ st.2 c = Won l ∨ st.2 c = Left l → (l < length (locks st.1))%nat;
  li_cpu : ∀ c, st.2 c ≠ Run → (c < length (cpus st.1))%nat;
}.

Lemma goes_eq c p pcs : goes c p pcs c = p.
Proof. unfold goes. by rewrite decide_True. Qed.
Lemma goes_ne c p pcs c' : c' ≠ c → goes c p pcs c' = pcs c'.
Proof. intros H. unfold goes. by rewrite decide_False. Qed.

(** Steps that change only one CPU's record and position keep the locks' part. *)
Lemma lkinv_cpu s pcs c k p :
  lkinv (s, pcs) → (c < length (cpus s))%nat →
  (∀ l, p ≠ Won l ∧ p ≠ Left l) → (∀ l, pcs c ≠ Won l ∧ pcs c ≠ Left l) →
  (∀ l, p = Spin l → (l < length (locks s))%nat) →
  noff k = noff (cpu_at s c) + busy p - busy (pcs c) → (0 < noff k → sie k = false) →
  lkinv (set_cpu_at c k s, goes c p pcs).
Proof.
  intros [H1 H2 H3 H4 H5 H6 H7 H8] Hc Hp Hpc Hsp Hn Hs. simpl in *.
  assert (Ho : ∀ c' l, owns (set_cpu_at c k s, goes c p pcs) c' l ↔ owns (s, pcs) c' l).
  { intros c' l. unfold owns. simpl. destruct (decide (c' = c)) as [->|Hne]; [|by rewrite goes_ne].
    rewrite goes_eq. specialize (Hp l). specialize (Hpc l). tauto. }
  assert (Hg : ∀ c' l, goes c p pcs c' = Won l ∨ goes c p pcs c' = Left l → pcs c' = Won l ∨ pcs c' = Left l).
  { intros c' l. destruct (decide (c' = c)) as [->|Hne]; [|by rewrite goes_ne].
    rewrite goes_eq. specialize (Hp l). tauto. }
  split; simpl.
  - intros c1 c2 l. rewrite !Ho. apply H1.
  - intros c1 l. rewrite Ho. apply H2.
  - intros l Hl. destruct (H3 l Hl) as [c1 Hc1]. exists c1. by apply Ho.
  - intros c1 l Hl%Hg. by apply (H4 c1).
  - intros c1. rewrite cpu_at_set by done. destruct (decide (c1 = c)) as [->|Hne].
    + rewrite goes_eq, Hn, H5. change (held_by (set_cpu_at c k s) c) with (held_by s c). lia.
    + rewrite goes_ne by done. apply H5.
  - intros c1. rewrite cpu_at_set by done. destruct (decide (c1 = c)) as [->|Hne]; [done | apply H6].
  - intros c1 l. destruct (decide (c1 = c)) as [->|Hne]; [|rewrite goes_ne by done; apply H7].
    rewrite goes_eq. specialize (Hp l). intros [->|Hx]; [by apply Hsp | tauto].
  - intros c1. rewrite length_insert. destruct (decide (c1 = c)) as [->|Hne]; [done|].
    rewrite goes_ne by done. apply H8.
Qed.

(** Steps that change one lock, of which no other CPU is the owner. *)
Lemma lkinv_lock s pcs c l k p :
  lkinv (s, pcs) → (l < length (locks s))%nat → (c < length (cpus s))%nat →
  (∀ c', owns (s, pcs) c' l → c' = c) → lk_cpu k = None ∨ lk_cpu k = Some c →
  (locked k ≠ 0 ↔ lk_cpu k = Some c ∨ p = Won l ∨ p = Left l) →
  (p = Won l ∨ p = Left l → lk_cpu k = None) →
  (∀ l', l' ≠ l → p ≠ Spin l' ∧ p ≠ Won l' ∧ p ≠ Left l' ∧ pcs c ≠ Won l' ∧ pcs c ≠ Left l') →
  one (bool_decide (lk_cpu k = Some c)) + busy p =
    one (bool_decide (lk_cpu (lock_at s l) = Some c)) + busy (pcs c) →
  lkinv (set_lock_at l k s, goes c p pcs).
Proof.
  intros [H1 H2 H3 H4 H5 H6 H7 H8] Hl Hc Hex Hk Hlk Hfr Hot Hcnt. simpl in *.
  set (st' := (set_lock_at l k s, goes c p pcs)).
  assert (Hself : ∀ c', owns st' c' l → c' = c).
  { intros c'. unfold owns, st'. simpl. rewrite lock_at_set, decide_True by done.
    destruct (decide (c' = c)) as [|Hne]; [done|]. rewrite goes_ne by done.
    intros [E|E]; [destruct Hk; congruence|]. apply Hex. by right. }
  assert (Hown : owns st' c l ↔ locked k ≠ 0).
  { rewrite Hlk. unfold owns, st'. simpl. rewrite lock_at_set, decide_True, goes_eq by done. done. }
  assert (Hoth : ∀ c' l', l' ≠ l → owns st' c' l' ↔ owns (s, pcs) c' l').
  { intros c' l' Hne. unfold owns, st'. simpl. rewrite lock_at_set, decide_False by done.
    destruct (decide (c' = c)) as [->|Hcc]; [|by rewrite goes_ne]. rewrite goes_eq. destruct (Hot l' Hne). tauto. }
  split; simpl.
  - intros c1 c2 l'. destruct (decide (l' = l)) as [->|Hne]; [intros ->%Hself ->%Hself; done|].
    rewrite !Hoth by done. apply H1.
  - intros c1 l'. rewrite lock_at_set by done. destruct (decide (l' = l)) as [->|Hne].
    + intros Ho. by rewrite (Hself _ Ho), Hown in Ho.
    + rewrite Hoth by done. apply H2.
  - intros l'. rewrite lock_at_set by done. destruct (decide (l' = l)) as [->|Hne]; [intros Ho%Hown; eauto|].
    intros [c1 Ho]%H3. exists c1. by apply Hoth.
  - intros c1 l'. rewrite lock_at_set by done. destruct (decide (c1 = c)) as [->|Hcc].
    + rewrite goes_eq. destruct (decide (l' = l)) as [->|Hne]; [done|]. destruct (Hot l' Hne) as (_ & ? & ? & _). tauto.
    + rewrite goes_ne by done. destruct (decide (l' = l)) as [->|Hne]; [|apply H4].
      intros Ho. destruct Hcc. apply Hex. by right.
  - intros c1. rewrite held_by_set by done. change (cpu_at (set_lock_at l k s) c1) with (cpu_at s c1). rewrite H5.
    destruct (decide (c1 = c)) as [->|Hcc]; [rewrite goes_eq; lia|]. rewrite goes_ne by done.
    rewrite !(bool_decide_false (_ = Some c1)); [simpl; lia | destruct Hk; congruence|].
    intros E. destruct Hcc. apply Hex. by left.
  - apply H6.
  - intros c1 l'. rewrite length_insert. destruct (decide (c1 = c)) as [->|Hcc]; [|rewrite goes_ne by done; apply H7].
    rewrite goes_eq. destruct (decide (l' = l)) as [->|Hne]; [done|]. destruct (Hot l' Hne) as (? & ? & ? & _). tauto.
  - intros c1. destruct (decide (c1 = c)) as [->|Hcc]; [done|]. rewrite goes_ne by done. apply H8.
Qed.

(** A swap on a taken lock stores the value that is there. *)
Lemma lkinv_spin s pcs l k :
  lkinv (s, pcs) → (l < length (locks s))%nat → locked (lock_at s l) ≠ 0 →
  k = SpinLock 1 (lk_cpu (lock_at s l)) → lkinv (set_lock_at l k s, pcs).
Proof.
  intros [H1 H2 H3 H4 H5 H6 H7 H8] Hl Hne ->. simpl in *.
  assert (Hc : ∀ l', lk_cpu (lock_at (set_lock_at l (SpinLock 1 (lk_cpu (lock_at s l))) s) l') = lk_cpu (lock_at s l')).
  { intros l'. rewrite lock_at_set by done. by destruct (decide (l' = l)) as [->|]. }
  assert (Ho : ∀ c' l', owns (set_lock_at l (SpinLock 1 (lk_cpu (lock_at s l))) s, pcs) c' l' ↔ owns (s, pcs) c' l').
  { intros c' l'. unfold owns. simpl. by rewrite Hc. }
  split; simpl; try done.
  - intros c1 c2 l'. rewrite !Ho. apply H1.
  - intros c1 l'. rewrite Ho, lock_at_set by done. destruct (decide (l' = l)); [done | apply H2].
  - intros l'. rewrite lock_at_set by done. intros Hx. destruct (H3 l') as [c1 Hc1]; [by destruct (decide (l' = l)) as [->|]|].
    exists c1. by apply Ho.
  - intros c1 l'. rewrite Hc. apply H4.
  - intros c1. rewrite held_by_set by done. etransitivity; [apply (H5 c1)|]. simpl. lia.
  - intros c1 l'. rewrite length_insert. apply H7.
Qed.

Lemma goes_id c pcs : goes c (pcs c) pcs = pcs.
Proof.
  apply FunctionalExtensionality.functional_extensionality. intros c'. unfold goes. by destruct (decide (c' = c)) as [->|].
Qed.

Lemma holding_ret s c l b s' :
  holding c l s = Ret (b, s') → s' = s ∧ (b = true ↔ locked (lock_at s l) ≠ 0 ∧ lk_cpu (lock_at s l) = Some c).
Proof.
  intros [= <- <-]. split; [done|]. rewrite andb_true_iff, bool_decide_eq_true, nonzero_true. done.
Qed.

Lemma enter_inv s pcs c l s' :
  lkinv (s, pcs) → pcs c = Run → (c < length (cpus s))%nat → (l < length (locks s))%nat →
  acquire_enter c l s = Ret (tt, s') → lkinv (s', goes c (Spin l) pcs).
Proof.
  intros I Hr Hc Hl H. unfold acquire_enter in H. apply bind_Ret in H as (u & s1 & H1 & H).
  rewrite push_off_eq in H1 by done. injection H1 as _ <-.
  apply bind_Ret in H as (h & s2 & H2 & H). apply holding_ret in H2 as [-> _]. destruct h; [done|]. injection H as <-.
  pose proof (li_noff _ I c) as Hn. simpl in Hn. unfold held_by in Hn.
  apply lkinv_cpu; simpl; rewrite ?Hr; try done; [intros l' [= <-]; done | simpl; lia].
Qed.

Lemma own_excl s pcs c l : lkinv (s, pcs) → owns (s, pcs) c l → ∀ c', owns (s, pcs) c' l → c' = c.
Proof. intros I H c' H'. by apply (li_one _ I c' c l). Qed.

Lemma swap_inv s pcs c l old s' :
  lkinv (s, pcs) → pcs c = Spin l → test_and_set l s = Ret (old, s') →
  lkinv (s', goes c (if nonzero old then Spin l else Won l) pcs).
Proof.
  intros I Hr H. assert (Hl : (l < length (locks s))%nat) by (apply (li_range _ I c); by left).
  assert (Hc : (c < length (cpus s))%nat) by (apply (li_cpu _ I c); simpl; congruence).
  injection H as <- <-. destruct (nonzero (locked (lock_at s l))) eqn:E.
  - apply nonzero_true in E. rewrite <- Hr, goes_id. by apply lkinv_spin.
  - apply nonzero_false in E.
    assert (Hno : ∀ c', ¬ owns (s, pcs) c' l) by (intros c' Ho; by apply (li_locked _ I c' l)).
    assert (El : lk_cpu (lock_at s l) = None).
    { destruct (lk_cpu (lock_at s l)) as [c'|] eqn:Ec; [|done]. destruct (Hno c'). by left. }
    apply lkinv_lock; simpl; rewrite ?El, ?Hr; try done; [intros c' Ho; by destruct (Hno c') | by left | |].
    + split; [by right; left | done].
    + intros l' Hne. repeat split; congruence.
Qed.

Lemma own_inv s pcs c l s' :
  lkinv (s, pcs) → pcs c = Won l → set_owner (Some c) l s = Ret (tt, s') → lkinv (s', goes c Run pcs).
Proof.
  intros I Hr H. assert (Hl : (l < length (locks s))%nat) by (apply (li_range _ I c); right; by left).
  assert (Hc : (c < length (cpus s))%nat) by (apply (li_cpu _ I c); simpl; congruence).
  assert (Ho : owns (s, pcs) c l) by (right; by left).
  assert (El : lk_cpu (lock_at s l) = None) by (apply (li_fresh _ I c); by left).
  injection H as <-. apply lkinv_lock; simpl; rewrite ?El, ?Hr; try done.
  - by apply own_excl.
  - by right.
  - split; [by left | intros _; by apply (li_locked _ I c l)].
  - by intros [].
  - intros l' Hne. repeat split; congruence.
  - by rewrite bool_decide_true.
Qed.

Lemma leave_inv s pcs c l s' :
  lkinv (s, pcs) → pcs c = Run → (c < length (cpus s))%nat → (l < length (locks s))%nat →
  release_enter c l s = Ret (tt, s') → lkinv (s', goes c (Left l) pcs).
Proof.
  intros I Hr Hc Hl H. unfold release_enter in H. apply bind_Ret in H as (h & s2 & H2 & H).
  apply holding_ret in H2 as [-> Hh]. destruct h; [|done]. destruct (proj1 Hh eq_refl) as [Hlk El].
  injection H as <-. assert (Ho : owns (s, pcs) c l) by (by left).
  apply lkinv_lock; simpl; rewrite ?El, ?Hr; try done.
  - by apply own_excl.
  - by left.
  - split; [by right; right | done].
  - intros l' Hne. repeat split; congruence.
  - by rewrite (bool_decide_true (Some c = Some c)).
Qed.

Lemma free_inv s pcs c l s' :
  lkinv (s, pcs) → pcs c = Left l → lock_release l s = Ret (tt, s') → lkinv (s', goes c (Freed l) pcs).
Proof.
  intros I Hr H. assert (Hl : (l < length (locks s))%nat) by (apply (li_range _ I c); right; by right).
  assert (Hc : (c < length (cpus s))%nat) by (apply (li_cpu _ I c); simpl; congruence).
  assert (Ho : owns (s, pcs) c l) by (right; by right).
  assert (El : lk_cpu (lock_at s l) = None) by (apply (li_fresh _ I c); by right).
  injection H as <-. apply lkinv_lock; simpl; rewrite ?El, ?Hr; try done.
  - by apply own_excl.
  - by left.
  - split; [done|]. intros [|[|]]; done.
  - intros l' Hne. repeat split; congruence.
Qed.

Lemma pop_inv s pcs c l s' :
  lkinv (s, pcs) → pcs c = Freed l → pop_off c s = Ret (tt, s') → lkinv (s', goes c Run pcs).
Proof.
  intros I Hr H. assert (Hc : (c < length (cpus s))%nat) by (apply (li_cpu _ I c); simpl; congruence).
  pose proof (li_noff _ I c) as En. simpl in En. rewrite Hr in En. simpl in En.
  assert (0 ≤ held_by s c) by (unfold held_by; lia).
  rewrite pop_off_eq in H; [|done | apply (li_sie _ I c); simpl; lia | lia]. injection H as <-.
  apply lkinv_cpu; simpl; rewrite ?Hr; try done; simpl; [lia|].
  intros Hp. by rewrite (proj2 (Z.eqb_neq _ _)) by lia.
Qed.

Lemma intr_inv s pcs c b s' :
  lkinv (s, pcs) → pcs c = Run → noff (cpu_at s c) = 0 → intr_set b c s = Ret (tt, s') → lkinv (s', pcs).
Proof.
  intros I Hr Hn H. injection H as <-. destruct (decide (c < length (cpus s))%nat) as [Hc|Hc].
  - rewrite <- (goes_id c pcs). apply lkinv_cpu; simpl; rewrite ?Hr; try done; simpl; lia.
  - unfold set_cpu_at. rewrite list_insert_ge by lia. by destruct s.
Qed.

Lemma lkstep_inv st st' : lkstep st st' → lkinv st → lkinv st'.
Proof.
  destruct 1; intros I; eauto using enter_inv, swap_inv, own_inv, leave_inv, free_inv, pop_inv, intr_inv.
Qed.

(** Boot: every lock as [initlock] leaves it, no CPU in the lock code. *)
Definition lk_boot (s : lkstate) : Prop :=
  Forall (λ k, k = SpinLock 0 None) (locks s) ∧ Forall (λ k, noff k = 0) (cpus s).

Lemma boot_inv s : lk_boot s → lkinv (s, λ _, Run).
Proof.
  intros [Hl Hc].
  assert (El : ∀ l, lock_at s l = SpinLock 0 None).
  { intros l. unfold lock_at. destruct (locks s !! l) as [k|] eqn:E; [|done]. by rewrite (Forall_lookup_1 _ _ _ _ Hl E). }
  assert (Ec : ∀ c, noff (cpu_at s c) = 0).
  { intros c. unfold cpu_at. destruct (cpus s !! c) as [k|] eqn:E; [|done]. apply (Forall_lookup_1 _ _ _ _ Hc E). }
  assert (Ho : ∀ c l, ¬ owns (s, λ _, Run) c l) by (intros c l [H|[H|H]]; simpl in H; rewrite ?El in H; done).
  assert (Hh : ∀ c, held_by s c = 0).
  { intros c. unfold held_by. destruct (filter _ _) as [|k ks] eqn:E; [done|].
    assert (Hk : k ∈ filter (λ k, lk_cpu k = Some c) (locks s)) by (rewrite E; by left).
    apply list_elem_of_filter in Hk as [Hk Hin]. rewrite Forall_forall in Hl. by rewrite (Hl k Hin) in Hk. }
  split; cbn [fst snd]; try done.
  - intros c c' l H. by destruct (Ho c l).
  - intros c l H. by destruct (Ho c l).
  - intros l H. by rewrite El in H.
  - intros c l [|]; done.
  - intros c. by rewrite Ec, Hh.
  - intros c H. rewrite Ec in H. lia.
  - intros c l [|[|]]; done.
Qed.

Lemma reachable_inv s st : lk_boot s → rtc lkstep (s, λ _, Run) st → lkinv st.
Proof.
  intros Hb Hr. assert (I : lkinv (s, λ _, Run)) by (by apply boot_inv).
  revert I. induction Hr; eauto using lkstep_inv.
Qed.

(** C30. Spin locks exclude: in every interleaving of the instructions of [acquire]
    and [release] on all CPUs, a lock is owned by at most one CPU, from its
    successful swap to the store that frees it; the lock word is set as long, and
    the owner runs with interrupts disabled and a positive nesting count. *)
Theorem spinlock_excludes s st c c' l :
  lk_boot s → rtc lkstep (s, λ _, Run) st → owns st c l → owns st c' l →
  c = c' ∧ locked (lock_at st.1 l) ≠ 0 ∧ sie (cpu_at st.1 c) = false ∧ 1 ≤ noff (cpu_at st.1 c).
Proof.
  intros Hb Hr Ho Ho'. pose proof (reachable_inv s st Hb Hr) as I.
  assert (Hn : 1 ≤ noff (cpu_at st.1 c)).
  { rewrite (li_noff _ I c). assert (0 ≤ held_by st.1 c) by (unfold held_by; lia).
    destruct Ho as [Ho|[Ho|Ho]]; [|rewrite Ho; simpl; lia..].
    assert (Hl : (l < length (locks st.1))%nat).
    { destruct (decide (l < length (locks st.1))%nat) as [|Hge]; [done|]. unfold lock_at in Ho.
      rewrite lookup_ge_None_2 in Ho by lia. done. }
    pose proof (held_by_pos st.1 c l Hl Ho). destruct (st.2 c); simpl; lia. }
  split; [by apply (li_one _ I c c' l)|]. split; [by apply (li_locked _ I c l)|].
  split; [apply (li_sie _ I c); lia | done].
Qed.

(** [release] never panics in the hands of an owner, and [acquire] panics
    exactly when the CPU already holds the lock: in every reachable state a CPU
    outside the lock code whose number a lock records can release it, any other
    lock it can try to take. *)
Theorem spinlock_panics s st c l :
  lk_boot s → rtc lkstep (s, λ _, Run) st → st.2 c = Run →
  (c < length (cpus st.1))%nat → (l < length (locks st.1))%nat →
  (lk_cpu (lock_at st.1 l) = Some c →
    acquire_enter c l st.1 = Panic "acquire" ∧ ∃ s', release c l st.1 = Ret (tt, s')) ∧
  (lk_cpu (lock_at st.1 l) ≠ Some c →
    release c l st.1 = Panic "release" ∧ ∃ s', acquire_enter c l st.1 = Ret (tt, s')).
Proof.
  intros Hb Hr Hrun Hc Hl. pose proof (reachable_inv s st Hb Hr) as I. destruct st as [s1 pcs]. simpl in *.
  assert (Hholding : ∀ k, holding c l (set_cpu_at c k s1) = Ret
    (nonzero (locked (lock_at s1 l)) && bool_decide (lk_cpu (lock_at s1 l) = Some c), set_cpu_at c k s1)) by done.
  unfold acquire_enter, release, release_enter. split; intros El.
  - assert (Ho : owns (s1, pcs) c l) by (by left). pose proof (li_locked _ I c l Ho) as Hlk. simpl in Hlk.
    pose proof (held_by_pos s1 c l Hl El) as Hp. pose proof (li_noff _ I c) as En. simpl in En. rewrite Hrun in En.
    simpl in En. assert (Hs : sie (cpu_at s1 c) = false) by (apply (li_sie _ I c); simpl; lia).
    unfold mbind, M_bind. rewrite push_off_eq by done. rewrite Hholding.
    unfold holding at 1. unfold mbind, M_bind, gets. simpl.
    rewrite El, (proj2 (nonzero_true _) Hlk), bool_decide_true by done. simpl. split; [done|].
    eexists. unfold lock_release, mbind, M_bind, gets, modify. rewrite pop_off_eq; [reflexivity | done | exact Hs|].
    change (1 ≤ noff (cpu_at s1 c)). lia.
  - unfold mbind, M_bind. rewrite push_off_eq by done. rewrite Hholding.
    unfold holding at 1. unfold mbind, M_bind, gets. simpl.
    rewrite (bool_decide_false (lk_cpu _ = _)), andb_false_r by done. simpl. split; [done|]. eexists. reflexivity.
Qed.

(** [n] calls in a row. *)
Fixpoint times (n : nat) (m : M lkstate unit) : M lkstate unit :=
  match n with O => mret tt | S n' => m;; times n' m end.

Lemma times_push n s c :
  (c < length (cpus s))%nat → 0 ≤ noff (cpu_at s c) →
  times (S n) (push_off c) s = Ret (tt, set_cpu_at c (Cpu (noff (cpu_at s c) + Z.of_nat (S n))
    (if noff (cpu_at s c) =? 0 then sie (cpu_at s c) else intena (cpu_at s c)) false) s).
Proof.
  revert s. induction n as [|n IH]; intros s Hc Hn; cbn [times].
  - unfold mbind, M_bind. by rewrite push_off_eq.
  - unfold mbind at 1, M_bind at 1. rewrite push_off_eq by done. set (k := Cpu _ _ _).
    specialize (IH (set_cpu_at c k s)). cbn [times] in IH. rewrite IH.
    2: { simpl. by rewrite length_insert. }
    2: { rewrite cpu_at_set, decide_True by done. simpl. lia. }
    rewrite cpu_at_set, decide_True, set_cpu_twice by done. unfold k. simpl.
    rewrite (proj2 (Z.eqb_neq (noff (cpu_at s c) + 1) 0)) by lia. do 4 f_equal. lia.
Qed.

Lemma times_pop n s c :
  (c < length (cpus s))%nat → sie (cpu_at s c) = false → Z.of_nat (S n) ≤ noff (cpu_at s c) →
  times (S n) (pop_off c) s = Ret (tt, set_cpu_at c (Cpu (noff (cpu_at s c) - Z.of_nat (S n)) (intena (cpu_at s c))
    ((noff (cpu_at s c) =? Z.of_nat (S n)) && intena (cpu_at s c))) s).
Proof.
  revert s. induction n as [|n IH]; intros s Hc Hs Hn; cbn [times].
  - unfold mbind, M_bind. by rewrite pop_off_eq by (done || lia).
  - unfold mbind at 1, M_bind at 1. rewrite pop_off_eq by (done || lia). set (k := Cpu _ _ _).
    specialize (IH (set_cpu_at c k s)). cbn [times] in IH.
    rewrite cpu_at_set, decide_True, set_cpu_twice in IH by done. unfold k in IH |- *. cbn [noff intena sie] in IH.
    rewrite IH.
    + replace (noff (cpu_at s c) - 1 - Z.of_nat (S n)) with (noff (cpu_at s c) - Z.of_nat (S (S n))) by lia.
      assert (Eb : (noff (cpu_at s c) - 1 =? Z.of_nat (S n)) = (noff (cpu_at s c) =? Z.of_nat (S (S n))))
        by (apply eq_true_iff_eq; rewrite !Z.eqb_eq; lia).
      by rewrite Eb.
    + simpl. by rewrite length_insert.
    + by rewrite (proj2 (Z.eqb_neq _ 1)) by lia.
    + lia.
Qed.

(** [push_off] and [pop_off] nest: after [n] calls of [push_off] interrupts are
    off, none of the first [n - 1] calls of [pop_off] enables them, and after the
    [n]-th the CPU has the interrupt state and nesting count it started with. *)
Theorem push_pop_nest n s c :
  (c < length (cpus s))%nat → 0 ≤ noff (cpu_at s c) → (0 < noff (cpu_at s c) → sie (cpu_at s c) = false) →
  wp (times (S n) (push_off c)) s (λ _ s1, sie (cpu_at s1 c) = false ∧
    (∀ m, (m < n)%nat → wp (times (S m) (pop_off c)) s1 (λ _ s2, sie (cpu_at s2 c) = false)) ∧
    wp (times (S n) (pop_off c)) s1 (λ _ s2,
      noff (cpu_at s2 c) = noff (cpu_at s c) ∧ sie (cpu_at s2 c) = sie (cpu_at s c))).
Proof.
  intros Hc Hn Hs. unfold wp at 1. rewrite times_push by done. set (k := Cpu _ _ _).
  rewrite cpu_at_set, decide_True by done. split; [done|].
  assert (Hp : ∀ m, (m ≤ n)%nat → times (S m) (pop_off c) (set_cpu_at c k s) = Ret (tt, set_cpu_at c
    (Cpu (noff k - Z.of_nat (S m)) (intena k) ((noff k =? Z.of_nat (S m)) && intena k)) s)).
  { intros m Hm. rewrite times_pop; rewrite ?cpu_at_set, ?decide_True by done; [by rewrite set_cpu_twice | | done |].
    - simpl. by rewrite length_insert.
    - unfold k. cbn [noff]. lia. }
  split.
  - intros m Hm. unfold wp. rewrite Hp by lia. rewrite cpu_at_set, decide_True by done. cbn [sie].
    rewrite (proj2 (Z.eqb_neq _ _)); [done|]. unfold k. cbn [noff]. lia.
  - unfold wp. rewrite Hp by lia. rewrite cpu_at_set, decide_True by done. unfold k. cbn [sie noff intena].
    split; [lia|]. destruct (Z.eqb_spec (noff (cpu_at s c)) 0) as [E|E].
    + rewrite (proj2 (Z.eqb_eq _ _)) by lia. done.
    + rewrite (proj2 (Z.eqb_neq _ _)) by lia. simpl. symmetry. apply Hs. lia.
Qed.

(** ** Concrete inputs *)

Definition two_cpus : lkstate := LkState [SpinLock 0 None; SpinLock 0 None] [Cpu 0 false true; Cpu 0 false true].

Lemma two_cpus_boot : lk_boot two_cpus.
Proof. split; repeat constructor. Qed.

(** CPU 0 takes lock 1. *)
Definition taken : config := (run_state (acquire 0 0 1 two_cpus) two_cpus, λ _, Run).

Lemma taken_run : rtc lkstep (two_cpus, λ _, Run) taken.
Proof.
  set (s1 := run_state (acquire_enter 0 1 two_cpus) two_cpus).
  set (s2 := run_state (test_and_set 1 s1) s1).
  apply (rtc_l _ _ (s1, goes 0 (Spin 1) (λ _, Run))); [by apply k_enter; [|simpl; lia | simpl; lia|]|].
  apply (rtc_l _ _ (s2, goes 0 (Won 1) (goes 0 (Spin 1) (λ _, Run)))).
  { exact (k_swap s1 s2 (goes 0 (Spin 1) (λ _, Run)) 0 1 0 eq_refl eq_refl). }
  assert (E : taken = (run_state (set_owner (Some 0%nat) 1 s2) s2, goes 0 Run (goes 0 (Won 1) (goes 0 (Spin 1) (λ _, Run))))).
  { unfold taken. f_equal. apply FunctionalExtensionality.functional_extensionality. intros c. unfold goes. by destruct (decide _). }
  rewrite E. apply rtc_once. by apply (k_own s2 _ _ 0 1).
Qed.

Lemma spinlock_excludes_witness : locked (lock_at taken.1 1) ≠ 0 ∧ sie (cpu_at taken.1 0) = false.
Proof.
  assert (Ho : owns taken 0 1) by (left; reflexivity).
  destruct (spinlock_excludes two_cpus taken 0 0 1 two_cpus_boot taken_run Ho Ho) as (_ & H1 & H2 & _). done.
Defined.

Lemma spinlock_panics_witness : acquire_enter 0 1 taken.1 = Panic "acquire" ∧ release 0 0 taken.1 = Panic "release".
Proof.
  split.
  - apply (spinlock_panics two_cpus taken 0 1 two_cpus_boot taken_run); [done | simpl; lia | simpl; lia | done].
  - apply (spinlock_panics two_cpus taken 0 0 two_cpus_boot taken_run); [done | simpl; lia | simpl; lia | done].
Defined.

Lemma push_pop_nest_witness : wp (times 3 (push_off 1)) two_cpus (λ _ s1, sie (cpu_at s1 1) = false).
Proof.
  eapply wp_mono; [apply (push_pop_nest 2 two_cpus 1); [simpl; lia | simpl; lia | simpl; lia]|].
  intros _ s1 [H _]. exact H.
Defined.
