(* ===== verification/Pipe.v ===== *)
(** * Pipes (kernel/pipe.c)

    A pipe is shared by processes that read and write it under [pi->lock].  One
    iteration of the loops of [pipewrite] and [piperead] is one definition;
    [pipewrite] and [piperead] run them up to the next [sleep] or the return, and
    the step relation interleaves the iterations of all processes, which matters
    because [kill] does not take the pipe's lock.  User memory is that of [Vm]. *)

From stdpp Require Import base numbers list strings relations.
From S2P Require Import Prelude Layout Kalloc Vm.
Local Open Scope Z_scope.

Definition PIPESIZE : Z := 512.

Record pipe : Type := Pipe {
  data : Z → Z;
  nread : Z;
  nwrite : Z;
  readopen : Z;
  writeopen : Z;
}.

Definition set_nread (v : Z) (p : pipe) : pipe := Pipe (data p) v (nwrite p) (readopen p) (writeopen p).
Definition set_readopen (v : Z) (p : pipe) : pipe := Pipe (data p) (nread p) (nwrite p) v (writeopen p).
Definition set_writeopen (v : Z) (p : pipe) : pipe := Pipe (data p) (nread p) (nwrite p) (readopen p) v.

(** [pi->data[pi->nwrite++ % PIPESIZE] = ch]. *)
Definition put (ch : Z) (p : pipe) : pipe :=
  Pipe (upd (data p) (nwrite p mod PIPESIZE) ch) (nread p) (u32 (nwrite p + 1)) (readopen p) (writeopen p).

(** The two sleep channels, [&pi->nread] and [&pi->nwrite]. *)
Inductive pchan : Type := ChRead | ChWrite.

#[global] Instance pchan_eq_dec : EqDecision pchan.
Proof. solve_decision. Defined.

(** A call in progress: where it stands with respect to the lock. *)
Inductive pcall : Type := CWrite | CRead.

Inductive ppc : Type :=
| AtEntry                  (* before the first acquire *)
| AtWait                   (* piperead's first loop, lock held *)
| AtLoop (i : Z)           (* pipewrite's loop, piperead's second loop, lock held *)
| Asleep (c : pchan) (i : Z)
| Woken (i : Z)            (* to take the lock again inside sleep *)
| Returned (r : Z).

Record pproc : Type := PProc {
  q_call : pcall;
  q_pagetable : Z;
  q_addr : Z;
  q_n : Z;
  q_killed : Z;
  q_pc : ppc;
}.

Definition set_pc (c : ppc) (q : pproc) : pproc :=
  PProc (q_call q) (q_pagetable q) (q_addr q) (q_n q) (q_killed q) c.
Definition set_qkilled (v : Z) (q : pproc) : pproc :=
  PProc (q_call q) (q_pagetable q) (q_addr q) (q_n q) v (q_pc q).

Record pstate : Type := PState {
  vms : kstate;
  pi : pipe;
  holder : option nat;
  users : list pproc;
}.

Definition set_vms (v : kstate) (s : pstate) : pstate := PState v (pi s) (holder s) (users s).
Definition set_pi (f : pipe → pipe) (s : pstate) : pstate := PState (vms s) (f (pi s)) (holder s) (users s).
Definition set_holder (h : option nat) (s : pstate) : pstate := PState (vms s) (pi s) h (users s).
Definition set_users (f : list pproc → list pproc) (s : pstate) : pstate :=
  PState (vms s) (pi s) (holder s) (f (users s)).

(** [wakeup] on one of the pipe's channels. *)
Definition wake (c : pchan) (q : pproc) : pproc :=
  match q_pc q with
  | Asleep c' i => if decide (c' = c) then set_pc (Woken i) q else q
  | _ => q
  end.

Definition pwakeup (c : pchan) : M pstate unit := modify (set_users (fmap (wake c))).

Section Pipe.
Context `{L : Linker}.

(** How one iteration of a loop ends. *)
Inductive pnext : Type :=
| Again (i : Z) (ch : Z)   (* next iteration; [ch] was moved *)
| Enter                    (* piperead: out of the first loop *)
| Sleeps (c : pchan)
| Returns (r : Z)
| Faults (r : Z) (ch : Z). (* piperead: [ch] was taken but could not be stored *)

(** One iteration of [pipewrite]'s loop, and what follows it. *)
Definition pipewrite_iter (q : pproc) (i : Z) : M pstate pnext :=
  p ← gets pi;
  if i <? q_n q then
    if (readopen p =? 0) || nonzero (q_killed q) then mret (Returns (-1))
    else if nwrite p =? u32 (nread p + PIPESIZE) then
      pwakeup ChRead;; mret (Sleeps ChWrite)
    else
      r ← zoom vms set_vms (copyin (q_pagetable q) (u64 (q_addr q + i)) 1);
      if r.1 =? -1 then pwakeup ChRead;; mret (Returns i)
      else
        let ch := List.hd 0 r.2 in
        modify (set_pi (put ch));; mret (Again (i + 1) ch)
  else pwakeup ChRead;; mret (Returns i).

(** The first loop of [piperead]. *)
Definition piperead_wait (q : pproc) : M pstate pnext :=
  p ← gets pi;
  if (nread p =? nwrite p) && nonzero (writeopen p) then
    if nonzero (q_killed q) then mret (Returns (-1)) else mret (Sleeps ChRead)
  else mret Enter.

(** One iteration of its second loop, and what follows it. *)
Definition piperead_iter (q : pproc) (i : Z) : M pstate pnext :=
  p ← gets pi;
  if i <? q_n q then
    if nread p =? nwrite p then pwakeup ChWrite;; mret (Returns i)
    else
      let ch := data p (nread p mod PIPESIZE) in
      modify (set_pi (set_nread (u32 (nread p + 1))));;
      r ← zoom vms set_vms (copyout (q_pagetable q) (u64 (q_addr q + i)) [ch]);
      if r =? -1 then pwakeup ChWrite;; mret (Faults i ch)
      else mret (Again (i + 1) ch)
  else pwakeup ChWrite;; mret (Returns i).

(** [pipewrite] from index [i] on to its return or the next sleep. *)
Fixpoint pipewrite_loop (fuel : nat) (q : pproc) (i : Z) : M pstate pnext :=
  r ← pipewrite_iter q i;
  match r with
  | Again i' _ => match fuel with O => diverge | S f => pipewrite_loop f q i' end
  | r => mret r
  end.

Definition pipewrite (q : pproc) : M pstate pnext := pipewrite_loop (Z.to_nat (q_n q)) q 0.

Fixpoint piperead_loop (fuel : nat) (q : pproc) (i : Z) : M pstate pnext :=
  r ← piperead_iter q i;
  match r with
  | Again i' _ => match fuel with O => diverge | S f => piperead_loop f q i' end
  | r => mret r
  end.

Definition piperead (q : pproc) : M pstate pnext :=
  r ← piperead_wait q;
  match r with
  | Enter => piperead_loop (Z.to_nat (q_n q)) q 0
  | r => mret r
  end.

(** [pipeclose] at the pipe [a] in memory: the result says whether it was freed. *)
Definition pipeclose (a : Z) (writable : bool) : M pstate unit :=
  (if writable then modify (set_pi (set_writeopen 0));; pwakeup ChRead
   else modify (set_pi (set_readopen 0));; pwakeup ChWrite);;
  p ← gets pi;
  when ((readopen p =? 0) && (writeopen p =? 0)) (zoom vms set_vms (kfree a)).

(** ** All processes together *)

(** Bytes entering and leaving the pipe. *)
Inductive event : Type := Put (ch : Z) | Get (ch : Z).

(** The process [k], at index [i] of its loop, continues as the iteration says;
    sleeping and returning release the lock. *)
Definition continue (k : nat) (i : Z) (r : pnext) (s : pstate) : pstate :=
  let at_pc c s := set_users (λ us, match us !! k with Some q => <[k := set_pc c q]> us | None => us end) s in
  match r with
  | Again i' _ => at_pc (AtLoop i') s
  | Enter => at_pc (AtLoop 0) s
  | Sleeps c => set_holder None (at_pc (Asleep c i) s)
  | Returns v | Faults v _ => set_holder None (at_pc (Returned v) s)
  end.

Definition put_event (r : pnext) : list event := match r with Again _ ch => [Put ch] | _ => [] end.
Definition get_event (r : pnext) : list event :=
  match r with Again _ ch | Faults _ ch => [Get ch] | _ => [] end.

(** Where a call goes when it gets the lock. *)
Definition resume (q : pproc) : option ppc :=
  match q_call q, q_pc q with
  | CWrite, AtEntry => Some (AtLoop 0)
  | CWrite, Woken i => Some (AtLoop i)
  | CRead, AtEntry | CRead, Woken _ => Some AtWait
  | _, _ => None
  end.

(** [kill] (proc.c): the flag, and the wakeup of a sleeping process. *)
Definition kill_user (q : pproc) : pproc :=
  let q' := set_qkilled 1 q in
  match q_pc q with Asleep _ i => set_pc (Woken i) q' | _ => q' end.

Inductive pstep : pstate → list event → pstate → Prop :=
| p_acquire s k q c :
    holder s = None → users s !! k = Some q → resume q = Some c →
    pstep s [] (set_users (λ us, <[k := set_pc c q]> us) (set_holder (Some k) s))
| p_write s k q i r s' :
    holder s = Some k → users s !! k = Some q → q_call q = CWrite → q_pc q = AtLoop i →
    pipewrite_iter q i s = Ret (r, s') → pstep s (put_event r) (continue k i r s')
| p_wait s k q r s' :
    holder s = Some k → users s !! k = Some q → q_call q = CRead → q_pc q = AtWait →
    piperead_wait q s = Ret (r, s') → pstep s [] (continue k 0 r s')
| p_read s k q i r s' :
    holder s = Some k → users s !! k = Some q → q_call q = CRead → q_pc q = AtLoop i →
    piperead_iter q i s = Ret (r, s') → pstep s (get_event r) (continue k i r s')
| p_close s a w s' :
    holder s = None → pipeclose a w s = Ret (tt, s') → pstep s [] s'
| p_kill s k q :
    users s !! k = Some q → pstep s [] (set_users (λ us, <[k := kill_user q]> us) s)
| p_call s q : q_pc q = AtEntry → pstep s [] (set_users (λ us, us ++ [q]) s)
| p_memory s v : pstep s [] (set_vms v s).

(** Runs with the bytes that went through, in order. *)
Inductive prun : pstate → list event → pstate → Prop :=
| prun_nil s : prun s [] s
| prun_step s es s1 es' s2 : prun s es s1 → pstep s1 es' s2 → prun s (es ++ es') s2.

Definition puts (es : list event) : list Z := omap (λ e, match e with Put ch => Some ch | _ => None end) es.
Definition gets_of (es : list event) : list Z := omap (λ e, match e with Get ch => Some ch | _ => None end) es.

(** ** The pipe as a queue *)

(** The bytes in the buffer, oldest first. *)
Definition queue (p : pipe) : list Z :=
  (λ k, data p ((nread p + Z.of_nat k) mod PIPESIZE)) <$> seq 0 (Z.to_nat (u32 (nwrite p - nread p))).

(** The counters are 32-bit and at most [PIPESIZE] apart. *)
Definition pipe_ok (p : pipe) : Prop :=
  0 ≤ nread p < 2 ^ 32 ∧ 0 ≤ nwrite p < 2 ^ 32 ∧ u32 (nwrite p - nread p) ≤ PIPESIZE.

Lemma queue_length p : length (queue p) = Z.to_nat (u32 (nwrite p - nread p)).
Proof. unfold queue. by rewrite length_fmap, length_seq. Qed.

Lemma full_iff p : pipe_ok p → nwrite p = u32 (nread p + PIPESIZE) ↔ u32 (nwrite p - nread p) = PIPESIZE.
Proof. intros (H1 & H2 & H3). unfold u32, PIPESIZE in *. split; intros; lia. Qed.

Lemma empty_iff p : pipe_ok p → nread p = nwrite p ↔ queue p = [].
Proof.
  intros (H1 & H2 & H3). rewrite <- (length_zero_iff_nil (queue p)), queue_length. unfold u32 in *. lia.
Qed.

Lemma put_queue p ch :
  pipe_ok p → nwrite p ≠ u32 (nread p + PIPESIZE) → pipe_ok (put ch p) ∧ queue (put ch p) = queue p ++ [ch].
Proof.
  intros Hok Hf. rewrite full_iff in Hf by done. pose proof Hok as (H1 & H2 & H3).
  assert (E : u32 (u32 (nwrite p + 1) - nread p) = u32 (nwrite p - nread p) + 1) by (unfold u32, PIPESIZE in *; lia).
  assert (Hb : 0 ≤ u32 (nwrite p - nread p)) by (unfold u32; lia).
  split; [unfold pipe_ok, put; simpl; rewrite E; unfold u32 in *; lia|].
  unfold queue, put. simpl. rewrite E, Z2Nat.inj_add, Nat.add_1_r, seq_S, fmap_app by lia. f_equal.
  - apply list_fmap_ext. intros i k Hk. apply lookup_seq in Hk as [-> Hk]. apply upd_ne. unfold u32, PIPESIZE in *. lia.
  - simpl. f_equal. replace ((nread p + Z.of_nat (Z.to_nat (u32 (nwrite p - nread p)))) mod PIPESIZE)
      with (nwrite p mod PIPESIZE) by (unfold u32, PIPESIZE in *; lia). apply upd_eq.
Qed.

Lemma get_queue p :
  pipe_ok p → nread p ≠ nwrite p →
  let p' := set_nread (u32 (nread p + 1)) p in
  pipe_ok p' ∧ queue p = data p (nread p mod PIPESIZE) :: queue p'.
Proof.
  intros (H1 & H2 & H3) Hne. simpl.
  assert (E : u32 (nwrite p - u32 (nread p + 1)) = u32 (nwrite p - nread p) - 1) by (unfold u32, PIPESIZE in *; lia).
  assert (Hb : 1 ≤ u32 (nwrite p - nread p)) by (unfold u32; lia).
  split; [unfold pipe_ok; simpl; rewrite E; unfold u32 in *; lia|].
  unfold queue. simpl. rewrite E. destruct (Z.to_nat (u32 (nwrite p - nread p))) as [|n] eqn:En; [lia|].
  replace (Z.to_nat (u32 (nwrite p - nread p) - 1)) with n by lia. simpl. f_equal; [f_equal; f_equal; lia|].
  rewrite <- fmap_S_seq, <- list_fmap_compose. apply list_fmap_ext. intros i k _. simpl. f_equal. unfold u32, PIPESIZE. lia.
Qed.
End Pipe.
