(* ===== verification/PipeSpec.v ===== *)
(** * Theorems on pipes (kernel/pipe.c) *)

From stdpp Require Import base numbers list strings relations.
From S2P Require Import Prelude Layout Kalloc Vm Demo Pipe.
Local Open Scope Z_scope.

Section Pipe.
Context `{L : Linker}.

(** ** What one iteration does *)

Lemma zoom_vms {A} (m : M kstate A) s a s' :
  zoom vms set_vms m s = Ret (a, s') → pi s' = pi s ∧ users s' = users s ∧ holder s' = holder s.
Proof. unfold zoom. destruct (m (vms s)) as [[b v]| | |]; [|done..]. by intros [= <- <-]. Qed.

(** The users after a wakeup, or unchanged. *)
Lemma write_effect q i s r s' :
  pipewrite_iter q i s = Ret (r, s') → holder s' = holder s ∧
  match r with
  | Again i' ch => i' = i + 1 ∧ pi s' = put ch (pi s) ∧ nwrite (pi s) ≠ u32 (nread (pi s) + PIPESIZE) ∧
      readopen (pi s) ≠ 0 ∧ users s' = users s
  | Sleeps c => c = ChWrite ∧ nwrite (pi s) = u32 (nread (pi s) + PIPESIZE) ∧ readopen (pi s) ≠ 0 ∧
      pi s' = pi s ∧ users s' = wake ChRead <$> users s
  | Returns _ => pi s' = pi s ∧
      (users s' = wake ChRead <$> users s ∨ users s' = users s ∧ (readopen (pi s) = 0 ∨ q_killed q ≠ 0))
  | _ => False
  end.
Proof.
  unfold pipewrite_iter. intros (p & s1 & [= <- <-] & H)%bind_Ret.
  destruct (i <? q_n q).
  2: { apply bind_Ret in H as (u & s1 & [= _ <-] & [= <- <-]). split; [done|]. split; [done | by left]. }
  destruct (Z.eqb_spec (readopen (pi s)) 0) as [E|E]; simpl in H.
  { injection H as <- <-. split; [done|]. split; [done|]. right. split; [done | by left]. }
  destruct (nonzero (q_killed q)) eqn:Ek.
  { injection H as <- <-. split; [done|]. split; [done|]. right. split; [done | right; by apply nonzero_true]. }
  destruct (Z.eqb_spec (nwrite (pi s)) (u32 (nread (pi s) + PIPESIZE))) as [Ef|Ef].
  { apply bind_Ret in H as (u & s1 & [= _ <-] & [= <- <-]). done. }
  apply bind_Ret in H as ([v bs] & s1 & H1 & H). apply zoom_vms in H1 as (E1 & E2 & E3). simpl in H.
  destruct (v =? -1).
  - apply bind_Ret in H as (u & s2 & [= _ <-] & [= <- <-]). simpl. rewrite E1, E2, E3.
    split; [done|]. split; [done | by left].
  - apply bind_Ret in H as (u & s2 & [= _ <-] & [= <- <-]). simpl. by rewrite E1, E2, E3.
Qed.

Lemma wait_effect q s r s' :
  piperead_wait q s = Ret (r, s') → s' = s ∧
  match r with
  | Enter => True
  | Sleeps c => c = ChRead ∧ nread (pi s) = nwrite (pi s) ∧ writeopen (pi s) ≠ 0
  | Returns _ => True
  | _ => False
  end.
Proof.
  unfold piperead_wait. intros (p & s1 & [= <- <-] & H)%bind_Ret.
  destruct (Z.eqb_spec (nread (pi s)) (nwrite (pi s))) as [E|E]; simpl in H; [|by injection H as <- <-].
  destruct (nonzero (writeopen (pi s))) eqn:Ew; [|by injection H as <- <-].
  destruct (nonzero (q_killed q)); injection H as <- <-; [done|]. apply nonzero_true in Ew. done.
Qed.

Lemma read_effect q i s r s' :
  piperead_iter q i s = Ret (r, s') → holder s' = holder s ∧
  match r with
  | Again i' ch => i' = i + 1 ∧ nread (pi s) ≠ nwrite (pi s) ∧ ch = data (pi s) (nread (pi s) mod PIPESIZE) ∧
      pi s' = set_nread (u32 (nread (pi s) + 1)) (pi s) ∧ users s' = users s
  | Faults _ ch => nread (pi s) ≠ nwrite (pi s) ∧ ch = data (pi s) (nread (pi s) mod PIPESIZE) ∧
      pi s' = set_nread (u32 (nread (pi s) + 1)) (pi s) ∧ users s' = wake ChWrite <$> users s
  | Returns _ => pi s' = pi s ∧ users s' = wake ChWrite <$> users s
  | _ => False
  end.
Proof.
  unfold piperead_iter. intros (p & s1 & [= <- <-] & H)%bind_Ret.
  destruct (i <? q_n q).
  2: { apply bind_Ret in H as (u & s1 & [= _ <-] & [= <- <-]). done. }
  destruct (Z.eqb_spec (nread (pi s)) (nwrite (pi s))) as [E|E].
  { apply bind_Ret in H as (u & s1 & [= _ <-] & [= <- <-]). done. }
  apply bind_Ret in H as (u & s1 & [= _ <-] & H). apply bind_Ret in H as (v & s2 & H1 & H).
  apply zoom_vms in H1 as (E1 & E2 & E3). simpl in E1, E2, E3. destruct (v =? -1).
  - apply bind_Ret in H as (u' & s3 & [= _ <-] & [= <- <-]). simpl. by rewrite E1, E2, E3.
  - injection H as <- <-. by rewrite E1, E2, E3.
Qed.

Lemma close_effect a w s s' :
  pipeclose a w s = Ret (tt, s') → holder s' = holder s ∧
  pi s' = (if w then set_writeopen 0 else set_readopen 0) (pi s) ∧
  users s' = wake (if w then ChRead else ChWrite) <$> users s.
Proof.
  unfold pipeclose. intros (u & s1 & H1 & H)%bind_Ret.
  assert (E : s1 = set_users (fmap (wake (if w then ChRead else ChWrite)))
    (set_pi ((if w then set_writeopen 0 else set_readopen 0)) s)).
  { destruct w; apply bind_Ret in H1 as (v & s2 & [= _ <-] & [= _ <-]); done. }
  apply bind_Ret in H as (p & s2 & [= <- <-] & H). unfold when in H. destruct (_ && _).
  - apply zoom_vms in H as (-> & -> & ->). by rewrite E.
  - injection H as <-. by rewrite E.
Qed.

(** ** First in, first out *)

Lemma continue_pi k i r s : pi (continue k i r s) = pi s.
Proof. by destruct r. Qed.

Lemma pstep_queue s es s' :
  pstep s es s' → pipe_ok (pi s) →
  pipe_ok (pi s') ∧ queue (pi s) ++ puts es = gets_of es ++ queue (pi s').
Proof.
  intros Hs Hok. destruct Hs as [ | s k q i r s' _ _ _ _ H | s k q r s' _ _ _ _ H
    | s k q i r s' _ _ _ _ H | s a w s' _ H | | | ]; rewrite ?continue_pi; simpl; rewrite ?app_nil_r; try done.
  - apply write_effect in H as [_ H]. destruct r as [i' ch| | | |]; try done; simpl; rewrite ?app_nil_r.
    + destruct H as (_ & -> & Hf & _). by destruct (put_queue (pi s) ch Hok Hf) as [? ->].
    + by destruct H as (_ & _ & _ & -> & _).
    + by destruct H as [-> _].
  - by apply wait_effect in H as [-> _].
  - apply read_effect in H as [_ H]. destruct r as [i' ch| | | |]; try done; simpl; rewrite ?app_nil_r.
    + destruct H as (_ & Hne & -> & -> & _). by apply get_queue.
    + by destruct H as [-> _].
    + destruct H as (Hne & -> & -> & _). by apply get_queue.
  - apply close_effect in H as (_ & -> & _). by destruct w.
Qed.

Lemma prun_queue s es s' :
  prun s es s' → pipe_ok (pi s) → pipe_ok (pi s') ∧ queue (pi s) ++ puts es = gets_of es ++ queue (pi s').
Proof.
  intros Hr Hok. induction Hr as [s|s es s1 es' s2 _ IH Hs]; [by rewrite app_nil_r|].
  destruct (IH Hok) as [Hok1 E1]. destruct (pstep_queue _ _ _ Hs Hok1) as [Hok2 E2]. split; [done|].
  unfold puts, gets_of in *. rewrite !omap_app, app_assoc, E1, <- !app_assoc. f_equal. done.
Qed.

(** The pipe [pipealloc] makes. *)
Definition new_pipe (d : Z → Z) : pipe := Pipe d 0 0 1 1.

(** C31. A pipe is a bounded first-in first-out queue: however the loop iterations
    of readers and writers, closes, kills and changes of memory interleave, the
    bytes taken out of a new pipe followed by the bytes in its buffer are exactly
    the bytes put in, in order, and the buffer never holds more than [PIPESIZE];
    the counters wrap around at 32 bits. *)
Theorem pipe_fifo d v us es s :
  prun (PState v (new_pipe d) None us) es s →
  puts es = gets_of es ++ queue (pi s) ∧ Z.of_nat (length (queue (pi s))) ≤ PIPESIZE.
Proof.
  intros H. destruct (prun_queue _ _ _ H) as [Hok E]; [unfold pipe_ok, u32, PIPESIZE; simpl; lia|].
  split; [done|]. rewrite queue_length. destruct Hok as (_ & _ & Hb). unfold PIPESIZE in *. lia.
Qed.

(** ** No lost wakeups *)

(** Some process sleeps on a channel. *)
Definition asleep (us : list pproc) (c : pchan) : Prop := ∃ k q i, us !! k = Some q ∧ q_pc q = Asleep c i.

(** The call and position of the process that holds the lock. *)
Definition mode (s : pstate) : option (pcall * ppc) :=
  k ← holder s; q ← users s !! k; Some (q_call q, q_pc q).

(** A writer has been killed. *)
Definition killed_writer (us : list pproc) : Prop :=
  ∃ k q, us !! k = Some q ∧ q_call q = CWrite ∧ q_killed q ≠ 0.

(** Sleepers have a reason to sleep, or whoever holds the lock will wake them. *)
Record wake_inv (s : pstate) : Prop := WakeInv {
  wi_ok : pipe_ok (pi s);
  wi_writer : asleep (users s) ChWrite →
    (nwrite (pi s) = u32 (nread (pi s) + PIPESIZE) ∧ readopen (pi s) ≠ 0) ∨
    ∃ i, mode s = Some (CRead, AtLoop i);
  wi_reader : asleep (users s) ChRead →
    (nread (pi s) = nwrite (pi s) ∧ writeopen (pi s) ≠ 0) ∨
    (readopen (pi s) ≠ 0 ∧ ∃ i, mode s = Some (CWrite, AtLoop i));
}.

Lemma asleep_wake us c c' : asleep (wake c <$> us) c' → c' ≠ c ∧ asleep us c'.
Proof.
  intros (k & q & i & Hk & Hq). apply list_lookup_fmap_Some in Hk as (q0 & -> & Hk). unfold wake in Hq.
  destruct (q_pc q0) as [ | | | c0 i0 | | ] eqn:E; try by rewrite E in Hq.
  destruct (decide (c0 = c)); [done|]. rewrite E in Hq. injection Hq as -> ->. split; [done|]. by exists k, q0, i.
Qed.

(** Changing the position of one process. *)
Lemma asleep_insert us k q c :
  asleep (<[k := q]> us) c → (∃ i, q_pc q = Asleep c i) ∨ asleep us c.
Proof.
  intros (k' & q' & i & Hk & Hq). apply list_lookup_insert_Some in Hk as [(<- & <- & _)|[_ Hk]]; [by left; exists i|].
  right. by exists k', q', i.
Qed.

Definition pc_of (i : Z) (r : pnext) : ppc :=
  match r with
  | Again i' _ => AtLoop i' | Enter => AtLoop 0 | Sleeps c => Asleep c i | Returns v | Faults v _ => Returned v
  end.

Lemma continue_asleep k i r s c :
  asleep (users (continue k i r s)) c → pc_of i r = Asleep c i ∨ asleep (users s) c.
Proof.
  assert (H : ∀ pc, asleep (match users s !! k with Some q => <[k := set_pc pc q]> (users s) | None => users s end) c →
    (∃ i, pc = Asleep c i) ∨ asleep (users s) c).
  { intros pc. destruct (users s !! k); [|by right]. apply asleep_insert. }
  destruct r; simpl; intros [[j E]|Hs]%H; try done; try (by right). left. congruence.
Qed.

Lemma continue_mode k i r s q :
  holder s = Some k → users s !! k = Some q →
  mode (continue k i r s) = match r with
    | Again i' _ => Some (q_call q, AtLoop i') | Enter => Some (q_call q, AtLoop 0) | _ => None end.
Proof.
  intros Hh Hk. unfold mode. destruct r; simpl; try done; rewrite Hh; simpl; rewrite Hk;
    by rewrite list_lookup_insert_eq by (by eapply lookup_lt_Some).
Qed.

Lemma lookup_wake (us : list pproc) (k : nat) q c i :
  us !! k = Some q → q_pc q = AtLoop i → (wake c <$> us) !! k = Some q.
Proof. intros Hk Hq. rewrite list_lookup_fmap, Hk. simpl. unfold wake. by rewrite Hq. Qed.

Lemma mode_at s k q : holder s = Some k → users s !! k = Some q → mode s = Some (q_call q, q_pc q).
Proof. intros Hh Hk. unfold mode. rewrite Hh. simpl. by rewrite Hk. Qed.

Lemma write_wakes s k q i r s' :
  wake_inv s → holder s = Some k → users s !! k = Some q → q_call q = CWrite → q_pc q = AtLoop i →
  q_killed q = 0 → pipewrite_iter q i s = Ret (r, s') → wake_inv (continue k i r s').
Proof.
  intros [Hok Hw Hr] Hh Hk Hc Hp Hq H. pose proof (mode_at s k q Hh Hk) as Hm. rewrite Hc, Hp in Hm.
  assert (Hw' : asleep (users s) ChWrite → nwrite (pi s) = u32 (nread (pi s) + PIPESIZE) ∧ readopen (pi s) ≠ 0).
  { intros Ha. destruct (Hw Ha) as [|[j E]]; [done | congruence]. }
  apply write_effect in H as [Eh H]. split; rewrite continue_pi.
  - destruct r; try done; [|by destruct H as (_ & _ & _ & -> & _) | by destruct H as [-> _]].
    destruct H as (_ & -> & Hf & _). by apply put_queue.
  - intros [E|Ha]%continue_asleep.
    + destruct r; try done. injection E as ->. left. by destruct H as (_ & Hf & Ho & -> & _).
    + left. destruct r; try done.
      * destruct H as (_ & _ & Hf & _ & Eu). rewrite Eu in Ha. by destruct (Hw' Ha).
      * destruct H as (_ & Hf & Ho & -> & _). done.
      * destruct H as [-> [Eu|[Eu _]]]; rewrite Eu in Ha; [apply asleep_wake in Ha as [_ Ha]|]; auto.
  - intros [E|Ha]%continue_asleep; [destruct r; try done; simpl in E; destruct H; congruence|]. destruct r; try done.
    + destruct H as (-> & -> & _ & Ho & Eu). right. split; [done|]. eexists.
      erewrite (continue_mode _ _ _ _ q); [by rewrite Hc | by rewrite Eh | by rewrite Eu].
    + destruct H as (_ & _ & _ & _ & Eu). rewrite Eu in Ha. by apply asleep_wake in Ha as [].
    + destruct H as [-> [Eu|[Eu Hx]]]; rewrite Eu in Ha; [by apply asleep_wake in Ha as []|].
      left. destruct (Hr Ha) as [|[Ho _]]; [done|]. by destruct Hx.
Qed.

Lemma wait_wakes s k q r s' :
  wake_inv s → holder s = Some k → users s !! k = Some q → q_pc q = AtWait →
  piperead_wait q s = Ret (r, s') → wake_inv (continue k 0 r s').
Proof.
  intros [Hok Hw Hr] Hh Hk Hp H. pose proof (mode_at s k q Hh Hk) as Hm. rewrite Hp in Hm.
  apply wait_effect in H as [-> H]. split; rewrite ?continue_pi; [done| |].
  - intros [E|Ha]%continue_asleep; [destruct r; try done; simpl in E; destruct H; congruence|].
    destruct (Hw Ha) as [|[j E]]; [by left | congruence].
  - intros [E|Ha]%continue_asleep; [left; by destruct r; destruct H|].
    destruct (Hr Ha) as [|[_ [j E]]]; [by left | congruence].
Qed.

Lemma read_wakes s k q i r s' :
  wake_inv s → holder s = Some k → users s !! k = Some q → q_call q = CRead → q_pc q = AtLoop i →
  piperead_iter q i s = Ret (r, s') → wake_inv (continue k i r s').
Proof.
  intros [Hok Hw Hr] Hh Hk Hc Hp H. pose proof (mode_at s k q Hh Hk) as Hm. rewrite Hc, Hp in Hm.
  assert (Hr' : asleep (users s) ChRead → nread (pi s) = nwrite (pi s) ∧ writeopen (pi s) ≠ 0).
  { intros Ha. destruct (Hr Ha) as [|[_ [j E]]]; [done | congruence]. }
  apply read_effect in H as [Eh H]. split; rewrite continue_pi.
  - destruct r; try done.
    + destruct H as (_ & Hne & _ & -> & _). by apply get_queue.
    + by destruct H as [-> _].
    + destruct H as (Hne & _ & -> & _). by apply get_queue.
  - intros [E|Ha]%continue_asleep; [by destruct r|]. destruct r; try done.
    + destruct H as (-> & _ & _ & _ & Eu). right. eexists.
      erewrite (continue_mode _ _ _ _ q); [by rewrite Hc | by rewrite Eh | by rewrite Eu].
    + destruct H as [_ Eu]. rewrite Eu in Ha. by apply asleep_wake in Ha as [].
    + destruct H as (_ & _ & _ & Eu). rewrite Eu in Ha. by apply asleep_wake in Ha as [].
  - intros [E|Ha]%continue_asleep; [by destruct r|]. left. destruct r; try done.
    + destruct H as (_ & Hne & _ & _ & Eu). rewrite Eu in Ha. by destruct (Hr' Ha).
    + destruct H as [-> Eu]. rewrite Eu in Ha. apply asleep_wake in Ha as [_ Ha]. auto.
    + destruct H as (Hne & _ & _ & Eu). rewrite Eu in Ha. apply asleep_wake in Ha as [_ Ha]. by destruct (Hr' Ha).
Qed.

Lemma close_wakes s a w s' :
  wake_inv s → holder s = None → pipeclose a w s = Ret (tt, s') → wake_inv s'.
Proof.
  intros [Hok Hw Hr] Hh H. assert (Hm : mode s = None) by (unfold mode; by rewrite Hh).
  apply close_effect in H as (_ & Ep & Eu). split; rewrite ?Ep, ?Eu.
  - by destruct w.
  - intros [Hne Ha]%asleep_wake. destruct (Hw Ha) as [Hx|[j E]]; [|congruence]. left. by destruct w.
  - intros [Hne Ha]%asleep_wake. destruct (Hr Ha) as [Hx|[_ [j E]]]; [|congruence]. left. by destruct w.
Qed.

(** Steps that leave the pipe and the holder's position as they are. *)
Lemma wake_inv_users s us :
  wake_inv s → (∀ c, asleep us c → asleep (users s) c) →
  (∀ c i, mode s = Some (c, AtLoop i) → mode (set_users (λ _, us) s) = Some (c, AtLoop i)) →
  wake_inv (set_users (λ _, us) s).
Proof.
  intros [Hok Hw Hr] Ha Hm. split; simpl; [done| |].
  - intros H. destruct (Hw (Ha _ H)) as [|[i E]]; [by left | right; exists i; auto].
  - intros H. destruct (Hr (Ha _ H)) as [|[Ho [i E]]]; [by left | right; split; [done|]; exists i; auto].
Qed.

(** Processes stay, with their calls; a kill is not undone. *)
Definition extends (us us' : list pproc) : Prop :=
  ∀ k q, us !! k = Some q → ∃ q', us' !! k = Some q' ∧ q_call q' = q_call q ∧ (q_killed q ≠ 0 → q_killed q' ≠ 0).

Lemma extends_wake c us : extends us (wake c <$> us).
Proof.
  intros k q Hk. rewrite list_lookup_fmap, Hk. simpl. eexists. split; [done|]. unfold wake.
  destruct (q_pc q); try done. by destruct (decide _).
Qed.

Lemma extends_insert us k q q' :
  us !! k = Some q → q_call q' = q_call q → (q_killed q ≠ 0 → q_killed q' ≠ 0) → extends us (<[k := q']> us).
Proof.
  intros Hk H1 H2 k' q0 Hk'. destruct (decide (k' = k)) as [->|Hne].
  - rewrite list_lookup_insert_eq by (by eapply lookup_lt_Some). exists q'. by simplify_eq.
  - rewrite list_lookup_insert_ne by done. eauto.
Qed.

Lemma extends_trans us1 us2 us3 : extends us1 us2 → extends us2 us3 → extends us1 us3.
Proof.
  intros H1 H2 k q Hk. destruct (H1 k q Hk) as (q1 & Hk1 & Ec & Ek).
  destruct (H2 k q1 Hk1) as (q2 & Hk2 & Ec' & Ek'). exists q2. split; [done|]. split; [congruence | auto].
Qed.

Lemma extends_continue k i r s us : extends us (users s) → extends us (users (continue k i r s)).
Proof.
  intros H. apply (extends_trans _ _ _ H).
  assert (Hp : ∀ pc, extends (users s) (match users s !! k with Some q => <[k := set_pc pc q]> (users s) | None => users s end)).
  { intros pc. destruct (users s !! k) eqn:E; [by eapply extends_insert | intros k' q Hk'; eauto]. }
  destruct r; apply Hp.
Qed.

Lemma extends_refl us : extends us us.
Proof. intros k q Hk. eauto. Qed.

Lemma pstep_extends s es s' : pstep s es s' → extends (users s) (users s').
Proof.
  destruct 1 as [s k q c _ Hk _ | s k q i r s' _ _ _ _ H | s k q r s' _ _ _ _ H
    | s k q i r s' _ _ _ _ H | s a w s' _ H | s k q Hk | s q _ | s v ]; simpl.
  - by apply (extends_insert _ _ q).
  - apply extends_continue. apply write_effect in H as [_ H].
    destruct r; try done; [by destruct H as (_ & _ & _ & _ & ->); apply extends_refl | | ].
    + destruct H as (_ & _ & _ & _ & ->). apply extends_wake.
    + destruct H as [_ [->|[-> _]]]; [apply extends_wake | apply extends_refl].
  - apply wait_effect in H as [-> _]. apply extends_continue, extends_refl.
  - apply extends_continue. apply read_effect in H as [_ H].
    destruct r; try done; [by destruct H as (_ & _ & _ & _ & ->); apply extends_refl | | ].
    + destruct H as [_ ->]. apply extends_wake.
    + destruct H as (_ & _ & _ & ->). apply extends_wake.
  - apply close_effect in H as (_ & _ & ->). apply extends_wake.
  - apply (extends_insert _ _ q); [done | |]; unfold kill_user; by destruct (q_pc q).
  - intros k q' Hk. exists q'. split; [by apply lookup_app_l_Some | done].
  - apply extends_refl.
Qed.

Lemma killed_writer_extends us us' : extends us us' → killed_writer us → killed_writer us'.
Proof.
  intros H (k & q & Hk & Hc & Hq). destruct (H k q Hk) as (q' & Hk' & Ec & Ek). exists k, q'.
  split; [done|]. split; [congruence | auto].
Qed.

Lemma pstep_wakes s es s' :
  pstep s es s' → wake_inv s → ¬ killed_writer (users s) → wake_inv s'.
Proof.
  intros Hs I Hnk. destruct Hs as [s k q c Hh Hk Hc | s k q i r s' Hh Hk Hc Hp H | s k q r s' Hh Hk Hc Hp H
    | s k q i r s' Hh Hk Hc Hp H | s a w s' Hh H | s k q Hk | s q Hq | s v ].
  - destruct I as [Hok Hw Hr]. assert (Hm : mode s = None) by (unfold mode; by rewrite Hh).
    assert (Hn : ∀ c', asleep (<[k := set_pc c q]> (users s)) c' → asleep (users s) c').
    { intros c' [[j E]|]%asleep_insert; [|done]. unfold resume in Hc. simpl in E. destruct (q_call q), (q_pc q); congruence. }
    split; simpl; [done| |].
    + intros Ha%Hn. destruct (Hw Ha) as [|[j E]]; [by left | congruence].
    + intros Ha%Hn. destruct (Hr Ha) as [|[_ [j E]]]; [by left | congruence].
  - apply (write_wakes s k q); try done. destruct (decide (q_killed q = 0)) as [|Hx]; [done|].
    destruct Hnk. by exists k, q.
  - by apply (wait_wakes s k q).
  - by apply (read_wakes s k q).
  - by apply (close_wakes s a w).
  - apply (wake_inv_users s); [done| |].
    + intros c [[i E]|]%asleep_insert; [|done]. unfold kill_user in E. destruct (q_pc q) eqn:Eq; try by simpl in E; rewrite Eq in E.
      simpl in E. congruence.
    + intros c i Hm. unfold mode in *. cbn [set_users holder users] in *. destruct (holder s) as [k'|]; simpl in *; [|done].
      destruct (decide (k' = k)) as [->|Hne]; [|by rewrite list_lookup_insert_ne].
      rewrite Hk in Hm. rewrite list_lookup_insert_eq by (by eapply lookup_lt_Some). simpl in *.
      injection Hm as <- Hm. unfold kill_user. rewrite Hm. simpl. by rewrite Hm.
  - apply (wake_inv_users s); [done| |].
    + intros c (k & q' & i & Hk & E). apply lookup_app_Some in Hk as [Hk|[_ Hk]]; [by exists k, q', i|].
      apply list_lookup_singleton_Some in Hk as [_ <-]. congruence.
    + intros c i Hm. unfold mode in *. cbn [set_users holder users] in *. destruct (holder s) as [k'|]; simpl in *; [|done].
      destruct (users s !! k') as [q'|] eqn:E; [|done]. by rewrite (lookup_app_l_Some _ _ _ _ E).
  - by destruct I as [Hok Hw Hr].
Qed.

Lemma prun_wakes s es s' :
  prun s es s' → wake_inv s → ¬ killed_writer (users s') → wake_inv s'.
Proof.
  intros Hr I. induction Hr as [s|s es s1 es' s2 _ IH Hs]; [done|]. intros Hnk.
  assert (¬ killed_writer (users s1)) by (intros H; eapply Hnk, killed_writer_extends; [by eapply pstep_extends | done]).
  eapply pstep_wakes; eauto.
Qed.

(** C32. No wakeup is lost: in every run in which no writing process has been
    killed, whenever the lock is free a sleeping reader means an empty pipe that
    can still be written, and a sleeping writer a full pipe that can still be
    read; so readers and writers never sleep at the same time. *)
Theorem pipe_no_lost_wakeup d v us es s :
  (∀ q, q ∈ us → q_pc q = AtEntry) →
  prun (PState v (new_pipe d) None us) es s → ¬ killed_writer (users s) → holder s = None →
  (asleep (users s) ChRead → queue (pi s) = [] ∧ writeopen (pi s) ≠ 0) ∧
  (asleep (users s) ChWrite → Z.of_nat (length (queue (pi s))) = PIPESIZE ∧ readopen (pi s) ≠ 0) ∧
  ¬ (asleep (users s) ChRead ∧ asleep (users s) ChWrite).
Proof.
  intros Hus Hr Hnk Hh.
  assert (Hn : ∀ c, ¬ asleep us c).
  { intros c (k & q & i & Hk & E). rewrite Hus in E; [done|]. by eapply list_elem_of_lookup_2. }
  destruct (prun_wakes _ _ _ Hr) as [Hok Hw Hrd]; [|done|].
  { split; simpl; [unfold pipe_ok, u32, PIPESIZE; simpl; lia | by intros ?%Hn | by intros ?%Hn]. }
  assert (Hm : mode s = None) by (unfold mode; by rewrite Hh).
  assert (H1 : asleep (users s) ChRead → queue (pi s) = [] ∧ writeopen (pi s) ≠ 0).
  { intros Ha. destruct (Hrd Ha) as [[He Ho]|[_ [j E]]]; [|congruence]. split; [by apply empty_iff | done]. }
  assert (H2 : asleep (users s) ChWrite → Z.of_nat (length (queue (pi s))) = PIPESIZE ∧ readopen (pi s) ≠ 0).
  { intros Ha. destruct (Hw Ha) as [[He Ho]|[j E]]; [|congruence]. split; [|done].
    rewrite queue_length. apply full_iff in He; [|done]. rewrite He. done. }
  split; [done|]. split; [done|]. intros [[E _]%H1 [E' _]%H2]. by rewrite E in E'.
Qed.
End Pipe.

(** ** Concrete runs *)

#[local] Existing Instance small.

(** Every word of this memory is a valid user entry: any address can be read. *)
Definition flat : kstate := KState (λ _, 17) 0 (λ _, 0).
Definition reader : pproc := PProc CRead 0 0 1 0 AtEntry.
Definition writer : pproc := PProc CWrite 0 0 2 0 AtEntry.
Definition start : pstate := PState flat (new_pipe (λ _, 0)) None [reader; writer].

(** The reader finds the pipe empty and sleeps; the writer puts one byte. *)
Definition slept : pstate := PState flat (new_pipe (λ _, 0)) None [set_pc (Asleep ChRead 0) reader; writer].
Definition wrote (k : Z) : pstate :=
  PState flat (put 17 (new_pipe (λ _, 0))) (Some 1%nat)
    [set_pc (Asleep ChRead 0) reader; set_pc (AtLoop 1) (set_qkilled k writer)].

Definition waiting : pstate := PState flat (new_pipe (λ _, 0)) (Some 0%nat) [set_pc AtWait reader; writer].
Definition writing (p : pipe) : pstate :=
  PState flat p (Some 1%nat) [set_pc (Asleep ChRead 0) reader; set_pc (AtLoop 0) writer].

Lemma slept_run : prun start [] slept.
Proof.
  apply (prun_step _ [] waiting []).
  - apply (prun_step _ [] start []); [apply prun_nil|].
    exact (p_acquire start 0 reader AtWait eq_refl eq_refl eq_refl).
  - exact (p_wait waiting 0 (set_pc AtWait reader) (Sleeps ChRead) waiting eq_refl eq_refl eq_refl eq_refl eq_refl).
Qed.

Lemma wrote_run : prun start [Put 17] (wrote 0).
Proof.
  apply (prun_step _ [] (writing (new_pipe (λ _, 0))) [Put 17]).
  - apply (prun_step _ [] slept []); [apply slept_run|].
    exact (p_acquire slept 1 writer (AtLoop 0) eq_refl eq_refl eq_refl).
  - exact (p_write (writing (new_pipe (λ _, 0))) 1 (set_pc (AtLoop 0) writer) 0 (Again 1 17)
      (writing (put 17 (new_pipe (λ _, 0)))) eq_refl eq_refl eq_refl eq_refl eq_refl).
Qed.

Lemma pipe_fifo_witness : puts [Put 17] = gets_of [Put 17] ++ queue (pi (wrote 0)).
Proof. exact (proj1 (pipe_fifo (λ _, 0) flat [reader; writer] [Put 17] (wrote 0) wrote_run)). Defined.

Lemma pipe_no_lost_wakeup_witness : queue (pi slept) = [] ∧ writeopen (pi slept) ≠ 0.
Proof.
  apply (pipe_no_lost_wakeup (λ _, 0) flat [reader; writer] [] slept).
  - by intros q [->|[->|[]%elem_of_nil]%elem_of_cons]%elem_of_cons.
  - exact slept_run.
  - intros (k & q & Hk & Hc & Hq). destruct k as [|[|k]]; simpl in Hk; simplify_eq; done.
  - done.
  - exists 0%nat, (set_pc (Asleep ChRead 0) reader), 0. done.
Defined.

(** A killed writer can strand a reader: [pipewrite] returns -1 without waking
    readers when it finds itself killed, even after it has put bytes into the
    pipe; this run ends with a reader asleep on a pipe that has a byte in it, the
    lock free and the write end open. *)
Theorem pipe_killed_writer_strands_reader :
  ∃ es s, prun start es s ∧ holder s = None ∧ asleep (users s) ChRead ∧ queue (pi s) = [17] ∧
    writeopen (pi s) ≠ 0 ∧ Forall (λ q, q_call q = CWrite → q_pc q = Returned (-1)) (users s).
Proof.
  set (s3 := PState flat (put 17 (new_pipe (λ _, 0))) None
    [set_pc (Asleep ChRead 0) reader; set_pc (Returned (-1)) (set_qkilled 1 writer)]).
  exists ([Put 17] ++ [] ++ []), s3. split; [|split; [done|]; split; [|split; [reflexivity|]; split; [done|]]].
  - rewrite app_assoc. apply (prun_step _ _ (wrote 1) []).
    + apply (prun_step _ _ (wrote 0) []); [apply wrote_run|].
      exact (p_kill (wrote 0) 1 (set_pc (AtLoop 1) writer) eq_refl).
    + exact (p_write (wrote 1) 1 (set_pc (AtLoop 1) (set_qkilled 1 writer)) 1 (Returns (-1)) (wrote 1)
        eq_refl eq_refl eq_refl eq_refl eq_refl).
  - exists 0%nat, (set_pc (Asleep ChRead 0) reader), 0. done.
  - repeat constructor; done.
Qed.
