(* ===== verification/Bio.v ===== *)
(** * Buffer cache and disk (kernel/bio.c, kernel/buf.h, kernel/sleeplock.c)

    Buffers are the slots [0 .. NBUF-1] of the array, linked through [next] and
    [prev] into a circular list whose head is the extra slot [NBUF].  The disk
    is the array of blocks the driver reads and writes, one block at a time;
    the sequence of block writes is kept for crash reasoning.  A block is its
    bytes, as a function of the offset. *)

From stdpp Require Import base numbers list strings.
From S2P Require Import Prelude Layout.
Local Open Scope Z_scope.

Definition BSIZE : Z := 1024.
Definition bdata : Type := Z → Z.

(** [struct sleeplock] without its debugging name; the inner spinlock makes each
    operation atomic. *)
Record sleeplock : Type := SleepLock { sl_locked : Z; sl_pid : Z }.

Record buf : Type := Buf {
  b_valid : Z;
  b_dev : Z;
  b_blockno : Z;
  b_lock : sleeplock;
  b_refcnt : Z;
  b_data : bdata;
}.

Definition set_valid (v : Z) (b : buf) : buf :=
  Buf v (b_dev b) (b_blockno b) (b_lock b) (b_refcnt b) (b_data b).
Definition set_lock (v : sleeplock) (b : buf) : buf :=
  Buf (b_valid b) (b_dev b) (b_blockno b) v (b_refcnt b) (b_data b).
Definition set_refcnt (v : Z) (b : buf) : buf :=
  Buf (b_valid b) (b_dev b) (b_blockno b) (b_lock b) v (b_data b).
Definition set_data (v : bdata) (b : buf) : buf :=
  Buf (b_valid b) (b_dev b) (b_blockno b) (b_lock b) (b_refcnt b) v.

(** A buffer of the bss-cleared cache. *)
Definition buf_zero : buf := Buf 0 0 0 (SleepLock 0 0) 0 (λ _, 0).

(** The cache, the disk, and the process that runs (for sleep locks). *)
Record bstate : Type := BState {
  bufs : nat → buf;
  next : nat → nat;
  prev : nat → nat;
  disk : Z → bdata;
  wtrace : list (Z * bdata);
  curpid : Z;
}.

Definition nupd {A} (f : nat → A) (k : nat) (v : A) : nat → A :=
  λ i, if (i =? k)%nat then v else f i.

Definition set_buf (i : nat) (b : buf) (s : bstate) : bstate :=
  BState (nupd (bufs s) i b) (next s) (prev s) (disk s) (wtrace s) (curpid s).
Definition set_next (i j : nat) (s : bstate) : bstate :=
  BState (bufs s) (nupd (next s) i j) (prev s) (disk s) (wtrace s) (curpid s).
Definition set_prev (i j : nat) (s : bstate) : bstate :=
  BState (bufs s) (next s) (nupd (prev s) i j) (disk s) (wtrace s) (curpid s).
Definition disk_write (blockno : Z) (d : bdata) (s : bstate) : bstate :=
  BState (bufs s) (next s) (prev s) (upd (disk s) blockno d) (wtrace s ++ [(blockno, d)]) (curpid s).

Definition nbuf : nat := Z.to_nat NBUF.
(** [&bcache.head]. *)
Definition head : nat := nbuf.

(** ** Sleep locks *)

(** A locked lock makes the caller sleep. *)
Definition acquiresleep (i : nat) : M bstate unit :=
  b ← gets (λ s, bufs s i);
  if nonzero (sl_locked (b_lock b)) then block "sleeplock"
  else pid ← gets curpid; modify (set_buf i (set_lock (SleepLock 1 pid) b)).

Definition releasesleep (i : nat) : M bstate unit :=
  b ← gets (λ s, bufs s i); modify (set_buf i (set_lock (SleepLock 0 0) b)).

Definition holdingsleep (i : nat) : M bstate bool :=
  b ← gets (λ s, bufs s i);
  pid ← gets curpid;
  mret (nonzero (sl_locked (b_lock b)) && (sl_pid (b_lock b) =? pid)).

(** ** The list of buffers *)

(** [b->next = head.next; b->prev = &head; head.next->prev = b; head.next = b]. *)
Definition link_front (b : nat) : M bstate unit :=
  h ← gets (λ s, next s head);
  modify (set_next b h);;
  modify (set_prev b head);;
  h ← gets (λ s, next s head);
  modify (set_prev h b);;
  modify (set_next head b).

(** [b->next->prev = b->prev; b->prev->next = b->next]. *)
Definition unlink (b : nat) : M bstate unit :=
  n ← gets (λ s, next s b);
  p ← gets (λ s, prev s b);
  modify (set_prev n p);;
  p ← gets (λ s, prev s b);
  n ← gets (λ s, next s b);
  modify (set_next p n).

Fixpoint binit_loop (n : nat) (b : nat) : M bstate unit :=
  match n with
  | O => mret tt
  | S n' =>
      link_front b;;
      x ← gets (λ s, bufs s b);
      modify (set_buf b (set_lock (SleepLock 0 0) x));;
      binit_loop n' (S b)
  end.

Definition binit : M bstate unit :=
  modify (set_prev head head);;
  modify (set_next head head);;
  binit_loop nbuf 0.

(** ** Operations on buffers *)

(** Is the block already cached?  From the most recently used on. *)
Fixpoint bget_cached (fuel : nat) (b : nat) (dev blockno : Z) : M bstate (option nat) :=
  if (b =? head)%nat then mret None
  else
    match fuel with
    | O => diverge
    | S f =>
        x ← gets (λ s, bufs s b);
        if (b_dev x =? dev) && (b_blockno x =? blockno) then mret (Some b)
        else n ← gets (λ s, next s b); bget_cached f n dev blockno
    end.

(** The least recently used unused buffer. *)
Fixpoint bget_unused (fuel : nat) (b : nat) : M bstate (option nat) :=
  if (b =? head)%nat then mret None
  else
    match fuel with
    | O => diverge
    | S f =>
        x ← gets (λ s, bufs s b);
        if b_refcnt x =? 0 then mret (Some b)
        else p ← gets (λ s, prev s b); bget_unused f p
    end.

Definition bget (dev blockno : Z) : M bstate nat :=
  first ← gets (λ s, next s head);
  r ← bget_cached nbuf first dev blockno;
  match r with
  | Some b =>
      x ← gets (λ s, bufs s b);
      modify (set_buf b (set_refcnt (u32 (b_refcnt x + 1)) x));;
      acquiresleep b;; mret b
  | None =>
      last ← gets (λ s, prev s head);
      r ← bget_unused nbuf last;
      match r with
      | Some b =>
          x ← gets (λ s, bufs s b);
          modify (set_buf b (Buf 0 dev blockno (b_lock x) 1 (b_data x)));;
          acquiresleep b;; mret b
      | None => panic "bget: no buffers"
      end
  end.

(** virtio_disk.c: transfer one block; the driver sleeps until it is done. *)
Definition virtio_disk_rw (b : nat) (write : bool) : M bstate unit :=
  x ← gets (λ s, bufs s b);
  if write then modify (disk_write (b_blockno x) (b_data x))
  else d ← gets (λ s, disk s (b_blockno x)); modify (set_buf b (set_data d x)).

Definition bread (dev blockno : Z) : M bstate nat :=
  b ← bget dev blockno;
  x ← gets (λ s, bufs s b);
  (if b_valid x =? 0 then
     virtio_disk_rw b false;;
     y ← gets (λ s, bufs s b); modify (set_buf b (set_valid 1 y))
   else mret tt);;
  mret b.

Definition bwrite (b : nat) : M bstate unit :=
  h ← holdingsleep b;
  if negb h then panic "bwrite" else virtio_disk_rw b true.

Definition brelse (b : nat) : M bstate unit :=
  h ← holdingsleep b;
  if negb h then panic "brelse"
  else
    releasesleep b;;
    x ← gets (λ s, bufs s b);
    modify (set_buf b (set_refcnt (u32 (b_refcnt x - 1)) x));;
    y ← gets (λ s, bufs s b);
    when (b_refcnt y =? 0) (unlink b;; link_front b).

Definition bpin (b : nat) : M bstate unit :=
  x ← gets (λ s, bufs s b); modify (set_buf b (set_refcnt (u32 (b_refcnt x + 1)) x)).

Definition bunpin (b : nat) : M bstate unit :=
  x ← gets (λ s, bufs s b); modify (set_buf b (set_refcnt (u32 (b_refcnt x - 1)) x)).

(** Changing the bytes of a buffer, as its holder does. *)
Definition bmodify (b : nat) (f : bdata → bdata) : M bstate unit :=
  x ← gets (λ s, bufs s b); modify (set_buf b (set_data (f (b_data x)) x)).
