(* ===== verification/BioProofs.v ===== *)
(** * Correctness of the buffer cache (kernel/bio.c)

    The pointers form the list of recently used buffers, at most one buffer
    holds a block, and reading through the cache gives the logical contents of
    the disk. *)

From stdpp Require Import base numbers list strings sorting.
From S2P Require Import Prelude Layout Bio.
Local Open Scope Z_scope.

(** ** Pointers *)

Lemma nupd_eq {A} (f : nat → A) k v : nupd f k v k = v.
Proof. unfold nupd. by rewrite Nat.eqb_refl. Qed.

Lemma nupd_ne {A} (f : nat → A) k v i : i ≠ k → nupd f k v i = f i.
Proof. intros H. unfold nupd. by rewrite (proj2 (Nat.eqb_neq i k)). Qed.

(** From [a] through the nodes of [l] to [z], linked in both directions. *)
Fixpoint seg (nx pv : nat → nat) (a : nat) (l : list nat) (z : nat) : Prop :=
  match l with
  | [] => nx a = z ∧ pv z = a
  | b :: l' => nx a = b ∧ pv b = a ∧ seg nx pv b l' z
  end.

Lemma seg_app nx pv a l1 b l2 z :
  seg nx pv a (l1 ++ b :: l2) z ↔ seg nx pv a l1 b ∧ seg nx pv b l2 z.
Proof.
  revert a. induction l1 as [|c l1 IH]; intros a; simpl; [tauto|]. rewrite IH. tauto.
Qed.

(** A segment depends on the [next] of its sources and the [prev] of its targets. *)
Lemma seg_ext nx pv nx' pv' a l z :
  (∀ x, x = a ∨ x ∈ l → nx' x = nx x) → (∀ x, x = z ∨ x ∈ l → pv' x = pv x) →
  seg nx pv a l z → seg nx' pv' a l z.
Proof.
  revert a. induction l as [|b l IH]; intros a Hn Hp; simpl.
  - intros [E1 E2]. rewrite Hn, Hp by (by left). done.
  - intros (E1 & E2 & Hs). rewrite Hn by (by left). rewrite Hp by (right; by left).
    split; [done|]. split; [done|]. apply IH; [| |done].
    + intros x [->|Hx]; apply Hn; right; [by left | by right].
    + intros x [->|Hx]; apply Hp; [by left | right; by right].
Qed.

(** The nodes after [a], and before [z]. *)
Lemma seg_first nx pv a l z : seg nx pv a l z → nx a = List.hd z l.
Proof. destruct l; simpl; [by intros [-> _] | by intros [-> _]]. Qed.

Lemma seg_rev nx pv a l z : seg nx pv a l z → seg pv nx z (rev l) a.
Proof.
  revert a. induction l as [|b l IH]; intros a; simpl; [tauto|].
  intros (E1 & E2 & Hs). apply seg_app. split; [by apply IH | done].
Qed.

Lemma seg_next_in nx pv a l z : seg nx pv a l z → nx a ∈ l ++ [z].
Proof.
  intros Hs. rewrite (seg_first _ _ _ _ _ Hs). destruct l; simpl; by left.
Qed.

Lemma seg_prev_in nx pv a l z : seg nx pv a l z → pv z ∈ a :: l.
Proof.
  intros Hs%seg_rev%seg_next_in. apply elem_of_app in Hs as [Hs|Hs].
  - right. apply list_elem_of_In, in_rev, list_elem_of_In. done.
  - apply list_elem_of_singleton in Hs as ->. by left.
Qed.

Definition lru (s : bstate) (l : list nat) : Prop :=
  seg (next s) (prev s) head l head ∧ NoDup (head :: l).

(** The list part of the state changed, nothing else. *)
Definition relinked (s s' : bstate) : Prop :=
  s' = BState (bufs s) (next s') (prev s') (disk s) (wtrace s) (curpid s).

Lemma link_front_wp s l b :
  lru s l → (b ∉ head :: l) →
  wp (link_front b) s (λ _ s', lru s' (b :: l) ∧ relinked s s').
Proof.
  intros [Hs Hn] Hb. apply not_elem_of_cons in Hb as [Hbh Hbl]. unfold link_front. wp_steps.
  rewrite nupd_ne by done. apply NoDup_cons in Hn as [Hh Hn]. split; [|done]. split; simpl.
  2: { rewrite !NoDup_cons, not_elem_of_cons. done. }
  rewrite nupd_eq. split; [done|]. destruct l as [|c l]; simpl in Hs |- *.
  - destruct Hs as [E1 E2]. rewrite E1. rewrite (nupd_ne _ head b b), !nupd_eq, nupd_ne, nupd_eq by done. done.
  - destruct Hs as (E1 & E2 & Hs). rewrite E1.
    apply not_elem_of_cons in Hbl as [Hbc Hbl]. apply not_elem_of_cons in Hh as [Hhc Hh].
    apply NoDup_cons in Hn as [Hc Hn].
    rewrite (nupd_ne _ c b b), (nupd_ne _ head b b), !nupd_eq by done. split; [done|]. split; [done|].
    split; [done|]. eapply seg_ext; [| |exact Hs].
    + intros x Hx. rewrite !nupd_ne; [done|..]; intros ->; destruct Hx as [?|?]; done.
    + intros x Hx. rewrite !nupd_ne; [done|..]; intros ->; destruct Hx as [?|?]; done.
Qed.

(** Taking a node out of a segment. *)
Lemma seg_remove nx pv a l1 b l2 z :
  seg nx pv a (l1 ++ b :: l2) z → NoDup (a :: l1 ++ b :: l2) → NoDup (l1 ++ b :: l2 ++ [z]) →
  seg (nupd nx (pv b) (nx b)) (nupd pv (nx b) (pv b)) a (l1 ++ l2) z.
Proof.
  revert a. induction l1 as [|c l1 IH]; intros a Hs Hn Hz; simpl in *.
  - destruct Hs as (E1 & E2 & Hs). rewrite E2.
    apply NoDup_cons in Hn as [Ha Hn]. apply not_elem_of_cons in Ha as [_ Ha].
    apply NoDup_cons in Hz as [_ Hz]. destruct l2 as [|d l2]; simpl in Hs |- *.
    + destruct Hs as [E3 E4]. by rewrite E3, !nupd_eq.
    + destruct Hs as (E3 & E4 & Hs). rewrite E3, !nupd_eq. split; [done|]. split; [done|].
      apply NoDup_cons in Hz as [Hd _]. apply not_elem_of_app in Hd as [Hd Hdz].
      eapply seg_ext; [| |exact Hs].
      * intros x Hx. rewrite nupd_ne; [done|]. intros ->. apply Ha.
        destruct Hx as [->|?]; [by left | by right].
      * intros x Hx. rewrite nupd_ne; [done|]. intros ->.
        destruct Hx as [->|?]; [apply Hdz; by left | done].
  - destruct Hs as (E1 & E2 & Hs). apply NoDup_cons in Hn as [Ha Hn]. apply NoDup_cons in Hz as [Hc Hz].
    pose proof Hs as [Hs1 Hs2]%seg_app.
    apply seg_prev_in in Hs1. apply seg_next_in in Hs2.
    rewrite !nupd_ne; [split; [done|]; split; [done|]; by apply IH|..].
    + intros E. apply Hc, elem_of_app. right. right. by rewrite E.
    + intros E. apply Ha. rewrite E. change (pv b ∈ (c :: l1) ++ b :: l2). apply elem_of_app. by left.
Qed.

Lemma unlink_wp s l1 b l2 :
  lru s (l1 ++ b :: l2) →
  wp (unlink b) s (λ _ s', lru s' (l1 ++ l2) ∧ relinked s s').
Proof.
  intros [Hs Hn]. unfold unlink. wp_steps.
  assert (Hne : prev s b ≠ b ∧ next s b ≠ b).
  { pose proof Hs as [Hs1 Hs2]%seg_app. apply seg_prev_in in Hs1. apply seg_next_in in Hs2.
    apply NoDup_cons in Hn as [Hh Hn]. apply NoDup_app in Hn as (_ & Hd & Hn).
    apply NoDup_cons in Hn as [Hb _].
    split; intros E; rewrite E in *.
    - apply list_elem_of_In in Hs1. destruct Hs1 as [<-|Hb1].
      + apply Hh, elem_of_app. right. by left.
      + apply (Hd b); [by apply list_elem_of_In | by left].
    - apply elem_of_app in Hs2 as [Hs2|Hs2]; [done|]. apply list_elem_of_singleton in Hs2.
      apply Hh, elem_of_app. right. rewrite Hs2. by left. }
  destruct Hne as [Hp Hx]. rewrite nupd_ne by congruence.
  split; [|done]. split; simpl.
  - apply seg_remove; [done | done|]. apply NoDup_cons in Hn as [Hh Hn].
    change (b :: l2 ++ [head]) with ((b :: l2) ++ [head]). rewrite app_assoc.
    apply NoDup_app. split; [done|]. split; [|apply NoDup_singleton].
    intros x Hxl ->%list_elem_of_singleton. done.
  - apply NoDup_cons in Hn as [Hh Hn]. apply NoDup_cons. rewrite elem_of_app in *.
    split; [intros [?|?]; apply Hh; [by left | right; by right]|].
    apply NoDup_app in Hn as (H1 & H2 & H3). apply NoDup_cons in H3 as [_ H3].
    apply NoDup_app. split; [done|]. split; [|done]. intros x H1x H2x. apply (H2 x H1x). by right.
Qed.

(** ** The invariant of the cache *)

Definition is_block (s : bstate) (dev blockno : Z) (i : nat) : bool :=
  (b_dev (bufs s i) =? dev) && (b_blockno (bufs s i) =? blockno).

Record binv (s : bstate) (l : list nat) : Prop := BInv {
  bi_lru : lru s l;
  bi_all : ∀ i, i ∈ l ↔ (i < nbuf)%nat;
  (** At most one buffer per block; device 0 marks a buffer never used. *)
  bi_uniq : ∀ i j, i ∈ l → j ∈ l → b_dev (bufs s i) ≠ 0 →
    is_block s (b_dev (bufs s i)) (b_blockno (bufs s i)) j = true → i = j;
  bi_ref : ∀ i, i ∈ l → 0 ≤ b_refcnt (bufs s i) < 2 ^ 32;
  (** Who holds the lock holds a reference. *)
  bi_lock : ∀ i, i ∈ l → sl_locked (b_lock (bufs s i)) ≠ 0 → 0 < b_refcnt (bufs s i);
}.

Lemma is_block_true s dev blockno i :
  is_block s dev blockno i = true ↔ b_dev (bufs s i) = dev ∧ b_blockno (bufs s i) = blockno.
Proof. unfold is_block. by rewrite andb_true_iff, !Z.eqb_eq. Qed.

Lemma nupd_nupd {A} (f : nat → A) k v w : nupd (nupd f k v) k w = nupd f k w.
Proof.
  apply FunctionalExtensionality.functional_extensionality. intros i. unfold nupd.
  by destruct (i =? k)%nat.
Qed.

Lemma set_buf_set_buf i x y s : set_buf i y (set_buf i x s) = set_buf i y s.
Proof. unfold set_buf. simpl. by rewrite nupd_nupd. Qed.

Lemma bufs_set_eq i x s : bufs (set_buf i x s) i = x.
Proof. apply nupd_eq. Qed.

Lemma bufs_set_ne i j x s : j ≠ i → bufs (set_buf i x s) j = bufs s j.
Proof. apply nupd_ne. Qed.

(** Changing one buffer. *)
Lemma binv_set s l b y :
  binv s l → b ∈ l →
  (b_dev y ≠ 0 → ∀ i, i ∈ l → i ≠ b → is_block s (b_dev y) (b_blockno y) i = false) →
  0 ≤ b_refcnt y < 2 ^ 32 → (sl_locked (b_lock y) ≠ 0 → 0 < b_refcnt y) →
  binv (set_buf b y s) l.
Proof.
  intros [H1 H2 H3 H4 H5] Hb Hu Hr Hl. split; [done | done | | |].
  - intros i j Hi Hj Hd Hij. apply is_block_true in Hij. destruct (decide (i = b)) as [->|Hib].
    + rewrite bufs_set_eq in Hd, Hij. destruct (decide (j = b)) as [|Hjb]; [done|].
      rewrite bufs_set_ne in Hij by done. specialize (Hu Hd j Hj Hjb).
      by rewrite (proj2 (is_block_true _ _ _ _) Hij) in Hu.
    + rewrite (bufs_set_ne b i) in Hd, Hij by done. destruct (decide (j = b)) as [->|Hjb].
      * rewrite bufs_set_eq in Hij. destruct Hij as [E1 E2]. rewrite <- E1 in Hd.
        specialize (Hu Hd i Hi Hib). rewrite (proj2 (is_block_true _ _ _ _)) in Hu; done.
      * rewrite bufs_set_ne in Hij by done. apply H3; [done..|]. by apply is_block_true.
  - intros i Hi. destruct (decide (i = b)) as [->|Hib]; [by rewrite bufs_set_eq|].
    rewrite bufs_set_ne by done. auto.
  - intros i Hi. destruct (decide (i = b)) as [->|Hib]; [by rewrite bufs_set_eq|].
    rewrite bufs_set_ne by done. auto.
Qed.

(** The same buffer for the same block: only references, lock, data change. *)
Lemma binv_same s l b y :
  binv s l → b ∈ l → b_dev y = b_dev (bufs s b) → b_blockno y = b_blockno (bufs s b) →
  0 ≤ b_refcnt y < 2 ^ 32 → (sl_locked (b_lock y) ≠ 0 → 0 < b_refcnt y) →
  binv (set_buf b y s) l.
Proof.
  intros Hi Hb E1 E2 Hr Hl. apply binv_set; [done..| |done|done].
  rewrite E1, E2. intros Hd i Hil Hne. destruct (is_block _ _ _ i) eqn:E; [|done].
  destruct Hne. symmetry. by apply (bi_uniq _ _ Hi b i).
Qed.

(** ** The loops of [bget] *)

Lemma bget_cached_wp s fuel l a dev blockno :
  seg (next s) (prev s) a l head → (head ∉ l) → (length l ≤ fuel)%nat →
  wp (bget_cached fuel (next s a) dev blockno) s (λ r s', s' = s ∧ r = List.find (is_block s dev blockno) l).
Proof.
  revert fuel a. induction l as [|b l IH]; intros fuel a Hs Hh Hf.
  - destruct Hs as [-> _]. destruct fuel; cbn [bget_cached]; rewrite Nat.eqb_refl; by apply wp_ret.
  - destruct Hs as (-> & _ & Hs). simpl in Hf. destruct fuel as [|fuel]; [lia|]. cbn [bget_cached List.find].
    apply not_elem_of_cons in Hh as [Hb Hh]. rewrite (proj2 (Nat.eqb_neq b head)) by done.
    apply wp_bind, wp_gets. fold (is_block s dev blockno b).
    destruct (is_block s dev blockno b); [by apply wp_ret|].
    apply wp_bind, wp_gets. apply IH; [done | done | lia].
Qed.

Lemma bget_unused_wp s fuel l a :
  seg (prev s) (next s) a l head → (head ∉ l) → (length l ≤ fuel)%nat →
  wp (bget_unused fuel (prev s a)) s (λ r s', s' = s ∧ r = List.find (λ i, b_refcnt (bufs s i) =? 0) l).
Proof.
  revert fuel a. induction l as [|b l IH]; intros fuel a Hs Hh Hf.
  - destruct Hs as [-> _]. destruct fuel; cbn [bget_unused]; rewrite Nat.eqb_refl; by apply wp_ret.
  - destruct Hs as (-> & _ & Hs). simpl in Hf. destruct fuel as [|fuel]; [lia|]. cbn [bget_unused List.find].
    apply not_elem_of_cons in Hh as [Hb Hh]. rewrite (proj2 (Nat.eqb_neq b head)) by done.
    apply wp_bind, wp_gets. destruct (_ =? 0); [by apply wp_ret|].
    apply wp_bind, wp_gets. apply IH; [done | done | lia].
Qed.

Lemma binv_length s l : binv s l → length l = nbuf.
Proof.
  intros [[_ Hn] Ha _ _ _]. apply NoDup_cons in Hn as [_ Hn].
  assert (l ≡ₚ seq 0 nbuf) as ->; [|apply length_seq].
  apply NoDup_Permutation; [done | apply NoDup_seq|]. intros i. rewrite Ha, elem_of_seq. lia.
Qed.

(** ** [bget], [brelse], [bpin] *)

Definition unused (s : bstate) (i : nat) : bool := b_refcnt (bufs s i) =? 0.

(** The buffer [b] handed out, locked by the running process. *)
Definition handed (s : bstate) (b : nat) (valid dev blockno refcnt : Z) : bstate :=
  set_buf b (Buf valid dev blockno (SleepLock 1 (curpid s)) refcnt (b_data (bufs s b))) s.

Definition bget_post (s : bstate) (l : list nat) (dev blockno : Z) (b : nat) (s' : bstate) : Prop :=
  b ∈ l ∧ binv s' l ∧
  ((is_block s dev blockno b = true ∧
    s' = handed s b (b_valid (bufs s b)) dev blockno (b_refcnt (bufs s b) + 1)) ∨
   ((∀ i, i ∈ l → is_block s dev blockno i = false) ∧
    List.find (unused s) (rev l) = Some b ∧ s' = handed s b 0 dev blockno 1)).

Lemma acquiresleep_wp s b x :
  bufs s b = x → sl_locked (b_lock x) = 0 →
  wp (acquiresleep b) s (λ _ s', s' = set_buf b (set_lock (SleepLock 1 (curpid s)) x) s).
Proof.
  intros E Hl. unfold acquiresleep. apply wp_bind, wp_gets. rewrite E, Hl. simpl.
  by apply wp_bind, wp_gets, wp_modify.
Qed.

Lemma find_Some_elem (f : nat → bool) l b : List.find f l = Some b → b ∈ l ∧ f b = true.
Proof. intros H%find_some. destruct H as [H1 H2]. split; [by apply list_elem_of_In | done]. Qed.

Lemma find_None_elem (f : nat → bool) l : List.find f l = None → ∀ i, i ∈ l → f i = false.
Proof. intros H i Hi. apply (find_none f l H). by apply list_elem_of_In. Qed.

Lemma bget_wp s l dev blockno :
  binv s l → dev ≠ 0 →
  (∀ i, i ∈ l → is_block s dev blockno i = true →
    sl_locked (b_lock (bufs s i)) = 0 ∧ b_refcnt (bufs s i) + 1 < 2 ^ 32) →
  (∃ i, i ∈ l ∧ (is_block s dev blockno i = true ∨ b_refcnt (bufs s i) = 0)) →
  wp (bget dev blockno) s (bget_post s l dev blockno).
Proof.
  intros Hi Hd Hfree (i0 & Hi0 & Hav). pose proof Hi as [[Hs Hn] _ _ Href Hlock].
  pose proof Hn as [Hh Hn']%NoDup_cons. pose proof (binv_length s l Hi) as Hlen.
  unfold bget. apply wp_bind, wp_gets, wp_bind.
  eapply wp_mono; [apply (bget_cached_wp s nbuf l head); [done | done | lia]|].
  intros r s' [-> ->]. destruct (List.find _ l) as [b|] eqn:Ef.
  - apply find_Some_elem in Ef as [Hb Eb]. pose proof Eb as [E1 E2]%is_block_true.
    destruct (Hfree b Hb Eb) as [Hl Hr]. specialize (Href b Hb).
    apply wp_bind, wp_gets, wp_bind, wp_modify, wp_bind.
    rewrite u32_small by lia.
    eapply wp_mono; [apply acquiresleep_wp; [apply bufs_set_eq | done]|]. intros _ s' ->.
    rewrite set_buf_set_buf. apply wp_ret. simpl. unfold set_lock. simpl. rewrite E1, E2.
    split; [done|]. split; [|by left]. apply binv_same; [done | done | done | done | simpl; lia | simpl; lia].
  - pose proof (find_None_elem _ _ Ef) as Hnone.
    apply wp_bind, wp_gets, wp_bind.
    eapply wp_mono; [apply (bget_unused_wp s nbuf (rev l) head)|].
    { by apply seg_rev. }
    { intros Hr. apply Hh. by apply list_elem_of_In, in_rev, list_elem_of_In. }
    { rewrite length_rev. lia. }
    intros r s' [-> ->]. fold (unused s). destruct (List.find (unused s) (rev l)) as [b|] eqn:Eu.
    2: { exfalso. pose proof (find_None_elem _ _ Eu i0) as Hu. destruct Hav as [Hav|Hav].
         - by rewrite Hnone in Hav.
         - unfold unused in Hu. rewrite Hav in Hu. discriminate Hu.
           by apply list_elem_of_In, in_rev; rewrite rev_involutive; apply list_elem_of_In. }
    pose proof (find_Some_elem _ _ _ Eu) as [Hb Hu%Z.eqb_eq].
    apply list_elem_of_In, in_rev, list_elem_of_In in Hb.
    assert (Hl : sl_locked (b_lock (bufs s b)) = 0).
    { destruct (decide (sl_locked (b_lock (bufs s b)) = 0)) as [|Hne]; [done|].
      specialize (Hlock b Hb Hne). lia. }
    apply wp_bind, wp_gets, wp_bind, wp_modify, wp_bind.
    eapply wp_mono; [apply acquiresleep_wp; [apply bufs_set_eq | done]|]. intros _ s' ->.
    rewrite set_buf_set_buf. apply wp_ret. unfold set_lock. simpl.
    split; [done|]. split; [|by right]. apply binv_set; [done | done | | simpl; lia | simpl; lia].
    intros _ i Hil _. by apply Hnone.
Qed.

(** Everything but the order of the list and one buffer is as before. *)
Definition changed (s : bstate) (b : nat) (y : buf) (s' : bstate) : Prop :=
  bufs s' = nupd (bufs s) b y ∧ disk s' = disk s ∧ wtrace s' = wtrace s ∧ curpid s' = curpid s.

Definition held (s : bstate) (b : nat) : Prop :=
  sl_locked (b_lock (bufs s b)) ≠ 0 ∧ sl_pid (b_lock (bufs s b)) = curpid s.

Lemma holdingsleep_wp s b : held s b → wp (holdingsleep b) s (λ r s', r = true ∧ s' = s).
Proof.
  intros [H1 H2]. unfold holdingsleep. apply wp_bind, wp_gets, wp_bind, wp_gets, wp_ret.
  by rewrite (proj2 (nonzero_true _) H1), (proj2 (Z.eqb_eq _ _) H2).
Qed.

Lemma binv_relinked s s' l l' :
  binv s l → relinked s s' → lru s' l' → (∀ i, i ∈ l' ↔ i ∈ l) → binv s' l'.
Proof.
  intros [H1 H2 H3 H4 H5] Hr Hl He. unfold relinked in Hr.
  assert (Hb : bufs s' = bufs s) by (by rewrite Hr).
  split; [done | intros i; by rewrite He | | |]; setoid_rewrite He; unfold is_block; by rewrite Hb.
Qed.

(** [brelse]: the last reference moves the buffer to the front of the list. *)
Definition brelse_post (s : bstate) (l : list nat) (b : nat) (s' : bstate) : Prop :=
  changed s b (set_lock (SleepLock 0 0) (set_refcnt (b_refcnt (bufs s b) - 1) (bufs s b))) s' ∧
  ∃ l', binv s' l' ∧
    if b_refcnt (bufs s b) =? 1
    then ∃ l1 l2, l = l1 ++ b :: l2 ∧ l' = b :: l1 ++ l2
    else l' = l.

Lemma brelse_wp s l b :
  binv s l → b ∈ l → held s b → wp (brelse b) s (λ _ s', brelse_post s l b s').
Proof.
  intros Hi Hb Hh. pose proof (bi_ref _ _ Hi b Hb) as Hr.
  pose proof (bi_lock _ _ Hi b Hb (proj1 Hh)) as Hpos.
  unfold brelse. apply wp_bind. eapply wp_mono; [by apply holdingsleep_wp|]. intros r s' [-> ->]. simpl.
  unfold releasesleep. apply wp_bind, wp_bind, wp_gets, wp_modify.
  apply wp_bind, wp_gets, wp_bind, wp_modify, wp_bind, wp_gets.
  rewrite !bufs_set_eq, set_buf_set_buf. simpl. rewrite u32_small by lia.
  set (y := set_refcnt _ _). set (s1 := set_buf b y s).
  assert (Hi1 : binv s1 l) by (apply binv_same; simpl; done || lia).
  assert (Hc1 : changed s b y s1) by done.
  destruct (Z.eqb_spec (b_refcnt (bufs s b)) 1) as [E|E].
  - rewrite E. simpl. apply list_elem_of_split in Hb as (l1 & l2 & ->).
    apply wp_bind. eapply wp_mono; [apply unlink_wp, (bi_lru _ _ Hi1)|]. intros _ s2 [Hl2 Hr2].
    pose proof (bi_lru _ _ Hi1) as [_ Hn]. apply NoDup_cons in Hn as [Hhd Hn].
    apply NoDup_app in Hn as (_ & Hd & Hn). apply NoDup_cons in Hn as [Hb2 _].
    eapply wp_mono; [apply link_front_wp; [exact Hl2|]|].
    { rewrite not_elem_of_cons, not_elem_of_app. split; [|split; [|done]].
      - intros ->. apply Hhd, elem_of_app. right. by left.
      - intros Hb1. apply (Hd b Hb1). by left. }
    intros _ s3 [Hl3 Hr3]. unfold relinked in *. split.
    { rewrite Hr3, Hr2. exact Hc1. }
    exists (b :: l1 ++ l2). split; [|rewrite E; by exists l1, l2].
    apply (binv_relinked s1 s3 (l1 ++ b :: l2)); [done | | done|].
    + unfold relinked. rewrite Hr3 at 1. rewrite Hr2. reflexivity.
    + intros i. rewrite elem_of_app, !elem_of_cons, elem_of_app. tauto.
  - rewrite (proj2 (Z.eqb_neq _ _)) by lia. simpl. apply wp_ret. split; [exact Hc1|].
    exists l. split; [done|]. by rewrite (proj2 (Z.eqb_neq _ _)).
Qed.

(** ** [binit] *)

Lemma binit_loop_wp n b s l :
  lru s l → (∀ i, i ∈ l ↔ (i < b)%nat) → (b + n = nbuf)%nat →
  (∀ i, bufs s i = buf_zero) →
  wp (binit_loop n b) s (λ _ s', lru s' (rev (seq b n) ++ l) ∧
    (∀ i, bufs s' i = buf_zero) ∧ disk s' = disk s ∧ wtrace s' = wtrace s ∧ curpid s' = curpid s).
Proof.
  revert b s l. induction n as [|n IH]; intros b s l Hl He Hn Hz.
  { apply wp_ret. simpl. done. }
  cbn [binit_loop]. apply wp_bind. eapply wp_mono; [apply link_front_wp; [done|]|].
  { rewrite not_elem_of_cons, He. unfold head. lia. }
  intros _ s1 [Hl1 Hr1]. unfold relinked in Hr1. apply wp_bind, wp_gets, wp_bind, wp_modify.
  assert (Hz1 : ∀ i, bufs (set_buf b (set_lock (SleepLock 0 0) (bufs s1 b)) s1) i = buf_zero).
  { intros i. destruct (decide (i = b)) as [->|]; [rewrite bufs_set_eq | rewrite bufs_set_ne by done];
      rewrite Hr1; simpl; by rewrite Hz. }
  eapply wp_mono; [apply (IH (S b) _ (b :: l)); [done | | lia | done]|].
  { intros i. rewrite elem_of_cons, He. lia. }
  intros _ s' (H1 & H2 & H3 & H4 & H5). simpl in *. rewrite <- app_assoc. rewrite H3, H4, H5, Hr1. done.
Qed.

Lemma binit_wp s :
  (∀ i, bufs s i = buf_zero) →
  wp binit s (λ _ s', binv s' (rev (seq 0 nbuf)) ∧ (∀ i, bufs s' i = buf_zero) ∧
    disk s' = disk s ∧ wtrace s' = wtrace s ∧ curpid s' = curpid s).
Proof.
  intros Hz. unfold binit. apply wp_bind, wp_modify, wp_bind, wp_modify.
  eapply wp_mono; [apply (binit_loop_wp nbuf 0 _ []); [| | done | done]|].
  - split; simpl; [by rewrite !nupd_eq|]. apply NoDup_singleton.
  - intros i. split; [by intros ?%elem_of_nil | lia].
  - intros _ s' (H1 & H2 & H3). rewrite app_nil_r in H1. split; [|done]. split; [done | | | |].
    + intros i. rewrite list_elem_of_In, <- in_rev, <- list_elem_of_In, elem_of_seq. lia.
    + intros i j _ _. by rewrite H2.
    + intros i _. by rewrite H2.
    + intros i _. by rewrite H2.
Qed.

(** ** What the cache and the disk hold together *)

(** The logical contents of a block: the valid buffer's, or the disk's. *)
Definition content (s : bstate) (dev blockno : Z) : bdata :=
  match List.find (λ i, is_block s dev blockno i && nonzero (b_valid (bufs s i))) (seq 0 nbuf) with
  | Some i => b_data (bufs s i)
  | None => disk s blockno
  end.

Definition holds (s : bstate) (l : list nat) (dev blockno : Z) (d : bdata) : Prop :=
  (∃ i, i ∈ l ∧ is_block s dev blockno i = true ∧ b_valid (bufs s i) ≠ 0 ∧ b_data (bufs s i) = d) ∨
  ((∀ i, i ∈ l → is_block s dev blockno i = true → b_valid (bufs s i) = 0) ∧ disk s blockno = d).

Lemma content_holds s l dev blockno d :
  binv s l → dev ≠ 0 → holds s l dev blockno d ↔ content s dev blockno = d.
Proof.
  intros Hi Hd. assert (Hin : ∀ i, i ∈ seq 0 nbuf ↔ i ∈ l).
  { intros i. rewrite elem_of_seq, (bi_all _ _ Hi). lia. }
  assert (Hu : ∀ i j, i ∈ l → j ∈ l → is_block s dev blockno i = true → is_block s dev blockno j = true → i = j).
  { intros i j Hil Hjl Ei Ej. apply is_block_true in Ei as [E1 E2]. apply (bi_uniq _ _ Hi i j Hil Hjl).
    - by rewrite E1.
    - by rewrite E1, E2. }
  unfold content. destruct (List.find _ _) as [k|] eqn:Ef.
  - apply find_Some_elem in Ef as [Hk Ek]. apply Hin in Hk. apply andb_true_iff in Ek as [Ek1 Ek2%nonzero_true].
    split.
    + intros [(i & Hil & Ei & Ev & <-)|[Hn _]].
      * by rewrite (Hu i k).
      * by destruct Ek2; apply Hn.
    + intros <-. left. eauto 6.
  - pose proof (find_None_elem _ _ Ef) as Hn.
    assert (Hn' : ∀ i, i ∈ l → is_block s dev blockno i = true → b_valid (bufs s i) = 0).
    { intros i Hil Ei. specialize (Hn i (proj2 (Hin i) Hil)). simpl in Hn. rewrite Ei in Hn.
      by apply nonzero_false. }
    split.
    + intros [(i & Hil & Ei & Ev & _)|[_ <-]]; [|done]. by rewrite Hn' in Ev.
    + intros <-. by right.
Qed.

Lemma content_of s l dev blockno d : binv s l → dev ≠ 0 → holds s l dev blockno d → content s dev blockno = d.
Proof. intros Hi Hd. by apply content_holds. Qed.

Lemma holds_content s l dev blockno : binv s l → dev ≠ 0 → holds s l dev blockno (content s dev blockno).
Proof. intros Hi Hd. by apply (content_holds s l). Qed.

(** Buffers nobody references agree with the disk. *)
Definition clean (s : bstate) (l : list nat) : Prop :=
  ∀ i, i ∈ l → b_valid (bufs s i) ≠ 0 → b_refcnt (bufs s i) = 0 →
    b_data (bufs s i) = disk s (b_blockno (bufs s i)).

(** [bread]: the buffer returned is locked, valid, and has the contents of the
    block; no logical contents change. *)
Record bread_post (s : bstate) (l : list nat) (dev blockno : Z) (b : nat) (s' : bstate) : Prop := BreadPost {
  br_in : b ∈ l;
  br_inv : binv s' l;
  br_clean : clean s' l;
  br_buf : ∃ v r, v ≠ 0 ∧ 0 < r ∧
    bufs s' b = Buf v dev blockno (SleepLock 1 (curpid s)) r (content s dev blockno) ∧
    (r = b_refcnt (bufs s b) + 1 ∧ is_block s dev blockno b = true ∨
     r = 1 ∧ b_refcnt (bufs s b) = 0 ∧ ∀ i, i ∈ l → is_block s dev blockno i = false);
  br_other : ∀ j, j ≠ b → bufs s' j = bufs s j;
  br_disk : disk s' = disk s ∧ wtrace s' = wtrace s ∧ curpid s' = curpid s;
  br_content : ∀ blk, content s' dev blk = content s dev blk;
}.

(** Installing the contents of a block in its buffer, or in a recycled one. *)
Lemma content_install s l dev blockno b v r lk :
  binv s l → clean s l → dev ≠ 0 → b ∈ l → v ≠ 0 → 0 < r < 2 ^ 32 →
  (is_block s dev blockno b = true ∨
   b_refcnt (bufs s b) = 0 ∧ ∀ i, i ∈ l → is_block s dev blockno i = false) →
  let s' := set_buf b (Buf v dev blockno lk r (content s dev blockno)) s in
  binv s' l ∧ clean s' l ∧ ∀ blk, content s' dev blk = content s dev blk.
Proof.
  intros Hi Hc Hd Hb Hv Hr Hcase s'.
  assert (Hi' : binv s' l).
  { destruct Hcase as [E|[E Hn]].
    - apply is_block_true in E as [E1 E2]. apply binv_same; simpl; done || lia.
    - apply binv_set; simpl; [done | done | | lia | lia]. intros _ i Hil _. by apply Hn. }
  split; [done|]. split.
  - intros i Hil Hvi Hri. destruct (decide (i = b)) as [->|Hne].
    + unfold s' in Hri. rewrite bufs_set_eq in Hri. simpl in Hri. lia.
    + unfold s' in *. rewrite bufs_set_ne in * by done. by apply Hc.
  - intros blk. apply (content_of s' l); [done..|].
    assert (Hblk : ∀ i, i ≠ b → is_block s' dev blk i = is_block s dev blk i).
    { intros i Hne. unfold is_block, s'. by rewrite bufs_set_ne. }
    assert (Hself : is_block s' dev blk b = (blockno =? blk)).
    { unfold is_block, s'. rewrite bufs_set_eq. simpl. by rewrite Z.eqb_refl. }
    destruct (decide (blockno = blk)) as [<-|Hne].
    { left. exists b. split; [done|]. split; [by rewrite Hself, Z.eqb_refl|].
      unfold s'. by rewrite bufs_set_eq. }
    rewrite (proj2 (Z.eqb_neq _ _) Hne) in Hself.
    destruct (holds_content s l dev blk Hi Hd) as [(i & Hil & Ei & Evi & Ed)|[Hn Ed]].
    + destruct (decide (i = b)) as [->|Hib].
      * right. destruct Hcase as [E|[E _]].
        { apply is_block_true in E as [_ E]. apply is_block_true in Ei as [_ Ei]. congruence. }
        split.
        { intros j Hjl Ej. destruct (decide (j = b)) as [->|Hjb]; [by rewrite Hself in Ej|].
          rewrite Hblk in Ej by done. destruct Hjb. symmetry. apply is_block_true in Ei as [E1 E2].
          apply (bi_uniq _ _ Hi b j Hb Hjl); by rewrite E1, ?E2. }
        rewrite <- Ed. apply is_block_true in Ei as [_ E2]. rewrite (Hc b Hb Evi E). by rewrite E2.
      * left. exists i. rewrite Hblk by done. unfold s'. by rewrite bufs_set_ne.
    + right. split; [|done]. intros j Hjl Ej. destruct (decide (j = b)) as [->|Hjb]; [by rewrite Hself in Ej|].
      rewrite Hblk in Ej by done. unfold s'. rewrite bufs_set_ne by done. by apply Hn.
Qed.

Lemma bread_wp s l dev blockno :
  binv s l → clean s l → dev ≠ 0 →
  (∀ i, i ∈ l → is_block s dev blockno i = true →
    sl_locked (b_lock (bufs s i)) = 0 ∧ b_refcnt (bufs s i) + 1 < 2 ^ 32) →
  (∃ i, i ∈ l ∧ (is_block s dev blockno i = true ∨ b_refcnt (bufs s i) = 0)) →
  wp (bread dev blockno) s (bread_post s l dev blockno).
Proof.
  intros Hi Hc Hd Hfree Hav. unfold bread. apply wp_bind.
  eapply wp_mono; [by apply bget_wp|]. intros b s1 (Hb & Hi1 & Hcase).
  assert (Hgoal : ∀ v r, v ≠ 0 → 0 < r < 2 ^ 32 →
    (r = b_refcnt (bufs s b) + 1 ∧ is_block s dev blockno b = true ∨
     r = 1 ∧ b_refcnt (bufs s b) = 0 ∧ ∀ i, i ∈ l → is_block s dev blockno i = false) →
    bread_post s l dev blockno b
      (set_buf b (Buf v dev blockno (SleepLock 1 (curpid s)) r (content s dev blockno)) s)).
  { intros v r Hv Hr Hrc.
    destruct (content_install s l dev blockno b v r (SleepLock 1 (curpid s))) as (H1 & H2 & H3); try done.
    { destruct Hrc as [[_ ?]|(_ & ? & ?)]; [by left | by right]. }
    split; [done | done | done | | intros j Hj; by apply bufs_set_ne | done | done].
    exists v, r. rewrite bufs_set_eq. split; [done|]. split; [lia|]. done. }
  apply wp_bind, wp_gets. destruct Hcase as [[Eb ->]|(Hn & Hu & ->)]; unfold handed; rewrite bufs_set_eq; simpl.
  - destruct (Hfree b Hb Eb) as [_ Hr]. pose proof (bi_ref _ _ Hi b Hb).
    destruct (Z.eqb_spec (b_valid (bufs s b)) 0) as [Ev|Ev].
    + unfold virtio_disk_rw. wp_steps. rewrite !nupd_eq. simpl. rewrite !set_buf_set_buf.
      rewrite <- (content_of s l dev blockno (disk s blockno));
        [apply (Hgoal 1 (b_refcnt (bufs s b) + 1)); [done | lia | by left] | done | done|].
      right. split; [|done]. intros i Hil Ei. apply is_block_true in Eb as [E1 E2].
      rewrite <- (bi_uniq _ _ Hi b i); [done | done | done | by rewrite E1 | by rewrite E1, E2].
    + wp_steps. rewrite <- (content_of s l dev blockno (b_data (bufs s b))) at 1; [|done|done|].
      * apply Hgoal; [done | lia | by left].
      * left. exists b. done.
  - apply find_Some_elem in Hu as [_ Hu%Z.eqb_eq]. unfold virtio_disk_rw. wp_steps. rewrite !nupd_eq. simpl. rewrite !set_buf_set_buf.
    rewrite <- (content_of s l dev blockno (disk s blockno)); [apply (Hgoal 1 1); [done | lia | by right] | done | done|].
    right. split; [|done]. intros i Hil Ei. by rewrite Hn in Ei.
Qed.
