(* ===== verification/BioSpec.v ===== *)
(** * Theorems on the buffer cache (kernel/bio.c) *)

From stdpp Require Import base numbers list strings.
From S2P Require Import Prelude Layout Bio BioProofs.
Local Open Scope Z_scope.

(** The cache after [binit] on a machine with disk [d]. *)
Definition cold_cache (d : Z → bdata) : bstate :=
  BState (λ _, buf_zero) (λ _, 0%nat) (λ _, 0%nat) d [] 1.
Definition boot_cache (d : Z → bdata) : bstate := run_state (binit (cold_cache d)) (cold_cache d).
Definition boot_lru : list nat := rev (seq 0 nbuf).

Lemma boot_cache_ok d :
  binv (boot_cache d) boot_lru ∧ (∀ i, bufs (boot_cache d) i = buf_zero) ∧
  disk (boot_cache d) = d ∧ wtrace (boot_cache d) = [] ∧ curpid (boot_cache d) = 1.
Proof.
  destruct (wp_run binit (cold_cache d) _ (cold_cache d) (binit_wp (cold_cache d) (λ _, eq_refl))) as [_ H]. exact H.
Qed.

Lemma binit_run d : binit (cold_cache d) = Ret (tt, boot_cache d).
Proof.
  destruct (wp_elim _ _ _ (binit_wp (cold_cache d) (λ _, eq_refl))) as ([] & c & E & _).
  unfold boot_cache. rewrite E. reflexivity.
Qed.

#[global] Opaque boot_cache boot_lru.

Lemma boot_clean d : clean (boot_cache d) boot_lru.
Proof. intros i _. destruct (boot_cache_ok d) as (_ & -> & _). simpl. congruence. Qed.

(** No buffer of a new cache belongs to a device. *)
Lemma boot_no_block d dev blk i : dev ≠ 0 → is_block (boot_cache d) dev blk i = false.
Proof.
  intros H. unfold is_block. destruct (boot_cache_ok d) as (_ & -> & _).
  change (b_dev buf_zero) with 0. by rewrite (proj2 (Z.eqb_neq 0 dev)).
Qed.

Lemma boot_first : 0%nat ∈ boot_lru.
Proof. apply (bi_all _ _ (proj1 (boot_cache_ok (λ _ _, 0)))). unfold nbuf, NBUF, MAXOPBLOCKS. lia. Qed.

Lemma boot_unused d dev blk :
  ∃ i, i ∈ boot_lru ∧ (is_block (boot_cache d) dev blk i = true ∨ b_refcnt (bufs (boot_cache d) i) = 0).
Proof.
  exists 0%nat. split; [exact boot_first | right]. by destruct (boot_cache_ok d) as (_ & -> & _).
Qed.

(** [bget] never gives a block two buffers and recycles in LRU order: if the
    block is cached its buffer is returned with one more reference; otherwise the
    least recently released unused buffer is reassigned, marked not valid, with
    one reference.  Either way the caller holds its sleep lock, no other buffer
    changes, and the cache invariant (list of all buffers, one per block) holds. *)
Theorem bget_correct s l dev blockno :
  binv s l → dev ≠ 0 →
  (∀ i, i ∈ l → is_block s dev blockno i = true →
    sl_locked (b_lock (bufs s i)) = 0 ∧ b_refcnt (bufs s i) + 1 < 2 ^ 32) →
  (∃ i, i ∈ l ∧ (is_block s dev blockno i = true ∨ b_refcnt (bufs s i) = 0)) →
  wp (bget dev blockno) s (λ b s', b ∈ l ∧ binv s' l ∧
    ((is_block s dev blockno b = true ∧
      s' = handed s b (b_valid (bufs s b)) dev blockno (b_refcnt (bufs s b) + 1)) ∨
     ((∀ i, i ∈ l → is_block s dev blockno i = false) ∧
      List.find (unused s) (rev l) = Some b ∧ s' = handed s b 0 dev blockno 1))).
Proof. apply bget_wp. Qed.

Lemma bget_correct_witness :
  wp (bget 1 7) (boot_cache (λ _ _, 0)) (λ b s', b ∈ boot_lru ∧ binv s' boot_lru).
Proof.
  eapply wp_mono; [apply (bget_correct (boot_cache (λ _ _, 0)) boot_lru 1 7)|].
  - apply boot_cache_ok.
  - done.
  - intros i _. by rewrite boot_no_block.
  - apply boot_unused.
  - intros b s' (H1 & H2 & _). done.
Defined.

(** [bread] returns a buffer holding the block: locked by the caller, valid,
    with the bytes of the block's buffer if it was cached and those on disk
    otherwise; the contents of every block, the disk and the other buffers stay. *)
Theorem bread_correct s l dev blockno :
  binv s l → clean s l → dev ≠ 0 →
  (∀ i, i ∈ l → is_block s dev blockno i = true →
    sl_locked (b_lock (bufs s i)) = 0 ∧ b_refcnt (bufs s i) + 1 < 2 ^ 32) →
  (∃ i, i ∈ l ∧ (is_block s dev blockno i = true ∨ b_refcnt (bufs s i) = 0)) →
  wp (bread dev blockno) s (λ b s', b ∈ l ∧ binv s' l ∧ clean s' l ∧
    b_valid (bufs s' b) ≠ 0 ∧ is_block s' dev blockno b = true ∧ held s' b ∧
    b_data (bufs s' b) = content s dev blockno ∧
    (∀ blk, content s' dev blk = content s dev blk) ∧ disk s' = disk s ∧
    ∀ j, j ≠ b → bufs s' j = bufs s j).
Proof.
  intros H1 H2 H3 H4 H5. eapply wp_mono; [by apply (bread_wp s l)|].
  intros b s' [Hb Hi Hc (v & r & Hv & Hr & Eb & _) Ho (Hd & _ & Hp) Hcont].
  split; [done|]. split; [done|]. split; [done|]. split; [by rewrite Eb|].
  split; [apply is_block_true; by rewrite Eb|]. split; [unfold held; by rewrite Eb, Hp|].
  split; [by rewrite Eb|]. done.
Qed.

Lemma bread_correct_witness :
  wp (bread 1 7) (boot_cache (λ _ _, 9)) (λ b s', b_data (bufs s' b) = content (boot_cache (λ _ _, 9)) 1 7).
Proof.
  eapply wp_mono; [apply (bread_correct (boot_cache (λ _ _, 9)) boot_lru 1 7)|].
  - apply boot_cache_ok.
  - apply boot_clean.
  - done.
  - intros i _. by rewrite boot_no_block.
  - apply boot_unused.
  - intros b s' (_ & _ & _ & _ & _ & _ & H & _). done.
Defined.

(** A buffer just obtained from a new cache. *)
Definition got_cache : bstate := handed (boot_cache (λ _ _, 0)) 0 0 1 7 1.

Lemma handed_ok s l b dev blk :
  binv s l → b ∈ l → (∀ i, is_block s dev blk i = false) →
  binv (handed s b 0 dev blk 1) l ∧ held (handed s b 0 dev blk 1) b.
Proof.
  intros Hi Hb Hn. split.
  - unfold handed. apply binv_set; [done | done | | simpl; lia | simpl; lia]. intros _ i _ _. apply Hn.
  - unfold held, handed. by rewrite bufs_set_eq.
Qed.

Lemma got_ok : binv got_cache boot_lru ∧ held got_cache 0.
Proof.
  apply handed_ok; [apply boot_cache_ok | exact boot_first | intros i; by apply boot_no_block].
Qed.

(** [brelse] by the holder gives up the lock and one reference; the last
    reference moves the buffer to the front of the list, so that it is recycled
    after every buffer released before it. *)
Theorem brelse_correct s l b :
  binv s l → b ∈ l → held s b →
  wp (brelse b) s (λ _ s',
    changed s b (set_lock (SleepLock 0 0) (set_refcnt (b_refcnt (bufs s b) - 1) (bufs s b))) s' ∧
    ∃ l', binv s' l' ∧
      if b_refcnt (bufs s b) =? 1
      then ∃ l1 l2, l = l1 ++ b :: l2 ∧ l' = b :: l1 ++ l2
      else l' = l).
Proof. apply brelse_wp. Qed.

Lemma brelse_correct_witness :
  wp (brelse 0) got_cache (λ _ s', ∃ l', binv s' l').
Proof.
  eapply wp_mono; [apply (brelse_correct got_cache boot_lru 0 (proj1 got_ok) boot_first (proj2 got_ok))|].
  intros _ s' (_ & l' & H & _). by exists l'.
Defined.
