(* ===== verification/BioView.v ===== *)
(** * The buffer cache as its clients see it

    One process uses the cache: some blocks are pinned, some are held (read and
    locked, not yet released), and every block has logical contents.  Each
    operation of [Bio] has a specification in these terms; the log is verified
    against them. *)

From stdpp Require Import base numbers list strings sorting.
From S2P Require Import Prelude Layout Bio BioProofs.
Local Open Scope Z_scope.

Section View.
Context (dev : Z) (Hdev : dev ≠ 0).

(** [pins] counts the pins of each block, [hs] lists the blocks held. *)
Record quiet (s : bstate) (l : list nat) (pins : Z → Z) (hs : list Z) : Prop := Quiet {
  q_inv : binv s l;
  q_clean : clean s l;
  q_hs : NoDup hs;
  q_pins : ∀ blk, 0 ≤ pins blk < 2 ^ 31;
  q_ref : ∀ i, i ∈ l → b_dev (bufs s i) = dev →
    b_refcnt (bufs s i) =
    pins (b_blockno (bufs s i)) + (if decide (b_blockno (bufs s i) ∈ hs) then 1 else 0);
  q_other : ∀ i, i ∈ l → b_dev (bufs s i) ≠ dev →
    b_refcnt (bufs s i) = 0 ∧ b_valid (bufs s i) = 0;
  q_lock : ∀ i, i ∈ l → b_dev (bufs s i) = dev →
    b_lock (bufs s i) = if decide (b_blockno (bufs s i) ∈ hs) then SleepLock 1 (curpid s) else SleepLock 0 0;
  q_cached : ∀ blk, 0 < pins blk ∨ blk ∈ hs →
    ∃ i, i ∈ l ∧ is_block s dev blk i = true ∧ b_valid (bufs s i) ≠ 0;
}.

(** Buffer [b] is the held buffer of [blk]. *)
Definition at_buf (s : bstate) (l : list nat) (hs : list Z) (b : nat) (blk : Z) : Prop :=
  b ∈ l ∧ blk ∈ hs ∧ is_block s dev blk b = true.

Lemma q_uniq s l pins hs i j blk :
  quiet s l pins hs → i ∈ l → j ∈ l → is_block s dev blk i = true → is_block s dev blk j = true → i = j.
Proof.
  intros Q Hi Hj Ei Ej. apply is_block_true in Ei as [E1 E2].
  apply (bi_uniq _ _ (q_inv _ _ _ _ Q) i j Hi Hj); by rewrite E1, ?E2.
Qed.

Lemma at_buf_valid s l pins hs b blk :
  quiet s l pins hs → at_buf s l hs b blk →
  b_valid (bufs s b) ≠ 0 ∧ b_data (bufs s b) = content s dev blk ∧
  b_refcnt (bufs s b) = pins blk + 1 ∧ held s b.
Proof.
  intros Q (Hb & Hh & Eb). destruct (q_cached _ _ _ _ Q blk) as (i & Hi & Ei & Ev); [by right|].
  rewrite (q_uniq s l pins hs i b blk) in Ev by done. pose proof Eb as [E1 E2]%is_block_true.
  split; [done|]. split.
  { symmetry. apply (content_of s l); [apply Q | done|]. left. by exists b. }
  split; [rewrite (q_ref _ _ _ _ Q b Hb E1), E2; by destruct (decide _)|].
  unfold held. rewrite (q_lock _ _ _ _ Q b Hb E1), E2. by destruct (decide _).
Qed.

(** Few pinned and held blocks leave a buffer unused. *)
Lemma quiet_unused s l pins hs P :
  quiet s l pins hs → (∀ blk, 0 < pins blk ∨ blk ∈ hs → blk ∈ P) → (length P < nbuf)%nat →
  ∃ i, i ∈ l ∧ b_refcnt (bufs s i) = 0.
Proof.
  intros Q HP Hlen. destruct (decide (Exists (λ i, b_refcnt (bufs s i) = 0) l)) as [He|Hn].
  { apply Exists_exists in He as (i & Hi & E). eauto. }
  exfalso. assert (Hall : ∀ i, i ∈ l → b_dev (bufs s i) = dev ∧ b_blockno (bufs s i) ∈ P).
  { intros i Hi. assert (Hne : b_refcnt (bufs s i) ≠ 0) by (intros E; apply Hn, Exists_exists; eauto).
    destruct (decide (b_dev (bufs s i) = dev)) as [Ed|Ed].
    - split; [done|]. apply HP. rewrite (q_ref _ _ _ _ Q i Hi Ed) in Hne.
      destruct (decide _) as [Hh|Hh]; [by right | left]. pose proof (q_pins _ _ _ _ Q (b_blockno (bufs s i))). lia.
    - by destruct (q_other _ _ _ _ Q i Hi Ed). }
  assert (Hnd : NoDup ((λ i, b_blockno (bufs s i)) <$> l)).
  { apply NoDup_fmap_2_strong; [|destruct (bi_lru _ _ (q_inv _ _ _ _ Q)) as [_ H]; by apply NoDup_cons in H as [_ H]].
    intros i j Hi Hj E. apply (q_uniq s l pins hs i j (b_blockno (bufs s i))); [done..| |].
    - apply is_block_true. split; [by apply Hall | done].
    - apply is_block_true. split; [by apply Hall | done]. }
  assert (Hle : (length ((λ i, b_blockno (bufs s i)) <$> l) ≤ length P)%nat).
  { apply submseteq_length, NoDup_submseteq; [done|]. intros x Hx.
    apply list_elem_of_fmap in Hx as (i & -> & Hi). by apply Hall. }
  rewrite length_fmap, (binv_length s l) in Hle by apply Q. lia.
Qed.

(** The frame every operation but a write leaves. *)
Definition same_view (s s' : bstate) : Prop :=
  (∀ blk, content s' dev blk = content s dev blk) ∧
  disk s' = disk s ∧ wtrace s' = wtrace s ∧ curpid s' = curpid s.

(** What a completed read of a block that was not held means for the view. *)
Section Read.
Context (s s' : bstate) (l : list nat) (pins : Z → Z) (hs : list Z) (blk : Z) (b : nat).
Context (Q : quiet s l pins hs) (Hnh : (blk ∉ hs)) (B : bread_post s l dev blk b s').

Lemma read_refcnt : ∃ v, v ≠ 0 ∧
  bufs s' b = Buf v dev blk (SleepLock 1 (curpid s)) (pins blk + 1) (b_data (bufs s' b)).
Proof.
  destruct B as [Hb _ _ (v & r & Hv & Hr & Eb & Hcase) _ _ _]. exists v. split; [done|].
  rewrite Eb at 1. simpl. f_equal; [|by rewrite Eb]. destruct Hcase as [[-> E]|(-> & E0 & Hn)].
  - apply is_block_true in E as [E1 E2]. rewrite (q_ref _ _ _ _ Q b Hb E1), E2, decide_False by done. lia.
  - assert (¬ 0 < pins blk).
    { intros H0. destruct (q_cached _ _ _ _ Q blk) as (i & Hil & Ei & _); [by left|]. by rewrite Hn in Ei. }
    pose proof (q_pins _ _ _ _ Q blk). lia.
Qed.

Lemma read_other i :
  i ∈ l → i ≠ b → b_dev (bufs s i) = dev →
  (b_blockno (bufs s i) ∈ blk :: hs) ↔ b_blockno (bufs s i) ∈ hs.
Proof.
  intros Hil Hne Ed. destruct B as [Hb _ _ (v & r & Hv & Hr & Eb & Hcase) _ _ _].
  rewrite elem_of_cons. enough (b_blockno (bufs s i) ≠ blk) by tauto. intros E.
  destruct Hcase as [[_ E']|(_ & _ & Hn)].
  - destruct Hne. apply (q_uniq s l pins hs i b blk); [done..| by apply is_block_true | done].
  - specialize (Hn i Hil). by rewrite (proj2 (is_block_true _ _ _ _) (conj Ed E)) in Hn.
Qed.

(** The buffer taken was not that of another pinned or held block. *)
Lemma read_not_taken i x :
  i ∈ l → is_block s dev x i = true → x ≠ blk → 0 < pins x ∨ x ∈ hs → i ≠ b.
Proof.
  intros Hil Ei Hne Hx ->. destruct B as [Hb _ _ (v & r & Hv & Hr & Eb & Hcase) _ _ _].
  apply is_block_true in Ei as [E1 E2]. destruct Hcase as [[_ E]|(_ & E0 & _)].
  - apply is_block_true in E as [_ E]. congruence.
  - rewrite (q_ref _ _ _ _ Q b Hb E1), E2 in E0. pose proof (q_pins _ _ _ _ Q x).
    destruct Hx as [Hx|Hx]; [destruct (decide _); lia | rewrite decide_True in E0 by done; lia].
Qed.

Lemma read_quiet : quiet s' l pins (blk :: hs).
Proof.
  destruct read_refcnt as (v & Hv & Eb). pose proof read_other as Hdec.
  pose proof B as [Hb Hi' Hc' _ Ho (Hd & Ht & Hp) Hcont].
  split; [done | done | | apply Q | | | |].
  - apply NoDup_cons. split; [done | apply Q].
  - intros i Hil. destruct (decide (i = b)) as [->|Hne].
    + rewrite Eb. simpl. intros _. by rewrite decide_True by (by left).
    + rewrite Ho by done. intros Ed. rewrite (q_ref _ _ _ _ Q i Hil Ed).
      by rewrite (decide_ext _ _ _ _ (Hdec i Hil Hne Ed)).
  - intros i Hil. destruct (decide (i = b)) as [->|Hne]; [by rewrite Eb|].
    rewrite Ho by done. apply (q_other _ _ _ _ Q i Hil).
  - intros i Hil. destruct (decide (i = b)) as [->|Hne].
    + rewrite Eb. simpl. intros _. rewrite decide_True by (by left). by rewrite Hp.
    + rewrite Ho, Hp by done. intros Ed. rewrite (q_lock _ _ _ _ Q i Hil Ed).
      by rewrite (decide_ext _ _ _ _ (Hdec i Hil Hne Ed)).
  - intros x Hx. destruct (decide (x = blk)) as [->|Hne].
    { exists b. split; [done|]. rewrite is_block_true, Eb. done. }
    assert (Hx' : 0 < pins x ∨ x ∈ hs) by (destruct Hx as [|[]%elem_of_cons]; [by left | done | by right]).
    destruct (q_cached _ _ _ _ Q x Hx') as (i & Hil & Ei & Ev).
    exists i. unfold is_block. rewrite Ho; [done|]. by apply (read_not_taken i x).
Qed.
End Read.

(** Reading a block that is not held. *)
Lemma bread_view s l pins hs blk P :
  quiet s l pins hs → (blk ∉ hs) →
  (0 < pins blk ∨ (∀ x, 0 < pins x ∨ x ∈ hs → x ∈ P) ∧ (length P < nbuf)%nat) →
  wp (bread dev blk) s (λ b s', quiet s' l pins (blk :: hs) ∧ at_buf s' l (blk :: hs) b blk ∧
    (∀ b' blk', at_buf s l hs b' blk' → at_buf s' l (blk :: hs) b' blk') ∧ same_view s s').
Proof.
  intros Q Hnh Hav. pose proof (q_inv _ _ _ _ Q) as Hi.
  eapply wp_mono; [apply (bread_wp s l); [done | apply Q | done | |]|].
  - intros i Hil Ei. pose proof Ei as [E1 E2]%is_block_true.
    rewrite (q_lock _ _ _ _ Q i Hil E1), (q_ref _ _ _ _ Q i Hil E1), E2.
    destruct (decide (blk ∈ hs)); [done|]. pose proof (q_pins _ _ _ _ Q blk). simpl. lia.
  - destruct Hav as [Hp|[HP Hl]].
    + destruct (q_cached _ _ _ _ Q blk) as (i & Hil & Ei & _); [by left|]. eauto.
    + destruct (quiet_unused s l pins hs P Q HP Hl) as (i & Hil & E). eauto.
  - intros b s' B. destruct (read_refcnt s s' l pins hs blk b Q Hnh B) as (v & Hv & Eb).
    split; [by apply (read_quiet s s' l pins hs blk b)|].
    pose proof B as [Hb _ _ _ Ho (Hd & Ht & Hp) Hcont].
    split; [split; [done|]; split; [by left | apply is_block_true; by rewrite Eb]|].
    split; [|done]. intros b' x (Hb' & Hh' & E'). split; [done|]. split; [by right|].
    assert (b' ≠ b).
    { apply (read_not_taken s s' l pins hs blk b Q B b' x); [done | done | congruence | by right]. }
    unfold is_block. by rewrite Ho.
Qed.

(** Replacing the held buffer of a block. *)
Lemma quiet_put s l pins hs b blk y pins' hs' :
  quiet s l pins hs → at_buf s l hs b blk → b_dev y = dev → b_blockno y = blk → b_valid y ≠ 0 →
  (∀ x, x ≠ blk → pins' x = pins x) → (∀ x, x ≠ blk → x ∈ hs' ↔ x ∈ hs) → NoDup hs' →
  0 ≤ pins' blk < 2 ^ 31 →
  b_refcnt y = pins' blk + (if decide (blk ∈ hs') then 1 else 0) →
  b_lock y = (if decide (blk ∈ hs') then SleepLock 1 (curpid s) else SleepLock 0 0) →
  (b_refcnt y = 0 → b_data y = disk s blk) →
  quiet (set_buf b y s) l pins' hs'.
Proof.
  intros Q (Hb & Hh & Eb) Ed Ek Hv Hpins Hhs Hnd Hpb Hr Hlk Hcl.
  pose proof Eb as [E1 E2]%is_block_true.
  assert (Hne : ∀ i, i ∈ l → i ≠ b → b_dev (bufs s i) = dev → b_blockno (bufs s i) ≠ blk).
  { intros i Hil Hib Edi E. apply Hib, (q_uniq s l pins hs i b blk); [done..| by apply is_block_true | done]. }
  split; [| | done | | | | |].
  - apply binv_same; [apply Q | done | by rewrite E1 | by rewrite E2 | |];
      rewrite Hr, ?Hlk; destruct (decide _); simpl; lia.
  - intros i Hil. destruct (decide (i = b)) as [->|Hib].
    + rewrite bufs_set_eq. intros _ H0. rewrite Ek. by apply Hcl.
    + rewrite bufs_set_ne by done. apply (q_clean _ _ _ _ Q i Hil).
  - intros x. destruct (decide (x = blk)) as [->|]; [done|]. rewrite Hpins by done. apply Q.
  - intros i Hil. destruct (decide (i = b)) as [->|Hib].
    + rewrite bufs_set_eq, Ek. done.
    + rewrite bufs_set_ne by done. intros Edi. pose proof (Hne i Hil Hib Edi).
      rewrite (q_ref _ _ _ _ Q i Hil Edi), Hpins by done. by rewrite (decide_ext _ _ _ _ (Hhs _ H)).
  - intros i Hil. destruct (decide (i = b)) as [->|Hib]; [by rewrite bufs_set_eq|].
    rewrite bufs_set_ne by done. apply (q_other _ _ _ _ Q i Hil).
  - intros i Hil. destruct (decide (i = b)) as [->|Hib].
    + rewrite bufs_set_eq, Ek. done.
    + rewrite bufs_set_ne by done. intros Edi. pose proof (Hne i Hil Hib Edi).
      rewrite (q_lock _ _ _ _ Q i Hil Edi). by rewrite (decide_ext _ _ _ _ (Hhs _ H)).
  - intros x Hx. destruct (decide (x = blk)) as [->|Hxb].
    + exists b. split; [done|]. rewrite is_block_true, bufs_set_eq. done.
    + destruct (q_cached _ _ _ _ Q x) as (i & Hil & Ei & Ev); [rewrite <- Hpins, <- Hhs by done; done|].
      assert (i ≠ b) by (intros ->; apply is_block_true in Ei as [_ ?]; congruence).
      exists i. unfold is_block. by rewrite bufs_set_ne.
Qed.

(** The contents after replacing the held buffer of [blk]. *)
Lemma content_put s l pins hs b blk y x :
  quiet s l pins hs → at_buf s l hs b blk → b_dev y = dev → b_blockno y = blk → b_valid y ≠ 0 →
  0 ≤ b_refcnt y < 2 ^ 32 → (sl_locked (b_lock y) ≠ 0 → 0 < b_refcnt y) →
  content (set_buf b y s) dev x = if x =? blk then b_data y else content s dev x.
Proof.
  intros Q (Hb & Hh & Eb) Ed Ek Hv Hr Hl. pose proof Eb as [E1 E2]%is_block_true.
  assert (Hi : binv (set_buf b y s) l).
  { apply binv_same; [apply Q | done | by rewrite E1 | by rewrite E2 | done | done]. }
  apply (content_of _ l); [done..|]. destruct (Z.eqb_spec x blk) as [->|Hx].
  { left. exists b. rewrite is_block_true, bufs_set_eq. done. }
  assert (Hblk : ∀ i, is_block (set_buf b y s) dev x i = true → i ≠ b ∧ is_block s dev x i = true).
  { intros i Ei. destruct (decide (i = b)) as [->|Hne].
    - apply is_block_true in Ei as [_ Ei]. rewrite bufs_set_eq in Ei. congruence.
    - split; [done|]. unfold is_block in *. by rewrite bufs_set_ne in Ei. }
  destruct (holds_content s l dev x (q_inv _ _ _ _ Q) Hdev) as [(i & Hil & Ei & Ev & Edt)|[Hn Edt]].
  - left. assert (i ≠ b) by (intros ->; apply is_block_true in Ei as [_ ?]; congruence).
    exists i. unfold is_block. by rewrite bufs_set_ne.
  - right. split; [|done]. intros i Hil [Hne Ei]%Hblk. rewrite bufs_set_ne by done. by apply Hn.
Qed.

Lemma content_reorder s s' x :
  bufs s' = bufs s → disk s' = disk s → content s dev x = content s' dev x.
Proof. intros Eb Ed. unfold content, is_block. by rewrite Eb, Ed. Qed.

(** Only the order of the list changes. *)
Lemma quiet_reorder s s' l l' pins hs :
  quiet s l pins hs → binv s' l' → (∀ i, i ∈ l' ↔ i ∈ l) → bufs s' = bufs s → disk s' = disk s →
  curpid s' = curpid s → quiet s' l' pins hs.
Proof.
  intros [Q1 Q2 Q3 Q4 Q5 Q6 Q7 Q8] Hi He Eb Ed Ep. unfold clean, is_block in *.
  split; [done | | done | done | | | |]; unfold clean, is_block; rewrite ?Eb, ?Ed, ?Ep; setoid_rewrite He; done.
Qed.

Lemma at_buf_put s l hs hs' b b' blk blk' y :
  at_buf s l hs b' blk' → (blk' ∈ hs → blk' ∈ hs') → b_dev y = dev → b_blockno y = blk →
  at_buf s l hs b blk → at_buf (set_buf b y s) l hs' b' blk'.
Proof.
  intros (Hb' & Hh' & E') Hi Ed Ek (Hb & Hh & Eb). split; [done|]. split; [auto|].
  destruct (decide (b' = b)) as [->|Hne]; [|unfold is_block; by rewrite bufs_set_ne].
  apply is_block_true in E' as [_ E2]. apply is_block_true in Eb as [_ E2'].
  apply is_block_true. rewrite bufs_set_eq. split; [done | congruence].
Qed.

(** Changing the bytes of a held block. *)
Lemma bmodify_view s l pins hs b blk f :
  quiet s l pins hs → at_buf s l hs b blk →
  wp (bmodify b f) s (λ _ s', quiet s' l pins hs ∧
    (∀ b' blk', at_buf s l hs b' blk' → at_buf s' l hs b' blk') ∧
    (∀ x, content s' dev x = if x =? blk then f (content s dev blk) else content s dev x) ∧
    disk s' = disk s ∧ wtrace s' = wtrace s ∧ curpid s' = curpid s).
Proof.
  intros Q Ha. destruct (at_buf_valid s l pins hs b blk Q Ha) as (Hv & Ed & Er & Hl).
  pose proof Ha as (Hb & Hh & Eb). pose proof Eb as [E1 E2]%is_block_true.
  pose proof (q_pins _ _ _ _ Q blk) as Hp.
  unfold bmodify. apply wp_bind, wp_gets, wp_modify.
  assert (El : b_lock (bufs s b) = SleepLock 1 (curpid s))
    by (rewrite (q_lock _ _ _ _ Q b Hb E1), E2; by rewrite decide_True).
  split; [|split; [|split; [|done]]].
  - apply (quiet_put s l pins hs b blk); simpl; try done; [apply Q | by rewrite decide_True | by rewrite decide_True | lia].
  - intros b' blk' Ha'. by apply (at_buf_put s l hs hs b b' blk).
  - intros x. rewrite (content_put s l pins hs b blk); simpl; rewrite ?Ed, ?El; done || lia.
Qed.

(** Writing a held block to the disk. *)
Lemma bwrite_view s l pins hs b blk :
  quiet s l pins hs → at_buf s l hs b blk →
  wp (bwrite b) s (λ _ s', quiet s' l pins hs ∧
    (∀ b' blk', at_buf s l hs b' blk' → at_buf s' l hs b' blk') ∧
    (∀ x, content s' dev x = content s dev x) ∧
    disk s' = upd (disk s) blk (content s dev blk) ∧
    wtrace s' = wtrace s ++ [(blk, content s dev blk)] ∧ curpid s' = curpid s).
Proof.
  intros Q Ha. destruct (at_buf_valid s l pins hs b blk Q Ha) as (Hv & Ed & Er & Hl).
  pose proof Ha as (Hb & Hh & Eb). pose proof Eb as [E1 E2]%is_block_true.
  unfold bwrite. apply wp_bind. eapply wp_mono; [by apply holdingsleep_wp|]. intros r s' [-> ->]. simpl.
  unfold virtio_disk_rw. apply wp_bind, wp_gets, wp_modify. rewrite E2, Ed.
  set (s' := disk_write blk (content s dev blk) s).
  assert (Hi' : binv s' l) by (by destruct (q_inv _ _ _ _ Q) as [H1 H2 H3 H4 H5]).
  split; [|split; [done|split; [|done]]].
  - destruct Q as [Q1 Q2 Q3 Q4 Q5 Q6 Q7 Q8]. split; try done.
    intros i Hil Hvi Hri. simpl in *. destruct (decide (b_dev (bufs s i) = dev)) as [Edi|Edi].
    2: { by destruct (Q6 i Hil Edi). }
    rewrite upd_ne; [by apply Q2|]. intros Ei. rewrite (Q5 i Hil Edi), Ei, decide_True in Hri by done.
    specialize (Q4 blk). lia.
  - intros x. apply (content_of s' l); [done..|].
    destruct (holds_content s l dev x (q_inv _ _ _ _ Q) Hdev) as [(i & Hil & Ei & Ev & Edt)|[Hn Edt]].
    + left. by exists i.
    + right. split; [done|]. simpl. rewrite upd_ne; [done|]. intros ->. by rewrite (Hn b Hb Eb) in Hv.
Qed.

(** Pinning and unpinning a held block. *)
Lemma repin_view s l pins hs b blk n :
  quiet s l pins hs → at_buf s l hs b blk → 0 ≤ n < 2 ^ 31 →
  let s' := set_buf b (set_refcnt (n + 1) (bufs s b)) s in
  quiet s' l (upd pins blk n) hs ∧
  (∀ b' blk', at_buf s l hs b' blk' → at_buf s' l hs b' blk') ∧ same_view s s'.
Proof.
  intros Q Ha Hn s'. destruct (at_buf_valid s l pins hs b blk Q Ha) as (Hv & Ed & Er & Hl).
  pose proof Ha as (Hb & Hh & Eb). pose proof Eb as [E1 E2]%is_block_true.
  assert (El : b_lock (bufs s b) = SleepLock 1 (curpid s))
    by (rewrite (q_lock _ _ _ _ Q b Hb E1), E2; by rewrite decide_True).
  split; [|split].
  - apply (quiet_put s l pins hs b blk); simpl; try done; [by apply upd_ne | apply Q | by rewrite upd_eq | | | lia].
    + by rewrite upd_eq, decide_True.
    + by rewrite decide_True.
  - intros b' blk' Ha'. by apply (at_buf_put s l hs hs b b' blk).
  - split; [|done]. intros x. unfold s'.
    rewrite (content_put s l pins hs b blk); simpl; rewrite ?Ed, ?El; [|done || lia..|simpl; lia].
    by destruct (Z.eqb_spec x blk) as [->|].
Qed.

Lemma bpin_view s l pins hs b blk :
  quiet s l pins hs → at_buf s l hs b blk → pins blk + 1 < 2 ^ 31 →
  wp (bpin b) s (λ _ s', quiet s' l (upd pins blk (pins blk + 1)) hs ∧
    (∀ b' blk', at_buf s l hs b' blk' → at_buf s' l hs b' blk') ∧ same_view s s').
Proof.
  intros Q Ha Hn. destruct (at_buf_valid s l pins hs b blk Q Ha) as (_ & _ & Er & _).
  pose proof (q_pins _ _ _ _ Q blk). unfold bpin. apply wp_bind, wp_gets, wp_modify.
  rewrite Er, u32_small by lia. apply (repin_view s l pins hs b blk); done || lia.
Qed.

Lemma bunpin_view s l pins hs b blk :
  quiet s l pins hs → at_buf s l hs b blk → 0 < pins blk →
  wp (bunpin b) s (λ _ s', quiet s' l (upd pins blk (pins blk - 1)) hs ∧
    (∀ b' blk', at_buf s l hs b' blk' → at_buf s' l hs b' blk') ∧ same_view s s').
Proof.
  intros Q Ha Hn. destruct (at_buf_valid s l pins hs b blk Q Ha) as (_ & _ & Er & _).
  pose proof (q_pins _ _ _ _ Q blk). unfold bunpin. apply wp_bind, wp_gets, wp_modify.
  rewrite Er, u32_small by lia. replace (pins blk + 1 - 1) with (pins blk - 1 + 1) by lia.
  apply (repin_view s l pins hs b blk); done || lia.
Qed.

(** Releasing a held block: it must be pinned, or agree with the disk. *)
Lemma brelse_view s l pins hs1 hs2 b blk :
  quiet s l pins (hs1 ++ blk :: hs2) → at_buf s l (hs1 ++ blk :: hs2) b blk →
  (pins blk = 0 → content s dev blk = disk s blk) →
  wp (brelse b) s (λ _ s', ∃ l', quiet s' l' pins (hs1 ++ hs2) ∧
    (∀ b' blk', blk' ≠ blk → at_buf s l (hs1 ++ blk :: hs2) b' blk' → at_buf s' l' (hs1 ++ hs2) b' blk') ∧
    same_view s s').
Proof.
  intros Q Ha Hcl. set (hs := hs1 ++ blk :: hs2) in *.
  destruct (at_buf_valid s l pins hs b blk Q Ha) as (Hv & Ed & Er & Hl).
  pose proof Ha as (Hb & Hh & Eb). pose proof Eb as [E1 E2]%is_block_true.
  pose proof (q_pins _ _ _ _ Q blk) as Hp.
  pose proof (q_hs _ _ _ _ Q) as Hnd. apply NoDup_app in Hnd as (Hn1 & Hd & Hn2). apply NoDup_cons in Hn2 as [Hb2 Hn2].
  assert (Hblk : blk ∉ hs1 ++ hs2).
  { rewrite not_elem_of_app. split; [|done]. intros Hx. apply (Hd blk Hx). by left. }
  assert (Hhs : ∀ x, x ≠ blk → x ∈ hs1 ++ hs2 ↔ x ∈ hs).
  { intros x Hx. unfold hs. rewrite !elem_of_app, elem_of_cons. tauto. }
  set (y := set_lock (SleepLock 0 0) (set_refcnt (b_refcnt (bufs s b) - 1) (bufs s b))).
  assert (Qy : quiet (set_buf b y s) l pins (hs1 ++ hs2)).
  { apply (quiet_put s l pins hs b blk); unfold y; simpl; try done.
    - apply NoDup_app. split; [done|]. split; [|done]. intros x Hx Hx2. apply (Hd x Hx). by right.
    - rewrite Er, decide_False by done. lia.
    - by rewrite decide_False.
    - rewrite Er, Ed. intros. apply Hcl. lia. }
  eapply wp_mono; [by apply (brelse_wp s l b (q_inv _ _ _ _ Q))|].
  intros _ s' [(Hbf & Hds & Htr & Hpid) (l' & Hi' & Hl')]. exists l'.
  assert (He : ∀ i, i ∈ l' ↔ i ∈ l).
  { intros i. by rewrite (bi_all _ _ Hi'), (bi_all _ _ (q_inv _ _ _ _ Q)). }
  split; [by apply (quiet_reorder (set_buf b y s) s' l)|]. split.
  - intros b' blk' Hne (Hb' & Hh' & E'). split; [by apply He|]. split; [by apply Hhs|].
    unfold is_block in *. rewrite Hbf. destruct (decide (b' = b)) as [->|]; [|by rewrite nupd_ne].
    rewrite nupd_eq. done.
  - split; [|done]. intros x. rewrite <- (content_reorder (set_buf b y s) s') by done.
    rewrite (content_put s l pins hs b blk); unfold y; simpl; try done; [|lia].
    destruct (Z.eqb_spec x blk) as [->|]; done.
Qed.
End View.
