(* ===== verification/Log.v ===== *)
(** * The write-ahead log (kernel/log.c)

    The in-memory log over the buffer cache of [Bio].  [block[LOGSIZE]] is a
    function of the index; the header block stores [n] and the block numbers as
    32-bit words.  [log.lock] makes the bookkeeping of [begin_op], [end_op] and
    [log_write] atomic; waiting is the outcome [Block]. *)

From stdpp Require Import base numbers list strings.
From S2P Require Import Prelude Layout Bio.
Local Open Scope Z_scope.

Record log : Type := Log {
  lg_start : Z;
  lg_size : Z;
  lg_outstanding : Z;
  lg_committing : Z;
  lg_dev : Z;
  lh_n : Z;
  lh_block : Z → Z;
}.

Record lstate : Type := LState { cache : bstate; lg : log }.

Definition set_cache (c : bstate) (s : lstate) : lstate := LState c (lg s).
Definition set_log (f : log → log) (s : lstate) : lstate := LState (cache s) (f (lg s)).

Definition set_outstanding (v : Z) (g : log) : log :=
  Log (lg_start g) (lg_size g) v (lg_committing g) (lg_dev g) (lh_n g) (lh_block g).
Definition set_committing (v : Z) (g : log) : log :=
  Log (lg_start g) (lg_size g) (lg_outstanding g) v (lg_dev g) (lh_n g) (lh_block g).
Definition set_lh_n (v : Z) (g : log) : log :=
  Log (lg_start g) (lg_size g) (lg_outstanding g) (lg_committing g) (lg_dev g) v (lh_block g).
Definition set_lh_block (v : Z → Z) (g : log) : log :=
  Log (lg_start g) (lg_size g) (lg_outstanding g) (lg_committing g) (lg_dev g) (lh_n g) v.

(** Operations of the cache inside the log. *)
Definition onc {A} (m : M bstate A) : M lstate A := zoom cache set_cache m.

(** [struct logheader] inside a block: [n], then [block[i]]. *)
Definition hdr_n (d : bdata) : Z := i32 (load32 d 0).
Definition hdr_block (d : bdata) (i : Z) : Z := i32 (load32 d (4 + 4 * i)).
Definition set_hdr_n (v : Z) (d : bdata) : bdata := store32 d 0 v.
Definition set_hdr_block (i v : Z) (d : bdata) : bdata := store32 d (4 + 4 * i) v.

(** ** Installing and recovering *)

Fixpoint install_trans_loop (fuel : nat) (tail : Z) (recovering : bool) : M lstate unit :=
  g ← gets lg;
  if tail <? lh_n g then
    match fuel with
    | O => diverge
    | S f =>
        lbuf ← onc (bread (lg_dev g) (lg_start g + tail + 1));
        dbuf ← onc (bread (lg_dev g) (lh_block g tail));
        d ← gets (λ s, b_data (bufs (cache s) lbuf));
        onc (bmodify dbuf (λ _, d));;
        onc (bwrite dbuf);;
        when (negb recovering) (onc (bunpin dbuf));;
        onc (brelse lbuf);;
        onc (brelse dbuf);;
        install_trans_loop f (tail + 1) recovering
    end
  else mret tt.

Definition install_trans (recovering : bool) : M lstate unit :=
  g ← gets lg; install_trans_loop (Z.to_nat (lh_n g)) 0 recovering.

Fixpoint read_head_loop (fuel : nat) (i : Z) (d : bdata) : M lstate unit :=
  g ← gets lg;
  if i <? lh_n g then
    match fuel with
    | O => diverge
    | S f =>
        modify (set_log (set_lh_block (upd (lh_block g) i (hdr_block d i))));;
        read_head_loop f (i + 1) d
    end
  else mret tt.

Definition read_head : M lstate unit :=
  g ← gets lg;
  b ← onc (bread (lg_dev g) (lg_start g));
  d ← gets (λ s, b_data (bufs (cache s) b));
  modify (set_log (set_lh_n (hdr_n d)));;
  read_head_loop (Z.to_nat (hdr_n d)) 0 d;;
  onc (brelse b).

Fixpoint write_head_loop (fuel : nat) (i : Z) (buf : nat) : M lstate unit :=
  g ← gets lg;
  if i <? lh_n g then
    match fuel with
    | O => diverge
    | S f =>
        onc (bmodify buf (set_hdr_block i (lh_block g i)));;
        write_head_loop f (i + 1) buf
    end
  else mret tt.

Definition write_head : M lstate unit :=
  g ← gets lg;
  b ← onc (bread (lg_dev g) (lg_start g));
  onc (bmodify b (set_hdr_n (lh_n g)));;
  write_head_loop (Z.to_nat (lh_n g)) 0 b;;
  onc (bwrite b);;
  onc (brelse b).

Definition recover_from_log : M lstate unit :=
  read_head;;
  install_trans true;;
  modify (set_log (set_lh_n 0));;
  write_head.

(** [sizeof(struct logheader)]. *)
Definition sizeof_logheader : Z := 4 + 4 * LOGSIZE.

Definition initlog (dev logstart nlog : Z) : M lstate unit :=
  if BSIZE <=? sizeof_logheader then panic "initlog: too big logheader"
  else
    modify (set_log (λ g,
      Log logstart nlog (lg_outstanding g) (lg_committing g) dev (lh_n g) (lh_block g)));;
    recover_from_log.

(** ** Transactions *)

Definition begin_op : M lstate unit :=
  g ← gets lg;
  if nonzero (lg_committing g) then block "log"
  else if LOGSIZE <? lh_n g + (lg_outstanding g + 1) * MAXOPBLOCKS then block "log"
  else modify (set_log (set_outstanding (lg_outstanding g + 1))).

Fixpoint write_log_loop (fuel : nat) (tail : Z) : M lstate unit :=
  g ← gets lg;
  if tail <? lh_n g then
    match fuel with
    | O => diverge
    | S f =>
        to ← onc (bread (lg_dev g) (lg_start g + tail + 1));
        from ← onc (bread (lg_dev g) (lh_block g tail));
        d ← gets (λ s, b_data (bufs (cache s) from));
        onc (bmodify to (λ _, d));;
        onc (bwrite to);;
        onc (brelse from);;
        onc (brelse to);;
        write_log_loop f (tail + 1)
    end
  else mret tt.

Definition write_log : M lstate unit :=
  g ← gets lg; write_log_loop (Z.to_nat (lh_n g)) 0.

Definition commit : M lstate unit :=
  g ← gets lg;
  when (0 <? lh_n g)
    (write_log;;
     write_head;;
     install_trans false;;
     modify (set_log (set_lh_n 0));;
     write_head).

Definition end_op : M lstate unit :=
  modify (set_log (λ g, set_outstanding (lg_outstanding g - 1) g));;
  g ← gets lg;
  if nonzero (lg_committing g) then panic "log.committing"
  else if lg_outstanding g =? 0 then
    modify (set_log (set_committing 1));;
    commit;;
    modify (set_log (set_committing 0))
  else mret tt.

(** The index of a block in the log, or [n]. *)
Fixpoint log_find (fuel : nat) (i : Z) (g : log) (blockno : Z) : Z :=
  if i <? lh_n g then
    match fuel with
    | O => i
    | S f => if lh_block g i =? blockno then i else log_find f (i + 1) g blockno
    end
  else i.

Definition log_write (b : nat) : M lstate unit :=
  g ← gets lg;
  if (LOGSIZE <=? lh_n g) || (lg_size g - 1 <=? lh_n g) then panic "too big a transaction"
  else if lg_outstanding g <? 1 then panic "log_write outside of trans"
  else
    blockno ← gets (λ s, b_blockno (bufs (cache s) b));
    let i := log_find (Z.to_nat (lh_n g)) 0 g blockno in
    modify (set_log (set_lh_block (upd (lh_block g) i blockno)));;
    when (i =? lh_n g)
      (onc (bpin b);; modify (set_log (λ g, set_lh_n (lh_n g + 1) g))).
