(* ===== verification/LogProofs.v ===== *)
(** * Steps of the log over the cache (kernel/log.c)

    Each loop body and each procedure of [Log], specified by its effect on the
    logical contents of blocks, on the disk and on the sequence of disk writes. *)

From stdpp Require Import base numbers list strings.
From S2P Require Import Prelude Layout Bio BioProofs BioView Log.
Local Open Scope Z_scope.

(** ** Sequences of disk writes *)

Definition apply_writes (d : Z → bdata) (ws : list (Z * bdata)) : Z → bdata :=
  foldl (λ d w, upd d w.1 w.2) d ws.

Lemma apply_writes_app d ws ws' : apply_writes d (ws ++ ws') = apply_writes (apply_writes d ws) ws'.
Proof. apply foldl_app. Qed.

Lemma apply_writes_out d ws x : (x ∉ ws.*1) → apply_writes d ws x = d x.
Proof.
  revert d. induction ws as [|[a v] ws IH]; intros d Hx; [done|]. simpl in *.
  apply not_elem_of_cons in Hx as [Hxa Hx]. rewrite IH by done. by apply upd_ne.
Qed.

(** With distinct addresses the order of the writes does not matter. *)
Lemma apply_writes_in d ws x v : NoDup ws.*1 → (x, v) ∈ ws → apply_writes d ws x = v.
Proof.
  revert d. induction ws as [|[a w] ws IH]; intros d Hn Hx; [by apply elem_of_nil in Hx|]. simpl in *.
  apply NoDup_cons in Hn as [Ha Hn]. apply elem_of_cons in Hx as [[= -> ->]|Hx]; [|by apply IH].
  rewrite apply_writes_out by done. apply upd_eq.
Qed.

(** ** The header block *)

Fixpoint hdr_fill (k : nat) (i : Z) (blocks : Z → Z) (d : bdata) : bdata :=
  match k with
  | O => d
  | S k' => hdr_fill k' (i + 1) blocks (set_hdr_block i (blocks i) d)
  end.

(** The header [write_head] stores over the old contents [d]. *)
Definition hdr (n : Z) (blocks : Z → Z) (d : bdata) : bdata :=
  hdr_fill (Z.to_nat n) 0 blocks (set_hdr_n n d).

Lemma i32_u32 v : i32 (u32 v) = i32 v.
Proof. unfold i32, u32. lia. Qed.

Lemma hdr_fill_n k i blocks d : 0 ≤ i → hdr_n (hdr_fill k i blocks d) = hdr_n d.
Proof.
  revert i d. induction k as [|k IH]; intros i d Hi; [done|]. simpl. rewrite IH by lia.
  unfold hdr_n, set_hdr_block. by rewrite load32_store32_ne by lia.
Qed.

Lemma hdr_fill_block k i blocks d j :
  0 ≤ i → 0 ≤ j →
  hdr_block (hdr_fill k i blocks d) j =
  if (i <=? j) && (j <? i + Z.of_nat k) then i32 (blocks j) else hdr_block d j.
Proof.
  revert i d. induction k as [|k IH]; intros i d Hi Hj; simpl hdr_fill.
  - destruct (Z.leb_spec i j), (Z.ltb_spec j (i + Z.of_nat 0)); simpl; lia || done.
  - rewrite IH by lia. unfold hdr_block, set_hdr_block. destruct (decide (j = i)) as [->|Hne].
    + rewrite load32_store32, i32_u32.
      destruct (Z.leb_spec (i + 1) i), (Z.leb_spec i i), (Z.ltb_spec i (i + Z.of_nat (S k))); simpl; lia || done.
    + rewrite load32_store32_ne by lia.
      destruct (Z.leb_spec (i + 1) j), (Z.leb_spec i j), (Z.ltb_spec j (i + 1 + Z.of_nat k)),
        (Z.ltb_spec j (i + Z.of_nat (S k))); simpl; lia || done.
Qed.

Lemma hdr_n_hdr n blocks d : 0 ≤ n < 2 ^ 31 → hdr_n (hdr n blocks d) = n.
Proof.
  intros Hn. unfold hdr. rewrite hdr_fill_n by lia. unfold hdr_n, set_hdr_n.
  rewrite load32_store32, i32_u32. by apply i32_small; lia.
Qed.

Lemma hdr_block_hdr n blocks d j :
  0 ≤ j < n → - 2 ^ 31 ≤ blocks j < 2 ^ 31 → hdr_block (hdr n blocks d) j = blocks j.
Proof.
  intros Hj Hb. unfold hdr. rewrite hdr_fill_block by lia.
  rewrite (proj2 (Z.leb_le _ _)), (proj2 (Z.ltb_lt _ _)) by lia. simpl. by apply i32_small.
Qed.

Section Steps.
Context (dev : Z) (Hdev : dev ≠ 0).

(** A block neither pinned nor held is as on disk. *)
Lemma quiet_clean s l pins hs x :
  quiet dev s l pins hs → pins x = 0 → (x ∉ hs) → content s dev x = disk s x.
Proof.
  intros Q Hp Hh. apply (content_of s l); [apply Q | done|].
  destruct (decide (Exists (λ i, is_block s dev x i = true ∧ b_valid (bufs s i) ≠ 0) l)) as [He|Hn].
  - apply Exists_exists in He as (i & Hil & Ei & Ev). left. exists i. split; [done|]. split; [done|].
    split; [done|]. pose proof Ei as [E1 E2]%is_block_true.
    rewrite (q_clean _ _ _ _ _ Q i Hil Ev); [by rewrite E2|].
    rewrite (q_ref _ _ _ _ _ Q i Hil E1), E2, Hp. by rewrite decide_False.
  - right. split; [|done]. intros i Hil Ei. destruct (decide (b_valid (bufs s i) = 0)) as [|Hv]; [done|].
    destruct Hn. apply Exists_exists. eauto.
Qed.

(** The blocks in use leave room for one more buffer. *)
Definition room (pins : Z → Z) (k : nat) : Prop :=
  ∃ P : list Z, (∀ x, 0 < pins x → x ∈ P) ∧ (length P + k ≤ nbuf)%nat.

(** Change of one block by a copy: contents, disk and trace. *)
Definition copied (c c' : bstate) (dst : Z) (d : bdata) : Prop :=
  (∀ x, content c' dev x = if x =? dst then d else content c dev x) ∧
  disk c' = upd (disk c) dst d ∧ wtrace c' = wtrace c ++ [(dst, d)] ∧ curpid c' = curpid c.

(** [wp] of a cache operation inside the log. *)
Lemma wp_onc {A} (m : M bstate A) c g Q :
  wp m c (λ a c', Q a (LState c' g)) → wp (onc m) (LState c g) Q.
Proof. intros H. by apply wp_zoom. Qed.

(** The body of [write_log]: block [blk] is copied into the log block [la]. *)
Lemma write_log_body c l pins g la blk (K : M lstate unit) Q :
  quiet dev c l pins [] → lg_dev g = dev → 0 < pins blk → pins la = 0 → la ≠ blk → room pins 1 →
  (∀ c' l', quiet dev c' l' pins [] → copied c c' la (content c dev blk) → wp K (LState c' g) Q) →
  wp (to ← onc (bread (lg_dev g) la); from ← onc (bread (lg_dev g) blk);
      d ← gets (λ s, b_data (bufs (cache s) from));
      onc (bmodify to (λ _, d));; onc (bwrite to);; onc (brelse from);; onc (brelse to);; K)
    (LState c g) Q.
Proof.
  intros Q0 -> Hpb Hpa Hne (P & HP & HPl) HK.
  apply wp_bind, wp_onc. eapply wp_mono; [apply (bread_view _ Hdev c l pins [] la P Q0); [apply not_elem_of_nil|]|].
  { right. split; [|lia]. intros x [Hx|Hx]; [auto | by apply elem_of_nil in Hx]. }
  intros to c1 (Q1 & A1 & _ & V1 & D1 & T1 & P1).
  apply wp_bind, wp_onc. eapply wp_mono; [apply (bread_view _ Hdev c1 l pins [la] blk P Q1); [|by left]|].
  { intros ->%list_elem_of_singleton. done. }
  intros from c2 (Q2 & A2 & F2 & V2 & D2 & T2 & P2). specialize (F2 _ _ A1).
  destruct (at_buf_valid _ Hdev _ _ _ _ _ _ Q2 A2) as (_ & Ed & _ & _).
  apply wp_bind, wp_gets. simpl cache. rewrite Ed, V2, V1.
  apply wp_bind, wp_onc. eapply wp_mono; [by apply (bmodify_view _ Hdev c2 l pins [blk; la] to la)|].
  intros _ c3 (Q3 & F3 & V3 & D3 & T3 & P3).
  apply wp_bind, wp_onc. eapply wp_mono; [by apply (bwrite_view _ Hdev c3 l pins [blk; la] to la Q3), F3|].
  intros _ c4 (Q4 & F4 & V4 & D4 & T4 & P4). rewrite V3, Z.eqb_refl in D4, T4.
  apply wp_bind, wp_onc. eapply wp_mono; [by apply (brelse_view _ Hdev c4 l pins [] [la] from blk Q4);
    [apply F4, F3 | intros; lia]|].
  intros _ c5 (l5 & Q5 & F5 & V5 & D5 & T5 & P5).
  apply wp_bind, wp_onc. eapply wp_mono; [apply (brelse_view _ Hdev c5 l5 pins [] [] to la Q5)|].
  { apply F5; [done|]. by apply F4, F3. }
  { intros _. by rewrite V5, V4, V3, Z.eqb_refl, D5, D4, upd_eq. }
  intros _ c6 (l6 & Q6 & _ & V6 & D6 & T6 & P6). apply (HK c6 l6 Q6). split; [|split; [|split]].
  - intros x. rewrite V6, V5, V4, V3, V2, V1. done.
  - by rewrite D6, D5, D4, D3, D2, D1.
  - by rewrite T6, T5, T4, T3, T2, T1.
  - congruence.
Qed.

(** Releasing two held blocks that agree with the disk. *)
Lemma release_two c l pins g b1 b2 x1 x2 (K : M lstate unit) Q :
  quiet dev c l pins [x2; x1] → at_buf dev c l [x2; x1] b1 x1 → at_buf dev c l [x2; x1] b2 x2 →
  x1 ≠ x2 → content c dev x1 = disk c x1 → content c dev x2 = disk c x2 →
  (∀ c' l', quiet dev c' l' pins [] → same_view dev c c' → wp K (LState c' g) Q) →
  wp (onc (brelse b1);; onc (brelse b2);; K) (LState c g) Q.
Proof.
  intros Q0 A1 A2 Hne E1 E2 HK.
  apply wp_bind, wp_onc. eapply wp_mono; [by apply (brelse_view _ Hdev c l pins [x2] [] b1 x1)|].
  intros _ c1 (l1 & Q1 & F1 & V1 & D1 & T1 & P1).
  apply wp_bind, wp_onc. eapply wp_mono; [apply (brelse_view _ Hdev c1 l1 pins [] [] b2 x2 Q1)|].
  { by apply F1. }
  { intros _. by rewrite V1, D1. }
  intros _ c2 (l2 & Q2 & _ & V2 & D2 & T2 & P2). apply (HK c2 l2 Q2). split; [|split; [|split]].
  - intros x. by rewrite V2, V1.
  - by rewrite D2.
  - by rewrite T2.
  - by rewrite P2.
Qed.

(** The body of [install_trans]: the log block [la] is copied to [blk], which
    loses its pin except in recovery. *)
Lemma install_body c l pins g la blk (recovering : bool) (K : M lstate unit) Q :
  quiet dev c l pins [] → lg_dev g = dev → pins la = 0 → la ≠ blk →
  (if recovering then room pins 2 else room pins 1 ∧ 0 < pins blk) →
  (∀ c' l', quiet dev c' l' (if recovering then pins else upd pins blk (pins blk - 1)) [] →
    copied c c' blk (content c dev la) → wp K (LState c' g) Q) →
  wp (lbuf ← onc (bread (lg_dev g) la); dbuf ← onc (bread (lg_dev g) blk);
      d ← gets (λ s, b_data (bufs (cache s) lbuf));
      onc (bmodify dbuf (λ _, d));; onc (bwrite dbuf);;
      when (negb recovering) (onc (bunpin dbuf));; onc (brelse lbuf);; onc (brelse dbuf);; K)
    (LState c g) Q.
Proof.
  intros Q0 -> Hpa Hne Hroom HK.
  assert (Hroom1 : ∃ P : list Z, (∀ x, 0 < pins x → x ∈ P) ∧ (length P < nbuf)%nat ∧
    (0 < pins blk ∨ (length (la :: P) < nbuf)%nat)).
  { destruct recovering; [destruct Hroom as (P & HP & Hl) | destruct Hroom as [(P & HP & Hl) Hb]];
      exists P; (split; [done|]); simpl; [split; [lia | right; lia] | split; [lia | by left]]. }
  destruct Hroom1 as (P & HP & HPl & Hb).
  apply wp_bind, wp_onc. eapply wp_mono; [apply (bread_view _ Hdev c l pins [] la P Q0); [apply not_elem_of_nil|]|].
  { right. split; [|lia]. intros x [Hx|Hx]; [auto | by apply elem_of_nil in Hx]. }
  intros lbuf c1 (Q1 & A1 & _ & V1 & D1 & T1 & P1).
  apply wp_bind, wp_onc. eapply wp_mono; [apply (bread_view _ Hdev c1 l pins [la] blk (la :: P) Q1)|].
  { intros ->%list_elem_of_singleton. done. }
  { destruct Hb as [Hb|Hb]; [by left | right]. split; [|done].
    intros x [Hx| ->%list_elem_of_singleton]; [right; auto | by left]. }
  intros dbuf c2 (Q2 & A2 & F2 & V2 & D2 & T2 & P2). specialize (F2 _ _ A1).
  destruct (at_buf_valid _ Hdev _ _ _ _ _ _ Q2 F2) as (_ & Ed & _ & _).
  apply wp_bind, wp_gets. simpl cache. rewrite Ed, V2, V1.
  apply wp_bind, wp_onc. eapply wp_mono; [by apply (bmodify_view _ Hdev c2 l pins [blk; la] dbuf blk)|].
  intros _ c3 (Q3 & F3 & V3 & D3 & T3 & P3).
  apply wp_bind, wp_onc. eapply wp_mono; [by apply (bwrite_view _ Hdev c3 l pins [blk; la] dbuf blk Q3), F3|].
  intros _ c4 (Q4 & F4 & V4 & D4 & T4 & P4). rewrite V3, Z.eqb_refl in D4, T4.
  assert (A4 : at_buf dev c4 l [blk; la] dbuf blk) by (by apply F4, F3).
  assert (B4 : at_buf dev c4 l [blk; la] lbuf la) by (by apply F4, F3).
  apply wp_bind. apply (wp_mono _ _ (λ _ s', ∃ c5, s' = LState c5 g ∧
    quiet dev c5 l (if recovering then pins else upd pins blk (pins blk - 1)) [blk; la] ∧
    at_buf dev c5 l [blk; la] dbuf blk ∧ at_buf dev c5 l [blk; la] lbuf la ∧ same_view dev c4 c5)).
  { destruct recovering; simpl.
    - exists c4. split; [done|]. split; [done|]. split; [done|]. split; [done|]. done.
    - destruct Hroom as [_ Hpb]. apply wp_onc.
      eapply wp_mono; [by apply (bunpin_view _ Hdev c4 l pins [blk; la] dbuf blk)|].
      intros _ c5 (Q5 & F5 & V5). exists c5.
      split; [done|]. split; [done|]. split; [by apply F5|]. split; [by apply F5 | done]. }
  intros _ s5 (c5 & -> & Q5 & A5 & B5 & V5 & D5 & T5 & P5).
  eapply (release_two c5 l _ g lbuf dbuf la blk); [done | done | done | done | | |].
  - rewrite V5, V4, V3, D5, D4, upd_ne, D3 by done. rewrite (proj2 (Z.eqb_neq la blk)) by done.
    rewrite V2, V1, D2, D1. by apply (quiet_clean c l pins []); [done | done | apply not_elem_of_nil].
  - by rewrite V5, V4, V3, Z.eqb_refl, D5, D4, upd_eq.
  - intros c' l' Q' (V' & D' & T' & P'). apply (HK c' l' Q'). split; [|split; [|split]].
    + intros x. rewrite V', V5, V4, V3, V2, V1. done.
    + by rewrite D', D5, D4, D3, D2, D1.
    + by rewrite T', T5, T4, T3, T2, T1.
    + congruence.
Qed.

(** ** The header *)

Lemma write_head_loop_wp k i c l pins hs g b st :
  quiet dev c l pins hs → at_buf dev c l hs b st → lh_n g = i + Z.of_nat k →
  wp (write_head_loop k i b) (LState c g) (λ _ s', ∃ c', s' = LState c' g ∧
    quiet dev c' l pins hs ∧ at_buf dev c' l hs b st ∧
    (∀ x, content c' dev x =
      if x =? st then hdr_fill k i (lh_block g) (content c dev st) else content c dev x) ∧
    disk c' = disk c ∧ wtrace c' = wtrace c ∧ curpid c' = curpid c).
Proof.
  revert i c. induction k as [|k IH]; intros i c Q A En; cbn [write_head_loop hdr_fill].
  - apply wp_bind, wp_gets. simpl lg. rewrite (proj2 (Z.ltb_ge _ _)) by lia. apply wp_ret.
    exists c. split; [done|]. split; [done|]. split; [done|]. split; [|done].
    intros x. by destruct (Z.eqb_spec x st) as [->|].
  - apply wp_bind, wp_gets. simpl lg. rewrite (proj2 (Z.ltb_lt _ _)) by lia.
    apply wp_bind, wp_onc. eapply wp_mono; [by apply (bmodify_view _ Hdev c l pins hs b st)|].
    intros _ c1 (Q1 & F1 & V1 & D1 & T1 & P1).
    eapply wp_mono; [apply (IH (i + 1) c1 Q1); [by apply F1 | lia]|].
    intros _ s' (c' & -> & Q' & A' & V' & D' & T' & P'). exists c'.
    split; [done|]. split; [done|]. split; [done|]. rewrite D', T', P'. split; [|done].
    intros x. rewrite V', !V1, Z.eqb_refl. by destruct (x =? st).
Qed.

Lemma write_head_wp c l pins g :
  quiet dev c l pins [] → lg_dev g = dev → pins (lg_start g) = 0 → room pins 1 → 0 ≤ lh_n g →
  wp write_head (LState c g) (λ _ s', ∃ c' l', s' = LState c' g ∧ quiet dev c' l' pins [] ∧
    copied c c' (lg_start g) (hdr (lh_n g) (lh_block g) (content c dev (lg_start g)))).
Proof.
  intros Q0 Ed Hp (P & HP & HPl) Hn. set (st := lg_start g) in *. unfold write_head.
  apply wp_bind, wp_gets. simpl lg. rewrite Ed. fold st.
  apply wp_bind, wp_onc. eapply wp_mono; [apply (bread_view _ Hdev c l pins [] st P Q0); [apply not_elem_of_nil|]|].
  { right. split; [|lia]. intros x [Hx|Hx]; [auto | by apply elem_of_nil in Hx]. }
  intros b c1 (Q1 & A1 & _ & V1 & D1 & T1 & P1).
  apply wp_bind, wp_onc. eapply wp_mono; [by apply (bmodify_view _ Hdev c1 l pins [st] b st)|].
  intros _ c2 (Q2 & F2 & V2 & D2 & T2 & P2).
  apply wp_bind. eapply wp_mono; [apply (write_head_loop_wp (Z.to_nat (lh_n g)) 0 c2 l pins [st] g b st Q2); [by apply F2 | lia]|].
  intros _ s' (c3 & -> & Q3 & A3 & V3 & D3 & T3 & P3).
  apply wp_bind, wp_onc. eapply wp_mono; [by apply (bwrite_view _ Hdev c3 l pins [st] b st)|].
  intros _ c4 (Q4 & F4 & V4 & D4 & T4 & P4).
  apply wp_onc. eapply wp_mono; [apply (brelse_view _ Hdev c4 l pins [] [] b st Q4)|].
  { by apply F4. }
  { intros _. by rewrite V4, D4, upd_eq. }
  intros _ c5 (l5 & Q5 & _ & V5 & D5 & T5 & P5). exists c5, l5. split; [done|]. split; [done|].
  assert (E : content c3 dev st = hdr (lh_n g) (lh_block g) (content c dev st)).
  { rewrite V3, Z.eqb_refl, V2, Z.eqb_refl, V1. done. }
  split; [|split; [|split]].
  - intros x. rewrite V5, V4. destruct (Z.eqb_spec x st) as [->|Hx]; [done|].
    rewrite V3, (proj2 (Z.eqb_neq _ _) Hx), V2, (proj2 (Z.eqb_neq _ _) Hx), V1. done.
  - by rewrite D5, D4, E, D3, D2, D1.
  - by rewrite T5, T4, E, T3, T2, T1.
  - congruence.
Qed.

(** ** The loops over the logged blocks *)

(** The blocks recorded in the log header in memory. *)
Definition logged (g : log) (ws : list Z) : Prop :=
  lh_n g = Z.of_nat (length ws) ∧ ∀ i w, ws !! i = Some w → lh_block g (Z.of_nat i) = w.

Fixpoint log_writes (a : Z) (ws : list Z) (D : Z → bdata) : list (Z * bdata) :=
  match ws with
  | [] => []
  | w :: ws' => (a, D w) :: log_writes (a + 1) ws' D
  end.

Fixpoint home_writes (a : Z) (ws : list Z) (E : Z → bdata) : list (Z * bdata) :=
  match ws with
  | [] => []
  | w :: ws' => (w, E a) :: home_writes (a + 1) ws' E
  end.

(** Header and blocks of a log with [n] entries at [st]. *)
Definition in_log (st n x : Z) : Prop := st ≤ x ≤ st + n.

Lemma logged_at g pre w rest :
  logged g (pre ++ w :: rest) → lh_block g (Z.of_nat (length pre)) = w ∧ Z.of_nat (length pre) < lh_n g.
Proof.
  intros [En Hb]. split; [apply Hb; by apply list_lookup_middle|].
  rewrite En, length_app. simpl. lia.
Qed.

Lemma write_log_loop_wp rest pre c l pins g D :
  logged g (pre ++ rest) → lg_dev g = dev → quiet dev c l pins [] → room pins 1 →
  (∀ w, w ∈ rest → 0 < pins w ∧ ¬ in_log (lg_start g) (lh_n g) w ∧ content c dev w = D w) →
  (∀ x, in_log (lg_start g) (lh_n g) x → pins x = 0) →
  wp (write_log_loop (length rest) (Z.of_nat (length pre))) (LState c g) (λ _ s', ∃ c' l',
    s' = LState c' g ∧ quiet dev c' l' pins [] ∧
    (∀ x, ¬ in_log (lg_start g) (lh_n g) x → content c' dev x = content c dev x) ∧
    let W := log_writes (lg_start g + Z.of_nat (length pre) + 1) rest D in
    (∀ x, content c' dev x = apply_writes (content c dev) W x) ∧
    disk c' = apply_writes (disk c) W ∧ wtrace c' = wtrace c ++ W ∧ curpid c' = curpid c).
Proof.
  intros Hlg Ed Q0 Hroom. revert pre c l Hlg Q0.
  induction rest as [|w rest IH]; intros pre c l Hlg Q0 Hw Hz; cbn [write_log_loop length log_writes].
  - destruct Hlg as [En _]. rewrite app_nil_r in En. apply wp_bind, wp_gets. simpl lg.
    rewrite (proj2 (Z.ltb_ge _ _)) by lia. apply wp_ret. exists c, l. rewrite app_nil_r. done.
  - destruct (logged_at g pre w rest Hlg) as [Eb Hlt]. apply wp_bind, wp_gets. simpl lg.
    rewrite (proj2 (Z.ltb_lt _ _)) by done. rewrite Eb.
    destruct (Hw w) as (Hpw & Hnl & Ec); [by left|].
    set (la := lg_start g + Z.of_nat (length pre) + 1).
    assert (Hla : in_log (lg_start g) (lh_n g) la) by (unfold in_log, la; lia).
    apply (write_log_body c l pins g la w); [done | done | done | by apply Hz | intros E; apply Hnl; by rewrite <- E | done|].
    intros c1 l1 Q1 (V1 & D1 & T1 & P1). rewrite Ec in V1, D1, T1.
    replace (Z.of_nat (length pre) + 1) with (Z.of_nat (length (pre ++ [w]))) by (rewrite length_app; simpl; lia).
    eapply wp_mono; [apply (IH (pre ++ [w]) c1 l1); [by rewrite <- app_assoc | done | | done]|].
    { intros w' Hw'. destruct (Hw w') as (H1 & H2 & H3); [by right|]. split; [done|]. split; [done|].
      rewrite V1, (proj2 (Z.eqb_neq _ _)); [done|]. intros E. apply H2. by rewrite E. }
    intros _ s' (c' & l' & -> & Q' & N' & V' & D' & T' & P').
    replace (lg_start g + Z.of_nat (length (pre ++ [w])) + 1) with (la + 1) in *
      by (rewrite length_app; unfold la; simpl; lia).
    exists c', l'. split; [done|]. split; [done|]. split; [|split; [|split; [|split]]].
    + intros x Hx. rewrite N' by done. rewrite V1, (proj2 (Z.eqb_neq _ _)); [done|]. intros E. apply Hx. by rewrite E.
    + intros x. rewrite V'. simpl. f_equal. apply FunctionalExtensionality.functional_extensionality. intros y.
      rewrite V1. unfold upd. done.
    + by rewrite D', D1.
    + by rewrite T', T1, <- app_assoc.
    + congruence.
Qed.

(** The pins after [ws] have been unpinned. *)
Definition unpin (pins : Z → Z) (ws : list Z) : Z → Z :=
  foldl (λ p w, upd p w (p w - 1)) pins ws.

Lemma room_unpin pins w k : room pins k → room (upd pins w (pins w - 1)) k.
Proof.
  intros (P & HP & Hl). exists P. split; [|done]. intros x. unfold upd.
  destruct (Z.eqb_spec x w) as [->|]; intros Hx; apply HP; lia.
Qed.

Lemma install_loop_wp recovering rest pre c l pins g E :
  logged g (pre ++ rest) → lg_dev g = dev → quiet dev c l pins [] →
  (if recovering : bool then room pins 2 else room pins 1 ∧ NoDup rest ∧ ∀ w, w ∈ rest → 0 < pins w) →
  (∀ w, w ∈ rest → ¬ in_log (lg_start g) (lh_n g) w) →
  (∀ x, in_log (lg_start g) (lh_n g) x → pins x = 0 ∧ content c dev x = E x) →
  wp (install_trans_loop (length rest) (Z.of_nat (length pre)) recovering) (LState c g) (λ _ s', ∃ c' l',
    s' = LState c' g ∧ quiet dev c' l' (if recovering then pins else unpin pins rest) [] ∧
    let W := home_writes (lg_start g + Z.of_nat (length pre) + 1) rest E in
    (∀ x, content c' dev x = apply_writes (content c dev) W x) ∧
    disk c' = apply_writes (disk c) W ∧ wtrace c' = wtrace c ++ W ∧ curpid c' = curpid c).
Proof.
  intros Hlg Ed. revert pre c l pins Hlg.
  induction rest as [|w rest IH]; intros pre c l pins Hlg Q0 Hroom Hw Hz;
    cbn [install_trans_loop length home_writes].
  - destruct Hlg as [En _]. rewrite app_nil_r in En. apply wp_bind, wp_gets. simpl lg.
    rewrite (proj2 (Z.ltb_ge _ _)) by lia. apply wp_ret. exists c, l. rewrite app_nil_r.
    split; [done|]. split; [by destruct recovering | done].
  - destruct (logged_at g pre w rest Hlg) as [Eb Hlt]. apply wp_bind, wp_gets. simpl lg.
    rewrite (proj2 (Z.ltb_lt _ _)) by done. rewrite Eb.
    set (la := lg_start g + Z.of_nat (length pre) + 1).
    assert (Hla : in_log (lg_start g) (lh_n g) la) by (unfold in_log, la; lia).
    assert (Hnl : ¬ in_log (lg_start g) (lh_n g) w) by (apply Hw; by left).
    destruct (Hz la Hla) as [Hpa Ec].
    apply (install_body c l pins g la w recovering); [done | done | done | intros E'; apply Hnl; by rewrite <- E' | |].
    { destruct recovering; [done|]. destruct Hroom as (Hr & _ & Hp). split; [done|]. apply Hp. by left. }
    intros c1 l1 Q1 (V1 & D1 & T1 & P1). rewrite Ec in V1, D1, T1.
    replace (Z.of_nat (length pre) + 1) with (Z.of_nat (length (pre ++ [w]))) by (rewrite length_app; simpl; lia).
    eapply wp_mono; [eapply (IH (pre ++ [w]) c1 l1); [by rewrite <- app_assoc | done | | |]|].
    { destruct recovering; [done|]. destruct Hroom as (Hr & Hnd & Hp). apply NoDup_cons in Hnd as [Hwr Hnd].
      split; [by apply room_unpin|]. split; [done|]. intros w' Hw'.
      rewrite upd_ne by (intros ->; done). apply Hp. by right. }
    { intros w' Hw'. apply Hw. by right. }
    { intros x Hx. assert (x ≠ w) by (intros ->; done).
      rewrite V1, (proj2 (Z.eqb_neq _ _)) by done. destruct (Hz x Hx) as [H1 H2].
      split; [|done]. destruct recovering; [done | by rewrite upd_ne]. }
    intros _ s' (c' & l' & -> & Q' & V' & D' & T' & P').
    replace (lg_start g + Z.of_nat (length (pre ++ [w])) + 1) with (la + 1) in *
      by (rewrite length_app; unfold la; simpl; lia).
    exists c', l'. split; [done|]. split; [by destruct recovering|]. split; [|split; [|split]].
    + intros x. rewrite V'. simpl. f_equal. apply FunctionalExtensionality.functional_extensionality. intros y.
      rewrite V1. unfold upd. done.
    + by rewrite D', D1.
    + by rewrite T', T1, <- app_assoc.
    + congruence.
Qed.

(** ** Reading the header *)

Lemma read_head_loop_wp k i c g d :
  0 ≤ i → lh_n g = i + Z.of_nat k →
  wp (read_head_loop k i d) (LState c g) (λ _ s', ∃ f, s' = LState c (set_lh_block f g) ∧
    ∀ j, 0 ≤ j < lh_n g → f j = if j <? i then lh_block g j else hdr_block d j).
Proof.
  revert i g. induction k as [|k IH]; intros i g Hi En; cbn [read_head_loop].
  - apply wp_bind, wp_gets. simpl lg. rewrite (proj2 (Z.ltb_ge _ _)) by lia. apply wp_ret.
    exists (lh_block g). split; [by destruct g|]. intros j Hj. by rewrite (proj2 (Z.ltb_lt _ _)) by lia.
  - apply wp_bind, wp_gets. simpl lg. rewrite (proj2 (Z.ltb_lt _ _)) by lia.
    apply wp_bind, wp_modify.
    eapply wp_mono; [apply (IH (i + 1) (set_lh_block (upd (lh_block g) i (hdr_block d i)) g)); [lia | simpl; lia]|].
    intros _ s' (f & -> & Hf). exists f. split; [done|]. intros j Hj. rewrite Hf by done. simpl.
    destruct (Z.ltb_spec j (i + 1)), (Z.ltb_spec j i); try lia; [by rewrite upd_ne by lia|].
    replace j with i by lia. apply upd_eq.
Qed.

Lemma read_head_wp c l pins g :
  quiet dev c l pins [] → lg_dev g = dev → pins (lg_start g) = 0 → room pins 1 →
  let d := content c dev (lg_start g) in 0 ≤ hdr_n d →
  wp read_head (LState c g) (λ _ s', ∃ c' l' f, s' = LState c' (set_lh_block f (set_lh_n (hdr_n d) g)) ∧
    quiet dev c' l' pins [] ∧ same_view dev c c' ∧ ∀ j, 0 ≤ j < hdr_n d → f j = hdr_block d j).
Proof.
  intros Q0 Ed Hp (P & HP & HPl) d Hn. unfold read_head. apply wp_bind, wp_gets. simpl lg. rewrite Ed.
  apply wp_bind, wp_onc.
  eapply wp_mono; [apply (bread_view _ Hdev c l pins [] (lg_start g) P Q0); [apply not_elem_of_nil|]|].
  { right. split; [|lia]. intros x [Hx|Hx]; [auto | by apply elem_of_nil in Hx]. }
  intros b c1 (Q1 & A1 & _ & V1 & D1 & T1 & P1).
  destruct (at_buf_valid _ Hdev _ _ _ _ _ _ Q1 A1) as (_ & Edt & _ & _).
  apply wp_bind, wp_gets. simpl cache. rewrite Edt, V1. fold d. apply wp_bind, wp_modify, wp_bind.
  eapply wp_mono; [apply (read_head_loop_wp (Z.to_nat (hdr_n d)) 0 c1 (set_lh_n (hdr_n d) g) d); [lia | simpl; lia]|].
  intros _ s' (f & -> & Hf). apply wp_onc.
  eapply wp_mono; [apply (brelse_view _ Hdev c1 l pins [] [] b (lg_start g) Q1 A1)|].
  { intros _. rewrite V1, D1. by apply (quiet_clean c l pins []); [done | done | apply not_elem_of_nil]. }
  intros _ c2 (l2 & Q2 & _ & V2 & D2 & T2 & P2). exists c2, l2, f. split; [done|]. split; [done|]. split.
  - split; [intros x; by rewrite V2, V1|]. split; [by rewrite D2|]. split; [by rewrite T2 | by rewrite P2].
  - intros j Hj. rewrite Hf by done. by rewrite (proj2 (Z.ltb_ge _ _)) by lia.
Qed.
End Steps.
