(* ===== verification/LogSpec.v ===== *)
(** * Theorems on the log (kernel/log.c)

    A commit, its sequence of disk writes, recovery after a crash between any
    two of them, and the reservation of log space. *)

From stdpp Require Import base numbers list strings relations.
From S2P Require Import Prelude Layout Bio BioProofs BioSpec BioView Log LogProofs.
Local Open Scope Z_scope.

(** One pin on each block of [ws]. *)
Definition pin1 (ws : list Z) : Z → Z := λ x, if decide (x ∈ ws) then 1 else 0.
Definition nopins : Z → Z := λ _, 0.

Lemma unpin_pin1 pins ws x : NoDup ws → unpin pins ws x = pins x - pin1 ws x.
Proof.
  unfold unpin, pin1. revert pins. induction ws as [|w ws IH]; intros pins Hn; cbn [foldl].
  - rewrite decide_False by apply not_elem_of_nil. lia.
  - apply NoDup_cons in Hn as [Hw Hn]. rewrite IH by done. destruct (decide (x = w)) as [->|Hne].
    + rewrite upd_eq, decide_False, decide_True by (done || by left). lia.
    + rewrite upd_ne by done. rewrite (decide_ext (x ∈ w :: ws) (x ∈ ws)); [done|].
      rewrite elem_of_cons. tauto.
Qed.

Lemma unpin_all ws : NoDup ws → unpin (pin1 ws) ws = nopins.
Proof.
  intros Hn. apply FunctionalExtensionality.functional_extensionality. intros x.
  rewrite unpin_pin1 by done. unfold nopins. lia.
Qed.

Lemma room_pin1 ws : (length ws < nbuf)%nat → room (pin1 ws) 1.
Proof.
  intros Hl. exists ws. split; [|lia]. intros x. unfold pin1. destruct (decide _); [done | lia].
Qed.

Lemma room_nopins k : (k ≤ nbuf)%nat → room nopins k.
Proof. intros Hk. exists []. split; [intros x Hx; unfold nopins in Hx; lia | simpl; lia]. Qed.

(** Between transactions: the blocks [ws] are in the cache, changed and pinned;
    nobody holds a buffer; the log on disk is empty. *)
Record ready (dev : Z) (c : bstate) (l : list nat) (g : log) (ws : list Z) : Prop := Ready {
  rd_dev : dev ≠ 0 ∧ lg_dev g = dev;
  rd_quiet : quiet dev c l (pin1 ws) [];
  rd_logged : logged g ws;
  rd_nodup : NoDup ws;
  rd_room : (length ws < nbuf)%nat;
  rd_blocks : ∀ w, w ∈ ws → 0 ≤ w < 2 ^ 31 ∧ ¬ in_log (lg_start g) (lh_n g) w;
  rd_empty : hdr_n (disk c (lg_start g)) = 0;
}.

Lemma log_writes_fst a ws' (D' : Z → bdata) x :
  x ∈ (log_writes a ws' D').*1 → a ≤ x < a + Z.of_nat (length ws').
Proof.
  revert a. induction ws' as [|w ws' IH]; intros a; simpl; [by intros ?%elem_of_nil|].
  intros [->|Hx]%elem_of_cons; [lia|]. specialize (IH _ Hx). lia.
Qed.

Lemma log_writes_lookup a ws' (D' : Z → bdata) d i w :
  ws' !! i = Some w → apply_writes d (log_writes a ws' D') (a + Z.of_nat i) = D' w.
Proof.
  revert a d i. induction ws' as [|w' ws' IH]; intros a d i Hi; [done|]. destruct i as [|i]; simpl in *.
  - injection Hi as ->. rewrite Z.add_0_r, apply_writes_out; [apply upd_eq|].
    intros Hx%log_writes_fst. lia.
  - replace (a + Z.of_nat (S i)) with (a + 1 + Z.of_nat i) by lia. by apply IH.
Qed.

Lemma home_writes_eq a ws' E (D' : Z → bdata) :
  (∀ i w, ws' !! i = Some w → E (a + Z.of_nat i) = D' w) →
  home_writes a ws' E = (λ w, (w, D' w)) <$> ws'.
Proof.
  revert a. induction ws' as [|w ws' IH]; intros a HE; simpl; [done|].
  rewrite <- (HE 0%nat w eq_refl), Z.add_0_r. f_equal. apply IH. intros i w' Hi.
  rewrite <- (HE (S i) w' Hi). f_equal. lia.
Qed.

Lemma log_writes_length a (ws' : list Z) (E : Z → bdata) : length (log_writes a ws' E) = length ws'.
Proof. revert a. induction ws' as [|w ws' IH]; intros a; simpl; [done | by rewrite IH]. Qed.

Lemma homes_fst (ws' : list Z) (E : Z → bdata) : ((λ w, (w, E w)) <$> ws').*1 = ws'.
Proof. by rewrite <- list_fmap_compose, list_fmap_id. Qed.

Lemma take_fst k (W : list (Z * bdata)) x : x ∈ (take k W).*1 → x ∈ W.*1.
Proof. rewrite fmap_take. apply subseteq_take. Qed.

Section Commit.
Context (dev : Z) (c : bstate) (l : list nat) (g : log) (ws : list Z).
Context (R : ready dev c l g ws).
Let st := lg_start g.
Let n := lh_n g.
Let D := content c dev.

(** The header of the transaction, and the cleared one. *)
Definition hdr1 : bdata := hdr n (lh_block g) (disk c st).
Definition hdr0 : bdata := hdr 0 (lh_block g) hdr1.

(** The disk writes of the commit, in order. *)
Definition commit_trace : list (Z * bdata) :=
  log_writes (st + 1) ws D ++ [(st, hdr1)] ++ ((λ w, (w, D w)) <$> ws) ++ [(st, hdr0)].

Lemma ready_pins x : in_log st n x → pin1 ws x = 0.
Proof.
  intros Hx. unfold pin1. destruct (decide (x ∈ ws)) as [Hw|]; [|done].
  by destruct (rd_blocks _ _ _ _ _ R x Hw).
Qed.

Lemma ready_n : n = Z.of_nat (length ws).
Proof. apply (rd_logged _ _ _ _ _ R). Qed.

(** Copying the blocks into the log and writing the header. *)
Lemma commit_log_wp (K : M lstate unit) Q :
  (∀ c' l', quiet dev c' l' (pin1 ws) [] → content c' dev st = hdr1 →
    (∀ i w, ws !! i = Some w → content c' dev (st + 1 + Z.of_nat i) = D w) →
    disk c' = apply_writes (disk c) (log_writes (st + 1) ws D ++ [(st, hdr1)]) →
    wtrace c' = wtrace c ++ log_writes (st + 1) ws D ++ [(st, hdr1)] → wp K (LState c' g) Q) →
  wp (write_log;; write_head;; K) (LState c g) Q.
Proof.
  intros HK. pose proof R as [[Hdev Ed] Q0 Hlg Hnd Hroom Hbl He]. pose proof ready_n as En.
  unfold write_log. apply wp_bind, wp_bind, wp_gets. simpl lg. fold n. rewrite En, Nat2Z.id.
  change (write_log_loop (length ws) 0) with (write_log_loop (length ws) (Z.of_nat (@length Z []))).
  eapply wp_mono; [apply (write_log_loop_wp dev Hdev ws [] c l (pin1 ws) g D); try done|].
  { by apply room_pin1. }
  { intros w Hw. split; [unfold pin1; by rewrite decide_True|]. split; [by apply Hbl | done]. }
  { apply ready_pins. }
  intros _ s1 (c1 & l1 & -> & Q1 & N1 & V1 & D1 & T1 & P1).
  change (Z.of_nat (@length Z [])) with 0 in V1, D1, T1.
  replace (lg_start g + 0 + 1) with (st + 1) in * by (unfold st; lia).
  assert (Est : content c1 dev st = disk c st).
  { rewrite V1, apply_writes_out; [|intros Hx%log_writes_fst; lia].
    apply (quiet_clean dev Hdev c l (pin1 ws) []); [done | apply ready_pins; unfold in_log; lia | apply not_elem_of_nil]. }
  apply wp_bind. eapply wp_mono; [apply (write_head_wp dev Hdev c1 l1 (pin1 ws) g Q1 Ed)|].
  { apply ready_pins. unfold in_log. fold st. lia. }
  { by apply room_pin1. }
  { fold n. lia. }
  intros _ s2 (c2 & l2 & -> & Q2 & V2 & D2 & T2 & P2). fold st n in V2, D2, T2. rewrite Est in V2, D2, T2.
  apply (HK c2 l2 Q2).
  - by rewrite V2, Z.eqb_refl.
  - intros i w Hi. rewrite V2, (proj2 (Z.eqb_neq _ _)) by lia. rewrite V1. by apply log_writes_lookup.
  - rewrite D2, D1, apply_writes_app. done.
  - rewrite T2, T1, <- app_assoc. done.
Qed.

(** Installing the blocks and clearing the header. *)
Lemma commit_install_wp c2 l2 :
  quiet dev c2 l2 (pin1 ws) [] → content c2 dev st = hdr1 →
  (∀ i w, ws !! i = Some w → content c2 dev (st + 1 + Z.of_nat i) = D w) →
  wp (install_trans false;; modify (set_log (set_lh_n 0));; write_head) (LState c2 g) (λ _ s', ∃ c' l',
    s' = LState c' (set_lh_n 0 g) ∧ quiet dev c' l' nopins [] ∧
    let W := ((λ w, (w, D w)) <$> ws) ++ [(st, hdr0)] in
    disk c' = apply_writes (disk c2) W ∧ wtrace c' = wtrace c2 ++ W).
Proof.
  intros Q2 Est2 EW. pose proof R as [[Hdev Ed] _ Hlg Hnd Hroom Hbl _]. pose proof ready_n as En.
  unfold install_trans. apply wp_bind, wp_bind, wp_gets. simpl lg. fold n. rewrite En, Nat2Z.id.
  change (install_trans_loop (length ws) 0) with (install_trans_loop (length ws) (Z.of_nat (@length Z []))).
  eapply wp_mono; [apply (install_loop_wp dev Hdev false ws [] c2 l2 (pin1 ws) g (content c2 dev)); try done|].
  { split; [by apply room_pin1|]. split; [done|]. intros w Hw. unfold pin1. by rewrite decide_True. }
  { intros w Hw. by apply Hbl. }
  { intros x Hx. split; [by apply ready_pins | done]. }
  intros _ s3 (c3 & l3 & -> & Q3 & V3 & D3 & T3 & P3).
  change (Z.of_nat (@length Z [])) with 0 in V3, D3, T3. simpl in Q3. rewrite unpin_all in Q3 by done.
  replace (lg_start g + 0 + 1) with (st + 1) in * by (unfold st; lia).
  pose proof (home_writes_eq (st + 1) ws (content c2 dev) D EW) as Eh. rewrite Eh in V3, D3, T3.
  assert (Est3 : content c3 dev st = hdr1).
  { rewrite V3, apply_writes_out; [done|]. rewrite homes_fst.
    intros Hw. apply Hbl in Hw as [_ Hw]. apply Hw. unfold in_log. fold st n. lia. }
  apply wp_bind, wp_modify. eapply wp_mono; [apply (write_head_wp dev Hdev c3 l3 nopins (set_lh_n 0 g)); try done|].
  { apply room_nopins. unfold nbuf, NBUF, MAXOPBLOCKS. lia. }
  intros _ s4 (c4 & l4 & -> & Q4 & V4 & D4 & T4 & P4). simpl in D4, T4. fold st in D4, T4.
  rewrite Est3 in D4, T4. exists c4, l4. split; [done|]. split; [done|]. split.
  - rewrite D4, D3, apply_writes_app. done.
  - rewrite T4, T3, <- app_assoc. done.
Qed.

Lemma commit_wp :
  ws ≠ [] →
  wp commit (LState c g) (λ _ s', ∃ c' l', s' = LState c' (set_lh_n 0 g) ∧
    quiet dev c' l' nopins [] ∧ disk c' = apply_writes (disk c) commit_trace ∧
    wtrace c' = wtrace c ++ commit_trace).
Proof.
  intros Hne. unfold commit. apply wp_bind, wp_gets. simpl lg. fold n.
  rewrite (proj2 (Z.ltb_lt 0 n)) by (rewrite ready_n; destruct ws; [done | simpl; lia]). simpl when.
  apply commit_log_wp. intros c2 l2 Q2 Est2 EW D2 T2.
  eapply wp_mono; [by apply (commit_install_wp c2 l2)|].
  intros _ s' (c' & l' & -> & Q' & D' & T'). exists c', l'. split; [done|]. split; [done|].
  unfold commit_trace. rewrite D', D2, T', T2. split; [|by rewrite <- !app_assoc].
  by rewrite <- apply_writes_app, <- app_assoc.
Qed.
End Commit.

(** ** Recovery *)

Definition blocks_of (d : bdata) : list Z := (λ i, hdr_block d (Z.of_nat i)) <$> seq 0 (Z.to_nat (hdr_n d)).

Section Recover.
Context (dev : Z) (Hdev : dev ≠ 0) (st : Z).

(** A cache with no block in it: the state after [binit]. *)
Lemma quiet_boot c l :
  binv c l → (∀ i, bufs c i = buf_zero) → quiet dev c l nopins [].
Proof.
  intros Hi Hz. split; try done.
  - intros i _. by rewrite Hz.
  - apply NoDup_nil_2.
  - intros i _. rewrite Hz. simpl. congruence.
  - intros i _ _. by rewrite Hz.
  - intros i _. rewrite Hz. simpl. congruence.
  - intros x [Hx|Hx]; [unfold nopins in Hx; lia | by apply elem_of_nil in Hx].
Qed.

(** What recovery makes of a disk. *)
Definition recovered (d : Z → bdata) : Z → bdata :=
  apply_writes d (home_writes (st + 1) (blocks_of (d st)) d).

Lemma blocks_of_logged g d f :
  0 ≤ hdr_n d → (∀ j, 0 ≤ j < hdr_n d → f j = hdr_block d j) →
  logged (set_lh_block f (set_lh_n (hdr_n d) g)) (blocks_of d).
Proof.
  intros Hn Hf. split; simpl.
  - unfold blocks_of. rewrite length_fmap, length_seq. lia.
  - intros i w Hi. unfold blocks_of in Hi. apply list_lookup_fmap_Some in Hi as (j & -> & Hj).
    apply lookup_seq in Hj as [-> Hj]. apply Hf. lia.
Qed.

Lemma initlog_wp c l g size :
  quiet dev c l nopins [] → 0 ≤ hdr_n (disk c st) →
  (∀ w, w ∈ blocks_of (disk c st) → ¬ in_log st (hdr_n (disk c st)) w) →
  wp (initlog dev st size) (LState c g) (λ _ s', ∃ h,
    hdr_n h = 0 ∧ disk (cache s') = upd (recovered (disk c)) st h).
Proof.
  intros Q Hn Hbl. unfold initlog. change (BSIZE <=? sizeof_logheader) with false. cbv iota.
  apply wp_bind, wp_modify.
  set (g1 := Log st size (lg_outstanding g) (lg_committing g) dev (lh_n g) (lh_block g)).
  match goal with |- wp _ ?s _ => change s with (LState c g1) end.
  assert (Est : content c dev st = disk c st)
    by (apply (quiet_clean dev Hdev c l nopins []); [done | done | apply not_elem_of_nil]).
  assert (Hr : ∀ k, (k ≤ 2)%nat → room nopins k) by (intros k Hk; apply room_nopins; unfold nbuf, NBUF, MAXOPBLOCKS; lia).
  unfold recover_from_log. apply wp_bind.
  eapply wp_mono; [apply (read_head_wp dev Hdev c l nopins g1); [done | done | done | apply Hr; lia | simpl; by rewrite Est]|].
  intros _ s1 (c1 & l1 & f & -> & Q1 & (V1 & D1 & T1 & P1) & Hf). simpl lg_start in *. rewrite Est in *.
  set (g2 := set_lh_block f (set_lh_n (hdr_n (disk c st)) g1)) in *.
  pose proof (blocks_of_logged g1 (disk c st) f Hn Hf) as Hlg. fold g2 in Hlg.
  unfold install_trans. apply wp_bind, wp_bind, wp_gets. simpl lg.
  rewrite (proj1 Hlg), Nat2Z.id.
  change (install_trans_loop (length (blocks_of (disk c st))) 0) with
    (install_trans_loop (length (blocks_of (disk c st))) (Z.of_nat (@length Z []))).
  eapply wp_mono; [apply (install_loop_wp dev Hdev true (blocks_of (disk c st)) [] c1 l1 nopins g2 (disk c)); try done|].
  { by apply Hr. }
  { intros x _. split; [done|]. rewrite V1.
    apply (quiet_clean dev Hdev c l nopins []); [done | done | apply not_elem_of_nil]. }
  intros _ s2 (c2 & l2 & -> & Q2 & V2 & D2 & T2 & P2).
  change (lg_start g2 + Z.of_nat (@length Z []) + 1) with (st + 0 + 1) in D2. rewrite Z.add_0_r in D2.
  apply wp_bind, wp_modify. change (set_log (set_lh_n 0) (LState c2 g2)) with (LState c2 (set_lh_n 0 g2)).
  eapply wp_mono; [apply (write_head_wp dev Hdev c2 l2 nopins (set_lh_n 0 g2)); try done; apply Hr; lia|].
  intros _ s3 (c3 & l3 & -> & Q3 & V3 & D3 & T3 & P3). simpl in D3 |- *.
  eexists. split; [|rewrite D3, D2, D1; reflexivity]. apply hdr_n_hdr. lia.
Qed.
End Recover.

(** ** A crash between two disk writes of a commit *)

(** Power on with disk [d]: memory is zero, then [binit] and [initlog] run. *)
Definition power_on (d : Z → bdata) : lstate :=
  LState (cold_cache d) (Log 0 0 0 0 0 0 (λ _, 0)).

Definition reboot (dev st size : Z) : M lstate unit := onc binit;; initlog dev st size.

Lemma reboot_wp dev st size d :
  dev ≠ 0 → 0 ≤ hdr_n (d st) →
  (∀ w, w ∈ blocks_of (d st) → ¬ in_log st (hdr_n (d st)) w) →
  wp (reboot dev st size) (power_on d) (λ _ s', ∃ h,
    hdr_n h = 0 ∧ disk (cache s') = upd (recovered st d) st h).
Proof.
  intros Hdev Hn Hw. unfold reboot, power_on. apply wp_bind, wp_onc.
  eapply wp_mono; [by apply binit_wp|]. intros _ c (Hi & Hz & Hd & _). simpl in Hd.
  eapply wp_mono; [apply (initlog_wp dev Hdev st c (rev (seq 0 nbuf))); rewrite ?Hd; [by apply quiet_boot | exact Hn | exact Hw]|].
  intros _ s' (h & Hh & E). exists h. by rewrite <- Hd.
Qed.

Lemma recovered_empty st d : hdr_n (d st) = 0 → recovered st d = d.
Proof. intros H. unfold recovered, blocks_of. by rewrite H. Qed.

Section Crash.
Context (dev : Z) (c : bstate) (l : list nat) (g : log) (ws : list Z).
Context (R : ready dev c l g ws).
Abbreviation st := (lg_start g).
Abbreviation n := (lh_n g).
Abbreviation D := (content c dev).
Abbreviation trace := (commit_trace dev c g ws).
Definition crashed (k : nat) : Z → bdata := apply_writes (disk c) (take k trace).

Lemma n_len : n = Z.of_nat (length ws).
Proof. apply (ready_n dev c l g ws R). Qed.

(** Before the header is written only the log has changed. *)
Lemma crashed_before k x :
  (k ≤ length ws)%nat → x = st ∨ ¬ in_log st n x → crashed k x = disk c x.
Proof.
  intros Hk Hx. unfold crashed, commit_trace. rewrite take_app_le by (rewrite log_writes_length; lia).
  apply apply_writes_out. intros H%take_fst%log_writes_fst. unfold in_log in Hx. rewrite n_len in Hx. lia.
Qed.

Lemma hdr1_n : hdr_n (hdr1 c g) = n.
Proof.
  unfold hdr1. apply hdr_n_hdr. rewrite n_len. pose proof (rd_room _ _ _ _ _ R) as H.
  unfold nbuf, NBUF, MAXOPBLOCKS in H. lia.
Qed.

Lemma hdr1_blocks : blocks_of (hdr1 c g) = ws.
Proof.
  unfold blocks_of. rewrite hdr1_n, n_len, Nat2Z.id. apply list_eq. intros i.
  rewrite list_lookup_fmap. destruct (ws !! i) as [w|] eqn:Ew.
  - pose proof (lookup_lt_Some _ _ _ Ew). rewrite lookup_seq_lt by done. simpl. f_equal.
    pose proof (proj2 (rd_logged _ _ _ _ _ R) i w Ew) as Hb.
    destruct (rd_blocks _ _ _ _ _ R w) as [Hr _]; [by eapply list_elem_of_lookup_2|].
    unfold hdr1. rewrite hdr_block_hdr; [done | rewrite n_len; lia | rewrite Hb; lia].
  - apply lookup_ge_None_1 in Ew. by rewrite lookup_seq_ge.
Qed.

(** The disk after the log and the header have been written. *)
Let logged_disk := upd (apply_writes (disk c) (log_writes (st + 1) ws D)) st (hdr1 c g).

Lemma logged_disk_out x : ¬ in_log st n x → logged_disk x = disk c x.
Proof.
  unfold in_log. rewrite n_len. intros Hx. unfold logged_disk. rewrite upd_ne by lia.
  apply apply_writes_out. intros H%log_writes_fst. lia.
Qed.

Lemma crashed_split k :
  (length ws < k)%nat →
  crashed k = apply_writes logged_disk
    (take (k - length ws - 1) (((λ w, (w, D w)) <$> ws) ++ [(st, hdr0 c g)])).
Proof.
  intros Hk. unfold crashed, commit_trace. rewrite take_app_ge by (rewrite log_writes_length; lia).
  rewrite log_writes_length, apply_writes_app.
  replace (k - length ws)%nat with (S (k - length ws - 1)) at 1 by lia. done.
Qed.

Lemma ws_not_logged x : x ∈ ws → ¬ in_log st n x.
Proof. intros Hx. by destruct (rd_blocks _ _ _ _ _ R x Hx). Qed.

(** Once the header is written, the log holds the whole transaction. *)
Lemma crashed_mid k :
  (length ws < k ≤ length ws + 1 + length ws)%nat →
  crashed k st = hdr1 c g ∧
  (∀ i w, ws !! i = Some w → crashed k (st + 1 + Z.of_nat i) = D w) ∧
  (∀ x, ¬ in_log st n x → x ∉ ws → crashed k x = disk c x).
Proof.
  intros Hk. rewrite crashed_split by lia. rewrite take_app_le by (rewrite length_fmap; lia).
  assert (Hout : ∀ x, (x ∉ ws) → apply_writes logged_disk
    (take (k - length ws - 1) ((λ w, (w, D w)) <$> ws)) x = logged_disk x).
  { intros x Hx. apply apply_writes_out. intros H%take_fst. by rewrite homes_fst in H. }
  assert (Hin : ∀ x, in_log st n x → x ∉ ws) by (intros x Hx Hw; by apply (ws_not_logged x)).
  split; [|split].
  - rewrite Hout; [apply upd_eq|]. apply Hin. unfold in_log. rewrite n_len. lia.
  - intros i w Hi. pose proof (lookup_lt_Some _ _ _ Hi). rewrite Hout.
    + unfold logged_disk. rewrite upd_ne by lia. by apply log_writes_lookup.
    + apply Hin. unfold in_log. rewrite n_len. lia.
  - intros x Hx Hw. rewrite Hout by done. by apply logged_disk_out.
Qed.

Lemma content_out x : (x ∉ ws) → D x = disk c x.
Proof.
  intros Hx. apply (quiet_clean dev (proj1 (rd_dev _ _ _ _ _ R)) c l (pin1 ws) []); [apply R | | apply not_elem_of_nil].
  unfold pin1. by rewrite decide_False.
Qed.

Lemma homes_applied d x :
  apply_writes d ((λ w, (w, D w)) <$> ws) x = if decide (x ∈ ws) then D x else d x.
Proof.
  destruct (decide (x ∈ ws)) as [Hx|Hx].
  - apply apply_writes_in; [rewrite homes_fst; apply R | apply list_elem_of_fmap; eauto].
  - apply apply_writes_out. by rewrite homes_fst.
Qed.

(** After the last write the log is empty and everything is installed. *)
Lemma crashed_after k :
  (length ws + 1 + length ws < k)%nat →
  hdr_n (crashed k st) = 0 ∧ ∀ x, ¬ in_log st n x → crashed k x = D x.
Proof.
  intros Hk. rewrite crashed_split by lia.
  rewrite take_ge by (rewrite length_app, length_fmap; simpl; lia). rewrite apply_writes_app. simpl.
  split; [rewrite upd_eq; apply hdr_n_hdr; lia|]. intros x Hx.
  rewrite upd_ne by (intros ->; apply Hx; unfold in_log; rewrite n_len; lia). rewrite homes_applied.
  destruct (decide (x ∈ ws)) as [|Hw]; [done|]. by rewrite logged_disk_out, content_out.
Qed.

Lemma commit_done :
  let d := apply_writes (disk c) trace in hdr_n (d st) = 0 ∧ ∀ x, ¬ in_log st n x → d x = D x.
Proof.
  pose proof (crashed_after (2 + length trace + 2 * length ws) ltac:(lia)) as H.
  unfold crashed in H. by rewrite take_ge in H by lia.
Qed.

(** What recovery makes of the disk after [k] of the writes. *)
Lemma crashed_recovered k x :
  ¬ in_log st n x →
  recovered st (crashed k) x = if (k <=? length ws)%nat then disk c x else D x.
Proof.
  intros Hx. destruct (Nat.leb_spec k (length ws)) as [Hk|Hk].
  - rewrite recovered_empty; [by apply crashed_before; [|right]|].
    rewrite crashed_before; [apply R | done | by left].
  - destruct (decide (k ≤ length ws + 1 + length ws)%nat) as [Hk'|Hk'].
    + destruct (crashed_mid k) as (E1 & E2 & E3); [lia|]. unfold recovered. rewrite E1, hdr1_blocks.
      rewrite (home_writes_eq (st + 1) ws _ D) by done. rewrite homes_applied.
      destruct (decide (x ∈ ws)) as [|Hw]; [done|]. by rewrite E3, content_out.
    + destruct (crashed_after k) as [E1 E2]; [lia|]. rewrite recovered_empty by done. by apply E2.
Qed.

Lemma crashed_header k :
  0 ≤ hdr_n (crashed k st) ∧
  ∀ w, w ∈ blocks_of (crashed k st) → ¬ in_log st (hdr_n (crashed k st)) w.
Proof.
  destruct (decide (k ≤ length ws)%nat); [|destruct (decide (k ≤ length ws + 1 + length ws)%nat)].
  - rewrite crashed_before by (done || by left). unfold blocks_of. rewrite (rd_empty _ _ _ _ _ R).
    split; [lia|]. by intros w ?%elem_of_nil.
  - destruct (crashed_mid k) as (E1 & _); [lia|]. rewrite E1, hdr1_blocks, hdr1_n.
    split; [rewrite n_len; lia | apply ws_not_logged].
  - destruct (crashed_after k) as [E1 _]; [lia|]. unfold blocks_of. rewrite E1.
    split; [lia|]. by intros w ?%elem_of_nil.
Qed.

Lemma crash_recovery k size :
  wp (reboot dev st size) (power_on (crashed k)) (λ _ s', ∀ x, ¬ in_log st n x →
    disk (cache s') x = if (k <=? length ws)%nat then disk c x else D x).
Proof.
  destruct (crashed_header k) as [H1 H2].
  eapply wp_mono; [apply reboot_wp; [apply R | done | done]|].
  intros _ s' (h & _ & ->) x Hx. rewrite upd_ne; [by apply crashed_recovered|].
  intros ->. apply Hx. unfold in_log. rewrite n_len. lia.
Qed.
End Crash.

(** A commit is atomic with respect to crashes: cut the sequence of its
    disk writes after any number [k] of them and power the machine on again;
    recovery then leaves on disk, outside the log, either none of the
    transaction's blocks (at most the log blocks were written) or all of them
    (the header was written too).  Without a crash the commit completes. *)
Theorem commit_crash_safe dev c l g ws :
  ready dev c l g ws → ws ≠ [] →
  wp commit (LState c g) (λ _ s', ∃ T : list (Z * bdata),
    wtrace (cache s') = wtrace c ++ T ∧ disk (cache s') = apply_writes (disk c) T ∧
    (∀ x, ¬ in_log (lg_start g) (lh_n g) x → disk (cache s') x = content c dev x) ∧
    lg s' = set_lh_n 0 g ∧ (∃ l', quiet dev (cache s') l' nopins []) ∧
    ∀ k, wp (reboot dev (lg_start g) (lg_size g)) (power_on (apply_writes (disk c) (take k T)))
      (λ _ s2, ∀ x, ¬ in_log (lg_start g) (lh_n g) x →
        disk (cache s2) x = if (k <=? length ws)%nat then disk c x else content c dev x)).
Proof.
  intros R Hne. eapply wp_mono; [by apply (commit_wp dev c l g ws R)|].
  intros _ s' (c' & l' & -> & Q' & D' & T'). exists (commit_trace dev c g ws).
  split; [done|]. split; [done|]. split.
  { intros x Hx. simpl. rewrite D'. by apply (commit_done dev c l g ws R). }
  split; [done|]. split; [by exists l'|]. intros k. by apply (crash_recovery dev c l g ws R k).
Qed.
