(* ===== verification/LogOps.v ===== *)
(** * Transactions (kernel/log.c)

    [begin_op], [log_write] and [end_op] as the file system uses them: what one
    transaction does to the blocks it updates, and the reservation of log space
    that lets several of them run at once. *)

From stdpp Require Import base numbers list strings relations.
From S2P Require Import Prelude Layout Bio BioProofs BioSpec BioView Log LogProofs LogSpec.
Local Open Scope Z_scope.

(** The pattern of fs.c: read a block, change it, log it, release it. *)
Definition update (dev : Z) (u : Z * (bdata → bdata)) : M lstate unit :=
  b ← onc (bread dev u.1); onc (bmodify b u.2);; log_write b;; onc (brelse b).

Fixpoint updates (dev : Z) (us : list (Z * (bdata → bdata))) : M lstate unit :=
  match us with
  | [] => mret tt
  | u :: us' => update dev u;; updates dev us'
  end.

Definition transaction (dev : Z) (us : list (Z * (bdata → bdata))) : M lstate unit :=
  begin_op;; updates dev us;; end_op.

(** The blocks after the updates. *)
Definition updated (D : Z → bdata) (us : list (Z * (bdata → bdata))) : Z → bdata :=
  foldl (λ D u, upd D u.1 (u.2 (D u.1))) D us.

(** The list of logged blocks after [log_write]: a block is listed once. *)
Definition absorb (ws : list Z) (blk : Z) : list Z := if decide (blk ∈ ws) then ws else ws ++ [blk].

(** ** [log_write] *)

Lemma log_find_spec g ws blk pre rest :
  logged g ws → ws = pre ++ rest → (blk ∉ pre) →
  let i := log_find (length rest) (Z.of_nat (length pre)) g blk in
  (blk ∈ ws ∧ 0 ≤ i < lh_n g ∧ lh_block g i = blk) ∨ ((blk ∉ ws) ∧ i = lh_n g).
Proof.
  intros Hlg. revert pre. induction rest as [|w rest IH]; intros pre -> Hpre; simpl.
  - rewrite app_nil_r in *. destruct Hlg as [En _]. rewrite (proj2 (Z.ltb_ge _ _)) by lia. right. by rewrite En.
  - destruct (logged_at g pre w rest Hlg) as [Eb Hlt]. rewrite (proj2 (Z.ltb_lt _ _)) by done.
    rewrite Eb. destruct (Z.eqb_spec w blk) as [->|Hne].
    + left. split; [apply elem_of_app; right; by left|]. split; [lia | done].
    + replace (Z.of_nat (length pre) + 1) with (Z.of_nat (length (pre ++ [w]))) by (rewrite length_app; simpl; lia).
      apply (IH (pre ++ [w])); [by rewrite <- app_assoc|].
      rewrite elem_of_app, list_elem_of_singleton. intros [H|H]; [done | by apply Hne].
Qed.

Lemma pin1_absorb ws blk :
  pin1 (absorb ws blk) = if decide (blk ∈ ws) then pin1 ws else upd (pin1 ws) blk (pin1 ws blk + 1).
Proof.
  unfold absorb. destruct (decide (blk ∈ ws)) as [|Hn]; [done|].
  apply FunctionalExtensionality.functional_extensionality. intros x. unfold pin1, upd.
  destruct (Z.eqb_spec x blk) as [->|Hne].
  - rewrite decide_True by (apply elem_of_app; right; by left). by rewrite decide_False.
  - apply decide_ext. rewrite elem_of_app, list_elem_of_singleton. tauto.
Qed.

Lemma absorb_nodup ws blk : NoDup ws → NoDup (absorb ws blk).
Proof.
  intros H. unfold absorb. destruct (decide _) as [|Hn]; [done|]. apply NoDup_app. split; [done|].
  split; [|apply NoDup_singleton]. intros x Hx ->%list_elem_of_singleton. done.
Qed.

Lemma absorb_in ws blk x : x ∈ absorb ws blk ↔ x ∈ ws ∨ x = blk.
Proof.
  unfold absorb. destruct (decide _) as [H|H]; [|by rewrite elem_of_app, list_elem_of_singleton].
  split; [by left | intros [| ->]; done].
Qed.

Lemma absorb_length ws blk : (length ws ≤ length (absorb ws blk) ≤ S (length ws))%nat.
Proof. unfold absorb. destruct (decide _); rewrite ?length_app; simpl; lia. Qed.

(** The in-memory header after a block is logged. *)
Definition log_grown (g g' : log) : Prop :=
  lg_start g' = lg_start g ∧ lg_size g' = lg_size g ∧ lg_dev g' = lg_dev g ∧
  lg_outstanding g' = lg_outstanding g ∧ lg_committing g' = lg_committing g.

Section Ops.
Context (dev : Z) (Hdev : dev ≠ 0).

Lemma log_write_wp c l g ws hs b blk :
  quiet dev c l (pin1 ws) hs → at_buf dev c l hs b blk → logged g ws →
  1 ≤ lg_outstanding g → lh_n g < LOGSIZE → lh_n g < lg_size g - 1 →
  wp (log_write b) (LState c g) (λ _ s', ∃ c' g', s' = LState c' g' ∧
    quiet dev c' l (pin1 (absorb ws blk)) hs ∧
    (∀ b' x, at_buf dev c l hs b' x → at_buf dev c' l hs b' x) ∧ same_view dev c c' ∧
    logged g' (absorb ws blk) ∧ log_grown g g').
Proof.
  intros Q A Hlg Ho H1 H2. unfold log_write. apply wp_bind, wp_gets. simpl lg.
  rewrite (proj2 (Z.leb_gt _ _)), (proj2 (Z.leb_gt _ _)), (proj2 (Z.ltb_ge _ _)) by lia. simpl orb. cbv iota.
  apply wp_bind, wp_gets. simpl cache.
  pose proof A as (_ & _ & [_ Eb]%is_block_true). rewrite Eb.
  pose proof (log_find_spec g ws blk [] ws Hlg eq_refl (not_elem_of_nil _)) as Hf.
  change (Z.of_nat (@length Z [])) with 0 in Hf. cbv zeta in Hf.
  replace (Z.to_nat (lh_n g)) with (length ws) by (rewrite (proj1 Hlg); lia). set (i := log_find (length ws) 0 g blk) in *.
  apply wp_bind, wp_modify. pose proof (pin1_absorb ws blk) as Ep. destruct Hf as [(Hin & Hi & Ei)|[Hn Ei]].
  - rewrite (proj2 (Z.eqb_neq i (lh_n g))) by lia. simpl when. apply wp_ret.
    rewrite decide_True in Ep by done. unfold absorb in *. rewrite decide_True in * by done.
    exists c, (set_lh_block (upd (lh_block g) i blk) g). split; [done|]. split; [done|]. split; [done|].
    split; [done|]. split; [|done]. split; [apply Hlg|]. intros j w Hj. simpl. rewrite <- (proj2 Hlg j w Hj).
    unfold upd. destruct (Z.eqb_spec (Z.of_nat j) i) as [->|]; [by rewrite Ei | done].
  - rewrite Ei, Z.eqb_refl. simpl when. rewrite decide_False in Ep by done.
    apply wp_bind, wp_onc. simpl cache.
    eapply wp_mono; [apply (bpin_view dev Hdev c l (pin1 ws) hs b blk Q A); unfold pin1; destruct (decide _); lia|].
    intros _ c' (Q' & A' & V'). apply wp_modify. eexists c', _. split; [reflexivity|]. rewrite Ep.
    split; [done|]. split; [done|]. split; [done|]. split; [|done].
    unfold absorb. rewrite decide_False by done. split; simpl.
    + rewrite (proj1 Hlg), length_app. simpl. lia.
    + intros j w [Hj|[Hge Hj]]%lookup_app_Some.
      * pose proof (lookup_lt_Some _ _ _ Hj). rewrite upd_ne by (rewrite (proj1 Hlg); lia). by apply (proj2 Hlg).
      * destruct (j - length ws)%nat as [|] eqn:Ej; [|done]. injection Hj as ->.
        replace (Z.of_nat j) with (lh_n g) by (rewrite (proj1 Hlg); lia). apply upd_eq.
Qed.

(** Inside a transaction: [ws] logged so far, no buffer held. *)
Record inside (c : bstate) (l : list nat) (g : log) (ws : list Z) : Prop := Inside {
  in_quiet : quiet dev c l (pin1 ws) [];
  in_logged : logged g ws;
  in_nodup : NoDup ws;
}.

Lemma update_wp c l g ws blk f :
  inside c l g ws → (length ws < nbuf)%nat →
  1 ≤ lg_outstanding g → lh_n g < LOGSIZE → lh_n g < lg_size g - 1 →
  wp (update dev (blk, f)) (LState c g) (λ _ s', ∃ c' l' g', s' = LState c' g' ∧
    inside c' l' g' (absorb ws blk) ∧ log_grown g g' ∧
    (∀ x, content c' dev x = upd (content c dev) blk (f (content c dev blk)) x) ∧
    disk c' = disk c ∧ wtrace c' = wtrace c).
Proof.
  intros [Q Hlg Hnd] Hl Ho H1 H2. unfold update. simpl fst. simpl snd.
  apply wp_bind, wp_onc. eapply wp_mono; [apply (bread_view dev Hdev c l (pin1 ws) [] blk ws Q); [apply not_elem_of_nil|]|].
  { right. split; [|done]. intros x [Hx|Hx]; [|by apply elem_of_nil in Hx].
    unfold pin1 in Hx. destruct (decide _); [done | lia]. }
  intros b c1 (Q1 & A1 & _ & V1 & D1 & T1 & _).
  apply wp_bind, wp_onc. eapply wp_mono; [by apply (bmodify_view dev Hdev c1 l (pin1 ws) [blk] b blk)|].
  intros _ c2 (Q2 & F2 & V2 & D2 & T2 & _).
  apply wp_bind. eapply wp_mono; [apply (log_write_wp c2 l g ws [blk] b blk); [done | by apply F2 | done..]|].
  intros _ s3 (c3 & g3 & -> & Q3 & F3 & (V3 & D3 & T3 & _) & Hlg3 & Hg3).
  apply wp_onc. eapply wp_mono; [apply (brelse_view dev Hdev c3 l (pin1 (absorb ws blk)) [] [] b blk Q3 (F3 _ _ (F2 _ _ A1)))|].
  { unfold pin1. rewrite decide_True; [done|]. apply absorb_in. by right. }
  intros _ c4 (l4 & Q4 & _ & V4 & D4 & T4 & _). exists c4, l4, g3. split; [done|].
  split; [split; [done | done | by apply absorb_nodup]|]. split; [done|]. split; [|split; congruence].
  intros x. rewrite V4, V3, V2, !V1. unfold upd. by destruct (x =? blk).
Qed.

Lemma updated_ext us D D' :
  (∀ x, D x = D' x) → ∀ x, updated D us x = updated D' us x.
Proof.
  intros H. replace D' with D; [done|]. by apply FunctionalExtensionality.functional_extensionality.
Qed.

Lemma log_grown_trans g g' g'' : log_grown g g' → log_grown g' g'' → log_grown g g''.
Proof.
  intros (A1 & A2 & A3 & A4 & A5) (B1 & B2 & B3 & B4 & B5). unfold log_grown. repeat split; congruence.
Qed.

Lemma updates_wp us c l g ws :
  inside c l g ws → (length ws + length us ≤ 29)%nat → 1 ≤ lg_outstanding g →
  Z.of_nat (length ws + length us) < lg_size g →
  wp (updates dev us) (LState c g) (λ _ s', ∃ c' l' g', s' = LState c' g' ∧
    inside c' l' g' (foldl absorb ws us.*1) ∧ log_grown g g' ∧
    (∀ x, content c' dev x = updated (content c dev) us x) ∧ disk c' = disk c ∧ wtrace c' = wtrace c).
Proof.
  revert c l g ws. induction us as [|[blk f] us IH]; intros c l g ws I Hl Ho Hs; cbn [updates].
  { apply wp_ret. by exists c, l, g. }
  pose proof (proj1 (in_logged _ _ _ _ I)) as En. simpl in Hl, Hs. apply wp_bind.
  eapply wp_mono; [apply (update_wp c l g ws blk f I); [unfold nbuf, NBUF, MAXOPBLOCKS | | unfold LOGSIZE, MAXOPBLOCKS|]; lia|].
  intros _ s1 (c1 & l1 & g1 & -> & I1 & G1 & V1 & D1 & T1). pose proof (absorb_length ws blk).
  eapply wp_mono; [apply (IH c1 l1 g1 (absorb ws blk) I1)|].
  { lia. }
  { destruct G1 as (_ & _ & _ & -> & _). done. }
  { destruct G1 as (_ & -> & _). lia. }
  intros _ s2 (c2 & l2 & g2 & -> & I2 & G2 & V2 & D2 & T2). exists c2, l2, g2. split; [done|].
  split; [done|]. split; [by apply (log_grown_trans g g1 g2)|]. split; [|split; congruence].
  intros x. rewrite V2. exact (updated_ext us _ _ V1 x).
Qed.
End Ops.

Lemma foldl_absorb_in ws bs x : x ∈ foldl absorb ws bs ↔ x ∈ ws ∨ x ∈ bs.
Proof.
  revert ws. induction bs as [|b bs IH]; intros ws; simpl.
  - pose proof (not_elem_of_nil x). tauto.
  - rewrite IH, absorb_in, elem_of_cons. tauto.
Qed.

Lemma foldl_absorb_length ws bs : (length (foldl absorb ws bs) ≤ length ws + length bs)%nat.
Proof.
  revert ws. induction bs as [|b bs IH]; intros ws; simpl; [lia|].
  pose proof (IH (absorb ws b)). pose proof (absorb_length ws b). lia.
Qed.

(** No transaction is running and the log is empty. *)
Record idle (dev : Z) (c : bstate) (l : list nat) (g : log) : Prop := Idle {
  id_dev : dev ≠ 0 ∧ lg_dev g = dev;
  id_quiet : quiet dev c l nopins [];
  id_log : lh_n g = 0 ∧ lg_outstanding g = 0 ∧ lg_committing g = 0;
  id_size : MAXOPBLOCKS < lg_size g;
  id_empty : hdr_n (disk c (lg_start g)) = 0;
}.

(** The blocks a transaction may update: outside the log, at most [MAXOPBLOCKS]. *)
Definition admissible (g : log) (us : list (Z * (bdata → bdata))) : Prop :=
  us ≠ [] ∧ Z.of_nat (length us) ≤ MAXOPBLOCKS ∧
  ∀ u, u ∈ us.*1 → 0 ≤ u < 2 ^ 31 ∧ ¬ in_log (lg_start g) MAXOPBLOCKS u.

Lemma pin1_nil : pin1 [] = nopins.
Proof.
  apply FunctionalExtensionality.functional_extensionality. intros x. unfold pin1.
  by rewrite decide_False by apply not_elem_of_nil.
Qed.

Section Transaction.
Context (dev : Z) (c : bstate) (l : list nat) (g : log) (us : list (Z * (bdata → bdata))).
Context (Hidle : idle dev c l g) (Hadm : admissible g us).

Lemma idle_content x : content c dev x = disk c x.
Proof.
  destruct Hidle as [[Hdev _] Q _ _ _].
  apply (quiet_clean dev Hdev c l nopins []); [done | done | apply not_elem_of_nil].
Qed.

(** The state in which [end_op] commits. *)
Lemma commit_ready c1 l1 g1 g2 ws :
  inside dev c1 l1 g1 ws → log_grown (set_outstanding 1 g) g1 → ws = foldl absorb [] us.*1 →
  disk c1 = disk c → g2 = set_committing 1 (set_outstanding 0 g1) → ready dev c1 l1 g2 ws.
Proof.
  intros [Q Hlg Hnd] (E1 & E2 & E3 & _) Hws Hd ->. simpl in *.
  destruct Hidle as [[Hdev Ed] _ _ _ He], Hadm as (_ & Hlen & Hblk).
  pose proof (foldl_absorb_length [] us.*1) as Hl. rewrite length_fmap, <- Hws in Hl.
  simpl in Hl. unfold MAXOPBLOCKS in Hlen.
  split; [split; [done | simpl; congruence] | done | done | done | unfold nbuf, NBUF, MAXOPBLOCKS; lia | |].
  - intros w Hw. destruct (Hblk w) as [Hr Hn].
    { rewrite Hws in Hw. apply foldl_absorb_in in Hw as [Hw|Hw]; [by apply elem_of_nil in Hw | done]. }
    split; [done|]. simpl. rewrite E1, (proj1 Hlg). unfold in_log, MAXOPBLOCKS in *. lia.
  - simpl. by rewrite E1, Hd.
Qed.

Lemma open_inside : inside dev c l (set_outstanding 1 g) [].
Proof.
  destruct Hidle as [_ Q [En _] _ _]. split; [by rewrite pin1_nil| |apply NoDup_nil_2].
  split; [simpl; by rewrite En|]. intros i w Hi. by rewrite lookup_nil in Hi.
Qed.

(** A transaction up to its commit. *)
Lemma transaction_commits Q :
  (∀ c1 l1 g1 ws, ready dev c1 l1 g1 ws → ws ≠ [] → disk c1 = disk c → wtrace c1 = wtrace c →
    (∀ x, content c1 dev x = updated (disk c) us x) → lh_n g1 ≤ MAXOPBLOCKS →
    lg_start g1 = lg_start g → lg_size g1 = lg_size g → lg_outstanding g1 = 0 →
    wp commit (LState c1 g1) (λ _ s', Q tt (set_log (set_committing 0) s'))) →
  wp (transaction dev us) (LState c g) Q.
Proof.
  intros HQ. pose proof Hidle as [[Hdev Ed] Q0 (En & Eo & Ec) Hs He]. pose proof Hadm as (Hne & Hlen & Hblk).
  unfold transaction, begin_op. apply wp_bind, wp_bind, wp_gets. simpl lg. rewrite Ec, Eo, En.
  change (nonzero 0) with false. change (LOGSIZE <? 0 + (0 + 1) * MAXOPBLOCKS) with false. cbv iota.
  apply wp_modify. change (set_log _ (LState c g)) with (LState c (set_outstanding (0 + 1) g)).
  apply wp_bind. unfold MAXOPBLOCKS in Hlen, Hs.
  eapply wp_mono; [apply (updates_wp dev Hdev us c l _ [] open_inside); simpl; lia|].
  intros _ s1 (c1 & l1 & g1 & -> & I1 & G1 & V1 & D1 & T1).
  pose proof (commit_ready c1 l1 g1 _ _ I1 G1 eq_refl D1 eq_refl) as R.
  pose proof G1 as (E1 & E2 & E3 & E4 & E5). simpl in E1, E2, E3, E4, E5.
  unfold end_op. apply wp_bind, wp_modify, wp_bind, wp_gets. simpl. rewrite E4, E5, Ec.
  change (nonzero 0) with false. change (1 - 1 =? 0) with true. cbv iota.
  apply wp_bind, wp_modify, wp_bind. unfold set_log at 2 3. simpl cache. simpl lg.
  rewrite E4. change (1 - 1) with 0.
  eapply wp_mono; [apply (HQ c1 l1 _ _ R); try done|].
  - destruct us as [|u us']; [done|]. intros E.
    assert (Hin : u.1 ∈ foldl absorb [] (u :: us').*1) by (apply foldl_absorb_in; right; by left).
    rewrite E in Hin. by apply elem_of_nil in Hin.
  - intros x. rewrite V1. apply updated_ext, idle_content.
  - simpl. rewrite (proj1 (in_logged _ _ _ _ _ I1)). pose proof (foldl_absorb_length [] us.*1) as Hl.
    rewrite length_fmap in Hl. simpl in Hl. unfold MAXOPBLOCKS. lia.
  - intros [] s' H. by apply wp_modify.
Qed.
End Transaction.

(** C3. Transactions are atomic and durable: from an idle log, a transaction
    that updates at most [MAXOPBLOCKS] blocks runs to its end, leaves the disk
    with every update applied and the log idle; and if the machine loses power
    after any number [k] of the disk writes it makes, then after recovery every
    block outside the log has its old contents, or every one its new contents. *)
Theorem transaction_atomic dev c l g us :
  idle dev c l g → admissible g us →
  wp (transaction dev us) (LState c g) (λ _ s', ∃ (T : list (Z * bdata)) l',
    idle dev (cache s') l' (lg s') ∧ wtrace (cache s') = wtrace c ++ T ∧
    (∀ x, ¬ in_log (lg_start g) MAXOPBLOCKS x → disk (cache s') x = updated (disk c) us x) ∧
    ∀ k, wp (reboot dev (lg_start g) (lg_size g)) (power_on (apply_writes (disk c) (take k T)))
      (λ _ s2,
        (∀ x, ¬ in_log (lg_start g) MAXOPBLOCKS x → disk (cache s2) x = disk c x) ∨
        (∀ x, ¬ in_log (lg_start g) MAXOPBLOCKS x → disk (cache s2) x = updated (disk c) us x))).
Proof.
  intros Hidle Hadm. apply (transaction_commits dev c l g us Hidle Hadm).
  intros c1 l1 g1 ws R Hne D1 T1 V1 Hn Es Ez Eo. pose proof Hidle as [[Hdev Ed] _ _ Hs _].
  assert (Hin : ∀ x, ¬ in_log (lg_start g) MAXOPBLOCKS x → ¬ in_log (lg_start g1) (lh_n g1) x)
    by (intros x; unfold in_log; rewrite Es; lia).
  eapply wp_mono; [by apply (commit_wp dev c1 l1 g1 ws R)|].
  intros _ s' (c' & l' & -> & Q' & D' & T'). exists (commit_trace dev c1 g1 ws), l'.
  destruct (commit_done dev c1 l1 g1 ws R) as [Hh Hx]. rewrite <- D' in Hh, Hx. simpl.
  split; [split; simpl; [apply R | done | done | by rewrite Ez | done]|].
  split; [by rewrite T', T1|]. split; [intros x Hl; by rewrite Hx, V1 by auto|].
  intros k. rewrite <- D1, <- Es, <- Ez. eapply wp_mono; [apply (crash_recovery dev c1 l1 g1 ws R k)|].
  intros u s2 H2. simpl in H2. destruct (k <=? length ws)%nat; [left | right]; intros x Hl; rewrite Es in Hl;
    rewrite H2 by auto; [done | rewrite D1; by apply V1].
Qed.

(** A log of 30 blocks at block 2 of device 1, after boot. *)
Definition demo_log : log := Log 2 30 0 0 1 0 (λ _, 0).
Definition demo_disk : Z → bdata := λ _ _, 0.
Definition demo_us : list (Z * (bdata → bdata)) := [(50, λ d, upd d 0 7); (60, λ d, upd d 3 8)].

Lemma demo_idle : idle 1 (boot_cache demo_disk) boot_lru demo_log.
Proof.
  destruct (boot_cache_ok demo_disk) as (Hi & Hz & Hd & _).
  split; [done | by apply quiet_boot | done | done|]. rewrite Hd. reflexivity.
Qed.

Lemma demo_admissible : admissible demo_log demo_us.
Proof.
  split; [done|]. split; [unfold MAXOPBLOCKS; simpl; lia|]. unfold in_log, MAXOPBLOCKS. simpl.
  intros u [->|[->|[]%elem_of_nil]%elem_of_cons]%elem_of_cons; lia.
Qed.

Lemma transaction_atomic_witness :
  wp (transaction 1 demo_us) (LState (boot_cache demo_disk) demo_log) (λ _ s',
    disk (cache s') 50 0 = 7 ∧ disk (cache s') 60 3 = 8).
Proof.
  eapply wp_mono; [apply (transaction_atomic 1 (boot_cache demo_disk) boot_lru demo_log demo_us demo_idle demo_admissible)|].
  intros _ s' (T & l' & _ & _ & H & _).
  rewrite !H by (unfold in_log, MAXOPBLOCKS; simpl; lia).
  destruct (boot_cache_ok demo_disk) as (_ & _ & -> & _). done.
Defined.

(** The cache and the log when the demo transaction commits. *)
Lemma demo_ready : ∃ c l g ws, ready 1 c l g ws ∧ ws ≠ [] ∧ lg_start g = 2 ∧ lh_n g = 2 ∧ content c 1 50 0 = 7.
Proof.
  pose proof demo_idle as I. assert (H1 : (1 : Z) ≠ 0) by done.
  destruct (wp_run _ _ _ (LState (boot_cache demo_disk) demo_log)
    (updates_wp 1 H1 demo_us (boot_cache demo_disk) boot_lru _ [] (open_inside 1 _ _ _ I)
      ltac:(simpl; lia) ltac:(simpl; lia) ltac:(simpl; lia))) as (_ & c1 & l1 & g1 & _ & I1 & G1 & V1 & D1 & _).
  exists c1, l1, (set_committing 1 (set_outstanding 0 g1)), [50; 60].
  split; [by apply (commit_ready 1 _ _ _ demo_us I demo_admissible c1 l1 g1)|]. split; [done|].
  split; [apply G1|]. split; [apply (proj1 (in_logged _ _ _ _ _ I1))|]. by rewrite V1.
Qed.

Lemma commit_crash_safe_witness :
  ∃ c g, wp commit (LState c g) (λ _ s', disk (cache s') 50 0 = 7).
Proof.
  destruct demo_ready as (c & l & g & ws & R & Hne & Es & En & Ec). exists c, g.
  eapply wp_mono; [apply (commit_crash_safe 1 c l g ws R Hne)|].
  intros _ s' (T & _ & _ & H & _). rewrite H; [exact Ec|]. unfold in_log. rewrite Es, En. lia.
Defined.
