(* ===== verification/LogSpace.v ===== *)
(** * Reservation of log space (kernel/log.c)

    [begin_op] admits an operation only if the log has room for [MAXOPBLOCKS]
    more blocks per operation outstanding.  Several operations interleave their
    calls of [log_write]; the reservation is what keeps the log from overflowing. *)

From stdpp Require Import base numbers list strings relations.
From S2P Require Import Prelude Layout Bio BioProofs BioSpec Log LogProofs LogSpec LogOps.
Local Open Scope Z_scope.

(** Operations in progress, each with the number of [log_write]s it has made. *)
Abbreviation ops := (list nat).

(** The steps of the system on the log: operations begin, write and end in any
    order, and the cache may change in any way in between. *)
Inductive lstep : lstate * ops → lstate * ops → Prop :=
  | l_begin s s' os : begin_op s = Ret (tt, s') → lstep (s, os) (s', os ++ [0%nat])
  | l_write s s' os i u b :
      os !! i = Some u → Z.of_nat u < MAXOPBLOCKS → log_write b s = Ret (tt, s') →
      lstep (s, os) (s', <[i := S u]> os)
  | l_end s s' os i : is_Some (os !! i) → end_op s = Ret (tt, s') → lstep (s, os) (s', delete i os)
  | l_cache s os c : lstep (s, os) (set_cache c s, os).

(** ** What the operations do to the header in memory *)

(** [m] leaves [lg] as it is. *)
Definition keeps {A} (m : M lstate A) : Prop := ∀ s a s', m s = Ret (a, s') → lg s' = lg s.

Lemma keeps_bind {A B} (m : M lstate A) (k : A → M lstate B) :
  keeps m → (∀ a, keeps (k a)) → keeps (m ≫= k).
Proof. intros Hm Hk s b s' (a & s1 & H1 & H2)%bind_Ret. by rewrite (Hk _ _ _ _ H2), (Hm _ _ _ H1). Qed.

Lemma keeps_ret {A} (a : A) : keeps (mret a).
Proof. by intros s b s' [= -> <-]. Qed.

Lemma keeps_gets {A} (f : lstate → A) : keeps (gets f).
Proof. by intros s b s' [= <- <-]. Qed.

Lemma keeps_onc {A} (m : M bstate A) : keeps (onc m).
Proof.
  intros s a s'. unfold onc, zoom. destruct (m (cache s)) as [[b c]| | |]; [|done..]. by intros [= <- <-].
Qed.

Lemma keeps_diverge {A} : keeps (@diverge lstate A).
Proof. by intros s a s'. Qed.

Create HintDb keeps.
#[export] Hint Resolve keeps_bind keeps_ret keeps_gets keeps_onc keeps_diverge : keeps.

Lemma keeps_write_log_loop fuel tail : keeps (write_log_loop fuel tail).
Proof.
  revert tail. induction fuel as [|fuel IH]; intros tail; cbn [write_log_loop];
    (apply keeps_bind; [auto with keeps|]); intros g; destruct (tail <? lh_n g); auto 20 with keeps.
Qed.

Lemma keeps_install_trans_loop fuel tail r : keeps (install_trans_loop fuel tail r).
Proof.
  revert tail. induction fuel as [|fuel IH]; intros tail; cbn [install_trans_loop];
    (apply keeps_bind; [auto with keeps|]); intros g; destruct (tail <? lh_n g); auto with keeps.
  destruct r; cbn [negb when]; auto 20 with keeps.
Qed.

Lemma keeps_write_head_loop fuel i b : keeps (write_head_loop fuel i b).
Proof.
  revert i. induction fuel as [|fuel IH]; intros i; cbn [write_head_loop];
    (apply keeps_bind; [auto with keeps|]); intros g; destruct (i <? lh_n g); auto with keeps.
Qed.

#[export] Hint Resolve keeps_write_log_loop keeps_install_trans_loop keeps_write_head_loop : keeps.

Lemma keeps_write_head : keeps write_head.
Proof. unfold write_head. auto 10 with keeps. Qed.

Lemma keeps_write_log : keeps write_log.
Proof. unfold write_log. auto with keeps. Qed.

Lemma keeps_install_trans r : keeps (install_trans r).
Proof. unfold install_trans. auto with keeps. Qed.

Lemma commit_header s s' :
  0 ≤ lh_n (lg s) → commit s = Ret (tt, s') → lg s' = set_lh_n 0 (lg s).
Proof.
  intros Hn. unfold commit. intros (g & s1 & [= <- <-] & H)%bind_Ret.
  destruct (Z.ltb_spec 0 (lh_n (lg s))) as [Hp|Hp]; cbn [when] in H.
  - apply bind_Ret in H as (u1 & s1 & H1 & H). apply bind_Ret in H as (u2 & s2 & H2 & H).
    apply bind_Ret in H as (u3 & s3 & H3 & H). apply bind_Ret in H as (u4 & s4 & [= _ <-] & H).
    rewrite (keeps_write_head _ _ _ H). simpl.
    by rewrite (keeps_install_trans _ _ _ _ H3), (keeps_write_head _ _ _ H2), (keeps_write_log _ _ _ H1).
  - injection H as <-. destruct (lg s). unfold set_lh_n. simpl in *. f_equal. lia.
Qed.

(** ** The invariant *)

(** What the operations in progress may still write. *)
Definition reserved (os : ops) : Z := foldr (λ u n, MAXOPBLOCKS - Z.of_nat u + n) 0 os.

Record space_inv (st : lstate * ops) : Prop := SpaceInv {
  sp_out : lg_outstanding (lg st.1) = Z.of_nat (length st.2);
  sp_committing : lg_committing (lg st.1) = 0;
  sp_used : Forall (λ u, Z.of_nat u ≤ MAXOPBLOCKS) st.2;
  sp_n : 0 ≤ lh_n (lg st.1);
  sp_room : lh_n (lg st.1) + reserved st.2 ≤ LOGSIZE;
  sp_size : LOGSIZE < lg_size (lg st.1);
}.

Lemma reserved_app os os' : reserved (os ++ os') = reserved os + reserved os'.
Proof. unfold reserved. induction os as [|u os IH]; simpl; [done|]. rewrite IH. lia. Qed.

Lemma reserved_split os i u :
  os !! i = Some u → reserved os = reserved (delete i os) + (MAXOPBLOCKS - Z.of_nat u).
Proof.
  intros H. rewrite delete_take_drop. rewrite <- (take_drop_middle os i u H) at 1.
  rewrite !reserved_app. simpl. lia.
Qed.

Lemma reserved_insert os i u v :
  os !! i = Some u → reserved (<[i := v]> os) = reserved os + Z.of_nat u - Z.of_nat v.
Proof.
  intros H. pose proof (lookup_lt_Some _ _ _ H). rewrite insert_take_drop by done.
  rewrite <- (take_drop_middle os i u H) at 3. rewrite !reserved_app. simpl. lia.
Qed.

Lemma reserved_bound os :
  Forall (λ u, Z.of_nat u ≤ MAXOPBLOCKS) os → 0 ≤ reserved os ≤ MAXOPBLOCKS * Z.of_nat (length os).
Proof. unfold reserved, MAXOPBLOCKS. induction 1; simpl in *; lia. Qed.

(** An operation that has made fewer than [MAXOPBLOCKS] writes can make another. *)
Lemma log_write_total s os i u b :
  space_inv (s, os) → os !! i = Some u → Z.of_nat u < MAXOPBLOCKS →
  ∃ s', log_write b s = Ret (tt, s').
Proof.
  intros [H1 H2 H3 H4 H5 H6] Hi Hu. simpl in *.
  pose proof (reserved_split os i u Hi) as E.
  pose proof (reserved_bound (delete i os) (Forall_delete _ _ _ H3)) as [Hb _].
  pose proof (lookup_lt_Some _ _ _ Hi).
  unfold log_write. unfold mbind, M_bind, gets.
  rewrite (proj2 (Z.leb_gt LOGSIZE _)), (proj2 (Z.leb_gt (lg_size _ - 1) _)), (proj2 (Z.ltb_ge _ 1)) by lia.
  simpl. unfold when. destruct (_ =? _); eexists; reflexivity.
Qed.

Lemma log_write_header s b s' :
  log_write b s = Ret (tt, s') →
  ∃ n, (n = lh_n (lg s) ∨ n = lh_n (lg s) + 1) ∧ lh_n (lg s') = n ∧ log_grown (lg s) (lg s').
Proof.
  unfold log_write. intros (g & s1 & [= <- <-] & H)%bind_Ret.
  destruct (_ || _); [done|]. destruct (lg_outstanding (lg s) <? 1); [done|].
  apply bind_Ret in H as (k & s1 & [= <- <-] & H). apply bind_Ret in H as (u & s1 & [= _ <-] & H).
  unfold when in H. destruct (_ =? _).
  - apply bind_Ret in H as (v & s2 & H1 & [= <-]). pose proof (keeps_onc _ _ _ _ H1) as E.
    eexists. split; [by right|]. simpl. rewrite E. done.
  - injection H as <-. eexists. split; [by left|]. done.
Qed.

Lemma end_op_header s s' :
  0 ≤ lh_n (lg s) → lg_committing (lg s) = 0 → end_op s = Ret (tt, s') →
  lg_outstanding (lg s') = lg_outstanding (lg s) - 1 ∧ lg_committing (lg s') = 0 ∧
  lg_size (lg s') = lg_size (lg s) ∧
  lh_n (lg s') = if lg_outstanding (lg s) - 1 =? 0 then 0 else lh_n (lg s).
Proof.
  intros Hn Hc. unfold end_op. intros (v & s1 & [= _ <-] & H)%bind_Ret.
  apply bind_Ret in H as (g & s1 & [= <- <-] & H). simpl in H. rewrite Hc in H.
  change (nonzero 0) with false in H. cbv iota in H.
  destruct (lg_outstanding (lg s) - 1 =? 0).
  - apply bind_Ret in H as (v1 & s1 & [= _ <-] & H). apply bind_Ret in H as ([] & s2 & H2 & [= <-]).
    apply commit_header in H2; [|done]. simpl. rewrite H2. done.
  - injection H as <-. done.
Qed.

Lemma lstep_inv st st' : lstep st st' → space_inv st → space_inv st'.
Proof.
  intros [s s' os H|s s' os i u b Hi Hu H|s s' os i [u Hi] H|s os c] [H1 H2 H3 H4 H5 H6]; simpl in *; [| | |done].
  - unfold begin_op in H. apply bind_Ret in H as (g & s1 & [= <- <-] & H).
    destruct (nonzero _); [done|]. destruct (Z.ltb_spec LOGSIZE (lh_n (lg s) + (lg_outstanding (lg s) + 1) * MAXOPBLOCKS)); [done|].
    injection H as <-. pose proof (reserved_bound os H3).
    split; simpl; [rewrite length_app; simpl; lia | done | | done | | done].
    + apply Forall_app. split; [done|]. apply Forall_singleton. done.
    + rewrite reserved_app. simpl. lia.
  - destruct (log_write_header _ _ _ H) as (n & Hn & En & E1 & E2 & E3 & E4 & E5).
    split; simpl; [by rewrite E4, length_insert | by rewrite E5 | | lia | | by rewrite E2].
    + apply Forall_insert; [done|]. lia.
    + rewrite (reserved_insert os i u) by done. lia.
  - pose proof (lookup_lt_Some _ _ _ Hi). pose proof (reserved_split os i u Hi).
    assert (Hu : Z.of_nat u ≤ MAXOPBLOCKS) by exact (proj1 (Forall_lookup _ _) H3 _ _ Hi).
    pose proof (Forall_delete _ os i H3) as H3'. pose proof (reserved_bound _ H3') as Hb.
    destruct (end_op_header s s' H4 H2 H) as (E1 & E2 & E3 & E4). rewrite length_delete in Hb by eauto.
    split; simpl; [rewrite length_delete by eauto; lia | done | done | | | lia]; rewrite E4;
      destruct (Z.eqb_spec (lg_outstanding (lg s) - 1) 0); unfold LOGSIZE, MAXOPBLOCKS in *; lia.
Qed.

(** A log with nothing in it and no operation in progress. *)
Definition log_empty (s : lstate) : Prop :=
  lh_n (lg s) = 0 ∧ lg_outstanding (lg s) = 0 ∧ lg_committing (lg s) = 0.

Lemma reachable_space s0 st :
  log_empty s0 → LOGSIZE < lg_size (lg s0) → rtc lstep (s0, []) st → space_inv st.
Proof.
  intros (E1 & E2 & E3) Hs Hr.
  assert (H0 : space_inv (s0, [])).
  { split; simpl; [done | done | by apply Forall_nil | lia | rewrite E1; done | done]. }
  revert H0. clear E1 E2 E3 Hs. induction Hr; eauto using lstep_inv.
Qed.

(** C4. The log never overflows when its area is larger than [LOGSIZE] blocks:
    however the operations admitted by [begin_op] interleave with one another,
    with commits and with other uses of the cache, an operation that has called
    [log_write] fewer than [MAXOPBLOCKS] times may call it again without a panic. *)
Theorem log_space_reserved s0 s os i u b :
  log_empty s0 → LOGSIZE < lg_size (lg s0) → rtc lstep (s0, []) (s, os) →
  os !! i = Some u → Z.of_nat u < MAXOPBLOCKS → ∃ s', log_write b s = Ret (tt, s').
Proof. intros H1 H2 H3. by apply log_write_total, (reachable_space s0). Qed.

Definition space_demo : lstate := LState (cold_cache demo_disk) (Log 2 31 0 0 1 0 (λ _, 0)).

Lemma log_space_reserved_witness : ∃ s', log_write 0 (run_state (begin_op space_demo) space_demo) = Ret (tt, s').
Proof.
  apply (log_space_reserved space_demo _ [0%nat] 0 0); [done | done | | done | done].
  apply rtc_once, (l_begin space_demo _ []). reflexivity.
Defined.

(** Blocks [100], ..., one change to each. *)
Definition many (n : nat) : list (Z * (bdata → bdata)) := (λ i, (100 + Z.of_nat i, λ d, d)) <$> seq 0 n.

