(* ===== verification/Block.v ===== *)
(** * Blocks inside a transaction

    The interface between the file system (kernel/fs.c) and what it is built on,
    the buffer cache and the log (kernel/bio.c, kernel/log.c): the operations, and
    the laws a client may rely on between [begin_op] and [end_op].  The instance
    for the cache and log of [Bio] and [Log] discharges the laws. *)

From stdpp Require Import base numbers list strings.
From S2P Require Import Prelude Layout Bio BioProofs BioSpec BioView Log LogProofs LogSpec LogOps.
Local Open Scope Z_scope.

(** The operations of bio.c and log.c that fs.c calls, on a state [S]; [blk_data]
    and [blk_store] read and write the bytes of a buffer. *)
Class BlockOps (S : Type) : Type := {
  blk_read : Z → Z → M S nat;
  blk_data : S → nat → bdata;
  blk_store : nat → (bdata → bdata) → M S unit;
  blk_log : nat → M S unit;
  blk_rel : nat → M S unit;
  blk_initlog : Z → Z → Z → M S unit;
  blk_begin : M S unit;
  blk_end : M S unit;
}.

(** What the operations mean.  [bview] is what a reader of a block sees, [bdisk]
    what no operation inside a transaction changes: the disk, the writes made to
    it so far, the place of the log.  [inside s hs dy k]: in a transaction, holding
    the buffers of blocks [hs], of which [dy] has been changed but not logged,
    with [k] calls of [log_write] to go. *)
Class BlockLaws (S : Type) `{BlockOps S} (dev : Z) : Type := {
  bview : S → Z → bdata;
  bkept : Type;
  bdisk : S → bkept;
  bvalid : S → Z → Prop;
  bat : S → nat → Z → Prop;
  binside : S → list Z → option Z → Z → Prop;
  law_read s hs k blk :
    binside s hs None k → (blk ∉ hs) → (length hs ≤ 2)%nat →
    wp (blk_read dev blk) s (λ b s', binside s' (blk :: hs) None k ∧ bat s' b blk ∧
      (∀ b' x, x ∈ hs → bat s b' x → bat s' b' x) ∧
      (∀ x, bview s' x = bview s x) ∧ bdisk s' = bdisk s ∧ bvalid s' = bvalid s);
  law_data s hs dy k b blk :
    binside s hs dy k → blk ∈ hs → bat s b blk → blk_data s b = bview s blk;
  law_store s hs dy k b blk f :
    binside s hs dy k → blk ∈ hs → bat s b blk → dy = None ∨ dy = Some blk →
    wp (blk_store b f) s (λ _ s', binside s' hs (Some blk) k ∧
      (∀ b' x, x ∈ hs → bat s b' x → bat s' b' x) ∧
      (∀ x, bview s' x = upd (bview s) blk (f (bview s blk)) x) ∧ bdisk s' = bdisk s ∧ bvalid s' = bvalid s);
  law_log s hs k b blk :
    binside s hs (Some blk) k → blk ∈ hs → bat s b blk → bvalid s blk → 0 < k →
    wp (blk_log b) s (λ _ s', binside s' hs None (k - 1) ∧
      (∀ b' x, x ∈ hs → bat s b' x → bat s' b' x) ∧
      (∀ x, bview s' x = bview s x) ∧ bdisk s' = bdisk s ∧ bvalid s' = bvalid s);
  law_rel s hs1 hs2 k b blk :
    binside s (hs1 ++ blk :: hs2) None k → bat s b blk →
    wp (blk_rel b) s (λ _ s', binside s' (hs1 ++ hs2) None k ∧
      (∀ b' x, x ∈ hs1 ++ hs2 → bat s b' x → bat s' b' x) ∧
      (∀ x, bview s' x = bview s x) ∧ bdisk s' = bdisk s ∧ bvalid s' = bvalid s);
}.
Arguments BlockLaws S {_} dev.

(** ** The instance *)

#[global] Instance log_blocks : BlockOps lstate := {|
  blk_read dev blk := onc (bread dev blk);
  blk_data s b := b_data (bufs (cache s) b);
  blk_store b f := onc (bmodify b f);
  blk_log := log_write;
  blk_rel b := onc (brelse b);
  blk_initlog := initlog;
  blk_begin := begin_op;
  blk_end := end_op;
|}.

(** Blocks that may be logged: outside the [LOGSIZE] blocks of the log area. *)
Definition log_valid (s : lstate) (blk : Z) : Prop :=
  0 ≤ blk < 2 ^ 31 ∧ ¬ in_log (lg_start (lg s)) (LOGSIZE - 1) blk.

(** What stays: the disk, its trace, and the log but for its header. *)
Record log_kept : Type := LogKept {
  lk_disk : Z → bdata;
  lk_trace : list (Z * bdata);
  lk_log : Z * Z * Z * Z * Z;
}.
Definition log_disk (s : lstate) : log_kept :=
  LogKept (disk (cache s)) (wtrace (cache s))
    (lg_start (lg s), lg_size (lg s), lg_outstanding (lg s), lg_committing (lg s), lg_dev (lg s)).

Section Instance.
Context (dev : Z) (Hdev : dev ≠ 0).

Definition log_at (s : lstate) (b : nat) (blk : Z) : Prop :=
  (b < nbuf)%nat ∧ is_block (cache s) dev blk b = true.

(** With [ws] logged so far. *)
Record log_in (s : lstate) (l : list nat) (ws hs : list Z) (dy : option Z) (k : Z) : Prop := LogIn {
  lo_quiet : quiet dev (cache s) l (pin1 ws) hs;
  lo_logged : logged (lg s) ws;
  lo_nodup : NoDup ws;
  lo_valid : ∀ w, w ∈ ws → log_valid s w;
  lo_out : lg_dev (lg s) = dev ∧ 1 ≤ lg_outstanding (lg s) ∧ LOGSIZE ≤ lg_size (lg s);
  lo_budget : 0 ≤ k ∧ Z.of_nat (length ws) + k ≤ 26;
  lo_clean : ∀ x, x ∈ hs → (x ∉ ws) → dy ≠ Some x → content (cache s) dev x = disk (cache s) x;
}.

Definition log_inside (s : lstate) (hs : list Z) (dy : option Z) (k : Z) : Prop := ∃ l ws, log_in s l ws hs dy k.

Lemma log_at_buf s l ws hs dy k b blk :
  log_in s l ws hs dy k → blk ∈ hs → log_at s b blk → at_buf dev (cache s) l hs b blk.
Proof.
  intros I Hh [Hb Hk]. split; [|done]. by apply (bi_all _ _ (q_inv _ _ _ _ _ (lo_quiet _ _ _ _ _ _ I))).
Qed.

Lemma at_buf_log s l pins hs b blk g :
  quiet dev s l pins hs → at_buf dev s l hs b blk → log_at (LState s g) b blk.
Proof. intros Q (Hb & _ & Hk). split; [|done]. by apply (bi_all _ _ (q_inv _ _ _ _ _ Q)). Qed.

Lemma log_law_read s hs k blk :
  log_inside s hs None k → (blk ∉ hs) → (length hs ≤ 2)%nat →
  wp (blk_read dev blk) s (λ b s', log_inside s' (blk :: hs) None k ∧ log_at s' b blk ∧
    (∀ b' x, x ∈ hs → log_at s b' x → log_at s' b' x) ∧
    (∀ x, content (cache s') dev x = content (cache s) dev x) ∧ log_disk s' = log_disk s ∧
    log_valid s' = log_valid s).
Proof.
  intros (l & ws & I) Hn Hl. destruct s as [c g]. pose proof I as [Q Hlg Hnd Hv Ho [Hk Hb] Hc]. simpl in *.
  apply wp_onc. eapply wp_mono; [apply (bread_view dev Hdev c l (pin1 ws) hs blk (hs ++ ws) Q Hn)|].
  { right. split; [|rewrite length_app; unfold nbuf, NBUF, MAXOPBLOCKS; lia]. intros x [Hx|Hx]; apply elem_of_app; [|by left].
    right. unfold pin1 in Hx. destruct (decide _); [done | lia]. }
  intros b c' (Q' & A' & F' & V' & D' & T' & _).
  assert (Ed : log_disk (LState c' g) = log_disk (LState c g)) by (unfold log_disk; simpl; by rewrite D', T').
  split; [|split; [|split; [|done]]].
  - exists l, ws. split; try done. intros x Hx Hw _. simpl. rewrite V', D'.
    apply elem_of_cons in Hx as [->|Hx]; [|by apply Hc].
    apply (quiet_clean dev Hdev c l (pin1 ws) hs); [done | unfold pin1; by rewrite decide_False | done].
  - by apply (at_buf_log c' l (pin1 ws) (blk :: hs)).
  - intros b' x Hx Ha. apply (at_buf_log c' l (pin1 ws) (blk :: hs)); [done|]. apply F'.
    by apply (log_at_buf (LState c g) l ws hs None k).
Qed.

Lemma log_law_data s hs dy k b blk :
  log_inside s hs dy k → blk ∈ hs → log_at s b blk → blk_data s b = content (cache s) dev blk.
Proof.
  intros (l & ws & I) Hh Ha. eapply (at_buf_valid dev Hdev _ l (pin1 ws) hs b blk).
  - apply (lo_quiet _ _ _ _ _ _ I).
  - by eapply log_at_buf.
Qed.

Lemma log_law_store s hs dy k b blk f :
  log_inside s hs dy k → blk ∈ hs → log_at s b blk → dy = None ∨ dy = Some blk →
  wp (blk_store b f) s (λ _ s', log_inside s' hs (Some blk) k ∧
    (∀ b' x, x ∈ hs → log_at s b' x → log_at s' b' x) ∧
    (∀ x, content (cache s') dev x = upd (content (cache s) dev) blk (f (content (cache s) dev blk)) x) ∧
    log_disk s' = log_disk s ∧ log_valid s' = log_valid s).
Proof.
  intros (l & ws & I) Hh Ha Hdy. destruct s as [c g]. pose proof I as [Q Hlg Hnd Hv Ho Hb Hc]. simpl in *.
  pose proof (log_at_buf _ _ _ _ _ _ _ _ I Hh Ha) as A. simpl in A.
  apply wp_onc. eapply wp_mono; [by apply (bmodify_view dev Hdev c l (pin1 ws) hs b blk f)|].
  intros _ c' (Q' & F' & V' & D' & T' & _).
  assert (Ed : log_disk (LState c' g) = log_disk (LState c g)) by (unfold log_disk; simpl; by rewrite D', T').
  split; [|split; [|split; [|done]]].
  - exists l, ws. split; try done. intros x Hx Hw Hne. simpl. rewrite V', D', (proj2 (Z.eqb_neq _ _)) by congruence.
    apply Hc; [done | done | destruct Hdy; congruence].
  - intros b' x Hx Ha'. apply (at_buf_log c' l (pin1 ws) hs); [done|]. apply F'.
    by apply (log_at_buf (LState c g) l ws hs dy k).
  - intros x. simpl. by rewrite V'.
Qed.

Lemma log_law_log s hs k b blk :
  log_inside s hs (Some blk) k → blk ∈ hs → log_at s b blk → log_valid s blk → 0 < k →
  wp (blk_log b) s (λ _ s', log_inside s' hs None (k - 1) ∧
    (∀ b' x, x ∈ hs → log_at s b' x → log_at s' b' x) ∧
    (∀ x, content (cache s') dev x = content (cache s) dev x) ∧ log_disk s' = log_disk s ∧
    log_valid s' = log_valid s).
Proof.
  intros (l & ws & I) Hh Ha Hbv Hk. destruct s as [c g].
  pose proof I as [Q Hlg Hnd Hv (Hd & Ho & Hs) [Hk0 Hb] Hc]. simpl in *.
  pose proof (log_at_buf _ _ _ _ _ _ _ _ I Hh Ha) as A. simpl in A. pose proof (absorb_length ws blk) as Hal.
  unfold LOGSIZE, MAXOPBLOCKS in Hs.
  eapply wp_mono; [apply (log_write_wp dev Hdev c l g ws hs b blk Q A Hlg Ho); rewrite (proj1 Hlg);
    unfold LOGSIZE, MAXOPBLOCKS; lia|].
  intros _ s' (c' & g' & -> & Q' & A' & (V' & D' & T' & _) & Hlg' & (E1 & E2 & E3 & E4 & E5)).
  assert (Ev : log_valid (LState c' g') = log_valid (LState c g)) by (unfold log_valid; simpl; by rewrite E1).
  assert (Ed : log_disk (LState c' g') = log_disk (LState c g)) by (unfold log_disk; simpl; congruence).
  split; [|split; [|split; [|split]]]; try done.
  - exists l, (absorb ws blk). split; simpl; try done.
    + by apply absorb_nodup.
    + intros w [Hw| ->]%absorb_in; rewrite Ev; auto.
    + rewrite E3, E4, E2. unfold LOGSIZE, MAXOPBLOCKS. done.
    + lia.
    + intros x Hx Hw _. rewrite V', D'. apply Hc; [done | |].
      * intros Hw'. apply Hw, absorb_in. by left.
      * intros [= ->]. apply Hw, absorb_in. by right.
  - intros b' x Hx Ha'. apply (at_buf_log c' l (pin1 (absorb ws blk)) hs); [done|]. apply A'.
    by apply (log_at_buf (LState c g) l ws hs (Some blk) k).
Qed.

Lemma log_law_rel s hs1 hs2 k b blk :
  log_inside s (hs1 ++ blk :: hs2) None k → log_at s b blk →
  wp (blk_rel b) s (λ _ s', log_inside s' (hs1 ++ hs2) None k ∧
    (∀ b' x, x ∈ hs1 ++ hs2 → log_at s b' x → log_at s' b' x) ∧
    (∀ x, content (cache s') dev x = content (cache s) dev x) ∧ log_disk s' = log_disk s ∧
    log_valid s' = log_valid s).
Proof.
  intros (l & ws & I) Ha. destruct s as [c g]. pose proof I as [Q Hlg Hnd Hv Ho Hb Hc]. simpl in *.
  assert (Hh : blk ∈ hs1 ++ blk :: hs2) by (apply elem_of_app; right; by left).
  pose proof (log_at_buf _ _ _ _ _ _ _ _ I Hh Ha) as A. simpl in A.
  apply wp_onc. eapply wp_mono; [apply (brelse_view dev Hdev c l (pin1 ws) hs1 hs2 b blk Q A)|].
  { unfold pin1. destruct (decide _) as [|Hw]; [lia|]. intros _. by apply Hc. }
  intros _ c' (l' & Q' & F' & V' & D' & T' & _).
  assert (Ed : log_disk (LState c' g) = log_disk (LState c g)) by (unfold log_disk; simpl; by rewrite D', T').
  split; [|split; [|done]].
  - exists l', ws. split; try done. intros x Hx Hw Hne. simpl. rewrite V', D'. apply Hc; [|done|done].
    apply elem_of_app in Hx as [|]; apply elem_of_app; [by left | right; by right].
  - intros b' x Hx Ha'. apply (at_buf_log c' l' (pin1 ws) (hs1 ++ hs2)); [done|]. apply F'.
    + intros ->. pose proof (q_hs _ _ _ _ _ Q) as Hnd'. apply NoDup_app in Hnd' as (_ & H1 & H2).
      apply NoDup_cons in H2 as [H2 _]. apply elem_of_app in Hx as [Hx|Hx]; [|done]. apply (H1 _ Hx). by left.
    + apply (log_at_buf (LState c g) l ws _ None k); [done | | done].
      apply elem_of_app in Hx as [|]; apply elem_of_app; [by left | right; by right].
Qed.

(** The cache and the log keep the laws. *)
#[global] Instance log_block_laws : BlockLaws lstate dev := {|
  bview s := content (cache s) dev;
  bdisk := log_disk;
  bvalid := log_valid;
  bat := log_at;
  binside := log_inside;
  law_read := log_law_read;
  law_data := log_law_data;
  law_store := log_law_store;
  law_log := log_law_log;
  law_rel := log_law_rel;
|}.
End Instance.
