(* ===== verification/Fs.v ===== *)
(** * The file system (kernel/fs.c, kernel/fs.h)

    The block allocator, inodes, file contents, directories and path names, over
    the interface [BlockOps] to the buffer cache and the log.  The in-memory
    inode table is a list of records; a pointer to an inode is its index.
    [itable.lock] makes the table operations atomic; waiting for an inode's sleep
    lock is the outcome [Block].  The current process enters through its page
    table, directory and pid. *)

From stdpp Require Import base numbers list strings.
From S2P Require Import Prelude Str Layout Kalloc Vm Bio Block.
Local Open Scope Z_scope.

(** ** Layout on disk (fs.h, stat.h) *)

Definition ROOTINO : Z := 1.
Definition FSMAGIC : Z := 0x10203040.
Definition NDIRECT : Z := 12.
Definition NINDIRECT : Z := BSIZE / 4.
Definition MAXFILE : Z := NDIRECT + NINDIRECT.
Definition sizeof_dinode : Z := 64.
Definition IPB : Z := BSIZE / sizeof_dinode.
Definition BPB : Z := BSIZE * 8.
Definition DIRSIZ : Z := 14.
Definition sizeof_dirent : Z := 16.
Definition T_DIR : Z := 1.
Definition T_FILE : Z := 2.
Definition T_DEVICE : Z := 3.

Record superblock : Type := SuperBlock {
  sb_magic : Z;
  sb_size : Z;
  sb_nblocks : Z;
  sb_ninodes : Z;
  sb_nlog : Z;
  sb_logstart : Z;
  sb_inodestart : Z;
  sb_bmapstart : Z;
}.

Definition IBLOCK (i : Z) (sb : superblock) : Z := i / IPB + sb_inodestart sb.
Definition BBLOCK (b : Z) (sb : superblock) : Z := b / BPB + sb_bmapstart sb.

(** Little-endian fields of a block. *)
Definition load16 (d : bdata) (a : Z) : Z := load_le d a 2.
Definition store16 (d : bdata) (a v : Z) : bdata := store_le d a 2 v.

(** The superblock at the start of block 1. *)
Definition sb_of (d : bdata) : superblock :=
  SuperBlock (load32 d 0) (load32 d 4) (load32 d 8) (load32 d 12)
    (load32 d 16) (load32 d 20) (load32 d 24) (load32 d 28).

(** ** State *)

Record inode : Type := Inode {
  i_dev : Z;
  i_inum : Z;
  i_ref : Z;
  i_lock : sleeplock;
  i_valid : Z;
  i_type : Z;
  i_major : Z;
  i_minor : Z;
  i_nlink : Z;
  i_size : Z;
  i_addrs : list Z;
}.

Definition inode0 : inode := Inode 0 0 0 (SleepLock 0 0) 0 0 0 0 0 0 (replicate 13 0).

Definition iset_ref (v : Z) (i : inode) : inode :=
  Inode (i_dev i) (i_inum i) v (i_lock i) (i_valid i) (i_type i) (i_major i) (i_minor i) (i_nlink i) (i_size i) (i_addrs i).
Definition iset_lock (v : sleeplock) (i : inode) : inode :=
  Inode (i_dev i) (i_inum i) (i_ref i) v (i_valid i) (i_type i) (i_major i) (i_minor i) (i_nlink i) (i_size i) (i_addrs i).
Definition iset_valid (v : Z) (i : inode) : inode :=
  Inode (i_dev i) (i_inum i) (i_ref i) (i_lock i) v (i_type i) (i_major i) (i_minor i) (i_nlink i) (i_size i) (i_addrs i).
Definition iset_type (v : Z) (i : inode) : inode :=
  Inode (i_dev i) (i_inum i) (i_ref i) (i_lock i) (i_valid i) v (i_major i) (i_minor i) (i_nlink i) (i_size i) (i_addrs i).
Definition iset_nlink (v : Z) (i : inode) : inode :=
  Inode (i_dev i) (i_inum i) (i_ref i) (i_lock i) (i_valid i) (i_type i) (i_major i) (i_minor i) v (i_size i) (i_addrs i).
Definition iset_majmin (a b : Z) (i : inode) : inode :=
  Inode (i_dev i) (i_inum i) (i_ref i) (i_lock i) (i_valid i) (i_type i) a b (i_nlink i) (i_size i) (i_addrs i).
Definition iset_size (v : Z) (i : inode) : inode :=
  Inode (i_dev i) (i_inum i) (i_ref i) (i_lock i) (i_valid i) (i_type i) (i_major i) (i_minor i) (i_nlink i) v (i_addrs i).
Definition iset_addr (k v : Z) (i : inode) : inode :=
  Inode (i_dev i) (i_inum i) (i_ref i) (i_lock i) (i_valid i) (i_type i) (i_major i) (i_minor i) (i_nlink i) (i_size i)
    (<[Z.to_nat k := v]> (i_addrs i)).

Definition addr_at (i : inode) (k : Z) : Z := default 0 (i_addrs i !! Z.to_nat k).

(** The dinode at byte [a] of a block, and storing one. *)
Definition dinode_type (d : bdata) (a : Z) : Z := i16 (load16 d a).
Definition dinode_addrs (d : bdata) (a : Z) : list Z := (λ k, load32 d (a + 12 + 4 * Z.of_nat k)) <$> seq 0 13.

Definition read_dinode (d : bdata) (a : Z) (i : inode) : inode :=
  Inode (i_dev i) (i_inum i) (i_ref i) (i_lock i) (i_valid i) (dinode_type d a) (i16 (load16 d (a + 2)))
    (i16 (load16 d (a + 4))) (i16 (load16 d (a + 6))) (load32 d (a + 8)) (dinode_addrs d a).

Fixpoint store_addrs (a : Z) (l : list Z) (d : bdata) : bdata :=
  match l with
  | [] => d
  | v :: l' => store_addrs (a + 4) l' (store32 d a v)
  end.

Definition write_dinode (i : inode) (a : Z) (d : bdata) : bdata :=
  let d := store16 d a (i_type i) in
  let d := store16 d (a + 2) (i_major i) in
  let d := store16 d (a + 4) (i_minor i) in
  let d := store16 d (a + 6) (i_nlink i) in
  let d := store32 d (a + 8) (i_size i) in
  store_addrs (a + 12) (i_addrs i) d.

Record fstate (S : Type) : Type := FState {
  blocks : S;
  sb : superblock;
  itable : list inode;
  umem : kstate;
  upt : Z;
  ucwd : nat;
  upid : Z;
}.
Arguments FState {S}.
Arguments blocks {S}. Arguments sb {S}. Arguments itable {S}. Arguments umem {S}.
Arguments upt {S}. Arguments ucwd {S}. Arguments upid {S}.

(** Where [readi] and [writei] copy to and from ([user_dst], [user_src]): a user
    address, or a variable of the kernel, whose bytes are returned or given. *)
Inductive target : Type := User (va : Z) | Kernel.
Inductive source : Type := FromUser (va : Z) | FromKernel (bytes : list Z).

Section Fs.
Context {S : Type} `{BO : BlockOps S} `{L : Linker}.

Definition set_blocks (b : S) (s : fstate S) : fstate S :=
  FState b (sb s) (itable s) (umem s) (upt s) (ucwd s) (upid s).
Definition set_sb (v : superblock) (s : fstate S) : fstate S :=
  FState (blocks s) v (itable s) (umem s) (upt s) (ucwd s) (upid s).
Definition set_itable (f : list inode → list inode) (s : fstate S) : fstate S :=
  FState (blocks s) (sb s) (f (itable s)) (umem s) (upt s) (ucwd s) (upid s).
Definition set_umem (v : kstate) (s : fstate S) : fstate S :=
  FState (blocks s) (sb s) (itable s) v (upt s) (ucwd s) (upid s).

(** Block operations, and the bytes of a buffer. *)
Definition onb {A} (m : M S A) : M (fstate S) A := zoom blocks set_blocks m.
Definition buf_data (b : nat) : M (fstate S) bdata := gets (λ s, blk_data (blocks s) b).
Definition onv {A} (m : M kstate A) : M (fstate S) A := zoom umem set_umem m.

Definition iat (s : fstate S) (ip : nat) : inode := default inode0 (itable s !! ip).
Definition getip (ip : nat) : M (fstate S) inode := gets (λ s, iat s ip).
Definition setip (ip : nat) (f : inode → inode) : M (fstate S) unit :=
  modify (set_itable (alter f ip)).

(** ** Start-up *)

Definition readsb (dev : Z) : M (fstate S) unit :=
  bp ← onb (blk_read dev 1);
  d ← buf_data bp;
  modify (set_sb (sb_of d));;
  onb (blk_rel bp).

Definition fsinit (dev : Z) : M (fstate S) unit :=
  readsb dev;;
  v ← gets sb;
  if negb (sb_magic v =? FSMAGIC) then panic "invalid file system"
  else onb (blk_initlog dev (sb_logstart v) (sb_nlog v)).

(** ** Blocks *)

Definition bzero (dev bno : Z) : M (fstate S) unit :=
  bp ← onb (blk_read dev bno);
  onb (blk_store bp (mset 0 0 BSIZE));;
  onb (blk_log bp);;
  onb (blk_rel bp).

(** Bit [bi] of a bitmap block. *)
Definition bit_mask (bi : Z) : Z := Z.shiftl 1 (bi mod 8).
Definition bit_set (d : bdata) (bi : Z) : bool := nonzero (Z.land (u8 (d (bi / 8))) (bit_mask bi)).
Definition mark_bit (bi : Z) (d : bdata) : bdata := upd d (bi / 8) (Z.lor (u8 (d (bi / 8))) (bit_mask bi)).
Definition clear_bit (bi : Z) (d : bdata) : bdata := upd d (bi / 8) (Z.land (u8 (d (bi / 8))) (u8 (Z.lnot (bit_mask bi)))).

(** The inner loop of [balloc]: the first free bit. *)
Fixpoint balloc_scan (fuel : nat) (bi b size : Z) (d : bdata) : option Z :=
  match fuel with
  | O => None
  | Datatypes.S f =>
      if (bi <? BPB) && (b + bi <? size) then
        if bit_set d bi then balloc_scan f (bi + 1) b size d else Some bi
      else None
  end.

Fixpoint balloc_loop (fuel : nat) (dev b : Z) : M (fstate S) Z :=
  v ← gets sb;
  if b <? sb_size v then
    match fuel with
    | O => diverge
    | Datatypes.S f =>
        bp ← onb (blk_read dev (BBLOCK b v));
        d ← buf_data bp;
        match balloc_scan (Z.to_nat BPB) 0 b (sb_size v) d with
        | Some bi =>
            onb (blk_store bp (mark_bit bi));;
            onb (blk_log bp);;
            onb (blk_rel bp);;
            bzero dev (b + bi);;
            mret (b + bi)
        | None => onb (blk_rel bp);; balloc_loop f dev (b + BPB)
        end
    end
  else mret 0.

Definition balloc (dev : Z) : M (fstate S) Z :=
  v ← gets sb; balloc_loop (Z.to_nat (sb_size v / BPB + 1)) dev 0.

Definition bfree (dev b : Z) : M (fstate S) unit :=
  v ← gets sb;
  bp ← onb (blk_read dev (BBLOCK b v));
  d ← buf_data bp;
  let bi := b mod BPB in
  if negb (bit_set d bi) then panic "freeing free block"
  else
    onb (blk_store bp (clear_bit bi));;
    onb (blk_log bp);;
    onb (blk_rel bp).

(** ** Inodes *)

Definition iinit : M (fstate S) unit := modify (set_itable (fmap (iset_lock (SleepLock 0 0)))).

(** The loop of [iget]: the entry found, or the first empty one. *)
Fixpoint iget_scan (k : nat) (empty : option nat) (dev inum : Z) (l : list inode) : bool * option nat :=
  match l with
  | [] => (false, empty)
  | i :: l' =>
      if (0 <? i_ref i) && (i_dev i =? dev) && (i_inum i =? inum) then (true, Some k)
      else
        let empty := match empty with None => if i_ref i =? 0 then Some k else None | e => e end in
        iget_scan (Datatypes.S k) empty dev inum l'
  end.

Definition iget (dev inum : Z) : M (fstate S) nat :=
  l ← gets itable;
  match iget_scan 0 None dev inum l with
  | (true, Some ip) => setip ip (λ i, iset_ref (i_ref i + 1) i);; mret ip
  | (_, None) => panic "iget: no inodes"
  | (false, Some ip) =>
      setip ip (λ i, Inode dev inum 1 (i_lock i) 0 (i_type i) (i_major i) (i_minor i) (i_nlink i) (i_size i) (i_addrs i));;
      mret ip
  end.

Definition idup (ip : nat) : M (fstate S) nat := setip ip (λ i, iset_ref (i_ref i + 1) i);; mret ip.

(** [memset(dip, 0, sizeof( *dip)); dip->type = type]. *)
Definition new_dinode (a type : Z) (d : bdata) : bdata := store16 (mset a 0 sizeof_dinode d) a type.

Fixpoint ialloc_loop (fuel : nat) (dev inum type : Z) : M (fstate S) (option nat) :=
  v ← gets sb;
  if inum <? sb_ninodes v then
    match fuel with
    | O => diverge
    | Datatypes.S f =>
        bp ← onb (blk_read dev (IBLOCK inum v));
        d ← buf_data bp;
        let a := sizeof_dinode * (inum mod IPB) in
        if dinode_type d a =? 0 then
          onb (blk_store bp (new_dinode a type));;
          onb (blk_log bp);;
          onb (blk_rel bp);;
          ip ← iget dev inum; mret (Some ip)
        else onb (blk_rel bp);; ialloc_loop f dev (inum + 1) type
    end
  else mret None.

Definition ialloc (dev type : Z) : M (fstate S) (option nat) :=
  v ← gets sb; ialloc_loop (Z.to_nat (sb_ninodes v)) dev 1 type.

Definition iupdate (ip : nat) : M (fstate S) unit :=
  i ← getip ip;
  v ← gets sb;
  bp ← onb (blk_read (i_dev i) (IBLOCK (i_inum i) v));
  i ← getip ip;
  onb (blk_store bp (write_dinode i (sizeof_dinode * (i_inum i mod IPB))));;
  onb (blk_log bp);;
  onb (blk_rel bp).

(** Sleep locks of inodes. *)
Definition iacquire (ip : nat) : M (fstate S) unit :=
  i ← getip ip;
  pid ← gets upid;
  if nonzero (sl_locked (i_lock i)) then block "inode" else setip ip (iset_lock (SleepLock 1 pid)).
Definition irelease (ip : nat) : M (fstate S) unit := setip ip (iset_lock (SleepLock 0 0)).
Definition iholding (ip : nat) : M (fstate S) bool :=
  i ← getip ip;
  pid ← gets upid;
  mret (nonzero (sl_locked (i_lock i)) && (sl_pid (i_lock i) =? pid)).

Definition ilock (ip : nat) : M (fstate S) unit :=
  i ← getip ip;
  if i_ref i <? 1 then panic "ilock"
  else
    iacquire ip;;
    i ← getip ip;
    if i_valid i =? 0 then
      v ← gets sb;
      bp ← onb (blk_read (i_dev i) (IBLOCK (i_inum i) v));
      d ← buf_data bp;
      setip ip (read_dinode d (sizeof_dinode * (i_inum i mod IPB)));;
      onb (blk_rel bp);;
      setip ip (iset_valid 1);;
      i ← getip ip;
      if i_type i =? 0 then panic "ilock: no type" else mret tt
    else mret tt.

Definition iunlock (ip : nat) : M (fstate S) unit :=
  h ← iholding ip;
  i ← getip ip;
  if negb h || (i_ref i <? 1) then panic "iunlock" else irelease ip.

(** [itrunc]: the direct blocks, and the blocks an indirect block lists. *)
Fixpoint itrunc_direct (n : nat) (k : Z) (ip : nat) : M (fstate S) unit :=
  match n with
  | O => mret tt
  | Datatypes.S n' =>
      i ← getip ip;
      when (nonzero (addr_at i k)) (bfree (i_dev i) (addr_at i k);; setip ip (iset_addr k 0));;
      itrunc_direct n' (k + 1) ip
  end.

Fixpoint itrunc_indirect (n : nat) (j : Z) (dev : Z) (bp : nat) : M (fstate S) unit :=
  match n with
  | O => mret tt
  | Datatypes.S n' =>
      d ← buf_data bp;
      let a := load32 d (4 * j) in
      when (nonzero a) (bfree dev a);;
      itrunc_indirect n' (j + 1) dev bp
  end.

Definition itrunc (ip : nat) : M (fstate S) unit :=
  itrunc_direct (Z.to_nat NDIRECT) 0 ip;;
  i ← getip ip;
  when (nonzero (addr_at i NDIRECT))
    (bp ← onb (blk_read (i_dev i) (addr_at i NDIRECT));
     itrunc_indirect (Z.to_nat NINDIRECT) 0 (i_dev i) bp;;
     onb (blk_rel bp);;
     i ← getip ip;
     bfree (i_dev i) (addr_at i NDIRECT);;
     setip ip (iset_addr NDIRECT 0));;
  setip ip (iset_size 0);;
  iupdate ip.

Definition iput (ip : nat) : M (fstate S) unit :=
  i ← getip ip;
  when ((i_ref i =? 1) && nonzero (i_valid i) && (i_nlink i =? 0))
    (iacquire ip;;
     itrunc ip;;
     setip ip (iset_type 0);;
     iupdate ip;;
     setip ip (iset_valid 0);;
     irelease ip);;
  setip ip (λ i, iset_ref (i_ref i - 1) i).

Definition iunlockput (ip : nat) : M (fstate S) unit := iunlock ip;; iput ip.

(** ** Inode content *)

(** The end of [bmap]: entry [n] of the indirect block [addr]. *)
Definition bmap_entry (dev addr n : Z) : M (fstate S) Z :=
  bp ← onb (blk_read dev addr);
  d ← buf_data bp;
  let a := load32 d (4 * n) in
  if a =? 0 then
    addr ← balloc dev;
    when (nonzero addr) (onb (blk_store bp (λ d, store32 d (4 * n) addr));; onb (blk_log bp));;
    onb (blk_rel bp);;
    mret addr
  else onb (blk_rel bp);; mret a.

Definition bmap (ip : nat) (bn : Z) : M (fstate S) Z :=
  i ← getip ip;
  if bn <? NDIRECT then
    if addr_at i bn =? 0 then
      addr ← balloc (i_dev i);
      if addr =? 0 then mret 0
      else setip ip (iset_addr bn addr);; mret addr
    else mret (addr_at i bn)
  else
    let bn := bn - NDIRECT in
    if bn <? NINDIRECT then
      addr ← (if addr_at i NDIRECT =? 0 then
                addr ← balloc (i_dev i);
                (if addr =? 0 then mret tt else setip ip (iset_addr NDIRECT addr));; mret addr
              else mret (addr_at i NDIRECT));
      if addr =? 0 then mret 0
      else bmap_entry (i_dev i) addr bn
    else panic "bmap: out of range".

(** [struct stat], as [stati] fills it. *)
Record stat : Type := Stat { st_dev : Z; st_ino : Z; st_type : Z; st_nlink : Z; st_size : Z }.
Definition stati (ip : nat) : M (fstate S) stat :=
  i ← getip ip; mret (Stat (i_dev i) (i_inum i) (i_type i) (i_nlink i) (i_size i)).

(** proc.c: copy to a user address or to a kernel variable; for the latter the
    caller gets the bytes. *)
Definition either_copyout (dst : target) (k : Z) (bytes : list Z) : M (fstate S) Z :=
  match dst with
  | User va => pt ← gets upt; onv (copyout pt (u64 (va + k)) bytes)
  | Kernel => mret 0
  end.

Definition either_copyin (src : source) (k len : Z) : M (fstate S) (Z * list Z) :=
  match src with
  | FromUser va => pt ← gets upt; onv (copyin pt (u64 (va + k)) len)
  | FromKernel bytes => mret (0, take (Z.to_nat len) (drop (Z.to_nat k) bytes))
  end.

(** The loop of [readi]; it also returns the bytes copied so far. *)
Fixpoint readi_loop (fuel : nat) (ip : nat) (dst : target) (off n tot : Z) (acc : list Z) : M (fstate S) (Z * list Z) :=
  if tot <? n then
    match fuel with
    | O => diverge
    | Datatypes.S f =>
        addr ← bmap ip (off / BSIZE);
        if addr =? 0 then mret (tot, acc)
        else
          i ← getip ip;
          bp ← onb (blk_read (i_dev i) addr);
          let m := Z.min (n - tot) (BSIZE - off mod BSIZE) in
          d ← buf_data bp;
          let bytes := read_bytes (off mod BSIZE) (Z.to_nat m) d in
          r ← either_copyout dst tot bytes;
          onb (blk_rel bp);;
          if r =? -1 then mret (-1, acc)
          else readi_loop f ip dst (off + m) n (tot + m) (acc ++ bytes)
    end
  else mret (tot, acc).

Definition readi (ip : nat) (dst : target) (off n : Z) : M (fstate S) (Z * list Z) :=
  i ← getip ip;
  if (i_size i <? off) || (u32 (off + n) <? off) then mret (0, [])
  else
    let n := if i_size i <? u32 (off + n) then i_size i - off else n in
    readi_loop (Z.to_nat n) ip dst off n 0 [].

(** The loop of [writei]; it returns [tot] and the last [off].  A failing
    [either_copyin] leaves the bytes it did copy in the buffer. *)
Fixpoint writei_loop (fuel : nat) (ip : nat) (src : source) (off n tot : Z) : M (fstate S) (Z * Z) :=
  if tot <? n then
    match fuel with
    | O => diverge
    | Datatypes.S f =>
        addr ← bmap ip (off / BSIZE);
        if addr =? 0 then mret (tot, off)
        else
          i ← getip ip;
          bp ← onb (blk_read (i_dev i) addr);
          let m := Z.min (n - tot) (BSIZE - off mod BSIZE) in
          r ← either_copyin src tot m;
          onb (blk_store bp (write_bytes (off mod BSIZE) r.2));;
          if r.1 =? -1 then onb (blk_rel bp);; mret (tot, off)
          else
            onb (blk_log bp);;
            onb (blk_rel bp);;
            writei_loop f ip src (off + m) n (tot + m)
    end
  else mret (tot, off).

Definition writei (ip : nat) (src : source) (off n : Z) : M (fstate S) Z :=
  i ← getip ip;
  if (i_size i <? off) || (u32 (off + n) <? off) then mret (-1)
  else if MAXFILE * BSIZE <? u32 (off + n) then mret (-1)
  else
    r ← writei_loop (Z.to_nat n) ip src off n 0;
    i ← getip ip;
    when (i_size i <? r.2) (setip ip (iset_size r.2));;
    iupdate ip;;
    mret r.1.
End Fs.
