(* ===== verification/Dir.v ===== *)
(** * Directories and path names (kernel/fs.c)

    A directory is a file of 16-byte entries; a name is an array of [DIRSIZ]
    bytes, padded with zeros when it is shorter.  A path is its list of bytes up
    to the terminating NUL.  [dirlookup] also returns the offset the code stores
    through [poff]. *)

From stdpp Require Import base numbers list strings.
From S2P Require Import Prelude Str Layout Kalloc Vm Bio Block Fs.
Local Open Scope Z_scope.

(** The byte at an index of an array; a string ends in zeros. *)
Definition byte_at (l : list Z) (k : Z) : Z := if k <? 0 then 0 else default 0 (l !! Z.to_nat k).

(** Two arrays next to each other in memory. *)
Definition two_arrays (s t : list Z) : Z → Z := λ a, if a <? 4096 then byte_at s a else byte_at t (a - 4096).

Definition namecmp (s t : list Z) : Z := strncmp 0 4096 DIRSIZ (two_arrays s t).

(** [strncpy(de.name, name, DIRSIZ)]: the array that results. *)
Definition name_copy (name : list Z) : list Z :=
  read_bytes 0 (Z.to_nat DIRSIZ) (strncpy 0 4096 DIRSIZ (two_arrays [] name)).

(** [struct dirent] in the bytes read from a directory. *)
Definition de_inum (bytes : list Z) : Z := load16 (byte_at bytes) 0.
Definition de_name (bytes : list Z) : list Z := take (Z.to_nat DIRSIZ) (drop 2 bytes).
Definition dirent_bytes (inum : Z) (name : list Z) : list Z := u8 inum :: u8 (inum / 256) :: name.

Definition slash : Z := 47.

(** [while( *path == '/') path++]. *)
Fixpoint skip_slashes (path : list Z) : list Z :=
  match path with
  | c :: path' => if c =? slash then skip_slashes path' else path
  | [] => []
  end.

(** [while( *path != '/' && *path != 0) path++]: what is passed, and the rest. *)
Fixpoint take_elem (path : list Z) : list Z * list Z :=
  match path with
  | c :: path' =>
      if (c =? slash) || (c =? 0) then ([], path)
      else let '(e, r) := take_elem path' in (c :: e, r)
  | [] => ([], [])
  end.

(** [*path]. *)
Definition first_byte (path : list Z) : Z := List.hd 0 path.

(** The rest of the path and the new contents of [name]. *)
Definition skipelem (path name : list Z) : option (list Z * list Z) :=
  let path := skip_slashes path in
  if first_byte path =? 0 then None
  else
    let '(s, path) := take_elem path in
    let name :=
      if DIRSIZ <=? Z.of_nat (length s) then take (Z.to_nat DIRSIZ) s
      else s ++ [0] ++ drop (length s + 1) name in
    Some (skip_slashes path, name).

Section Dir.
Context {S : Type} `{BO : BlockOps S} `{L : Linker}.

Fixpoint dirlookup_loop (fuel : nat) (dp : nat) (name : list Z) (off : Z) : M (fstate S) (option (nat * Z)) :=
  i ← getip dp;
  if off <? i_size i then
    match fuel with
    | O => diverge
    | Datatypes.S f =>
        r ← readi dp Kernel off sizeof_dirent;
        if negb (r.1 =? sizeof_dirent) then panic "dirlookup read"
        else if de_inum r.2 =? 0 then dirlookup_loop f dp name (off + sizeof_dirent)
        else if namecmp name (de_name r.2) =? 0 then
          ip ← iget (i_dev i) (de_inum r.2); mret (Some (ip, off))
        else dirlookup_loop f dp name (off + sizeof_dirent)
    end
  else mret None.

Definition dirlookup (dp : nat) (name : list Z) : M (fstate S) (option (nat * Z)) :=
  i ← getip dp;
  if negb (i_type i =? T_DIR) then panic "dirlookup not DIR"
  else dirlookup_loop (Z.to_nat (i_size i / sizeof_dirent + 1)) dp name 0.

(** The loop of [dirlink]: the offset of the first empty entry, or the size. *)
Fixpoint dirlink_loop (fuel : nat) (dp : nat) (off : Z) : M (fstate S) Z :=
  i ← getip dp;
  if off <? i_size i then
    match fuel with
    | O => diverge
    | Datatypes.S f =>
        r ← readi dp Kernel off sizeof_dirent;
        if negb (r.1 =? sizeof_dirent) then panic "dirlink read"
        else if de_inum r.2 =? 0 then mret off
        else dirlink_loop f dp (off + sizeof_dirent)
    end
  else mret off.

Definition dirlink (dp : nat) (name : list Z) (inum : Z) : M (fstate S) Z :=
  r ← dirlookup dp name;
  match r with
  | Some (ip, _) => iput ip;; mret (-1)
  | None =>
      i ← getip dp;
      off ← dirlink_loop (Z.to_nat (i_size i / sizeof_dirent + 1)) dp 0;
      n ← writei dp (FromKernel (dirent_bytes inum (name_copy name))) off sizeof_dirent;
      if negb (n =? sizeof_dirent) then mret (-1) else mret 0
  end.

(** The loop of [namex]; the result is the inode and the last [name]. *)
Fixpoint namex_loop (fuel : nat) (path : list Z) (nameiparent : bool) (name : list Z) (ip : nat) :
    M (fstate S) (option nat * list Z) :=
  match skipelem path name with
  | None =>
      if nameiparent then iput ip;; mret (None, name) else mret (Some ip, name)
  | Some (path, name) =>
      match fuel with
      | O => diverge
      | Datatypes.S f =>
          ilock ip;;
          i ← getip ip;
          if negb (i_type i =? T_DIR) then iunlockput ip;; mret (None, name)
          else if nameiparent && (first_byte path =? 0) then iunlock ip;; mret (Some ip, name)
          else
            next ← dirlookup ip name;
            match next with
            | None => iunlockput ip;; mret (None, name)
            | Some (next, _) => iunlockput ip;; namex_loop f path nameiparent name next
            end
      end
  end.

Definition namex (path : list Z) (nameiparent : bool) (name : list Z) : M (fstate S) (option nat * list Z) :=
  ip ← (if first_byte path =? slash then iget ROOTDEV ROOTINO else cwd ← gets ucwd; idup cwd);
  namex_loop (length path) path nameiparent name ip.

Definition namei (path : list Z) : M (fstate S) (option nat) :=
  r ← namex path false (replicate (Z.to_nat DIRSIZ) 0); mret r.1.

Definition nameiparent (path name : list Z) : M (fstate S) (option nat * list Z) := namex path true name.
End Dir.
