(* ===== verification/FsAlloc.v ===== *)
(** * The block allocator (kernel/fs.c)

    Proof rules for one block operation of the file system, the bitmap as a set
    of used blocks, and [balloc] and [bfree] in these terms. *)

From stdpp Require Import base numbers list strings.
From S2P Require Import Prelude Str Layout Kalloc Vm Bio Block Fs.
Local Open Scope Z_scope.

(** ** Bits *)

Lemma land_pow2 x k : 0 ≤ k → nonzero (Z.land x (Z.shiftl 1 k)) = Z.testbit x k.
Proof.
  intros Hk. rewrite Z.shiftl_1_l. apply eq_true_iff_eq. rewrite nonzero_true. split.
  - intros H. destruct (Z.testbit x k) eqn:E; [done|]. destruct H. apply Z.bits_inj'. intros j Hj.
    rewrite Z.land_spec, Z.bits_0, Z.pow2_bits_eqb by done.
    destruct (Z.eqb_spec k j) as [<-|]; [by rewrite E | by rewrite andb_false_r].
  - intros E H. assert (Hb : Z.testbit (Z.land x (2 ^ k)) k = false) by (rewrite H; apply Z.bits_0).
    by rewrite Z.land_spec, E, Z.pow2_bits_true in Hb.
Qed.

Lemma testbit_u8 x k : 0 ≤ k < 8 → Z.testbit (u8 x) k = Z.testbit x k.
Proof. intros Hk. unfold u8. apply Z.mod_pow2_bits_low. lia. Qed.

Lemma bit_set_testbit d bi : bit_set d bi = Z.testbit (d (bi / 8)) (bi mod 8).
Proof.
  unfold bit_set, bit_mask. rewrite land_pow2 by lia. apply testbit_u8. lia.
Qed.

Lemma bit_set_mark d bi c : 0 ≤ bi → 0 ≤ c → bit_set (mark_bit bi d) c = (c =? bi) || bit_set d c.
Proof.
  intros Hb Hc. rewrite !bit_set_testbit. unfold mark_bit, bit_mask, upd. destruct (Z.eqb_spec (c / 8) (bi / 8)) as [E|E].
  - rewrite Z.lor_spec, testbit_u8 by lia. rewrite Z.shiftl_1_l, Z.pow2_bits_eqb by lia.
    rewrite E, orb_comm. f_equal. apply eq_true_iff_eq. rewrite !Z.eqb_eq. lia.
  - destruct (Z.eqb_spec c bi) as [->|]; done.
Qed.

Lemma bit_set_clear d bi c : 0 ≤ bi → 0 ≤ c → bit_set (clear_bit bi d) c = negb (c =? bi) && bit_set d c.
Proof.
  intros Hb Hc. rewrite !bit_set_testbit. unfold clear_bit, bit_mask, upd. destruct (Z.eqb_spec (c / 8) (bi / 8)) as [E|E].
  - rewrite Z.land_spec, !testbit_u8, Z.lnot_spec by lia. rewrite Z.shiftl_1_l, Z.pow2_bits_eqb by lia.
    rewrite E, andb_comm. f_equal. f_equal. apply eq_true_iff_eq. rewrite !Z.eqb_eq. lia.
  - destruct (Z.eqb_spec c bi) as [->|]; done.
Qed.

(** ** Block operations inside the file system *)

Section FsBlocks.
Context {S : Type} `{BO : BlockOps S} `{L : Linker} (dev : Z) `{BL : !BlockLaws S dev}.

(** What the file system sees of its blocks. *)
Definition view (s : fstate S) : Z → bdata := bview (blocks s).

(** From block state [b] to [b'] keeping the buffers of [hs], with contents [V]. *)
Record bstep (hs : list Z) (V : Z → bdata) (b b' : S) : Prop := BStep {
  bs_view : ∀ x, bview b' x = V x;
  bs_disk : bdisk b' = bdisk b;
  bs_valid : bvalid b' = bvalid b;
  bs_at : ∀ n x, x ∈ hs → bat b n x → bat b' n x;
}.

Lemma bstep_refl hs b : bstep hs (bview b) b b.
Proof. by split. Qed.

Lemma bstep_trans hs V V' b b' b'' : bstep hs V b b' → bstep hs V' b' b'' → bstep hs V' b b''.
Proof. intros [V1 D1 A1 T1] [V2 D2 A2 T2]. split; [done | congruence | congruence | auto]. Qed.

Lemma bstep_ext hs V V' b b' : bstep hs V b b' → (∀ x, V x = V' x) → bstep hs V' b b'.
Proof. intros [V1 D1 A1 T1] H. split; [intros x; by rewrite V1 | done..]. Qed.

Lemma wp_onb {A} (m : M S A) s Q :
  wp m (blocks s) (λ a b, Q a (set_blocks b s)) → wp (onb m) s Q.
Proof. intros H. by apply wp_zoom. Qed.

(** Reading a block, looking at it, and releasing it at the end of [K]. *)
Lemma read_wp {A} hs k blk (K : nat → M (fstate S) A) s Q :
  binside (blocks s) hs None k → (blk ∉ hs) → (length hs ≤ 2)%nat →
  (∀ bp b, binside b (blk :: hs) None k → bat b bp blk → bstep hs (view s) (blocks s) b →
    wp (K bp) (set_blocks b s) Q) →
  wp (bp ← onb (blk_read dev blk); K bp) s Q.
Proof.
  intros I Hn Hl HK. apply wp_bind, wp_onb. eapply wp_mono; [by apply law_read|].
  intros bp b (I' & A' & F' & V' & D' & B'). by apply (HK bp b).
Qed.

Lemma data_wp {A} hs dy k bp blk (K : bdata → M (fstate S) A) s Q :
  binside (blocks s) hs dy k → blk ∈ hs → bat (blocks s) bp blk →
  wp (K (view s blk)) s Q → wp (d ← buf_data bp; K d) s Q.
Proof. intros I Hh Ha HK. apply wp_bind, wp_gets. by rewrite (law_data (blocks s) hs dy k bp blk). Qed.

Lemma rel_wp blk hs k bp s Q :
  binside (blocks s) (blk :: hs) None k → bat (blocks s) bp blk →
  (∀ b, binside b hs None k → bstep hs (view s) (blocks s) b → Q tt (set_blocks b s)) →
  wp (onb (blk_rel bp)) s Q.
Proof.
  intros I Ha HK. apply wp_onb. eapply wp_mono; [by apply (law_rel (blocks s) [] hs k bp blk)|].
  intros [] b (I' & F' & V' & D' & B'). by apply (HK b).
Qed.

(** Changing and logging a block that is held. *)
Lemma store_wp {A} blk hs k bp f (K : M (fstate S) A) s Q :
  binside (blocks s) hs None k → blk ∈ hs → bat (blocks s) bp blk → bvalid (blocks s) blk → 0 < k →
  (∀ b, binside b hs None (k - 1) → bstep hs (upd (view s) blk (f (view s blk))) (blocks s) b →
    wp K (set_blocks b s) Q) →
  wp (onb (blk_store bp f);; onb (blk_log bp);; K) s Q.
Proof.
  intros I Hb Ha Hv Hk HK.
  apply wp_bind, wp_onb. eapply wp_mono; [apply (law_store (blocks s) _ None k bp blk f I Hb Ha); by left|].
  intros _ b1 (I1 & F1 & V1 & D1 & B1).
  apply wp_bind, wp_onb. eapply wp_mono; [apply (law_log b1 _ k bp blk I1 Hb); [by apply F1 | by rewrite B1 | done]|].
  intros _ b2 (I2 & F2 & V2 & D2 & B2). apply (HK b2 I2). split; [|congruence..|auto].
  intros x. by rewrite V2, V1.
Qed.

Lemma bzero_wp hs k blk s Q :
  binside (blocks s) hs None k → (blk ∉ hs) → (length hs ≤ 2)%nat → bvalid (blocks s) blk → 0 < k →
  (∀ b, binside b hs None (k - 1) → bstep hs (upd (view s) blk (mset 0 0 BSIZE (view s blk))) (blocks s) b →
    Q tt (set_blocks b s)) →
  wp (bzero dev blk) s Q.
Proof.
  intros I Hn Hl Hv Hk HK. unfold bzero. apply (read_wp hs k); [done..|].
  intros bp b1 I1 A1 S1. apply (store_wp blk (blk :: hs) k); [done | by left | done | simpl; by rewrite (bs_valid _ _ _ _ S1) | done|].
  intros b2 I2 S2. apply (rel_wp blk hs (k - 1)); [done | apply (bs_at _ _ _ _ S2); [by left | done]|].
  intros b3 I3 S3. apply (HK b3 I3). destruct S1 as [V1 D1 B1 F1], S2 as [V2 D2 B2 F2], S3 as [V3 D3 B3 F3].
  simpl in *. unfold view in *. simpl in *. split; [|congruence..|].
  - intros x. rewrite V3, V2. unfold upd. by rewrite !V1.
  - intros n x Hx Hx'. apply F3, F2, F1; [done | by right | done | done].
Qed.

(** ** The bitmap *)

Definition used (v : superblock) (V : Z → bdata) (b : Z) : bool := bit_set (V (BBLOCK b v)) (b mod BPB).

(** The blocks that may be handed out: valid, not zero, no part of the bitmap. *)
Definition data_block (v : superblock) (b : S) (x : Z) : Prop :=
  0 < x < sb_size v ∧ bvalid b x ∧ ∀ c, 0 ≤ c < sb_size v → x ≠ BBLOCK c v.

(** A disk whose free blocks are data blocks. *)
Record bitmap_ok (v : superblock) (b : S) : Prop := BitmapOk {
  bm_size : 0 < sb_size v < 2 ^ 31;
  bm_valid : ∀ c, 0 ≤ c < sb_size v → bvalid b (BBLOCK c v);
  bm_free : ∀ c, 0 ≤ c < sb_size v → used v (bview b) c = false → data_block v b c;
}.

(** Blocks that are in use and no part of the bitmap, as a holder's must be. *)
Definition in_use (v : superblock) (b : S) (hs : list Z) : Prop :=
  ∀ x, x ∈ hs → 0 ≤ x < sb_size v ∧ used v (bview b) x = true ∧ ∀ c, 0 ≤ c < sb_size v → x ≠ BBLOCK c v.

(** The contents after block [r] has been allocated, and after it is freed. *)
Definition allocated (v : superblock) (V : Z → bdata) (r : Z) : Z → bdata :=
  upd (upd V (BBLOCK r v) (mark_bit (r mod BPB) (V (BBLOCK r v)))) r (mset 0 0 BSIZE (V r)).
Definition freed (v : superblock) (V : Z → bdata) (r : Z) : Z → bdata :=
  upd V (BBLOCK r v) (clear_bit (r mod BPB) (V (BBLOCK r v))).

Lemma same_bit v b c : 0 ≤ b → 0 ≤ c → BBLOCK b v = BBLOCK c v → b mod BPB = c mod BPB → b = c.
Proof. unfold BBLOCK, BPB, BSIZE. lia. Qed.

Lemma used_allocated v V r c :
  0 ≤ r → 0 ≤ c → (∀ x, 0 ≤ x ≤ Z.max r c → r ≠ BBLOCK x v) →
  used v (allocated v V r) c = (c =? r) || used v V c.
Proof.
  intros Hr Hc Hn. unfold used, allocated. rewrite upd_ne by (intros E; apply (Hn c); [lia | done]).
  unfold upd at 1. destruct (Z.eqb_spec (BBLOCK c v) (BBLOCK r v)) as [E|E].
  - rewrite bit_set_mark by (unfold BPB, BSIZE; lia). rewrite E. f_equal. apply eq_true_iff_eq. rewrite !Z.eqb_eq.
    split; [intros Hm; by apply (same_bit v) | by intros ->].
  - destruct (Z.eqb_spec c r) as [->|]; done.
Qed.

Lemma used_freed v V r c : 0 ≤ r → 0 ≤ c → used v (freed v V r) c = negb (c =? r) && used v V c.
Proof.
  intros Hr Hc. unfold used, freed, upd. destruct (Z.eqb_spec (BBLOCK c v) (BBLOCK r v)) as [E|E].
  - rewrite bit_set_clear by (unfold BPB, BSIZE; lia). rewrite E. f_equal. f_equal. apply eq_true_iff_eq. rewrite !Z.eqb_eq.
    split; [intros Hm; by apply (same_bit v) | by intros ->].
  - destruct (Z.eqb_spec c r) as [->|]; done.
Qed.

Lemma balloc_scan_spec fuel bi b size d :
  0 ≤ bi → BPB ≤ bi + Z.of_nat fuel →
  match balloc_scan fuel bi b size d with
  | Some r => bi ≤ r < BPB ∧ b + r < size ∧ bit_set d r = false ∧ ∀ c, bi ≤ c < r → bit_set d c = true
  | None => ∀ c, bi ≤ c < BPB → b + c < size → bit_set d c = true
  end.
Proof.
  revert bi. induction fuel as [|fuel IH]; intros bi Hb Hf; cbn [balloc_scan]; [intros c Hc; lia|].
  destruct (Z.ltb_spec bi BPB) as [H1|H1]; simpl; [|intros c Hc; lia].
  destruct (Z.ltb_spec (b + bi) size) as [H2|H2]; [|intros c Hc; lia].
  destruct (bit_set d bi) eqn:E; [|split; [lia|]; split; [done|]; split; [done|]; intros c Hc; lia].
  specialize (IH (bi + 1)). destruct (balloc_scan fuel (bi + 1) b size d) as [r|].
  - destruct IH as (H3 & H4 & H5 & H6); [lia..|]. split; [lia|]. split; [done|]. split; [done|].
    intros c Hc. destruct (decide (c = bi)) as [->|]; [done | apply H6; lia].
  - intros c Hc Hs. destruct (decide (c = bi)) as [->|]; [done | apply IH; lia].
Qed.

Definition balloc_post (hs : list Z) (k : Z) (s : fstate S) (r : Z) (s' : fstate S) : Prop :=
  ∃ b, s' = set_blocks b s ∧
  ((r = 0 ∧ (∀ c, 0 ≤ c < sb_size (sb s) → used (sb s) (view s) c = true) ∧
    binside b hs None k ∧ bstep hs (view s) (blocks s) b) ∨
   (data_block (sb s) (blocks s) r ∧ used (sb s) (view s) r = false ∧
    (∀ c, 0 ≤ c < r → used (sb s) (view s) c = true) ∧
    binside b hs None (k - 2) ∧ bstep hs (allocated (sb s) (view s) r) (blocks s) b)).

Lemma bstep_eq hs V b b' : bstep hs V b b' → bview b' = V.
Proof. intros [H _ _ _]. by apply FunctionalExtensionality.functional_extensionality. Qed.

(** Reading does not change what the file system relies on. *)
Lemma bitmap_ok_step hs v b b' : bstep hs (bview b) b b' → bitmap_ok v b → bitmap_ok v b'.
Proof.
  intros St [H1 H2 H3]. pose proof (bstep_eq _ _ _ _ St) as E. destruct St as [_ _ B _].
  split; [done | by rewrite B | rewrite E]. intros c Hc Hu. unfold data_block. rewrite B. by apply H3.
Qed.

Lemma in_use_step hs v b b' l : bstep hs (bview b) b b' → in_use v b l → in_use v b' l.
Proof. intros St H. unfold in_use. by rewrite (bstep_eq _ _ _ _ St). Qed.

Lemma balloc_post_step hs k s b1 r s' :
  bstep hs (view s) (blocks s) b1 → balloc_post hs k (set_blocks b1 s) r s' → balloc_post hs k s r s'.
Proof.
  intros St (b & -> & H). exists b. split; [done|]. simpl in H.
  assert (Ev : view (set_blocks b1 s) = view s) by (by apply (bstep_eq hs _ (blocks s))).
  rewrite Ev in H. destruct H as [(-> & H1 & H2 & H3)|(H1 & H2 & H3 & H4 & H5)]; [left | right].
  - split; [done|]. split; [done|]. split; [done|]. by eapply bstep_trans.
  - unfold data_block in *. rewrite (bs_valid _ _ _ _ St) in H1.
    split; [done|]. split; [done|]. split; [done|]. split; [done|]. by eapply bstep_trans.
Qed.

(** Allocating the free block [r] found in the bitmap block that is held. *)
Lemma balloc_take_wp hs k s bp r :
  binside (blocks s) (BBLOCK r (sb s) :: hs) None k → (length hs ≤ 2)%nat → 2 ≤ k →
  bat (blocks s) bp (BBLOCK r (sb s)) → bitmap_ok (sb s) (blocks s) → in_use (sb s) (blocks s) hs →
  0 ≤ r < sb_size (sb s) → used (sb s) (view s) r = false →
  (∀ c, 0 ≤ c < r → used (sb s) (view s) c = true) →
  wp (onb (blk_store bp (mark_bit (r mod BPB)));; onb (blk_log bp);; onb (blk_rel bp);; bzero dev r;; mret r) s
    (balloc_post hs k s).
Proof.
  intros I Hl Hk Ha Hb Hu Hr Hf Hmin. destruct (bm_free _ _ Hb r Hr Hf) as (Hr1 & Hv & Hnb).
  apply (store_wp (BBLOCK r (sb s)) (BBLOCK r (sb s) :: hs) k); [done | by left | done | by apply Hb | lia|].
  intros b1 I1 S1. apply wp_bind. eapply rel_wp; [exact I1 | apply (bs_at _ _ _ _ S1); [by left | done]|].
  intros b2 I2 S2. apply wp_bind. eapply bzero_wp; [exact I2 | | done | | lia|].
  { intros Hx. destruct (Hu r Hx) as (_ & Hu' & _). unfold view in Hf. congruence. }
  { simpl. rewrite (bs_valid _ _ _ _ S2). simpl. by rewrite (bs_valid _ _ _ _ S1). }
  intros b3 I3 S3. apply wp_ret. exists b3. split; [done|]. right. split; [done|]. split; [done|]. split; [done|].
  split; [by replace (k - 2) with (k - 1 - 1) by lia|].
  destruct S1 as [V1 D1 B1 F1], S2 as [V2 D2 B2 F2], S3 as [V3 D3 B3 F3]. simpl in *.
  assert (E2 : view (set_blocks b2 (set_blocks b1 s)) = upd (view s) (BBLOCK r (sb s)) (mark_bit (r mod BPB) (view s (BBLOCK r (sb s))))).
  { apply FunctionalExtensionality.functional_extensionality. intros x. unfold view at 1. simpl. rewrite V2. unfold view at 1. simpl. by rewrite V1. }
  split; [|congruence..|].
  - intros x. rewrite V3, E2. unfold allocated. rewrite (upd_ne (view s) _ _ r) by (by apply Hnb). done.
  - intros n x Hx Hx'. apply F3, F2, F1; [done | done | by right | done].
Qed.

Lemma balloc_loop_wp fuel hs k s j :
  binside (blocks s) hs None k → (length hs ≤ 2)%nat → 2 ≤ k → bitmap_ok (sb s) (blocks s) →
  in_use (sb s) (blocks s) hs → 0 ≤ j → sb_size (sb s) ≤ (j + Z.of_nat fuel) * BPB →
  (∀ c, 0 ≤ c < j * BPB → c < sb_size (sb s) → used (sb s) (view s) c = true) →
  wp (balloc_loop fuel dev (j * BPB)) s (balloc_post hs k s).
Proof.
  revert s j. induction fuel as [|fuel IH]; intros s j I Hl Hk Hb Hu Hj Hf Hbelow; cbn [balloc_loop];
    apply wp_bind, wp_gets; (destruct (Z.ltb_spec (j * BPB) (sb_size (sb s))) as [Hlt|Hge];
      [|apply wp_ret; exists (blocks s); split; [by destruct s|]; left; split; [done|]; split;
        [intros c Hc; apply Hbelow; lia|]; split; [done | apply bstep_refl]]).
  { rewrite Z.add_0_r in Hf. lia. }
  assert (HBB : ∀ c, 0 ≤ c < BPB → BBLOCK (j * BPB + c) (sb s) = BBLOCK (j * BPB) (sb s)) by (unfold BBLOCK, BPB, BSIZE; lia).
  assert (HBM : ∀ c, 0 ≤ c < BPB → (j * BPB + c) mod BPB = c) by (unfold BPB, BSIZE; lia).
  assert (Hj0 : 0 ≤ j * BPB) by (unfold BPB, BSIZE; lia).
  apply (read_wp hs k); [done | | done|].
  { intros Hx. destruct (Hu _ Hx) as (_ & _ & Hn). by apply (Hn (j * BPB)). }
  intros bp b I1 A1 S1. eapply data_wp; [exact I1 | by left | done|].
  assert (Ev : view (set_blocks b s) = view s) by (by apply (bstep_eq hs _ (blocks s))). rewrite Ev.
  pose proof (balloc_scan_spec (Z.to_nat BPB) 0 (j * BPB) (sb_size (sb s)) (view s (BBLOCK (j * BPB) (sb s)))) as Hsc.
  destruct (balloc_scan _ _ _ _ _) as [bi|].
  - destruct Hsc as (H1 & H2 & H3 & H4); [lia | unfold BPB, BSIZE; lia|].
    eapply wp_mono; [|intros r s' H; exact (balloc_post_step hs k s b r s' S1 H)].
    rewrite <- (HBM bi) at 1 by lia. rewrite <- (HBB bi) in I1, A1 by lia.
    apply (balloc_take_wp hs k (set_blocks b s)); simpl; try done.
    + by eapply bitmap_ok_step.
    + by eapply in_use_step.
    + lia.
    + rewrite Ev. unfold used. by rewrite HBB, HBM by lia.
    + rewrite Ev. intros c Hc. destruct (decide (c < j * BPB)); [apply Hbelow; lia|].
      unfold used. replace c with (j * BPB + (c - j * BPB)) by lia. rewrite HBB, HBM by lia. apply H4. lia.
  - apply wp_bind. eapply rel_wp; [exact I1 | done|]. intros b2 I2 S2.
    assert (S12 : bstep hs (view s) (blocks s) b2).
    { eapply bstep_trans; [done|]. eapply bstep_ext; [exact S2|]. intros x. by rewrite Ev. }
    eapply wp_mono; [|intros r s' H; exact (balloc_post_step hs k s b2 r s' S12 H)]. replace (j * BPB + BPB) with ((j + 1) * BPB) by lia.
    apply (IH (set_blocks b2 s)); simpl; try done; [by eapply bitmap_ok_step | by eapply in_use_step | lia | lia|].
    intros c Hc Hs. replace (view (set_blocks b2 s)) with (view s) by (symmetry; by apply (bstep_eq hs _ (blocks s))).
    destruct (decide (c < j * BPB)); [apply Hbelow; lia|].
    unfold used. replace c with (j * BPB + (c - j * BPB)) by lia. rewrite HBB, HBM by lia. apply Hsc; unfold BPB, BSIZE in *; lia.
Qed.

Lemma balloc_wp hs k s :
  binside (blocks s) hs None k → (length hs ≤ 2)%nat → 2 ≤ k → bitmap_ok (sb s) (blocks s) →
  in_use (sb s) (blocks s) hs → wp (balloc dev) s (balloc_post hs k s).
Proof.
  intros I Hl Hk Hb Hu. unfold balloc. apply wp_bind, wp_gets. destruct (bm_size _ _ Hb).
  change 0 with (0 * BPB). apply balloc_loop_wp; try done; unfold BPB, BSIZE in *; lia.
Qed.

Lemma bfree_wp hs k s r :
  binside (blocks s) hs None k → (length hs ≤ 2)%nat → 1 ≤ k → bitmap_ok (sb s) (blocks s) →
  (BBLOCK r (sb s) ∉ hs) → 0 ≤ r < sb_size (sb s) → used (sb s) (view s) r = true →
  wp (bfree dev r) s (λ _ s', ∃ b, s' = set_blocks b s ∧ binside b hs None (k - 1) ∧
    bstep hs (freed (sb s) (view s) r) (blocks s) b).
Proof.
  intros I Hl Hk Hb Hn Hr Hu. unfold bfree. apply wp_bind, wp_gets. apply (read_wp hs k); [done..|].
  intros bp b I1 A1 S1. eapply data_wp; [exact I1 | by left | done|].
  assert (Ev : view (set_blocks b s) = view s) by (by apply (bstep_eq hs _ (blocks s))). rewrite Ev.
  unfold used in Hu. rewrite Hu. cbv iota. simpl negb. cbv iota.
  apply (store_wp (BBLOCK r (sb s)) (BBLOCK r (sb s) :: hs) k); [done | by left | done | | lia|].
  { simpl. rewrite (bs_valid _ _ _ _ S1). by apply Hb. }
  intros b2 I2 S2. eapply rel_wp; [exact I2 | apply (bs_at _ _ _ _ S2); [by left | done]|].
  intros b3 I3 S3. exists b3. split; [done|]. split; [done|].
  pose proof (bstep_eq _ _ _ _ S2) as E2. rewrite Ev in E2.
  destruct S1 as [V1 D1 B1 F1], S2 as [V2 D2 B2 F2], S3 as [V3 D3 B3 F3]. simpl in *.
  split; [|congruence..|].
  - intros x. rewrite V3. unfold view at 1. simpl. by rewrite E2.
  - intros m x Hx Hx'. apply F3, F2, F1; [done | by right | done | done].
Qed.
End FsBlocks.
