(* ===== verification/FsFile.v ===== *)
(** * Files as sequences of bytes (kernel/fs.c)

    The blocks of an inode, the bytes they hold, and the effect of [bmap],
    [readi] and [writei] on them. *)

From stdpp Require Import base numbers list strings.
From S2P Require Import Prelude Str Layout Kalloc Vm Bio Block Fs FsAlloc.
Local Open Scope Z_scope.

(** ** The blocks of an inode *)

(** The address of block [bn] of a file; 0 if it has none. *)
Definition faddr (V : Z → bdata) (i : inode) (bn : Z) : Z :=
  if bn <? NDIRECT then addr_at i bn
  else if addr_at i NDIRECT =? 0 then 0
  else load32 (V (addr_at i NDIRECT)) (4 * (bn - NDIRECT)).

(** Byte [o] of a file; a block that is not there reads as zeros. *)
Definition fbyte (V : Z → bdata) (i : inode) (o : Z) : Z :=
  let a := faddr V i (o / BSIZE) in if a =? 0 then 0 else u8 (V a (o mod BSIZE)).

(** The blocks an inode owns: the indirect block and the data blocks. *)
Definition owned (V : Z → bdata) (i : inode) (x : Z) : Prop :=
  x ≠ 0 ∧ (x = addr_at i NDIRECT ∨ ∃ bn, 0 ≤ bn < MAXFILE ∧ x = faddr V i bn).

(** Bytes of zeroed and updated blocks. *)
Lemma load_le_zero n a d :
  (∀ o, a ≤ o < a + Z.of_nat n → u8 (d o) = 0) → load_le d a n = 0.
Proof.
  revert a. induction n as [|n IH]; intros a Hz; cbn [load_le]; [done|].
  rewrite IH, Hz; [done | lia|]. intros o Ho. apply Hz. lia.
Qed.

Lemma addr_at_set i n a k :
  (0 ≤ n < Z.of_nat (length (i_addrs i))) → 0 ≤ k → addr_at (iset_addr n a i) k = if k =? n then a else addr_at i k.
Proof.
  intros Hn Hk. unfold addr_at, iset_addr. simpl. destruct (Z.eqb_spec k n) as [->|Hne].
  - by rewrite list_lookup_insert_eq by lia.
  - by rewrite list_lookup_insert_ne by lia.
Qed.

Section File.
Context {S : Type} `{BO : BlockOps S} `{L : Linker} (dev : Z) `{BL : !BlockLaws S dev}.

(** The block that holds inode [i] on disk. *)
Definition iblock (v : superblock) (i : inode) : Z := IBLOCK (i_inum i) v.

(** An inode whose blocks are its own: data blocks marked as used, all different,
    and none of them the block the inode is stored in. *)
Record file_ok (v : superblock) (b : S) (i : inode) : Prop := FileOk {
  fo_len : length (i_addrs i) = 13%nat;
  fo_dev : i_dev i = dev;
  fo_data : ∀ x, owned (bview b) i x →
    data_block dev v b x ∧ used v (bview b) x = true ∧ x ≠ iblock v i;
  fo_inj : ∀ bn bn', 0 ≤ bn < MAXFILE → 0 ≤ bn' < MAXFILE →
    faddr (bview b) i bn = faddr (bview b) i bn' → faddr (bview b) i bn ≠ 0 → bn = bn';
  fo_ind : ∀ bn, 0 ≤ bn < MAXFILE → faddr (bview b) i bn ≠ 0 → faddr (bview b) i bn ≠ addr_at i NDIRECT;
  fo_iblock : bvalid b (iblock v i) ∧ 0 ≤ iblock v i < sb_size v ∧
    used v (bview b) (iblock v i) = true ∧ ∀ c, 0 ≤ c < sb_size v → iblock v i ≠ BBLOCK c v;
}.

(** A step on a file that may add blocks to it and leaves it with bytes [F]: the same
    metadata but for the addresses, other blocks in use untouched. *)
Record fstep (v : superblock) (b : S) (i : inode) (b' : S) (i' : inode) (F : Z → Z) : Prop := FStep {
  gr_meta : ∃ l, i' = Inode (i_dev i) (i_inum i) (i_ref i) (i_lock i) (i_valid i) (i_type i) (i_major i)
    (i_minor i) (i_nlink i) (i_size i) l;
  gr_disk : bdisk b' = bdisk b ∧ bvalid b' = bvalid b;
  gr_bitmap : bitmap_ok dev v b';
  gr_file : file_ok v b' i';
  gr_bytes : ∀ o, 0 ≤ o < MAXFILE * BSIZE → fbyte (bview b') i' o = F o;
  gr_used : ∀ c, 0 ≤ c < sb_size v → used v (bview b) c = true → used v (bview b') c = true;
  gr_owned : ∀ x, owned (bview b') i' x → owned (bview b) i x ∨ used v (bview b) x = false;
  gr_frame : ∀ x, 0 ≤ x < sb_size v → used v (bview b) x = true → (¬ owned (bview b) i x) →
    (∀ c, 0 ≤ c < sb_size v → x ≠ BBLOCK c v) → bview b' x = bview b x;
  gr_mapped : ∀ bn, 0 ≤ bn < MAXFILE → faddr (bview b) i bn ≠ 0 → faddr (bview b') i' bn = faddr (bview b) i bn;
}.

Abbreviation grows v b i b' i' := (fstep v b i b' i' (fbyte (bview b) i)).

Lemma grows_refl v b b' i :
  bstep dev [] (bview b) b b' → bitmap_ok dev v b → file_ok v b i → grows v b i b' i.
Proof.
  intros St Hb Hf. pose proof (bstep_eq dev _ _ _ _ St) as E. pose proof St as [_ D B _].
  split; rewrite ?E; try done.
  - exists (i_addrs i). by destruct i.
  - by eapply bitmap_ok_step.
  - destruct Hf as [H1 H2 H3 H4 H5 H6]. split; rewrite ?E; try done; rewrite ?B; [|done].
    intros x Hx. unfold data_block. rewrite B. by apply H3.
  - intros x Hx. by left.
Qed.

Lemma fstep_trans v b i b1 i1 b2 i2 F G : fstep v b i b1 i1 F → fstep v b1 i1 b2 i2 G → fstep v b i b2 i2 G.
Proof.
  intros [(l1 & M1) [D1 B1] K1 F1 Y1 U1 O1 R1 A1] [(l2 & M2) [D2 B2] K2 F2 Y2 U2 O2 R2 A2]. split; try done.
  - exists l2. rewrite M2, M1. done.
  - split; congruence.
  - auto.
  - intros x Hx. destruct (O2 x Hx) as [Hx'|Hu]; [by apply O1|]. right.
    destruct (used v (bview b) x) eqn:E; [|done]. destruct (fo_data _ _ _ F2 x Hx) as ((Hr & _) & _).
    rewrite U1 in Hu by (done || lia). done.
  - intros x Hx Hu Hn Hbb. rewrite R2; [by apply R1 | done | by apply U1 | | done].
    intros Ho. destruct (O1 x Ho) as [|Hf]; [done | congruence].
  - intros bn Hbn Hne. rewrite A2, A1; [done | done | done | done | by rewrite A1].
Qed.

Lemma fstep_ext v b i b' i' F G :
  fstep v b i b' i' F → (∀ o, 0 ≤ o < MAXFILE * BSIZE → F o = G o) → fstep v b i b' i' G.
Proof. intros [M1 D1 K1 F1 Y1 U1 O1 R1 A1] E. split; try done. intros o Ho. by rewrite Y1, E. Qed.

Lemma grows_trans v b i b1 i1 b2 i2 : grows v b i b1 i1 → grows v b1 i1 b2 i2 → grows v b i b2 i2.
Proof. intros G1 G2. eapply fstep_ext; [by eapply fstep_trans|]. apply (gr_bytes _ _ _ _ _ _ G1). Qed.

(** Adding the free block [r] to a file: as block [n], or as its indirect block
    when [n] is -1. *)
Section Grow.
Context (v : superblock) (b : S) (i : inode) (b' : S) (i' : inode) (r n : Z).
Context (Hb : bitmap_ok dev v b) (Hf : file_ok v b i).
Context (Hr : data_block dev v b r) (Hfree : used v (bview b) r = false).
Context (Hmeta : ∃ l, i' = Inode (i_dev i) (i_inum i) (i_ref i) (i_lock i) (i_valid i) (i_type i) (i_major i)
    (i_minor i) (i_nlink i) (i_size i) l) (Hlen : length (i_addrs i') = 13%nat).
Context (Hdisk : bdisk b' = bdisk b) (Hvalid : bvalid b' = bvalid b).
Context (Hused : ∀ c, 0 ≤ c < sb_size v → used v (bview b') c = (c =? r) || used v (bview b) c).
Context (Hn : -1 ≤ n) (Haddr : ∀ bn, 0 ≤ bn < MAXFILE → faddr (bview b') i' bn = if bn =? n then r else faddr (bview b) i bn).
Context (Hn0 : 0 ≤ n < MAXFILE → faddr (bview b) i n = 0).
Context (Hind : addr_at i' NDIRECT = if n =? -1 then r else addr_at i NDIRECT) (Hind0 : n = -1 → addr_at i NDIRECT = 0).
Context (Hkeep : ∀ x, 0 ≤ x < sb_size v → used v (bview b) x = true →
  (∀ c, 0 ≤ c < sb_size v → x ≠ BBLOCK c v) → x = 0 ∨ x ≠ addr_at i NDIRECT → bview b' x = bview b x).
Context (Hzero : ∀ o, 0 ≤ o < BSIZE → u8 (bview b' r o) = 0).

Lemma grow_owned x : owned (bview b') i' x → owned (bview b) i x ∨ x = r.
Proof.
  intros [H0 [E|(bn & Hbn & E)]].
  - rewrite Hind in E. destruct (n =? -1); [by right | left]. split; [done | by left].
  - rewrite Haddr in E by done. destruct (bn =? n); [by right | left]. split; [done|]. right. by exists bn.
Qed.

Lemma owned_used x : owned (bview b) i x → x ≠ r.
Proof. intros Hx ->. destruct (fo_data _ _ _ Hf r Hx) as (_ & Hu & _). congruence. Qed.

Lemma old_addr bn : 0 ≤ bn < MAXFILE → faddr (bview b) i bn ≠ r.
Proof.
  intros Hbn E. apply (owned_used r); [|done]. destruct Hr as [Hr0 _]. split; [lia|]. right. by exists bn.
Qed.

Lemma old_ind : addr_at i NDIRECT ≠ r.
Proof. intros E. apply (owned_used r); [|done]. destruct Hr as [Hr0 _]. split; [lia|]. by left. Qed.

Lemma grow_file : file_ok v b' i'.
Proof.
  assert (Ei : iblock v i' = iblock v i) by (destruct Hmeta as [l ->]; done).
  pose proof Hf as [F1 F2 F3 F4 F5 (F6 & F7 & F8 & F9)]. split.
  - done.
  - destruct Hmeta as [l ->]. done.
  - intros x Hx. rewrite Ei. unfold data_block. rewrite Hvalid. destruct (grow_owned x Hx) as [Ho| ->].
    + destruct (F3 x Ho) as (Hd & Hu & Hi). split; [done|]. split; [|done].
      destruct Hd as [Hd _]. rewrite Hused, Hu by lia. apply orb_true_r.
    + split; [done|]. destruct Hr as [Hr0 _]. rewrite Hused, Z.eqb_refl by lia. split; [done|]. intros E. congruence.
  - intros bn bn' Hbn Hbn'. rewrite !Haddr by done.
    destruct (Z.eqb_spec bn n), (Z.eqb_spec bn' n); try congruence; [|intros E|by apply F4].
    + intros E. by destruct (old_addr bn').
    + by destruct (old_addr bn).
  - intros bn Hbn. rewrite Haddr, Hind by done. destruct (Z.eqb_spec bn n) as [->|].
    + intros _ E. rewrite (proj2 (Z.eqb_neq n (-1))) in E by lia. by apply old_ind.
    + intros H0. destruct (n =? -1); [by apply old_addr | by apply F5].
  - rewrite Ei, Hvalid. split; [done|]. split; [done|]. split; [|done]. rewrite Hused, F8 by lia. apply orb_true_r.
Qed.

Lemma grow_bytes o : 0 ≤ o < MAXFILE * BSIZE → fbyte (bview b') i' o = fbyte (bview b) i o.
Proof.
  intros Ho. assert (Hbn : 0 ≤ o / BSIZE < MAXFILE) by (unfold MAXFILE, NDIRECT, NINDIRECT, BSIZE in *; lia).
  unfold fbyte. rewrite Haddr by done. destruct (Z.eqb_spec (o / BSIZE) n) as [E|E].
  - rewrite E in *. rewrite Hn0 by done. destruct Hr as [Hr0 _]. rewrite (proj2 (Z.eqb_neq r 0)) by lia.
    apply Hzero. unfold BSIZE. lia.
  - destruct (Z.eqb_spec (faddr (bview b) i (o / BSIZE)) 0) as [|H0]; [done|].
    assert (Ho' : owned (bview b) i (faddr (bview b) i (o / BSIZE))) by (split; [done|]; right; by exists (o / BSIZE)).
    destruct (fo_data _ _ _ Hf _ Ho') as ((Hd1 & _ & Hd2) & Hu & _).
    rewrite Hkeep; [done | lia | done | done | right; by apply (fo_ind _ _ _ Hf)].
Qed.

Lemma grow_by : grows v b i b' i'.
Proof.
  split; [done | done | | exact grow_file | exact grow_bytes | | | |].
  - destruct Hb as [B1 B2 B3]. split; [done | by rewrite Hvalid|]. intros c Hc. rewrite Hused by done.
    intros [_ Hu]%orb_false_iff. unfold data_block. rewrite Hvalid. by apply B3.
  - intros c Hc Hu. rewrite Hused, Hu by done. apply orb_true_r.
  - intros x [| ->]%grow_owned; [by left | by right].
  - intros x Hx Hu Hno Hnb. apply Hkeep; [done..|]. destruct (decide (x = 0)) as [|H0]; [by left|].
    right. intros E. apply Hno. split; [done | by left].
  - intros bn Hbn H0. rewrite Haddr by done. destruct (Z.eqb_spec bn n) as [->|]; [|done]. by rewrite Hn0 in H0.
Qed.
End Grow.

(** ** [bmap] *)

(** State [s] with the inode in slot [ip] and the blocks replaced. *)
Definition fput (s : fstate S) (ip : nat) (b : S) (i : inode) : fstate S :=
  set_itable (<[ip := i]>) (set_blocks b s).

(** No block is free. *)
Definition full (v : superblock) (b : S) : Prop := ∀ c, 0 ≤ c < sb_size v → used v (bview b) c = true.

Definition bmap_post (s : fstate S) (ip : nat) (i : inode) (bn k r : Z) (s' : fstate S) : Prop :=
  ∃ b' i' k', s' = fput s ip b' i' ∧ grows (sb s) (blocks s) i b' i' ∧
    binside b' [] None k' ∧ k - 5 ≤ k' ∧
    (r = faddr (bview b') i' bn ∧ r ≠ 0 ∨ r = 0 ∧ full (sb s) b').

Lemma alter_insert {A} (f : A → A) (l : list A) k x : l !! k = Some x → alter f k l = <[k := f x]> l.
Proof.
  intros H. apply list_eq. intros j. destruct (decide (j = k)) as [->|Hne].
  - by rewrite list_lookup_alter_eq, list_lookup_insert_eq, H by (by eapply lookup_lt_Some).
  - by rewrite list_lookup_alter_ne, list_lookup_insert_ne.
Qed.

Lemma fput_id s ip b i : itable s !! ip = Some i → set_blocks b s = fput s ip b i.
Proof. intros H. unfold fput, set_itable, set_blocks. simpl. by rewrite list_insert_id. Qed.

Lemma setip_wp s ip b i f Q :
  itable s !! ip = Some i → Q tt (fput s ip b (f i)) → wp (setip ip f) (set_blocks b s) Q.
Proof.
  intros H HQ. apply wp_modify. unfold fput, set_itable, set_blocks in *. simpl in *. by rewrite (alter_insert f _ _ i).
Qed.

Lemma iat_some (s : fstate S) ip i : itable s !! ip = Some i → iat s ip = i.
Proof. unfold iat. by intros ->. Qed.

(** What an allocation leaves: the bits, the other blocks, zeros. *)
Lemma allocated_facts v b r b' hs :
  bitmap_ok dev v b → data_block dev v b r → bstep dev hs (allocated v (bview b) r) b b' →
  (∀ c, 0 ≤ c < sb_size v → used v (bview b') c = (c =? r) || used v (bview b) c) ∧
  (∀ x, 0 ≤ x < sb_size v → used v (bview b) x = true → used v (bview b) r = false →
    (∀ c, 0 ≤ c < sb_size v → x ≠ BBLOCK c v) → bview b' x = bview b x) ∧
  (∀ o, 0 ≤ o < BSIZE → u8 (bview b' r o) = 0).
Proof.
  intros Hb (Hr & _ & Hn) St. rewrite (bstep_eq dev _ _ _ _ St). split; [|split].
  - intros c Hc. apply used_allocated; [lia | lia|]. intros x Hx. apply Hn. lia.
  - intros x Hx Hu Hf Hnb. unfold allocated. rewrite upd_ne by congruence. apply upd_ne. apply Hnb. lia.
  - intros o Ho. unfold allocated. rewrite upd_eq. unfold mset.
    by rewrite (proj2 (Z.leb_le 0 o)), (proj2 (Z.ltb_lt o (0 + BSIZE))) by lia.
Qed.

(** Allocating a block for slot [n] of the inode: a direct block, or the
    indirect block. *)
Lemma grow_slot v b i r b' n :
  bitmap_ok dev v b → file_ok v b i → data_block dev v b r → used v (bview b) r = false →
  bstep dev [] (allocated v (bview b) r) b b' → 0 ≤ n ≤ NDIRECT → addr_at i n = 0 →
  grows v b i b' (iset_addr n r i).
Proof.
  intros Hb Hf Hr Hu St Hn H0. destruct (allocated_facts v b r b' [] Hb Hr St) as (Ha & Hk & Hz).
  destruct St as [_ Hd Hv _]. pose proof (fo_len _ _ _ Hf) as Hl. unfold NDIRECT in Hn.
  assert (Hat : ∀ k, 0 ≤ k → addr_at (iset_addr n r i) k = if k =? n then r else addr_at i k)
    by (intros k Hk0; apply addr_at_set; lia).
  apply (grow_by v b i b' _ r (if n =? NDIRECT then -1 else n)); try done.
  - exists (<[Z.to_nat n := r]> (i_addrs i)). done.
  - simpl. by rewrite length_insert.
  - destruct (n =? NDIRECT); lia.
  - intros bn Hbn. unfold faddr. rewrite !Hat by (unfold NDIRECT; lia). unfold NDIRECT in *.
    destruct (Z.ltb_spec bn 12).
    + destruct (Z.eqb_spec n 12) as [->|]; [|done].
      by rewrite (proj2 (Z.eqb_neq bn 12)), (proj2 (Z.eqb_neq bn (-1))) by lia.
    + destruct (Z.eqb_spec 12 n) as [<-|Hne].
      * rewrite Z.eqb_refl, H0, (proj2 (Z.eqb_neq bn (-1))) by lia. destruct Hr as (Hr & _ & Hnb).
        rewrite (proj2 (Z.eqb_neq r 0)) by lia.
        apply load_le_zero. intros o Ho. apply Hz. unfold MAXFILE, NDIRECT, NINDIRECT, BSIZE in *. lia.
      * rewrite (proj2 (Z.eqb_neq n 12)), (proj2 (Z.eqb_neq bn n)) by lia.
        destruct (Z.eqb_spec (addr_at i 12) 0) as [|Hi]; [done|].
        destruct (fo_data _ _ _ Hf (addr_at i 12)) as ((Hd1 & _ & Hd2) & Hui & _); [split; [done | by left]|].
        by rewrite Hk by (done || lia).
  - intros Hb'. unfold faddr. destruct (Z.eqb_spec n NDIRECT) as [|Hne]; [lia|].
    unfold NDIRECT in *. by rewrite (proj2 (Z.ltb_lt n 12)) by lia.
  - rewrite Hat by (unfold NDIRECT; lia). unfold NDIRECT. rewrite (Z.eqb_sym 12 n).
    destruct (Z.eqb_spec n 12); [done|]. by rewrite (proj2 (Z.eqb_neq n (-1))) by lia.
  - intros x Hx Hux Hnb _. by apply Hk.
Qed.

(** Allocating a block for an entry of the indirect block. *)
Lemma grow_entry v b i r b' n :
  bitmap_ok dev v b → file_ok v b i → data_block dev v b r → used v (bview b) r = false →
  bstep dev [] (upd (allocated v (bview b) r) (addr_at i NDIRECT)
    (store32 (allocated v (bview b) r (addr_at i NDIRECT)) (4 * (n - NDIRECT)) r)) b b' →
  NDIRECT ≤ n < MAXFILE → addr_at i NDIRECT ≠ 0 → faddr (bview b) i n = 0 →
  grows v b i b' i.
Proof.
  intros Hb Hf Hr Hu St Hn Hi H0. set (ind := addr_at i NDIRECT) in *.
  assert (Hown : owned (bview b) i ind) by (split; [done | by left]).
  destruct (fo_data _ _ _ Hf ind Hown) as ((Hd1 & _ & Hd2) & Hui & _). pose proof Hr as (Hr0 & _ & Hrb).
  assert (Hri : ind ≠ r) by congruence. pose proof (bm_size _ _ _ Hb) as Hsz.
  pose proof (bstep_eq dev _ _ _ _ St) as E. destruct St as [_ Hd Hv _].
  assert (Eind : allocated v (bview b) r ind = bview b ind).
  { unfold allocated. rewrite upd_ne by done. apply upd_ne, Hd2. lia. }
  rewrite Eind in E.
  assert (Eu : ∀ c, 0 ≤ c < sb_size v → used v (bview b') c = used v (allocated v (bview b) r) c).
  { intros c Hc. unfold used. rewrite E, upd_ne; [done|]. intros Ec. by apply (Hd2 c). }
  apply (grow_by v b i b' i r n); try done.
  - exists (i_addrs i). by destruct i.
  - apply Hf.
  - intros c Hc. rewrite Eu by done. apply used_allocated; [lia | lia|]. intros x Hx. apply Hrb. lia.
  - unfold NDIRECT in Hn. lia.
  - intros bn Hbn. unfold faddr in *. fold ind in H0 |- *. rewrite (proj2 (Z.eqb_neq ind 0) Hi) in *.
    unfold NDIRECT in *. destruct (Z.ltb_spec bn 12); [by rewrite (proj2 (Z.eqb_neq bn n)) by lia|].
    rewrite E, upd_eq. destruct (Z.eqb_spec bn n) as [->|]; [|by rewrite load32_store32_ne by lia].
    rewrite load32_store32. unfold u32. lia.
  - fold ind. by rewrite (proj2 (Z.eqb_neq n (-1))) by (unfold NDIRECT in *; lia).
  - intros x Hx Hux Hnb Hxi. rewrite E, upd_ne by (destruct Hxi; [congruence | done]).
    unfold allocated. rewrite upd_ne by congruence. apply upd_ne, Hnb. lia.
  - intros o Ho. rewrite E, upd_ne by congruence. unfold allocated. rewrite upd_eq. unfold mset.
    by rewrite (proj2 (Z.leb_le 0 o)), (proj2 (Z.ltb_lt o (0 + BSIZE))) by lia.
Qed.

Lemma in_use_nil v (b : S) : in_use dev v b [].
Proof. by intros x ?%elem_of_nil. Qed.

Lemma full_step v b b' hs : bstep dev hs (bview b) b b' → (∀ c, 0 ≤ c < sb_size v → used v (bview b) c = true) → full v b'.
Proof. intros St H c Hc. rewrite (bstep_eq dev _ _ _ _ St). by apply H. Qed.

(** A slot of the inode that is empty gets a block, if there is one. *)
Lemma slot_wp {A} s ip i n k (K : Z → M (fstate S) A) Q :
  itable s !! ip = Some i → binside (blocks s) [] None k → 2 ≤ k →
  bitmap_ok dev (sb s) (blocks s) → file_ok (sb s) (blocks s) i → 0 ≤ n ≤ NDIRECT → addr_at i n = 0 →
  (∀ b', binside b' [] None k → grows (sb s) (blocks s) i b' i → full (sb s) b' → wp (K 0) (fput s ip b' i) Q) →
  (∀ b' r, binside b' [] None (k - 2) → r ≠ 0 → grows (sb s) (blocks s) i b' (iset_addr n r i) →
    wp (setip ip (iset_addr n r);; K r) (set_blocks b' s) Q) →
  wp (addr ← balloc (i_dev i); if addr =? 0 then K 0 else setip ip (iset_addr n addr);; K addr) s Q.
Proof.
  intros Hip I Hk Hb Hf Hn H0 HK0 HK. rewrite (fo_dev _ _ _ Hf). apply wp_bind.
  eapply wp_mono; [apply (balloc_wp dev [] k); [done | simpl; lia | done | done | apply in_use_nil]|].
  intros r s' (b & -> & [(-> & Hfull & I' & St)|(Hr & Hu & _ & I' & St)]).
  - rewrite (fput_id s ip b i) by done. apply HK0; [done | by apply grows_refl | by eapply full_step].
  - destruct Hr as [Hr0 Hr']. rewrite (proj2 (Z.eqb_neq r 0)) by lia. apply HK; [done | lia | by apply grow_slot].
Qed.

Definition entry_post (s : fstate S) (ip : nat) (i : inode) (bn k r : Z) (s' : fstate S) : Prop :=
  ∃ b' k', s' = fput s ip b' i ∧ grows (sb s) (blocks s) i b' i ∧ binside b' [] None k' ∧ k - 3 ≤ k' ∧
    (r = faddr (bview b') i bn ∧ r ≠ 0 ∨ r = 0 ∧ full (sb s) b').

(** The end of [bmap]: the entry is filled, the indirect block released. *)
Lemma bmap_link_wp s ip i bn k b1 b2 bp r :
  itable s !! ip = Some i → bitmap_ok dev (sb s) (blocks s) → file_ok (sb s) (blocks s) i →
  NDIRECT ≤ bn < MAXFILE → addr_at i NDIRECT ≠ 0 → faddr (bview (blocks s)) i bn = 0 →
  bstep dev [] (bview (blocks s)) (blocks s) b1 → bat b1 bp (addr_at i NDIRECT) → 3 ≤ k →
  data_block dev (sb s) (blocks s) r → used (sb s) (bview (blocks s)) r = false →
  binside b2 [addr_at i NDIRECT] None (k - 2) →
  bstep dev [addr_at i NDIRECT] (allocated (sb s) (bview (blocks s)) r) b1 b2 →
  wp (when (nonzero r) (onb (blk_store bp (λ d, store32 d (4 * (bn - NDIRECT)) r));; onb (blk_log bp));;
      onb (blk_rel bp);; mret r) (set_blocks b2 s) (entry_post s ip i bn k).
Proof.
  intros Hip Hb Hf Hbn Hi H0 S1 A1 Hk Hr Hu I2 S2. pose proof Hr as (Hr0 & _). set (ind := addr_at i NDIRECT) in *.
  assert (Hin : ind ∈ [ind]) by (by left).
  destruct (fo_data _ _ _ Hf ind) as ((_ & Hdv & _) & _); [split; [done | by left]|].
  rewrite (proj2 (nonzero_true r)) by lia. cbn [when]. apply wp_flat.
  apply (store_wp dev ind [ind] (k - 2)); [done | done | by apply (bs_at _ _ _ _ _ S2) | | lia|].
  { simpl. by rewrite (bs_valid _ _ _ _ _ S2), (bs_valid _ _ _ _ _ S1). }
  intros b3 I3 S3. apply wp_bind. eapply rel_wp; [exact I3 | by apply (bs_at _ _ _ _ _ S3), (bs_at _ _ _ _ _ S2)|].
  intros b4 I4 S4. apply wp_ret.
  pose proof (bstep_eq dev _ _ _ _ S2) as E2. pose proof (bstep_eq dev _ _ _ _ S3) as E3. unfold view in E3. simpl in E3.
  assert (St : bstep dev [] (upd (allocated (sb s) (bview (blocks s)) r) ind
    (store32 (allocated (sb s) (bview (blocks s)) r ind) (4 * (bn - NDIRECT)) r)) (blocks s) b4).
  { destruct S1 as [V1 D1 B1 F1], S2 as [V2 D2 B2 F2], S3 as [V3 D3 B3 F3], S4 as [V4 D4 B4 F4]. simpl in *.
    split; [|congruence..|by intros n x ?%elem_of_nil]. intros x. rewrite V4. unfold view. simpl. by rewrite E3, E2. }
  pose proof (grow_entry _ _ _ _ _ _ Hb Hf Hr Hu St Hbn Hi H0) as G.
  exists b4, (k - 2 - 1). split; [exact (fput_id s ip _ i Hip)|]. split; [done|]. split; [done|]. split; [lia|]. left.
  split; [|lia]. unfold faddr. fold ind.
  rewrite (proj2 (Z.ltb_ge bn NDIRECT)), (proj2 (Z.eqb_neq ind 0)), (bstep_eq dev _ _ _ _ St), upd_eq by (done || lia).
  rewrite load32_store32. pose proof (bm_size _ _ _ Hb). unfold u32. lia.
Qed.

(** An entry of the indirect block, read or allocated. *)
Lemma bmap_entry_wp s ip i bn k :
  itable s !! ip = Some i → binside (blocks s) [] None k → 3 ≤ k →
  bitmap_ok dev (sb s) (blocks s) → file_ok (sb s) (blocks s) i →
  NDIRECT ≤ bn < MAXFILE → addr_at i NDIRECT ≠ 0 →
  wp (bmap_entry (i_dev i) (addr_at i NDIRECT) (bn - NDIRECT)) s (entry_post s ip i bn k).
Proof.
  intros Hip I Hk Hb Hf Hbn Hi. unfold bmap_entry. rewrite (fo_dev _ _ _ Hf).
  destruct (fo_data _ _ _ Hf (addr_at i NDIRECT)) as ((Hd1 & Hdv & Hd2) & Hui & _); [split; [done | by left]|].
  assert (Hfa : ∀ V, faddr V i bn = load32 (V (addr_at i NDIRECT)) (4 * (bn - NDIRECT))).
  { intros V. unfold faddr. rewrite (proj2 (Z.ltb_ge bn NDIRECT)), (proj2 (Z.eqb_neq _ 0)) by (done || lia). done. }
  apply (read_wp dev [] k); [done | apply not_elem_of_nil | simpl; lia|]. intros bp b1 I1 A1 S1.
  eapply data_wp; [exact I1 | by left | done|].
  assert (E1 : view dev (set_blocks b1 s) = bview (blocks s)) by (by apply (bstep_eq dev [] _ (blocks s))).
  rewrite E1. cbv zeta. rewrite <- Hfa. destruct (Z.eqb_spec (faddr (bview (blocks s)) i bn) 0) as [H0|H0].
  - apply wp_bind. eapply wp_mono; [apply (balloc_wp dev [addr_at i NDIRECT] k (set_blocks b1 s)); simpl; try done; [lia | lia | by eapply bitmap_ok_step|]|].
    { intros x ->%list_elem_of_singleton. rewrite (bstep_eq dev _ _ _ _ S1). split; [lia | done]. }
    intros r s' (b2 & -> & [(-> & Hfull & I2 & S2)|(Hr & Hu & _ & I2 & S2)]); simpl in *; rewrite E1 in *.
    + change (when (nonzero 0) ?m) with (@mret (M (fstate S)) _ unit tt). apply wp_bind, wp_ret.
      apply wp_bind. eapply rel_wp; [exact I2 | apply (bs_at _ _ _ _ _ S2); [by left | done]|].
      intros b3 I3 S3. apply wp_ret. exists b3, k.
      assert (St : bstep dev [] (bview (blocks s)) (blocks s) b3).
      { destruct S1 as [V1 D1 B1 F1], S2 as [V2 D2 B2 F2], S3 as [V3 D3 B3 F3]. simpl in *.
        split; [|congruence..|by intros n x ?%elem_of_nil]. intros x. rewrite V3. unfold view. simpl. by rewrite V2. }
      split; [exact (fput_id s ip _ i Hip)|]. split; [by apply grows_refl|]. split; [done|]. split; [lia|]. right.
      split; [done | by eapply full_step].
    + unfold data_block in Hr. rewrite (bs_valid _ _ _ _ _ S1) in Hr. by apply (bmap_link_wp s ip i bn k b1 b2 bp r).
  - apply wp_bind. eapply rel_wp; [exact I1 | done|]. intros b2 I2 S2. apply wp_ret. exists b2, k.
    assert (St : bstep dev [] (bview (blocks s)) (blocks s) b2).
    { eapply bstep_trans; [exact S1|]. eapply bstep_ext; [exact S2|]. intros x. by rewrite E1. }
    split; [exact (fput_id s ip _ i Hip)|]. split; [by apply grows_refl|]. split; [done|]. split; [lia|]. left.
    by rewrite (bstep_eq dev _ _ _ _ St).
Qed.

Lemma getip_wp {A} (s : fstate S) ip i (K : inode → M (fstate S) A) Q :
  itable s !! ip = Some i → wp (K i) s Q → wp (j ← getip ip; K j) s Q.
Proof. intros H HK. apply wp_bind, wp_gets. by rewrite (iat_some s ip i H). Qed.

Lemma fput_lookup (s : fstate S) ip b i j : itable s !! ip = Some j → itable (fput s ip b i) !! ip = Some i.
Proof. intros H. simpl. by rewrite list_lookup_insert_eq by (by eapply lookup_lt_Some). Qed.

Lemma fput_fput s ip b b' i i' : fput (fput s ip b i) ip b' i' = fput s ip b' i'.
Proof. unfold fput, set_itable, set_blocks. simpl. by rewrite list_insert_insert_eq. Qed.

Lemma entry_bmap s ip i bn k k0 b1 i1 r s' :
  grows (sb s) (blocks s) i b1 i1 → k0 - 2 ≤ k →
  entry_post (fput s ip b1 i1) ip i1 bn k r s' → bmap_post s ip i bn k0 r s'.
Proof.
  intros G Hk (b' & k' & -> & G' & I' & Hk' & Hr). exists b', i1, k'. rewrite fput_fput.
  split; [done|]. split; [by eapply grows_trans|]. split; [done|]. split; [lia | done].
Qed.

Lemma fput_self s ip i : itable s !! ip = Some i → s = fput s ip (blocks s) i.
Proof. intros H. rewrite <- (fput_id s ip _ i H). by destruct s. Qed.

Lemma bmap_post_same s ip i bn k :
  itable s !! ip = Some i → binside (blocks s) [] None k →
  bitmap_ok dev (sb s) (blocks s) → file_ok (sb s) (blocks s) i → faddr (bview (blocks s)) i bn ≠ 0 →
  bmap_post s ip i bn k (faddr (bview (blocks s)) i bn) s.
Proof.
  intros Hip I Hb Hf Hr. exists (blocks s), i, k. split; [by apply fput_self|].
  split; [apply grows_refl; [apply bstep_refl | done | done]|]. split; [done|]. split; [lia|]. by left.
Qed.

(** Block [bn] of a file, allocated with its indirect block if it is not there:
    the bytes of the file stay the same, and 0 is returned only when the disk
    is full. *)
Lemma bmap_wp s ip i bn k :
  itable s !! ip = Some i → binside (blocks s) [] None k → 5 ≤ k →
  bitmap_ok dev (sb s) (blocks s) → file_ok (sb s) (blocks s) i → 0 ≤ bn < MAXFILE →
  wp (bmap ip bn) s (bmap_post s ip i bn k).
Proof.
  intros Hip I Hk Hb Hf Hbn. unfold bmap. eapply getip_wp; [done|]. destruct (Z.ltb_spec bn NDIRECT) as [Hd|Hd].
  - assert (Hfa : ∀ V j, faddr V j bn = addr_at j bn).
    { intros V j. unfold faddr. by rewrite (proj2 (Z.ltb_lt bn NDIRECT)). }
    destruct (Z.eqb_spec (addr_at i bn) 0) as [H0|H0].
    + apply (slot_wp s ip i bn k (λ r, mret r)); try done; [lia | lia | |].
      * intros b' I' G Hfull. apply wp_ret. exists b', i, k. split; [done|]. split; [done|]. split; [done|].
        split; [lia | by right].
      * intros b' r I' Hr G. apply wp_bind, (setip_wp s ip b' i); [done|]. apply wp_ret.
        exists b', (iset_addr bn r i), (k - 2). split; [done|]. split; [done|]. split; [done|]. split; [lia|]. left.
        rewrite Hfa, addr_at_set by (rewrite ?(fo_len _ _ _ Hf); unfold NDIRECT in *; lia). by rewrite Z.eqb_refl.
    + apply wp_ret. rewrite <- (Hfa (bview (blocks s))) in *. by apply bmap_post_same.
  - cbv zeta. rewrite (proj2 (Z.ltb_lt (bn - NDIRECT) NINDIRECT)) by (unfold MAXFILE in Hbn; lia).
    destruct (Z.eqb_spec (addr_at i NDIRECT) 0) as [H0|H0].
    + apply wp_flat. eapply wp_then; [|apply (slot_wp s ip i NDIRECT k (λ r, if r =? 0 then mret 0 else
        bmap_entry (i_dev i) r (bn - NDIRECT))); try done].
      * intros a s' H. cbv beta in H. apply wp_flat. destruct (Z.eqb_spec a 0) as [->|Ha]; [by apply wp_bind, wp_ret|].
        eapply wp_then; [|exact H]. intros [] s1 H1. apply wp_bind, wp_ret. by rewrite (proj2 (Z.eqb_neq a 0) Ha).
      * lia.
      * intros b' I' G Hfull. apply wp_ret. exists b', i, k. split; [done|]. split; [done|]. split; [done|].
        split; [lia | by right].
      * intros b' r I' Hr G. apply wp_bind, (setip_wp s ip b' i); [done|]. rewrite (proj2 (Z.eqb_neq r 0)) by done.
        assert (Ha : addr_at (iset_addr NDIRECT r i) NDIRECT = r)
          by (rewrite addr_at_set by (rewrite ?(fo_len _ _ _ Hf); unfold NDIRECT; lia); by rewrite Z.eqb_refl).
        eapply wp_mono; [|intros r' s' H; apply (entry_bmap s ip i bn (k - 2) k b' _ r' s' G); [lia | exact H]].
        pose proof (bmap_entry_wp (fput s ip b' (iset_addr NDIRECT r i)) ip (iset_addr NDIRECT r i) bn (k - 2)) as H.
        rewrite Ha in H. apply H; [by eapply fput_lookup | done | lia | apply G | apply G | lia | done].
    + apply wp_bind, wp_ret. rewrite (proj2 (Z.eqb_neq _ 0) H0).
      eapply wp_mono; [apply (bmap_entry_wp s ip i bn k); (done || lia)|].
      intros r s' H. apply (entry_bmap s ip i bn k k (blocks s) i); [by apply grows_refl; [apply bstep_refl|..] | lia|].
      by rewrite <- fput_self.
Qed.
End File.
