(* ===== verification/FsInode.v ===== *)
(** * Inodes on disk (kernel/fs.c)

    The on-disk form of an inode: what [iupdate] stores, [ilock] reads back, and
    the other inodes of the block keep their bytes. *)

From stdpp Require Import base numbers list strings.
From S2P Require Import Prelude Str Layout Kalloc Vm Bio Block Fs FsAlloc FsFile.
Local Open Scope Z_scope.

(** The fields of an inode at their width ([short], [uint]). *)
Record inode_typed (i : inode) : Prop := InodeTyped {
  it_type : - 2 ^ 15 ≤ i_type i < 2 ^ 15;
  it_major : - 2 ^ 15 ≤ i_major i < 2 ^ 15;
  it_minor : - 2 ^ 15 ≤ i_minor i < 2 ^ 15;
  it_nlink : - 2 ^ 15 ≤ i_nlink i < 2 ^ 15;
  it_size : 0 ≤ i_size i < 2 ^ 32;
  it_len : length (i_addrs i) = 13%nat;
  it_addrs : Forall (λ a, 0 ≤ a < 2 ^ 32) (i_addrs i);
}.

(** Where inode [inum] is in its block. *)
Definition islot (inum : Z) : Z := sizeof_dinode * (inum mod IPB).

Lemma i16_load16_store16 d a v : - 2 ^ 15 ≤ v < 2 ^ 15 → i16 (load16 (store16 d a v) a) = v.
Proof.
  intros Hv. unfold load16, store16. rewrite load_store_le. change (256 ^ Z.of_nat 2) with (2 ^ 16). unfold i16. lia.
Qed.

Lemma store_addrs_out l a d b : b < a ∨ a + 4 * Z.of_nat (length l) ≤ b → store_addrs a l d b = d b.
Proof.
  revert a d. induction l as [|v l IH]; intros a d Hb; [done|]. simpl in *. rewrite IH by lia.
  unfold store32. apply store_le_out. lia.
Qed.

Lemma store_addrs_load l a d k v :
  l !! k = Some v → load32 (store_addrs a l d) (a + 4 * Z.of_nat k) = u32 v.
Proof.
  revert a d k. induction l as [|w l IH]; intros a d k Hk; [done|]. destruct k as [|k]; simpl in *.
  - injection Hk as ->. replace (a + 4 * Z.of_nat 0) with a by lia. rewrite <- (load32_store32 d a v).
    apply load_le_ext. intros b Hb. apply store_addrs_out. lia.
  - rewrite <- (IH (a + 4) (store32 d a w) k Hk). f_equal. lia.
Qed.

Lemma load_store_addrs_out l a d b n :
  b + Z.of_nat n ≤ a → load_le (store_addrs a l d) b n = load_le d b n.
Proof. intros H. apply load_le_ext. intros c Hc. apply store_addrs_out. lia. Qed.

Lemma dinode_addrs_write i a d : inode_typed i → dinode_addrs (write_dinode i a d) a = i_addrs i.
Proof.
  intros T. unfold dinode_addrs, write_dinode. apply list_eq. intros k. rewrite list_lookup_fmap.
  destruct (i_addrs i !! k) as [v|] eqn:E.
  - pose proof (lookup_lt_Some _ _ _ E) as Hk. rewrite (it_len _ T) in Hk. rewrite lookup_seq_lt by done. simpl.
    rewrite (store_addrs_load _ _ _ k v E). pose proof (proj1 (Forall_lookup _ _) (it_addrs _ T) _ _ E) as Hv.
    simpl in Hv. unfold u32. by rewrite Z.mod_small by lia.
  - apply lookup_ge_None in E. rewrite (it_len _ T) in E. by rewrite lookup_seq_ge.
Qed.

(** An inode written to its block and read back. *)
Lemma dinode_roundtrip i a d : inode_typed i → read_dinode (write_dinode i a d) a i = i.
Proof.
  intros T. unfold read_dinode. rewrite dinode_addrs_write by done. unfold dinode_type, write_dinode.
  unfold load16, load32, store16, store32. rewrite !load_store_addrs_out by lia.
  repeat (rewrite load_store_le || rewrite load_store_le_out by lia).
  change (256 ^ Z.of_nat 4) with (2 ^ 32). change (256 ^ Z.of_nat 2) with (2 ^ 16).
  pose proof T as [T1 T2 T3 T4 T5 _ _]. rewrite (Z.mod_small (i_size i)) by lia.
  assert (E : ∀ x, - 2 ^ 15 ≤ x < 2 ^ 15 → i16 (x mod 2 ^ 16) = x) by (intros x Hx; unfold i16; lia).
  rewrite !E by assumption. by destruct i.
Qed.

(** The other inodes of the block keep their bytes. *)
Lemma write_dinode_out i a d b :
  length (i_addrs i) = 13%nat → b < a ∨ a + sizeof_dinode ≤ b → write_dinode i a d b = d b.
Proof.
  unfold sizeof_dinode. intros Hl Hb. unfold write_dinode. rewrite store_addrs_out by lia.
  unfold store32, store16. by rewrite !store_le_out by lia.
Qed.

Section Inode.
Context {S : Type} `{BO : BlockOps S} `{L : Linker} (dev : Z) `{BL : !BlockLaws S dev}.

(** [iupdate] stores the inode in its block. *)
Lemma iupdate_wp s ip i k Q :
  itable s !! ip = Some i → binside (blocks s) [] None k → 0 < k → i_dev i = dev →
  bvalid (blocks s) (iblock (sb s) i) →
  (∀ b', binside b' [] None (k - 1) →
    bstep dev [] (upd (view dev s) (iblock (sb s) i)
      (write_dinode i (islot (i_inum i)) (view dev s (iblock (sb s) i)))) (blocks s) b' → Q tt (set_blocks b' s)) →
  wp (iupdate ip) s Q.
Proof.
  intros Hip I Hk Hd Hv HK. unfold iupdate. eapply getip_wp; [done|]. apply wp_bind, wp_gets. rewrite Hd.
  change (IBLOCK (i_inum i) (sb s)) with (iblock (sb s) i).
  apply (read_wp dev [] k); [done | apply not_elem_of_nil | simpl; lia|]. intros bp b1 I1 A1 S1.
  eapply getip_wp; [exact Hip|]. fold (islot (i_inum i)).
  apply (store_wp dev (iblock (sb s) i) [iblock (sb s) i] k); [done | by left | done | simpl; by rewrite (bs_valid _ _ _ _ _ S1) | done|].
  intros b2 I2 S2. eapply rel_wp; [exact I2 | apply (bs_at _ _ _ _ _ S2); [by left | done]|].
  intros b3 I3 S3. apply (HK b3 I3).
  pose proof (bstep_eq dev _ _ _ _ S1) as E1. pose proof (bstep_eq dev _ _ _ _ S2) as E2.
  destruct S1 as [V1 D1 B1 F1], S2 as [V2 D2 B2 F2], S3 as [V3 D3 B3 F3]. unfold view in *. simpl in *.
  split; [|congruence..|by intros n x ?%elem_of_nil]. intros x. by rewrite V3, E2, E1.
Qed.

(** The on-disk inode is the one in memory. *)
Definition stored (v : superblock) (V : Z → bdata) (i : inode) : Prop :=
  read_dinode (V (iblock v i)) (islot (i_inum i)) i = i.

Lemma file_addrs_typed v b i : bitmap_ok dev v b → file_ok dev v b i → Forall (λ a, 0 ≤ a < 2 ^ 32) (i_addrs i).
Proof.
  intros Hb Hf. apply Forall_lookup. intros k x Hk. pose proof (lookup_lt_Some _ _ _ Hk) as Hl.
  rewrite (fo_len _ _ _ _ Hf) in Hl. pose proof (bm_size _ _ _ Hb) as Hs.
  assert (Ex : addr_at i (Z.of_nat k) = x) by (unfold addr_at; by rewrite Nat2Z.id, Hk).
  destruct (decide (x = 0)) as [->|Hx]; [lia|].
  destruct (fo_data _ _ _ _ Hf x) as ((Hd & _) & _); [|lia]. split; [done|].
  destruct (decide (k = 12%nat)) as [->|]; [left; by rewrite <- Ex|]. right. exists (Z.of_nat k).
  unfold MAXFILE, faddr, NDIRECT, NINDIRECT, BSIZE. split; [lia|]. by rewrite (proj2 (Z.ltb_lt _ 12)) by lia.
Qed.

(** Storing the inode changes none of the bytes of its file. *)
Lemma iupdate_file v b i b' d :
  bitmap_ok dev v b → file_ok dev v b i → bstep dev [] (upd (bview b) (iblock v i) d) b b' →
  bitmap_ok dev v b' ∧ file_ok dev v b' i ∧
  (∀ bn, 0 ≤ bn < MAXFILE → faddr (bview b') i bn = faddr (bview b) i bn) ∧
  (∀ o, 0 ≤ o < MAXFILE * BSIZE → fbyte (bview b') i o = fbyte (bview b) i o) ∧
  (∀ c, 0 ≤ c < sb_size v → used v (bview b') c = used v (bview b) c).
Proof.
  intros Hb Hf St. pose proof (bstep_eq dev _ _ _ _ St) as E. destruct St as [_ Hd Hv _].
  pose proof Hf as [F1 F2 F3 F4 F5 (F6 & F7 & F8 & F9)].
  assert (Eu : ∀ c, 0 ≤ c < sb_size v → used v (bview b') c = used v (bview b) c).
  { intros c Hc. unfold used. rewrite E, upd_ne; [done|]. intros Ec. by apply (F9 c). }
  assert (Ef : ∀ n, 0 ≤ n < MAXFILE → faddr (bview b') i n = faddr (bview b) i n).
  { intros n Hn. unfold faddr. destruct (n <? NDIRECT), (Z.eqb_spec (addr_at i NDIRECT) 0); try done.
    rewrite E, upd_ne; [done|]. apply F3. split; [done | by left]. }
  assert (Eo : ∀ x, owned (bview b') i x → owned (bview b) i x).
  { intros x [Hx [Hx'|(n & Hn & Hx')]]; (split; [done|]); [by left | right; exists n; by rewrite <- Ef]. }
  split; [|split; [|split; [done|split; [|done]]]].
  - destruct Hb as [B1 B2 B3]. split; [done | by rewrite Hv|]. intros c Hc. rewrite Eu by done.
    unfold data_block. rewrite Hv. by apply B3.
  - split; try done.
    + intros x Hx%Eo. destruct (F3 x Hx) as (D1 & D2 & D3). pose proof D1 as (D0 & _). unfold data_block.
      rewrite Hv, Eu by lia. done.
    + intros n n' Hn Hn'. rewrite !Ef by done. by apply F4.
    + intros n Hn. rewrite Ef by done. by apply F5.
    + rewrite Hv, Eu by lia. done.
  - intros o Ho. unfold fbyte.
    assert (Hn : 0 ≤ o / BSIZE < MAXFILE) by (unfold MAXFILE, NDIRECT, NINDIRECT, BSIZE in *; lia).
    rewrite Ef by done. destruct (Z.eqb_spec (faddr (bview b) i (o / BSIZE)) 0) as [|H0]; [done|].
    rewrite E, upd_ne; [done|]. apply F3. split; [done|]. right. by exists (o / BSIZE).
Qed.

(** A file is read from its own blocks and the inode from its own block. *)
Lemma file_agree v b i (V : Z → bdata) :
  file_ok dev v b i → (∀ x, bvalid b x → V x = bview b x) →
  (∀ o, 0 ≤ o < MAXFILE * BSIZE → fbyte V i o = fbyte (bview b) i o) ∧ V (iblock v i) = bview b (iblock v i).
Proof.
  intros Hf HV. split; [|by apply HV, (fo_iblock _ _ _ _ Hf)]. intros o Ho.
  assert (Hn : 0 ≤ o / BSIZE < MAXFILE) by (unfold MAXFILE, NDIRECT, NINDIRECT, BSIZE in *; lia).
  assert (Ef : faddr V i (o / BSIZE) = faddr (bview b) i (o / BSIZE)).
  { unfold faddr. destruct (_ <? _); [done|]. destruct (Z.eqb_spec (addr_at i NDIRECT) 0) as [|Hi]; [done|].
    rewrite HV; [done|]. apply (fo_data _ _ _ _ Hf). split; [done | by left]. }
  unfold fbyte. rewrite Ef. destruct (Z.eqb_spec (faddr (bview b) i (o / BSIZE)) 0) as [|H0]; [done|].
  rewrite HV; [done|]. apply (fo_data _ _ _ _ Hf). split; [done|]. right. by exists (o / BSIZE).
Qed.
End Inode.
