(* ===== verification/FsRw.v ===== *)
(** * Reading and writing files (kernel/fs.c)

    [writei] overwrites the bytes of a file and [readi] returns them. *)

From stdpp Require Import base numbers list strings.
From S2P Require Import Prelude Str Layout Kalloc Vm Bio Block Fs FsAlloc FsFile FsInode.
Local Open Scope Z_scope.

(** The bytes [F] with [bs] written at [off]. *)
Definition overwrite (F : Z → Z) (off : Z) (bs : list Z) (x : Z) : Z :=
  match bs !! Z.to_nat (x - off) with
  | Some c => if off <=? x then u8 c else F x
  | None => F x
  end.

(** The [n] bytes of a file from [off]. *)
Definition fbytes (V : Z → bdata) (i : inode) (off : Z) (n : nat) : list Z :=
  (λ j, fbyte V i (off + Z.of_nat j)) <$> seq 0 n.

(** The number of blocks that bytes [off .. off + len] touch. *)
Definition touched (off len : Z) : Z := (off + len + BSIZE - 1) / BSIZE - off / BSIZE.

Lemma overwrite_nil F off x : overwrite F off [] x = F x.
Proof. done. Qed.

Lemma overwrite_app F off l1 l2 x :
  overwrite (overwrite F off l1) (off + Z.of_nat (length l1)) l2 x = overwrite F off (l1 ++ l2) x.
Proof.
  unfold overwrite. destruct (Z.leb_spec (off + Z.of_nat (length l1)) x).
  - rewrite (proj2 (Z.leb_le off x)) by lia. rewrite lookup_app_r by lia.
    rewrite (lookup_ge_None_2 l1) by lia.
    by replace (Z.to_nat (x - (off + Z.of_nat (length l1)))) with (Z.to_nat (x - off) - length l1)%nat by lia.
  - assert (E : match l2 !! Z.to_nat (x - (off + Z.of_nat (length l1))) with Some _ | None =>
      match l1 !! Z.to_nat (x - off) with Some c => if off <=? x then u8 c else F x | None => F x end end =
      match (l1 ++ l2) !! Z.to_nat (x - off) with Some c => if off <=? x then u8 c else F x | None => F x end).
    { transitivity (match l1 !! Z.to_nat (x - off) with Some c => if off <=? x then u8 c else F x | None => F x end).
      { by destruct (l2 !! _). }
      destruct (Z.leb_spec off x); [by rewrite lookup_app_l by lia|]. by destruct (l1 !! _), ((l1 ++ l2) !! _). }
    by destruct (l2 !! _).
Qed.

Lemma fbytes_cons V i off n : fbytes V i off (S n) = fbyte V i off :: fbytes V i (off + 1) n.
Proof.
  unfold fbytes. cbn [seq]. rewrite fmap_cons, Z.add_0_r. f_equal. rewrite <- fmap_S_seq, <- list_fmap_compose.
  apply list_fmap_ext. intros j x _. simpl. f_equal. lia.
Qed.

Lemma fbytes_app V i off n m : fbytes V i off (n + m) = fbytes V i off n ++ fbytes V i (off + Z.of_nat n) m.
Proof.
  revert off. induction n as [|n IH]; intros off; [simpl; f_equal; lia|]. rewrite Nat.add_succ_l, !fbytes_cons, IH.
  simpl. f_equal. f_equal. f_equal. lia.
Qed.

Lemma read_bytes_fbytes V i off bn n :
  0 ≤ off → off / BSIZE = bn → off mod BSIZE + Z.of_nat n ≤ BSIZE → faddr V i bn ≠ 0 →
  read_bytes (off mod BSIZE) n (V (faddr V i bn)) = fbytes V i off n.
Proof.
  revert off. induction n as [|n IH]; intros off Hoff E Hn Ha; [done|].
  rewrite fbytes_cons. cbn [read_bytes]. f_equal.
  - unfold fbyte. rewrite E. by rewrite (proj2 (Z.eqb_neq _ 0) Ha).
  - destruct n as [|n]; [done|]. rewrite <- IH; [f_equal | | | |done]; unfold BSIZE in *; lia.
Qed.

Section Rw.
Context {S : Type} `{BO : BlockOps S} `{L : Linker} (dev : Z) `{BL : !BlockLaws S dev}.

Lemma overwrite_out F off bs x :
  x < off ∨ off + Z.of_nat (length bs) ≤ x → overwrite F off bs x = F x.
Proof.
  intros Hx. unfold overwrite. destruct (bs !! Z.to_nat (x - off)) eqn:E; [|done].
  apply lookup_lt_Some in E. by rewrite (proj2 (Z.leb_gt _ _)) by lia.
Qed.

Lemma fbyte_put V V' i bn o bs x :
  faddr V i bn ≠ 0 → 0 ≤ bn < MAXFILE → 0 ≤ o → o + Z.of_nat (length bs) ≤ BSIZE → 0 ≤ x < MAXFILE * BSIZE →
  (∀ n, 0 ≤ n < MAXFILE → faddr V i n = faddr V i bn → n = bn) →
  (∀ n, 0 ≤ n < MAXFILE → faddr V' i n = faddr V i n) →
  V' = upd V (faddr V i bn) (write_bytes o bs (V (faddr V i bn))) →
  fbyte V' i x = overwrite (fbyte V i) (bn * BSIZE + o) bs x.
Proof.
  intros Ha Hbn Ho Hlen Hx Hinj Ef E.
  assert (Hn : 0 ≤ x / BSIZE < MAXFILE) by (unfold MAXFILE, NDIRECT, NINDIRECT, BSIZE in *; lia).
  assert (Hm : x = x / BSIZE * BSIZE + x mod BSIZE ∧ 0 ≤ x mod BSIZE < BSIZE) by (unfold BSIZE in *; lia).
  unfold fbyte at 1. rewrite Ef by done. destruct (decide (x / BSIZE = bn)) as [En|En].
  - rewrite En in *. rewrite (proj2 (Z.eqb_neq _ 0) Ha), E, upd_eq, write_bytes_spec. unfold overwrite.
    replace (Z.to_nat (x - (bn * BSIZE + o))) with (Z.to_nat (x mod BSIZE - o)) by lia.
    replace (bn * BSIZE + o <=? x) with (o <=? x mod BSIZE) by (apply eq_true_iff_eq; rewrite !Z.leb_le; lia).
    assert (Ev : u8 (V (faddr V i bn) (x mod BSIZE)) = fbyte V i x)
      by (unfold fbyte; by rewrite En, (proj2 (Z.eqb_neq _ 0) Ha)).
    destruct (bs !! _); [|done]. destruct (o <=? x mod BSIZE); [|done]. unfold u8. by rewrite Z.mod_mod.
  - rewrite overwrite_out by (unfold BSIZE in *; lia). unfold fbyte.
    destruct (Z.eqb_spec (faddr V i (x / BSIZE)) 0); [done|]. rewrite E, upd_ne; [done|]. intros Hc. auto.
Qed.

(** Bytes stored into a block of a file. *)
Lemma put_bytes v b i b' bn o bs :
  bitmap_ok dev v b → file_ok dev v b i → 0 ≤ bn < MAXFILE → faddr (bview b) i bn ≠ 0 →
  0 ≤ o → o + Z.of_nat (length bs) ≤ BSIZE →
  bstep dev [] (upd (bview b) (faddr (bview b) i bn) (write_bytes o bs (bview b (faddr (bview b) i bn)))) b b' →
  fstep dev v b i b' i (overwrite (fbyte (bview b) i) (bn * BSIZE + o) bs) ∧
  (∀ n, 0 ≤ n < MAXFILE → faddr (bview b') i n = faddr (bview b) i n).
Proof.
  intros Hb Hf Hbn Ha Ho Hlen St. set (a := faddr (bview b) i bn) in *.
  assert (Hown : owned (bview b) i a) by (split; [done|]; right; by exists bn).
  destruct (fo_data _ _ _ _ Hf a Hown) as ((Hd1 & Hd3 & Hd2) & Hu & Hib).
  pose proof (bstep_eq dev _ _ _ _ St) as E. destruct St as [_ Hd Hv _].
  assert (Eu : ∀ c, 0 ≤ c < sb_size v → used v (bview b') c = used v (bview b) c).
  { intros c Hc. unfold used. rewrite E, upd_ne; [done|]. intros Ec. by apply (Hd2 c). }
  assert (Ef : ∀ n, 0 ≤ n < MAXFILE → faddr (bview b') i n = faddr (bview b) i n).
  { intros n Hn. unfold faddr. destruct (n <? NDIRECT), (Z.eqb_spec (addr_at i NDIRECT) 0); try done.
    rewrite E, upd_ne; [done|]. intros Ei. by apply (fo_ind _ _ _ _ Hf bn Hbn Ha). }
  assert (Eo : ∀ x, owned (bview b') i x ↔ owned (bview b) i x).
  { intros x. unfold owned. split; intros [Hx [Hx'|(n & Hn & Hx')]]; (split; [done|]);
      [by left | right; exists n; by rewrite <- Ef | by left | right; exists n; by rewrite Ef]. }
  split; [|done]. split.
  - exists (i_addrs i). by destruct i.
  - done.
  - destruct Hb as [B1 B2 B3]. split; [done | by rewrite Hv|]. intros c Hc. rewrite Eu by done.
    unfold data_block. rewrite Hv. by apply B3.
  - destruct Hf as [F1 F2 F3 F4 F5 (F6 & F7 & F8 & F9)]. split; try done.
    + intros x Hx%Eo. destruct (F3 x Hx) as (D1 & D2 & D3). pose proof D1 as (D0 & _). unfold data_block.
      rewrite Hv, Eu by lia. done.
    + intros n n' Hn Hn'. rewrite !Ef by done. by apply F4.
    + intros n Hn. rewrite Ef by done. by apply F5.
    + rewrite Hv, Eu by lia. done.
  - intros x Hx. apply (fbyte_put _ _ i bn o bs x); try done. intros n Hn Hna.
    apply (fo_inj _ _ _ _ Hf n bn Hn Hbn Hna). by rewrite Hna.
  - intros c Hc Hc'. by rewrite Eu.
  - intros x Hx%Eo. by left.
  - intros x Hx Hux Hno _. rewrite E, upd_ne; [done|]. intros ->. done.
  - intros n Hn _. by apply Ef.
Qed.

(** One block of the loop of [writei]. *)
Lemma write_block_wp {A} s ip i off bs tot m k (K0 K : M (fstate S) A) (E : nat → M (fstate S) A) Q :
  itable s !! ip = Some i → binside (blocks s) [] None k → 6 ≤ k →
  bitmap_ok dev (sb s) (blocks s) → file_ok dev (sb s) (blocks s) i → 0 ≤ off < MAXFILE * BSIZE →
  0 ≤ m ≤ BSIZE - off mod BSIZE →
  (∀ b' i' k', binside b' [] None k' → k - 6 ≤ k' → full dev (sb s) b' → fstep dev (sb s) (blocks s) i b' i' (fbyte (bview (blocks s)) i) →
    wp K0 (fput s ip b' i') Q) →
  (∀ b' i' k', binside b' [] None k' → k - 6 ≤ k' →
    fstep dev (sb s) (blocks s) i b' i' (overwrite (fbyte (bview (blocks s)) i) off (take (Z.to_nat m) (drop (Z.to_nat tot) bs))) →
    faddr (bview b') i' (off / BSIZE) ≠ 0 → wp K (fput s ip b' i') Q) →
  wp (addr ← bmap ip (off / BSIZE);
      if addr =? 0 then K0
      else
        i ← getip ip;
        bp ← onb (blk_read (i_dev i) addr);
        r ← either_copyin (FromKernel bs) tot m;
        onb (blk_store bp (write_bytes (off mod BSIZE) r.2));;
        if r.1 =? -1 then E bp else onb (blk_log bp);; onb (blk_rel bp);; K) s Q.
Proof.
  intros Hip I Hk Hb Hf Hoff Hm HK0 HK.
  assert (Hn : 0 ≤ off / BSIZE < MAXFILE) by (unfold MAXFILE, NDIRECT, NINDIRECT, BSIZE in *; lia).
  apply wp_bind. eapply wp_mono; [apply (bmap_wp dev s ip i (off / BSIZE) k); (done || lia)|].
  intros a s1 (b1 & i1 & k1 & -> & G & I1 & Hk1 & [[Ha Ha0]|[-> Hfull]]); [|apply (HK0 b1 i1 k1); (done || lia)].
  rewrite (proj2 (Z.eqb_neq a 0) Ha0). eapply getip_wp; [by eapply fput_lookup|].
  pose proof (gr_file _ _ _ _ _ _ _ G) as Hf1. rewrite (fo_dev _ _ _ _ Hf1).
  assert (Hd : data_block dev (sb s) b1 a).
  { apply (fo_data _ _ _ _ Hf1). split; [done|]. right. by exists (off / BSIZE). }
  apply (read_wp dev [] k1); [done | apply not_elem_of_nil | simpl; lia|]. intros bp b2 I2 A2 S2.
  apply wp_bind, wp_ret. cbn [fst snd]. change (0 =? -1) with false. cbv iota.
  apply (store_wp dev a [a] k1); [done | by left | done | simpl; rewrite (bs_valid _ _ _ _ _ S2); apply Hd | lia|].
  intros b3 I3 S3. apply wp_bind. eapply rel_wp; [exact I3 | apply (bs_at _ _ _ _ _ S3); [by left | done]|].
  intros b4 I4 S4.
  set (cs := take (Z.to_nat m) (drop (Z.to_nat tot) bs)) in *.
  assert (St : bstep dev [] (upd (bview b1) a (write_bytes (off mod BSIZE) cs (bview b1 a))) b1 b4).
  { pose proof (bstep_eq dev _ _ _ _ S2) as E2. pose proof (bstep_eq dev _ _ _ _ S3) as E3.
    destruct S2 as [V2 D2 B2 F2], S3 as [V3 D3 B3 F3], S4 as [V4 D4 B4 F4]. unfold view in *. simpl in *.
    split; [|congruence..|by intros n x ?%elem_of_nil]. intros x. by rewrite V4, E3, E2. }
  rewrite Ha in St, Ha0.
  destruct (put_bytes (sb s) b1 i1 b4 (off / BSIZE) (off mod BSIZE) cs) as [P Pa]; try done.
  { apply G. } { unfold BSIZE. lia. } { unfold cs. rewrite length_take. lia. }
  replace (off / BSIZE * BSIZE + off mod BSIZE) with off in P by (unfold BSIZE; lia).
  apply (HK b4 i1 (k1 - 1)); [done | lia | | by rewrite Pa].
  eapply fstep_ext; [by eapply fstep_trans|]. intros x Hx. unfold overwrite. by rewrite (gr_bytes _ _ _ _ _ _ _ G).
Qed.

(** The loop of [writei] has written [r] bytes of [bs] at [off]: all of them, or
    the disk is full. *)
Definition wrote (s : fstate S) (ip : nat) (i : inode) (off : Z) (bs : list Z) (c r : Z) (s' : fstate S) : Prop :=
  ∃ b' i' k', s' = fput s ip b' i' ∧ binside b' [] None k' ∧ c ≤ k' ∧ 0 ≤ r ≤ Z.of_nat (length bs) ∧
    fstep dev (sb s) (blocks s) i b' i' (overwrite (fbyte (bview (blocks s)) i) off (take (Z.to_nat r) bs)) ∧
    (∀ bn, off / BSIZE ≤ bn → bn * BSIZE < off + r → 0 < r → faddr (bview b') i' bn ≠ 0) ∧
    (r = Z.of_nat (length bs) ∨ full dev (sb s) b').

Lemma wrote_cons s ip i off bs c b1 i1 m r s' :
  0 ≤ off → off + Z.of_nat (length bs) ≤ MAXFILE * BSIZE →
  m = Z.min (Z.of_nat (length bs)) (BSIZE - off mod BSIZE) → 0 < m →
  fstep dev (sb s) (blocks s) i b1 i1 (overwrite (fbyte (bview (blocks s)) i) off (take (Z.to_nat m) bs)) →
  faddr (bview b1) i1 (off / BSIZE) ≠ 0 →
  wrote (fput s ip b1 i1) ip i1 (off + m) (drop (Z.to_nat m) bs) c r s' →
  wrote s ip i off bs c (m + r) s'.
Proof.
  intros Hoff Hmax Hm Hm0 G Ha (b' & i' & k' & -> & I' & Hc & Hr & F & Hmap & Hend).
  rewrite fput_fput. rewrite length_drop in Hr, Hend. exists b', i', k'. split; [done|]. split; [done|]. split; [done|].
  split; [lia|]. split; [|split].
  - eapply fstep_ext; [by eapply fstep_trans|]. simpl. intros x Hx.
    transitivity (overwrite (overwrite (fbyte (bview (blocks s)) i) off (take (Z.to_nat m) bs)) (off + m)
      (take (Z.to_nat r) (drop (Z.to_nat m) bs)) x).
    { unfold overwrite at 1 2. by rewrite (gr_bytes _ _ _ _ _ _ _ G). }
    replace (off + m) with (off + Z.of_nat (length (take (Z.to_nat m) bs))) by (rewrite length_take; lia).
    rewrite overwrite_app. f_equal. rewrite Z2Nat.inj_add by lia. by rewrite take_take_drop.
  - intros bn Hbn Hlt _. destruct (decide (bn = off / BSIZE)) as [->|Hne].
    + rewrite (gr_mapped _ _ _ _ _ _ _ F); [done | | done]. unfold MAXFILE, NDIRECT, NINDIRECT, BSIZE in *. lia.
    + unfold BSIZE in *. destruct (decide (m = 1024 - off mod 1024)); [|lia]. apply Hmap; lia.
  - destruct Hend; [left; lia | by right].
Qed.

Lemma wrote_none s ip i off bs c b' i' k s' :
  s' = fput s ip b' i' → binside b' [] None k → c ≤ k → fstep dev (sb s) (blocks s) i b' i' (fbyte (bview (blocks s)) i) →
  length bs = 0%nat ∨ full dev (sb s) b' → wrote s ip i off bs c 0 s'.
Proof.
  intros -> I Hc G Hend. exists b', i', k. split; [done|]. split; [done|]. split; [done|]. split; [lia|].
  split; [done|]. split; [lia|]. destruct Hend as [->|]; [by left | by right].
Qed.

Lemma writei_loop_wp fuel s ip i bs off tot k c :
  itable s !! ip = Some i → binside (blocks s) [] None k → 0 ≤ c ≤ k →
  bitmap_ok dev (sb s) (blocks s) → file_ok dev (sb s) (blocks s) i →
  0 ≤ off → 0 ≤ tot ≤ Z.of_nat (length bs) → off + (Z.of_nat (length bs) - tot) ≤ MAXFILE * BSIZE →
  (tot < Z.of_nat (length bs) → 6 * touched off (Z.of_nat (length bs) - tot) + c ≤ k) →
  Z.of_nat (length bs) - tot ≤ Z.of_nat fuel →
  wp (writei_loop fuel ip (FromKernel bs) off (Z.of_nat (length bs)) tot) s (λ r s',
    r.2 = off + (r.1 - tot) ∧ wrote s ip i off (drop (Z.to_nat tot) bs) c (r.1 - tot) s').
Proof.
  revert s i off tot k. induction fuel as [|f IH]; intros s i off tot k Hip I Hc Hb Hf Hoff Htot Hmax Hbud Hfuel;
    cbn [writei_loop]; destruct (Z.ltb_spec tot (Z.of_nat (length bs))) as [Hlt|Hge]; [lia | | |].
  1, 3: apply wp_ret; simpl; split; [lia|]; rewrite Z.sub_diag;
     apply (wrote_none _ _ _ _ _ _ (blocks s) i k); [by apply fput_self | done | lia | by apply grows_refl; [apply bstep_refl|..]|];
     left; rewrite length_drop; lia.
  specialize (Hbud Hlt). cbv zeta.
  assert (Ht : 1 ≤ touched off (Z.of_nat (length bs) - tot)) by (unfold touched, BSIZE; lia).
  eapply write_block_wp; [done | done | | done | done | | | |]; [lia | lia | unfold BSIZE; lia | |].
  - intros b' i' k' I' Hk' Hfull G. apply wp_ret. simpl. split; [lia|]. rewrite Z.sub_diag.
    apply (wrote_none _ _ _ _ _ _ b' i' k'); [done | done | lia | done | by right].
  - set (m := Z.min _ _). intros b' i' k' I' Hk' G Ha.
    assert (Hm : 0 < m ≤ Z.of_nat (length bs) - tot) by (unfold m, BSIZE; lia).
    eapply wp_mono; [apply (IH (fput s ip b' i') i' (off + m) (tot + m) k')|].
    + by eapply fput_lookup.
    + done.
    + lia.
    + apply G.
    + apply G.
    + lia.
    + lia.
    + lia.
    + intros Hlt'. assert (touched (off + m) (Z.of_nat (length bs) - (tot + m)) + 1 = touched off (Z.of_nat (length bs) - tot)); [|lia].
      unfold touched, m, BSIZE in *. lia.
    + lia.
    + intros [r o] s' [Ho W]. simpl in *. split; [lia|].
      replace (r - tot) with (m + (r - (tot + m))) by lia.
      apply (wrote_cons s ip i off _ c b' i' m); [done | | | lia | done | done |].
      * rewrite length_drop. lia.
      * rewrite length_drop. unfold m. lia.
      * rewrite drop_drop, <- Z2Nat.inj_add by lia. done.
Qed.

(** ** [readi] *)

(** A block that is there is found without changing anything. *)
Lemma bmap_mapped_wp {A} s ip i bn k (K : Z → M (fstate S) A) Q :
  itable s !! ip = Some i → binside (blocks s) [] None k → file_ok dev (sb s) (blocks s) i →
  0 ≤ bn < MAXFILE → faddr (bview (blocks s)) i bn ≠ 0 →
  (∀ b', binside b' [] None k → bstep dev [] (bview (blocks s)) (blocks s) b' →
    wp (K (faddr (bview (blocks s)) i bn)) (set_blocks b' s) Q) →
  wp (addr ← bmap ip bn; K addr) s Q.
Proof.
  intros Hip I Hf Hbn Ha HK. unfold bmap. apply wp_bind. eapply getip_wp; [done|]. unfold faddr in Ha, HK.
  destruct (Z.ltb_spec bn NDIRECT) as [Hd|Hd].
  - rewrite (proj2 (Z.eqb_neq _ 0) Ha). apply wp_ret. specialize (HK (blocks s) I (bstep_refl dev _ _)). by destruct s.
  - cbv zeta. rewrite (proj2 (Z.ltb_lt (bn - NDIRECT) NINDIRECT)) by (unfold MAXFILE in Hbn; lia).
    destruct (Z.eqb_spec (addr_at i NDIRECT) 0) as [|Hi]; [done|]. apply wp_bind, wp_ret.
    rewrite (proj2 (Z.eqb_neq _ 0) Hi). unfold bmap_entry. rewrite (fo_dev _ _ _ _ Hf).
    apply (read_wp dev [] k); [done | apply not_elem_of_nil | simpl; lia|]. intros bp b1 I1 A1 S1.
    eapply data_wp; [exact I1 | by left | done|].
    assert (E1 : view dev (set_blocks b1 s) = bview (blocks s)) by (by apply (bstep_eq dev [] _ (blocks s))).
    rewrite E1. cbv zeta. rewrite (proj2 (Z.eqb_neq _ 0) Ha).
    apply wp_bind. eapply rel_wp; [exact I1 | done|]. intros b2 I2 S2. apply wp_ret. apply (HK b2 I2).
    eapply bstep_trans; [exact S1|]. eapply bstep_ext; [exact S2|]. intros x. by rewrite E1.
Qed.

(** The state after reading: only buffers have moved. *)
Definition reads (s : fstate S) (k : Z) (s' : fstate S) : Prop :=
  ∃ b', s' = set_blocks b' s ∧ binside b' [] None k ∧ bstep dev [] (bview (blocks s)) (blocks s) b'.

Lemma reads_trans s k s1 s2 : reads s k s1 → reads s1 k s2 → reads s k s2.
Proof.
  intros (b1 & -> & I1 & S1) (b2 & -> & I2 & S2). exists b2. split; [done|]. split; [done|].
  eapply bstep_trans; [exact S1|]. eapply bstep_ext; [exact S2|]. intros x. simpl. apply (bs_view _ _ _ _ _ S1).
Qed.

Lemma reads_file s k s' i : reads s k s' → file_ok dev (sb s) (blocks s) i → file_ok dev (sb s') (blocks s') i.
Proof.
  intros (b & -> & I & St) [H1 H2 H3 H4 H5 H6]. pose proof (bstep_eq dev _ _ _ _ St) as E.
  pose proof (bs_valid _ _ _ _ _ St) as B. simpl. split; simpl; rewrite ?E, ?B; try done.
  intros x Hx. unfold data_block. rewrite B. by apply H3.
Qed.

(** One block of the loop of [readi]. *)
Lemma read_block_wp {A} s ip i off tot k (bytes : bdata → list Z) (K0 E : M (fstate S) A) (K : list Z → M (fstate S) A) Q :
  itable s !! ip = Some i → binside (blocks s) [] None k → file_ok dev (sb s) (blocks s) i →
  0 ≤ off / BSIZE < MAXFILE → faddr (bview (blocks s)) i (off / BSIZE) ≠ 0 →
  (∀ s', reads s k s' → wp (K (bytes (bview (blocks s) (faddr (bview (blocks s)) i (off / BSIZE))))) s' Q) →
  wp (addr ← bmap ip (off / BSIZE);
      if addr =? 0 then K0
      else
        i ← getip ip;
        bp ← onb (blk_read (i_dev i) addr);
        d ← buf_data bp;
        r ← either_copyout Kernel tot (bytes d);
        onb (blk_rel bp);;
        if r =? -1 then E else K (bytes d)) s Q.
Proof.
  intros Hip I Hf Hn Ha HK. set (a := faddr _ _ _) in *.
  apply (bmap_mapped_wp s ip i _ k); [done..|]. fold a. intros b1 I1 S1. rewrite (proj2 (Z.eqb_neq _ 0) Ha).
  eapply getip_wp; [exact Hip|]. rewrite (fo_dev _ _ _ _ Hf).
  apply (read_wp dev [] k); [done | apply not_elem_of_nil | simpl; lia|]. intros bp b2 I2 A2 S2.
  eapply data_wp; [exact I2 | by left | done|].
  pose proof (bstep_eq dev _ _ _ _ S1) as E1. pose proof (bstep_eq dev _ _ _ _ S2) as E2.
  unfold view in *. simpl in E2 |- *. rewrite E2, E1.
  apply wp_bind, wp_ret. apply wp_bind. eapply rel_wp; [exact I2 | done|]. intros b3 I3 S3.
  change (0 =? -1) with false. cbv iota. apply HK. exists b3. split; [done|]. split; [done|].
  destruct S1 as [V1 D1 B1 F1], S2 as [V2 D2 B2 F2], S3 as [V3 D3 B3 F3]. unfold view in *. simpl in *.
  split; [|congruence..|by intros m x ?%elem_of_nil]. intros x. by rewrite V3, E2, E1.
Qed.

Lemma readi_loop_wp fuel s ip i off n tot acc k :
  itable s !! ip = Some i → binside (blocks s) [] None k → file_ok dev (sb s) (blocks s) i →
  0 ≤ off → 0 ≤ tot ≤ n → off + (n - tot) ≤ MAXFILE * BSIZE →
  (∀ bn, off / BSIZE ≤ bn → bn * BSIZE < off + (n - tot) → faddr (bview (blocks s)) i bn ≠ 0) →
  n - tot ≤ Z.of_nat fuel →
  wp (readi_loop fuel ip Kernel off n tot acc) s (λ r s',
    r = (n, acc ++ fbytes (bview (blocks s)) i off (Z.to_nat (n - tot))) ∧ reads s k s').
Proof.
  revert s off tot acc. induction fuel as [|f IH]; intros s off tot acc Hip I Hf Hoff Htot Hmax Hmap Hfuel;
    cbn [readi_loop]; destruct (Z.ltb_spec tot n) as [Hlt|Hge]; [lia | | |].
  1, 3: apply wp_ret; replace (Z.to_nat (n - tot)) with 0%nat by lia; split; [rewrite app_nil_r; f_equal; lia|];
     exists (blocks s); split; [by destruct s|]; split; [done | apply bstep_refl].
  assert (Hn : 0 ≤ off / BSIZE < MAXFILE) by (unfold MAXFILE, NDIRECT, NINDIRECT, BSIZE in *; lia).
  assert (Ha : faddr (bview (blocks s)) i (off / BSIZE) ≠ 0) by (apply Hmap; unfold BSIZE in *; lia).
  cbv zeta. set (m := Z.min _ _). assert (Hm : 0 < m ≤ n - tot) by (unfold m, BSIZE; lia).
  apply (read_block_wp s ip i off tot k (read_bytes (off mod BSIZE) (Z.to_nat m)) _ _
    (λ bs, readi_loop f ip Kernel (off + m) n (tot + m) (acc ++ bs))); [done..|]. intros s' R.
  rewrite (read_bytes_fbytes _ i off (off / BSIZE)) by (done || unfold m, BSIZE; lia).
  pose proof R as (b' & -> & I' & St). pose proof (bstep_eq dev _ _ _ _ St) as E.
  eapply wp_mono; [apply (IH (set_blocks b' s) (off + m) (tot + m))|].
  - done.
  - done.
  - by eapply reads_file.
  - lia.
  - lia.
  - lia.
  - intros bn Hb1 Hb2. simpl. rewrite E. apply Hmap; unfold m, BSIZE in *; lia.
  - lia.
  - intros r s'' [-> R']. split; [|by eapply reads_trans]. f_equal. rewrite <- app_assoc. f_equal. simpl. rewrite E.
    replace (Z.to_nat (n - tot)) with (Z.to_nat m + Z.to_nat (n - (tot + m)))%nat by lia.
    rewrite fbytes_app. by rewrite Z2Nat.id by lia.
Qed.

(** A file without holes: every byte below its size is in a block. *)
Definition mapped (V : Z → bdata) (i : inode) : Prop :=
  ∀ bn, 0 ≤ bn → bn * BSIZE < i_size i → faddr V i bn ≠ 0.

(** What [readi] returns: the bytes from [off] that are in the file. *)
Definition clip (i : inode) (off n : Z) : Z := Z.max 0 (Z.min n (i_size i - off)).

Lemma readi_wp s ip i off n k :
  itable s !! ip = Some i → binside (blocks s) [] None k → file_ok dev (sb s) (blocks s) i →
  mapped (bview (blocks s)) i → 0 ≤ i_size i ≤ MAXFILE * BSIZE → 0 ≤ off → 0 ≤ n → off + n < 2 ^ 32 →
  wp (readi ip Kernel off n) s (λ r s',
    r = (clip i off n, fbytes (bview (blocks s)) i off (Z.to_nat (clip i off n))) ∧ reads s k s').
Proof.
  intros Hip I Hf Hm Hsz Hoff Hn Hlt. unfold readi. eapply getip_wp; [done|]. unfold u32. rewrite (Z.mod_small (off + n)) by lia.
  rewrite (proj2 (Z.ltb_ge (off + n) off)), orb_false_r by lia. unfold clip. destruct (Z.ltb_spec (i_size i) off).
  - apply wp_ret. rewrite Z.max_l by lia. split; [done|]. exists (blocks s). split; [by destruct s|]. split; [done | apply bstep_refl].
  - cbv zeta. set (n' := if i_size i <? off + n then _ else _).
    assert (En : n' = Z.max 0 (Z.min n (i_size i - off))) by (unfold n'; destruct (Z.ltb_spec (i_size i) (off + n)); lia).
    rewrite <- En. eapply wp_mono; [apply (readi_loop_wp _ s ip i off n' 0 [] k); try done; try lia|].
    + intros bn H1 H2. apply Hm; unfold BSIZE in *; lia.
    + intros r s' [-> R]. by rewrite Z.sub_0_r.
Qed.

(** ** [writei] *)

Lemma file_ok_size v b z i : file_ok dev v b i → file_ok dev v b (iset_size z i).
Proof. intros [H1 H2 H3 H4 H5 H6]. split; assumption. Qed.

(** The file after [r] bytes of [bs] have been written at [off]. *)
Record written (v : superblock) (b : S) (i : inode) (off : Z) (bs : list Z) (r : Z) (b' : S) (i' : inode) : Prop := Written {
  wr_count : 0 ≤ r ≤ Z.of_nat (length bs);
  wr_all : r = Z.of_nat (length bs) ∨ full dev v b';
  wr_size : i_size i' = Z.max (i_size i) (off + r);
  wr_bytes : ∀ o, 0 ≤ o < MAXFILE * BSIZE →
    fbyte (bview b') i' o = overwrite (fbyte (bview b) i) off (take (Z.to_nat r) bs) o;
  wr_file : file_ok dev v b' i';
  wr_bitmap : bitmap_ok dev v b';
  wr_mapped : mapped (bview b') i';
  wr_typed : inode_typed i';
  wr_stored : stored v (bview b') i';
  wr_disk : bdisk b' = bdisk b ∧ bvalid b' = bvalid b;
  wr_meta : ∃ z l, i' = Inode (i_dev i) (i_inum i) (i_ref i) (i_lock i) (i_valid i) (i_type i) (i_major i)
    (i_minor i) (i_nlink i) z l;
}.

Lemma wrote_mapped V i V1 i1 V' i' off r :
  0 ≤ off ≤ i_size i → i_size i ≤ MAXFILE * BSIZE → 0 ≤ r → off + r ≤ MAXFILE * BSIZE →
  mapped V i → (∀ bn, 0 ≤ bn < MAXFILE → faddr V i bn ≠ 0 → faddr V1 i1 bn = faddr V i bn) →
  (∀ bn, off / BSIZE ≤ bn → bn * BSIZE < off + r → 0 < r → faddr V1 i1 bn ≠ 0) →
  (∀ bn, 0 ≤ bn < MAXFILE → faddr V' i' bn = faddr V1 i1 bn) → i_size i' = Z.max (i_size i) (off + r) →
  mapped V' i'.
Proof.
  intros Hoff Hsz Hr Hmax Hm Hkeep Hnew Ef Es bn Hb0 Hbn. rewrite Es in Hbn.
  assert (Hn : 0 ≤ bn < MAXFILE) by (unfold MAXFILE, NDIRECT, NINDIRECT, BSIZE in *; lia).
  rewrite Ef by done. destruct (decide (bn * BSIZE < i_size i)) as [Hlt|Hge].
  - rewrite Hkeep; [by apply Hm | done | by apply Hm].
  - apply Hnew; unfold BSIZE in *; lia.
Qed.

(** The end of [writei]: the new size, stored with the inode. *)
Lemma writei_end_wp s ip i off bs c r s1 :
  0 ≤ off ≤ i_size i → off + Z.of_nat (length bs) ≤ MAXFILE * BSIZE → i_size i ≤ MAXFILE * BSIZE → 0 ≤ c →
  itable s !! ip = Some i → inode_typed i → mapped (bview (blocks s)) i → wrote s ip i off bs (c + 1) r s1 →
  wp (i ← getip ip; when (i_size i <? off + r) (setip ip (iset_size (off + r)));; iupdate ip;; mret r) s1 (λ n s',
    n = r ∧ ∃ b' i' k, s' = fput s ip b' i' ∧ binside b' [] None k ∧ c ≤ k ∧ written (sb s) (blocks s) i off bs r b' i').
Proof.
  intros Hoff Hmax Hsz Hc Hip T Hm (b1 & i1 & k & -> & I1 & Hk & Hr & F & Hmap & Hend).
  eapply getip_wp; [by eapply fput_lookup|].
  pose proof (gr_meta _ _ _ _ _ _ _ F) as (l & Ei). pose proof (gr_file _ _ _ _ _ _ _ F) as Hf1.
  assert (Es : i_size i1 = i_size i) by (by rewrite Ei). rewrite Es. set (z := Z.max (i_size i) (off + r)).
  set (i2 := iset_size z i1). assert (Hf2 : file_ok dev (sb s) b1 i2) by (by apply file_ok_size).
  assert (T2 : inode_typed i2).
  { destruct T as [T1 T2 T3 T4 T5 T6 T7]. pose proof (file_addrs_typed dev _ _ _ (gr_bitmap _ _ _ _ _ _ _ F) Hf1) as T8.
    pose proof (fo_len _ _ _ _ Hf1). unfold i2. rewrite Ei in *. split; simpl; try done.
    unfold z, MAXFILE, NDIRECT, NINDIRECT, BSIZE in *. lia. }
  apply wp_bind, wp_mono with (λ _ s', s' = fput s ip b1 i2).
  { destruct (Z.ltb_spec (i_size i) (off + r)) as [Hlt|Hge]; cbn [when].
    - replace (off + r) with z by (unfold z; lia).
      pose proof (setip_wp (fput s ip b1 i1) ip b1 i1 (iset_size z) (λ _ s', s' = fput s ip b1 i2)) as H.
      apply H; [by eapply fput_lookup | by rewrite fput_fput].
    - apply wp_ret. f_equal. unfold i2, z. rewrite Z.max_l, <- Es by lia. by destruct i1. }
  intros _ s2 ->. apply wp_bind. eapply (iupdate_wp dev _ ip i2 k); [by eapply fput_lookup | done | lia | apply Hf2 | apply (fo_iblock _ _ _ _ Hf2)|].
  intros b' I' St. apply wp_ret. split; [done|]. exists b', i2, (k - 1). split; [done|]. split; [done|]. split; [lia|].
  destruct (iupdate_file dev (sb s) b1 i2 b' _ (gr_bitmap _ _ _ _ _ _ _ F) Hf2 St) as (B' & F' & Ef & Eb & Eu).
  split; try done.
  - destruct Hend as [|Hfull]; [by left|]. right. intros x Hx. by rewrite Eu, (Hfull x) by lia.
  - intros o Ho. rewrite Eb by done. apply (gr_bytes _ _ _ _ _ _ _ F o Ho).
  - apply (wrote_mapped (bview (blocks s)) i (bview b1) i1 (bview b') i2 off r); try done; try lia. apply (gr_mapped _ _ _ _ _ _ _ F).
  - unfold stored. rewrite (bs_view _ _ _ _ _ St). simpl. rewrite upd_eq. by apply dinode_roundtrip.
  - pose proof (gr_disk _ _ _ _ _ _ _ F) as [D1 D2]. split; [by rewrite (bs_disk _ _ _ _ _ St) | by rewrite (bs_valid _ _ _ _ _ St)].
  - exists z, l. unfold i2. by rewrite Ei.
Qed.

(** A file that may be written: its blocks are its own, it has no holes, and its
    fields fit their widths. *)
Record file_inv (v : superblock) (b : S) (i : inode) : Prop := FileInv {
  fi_bitmap : bitmap_ok dev v b;
  fi_file : file_ok dev v b i;
  fi_mapped : mapped (bview b) i;
  fi_typed : inode_typed i;
  fi_size : i_size i ≤ MAXFILE * BSIZE;
}.

Lemma reads_inv s k s' i :
  reads s k s' → file_inv (sb s) (blocks s) i → file_inv (sb s) (blocks s') i.
Proof.
  intros R [H1 H2 H3 H4 H5]. pose proof R as (b & -> & _ & St). pose proof (bstep_eq dev _ _ _ _ St) as E. simpl.
  split; [by eapply bitmap_ok_step | by apply (reads_file s k (set_blocks b s)) | by rewrite E | done | done].
Qed.

Lemma written_inv v b i off bs r b' i' :
  file_inv v b i → off + Z.of_nat (length bs) ≤ MAXFILE * BSIZE → written v b i off bs r b' i' → file_inv v b' i'.
Proof.
  intros [_ _ _ _ Hs] Hm W. pose proof (wr_count _ _ _ _ _ _ _ _ W). split; [apply W..|].
  rewrite (wr_size _ _ _ _ _ _ _ _ W). lia.
Qed.

Lemma writei_wp s ip i off bs k c :
  itable s !! ip = Some i → binside (blocks s) [] None k → file_inv (sb s) (blocks s) i →
  0 ≤ off ≤ i_size i → off + Z.of_nat (length bs) ≤ MAXFILE * BSIZE →
  0 ≤ c → 6 * touched off (Z.of_nat (length bs)) + c + 1 ≤ k →
  wp (writei ip (FromKernel bs) off (Z.of_nat (length bs))) s (λ r s', ∃ b' i' k',
    s' = fput s ip b' i' ∧ binside b' [] None k' ∧ c ≤ k' ∧ written (sb s) (blocks s) i off bs r b' i').
Proof.
  intros Hip I [Hb Hf Hm T Hs] Hoff Hmax Hc Hk. unfold writei. eapply getip_wp; [done|].
  assert (Ht : 0 ≤ touched off (Z.of_nat (length bs))) by (unfold touched, BSIZE; lia).
  assert (Hw : u32 (off + Z.of_nat (length bs)) = off + Z.of_nat (length bs)).
  { unfold u32. apply Z.mod_small. unfold MAXFILE, NDIRECT, NINDIRECT, BSIZE in *. lia. }
  rewrite Hw, (proj2 (Z.ltb_ge (i_size i) off)), (proj2 (Z.ltb_ge (off + _) off)), (proj2 (Z.ltb_ge (_ * _) _)) by lia.
  cbn [orb]. apply wp_bind. eapply wp_mono; [apply (writei_loop_wp _ s ip i bs off 0 k (c + 1)); try done; rewrite ?Z.sub_0_r; lia|].
  intros [r o] s1 [Ho W]. simpl in Ho, W. rewrite Z.sub_0_r in Ho, W. subst o. cbn [fst snd].
  eapply wp_mono; [by apply (writei_end_wp s ip i off bs c r s1)|].
  intros n s' [-> H]. exact H.
Qed.

Lemma fbytes_written v b i off bs r b' i' :
  0 ≤ off → off + Z.of_nat (length bs) ≤ MAXFILE * BSIZE → written v b i off bs r b' i' →
  fbytes (bview b') i' off (Z.to_nat r) = u8 <$> take (Z.to_nat r) bs.
Proof.
  intros Hoff Hmax W. pose proof (wr_count _ _ _ _ _ _ _ _ W) as Hr. unfold fbytes. apply list_eq. intros j.
  rewrite !list_lookup_fmap. destruct (decide (j < Z.to_nat r)%nat) as [Hj|Hj].
  - rewrite lookup_seq_lt by done. simpl. rewrite (wr_bytes _ _ _ _ _ _ _ _ W) by lia. unfold overwrite.
    replace (Z.to_nat (off + Z.of_nat j - off)) with j by lia.
    destruct (lookup_lt_is_Some_2 (take (Z.to_nat r) bs) j) as [x Hx]; [rewrite length_take; lia|].
    rewrite Hx, (proj2 (Z.leb_le off _)) by lia. done.
  - rewrite lookup_seq_ge by lia. rewrite lookup_take_ge by lia. done.
Qed.
End Rw.
