(* ===== verification/Txn.v ===== *)
(** * Transactions of any client (kernel/log.c)

    Whatever a client does to its blocks through the interface of [Block] between
    [begin_op] and [end_op] is atomic with respect to crashes. *)

From stdpp Require Import base numbers list strings.
From S2P Require Import Prelude Layout Bio BioProofs BioSpec BioView Log LogProofs LogSpec LogOps Block.
Local Open Scope Z_scope.

(** Blocks that belong to the file system, not to the log. *)
Definition outside (g : log) (x : Z) : Prop := ¬ in_log (lg_start g) (LOGSIZE - 1) x.

(** From disk [d], the writes [T] take the machine to a disk with contents [V]; cut
    after any number of them, recovery gives back [d] or [V]. *)
Definition atomic_writes (dev : Z) (g : log) (d V : Z → bdata) (T : list (Z * bdata)) : Prop :=
  (∀ x, outside g x → apply_writes d T x = V x) ∧
  ∀ k, wp (reboot dev (lg_start g) (lg_size g)) (power_on (apply_writes d (take k T))) (λ _ s2,
    (∀ x, outside g x → disk (cache s2) x = d x) ∨ (∀ x, outside g x → disk (cache s2) x = V x)).

(** An idle log after [begin_op]. *)
Definition opened (c : bstate) (g : log) : lstate := LState c (set_outstanding 1 g).

Lemma open_in dev c l g :
  idle dev c l g → LOGSIZE ≤ lg_size g → log_inside dev (opened c g) [] None 26.
Proof.
  intros I Hs. pose proof I as [[Hd Ed] _ _ _ _]. destruct (open_inside dev c l g I) as [Q Hl Hn].
  exists l, []. split; try done. by intros w ?%elem_of_nil.
Qed.

Lemma begin_op_wp dev c l g Q :
  idle dev c l g → Q tt (opened c g) → wp begin_op (LState c g) Q.
Proof.
  intros [_ _ (En & Eo & Ec) _ _] HQ. unfold begin_op. apply wp_bind, wp_gets. simpl lg. rewrite Ec, Eo, En.
  change (nonzero 0) with false. change (LOGSIZE <? 0 + (0 + 1) * MAXOPBLOCKS) with false. cbv iota. by apply wp_modify.
Qed.

Section End.
Context (dev : Z) (c : bstate) (l : list nat) (g : log) (Hidle : idle dev c l g) (Hsize : LOGSIZE ≤ lg_size g).
Context (c1 : bstate) (g1 : log) (l1 : list nat) (ws : list Z) (k1 : Z).
Context (I1 : log_in dev (LState c1 g1) l1 ws [] None k1) (K1 : log_disk (LState c1 g1) = log_disk (opened c g)).

Lemma kept_log :
  disk c1 = disk c ∧ wtrace c1 = wtrace c ∧ lg_start g1 = lg_start g ∧ lg_size g1 = lg_size g ∧
  lg_outstanding g1 = 1 ∧ lg_committing g1 = 0.
Proof.
  pose proof Hidle as [_ _ (_ & _ & Ec) _ _]. unfold log_disk, opened in K1. simpl in K1. by injection K1 as -> -> -> -> -> -> _.
Qed.

Lemma end_ready g2 : g2 = set_committing 1 (set_outstanding 0 g1) → ready dev c1 l1 g2 ws.
Proof.
  intros ->. destruct kept_log as (D & T & Es & Ez & Eo & Ec). destruct I1 as [Q Hlg Hnd Hv Ho [Hk Hb] Hc]. simpl in *.
  pose proof Hidle as [[Hdev Ed] _ _ _ He]. destruct Ho as (Hd & _).
  split; [split; done | done | done | done | unfold nbuf, NBUF, MAXOPBLOCKS; lia | |].
  - intros w Hw. destruct (Hv w Hw) as [Hr Hn]. split; [done|]. simpl in *. rewrite (proj1 Hlg).
    unfold in_log, LOGSIZE, MAXOPBLOCKS in *. lia.
  - simpl. by rewrite Es, D.
Qed.

(** Nothing was logged, so the disk has the contents already. *)
Lemma end_empty Q :
  ws = [] →
  (∀ c' g' l', idle dev c' l' g' → atomic_writes dev g (disk c) (content c1 dev) [] → disk c' = disk c →
    wtrace c' = wtrace c → Q tt (LState c' g')) →
  wp end_op (LState c1 g1) Q.
Proof.
  intros Hw HQ. destruct kept_log as (D & T & Es & Ez & Eo & Ec). pose proof (end_ready _ eq_refl) as R.
  destruct R as [Hd Qu Hlg _ _ _ He]. pose proof Hidle as [_ _ _ Hs He0].
  unfold end_op. apply wp_bind, wp_modify, wp_bind, wp_gets. simpl. rewrite Eo, Ec.
  change (nonzero 0) with false. change (1 - 1 =? 0) with true. cbv iota.
  apply wp_bind, wp_modify, wp_bind. unfold commit. apply wp_bind, wp_gets. simpl lg.
  destruct Hlg as [En _]. simpl in En. rewrite Hw in En. simpl in *. rewrite En. cbn [when Z.ltb Z.compare length Z.of_nat].
  apply wp_ret, wp_modify. rewrite Hw, pin1_nil in Qu. simpl in *.
  apply (HQ c1 _ l1); simpl; [| | done | done].
  - split; simpl; try done; [lia | by rewrite Ez].
  - assert (Hcon : ∀ x, content c1 dev x = disk c x).
    { intros x. rewrite <- D. apply (quiet_clean dev (proj1 Hd) c1 l1 nopins []); [done | done | apply not_elem_of_nil]. }
    split; [intros x _; by rewrite Hcon|]. intros k. rewrite take_nil. simpl.
    eapply wp_mono; [apply reboot_wp; [apply Hd | lia|]|].
    + intros w Hw'. unfold blocks_of in Hw'. rewrite He0 in Hw'. by apply elem_of_nil in Hw'.
    + intros _ s2 (h & _ & E). left. intros x Hx. rewrite E, upd_ne; [by rewrite recovered_empty|].
      intros ->. apply Hx. unfold in_log, LOGSIZE, MAXOPBLOCKS. lia.
Qed.

(** The log is committed. *)
Lemma end_commit Q :
  ws ≠ [] →
  (∀ c' g' l' T, idle dev c' l' g' → atomic_writes dev g (disk c) (content c1 dev) T →
    disk c' = apply_writes (disk c) T → wtrace c' = wtrace c ++ T → Q tt (LState c' g')) →
  wp end_op (LState c1 g1) Q.
Proof.
  intros Hne HQ. destruct kept_log as (D & T & Es & Ez & Eo & Ec). pose proof (end_ready _ eq_refl) as R.
  pose proof Hidle as [_ _ _ Hs _]. pose proof (lo_budget _ _ _ _ _ _ _ I1) as Hb.
  unfold end_op. apply wp_bind, wp_modify, wp_bind, wp_gets. simpl. rewrite Eo, Ec.
  change (nonzero 0) with false. change (1 - 1 =? 0) with true. cbv iota.
  apply wp_bind, wp_modify, wp_bind. unfold set_log at 2 3. simpl cache. simpl lg. rewrite Eo. change (1 - 1) with 0.
  set (g2 := set_committing 1 (set_outstanding 0 g1)) in *.
  assert (Hin : ∀ x, outside g x → ¬ in_log (lg_start g2) (lh_n g2) x).
  { intros x. unfold outside, in_log. rewrite (proj1 (rd_logged _ _ _ _ _ R)). simpl. rewrite Es. unfold LOGSIZE, MAXOPBLOCKS. lia. }
  eapply wp_mono; [by apply (commit_wp dev c1 l1 g2 ws R)|].
  intros _ s' (c' & l' & -> & Q' & D' & T'). apply wp_modify. simpl.
  destruct (commit_done dev c1 l1 g2 ws R) as [Hh Hx]. rewrite D in D', Hh, Hx. rewrite T in T'.
  apply (HQ c' _ l' (commit_trace dev c1 g2 ws)); [| | done | done].
  - split; simpl; [apply R | done | done | by rewrite Ez | by rewrite D'].
  - split; [intros x Hl; by apply Hx, Hin|]. intros k. rewrite <- D, <- Es, <- Ez.
    eapply wp_mono; [apply (crash_recovery dev c1 l1 g2 ws R k)|].
    intros u s2 H2. simpl in H2. destruct (k <=? length ws)%nat; [left | right]; intros x Hl; rewrite H2 by (by apply Hin); done.
Qed.
End End.

Lemma end_op_wp dev c l g s1 k1 Q :
  idle dev c l g → LOGSIZE ≤ lg_size g → log_inside dev s1 [] None k1 → log_disk s1 = log_disk (opened c g) →
  (∀ c' g' l' T, idle dev c' l' g' → atomic_writes dev g (disk c) (content (cache s1) dev) T →
    disk c' = apply_writes (disk c) T → wtrace c' = wtrace c ++ T → Q tt (LState c' g')) →
  wp end_op s1 Q.
Proof.
  intros I Hs (l1 & ws & I1) K HQ. destruct s1 as [c1 g1]. destruct (decide (ws = [])) as [E|E].
  - eapply end_empty; [done..|]. intros c' g' l' H1 H2 H3 H4. apply (HQ c' g' l' []); [done..|by rewrite app_nil_r].
  - by eapply end_commit.
Qed.
