(* ===== verification/DirSpec.v ===== *)
(** * Directories as finite maps (kernel/fs.c)

    The entries of a directory, what [dirlookup] finds among them, and the effect
    of [dirlink] on what is found. *)

From stdpp Require Import base numbers list strings.
From S2P Require Import Prelude Str Layout Kalloc Vm Bio BioSpec Log Block Fs Dir FsAlloc FsFile FsInode FsRw FsSpec.
Local Open Scope Z_scope.

(** ** Names *)

(** The bytes that count: up to a NUL, at most [DIRSIZ]. *)
Definition cname (name : list Z) : list Z := cstr (Z.to_nat DIRSIZ) 0 (byte_at name).

Lemma cstr_shift n p q m m' : (∀ k, 0 ≤ k < Z.of_nat n → u8 (m (p + k)) = u8 (m' (q + k))) → cstr n p m = cstr n q m'.
Proof.
  revert p q. induction n as [|n IH]; intros p q H; cbn [cstr]; [done|].
  pose proof (H 0 ltac:(lia)) as H0. rewrite !Z.add_0_r in H0. rewrite H0.
  destruct (nonzero _); [|done]. f_equal. apply IH. intros k Hk.
  replace (p + 1 + k) with (p + (k + 1)) by lia. replace (q + 1 + k) with (q + (k + 1)) by lia. apply H. lia.
Qed.

Lemma namecmp_spec s t : namecmp s t = 0 ↔ cname s = cname t.
Proof.
  unfold namecmp, strncmp, cname. rewrite u32_small by (unfold DIRSIZ; lia). rewrite strncmp_loop_cstr.
  rewrite (cstr_shift _ 0 0 (two_arrays s t) (byte_at s)), (cstr_shift _ 4096 0 (two_arrays s t) (byte_at t)); [done|..];
    intros k Hk; unfold two_arrays, DIRSIZ in *; f_equal.
  - rewrite (proj2 (Z.ltb_ge _ _)) by lia. f_equal. lia.
  - by rewrite (proj2 (Z.ltb_lt _ _)) by lia.
Qed.

Lemma byte_at_read m n k : 0 ≤ k < Z.of_nat n → byte_at (read_bytes 0 n m) k = u8 (m k).
Proof.
  intros Hk. unfold byte_at. rewrite (proj2 (Z.ltb_ge _ _)), read_bytes_lookup by lia. simpl. do 2 f_equal. lia.
Qed.

Lemma name_copy_cname name : cname (name_copy name) = cname name.
Proof.
  unfold cname, name_copy. set (m := two_arrays [] name). set (n := Z.to_nat DIRSIZ).
  transitivity (cstr n 0 (strncpy 0 4096 DIRSIZ m)).
  - apply cstr_shift. intros k Hk. rewrite !Z.add_0_l, byte_at_read by done. apply u8_idem.
  - unfold strncpy. fold n. rewrite strncpy_loop_cstr by (unfold n, DIRSIZ; lia).
    apply cstr_shift. intros k Hk. unfold m, two_arrays. rewrite (proj2 (Z.ltb_ge _ _)) by lia. do 2 f_equal. lia.
Qed.

(** ** Entries *)

(** The bytes of the entry [dirlink] writes. *)
Definition new_entry (inum : Z) (name : list Z) : list Z := u8 <$> dirent_bytes inum (name_copy name).

Lemma length_name_copy name : length (name_copy name) = 14%nat.
Proof. apply length_read. Qed.

Lemma new_entry_name inum name : cname (de_name (new_entry inum name)) = cname name.
Proof.
  rewrite <- (name_copy_cname name). unfold new_entry, de_name, dirent_bytes. rewrite !fmap_cons. cbn [drop]. rewrite drop_0.
  rewrite take_ge by (rewrite length_fmap, length_name_copy; done).
  apply cstr_shift. intros k Hk. rewrite !Z.add_0_l. unfold byte_at. rewrite (proj2 (Z.ltb_ge _ _)) by lia.
  rewrite list_lookup_fmap. destruct (name_copy name !! Z.to_nat k); simpl; [apply u8_idem | done].
Qed.

Lemma new_entry_inum inum name : 0 ≤ inum < 2 ^ 16 → de_inum (new_entry inum name) = inum.
Proof.
  intros H. unfold de_inum, new_entry, load16, dirent_bytes. rewrite !fmap_cons. cbn [load_le].
  unfold byte_at. simpl. unfold u8. lia.
Qed.

(** The entry that [dirlookup] looks for: the inode number and the offset. *)
Definition matches (name e : list Z) : bool := negb (de_inum e =? 0) && (namecmp name (de_name e) =? 0).
Fixpoint search (name : list Z) (es : list (list Z)) (off : Z) : option (Z * Z) :=
  match es with
  | [] => None
  | e :: es' => if matches name e then Some (de_inum e, off) else search name es' (off + sizeof_dirent)
  end.

(** Equal names find the same. *)
Lemma matches_cname n1 n2 e : cname n1 = cname n2 → matches n1 e = matches n2 e.
Proof.
  intros E. unfold matches. f_equal. apply eq_true_iff_eq. rewrite !Z.eqb_eq, !namecmp_spec. by rewrite E.
Qed.

Lemma search_insert name name' inum es k off e : 0 < inum < 2 ^ 16 → es !! k = Some e → de_inum e = 0 →
  search name es off = None →
  search name' (<[k := new_entry inum name]> es) off =
    if decide (cname name' = cname name) then Some (inum, off + sizeof_dirent * Z.of_nat k) else search name' es off.
Proof.
  intros Hi. revert k off. induction es as [|x es IH]; intros k off Hk He Hs; [done|]. cbn [search] in Hs.
  destruct (matches name x) eqn:Hx; [done|]. destruct k as [|k]; cbn [search].
  - simpl in Hk. injection Hk as ->. change (<[0%nat := new_entry inum name]> (e :: es)) with (new_entry inum name :: es).
    cbn [search]. assert (M : matches name' (new_entry inum name) = bool_decide (cname name' = cname name)).
    { unfold matches. rewrite new_entry_inum by lia. rewrite (proj2 (Z.eqb_neq inum 0)) by lia. cbn [negb andb].
      apply eq_true_iff_eq. by rewrite Z.eqb_eq, namecmp_spec, new_entry_name, bool_decide_eq_true. }
    rewrite M. case_decide as D.
    + rewrite bool_decide_true by done. rewrite new_entry_inum by lia. do 2 f_equal. lia.
    + rewrite bool_decide_false by done. unfold matches. rewrite He. done.
  - change (<[S k := new_entry inum name]> (x :: es)) with (x :: <[k := new_entry inum name]> es). cbn [search].
    rewrite (IH k (off + sizeof_dirent) Hk He Hs). case_decide as D.
    + rewrite (matches_cname name' name x D), Hx. do 2 f_equal. lia.
    + done.
Qed.

Lemma search_snoc name name' inum es off : 0 < inum < 2 ^ 16 → search name es off = None →
  search name' (es ++ [new_entry inum name]) off =
    if decide (cname name' = cname name) then Some (inum, off + sizeof_dirent * Z.of_nat (length es)) else search name' es off.
Proof.
  intros Hi. revert off. induction es as [|x es IH]; intros off Hs; cbn [search app length] in *.
  - unfold matches. rewrite new_entry_inum by lia. rewrite (proj2 (Z.eqb_neq inum 0)) by lia. cbn [negb andb].
    case_decide as D.
    + rewrite (proj2 (Z.eqb_eq _ _)) by (by rewrite namecmp_spec, new_entry_name). do 2 f_equal. lia.
    + rewrite (proj2 (Z.eqb_neq _ _)) by (by rewrite namecmp_spec, new_entry_name). done.
  - destruct (matches name x) eqn:Hx; [done|]. rewrite (IH _ Hs). case_decide as D.
    + rewrite (matches_cname name' name x D), Hx. do 2 f_equal. lia.
    + done.
Qed.

(** The index of the first free entry, or the number of entries. *)
Fixpoint first_free (es : list (list Z)) : nat :=
  match es with
  | [] => 0%nat
  | e :: es' => if de_inum e =? 0 then 0%nat else S (first_free es')
  end.

Lemma first_free_spec es : (first_free es <= length es)%nat ∧
  ((first_free es < length es)%nat → ∃ e, es !! first_free es = Some e ∧ de_inum e = 0).
Proof.
  induction es as [|e es [IH1 IH2]]; simpl; [lia|]. destruct (Z.eqb_spec (de_inum e) 0) as [E|E]; simpl.
  - split; [lia|]. intros _. by exists e.
  - split; [lia|]. intros H. apply IH2. lia.
Qed.

Section DirSpec.
Context {S : Type} `{BO : BlockOps S} `{L : Linker} (dev : Z) `{BL : !BlockLaws S dev}.

(** ** Directories *)

(** The entries of a directory. *)
Definition dirents (V : Z → bdata) (i : inode) : list (list Z) :=
  (λ k, fbytes V i (sizeof_dirent * Z.of_nat k) 16) <$> seq 0 (Z.to_nat (i_size i / sizeof_dirent)).

Record dir_inv (v : superblock) (b : S) (i : inode) : Prop := DirInv {
  di_file : file_inv dev v b i;
  di_type : i_type i = T_DIR;
  di_size : 0 ≤ i_size i;
  di_whole : i_size i mod sizeof_dirent = 0;
}.

Lemma dirents_lookup V i k : (k < Z.to_nat (i_size i / sizeof_dirent))%nat →
  dirents V i !! k = Some (fbytes V i (sizeof_dirent * Z.of_nat k) 16).
Proof. intros H. unfold dirents. rewrite list_lookup_fmap, lookup_seq_lt by done. done. Qed.

Lemma drop_dirents V i k : (k < Z.to_nat (i_size i / sizeof_dirent))%nat →
  drop k (dirents V i) = fbytes V i (sizeof_dirent * Z.of_nat k) 16 :: drop (Datatypes.S k) (dirents V i).
Proof. intros H. apply drop_S. by apply dirents_lookup. Qed.

(** Reading entry [k]. *)
Lemma read_entry_wp s dp i k c : itable s !! dp = Some i → binside (blocks s) [] None c → dir_inv (sb s) (blocks s) i →
  (k < Z.to_nat (i_size i / sizeof_dirent))%nat →
  wp (readi dp Kernel (sizeof_dirent * Z.of_nat k) sizeof_dirent) s (λ r s',
    r = (sizeof_dirent, fbytes (bview (blocks s)) i (sizeof_dirent * Z.of_nat k) 16) ∧ reads dev s c s').
Proof.
  intros Hip I [Hi Ht Hs Hw] Hk. pose proof (fi_size _ _ _ _ Hi) as Hm. unfold sizeof_dirent in *.
  eapply wp_mono; [apply (readi_wp dev s dp i (16 * Z.of_nat k) 16 c); try done; try apply Hi|].
  - lia.
  - unfold MAXFILE, NDIRECT, NINDIRECT, BSIZE in *. lia.
  - intros r s' [-> R]. assert (E : clip i (16 * Z.of_nat k) 16 = 16) by (unfold clip; lia). rewrite E. done.
Qed.

(** After a read the directory is as it was. *)
Lemma reads_dir s c s' i : reads dev s c s' → dir_inv (sb s) (blocks s) i →
  dir_inv (sb s') (blocks s') i ∧ sb s' = sb s ∧ itable s' = itable s ∧ bview (blocks s') = bview (blocks s) ∧
  binside (blocks s') [] None c.
Proof.
  intros R [H1 H2 H3 H4]. pose proof (reads_inv dev s c s' i R H1) as H1'. destruct R as (b' & -> & I' & St).
  split; [by split|]. split; [done|]. split; [done|]. split; [|done].
  exact (bstep_eq dev _ _ _ _ St).
Qed.

(** ** Finding an inode in the table *)

Lemma iget_scan_spec k e d n l :
  match iget_scan k e d n l with
  | (true, Some j) => (k <= j)%nat ∧ ∃ x, l !! (j - k)%nat = Some x ∧ 0 < i_ref x ∧ i_dev x = d ∧ i_inum x = n
  | (false, Some j) => e = Some j ∨ (k <= j)%nat ∧ ∃ x, l !! (j - k)%nat = Some x ∧ i_ref x = 0
  | (_, None) => e = None ∧ Forall (λ x, i_ref x ≠ 0) l
  end.
Proof.
  revert k e. induction l as [|x l IH]; intros k e; cbn [iget_scan]; [destruct e; auto|].
  destruct ((0 <? i_ref x) && (i_dev x =? d) && (i_inum x =? n)) eqn:E.
  - apply andb_prop in E as [[E1 E2]%andb_prop E3]. split; [lia|]. exists x. rewrite Nat.sub_diag. split; [done|]. lia.
  - set (e' := match e with None => _ | _ => _ end). specialize (IH (Datatypes.S k) e').
    destruct (iget_scan (Datatypes.S k) e' d n l) as [[] [j|]].
    + destruct IH as (Hj & y & Hy & H). split; [lia|]. exists y. by replace (j - k)%nat with (Datatypes.S (j - Datatypes.S k)) by lia.
    + destruct IH as [He Hl]. unfold e' in He. destruct e; [done|]. split; [done|]. constructor; [|done].
      destruct (Z.eqb_spec (i_ref x) 0); done.
    + destruct IH as [He|(Hj & y & Hy & H)].
      * unfold e' in He. destruct e as [e|]; [by left|]. destruct (Z.eqb_spec (i_ref x) 0) as [Hz|]; [|done].
        injection He as <-. right. split; [lia|]. exists x. by rewrite Nat.sub_diag.
      * right. split; [lia|]. exists y. by replace (j - k)%nat with (Datatypes.S (j - Datatypes.S k)) by lia.
    + destruct IH as [He Hl]. unfold e' in He. destruct e; [done|]. split; [done|]. constructor; [|done].
      destruct (Z.eqb_spec (i_ref x) 0); done.
Qed.

(** Some entry of the inode table is not in use. *)
Definition iroom (s : fstate S) : Prop := ∃ j x, itable s !! j = Some x ∧ i_ref x = 0.

(** Slot [ip] now holds inode [n] of device [d], with one more reference. *)
Definition igot (s : fstate S) (d n : Z) (ip : nat) (s' : fstate S) : Prop :=
  ∃ x y, itable s !! ip = Some x ∧ s' = set_itable (<[ip := y]>) s ∧ i_dev y = d ∧ i_inum y = n ∧
    i_ref y = i_ref x + 1 ∧ (0 < i_ref x → y = iset_ref (i_ref x + 1) x) ∧ (i_ref x = 0 → i_valid y = 0 ∧ i_lock y = i_lock x).

Lemma iget_wp s d n : iroom s → wp (iget d n) s (λ ip s', igot s d n ip s').
Proof.
  intros (j & z & Hj & Hz). unfold iget. apply wp_bind, wp_gets. pose proof (iget_scan_spec 0 None d n (itable s)) as H.
  destruct (iget_scan 0 None d n (itable s)) as [b [ip|]].
  - assert (G : ∀ f x, itable s !! ip = Some x → i_dev (f x) = d → i_inum (f x) = n → i_ref (f x) = i_ref x + 1 →
      (0 < i_ref x → f x = iset_ref (i_ref x + 1) x) → (i_ref x = 0 → i_valid (f x) = 0 ∧ i_lock (f x) = i_lock x) →
      wp (setip ip f;; mret ip) s (λ ip s', igot s d n ip s')).
    { intros f x Hx H1 H2 H3 H4 H5. apply wp_bind, wp_modify, wp_ret. exists x, (f x). split; [done|]. split; [|done].
      unfold set_itable. simpl. by rewrite (alter_insert f _ _ x). }
    destruct b.
    + destruct H as (_ & x & Hx & Hr & Hd & Hn). rewrite Nat.sub_0_r in Hx. apply (G _ x); try done. intros E. lia.
    + destruct H as [H|(_ & x & Hx & Hr)]; [done|]. rewrite Nat.sub_0_r in Hx. apply (G _ x); try done; simpl; lia.
  - assert (F : Forall (λ x, i_ref x ≠ 0) (itable s)) by (by destruct b, H). rewrite Forall_lookup in F. by destruct (F j z Hj).
Qed.

(** ** [dirlookup] *)

(** What [dirlookup] does when the search gives [found]. *)
Definition looked (s : fstate S) (c : Z) (d : Z) (found : option (Z * Z)) (r : option (nat * Z)) (s' : fstate S) : Prop :=
  match found with
  | None => r = None ∧ reads dev s c s'
  | Some (inum, off) => ∃ ip s1, r = Some (ip, off) ∧ reads dev s c s1 ∧ igot s1 d inum ip s'
  end.

Lemma dirlookup_loop_wp fuel s dp i name k c : itable s !! dp = Some i → binside (blocks s) [] None c →
  dir_inv (sb s) (blocks s) i → iroom s → (k <= Z.to_nat (i_size i / sizeof_dirent))%nat →
  (Z.to_nat (i_size i / sizeof_dirent) - k <= fuel)%nat →
  wp (dirlookup_loop fuel dp name (sizeof_dirent * Z.of_nat k)) s (λ r s',
    looked s c (i_dev i) (search name (drop k (dirents (bview (blocks s)) i)) (sizeof_dirent * Z.of_nat k)) r s').
Proof.
  revert s k. induction fuel as [|f IH]; intros s k Hip I D R Hk Hf; cbn [dirlookup_loop]; (eapply getip_wp; [done|]);
    pose proof (di_whole _ _ _ D) as Hw; pose proof (di_size _ _ _ D) as Hs0; unfold sizeof_dirent in *.
  - rewrite (proj2 (Z.ltb_ge _ _)) by lia. rewrite drop_ge by (unfold dirents; rewrite length_fmap, length_seq; unfold sizeof_dirent; lia).
    split; [done|]. exists (blocks s). split; [by destruct s|]. split; [done | apply bstep_refl].
  - destruct (Z.ltb_spec (16 * Z.of_nat k) (i_size i)) as [Hlt|Hge].
    + assert (Hkn : (k < Z.to_nat (i_size i / 16))%nat) by lia.
      apply wp_bind. eapply wp_mono; [exact (read_entry_wp s dp i k c Hip I D Hkn)|]. intros r s1 [-> R1]. cbn [fst snd].
      unfold sizeof_dirent at 1 2. rewrite Z.eqb_refl. cbn [negb]. rewrite (drop_dirents _ _ k Hkn). cbn [search].
      destruct (reads_dir s c s1 i R1 D) as (D1 & E1 & E2 & E3 & I1). set (e := fbytes _ _ _ _).
      assert (N : wp (dirlookup_loop f dp name (16 * Z.of_nat k + 16)) s1 (λ r s', looked s c (i_dev i)
        (search name (drop (Datatypes.S k) (dirents (bview (blocks s)) i)) (16 * Z.of_nat k + 16)) r s')).
      { replace (16 * Z.of_nat k + 16) with (16 * Z.of_nat (Datatypes.S k)) by lia. rewrite <- E3.
        eapply wp_mono; [apply (IH s1 (Datatypes.S k)); try done; [by rewrite E2 | | lia..]|].
        - destruct R as (j & x & Hj & Hx). exists j, x. by rewrite E2.
        - intros r s' H. unfold looked in *. destruct (search _ _ _) as [[inum off]|].
          + destruct H as (ip & s2 & -> & R2 & G2). exists ip, s2. split; [done|]. split; [|done]. by eapply reads_trans.
          + destruct H as [-> R2]. split; [done|]. by eapply reads_trans. }
      unfold matches. destruct (de_inum e =? 0) eqn:E0; cbn [negb andb]; [exact N|].
      destruct (namecmp name (de_name e) =? 0); [|exact N].
      apply wp_bind. eapply wp_mono; [apply (iget_wp s1)|].
      * destruct R as (j & x & Hj & Hx). exists j, x. by rewrite E2.
      * intros ip s2 G. apply wp_ret. by exists ip, s1.
    + rewrite drop_ge by (unfold dirents; rewrite length_fmap, length_seq; unfold sizeof_dirent; lia).
      split; [done|]. exists (blocks s). split; [by destruct s|]. split; [done | apply bstep_refl].
Qed.

Lemma dirlookup_wp s dp i name c : itable s !! dp = Some i → binside (blocks s) [] None c →
  dir_inv (sb s) (blocks s) i → iroom s →
  wp (dirlookup dp name) s (λ r s', looked s c (i_dev i) (search name (dirents (bview (blocks s)) i) 0) r s').
Proof.
  intros Hip I D R. unfold dirlookup. eapply getip_wp; [done|]. rewrite (di_type _ _ _ D), Z.eqb_refl. cbn [negb].
  apply (dirlookup_loop_wp _ s dp i name 0 c); try done; unfold sizeof_dirent; lia.
Qed.

(** ** [dirlink] *)

Lemma dirlink_loop_wp fuel s dp i k c : itable s !! dp = Some i → binside (blocks s) [] None c →
  dir_inv (sb s) (blocks s) i → (k <= Z.to_nat (i_size i / sizeof_dirent))%nat →
  (Z.to_nat (i_size i / sizeof_dirent) - k <= fuel)%nat →
  wp (dirlink_loop fuel dp (sizeof_dirent * Z.of_nat k)) s (λ r s', reads dev s c s' ∧
    r = sizeof_dirent * Z.of_nat (k + first_free (drop k (dirents (bview (blocks s)) i)))).
Proof.
  revert s k. induction fuel as [|f IH]; intros s k Hip I D Hk Hf; cbn [dirlink_loop]; (eapply getip_wp; [done|]);
    pose proof (di_whole _ _ _ D) as Hw; pose proof (di_size _ _ _ D) as Hs0; unfold sizeof_dirent in *.
  - rewrite (proj2 (Z.ltb_ge _ _)) by lia. rewrite drop_ge by (unfold dirents; rewrite length_fmap, length_seq; unfold sizeof_dirent; lia).
    apply wp_ret. split; [|simpl; lia]. exists (blocks s). split; [by destruct s|]. split; [done | apply bstep_refl].
  - destruct (Z.ltb_spec (16 * Z.of_nat k) (i_size i)) as [Hlt|Hge].
    + assert (Hkn : (k < Z.to_nat (i_size i / 16))%nat) by lia.
      apply wp_bind. eapply wp_mono; [exact (read_entry_wp s dp i k c Hip I D Hkn)|]. intros r s1 [-> R1]. cbn [fst snd].
      unfold sizeof_dirent at 1 2. rewrite Z.eqb_refl. cbn [negb]. rewrite (drop_dirents _ _ k Hkn). cbn [first_free].
      destruct (reads_dir s c s1 i R1 D) as (D1 & E1 & E2 & E3 & I1).
      destruct (de_inum _ =? 0); [apply wp_ret; split; [done | lia]|].
      replace (16 * Z.of_nat k + 16) with (16 * Z.of_nat (Datatypes.S k)) by lia. rewrite <- E3.
      eapply wp_mono; [apply (IH s1 (Datatypes.S k)); try done; [by rewrite E2 | lia..]|].
      intros r s' [R2 ->]. split; [by eapply reads_trans | lia].
    + rewrite drop_ge by (unfold dirents; rewrite length_fmap, length_seq; unfold sizeof_dirent; lia).
      apply wp_ret. split; [|simpl; lia]. exists (blocks s). split; [by destruct s|]. split; [done | apply bstep_refl].
Qed.

(** An entry written in slot [k], which may be the one after the last. *)
Lemma dirents_written v b i k bs b' i' : dir_inv v b i → (k <= Z.to_nat (i_size i / sizeof_dirent))%nat →
  i_size i + sizeof_dirent ≤ MAXFILE * BSIZE → length bs = 16%nat →
  written dev v b i (sizeof_dirent * Z.of_nat k) bs sizeof_dirent b' i' →
  dir_inv v b' i' ∧ dirents (bview b') i' = <[k := u8 <$> bs]> (dirents (bview b) i ++
    (if decide (k = Z.to_nat (i_size i / sizeof_dirent)) then [[]] else [])).
Proof.
  intros [D1 D2 D3 D4] Hk Hmax Hl W. pose proof (wr_size _ _ _ _ _ _ _ _ _ W) as Hs. unfold sizeof_dirent in *.
  split.
  { pose proof (wr_meta _ _ _ _ _ _ _ _ _ W) as (z & l & Ei). split; unfold sizeof_dirent; rewrite ?Hs.
    - apply (written_inv dev v b i (16 * Z.of_nat k) bs 16 b' i' D1); [rewrite Hl; lia | done].
    - by rewrite Ei.
    - lia.
    - lia. }
  assert (Hn' : Z.to_nat (i_size i' / 16) = Nat.max (Z.to_nat (i_size i / 16)) (Datatypes.S k)) by (rewrite Hs; lia).
  apply list_eq. intros j. unfold dirents at 1. unfold sizeof_dirent. rewrite Hn', list_lookup_fmap.
  assert (Hlen : length (dirents (bview b) i) = Z.to_nat (i_size i / 16)) by (unfold dirents; rewrite length_fmap, length_seq; done).
  destruct (decide (j = k)) as [->|Hjk].
  - rewrite lookup_seq_lt by lia. simpl. rewrite list_lookup_insert_eq.
    + f_equal. pose proof (fbytes_written dev v b i (16 * Z.of_nat k) bs 16 b' i' ltac:(lia) ltac:(lia) W) as E.
      change (Z.to_nat 16) with 16%nat in E. rewrite E, take_ge by lia. done.
    + rewrite length_app, Hlen. case_decide; simpl; lia.
  - rewrite list_lookup_insert_ne by done. destruct (decide (j < Z.to_nat (i_size i / 16))%nat) as [Hj|Hj].
    + rewrite lookup_seq_lt by lia. simpl. rewrite lookup_app_l by lia. rewrite dirents_lookup by done. f_equal.
      unfold fbytes. apply list_fmap_ext. intros x y Hx. apply lookup_seq in Hx as [-> Hx]. simpl.
      rewrite (wr_bytes _ _ _ _ _ _ _ _ _ W) by (unfold sizeof_dirent; lia). apply overwrite_out. unfold sizeof_dirent.
      rewrite length_take, Hl. lia.
    + rewrite lookup_seq_ge by lia. simpl. symmetry. apply lookup_ge_None. rewrite length_app, Hlen.
      case_decide; simpl; lia.
Qed.

Lemma length_dirents V i : length (dirents V i) = Z.to_nat (i_size i / sizeof_dirent).
Proof. unfold dirents. by rewrite length_fmap, length_seq. Qed.

(** The binding [dirlink] adds, in the first free entry. *)
Lemma search_linked es inum name name' : 0 < inum < 2 ^ 16 → search name es 0 = None →
  search name' (<[first_free es := new_entry inum name]>
    (es ++ (if decide (first_free es = length es) then [[]] else []))) 0 =
  if decide (cname name' = cname name) then Some (inum, sizeof_dirent * Z.of_nat (first_free es)) else search name' es 0.
Proof.
  intros Hi Hs. destruct (first_free_spec es) as [Hle Hlt]. destruct (decide (first_free es = length es)) as [E|E].
  - rewrite E, insert_app_r_alt, Nat.sub_diag by lia. cbn [insert list_insert]. rewrite search_snoc by done. done.
  - rewrite app_nil_r. destruct Hlt as (e & He & H0); [lia|]. rewrite (search_insert _ _ _ _ _ _ e) by done. done.
Qed.

Lemma dirlink_wp s dp i name inum c : itable s !! dp = Some i → binside (blocks s) [] None c →
  dir_inv (sb s) (blocks s) i → iroom s → search name (dirents (bview (blocks s)) i) 0 = None →
  0 < inum < 2 ^ 16 → i_size i + sizeof_dirent ≤ MAXFILE * BSIZE → 7 ≤ c →
  wp (dirlink dp name inum) s (λ r s', ∃ b' i' c', s' = fput s dp b' i' ∧ binside b' [] None c' ∧
    (r = -1 ∧ full dev (sb s) b' ∨
     r = 0 ∧ dir_inv (sb s) b' i' ∧ i_dev i' = i_dev i ∧ i_ref i' = i_ref i ∧ ∃ off, ∀ name',
       search name' (dirents (bview b') i') 0 =
         if decide (cname name' = cname name) then Some (inum, off) else search name' (dirents (bview (blocks s)) i) 0)).
Proof.
  intros Hip I D R Hs Hi Hmax Hc. unfold dirlink. apply wp_bind.
  eapply wp_mono; [exact (dirlookup_wp s dp i name c Hip I D R)|]. intros r s1 H. rewrite Hs in H. destruct H as [-> R1].
  destruct (reads_dir s c s1 i R1 D) as (D1 & E1 & E2 & E3 & I1). assert (Hip1 : itable s1 !! dp = Some i) by (by rewrite E2).
  eapply getip_wp; [done|]. apply wp_bind.
  eapply wp_mono; [apply (dirlink_loop_wp _ s1 dp i 0 c); try done; unfold sizeof_dirent; lia|].
  intros off s2 [R2 ->]. rewrite E3, drop_0, Nat.add_0_l.
  destruct (reads_dir s1 c s2 i R2 D1) as (D2 & E1' & E2' & E3' & I2).
  set (es := dirents (bview (blocks s)) i). set (k := first_free es). pose proof (first_free_spec es) as [Hk _]. fold k in Hk.
  unfold es in Hk. rewrite length_dirents in Hk. set (bs := dirent_bytes inum (name_copy name)).
  assert (Hl : length bs = 16%nat) by (unfold bs, dirent_bytes; cbn [length]; by rewrite length_name_copy).
  pose proof (di_size _ _ _ D) as Hs0. pose proof (di_whole _ _ _ D) as Hw. unfold sizeof_dirent in Hk, Hw, Hmax.
  apply wp_bind. pose proof (writei_wp dev s2 dp i (sizeof_dirent * Z.of_nat k) bs c 0) as W. rewrite Hl in W.
  change (Z.of_nat 16) with sizeof_dirent in W.
  assert (Ht : touched (sizeof_dirent * Z.of_nat k) sizeof_dirent = 1) by (unfold touched, sizeof_dirent, BSIZE; lia).
  eapply wp_mono; [apply W; try done; [by rewrite E2' | apply D2 | unfold sizeof_dirent; lia | unfold sizeof_dirent; lia | lia]|].
  intros r s3 (b' & i' & c' & -> & I' & _ & Wr). rewrite E1', E1 in Wr.
  assert (Ep : fput s2 dp b' i' = fput s dp b' i').
  { destruct R1 as (b1 & -> & _), R2 as (b2 & -> & _). done. }
  rewrite Ep. pose proof (wr_count _ _ _ _ _ _ _ _ _ Wr) as Hr. rewrite Hl in Hr.
  destruct (Z.eqb_spec r sizeof_dirent) as [->|Hne]; apply wp_ret; exists b', i', c'; (split; [done|]); (split; [done|]).
  - right. split; [done|]. rewrite E1', E1 in D2.
    destruct (dirents_written (sb s) (blocks s2) i k bs b' i' D2 Hk Hmax Hl Wr) as [D' Ed].
    split; [done|]. pose proof (wr_meta _ _ _ _ _ _ _ _ _ Wr) as (z & l & Ei). split; [by rewrite Ei|]. split; [by rewrite Ei|].
    exists (sizeof_dirent * Z.of_nat k). intros name'. rewrite Ed, E3', E3. fold es.
    pose proof (search_linked es inum name name' Hi Hs) as X. fold k in X.
    assert (El : length es = Z.to_nat (i_size i / sizeof_dirent)) by apply length_dirents. rewrite El in X. by rewrite <- X.
  - left. split; [done|]. destruct (wr_all _ _ _ _ _ _ _ _ _ Wr) as [H|H]; [|done]. rewrite Hl in H. unfold sizeof_dirent in Hne. lia.
Qed.

End DirSpec.

(** ** An empty directory *)

#[local] Existing Instance root_laws.

Definition demo_dir : inode := iset_type T_DIR demo_inode.
Definition demo_dir_fs : fstate lstate :=
  FState demo_blocks demo_sb [demo_dir; inode0] (KState (λ _, 0) 0 (λ _, 0)) 0 0 1.

Lemma demo_dir_inv : dir_inv 1 demo_sb demo_blocks demo_dir.
Proof.
  split; try done. destruct demo_file as [B [F1 F2 F3 F4 F5 F6] M [T1 T2 T3 T4 T5 T6 T7] Z]. split; try assumption.
  - split; assumption.
  - split; try assumption; simpl; unfold T_DIR; lia.
Qed.

