(* ===== verification/Namei.v ===== *)
(** * Path names and their resolution (kernel/fs.c)

    The names that the loop of [namex] takes from a path, one call of [skipelem] at
    a time, are its elements.  [namei] and [nameiparent] against the tree of directories
    on the disk: they find the inode the path names, take one reference to it and leave
    every other reference and every lock as they were. *)

From stdpp Require Import base numbers list strings.
From S2P Require Import Prelude Str Layout Kalloc Vm Bio BioProofs BioSpec BioView Log LogProofs LogSpec LogOps Block Fs Dir FsAlloc FsFile FsInode FsRw Txn FsSpec DirSpec.
Local Open Scope Z_scope.

(** The elements of a path: what is between slashes, where there is anything. *)
Fixpoint elements (path : list Z) : list (list Z) :=
  match path with
  | [] => []
  | c :: p =>
      if c =? slash then elements p
      else if first_byte p =? slash then [c] :: elements p
      else match elements p with
           | e :: es => (c :: e) :: es
           | [] => [[c]]
           end
  end.

(** The names that the loop of [namex] looks up, at most [fuel] of them. *)
Fixpoint names (fuel : nat) (path name : list Z) : list (list Z) :=
  match skipelem path name with
  | None => []
  | Some (rest, name') =>
      match fuel with
      | O => []
      | S f => cname name' :: names f rest name'
      end
  end.

(** A path as it is in memory: its bytes, none of them NUL. *)
Definition path_bytes (path : list Z) : Prop := Forall (λ c, 0 < c < 256) path.

Lemma elements_skip p : elements (skip_slashes p) = elements p.
Proof. induction p as [|c p IH]; [done|]. cbn [skip_slashes elements]. destruct (c =? slash) eqn:E; [done|]. cbn [elements]. by rewrite E. Qed.

Lemma take_elem_spec p : path_bytes p → p = (take_elem p).1 ++ (take_elem p).2 ∧ Forall (λ c, c ≠ slash) (take_elem p).1 ∧
  match (take_elem p).2 with [] => True | c :: _ => c = slash end.
Proof.
  induction 1 as [|c p Hc Hp (IH1 & IH2 & IH3)]; [by repeat constructor|]. cbn [take_elem].
  destruct (Z.eqb_spec c slash) as [->|Hs]; [by repeat constructor|]. rewrite (proj2 (Z.eqb_neq c 0)) by lia. cbn [orb].
  destruct (take_elem p) as [e r]. cbn [fst snd] in *. split; [simpl; congruence|]. split; [by constructor | done].
Qed.

Lemma elements_app e r : e ≠ [] → Forall (λ c, c ≠ slash) e → match r with [] => True | c :: _ => c = slash end →
  elements (e ++ r) = e :: elements r.
Proof.
  intros Hne He Hr. induction He as [|c e Hc He IH]; [done|]. cbn [app elements]. rewrite (proj2 (Z.eqb_neq c slash)) by done.
  destruct e as [|d e].
  - cbn [app]. destruct r as [|x r]; [done|]. subst x. done.
  - cbn [app first_byte List.hd]. inversion He as [|? ? Hd]. rewrite (proj2 (Z.eqb_neq d slash)) by done.
    change (d :: e ++ r) with ((d :: e) ++ r). rewrite IH by done. done.
Qed.

(** The name as the code keeps it in its array. *)
Lemma cstr_list n (p : Z) s t : path_bytes s → (length s <= n)%nat →
  (length s = n ∨ List.hd 0 t = 0) → 0 ≤ p →
  ∀ l, (∀ k, 0 ≤ k → byte_at l (p + k) = byte_at (s ++ t) k) → cstr n p (byte_at l) = s.
Proof.
  intros Hs. revert n p. induction Hs as [|c s Hc Hs IH]; intros n p Hn Ht Hp l Hl.
  - destruct n as [|n]; [done|]. destruct Ht as [|Ht]; [done|]. cbn [cstr]. pose proof (Hl 0 ltac:(lia)) as H0.
    rewrite Z.add_0_r in H0. rewrite H0. destruct t as [|x t]; [done|]. simpl in Ht. subst x. done.
  - destruct n as [|n]; [simpl in Hn; lia|]. cbn [cstr]. pose proof (Hl 0 ltac:(lia)) as H0. rewrite Z.add_0_r in H0.
    rewrite H0. change (byte_at ((c :: s) ++ t) 0) with c. assert (E : u8 c = c) by (unfold u8; lia). rewrite E.
    rewrite (proj2 (nonzero_true c)) by lia. f_equal. apply (IH n (p + 1)); [simpl in Hn; lia | | lia|].
    + destruct Ht as [Ht|Ht]; [left; simpl in Ht; lia | by right].
    + intros k Hk. replace (p + 1 + k) with (p + (k + 1)) by lia. rewrite Hl by lia. unfold byte_at.
      rewrite !(proj2 (Z.ltb_ge _ _)) by lia. replace (Z.to_nat (k + 1)) with (S (Z.to_nat k)) by lia. done.
Qed.

Lemma cname_list s t : path_bytes s → (length s <= 14)%nat → (length s = 14%nat ∨ List.hd 0 t = 0) → cname (s ++ t) = s.
Proof. intros Hs Hl Ht. apply (cstr_list _ 0 s t Hs Hl Ht); [lia|]. intros k Hk. by rewrite Z.add_0_l. Qed.

Lemma skip_slashes_le p : (length (skip_slashes p) <= length p)%nat.
Proof. induction p as [|c p IH]; simpl; [lia|]. destruct (c =? slash); simpl; lia. Qed.

Lemma skip_slashes_bytes p : path_bytes p → path_bytes (skip_slashes p).
Proof. induction 1 as [|c p Hc Hp IH]; [constructor|]. cbn [skip_slashes]. destruct (c =? slash); [done | by constructor]. Qed.

Lemma skip_slashes_hd p : first_byte (skip_slashes p) ≠ slash.
Proof. induction p as [|c p IH]; [done|]. cbn [skip_slashes]. destruct (Z.eqb_spec c slash); done. Qed.

(** One call of [skipelem]. *)
Lemma skipelem_spec path name : path_bytes path →
  match skipelem path name with
  | None => elements path = []
  | Some (rest, name') => ∃ e, elements path = e :: elements rest ∧ cname name' = take 14 e ∧
      path_bytes rest ∧ (length rest < length path)%nat
  end.
Proof.
  intros Hp. unfold skipelem. pose proof (skip_slashes_bytes path Hp) as Hq. pose proof (skip_slashes_hd path) as Hh.
  pose proof (skip_slashes_le path) as Hle. rewrite <- (elements_skip path). set (q := skip_slashes path) in *.
  destruct (Z.eqb_spec (first_byte q) 0) as [E|E].
  - destruct q as [|c q']; [done|]. simpl in E. inversion Hq. lia.
  - destruct (take_elem_spec q Hq) as (Hs & Hn & Hr). destruct (take_elem q) as [s r]. cbn [fst snd] in *.
    assert (Hne : s ≠ []).
    { intros ->. cbn [app] in Hs. subst r. destruct q as [|c q']; [done|]. by subst c. }
    rewrite Hs in Hq. apply Forall_app in Hq as [Hsb Hrb]. exists s. rewrite elements_skip. split.
    { rewrite Hs. by apply elements_app. }
    split; [|split; [by apply skip_slashes_bytes|]].
    + change (Z.to_nat DIRSIZ) with 14%nat. unfold DIRSIZ. destruct (Z.leb_spec 14 (Z.of_nat (length s))) as [H|H].
      * rewrite <- (app_nil_r (take 14 s)) at 1. apply cname_list; [by apply Forall_take | rewrite length_take; lia|].
        left. rewrite length_take. lia.
      * rewrite take_ge by lia. apply cname_list; [done | lia | by right].
    + pose proof (skip_slashes_le r). assert (length q = length s + length r)%nat by (rewrite Hs, length_app; done).
      destruct s; [done|]. simpl in *. lia.
Qed.

(** What is left is at an element or at the end. *)
Lemma skipelem_rest path name : path_bytes path → ∀ rest name', skipelem path name = Some (rest, name') →
  (first_byte rest =? 0) = bool_decide (elements rest = []).
Proof.
  intros Hp rest name' H. assert (Hr : path_bytes rest ∧ first_byte rest ≠ slash).
  { pose proof (skipelem_spec path name Hp) as Hs. rewrite H in Hs. split; [by destruct Hs as (e & _ & _ & ? & _)|].
    unfold skipelem in H. destruct (_ =? 0); [done|]. destruct (take_elem _) as [s r]. injection H as <- _. apply skip_slashes_hd. }
  destruct Hr as [Hb Hh]. destruct rest as [|x q]; [done|]. inversion Hb; subst. simpl in Hh. cbn [first_byte List.hd elements].
  rewrite (proj2 (Z.eqb_neq x 0)), (proj2 (Z.eqb_neq x slash)) by lia. rewrite bool_decide_false; [done|].
  destruct (first_byte q =? slash); [done|]. by destruct (elements q).
Qed.

(** Walking a path takes its elements in order, each cut after [DIRSIZ] bytes:
    slashes are skipped at the start, between elements, several at a time, and at the
    end; and there are never more calls of [skipelem] than bytes in the path. *)
Theorem path_walk (path name : list Z) :
  path_bytes path → names (length path) path name = take 14 <$> elements path.
Proof.
  intros Hp. remember (length path) as n eqn:Hn. assert (H : (length path <= n)%nat) by lia. clear Hn.
  revert path name Hp H. induction n as [|n IH]; intros path name Hp H; cbn [names];
    pose proof (skipelem_spec path name Hp) as Hs; destruct (skipelem path name) as [[rest name']|].
  - destruct Hs as (e & _ & _ & _ & Hl). lia.
  - by rewrite Hs.
  - destruct Hs as (e & -> & Hc & Hb & Hl). rewrite IH by (done || lia). by rewrite Hc.
  - by rewrite Hs.
Qed.

(** "//ab/c/" *)
Lemma path_walk_witness : names 8 [47; 47; 97; 98; 47; 99; 47; 47] (replicate 14 0) = [[97; 98]; [99]].
Proof. apply (path_walk [47; 47; 97; 98; 47; 99; 47; 47]). repeat constructor; lia. Defined.

(** ** The specification *)

(** The inode the first entry with name [nm] leads to. *)
Fixpoint find_entry (nm : list Z) (es : list (list Z)) : option Z :=
  match es with
  | [] => None
  | e :: es' => if negb (de_inum e =? 0) && bool_decide (cname (de_name e) = nm) then Some (de_inum e) else find_entry nm es'
  end.

(** Inode [n] on disk blocks [V], unlocked and without references. *)
Definition dnode (dev : Z) (v : superblock) (V : Z → bdata) (n : Z) : inode :=
  read_dinode (V (IBLOCK n v)) (islot n) (Inode dev n 0 (SleepLock 0 0) 1 0 0 0 0 0 []).

(** Where the names lead from inode [n]; with [parent], all but the last. *)
Fixpoint resolve (dev : Z) (v : superblock) (V : Z → bdata) (parent : bool) (n : Z) (nms : list (list Z)) : option Z :=
  match nms with
  | [] => if parent then None else Some n
  | nm :: nms' =>
      if i_type (dnode dev v V n) =? T_DIR then
        if parent && bool_decide (nms' = []) then Some n
        else find_entry nm (dirents V (dnode dev v V n)) ≫= λ m, resolve dev v V parent m nms'
      else None
  end.

Lemma find_entry_search name es off : find_entry (cname name) es = fst <$> search name es off.
Proof.
  revert off. induction es as [|e es IH]; intros off; [done|]. cbn [find_entry search]. unfold matches.
  replace (namecmp name (de_name e) =? 0) with (bool_decide (cname (de_name e) = cname name)).
  - destruct (negb _ && _); [done | apply IH].
  - apply eq_true_iff_eq. rewrite bool_decide_eq_true, Z.eqb_eq, namecmp_spec. done.
Qed.

Lemma find_entry_elem nm es m : find_entry nm es = Some m → m ≠ 0 ∧ ∃ e, e ∈ es ∧ de_inum e = m.
Proof.
  induction es as [|e es IH]; cbn [find_entry]; [done|]. destruct (Z.eqb_spec (de_inum e) 0) as [|Hz]; cbn [negb andb].
  - intros H. destruct (IH H) as (? & e' & ? & ?). split; [done|]. exists e'. split; [by right | done].
  - case_bool_decide; [intros [= <-]; split; [done|]; exists e; split; [by left | done]|].
    intros Hf. destruct (IH Hf) as (? & e' & ? & ?). split; [done|]. exists e'. split; [by right | done].
Qed.

(** ** The table of inodes *)

(** The inode with other in-memory fields. *)
Definition meta (r : Z) (lk : sleeplock) (va : Z) (i : inode) : inode :=
  Inode (i_dev i) (i_inum i) r lk va (i_type i) (i_major i) (i_minor i) (i_nlink i) (i_size i) (i_addrs i).

Lemma fstate_eta {S} (s : fstate S) : s = set_itable (λ _, itable s) (set_blocks (blocks s) s).
Proof. by destruct s. Qed.

Section Namei.
Context {S : Type} `{BO : BlockOps S} `{L : Linker} (dev : Z) `{BL : !BlockLaws S dev}.
Context (s0 : fstate S) (c : Z).
Let v := sb s0.
Let V := bview (blocks s0).
Let T0 := itable s0.
Let pid := upid s0.
Let D := dnode dev v V.

(** Slot [j] of the table: what is cached is what is on disk; [lk] is locked. *)
Definition slot_ok (lk : option nat) (j : nat) (x : inode) : Prop :=
  0 ≤ i_ref x ∧ (if decide (lk = Some j) then i_lock x = SleepLock 1 pid else sl_locked (i_lock x) = 0) ∧
  (0 < i_ref x → i_dev x = dev ∧ (i_valid x = 0 ∨ x = meta (i_ref x) (i_lock x) 1 (D (i_inum x)))).

(** The state with the references [hs], a slot and an inode each, taken since [s0]. *)
Record walking (s : fstate S) (hs : list (nat * Z)) (lk : option nat) : Prop := Walking {
  wk_fs : ∃ b T, s = set_itable (λ _, T) (set_blocks b s0) ∧ binside b [] None c ∧ bstep dev [] V (blocks s0) b;
  wk_slot : ∀ j x, itable s !! j = Some x → slot_ok lk j x;
  wk_ref : ∀ j x0, T0 !! j = Some x0 → ∃ x, itable s !! j = Some x ∧ i_ref x = i_ref x0 + Z.of_nat (count_occ Nat.eq_dec hs.*1 j);
  wk_old : ∀ j x0, T0 !! j = Some x0 → 0 ≤ i_ref x0;
  wk_len : length (itable s) = length T0;
  wk_held : ∀ j n, (j, n) ∈ hs → ∃ x, itable s !! j = Some x ∧ i_inum x = n;
}.

Lemma walking_view s hs lk : walking s hs lk → sb s = v ∧ bview (blocks s) = V ∧ binside (blocks s) [] None c ∧ upid s = pid.
Proof. intros [(b & T & -> & I & St) _ _ _ _ _]. split; [done|]. split; [exact (bstep_eq dev _ _ _ _ St) | done]. Qed.

Lemma walking_reads s hs lk s' : walking s hs lk → reads dev s c s' → walking s' hs lk.
Proof.
  intros [(b & T & -> & I & St) H2 H3 H4 HL H5] (b' & -> & I' & St'). simpl in *. split; try done.
  exists b', T. split; [done|]. split; [done|]. eapply bstep_trans; [exact St|]. eapply bstep_ext; [exact St'|]. apply (bs_view _ _ _ _ _ St).
Qed.

(** The state after a change of one slot. *)
Lemma walking_put s hs hs' lk lk' ip x y b' :
  walking s hs lk → itable s !! ip = Some x → binside b' [] None c → bstep dev [] (bview (blocks s)) (blocks s) b' →
  slot_ok lk' ip y → (∀ j z, j ≠ ip → slot_ok lk j z → slot_ok lk' j z) →
  (∀ j, i_ref (if decide (j = ip) then y else x) - i_ref x = Z.of_nat (count_occ Nat.eq_dec hs'.*1 j) - Z.of_nat (count_occ Nat.eq_dec hs.*1 j)) →
  (∀ j n, (j, n) ∈ hs' → if decide (j = ip) then i_inum y = n else (j, n) ∈ hs) →
  walking (set_itable (<[ip := y]>) (set_blocks b' s)) hs' lk'.
Proof.
  intros [(b & T & -> & I & St) H2 H3 H4 HL H5] Hx I' St' Hy Ho Hr Hh. simpl in *. pose proof (lookup_lt_Some _ _ _ Hx) as Hl. split; simpl.
  - exists b', (<[ip := y]> T). split; [done|]. split; [done|]. eapply bstep_trans; [exact St|]. eapply bstep_ext; [exact St'|]. apply (bs_view _ _ _ _ _ St).
  - intros j z Hj. destruct (decide (j = ip)) as [->|Hne]; [rewrite list_lookup_insert_eq in Hj by done; by injection Hj as <-|].
    rewrite list_lookup_insert_ne in Hj by done. apply Ho; [done | by apply H2].
  - intros j x0 Hj. destruct (H3 j x0 Hj) as (z & Hz & Er). specialize (Hr j). destruct (decide (j = ip)) as [->|Hne].
    + exists y. rewrite list_lookup_insert_eq by done. split; [done|]. assert (z = x) as -> by congruence. lia.
    + exists z. rewrite list_lookup_insert_ne by done. split; [done | lia].
  - done.
  - by rewrite length_insert.
  - intros j n Hj. specialize (Hh j n Hj). destruct (decide (j = ip)) as [->|Hne].
    + exists y. by rewrite list_lookup_insert_eq by done.
    + destruct (H5 j n Hh) as (z & Hz & Ez). exists z. by rewrite list_lookup_insert_ne by done.
Qed.

Lemma walking_same s hs lk lk' ip x y :
  walking s hs lk → itable s !! ip = Some x → slot_ok lk' ip y → (∀ j z, j ≠ ip → slot_ok lk j z → slot_ok lk' j z) →
  i_ref y = i_ref x → i_inum y = i_inum x → walking (set_itable (<[ip := y]>) s) hs lk'.
Proof.
  intros W Hx Hy Ho Er Ei. destruct (walking_view s hs lk W) as (_ & _ & I & _).
  replace s with (set_blocks (blocks s) s) by (by destruct s). apply (walking_put s hs hs lk lk' ip x y); try done.
  - intros j. destruct (decide (j = ip)); lia.
  - intros j n Hj. destruct (decide (j = ip)) as [->|]; [|done]. destruct (wk_held _ _ _ W ip n Hj) as (z & Hz & Ez). congruence.
Qed.

(** A held slot has a reference. *)
Lemma held_ref s hs lk j n : walking s hs lk → (j, n) ∈ hs → ∃ x, itable s !! j = Some x ∧ i_inum x = n ∧ 0 < i_ref x ∧ slot_ok lk j x.
Proof.
  intros W Hj. destruct (wk_held _ _ _ W j n Hj) as (x & Hx & En). exists x. split; [done|]. split; [done|].
  split; [|by apply (wk_slot _ _ _ W)].
  destruct (lookup_lt_is_Some_2 T0 j) as [x0 Hx0].
  { apply lookup_lt_Some in Hx. destruct (decide (j < length T0)%nat); [done|]. exfalso.
    pose proof (wk_len _ _ _ W). lia. }
  destruct (wk_ref _ _ _ W j x0 Hx0) as (x' & Hx' & Er). assert (x' = x) as -> by congruence.
  pose proof (wk_old _ _ _ W j x0 Hx0). assert (j ∈ hs.*1) by (apply list_elem_of_fmap; by exists (j, n)).
  assert (0 < count_occ Nat.eq_dec hs.*1 j)%nat by (apply count_occ_In; by apply list_elem_of_In). lia.
Qed.

(** ** Operations on the table *)

Lemma setip_put s ip b x y f (Q : unit → fstate S → Prop) :
  itable s !! ip = Some x → Q tt (fput s ip b (f y)) → wp (setip ip f) (fput s ip b y) Q.
Proof.
  intros H HQ. apply wp_modify. unfold fput, set_itable, set_blocks in *. simpl in *. pose proof (lookup_lt_Some _ _ _ H).
  rewrite (alter_insert f _ _ y) by (by apply list_lookup_insert_eq). by rewrite list_insert_insert_eq.
Qed.

Lemma slot_lock_other ip j z lk : j ≠ ip → slot_ok lk j z → (lk = None ∨ lk = Some ip) → slot_ok (Some ip) j z ∧ slot_ok None j z.
Proof.
  intros Hne (H1 & H2 & H3) Hlk. assert (E : sl_locked (i_lock z) = 0).
  { destruct (decide (lk = Some j)); [|done]. destruct Hlk; congruence. }
  unfold slot_ok. rewrite (decide_False (P := Some ip = Some j)), (decide_False (P := None = Some j)) by congruence. done.
Qed.

Lemma ilock_wp s hs ip n : walking s hs None → (ip, n) ∈ hs → i_type (D n) ≠ 0 →
  wp (ilock ip) s (λ _ s', walking s' hs (Some ip) ∧ ∃ r, itable s' !! ip = Some (meta r (SleepLock 1 pid) 1 (D n))).
Proof.
  intros W Hh Ht. destruct (held_ref s hs None ip n W Hh) as (x & Hx & En & Hr & Hs1 & Hs2 & Hs3). destruct (walking_view s hs None W) as (Ev & EV & I & Ep).
  rewrite decide_False in Hs2 by done. destruct (Hs3 Hr) as [Ed Hc].
  assert (HK : ∀ b' y, binside b' [] None c → bstep dev [] (bview (blocks s)) (blocks s) b' → y = meta (i_ref x) (SleepLock 1 pid) 1 (D n) →
    walking (fput s ip b' y) hs (Some ip) ∧ ∃ r, itable (fput s ip b' y) !! ip = Some (meta r (SleepLock 1 pid) 1 (D n))).
  { intros b' y I' St ->. split; [|exists (i_ref x); by eapply fput_lookup].
    apply (walking_put s hs hs None (Some ip) ip x); try done.
    - split; [done|]. rewrite decide_True by done. split; [done|]. intros _. split; [done|]. by right.
    - intros j z Hj Hz. by apply (slot_lock_other ip j z None); [..|left].
    - intros j. destruct (decide (j = ip)); simpl; lia.
    - intros j m Hj. destruct (decide (j = ip)) as [->|]; [|done]. destruct (wk_held _ _ _ W ip m Hj) as (z & Hz & Ez). assert (z = x) as -> by congruence. simpl. congruence. }
  unfold ilock. eapply getip_wp; [done|]. rewrite (proj2 (Z.ltb_ge _ 1)) by lia. unfold iacquire.
  apply wp_bind. eapply getip_wp; [done|]. apply wp_bind, wp_gets. unfold nonzero. rewrite Hs2. cbn [Z.eqb negb]. rewrite Ep.
  replace s with (set_blocks (blocks s) s) by (by destruct s). eapply setip_wp; [done|].
  eapply getip_wp; [by eapply fput_lookup|]. simpl. destruct Hc as [Hv|Hc].
  - rewrite Hv. cbn [Z.eqb]. apply wp_bind, wp_gets. simpl. rewrite Ed, Ev, En.
    apply (read_wp dev [] c); [done | apply not_elem_of_nil | simpl; lia|]. intros bp b1 I1 A1 S1. unfold view in S1. simpl in S1.
    eapply (data_wp dev); [exact I1 | by left | exact A1|]. unfold view. simpl. rewrite (bs_view _ _ _ _ _ S1), EV.
    apply wp_bind. change (set_blocks b1 (fput s ip (blocks s) (iset_lock (SleepLock 1 pid) x))) with (fput s ip b1 (iset_lock (SleepLock 1 pid) x)).
    eapply setip_put; [exact Hx|]. apply wp_bind. eapply (rel_wp dev); [exact I1 | exact A1|]. intros b2 I2 S2. unfold view in S2. simpl in S2.
    match goal with |- context [set_blocks b2 (fput s ip b1 ?y)] => change (set_blocks b2 (fput s ip b1 y)) with (fput s ip b2 y) end.
    apply wp_bind. eapply setip_put; [exact Hx|]. eapply getip_wp; [by eapply fput_lookup|].
    assert (Ey : iset_valid 1 (read_dinode (V (IBLOCK n v)) (sizeof_dinode * (n mod IPB)) (iset_lock (SleepLock 1 pid) x)) = meta (i_ref x) (SleepLock 1 pid) 1 (D n)).
    { unfold meta, D, dnode, read_dinode, iset_valid. simpl. by rewrite Ed, En. }
    rewrite Ey. simpl. rewrite (proj2 (Z.eqb_neq _ 0)) by done. apply wp_ret. apply HK; [done | | done].
    pose proof (bstep_eq dev _ _ _ _ S1) as E1. rewrite E1 in S2. eapply bstep_trans; [exact S1 | exact S2].
  - rewrite Hc. simpl. apply wp_ret. apply HK; [done | apply bstep_refl|]. rewrite Hc. unfold meta, iset_lock. simpl. by rewrite En.
Qed.

Lemma iunlock_wp s hs ip n : walking s hs (Some ip) → (ip, n) ∈ hs → wp (iunlock ip) s (λ _ s', walking s' hs None).
Proof.
  intros W Hh. destruct (held_ref s hs _ ip n W Hh) as (x & Hx & En & Hr & Hs1 & Hs2 & Hs3). destruct (walking_view s hs _ W) as (_ & _ & _ & Ep).
  rewrite decide_True in Hs2 by done. unfold iunlock, iholding. apply wp_bind. eapply getip_wp; [done|]. apply wp_bind, wp_gets, wp_ret. rewrite Hs2, Ep. simpl.
  rewrite Z.eqb_refl. eapply getip_wp; [done|]. cbn [negb orb]. rewrite (proj2 (Z.ltb_ge _ 1)) by lia.
  unfold irelease. apply wp_modify. unfold set_itable. simpl. rewrite (alter_insert _ _ _ x) by done.
  apply (walking_same s hs (Some ip) None ip x); try done.
  - split; [done|]. rewrite decide_False by done. split; [done|]. intros _. destruct (Hs3 Hr) as [Hd [Hv|Hc]]; (split; [done|]); [by left|].
    right. rewrite Hc. done.
  - intros j z Hj Hz. by apply (slot_lock_other ip j z (Some ip)); [..|right].
Qed.

(** Giving a reference back; the inode has a name, so it stays. *)
Lemma iput_wp s hs1 hs2 ip n lk : walking s (hs1 ++ (ip, n) :: hs2) lk → i_nlink (D n) ≠ 0 →
  wp (iput ip) s (λ _ s', walking s' (hs1 ++ hs2) lk).
Proof.
  intros W Hn. destruct (held_ref s _ lk ip n W) as (x & Hx & En & Hr & Hs1 & Hs2 & Hs3); [apply elem_of_app; right; by left|].
  unfold iput. eapply getip_wp; [done|].
  replace ((i_ref x =? 1) && nonzero (i_valid x) && (i_nlink x =? 0)) with false.
  2:{ symmetry. apply andb_false_iff. destruct (Hs3 Hr) as [_ [Hv|Hc]]; [left; rewrite Hv; apply andb_false_r|].
      right. rewrite Hc. simpl. rewrite En. by apply Z.eqb_neq. }
  cbn [when]. apply wp_bind, wp_ret, wp_modify. unfold set_itable. simpl. rewrite (alter_insert _ _ _ x) by done.
  destruct (walking_view s _ _ W) as (_ & _ & I & _). replace s with (set_blocks (blocks s) s) by (by destruct s).
  apply (walking_put s (hs1 ++ (ip, n) :: hs2) (hs1 ++ hs2) lk lk ip x); try done.
  - split; [simpl; lia|]. split; [done|]. intros _. destruct (Hs3 Hr) as [Hd [Hv|Hc]]; (split; [done|]); [by left|]. right. rewrite Hc. done.
  - intros j. rewrite !fmap_app, fmap_cons, !count_occ_app. simpl. destruct (decide (j = ip)), (Nat.eq_dec ip j); simpl; lia || congruence.
  - intros j m Hj. assert (Hin : (j, m) ∈ hs1 ++ (ip, n) :: hs2) by (rewrite elem_of_app, elem_of_cons in *; tauto).
    destruct (decide (j = ip)) as [->|]; [|done]. destruct (wk_held _ _ _ W ip m Hin) as (z & Hz & Ez). simpl. congruence.
Qed.

(** Taking a reference. *)
Lemma iget_walking s hs lk ip n s' : walking s hs lk → igot s dev n ip s' → walking s' ((ip, n) :: hs) lk.
Proof.
  intros W (x & y & Hx & -> & Hd & Hn & Er & Hp & Hz). destruct (walking_view s _ _ W) as (_ & _ & I & _).
  destruct (wk_slot _ _ _ W ip x Hx) as (Hs1 & Hs2 & Hs3). replace s with (set_blocks (blocks s) s) at 1 by (by destruct s).
  apply (walking_put s hs ((ip, n) :: hs) lk lk ip x); try done.
  - split; [lia|]. destruct (Z.ltb_spec 0 (i_ref x)) as [H0|H0].
    + rewrite (Hp H0). split; [done|]. intros _. destruct (Hs3 H0) as [Hd' [Hv|Hc]]; (split; [done|]); [by left|]. right. rewrite Hc. done.
    + destruct (Hz ltac:(lia)) as [Hv El]. rewrite El. split; [done|]. intros _. split; [done | by left].
  - intros j. rewrite fmap_cons. simpl. destruct (decide (j = ip)), (Nat.eq_dec ip j); simpl; lia || congruence.
  - intros j m. rewrite elem_of_cons. destruct (decide (j = ip)) as [->|]; [|intros [[= ? ?]|]; done].
    intros [[= <-]|Hj]; [done|]. destruct (held_ref s hs lk ip m W Hj) as (z & Hz' & Ez & Hr & _). assert (z = x) as -> by congruence.
    rewrite (Hp Hr). done.
Qed.

Lemma iunlockput_wp s hs1 hs2 ip n : walking s (hs1 ++ (ip, n) :: hs2) (Some ip) → i_nlink (D n) ≠ 0 →
  wp (iunlockput ip) s (λ _ s', walking s' (hs1 ++ hs2) None).
Proof.
  intros W Hn. unfold iunlockput. apply wp_bind. eapply wp_mono; [apply (iunlock_wp s _ ip n W); apply elem_of_app; right; by left|].
  intros [] s' W'. by apply (iput_wp s' hs1 hs2 ip n).
Qed.

(** ** The walk *)

Context (N : Z → Prop).

(** The inodes of a tree of directories. *)
Definition fs_tree : Prop := ∀ n, N n → i_type (D n) ≠ 0 ∧ i_nlink (D n) ≠ 0 ∧
  (i_type (D n) = T_DIR → dir_inv dev v (blocks s0) (D n) ∧ ∀ e, e ∈ dirents V (D n) → de_inum e ≠ 0 → N (de_inum e)).

(** Two slots of the table are free: one for the directory, one for its entry. *)
Definition two_free : Prop := ∃ j1 j2 x1 x2, j1 ≠ j2 ∧ T0 !! j1 = Some x1 ∧ T0 !! j2 = Some x2 ∧ i_ref x1 = 0 ∧ i_ref x2 = 0.

Lemma walking_room s h lk : two_free → walking s [h] lk → iroom s.
Proof.
  intros (j1 & j2 & x1 & x2 & Hne & H1 & H2 & E1 & E2) W. destruct h as [ip n].
  assert (G : ∀ j x0, j ≠ ip → T0 !! j = Some x0 → i_ref x0 = 0 → iroom s).
  { intros j x0 Hj Hx Er. destruct (wk_ref _ _ _ W j x0 Hx) as (x & Hx' & E). exists j, x. split; [done|]. simpl in E.
    destruct (Nat.eq_dec ip j); [congruence | lia]. }
  destruct (decide (j1 = ip)) as [->|]; [by eapply (G j2) | by eapply (G j1)].
Qed.

Lemma dir_inv_meta u b i r lk va : dir_inv dev u b i → dir_inv dev u b (meta r lk va i).
Proof.
  intros [[B [F1 F2 F3 F4 F5 F6] M [Y1 Y2 Y3 Y4 Y5 Y6 Y7] Z0] T1 S1 W1]. split; [|assumption..]. split; [assumption | | assumption | | assumption]; split; assumption.
Qed.

Lemma dir_here s hs lk n r l va : walking s hs lk → dir_inv dev v (blocks s0) (D n) → dir_inv dev (sb s) (blocks s) (meta r l va (D n)).
Proof.
  intros W Hd. apply dir_inv_meta. destruct (wk_fs _ _ _ W) as (b & T & -> & I & St).
  apply (reads_dir dev s0 c (set_blocks b s0) (D n)); [by exists b | done].
Qed.

Lemma namex_loop_wp fuel path np name ip n s :
  fs_tree → two_free → walking s [(ip, n)] None → N n → path_bytes path → (length path ≤ fuel)%nat →
  wp (namex_loop fuel path np name ip) s (λ r s', let nms := take 14 <$> elements path in
    match resolve dev v V np n nms with
    | Some m => ∃ ip', r.1 = Some ip' ∧ walking s' [(ip', m)] None ∧ N m ∧ (np = true → last nms = Some (cname r.2))
    | None => r.1 = None ∧ walking s' [] None
    end).
Proof.
  intros HT HR. revert path name ip n s. induction fuel as [|f IH]; intros path name ip n s W HN Hp Hl; cbn [namex_loop];
    pose proof (skipelem_spec path name Hp) as Hs; pose proof (skipelem_rest path name Hp) as Hrest; (destruct (skipelem path name) as [[rest name']|];
      [|rewrite Hs; simpl; destruct np; [apply wp_bind; eapply wp_mono; [apply (iput_wp s [] [] ip n None W); by apply HT|]; intros [] s' W'; by apply wp_ret | apply wp_ret; by exists ip]]).
  { destruct Hs as (e & _ & _ & _ & ?). lia. }
  destruct Hs as (e & He & Hc & Hb & Hlt). specialize (Hrest rest name' eq_refl). destruct (HT n HN) as (Ht & Hn & Hdir).
  rewrite He. cbn [fmap list_fmap resolve]. fold D. rewrite <- Hc.
  apply wp_bind. eapply wp_mono; [apply (ilock_wp s _ ip n W); [by left | done]|]. intros [] s1 [W1 [r1 Hx1]].
  eapply getip_wp; [exact Hx1|]. cbn [i_type meta].
  assert (HF : ∀ s2, walking s2 [(ip, n)] (Some ip) → wp (iunlockput ip;; mret (None, name')) s2 (λ r s', r.1 = @None nat ∧ walking s' [] None)).
  { intros s2 W2. apply wp_bind. eapply wp_mono; [by apply (iunlockput_wp s2 [] [] ip n)|]. intros [] s3 W3. by apply wp_ret. }
  destruct (Z.eqb_spec (i_type (D n)) T_DIR) as [Hd|Hd]; cbn [negb]; [|by apply HF]. destruct (Hdir Hd) as [Hdi Hcl].
  rewrite Hrest. replace (bool_decide (take 14 <$> elements rest = [])) with (bool_decide (elements rest = [])).
  2:{ apply bool_decide_ext. by destruct (elements rest). }
  destruct (np && bool_decide (elements rest = [])) eqn:Hlast.
  - apply andb_prop in Hlast as [-> Hnil%bool_decide_eq_true]. apply wp_bind. eapply wp_mono; [apply (iunlock_wp s1 _ ip n W1); by left|].
    intros [] s2 W2. apply wp_ret. exists ip. split; [done|]. split; [done|]. split; [done|]. intros _. by rewrite Hnil.
  - apply wp_bind. destruct (walking_view s1 _ _ W1) as (Ev & EV & I1 & _).
    eapply wp_mono; [apply (dirlookup_wp dev s1 ip _ name' c Hx1 I1 (dir_here s1 _ _ n _ _ _ W1 Hdi) (walking_room s1 _ _ HR W1))|].
    intros q s2 HL. rewrite EV in HL. change (dirents V (meta _ _ _ (D n))) with (dirents V (D n)) in HL.
    rewrite (find_entry_search name' _ 0). destruct (search name' (dirents V (D n)) 0) as [[m off]|] eqn:Hse; simpl in HL |- *.
    + destruct HL as (ip2 & s3 & -> & R & G). pose proof (walking_reads _ _ _ _ W1 R) as W3. pose proof (iget_walking s3 _ _ ip2 m s2 W3 G) as W2.
      apply wp_bind. eapply wp_mono; [apply (iunlockput_wp s2 [(ip2, m)] [] ip n W2 Hn)|]. intros [] s4 W4. simpl in W4.
      destruct (find_entry_elem (cname name') (dirents V (D n)) m) as (Hm0 & e' & He' & <-); [by rewrite (find_entry_search name' _ 0), Hse|].
      eapply wp_mono; [apply (IH rest name' ip2 _ s4 W4); [by apply Hcl | done | lia]|]. intros r s5. cbv zeta.
      destruct (resolve dev v V np (de_inum e') (take 14 <$> elements rest)) as [m|]; [|done].
      intros (ip' & H1 & H2 & H3 & H4). exists ip'. split_and!; try done. intros Hnp. specialize (H4 Hnp).
      rewrite last_cons, H4. done.
    + destruct HL as [-> R]. apply HF. by eapply walking_reads.
Qed.

(** Where a path starts. *)
Definition starts (path : list Z) (n : Z) : Prop := N n ∧
  if first_byte path =? slash then dev = ROOTDEV ∧ n = ROOTINO
  else ∃ x, itable s0 !! ucwd s0 = Some x ∧ 0 < i_ref x ∧ i_inum x = n.

Definition table_ok : Prop := binside (blocks s0) [] None c ∧ ∀ j x, itable s0 !! j = Some x → slot_ok None j x.

Lemma walking_start : table_ok → walking s0 [] None.
Proof.
  intros [I H]. split; [exists (blocks s0), (itable s0); split; [apply fstate_eta|]; split; [done | apply bstep_refl] | done | | | done | by intros j n ?%elem_of_nil].
  - intros j x Hj. exists x. split; [done|]. simpl. lia.
  - intros j x Hj. apply (H j x Hj).
Qed.

Lemma namex_wp path np name n : fs_tree → two_free → table_ok → starts path n → path_bytes path →
  wp (namex path np name) s0 (λ r s', let nms := take 14 <$> elements path in
    match resolve dev v V np n nms with
    | Some m => ∃ ip, r.1 = Some ip ∧ walking s' [(ip, m)] None ∧ N m ∧ (np = true → last nms = Some (cname r.2))
    | None => r.1 = None ∧ walking s' [] None
    end).
Proof.
  intros HT HR HI [HN Hs] Hp. pose proof (walking_start HI) as W. unfold namex. apply wp_bind. destruct (first_byte path =? slash).
  - destruct Hs as [Hd ->]. rewrite <- Hd. eapply wp_mono; [apply iget_wp|].
    + destruct HR as (j & _ & x & _ & _ & Hj & _ & Hx & _). by exists j, x.
    + intros ip s1 G. apply namex_loop_wp; try done. by eapply iget_walking.
  - destruct Hs as (x & Hx & Hr & Hn). apply wp_bind, wp_gets. unfold idup. apply wp_bind, wp_modify, wp_ret.
    apply namex_loop_wp; try done. eapply iget_walking; [exact W|]. destruct (proj2 HI _ x Hx) as (_ & _ & Hd). destruct (Hd Hr) as [Hd' _].
    exists x, (iset_ref (i_ref x + 1) x). split; [done|]. unfold set_itable. simpl. rewrite (alter_insert _ _ _ x) by done.
    split; [done|]. split_and!; [done | done | done | done | lia].
Qed.

(** Everything is as before, but for the references [hs]. *)
Definition only_refs (s' : fstate S) (hs : list nat) : Prop :=
  bview (blocks s') = V ∧ bdisk (blocks s') = bdisk (blocks s0) ∧ length (itable s') = length T0 ∧
  ∀ j x0, T0 !! j = Some x0 → ∃ x, itable s' !! j = Some x ∧ sl_locked (i_lock x) = 0 ∧ i_ref x = i_ref x0 + Z.of_nat (count_occ Nat.eq_dec hs j).

Lemma walking_only s' hs : walking s' hs None → only_refs s' hs.*1.
Proof.
  intros W. destruct (walking_view _ _ _ W) as (_ & EV & _ & _). split; [done|]. split; [|split; [apply W|]].
  - destruct (wk_fs _ _ _ W) as (b & T & -> & _ & St). apply (bs_disk _ _ _ _ _ St).
  - intros j x0 Hj. destruct (wk_ref _ _ _ W j x0 Hj) as (x & Hx & Er). exists x. split; [done|]. split; [|done]. by destruct (wk_slot _ _ _ W j x Hx) as (_ & H & _).
Qed.

(** C13. [namei] on a tree of directories returns, and finds what the path names: the
    inode reached by looking each element, cut to [DIRSIZ] bytes, up in the directory
    before it, or nothing if an element is missing or is no directory.  It holds one
    new reference to that inode and no lock, and every other reference, and the disk,
    are as before. *)
Theorem namei_resolves path n : fs_tree → two_free → table_ok → starts path n → path_bytes path →
  ∃ r s', namei path s0 = Ret (r, s') ∧
  match resolve dev v V false n (take 14 <$> elements path) with
  | Some m => ∃ ip x, r = Some ip ∧ itable s' !! ip = Some x ∧ i_inum x = m ∧ only_refs s' [ip]
  | None => r = None ∧ only_refs s' []
  end.
Proof.
  intros HT HR HI Hs Hp. apply wp_elim. unfold namei. apply wp_bind. eapply wp_mono; [by apply (namex_wp path false _ n)|].
  intros r s' H. apply wp_ret. cbv zeta in H. destruct (resolve _ _ _ _ _ _) as [m|].
  - destruct H as (ip & -> & W & _ & _). destruct (wk_held _ _ _ W ip m) as (x & Hx & En); [by left|]. exists ip, x. split_and!; try done. by apply (walking_only s' [(ip, m)]).
  - destruct H as [-> W]. split; [done|]. by apply (walking_only s' []).
Qed.
End Namei.

(** ** A small tree: the root directory with one file, "a" *)

#[local] Existing Instance root_laws.

(** Inode [n] with one block. *)
Definition one_block (n ty sz a : Z) : inode := Inode 1 n 0 (SleepLock 0 0) 1 ty 0 0 1 sz (a :: replicate 12 0).

(** The blocks: inodes in 33, the bitmap in 34, the root directory in 35, the file in 36. *)
Definition tree_disk (F : list Z) (b : Z) : bdata :=
  if b =? 33 then write_dinode (one_block 1 T_DIR 16 35) (islot 1) (write_dinode (one_block 2 T_FILE (Z.of_nat (length F)) 36) (islot 2) (λ _, 0))
  else if b =? 34 then λ o, if o <? 4 then 255 else if o =? 4 then 31 else 0
  else if b =? 35 then write_bytes 0 (new_entry 2 [97]) (λ _, 0)
  else if b =? 36 then write_bytes 0 F (λ _, 0)
  else λ _, 0.

Definition tree_blocks (F : list Z) : lstate := opened (boot_cache (tree_disk F)) demo_log.

Section Tree.
Context (F : list Z) (HF : Z.of_nat (length F) ≤ 1024).

Lemma tree_idle : idle 1 (boot_cache (tree_disk F)) boot_lru demo_log.
Proof.
  destruct (boot_cache_ok (tree_disk F)) as (Hi & Hz & Hd & _).
  split; [done | by apply quiet_boot | done | done|]. rewrite Hd. reflexivity.
Qed.

Lemma tree_view : bview (tree_blocks F) = tree_disk F.
Proof.
  apply FunctionalExtensionality.functional_extensionality. intros x. change (content (boot_cache (tree_disk F)) 1 x = tree_disk F x).
  rewrite (idle_content 1 _ boot_lru demo_log tree_idle). by destruct (boot_cache_ok (tree_disk F)) as (_ & _ & -> & _).
Qed.

Lemma tree_used x : 0 ≤ x < 40 → used demo_sb (tree_disk F) x = (x <? 37).
Proof.
  intros Hx. assert (H : forallb (λ x, eqb (used demo_sb (tree_disk F) x) (x <? 37)) (seqZ 0 40) = true) by (vm_compute; reflexivity).
  rewrite forallb_forall in H. apply eqb_prop, H. apply list_elem_of_In, elem_of_seqZ. lia.
Qed.

Lemma tree_valid x : 33 ≤ x ≤ 39 → bvalid (tree_blocks F) x.
Proof. intros H. change (log_valid (tree_blocks F) x). unfold log_valid, in_log, LOGSIZE, MAXOPBLOCKS. simpl. lia. Qed.

Lemma tree_bitmap : bitmap_ok 1 demo_sb (tree_blocks F).
Proof.
  split.
  - simpl. lia.
  - intros x Hx. simpl in Hx. apply tree_valid. unfold BBLOCK, BPB, BSIZE. simpl. lia.
  - intros x Hx. simpl in Hx. rewrite tree_view, tree_used, Z.ltb_ge by done. intros H. split; [simpl; lia|].
    split; [apply tree_valid; lia|]. intros y Hy. simpl in Hy. unfold BBLOCK, BPB, BSIZE. simpl. lia.
Qed.

(** A file of at most one block. *)
Lemma one_block_file n ty sz a : 35 ≤ a ≤ 36 → 0 ≤ n < 16 → 0 ≤ ty < 2 ^ 15 → 0 ≤ sz ≤ 1024 → file_inv 1 demo_sb (tree_blocks F) (one_block n ty sz a).
Proof.
  intros Ha Hn Hty Hsz. set (i := one_block n ty sz a).
  assert (H0 : ∀ V m, 0 ≤ m → faddr V i m = if m =? 0 then a else 0).
  { intros V m Hm. unfold faddr. change (addr_at i NDIRECT) with 0. change (0 =? 0) with true. cbv iota.
    destruct (Z.ltb_spec m NDIRECT) as [Hl|]; [|by rewrite (proj2 (Z.eqb_neq m 0)) by (unfold NDIRECT in *; lia)].
    unfold addr_at, i, one_block, NDIRECT in *. cbn [i_addrs]. destruct (Z.eqb_spec m 0) as [->|]; [done|].
    replace (Z.to_nat m) with (S (Z.to_nat (m - 1))) by lia. change (default 0 (replicate 12 (0 : Z) !! Z.to_nat (m - 1)) = 0). by rewrite lookup_replicate_2 by lia. }
  assert (Hib : iblock demo_sb i = 33) by (unfold iblock, IBLOCK, IPB, sizeof_dinode, BSIZE, i, one_block; simpl; lia).
  split; [exact tree_bitmap | | | |].
  - split; try done.
    + intros x [Hx [E|(m & Hm & E)]]; [done|]. rewrite H0 in E by lia. destruct (m =? 0); [|done]. subst x. rewrite Hib, tree_view, tree_used by lia.
      split; [|split; [apply Z.ltb_lt; lia | lia]]. split; [simpl; lia|]. split; [apply tree_valid; lia|]. intros y Hy. simpl in Hy. unfold BBLOCK, BPB, BSIZE. simpl. lia.
    + intros m m' Hm Hm'. rewrite !H0 by lia. destruct (Z.eqb_spec m 0), (Z.eqb_spec m' 0); intros; lia || done.
    + rewrite Hib. split; [apply tree_valid; lia|]. split; [simpl; lia|]. split; [by rewrite tree_view, tree_used by lia|].
      intros x Hx. simpl in Hx. unfold BBLOCK, BPB, BSIZE. simpl. lia.
  - intros m Hm Hs. rewrite H0 by done. simpl in Hs. unfold BSIZE in Hs. destruct (Z.eqb_spec m 0); lia.
  - split; try (simpl; lia). simpl. constructor; [lia|]. by repeat constructor.
  - simpl. unfold MAXFILE, NDIRECT, NINDIRECT, BSIZE. lia.
Qed.
End Tree.

(** The root directory is an inode of the tree, and so is the file. *)
Definition tree_inum (n : Z) : Prop := n = 1 ∨ n = 2.

Definition tree_fs (F : list Z) : fstate lstate :=
  FState (tree_blocks F) demo_sb (replicate 3 inode0) (KState (λ _, 0) 0 (λ _, 0)) 0 0 1.

(** "/a" is inode 2. *)
Lemma namei_resolves_witness :
  ∃ ip x s', namei (L := tiny) [47; 97] (tree_fs [104; 105]) = Ret (Some ip, s') ∧ itable s' !! ip = Some x ∧ i_inum x = 2 ∧ only_refs 1 (tree_fs [104; 105]) s' [ip].
Proof.
  set (F := [104; 105]). assert (E1 : dnode 1 demo_sb (tree_disk F) 1 = one_block 1 T_DIR 16 35) by (vm_compute; reflexivity).
  assert (E2 : dnode 1 demo_sb (tree_disk F) 2 = one_block 2 T_FILE 2 36) by (vm_compute; reflexivity).
  assert (ED : dirents (tree_disk F) (one_block 1 T_DIR 16 35) = [new_entry 2 [97]]) by (vm_compute; reflexivity).
  destruct (namei_resolves (L := tiny) 1 (tree_fs F) 26 tree_inum [47; 97] 1) as (r & s' & E & H).
  - intros n [->| ->]; unfold fs_tree; change (blocks (tree_fs F)) with (tree_blocks F); rewrite tree_view; change (sb (tree_fs F)) with demo_sb.
    + rewrite E1, ED. split; [discriminate|]. split; [discriminate|]. intros _. split.
      * split; [apply (one_block_file F); simpl; unfold T_DIR; lia | reflexivity | simpl; lia | reflexivity].
      * intros e ->%list_elem_of_singleton _. right. vm_compute. reflexivity.
    + rewrite E2. split; [discriminate|]. split; [discriminate|]. intros HD. discriminate HD.
  - exists 0%nat, 1%nat, inode0, inode0. split_and!; done.
  - split; [exact (open_in 1 _ _ _ (tree_idle F) (Z.le_refl _))|]. intros j x Hx. apply lookup_replicate_1 in Hx as [-> _].
    split; [simpl; lia|]. split; [by rewrite decide_False|]. intros Hr. simpl in Hr. lia.
  - split; [by left|]. vm_compute. split; reflexivity.
  - repeat constructor; lia.
  - assert (ER : resolve 1 (sb (tree_fs F)) (bview (blocks (tree_fs F))) false 1 (take 14 <$> elements [47; 97]) = Some 2).
    { change (blocks (tree_fs F)) with (tree_blocks F). rewrite tree_view. vm_compute. reflexivity. }
    rewrite ER in H. destruct H as (ip & x & -> & Hx & Hn & Ho). exists ip, x, s'.
    split; [exact E|]. split; [exact Hx|]. split; [exact Hn | exact Ho].
Defined.
