(* ===== verification/Virtio.v ===== *)
(** * The disk driver (kernel/virtio_disk.c, kernel/virtio.h)

    The descriptors and rings shared with the device, the requests in flight and the
    interrupt handler.  [vdisk_lock] makes what a process does between two sleeps one
    step: [rw_start] up to the wait for the request, [rw_end] from there to the
    return.  A pointer is what it points to.  The field [reserved] of a request, always
    0, and the register written to notify the device are left out. *)

From stdpp Require Import base numbers list strings.
From S2P Require Import Prelude Layout Bio.
Local Open Scope Z_scope.

Definition NUM : Z := 8.
Definition VRING_DESC_F_NEXT : Z := 1.
Definition VRING_DESC_F_WRITE : Z := 2.
Definition VIRTIO_BLK_T_IN : Z := 0.
Definition VIRTIO_BLK_T_OUT : Z := 1.
Definition sizeof_blk_req : Z := 16.

(** ** State *)

(** The addresses in descriptors: [&disk.ops[i]], [b->data], [&disk.info[i].status]. *)
Inductive vptr : Type := PNull | POps (i : Z) | PData (b : nat) | PStatus (i : Z).

#[global] Instance vptr_eq_dec : EqDecision vptr.
Proof. solve_decision. Defined.

Record virtq_desc : Type := Desc { d_addr : vptr; d_len : Z; d_flags : Z; d_next : Z }.

(** What processes sleep on: [&disk.free[0]] or a buffer. *)
Inductive vchan : Type := ChFree | ChBuf (b : nat).

(** [struct disk], the fields of [struct buf] the driver uses, the calls of [wakeup]
    so far; and the device: the bytes of the disk, how far it has read the available
    ring and the requests it is working on. *)
Record vdisk : Type := VDisk {
  desc : Z → virtq_desc;
  avail_idx : Z;
  avail_ring : Z → Z;
  used_count : Z;
  used_ring : Z → Z;
  vfree : Z → bool;
  used_idx : Z;
  info_b : Z → option nat;
  info_status : Z → Z;
  op_type : Z → Z;
  op_sector : Z → Z;
  vb_disk : nat → Z;
  vb_block : nat → Z;
  vb_data : nat → bdata;
  wakeups : list vchan;
  dev_bytes : Z → Z;
  dev_next : Z;
  dev_busy : list Z;
}.

Definition set_desc (f : Z → virtq_desc) (s : vdisk) : vdisk :=
  VDisk f (avail_idx s) (avail_ring s) (used_count s) (used_ring s) (vfree s) (used_idx s) (info_b s) (info_status s)
    (op_type s) (op_sector s) (vb_disk s) (vb_block s) (vb_data s) (wakeups s) (dev_bytes s) (dev_next s) (dev_busy s).
Definition set_avail (i : Z) (r : Z → Z) (s : vdisk) : vdisk :=
  VDisk (desc s) i r (used_count s) (used_ring s) (vfree s) (used_idx s) (info_b s) (info_status s)
    (op_type s) (op_sector s) (vb_disk s) (vb_block s) (vb_data s) (wakeups s) (dev_bytes s) (dev_next s) (dev_busy s).
Definition set_vfree (f : Z → bool) (s : vdisk) : vdisk :=
  VDisk (desc s) (avail_idx s) (avail_ring s) (used_count s) (used_ring s) f (used_idx s) (info_b s) (info_status s)
    (op_type s) (op_sector s) (vb_disk s) (vb_block s) (vb_data s) (wakeups s) (dev_bytes s) (dev_next s) (dev_busy s).
Definition set_used_idx (i : Z) (s : vdisk) : vdisk :=
  VDisk (desc s) (avail_idx s) (avail_ring s) (used_count s) (used_ring s) (vfree s) i (info_b s) (info_status s)
    (op_type s) (op_sector s) (vb_disk s) (vb_block s) (vb_data s) (wakeups s) (dev_bytes s) (dev_next s) (dev_busy s).
Definition set_info_b (f : Z → option nat) (s : vdisk) : vdisk :=
  VDisk (desc s) (avail_idx s) (avail_ring s) (used_count s) (used_ring s) (vfree s) (used_idx s) f (info_status s)
    (op_type s) (op_sector s) (vb_disk s) (vb_block s) (vb_data s) (wakeups s) (dev_bytes s) (dev_next s) (dev_busy s).
Definition set_info_status (f : Z → Z) (s : vdisk) : vdisk :=
  VDisk (desc s) (avail_idx s) (avail_ring s) (used_count s) (used_ring s) (vfree s) (used_idx s) (info_b s) f
    (op_type s) (op_sector s) (vb_disk s) (vb_block s) (vb_data s) (wakeups s) (dev_bytes s) (dev_next s) (dev_busy s).
Definition set_op (t sec : Z → Z) (s : vdisk) : vdisk :=
  VDisk (desc s) (avail_idx s) (avail_ring s) (used_count s) (used_ring s) (vfree s) (used_idx s) (info_b s) (info_status s)
    t sec (vb_disk s) (vb_block s) (vb_data s) (wakeups s) (dev_bytes s) (dev_next s) (dev_busy s).
Definition set_vb_disk (f : nat → Z) (s : vdisk) : vdisk :=
  VDisk (desc s) (avail_idx s) (avail_ring s) (used_count s) (used_ring s) (vfree s) (used_idx s) (info_b s) (info_status s)
    (op_type s) (op_sector s) f (vb_block s) (vb_data s) (wakeups s) (dev_bytes s) (dev_next s) (dev_busy s).
Definition vwakeup (c : vchan) (s : vdisk) : vdisk :=
  VDisk (desc s) (avail_idx s) (avail_ring s) (used_count s) (used_ring s) (vfree s) (used_idx s) (info_b s) (info_status s)
    (op_type s) (op_sector s) (vb_disk s) (vb_block s) (vb_data s) (wakeups s ++ [c]) (dev_bytes s) (dev_next s) (dev_busy s).

Definition bupd {A} (f : nat → A) (b : nat) (v : A) : nat → A := λ x, if decide (x = b) then v else f x.

(** ** Descriptors *)

(** The loop of [alloc_desc] from [i] on. *)
Fixpoint alloc_desc_loop (n : nat) (i : Z) : M vdisk Z :=
  match n with
  | O => mret (-1)
  | S n' =>
      fr ← gets (λ s, vfree s i);
      if (fr : bool) then modify (λ s, set_vfree (upd (vfree s) i false) s);; mret i
      else alloc_desc_loop n' (i + 1)
  end.
Definition alloc_desc : M vdisk Z := alloc_desc_loop (Z.to_nat NUM) 0.

Definition free_desc (i : Z) : M vdisk unit :=
  if NUM <=? i then panic "free_desc 1"
  else
    fr ← gets (λ s, vfree s i);
    if (fr : bool) then panic "free_desc 2"
    else
      modify (λ s, set_desc (upd (desc s) i (Desc PNull 0 0 0)) s);;
      modify (λ s, set_vfree (upd (vfree s) i true) s);;
      modify (vwakeup ChFree).

(** A chain has at most [NUM] descriptors. *)
Fixpoint free_chain_loop (fuel : nat) (i : Z) : M vdisk unit :=
  match fuel with
  | O => diverge
  | S f =>
      d ← gets (λ s, desc s i);
      free_desc i;;
      if nonzero (Z.land (d_flags d) VRING_DESC_F_NEXT) then free_chain_loop f (d_next d) else mret tt
  end.
Definition free_chain (i : Z) : M vdisk unit := free_chain_loop (Z.to_nat NUM) i.

(** The descriptors allocated, or nothing. *)
Definition alloc3_desc : M vdisk (option (Z * Z * Z)) :=
  i0 ← alloc_desc;
  if i0 <? 0 then mret None
  else
    i1 ← alloc_desc;
    if i1 <? 0 then free_desc i0;; mret None
    else
      i2 ← alloc_desc;
      if i2 <? 0 then free_desc i0;; free_desc i1;; mret None
      else mret (Some (i0, i1, i2)).

(** ** Requests *)

(** The descriptors of a request, and telling the device about it. *)
Definition format (b : nat) (write : bool) (i0 i1 i2 sector : Z) : M vdisk unit :=
  modify (λ s, set_op (upd (op_type s) i0 (if write then VIRTIO_BLK_T_OUT else VIRTIO_BLK_T_IN))
    (upd (op_sector s) i0 sector) s);;
  modify (λ s, set_desc (upd (desc s) i0 (Desc (POps i0) sizeof_blk_req VRING_DESC_F_NEXT i1)) s);;
  modify (λ s, set_desc (upd (desc s) i1
    (Desc (PData b) BSIZE (Z.lor (if write then 0 else VRING_DESC_F_WRITE) VRING_DESC_F_NEXT) i2)) s);;
  modify (λ s, set_info_status (upd (info_status s) i0 0xff) s);;
  modify (λ s, set_desc (upd (desc s) i2 (Desc (PStatus i0) 1 VRING_DESC_F_WRITE 0)) s);;
  modify (λ s, set_vb_disk (bupd (vb_disk s) b 1) s);;
  modify (λ s, set_info_b (upd (info_b s) i0 (Some b)) s).

Definition publish (i0 : Z) : M vdisk unit :=
  modify (λ s, set_avail (avail_idx s) (upd (avail_ring s) (avail_idx s mod NUM) i0) s);;
  modify (λ s, set_avail (u16 (avail_idx s + 1)) (avail_ring s) s).

(** [virtio_disk_rw] up to the wait for the request; nothing, if it sleeps because
    there are no descriptors. *)
Definition rw_start (b : nat) (write : bool) : M vdisk (option (Z * Z * Z)) :=
  blockno ← gets (λ s, vb_block s b);
  let sector := u32 (blockno * (BSIZE / 512)) in
  r ← alloc3_desc;
  match r with
  | None => mret None
  | Some (i0, i1, i2) =>
      format b write i0 i1 i2 sector;;
      publish i0;;
      mret (Some (i0, i1, i2))
  end.

(** The wait and the rest: whether it returned. *)
Definition rw_end (b : nat) (i0 : Z) : M vdisk bool :=
  d ← gets (λ s, vb_disk s b);
  if d =? 1 then mret false
  else
    modify (λ s, set_info_b (upd (info_b s) i0 None) s);;
    free_chain i0;;
    mret true.

(** ** The interrupt handler *)

(** It stops when it has seen as many entries as the device has added. *)
Fixpoint intr_loop (fuel : nat) : M vdisk unit :=
  s ← gets id;
  if used_idx s =? used_count s then mret tt
  else
    match fuel with
    | O => diverge
    | S f =>
        let id := used_ring s (used_idx s mod NUM) in
        if nonzero (info_status s id) then panic "virtio_disk_intr status"
        else
          match info_b s id with
          | None => panic "fault"
          | Some b =>
              modify (λ s, set_vb_disk (bupd (vb_disk s) b 0) s);;
              modify (vwakeup (ChBuf b));;
              modify (λ s, set_used_idx (u16 (used_idx s + 1)) s);;
              intr_loop f
          end
    end.

Definition virtio_disk_intr : M vdisk unit :=
  s ← gets id;
  intr_loop (Z.to_nat (u16 (used_count s - used_idx s))).

(** ** Start-up *)

(** The features the driver turns off. *)
Definition features_off : list Z := [5; 7; 11; 12; 27; 29; 28].
Definition driver_features (f : Z) : Z := foldl (λ f n, Z.land f (Z.lnot (Z.shiftl 1 n))) f features_off.

(** [disk.free[i] = 1] for all descriptors; the pages of the queue are zeroed. *)
Definition init_queue (s : vdisk) : vdisk :=
  VDisk (λ _, Desc PNull 0 0 0) 0 (λ _, 0) 0 (λ _, 0) (λ i, ((0 <=? i) && (i <? NUM)) || vfree s i) (used_idx s)
    (info_b s) (info_status s) (op_type s) (op_sector s) (vb_disk s) (vb_block s) (vb_data s) (wakeups s)
    (dev_bytes s) (dev_next s) (dev_busy s).
