(* ===== verification/VirtioSpec.v ===== *)
(** * Requests to the disk (kernel/virtio_disk.c)

    However processes start and end requests, the device works on them and
    interrupts: every request is carried out as asked, the descriptors of different
    requests do not mix, and the driver does not panic. *)

From stdpp Require Import base numbers list strings relations.
From S2P Require Import Prelude Layout Bio Virtio.
Local Open Scope Z_scope.

(** ** The device *)

(** A well-formed request: three descriptors, the second with a buffer. *)
Record chain (s : vdisk) (h : Z) (b : nat) (write : bool) (i1 i2 : Z) : Prop := Chain {
  ch_op : desc s h = Desc (POps h) sizeof_blk_req VRING_DESC_F_NEXT i1;
  ch_data : desc s i1 =
    Desc (PData b) BSIZE (Z.lor (if write then 0 else VRING_DESC_F_WRITE) VRING_DESC_F_NEXT) i2;
  ch_status : desc s i2 = Desc (PStatus h) 1 VRING_DESC_F_WRITE 0;
  ch_type : op_type s h = if write then VIRTIO_BLK_T_OUT else VIRTIO_BLK_T_IN;
}.

(** A block at a sector, in the bytes of the disk. *)
Definition sectors (bytes : Z → Z) (sector : Z) : bdata := λ o, bytes (512 * sector + o).
Definition put_sectors (bytes : Z → Z) (sector : Z) (d : bdata) : Z → Z := λ a,
  if (512 * sector <=? a) && (a <? 512 * sector + BSIZE) then d (a - 512 * sector) else bytes a.
Definition put_data (f : nat → bdata) (b : nat) (bytes : Z → Z) (sector : Z) : nat → bdata :=
  bupd f b (λ o, if (0 <=? o) && (o <? BSIZE) then bytes (512 * sector + o) else f b o).

(** The device takes the next request off the available ring. *)
Definition taken (s : vdisk) : vdisk :=
  VDisk (desc s) (avail_idx s) (avail_ring s) (used_count s) (used_ring s) (vfree s) (used_idx s) (info_b s) (info_status s)
    (op_type s) (op_sector s) (vb_disk s) (vb_block s) (vb_data s) (wakeups s) (dev_bytes s) (u16 (dev_next s + 1))
    (dev_busy s ++ [avail_ring s (dev_next s mod NUM)]).

(** It completes one it is working on: it moves the data, writes status 0 and adds
    the request to the used ring. *)
Definition completed (s : vdisk) (k : nat) (h : Z) (b : nat) (write : bool) : vdisk :=
  VDisk (desc s) (avail_idx s) (avail_ring s) (u16 (used_count s + 1)) (upd (used_ring s) (used_count s mod NUM) h) (vfree s)
    (used_idx s) (info_b s) (upd (info_status s) h 0) (op_type s) (op_sector s) (vb_disk s) (vb_block s)
    (if write then vb_data s else put_data (vb_data s) b (dev_bytes s) (op_sector s h)) (wakeups s)
    (if write then put_sectors (dev_bytes s) (op_sector s h) (vb_data s b) else dev_bytes s)
    (dev_next s) (delete k (dev_busy s)).

(** Other processes use their buffers. *)
Definition set_bufs (block : nat → Z) (data : nat → bdata) (s : vdisk) : vdisk :=
  VDisk (desc s) (avail_idx s) (avail_ring s) (used_count s) (used_ring s) (vfree s) (used_idx s) (info_b s) (info_status s)
    (op_type s) (op_sector s) (vb_disk s) block data (wakeups s) (dev_bytes s) (dev_next s) (dev_busy s).

(** ** The system *)

(** A process inside [virtio_disk_rw]: its buffer, the direction, its [idx[3]], and
    the block it writes or is to read. *)
Record req : Type := Req { rq_b : nat; rq_write : bool; rq_0 : Z; rq_1 : Z; rq_2 : Z; rq_want : bdata }.
Record vsys : Type := VSys { vd : vdisk; reqs : list req }.

Definition idxs (t : req) : list Z := [rq_0 t; rq_1 t; rq_2 t].

Section System.
(** The device, as far as virtio 1.1 describes it: as long as what it is given are
    well-formed requests, it takes them in order and completes them in any order. *)
Context (dstep : vdisk → vdisk → Prop).
Definition device_ok : Prop := ∀ s s', dstep s s' →
  (∀ h, h ∈ dev_busy s → ∃ b write i1 i2, chain s h b write i1 i2) →
  (dev_next s ≠ avail_idx s ∧ s' = taken s) ∨
  ∃ k h b write i1 i2, dev_busy s !! k = Some h ∧ chain s h b write i1 i2 ∧ s' = completed s k h b write.

(** What a request is about: the data to write, or the block to read. *)
Definition wanted (s : vdisk) (b : nat) (write : bool) : bdata := λ o,
  if write then vb_data s b o else dev_bytes s (BSIZE * vb_block s b + o).

(** A buffer is given to the driver by the process that holds its lock, and the
    buffers of the cache are of different blocks. *)
Definition may_start (s : vsys) (b : nat) : Prop :=
  0 ≤ vb_block (vd s) b < 2 ^ 31 ∧
  ∀ t, t ∈ reqs s → rq_b t ≠ b ∧ vb_block (vd s) (rq_b t) ≠ vb_block (vd s) b.

Inductive vstep (s : vsys) : vsys → Prop :=
| vs_start b write i0 i1 i2 d :
    may_start s b → rw_start b write (vd s) = Ret (Some (i0, i1, i2), d) →
    vstep s (VSys d (reqs s ++ [Req b write i0 i1 i2 (wanted (vd s) b write)]))
| vs_full b write d :
    may_start s b → rw_start b write (vd s) = Ret (None, d) → vstep s (VSys d (reqs s))
| vs_device d : dstep (vd s) d → vstep s (VSys d (reqs s))
| vs_intr d : virtio_disk_intr (vd s) = Ret (tt, d) → vstep s (VSys d (reqs s))
| vs_client block data :
    (∀ t, t ∈ reqs s → block (rq_b t) = vb_block (vd s) (rq_b t) ∧ data (rq_b t) = vb_data (vd s) (rq_b t)) →
    vstep s (VSys (set_bufs block data (vd s)) (reqs s))
| vs_end k t d :
    reqs s !! k = Some t → rw_end (rq_b t) (rq_0 t) (vd s) = Ret (true, d) → vstep s (VSys d (delete k (reqs s))).

(** ** The invariant *)

(** Entries [start ..] of a ring. *)
Definition window (ring : Z → Z) (start : Z) (l : list Z) : Prop :=
  ∀ k h, l !! k = Some h → ring ((start + Z.of_nat k) mod NUM) = h.

(** The request has been carried out. *)
Definition moved (s : vdisk) (t : req) : Prop :=
  ∀ o, 0 ≤ o < BSIZE → dev_bytes s (BSIZE * vb_block s (rq_b t) + o) = vb_data s (rq_b t) o.

Record req_ok (s : vdisk) (t : req) : Prop := ReqOk {
  ro_chain : chain s (rq_0 t) (rq_b t) (rq_write t) (rq_1 t) (rq_2 t);
  ro_sector : op_sector s (rq_0 t) = 2 * vb_block s (rq_b t);
  ro_block : 0 ≤ vb_block s (rq_b t) < 2 ^ 31;
  ro_info : info_b s (rq_0 t) = Some (rq_b t);
}.

(** [A] is on the available ring, [U] on the used ring, both in order. *)
Record vinv (s : vdisk) (ts : list req) (A U : list Z) : Prop := VInv {
  vi_distinct : NoDup (concat (idxs <$> ts));
  vi_free : ∀ i, 0 ≤ i < NUM → vfree s i = true ↔ i ∉ concat (idxs <$> ts);
  vi_range : Forall (λ i, 0 ≤ i < NUM) (concat (idxs <$> ts));
  vi_reqs : Forall (req_ok s) ts;
  vi_bufs : NoDup (rq_b <$> ts);
  vi_blocks : ∀ t t', t ∈ ts → t' ∈ ts → vb_block s (rq_b t) = vb_block s (rq_b t') → t = t';
  vi_avail : window (avail_ring s) (dev_next s) A ∧ avail_idx s = u16 (dev_next s + Z.of_nat (length A));
  vi_used : window (used_ring s) (used_idx s) U ∧ used_count s = u16 (used_idx s + Z.of_nat (length U));
  vi_work : NoDup (A ++ dev_busy s ++ U);
  vi_heads : ∀ h, h ∈ A ++ dev_busy s ++ U → ∃ t, t ∈ ts ∧ rq_0 t = h;
  vi_flag : ∀ t, t ∈ ts → vb_disk s (rq_b t) = if decide (rq_0 t ∈ A ++ dev_busy s ++ U) then 1 else 0;
  vi_done : ∀ t, t ∈ ts → rq_0 t ∉ A ++ dev_busy s → info_status s (rq_0 t) = 0 ∧ moved s t;
  vi_kept : ∀ t, t ∈ ts → ∀ o, 0 ≤ o < BSIZE → wanted s (rq_b t) (rq_write t) o = rq_want t o;
  vi_counts : (0 ≤ dev_next s < 2 ^ 16) ∧ (0 ≤ used_idx s < 2 ^ 16);
}.

(** ** Generic facts *)

Lemma concat_perm (ts ts' : list req) : ts ≡ₚ ts' → concat (idxs <$> ts) ≡ₚ concat (idxs <$> ts').
Proof.
  induction 1 as [|t ts ts' _ IH|t t' ts|ts1 ts2 ts3 _ IH1 _ IH2]; [done|..].
  - rewrite !fmap_cons. simpl. by rewrite IH.
  - rewrite !fmap_cons. cbn [concat]. rewrite !(assoc_L app). f_equiv. apply Permutation_app_comm.
  - by rewrite IH1.
Qed.

Lemma vinv_perm s ts ts' A U : ts ≡ₚ ts' → vinv s ts A U → vinv s ts' A U.
Proof.
  intros P [V1 V2 V3 V4 V5 V6 V7 V8 V9 V10 V11 V12 V13 V14]. pose proof (concat_perm _ _ P) as Pc.
  split; try done.
  - by rewrite <- Pc.
  - intros i Hi. rewrite V2 by done. by rewrite Pc.
  - by rewrite <- Pc.
  - by rewrite <- P.
  - by rewrite <- P.
  - intros t t'. rewrite <- P. apply V6.
  - intros h Hh. destruct (V10 h Hh) as (t & Ht & E). exists t. by rewrite <- P.
  - intros t. rewrite <- P. apply V11.
  - intros t. rewrite <- P. apply V12.
  - intros t. rewrite <- P. apply V13.
Qed.

(** There are at most two requests. *)
Lemma few_idxs l : NoDup l → Forall (λ i, 0 ≤ i < NUM) l → (length l <= 8)%nat.
Proof.
  intros N F. assert (H : l ⊆+ seqZ 0 8).
  { apply NoDup_submseteq; [done|]. intros x Hx. rewrite Forall_forall in F. apply elem_of_seqZ. specialize (F x Hx).
    unfold NUM in F. lia. }
  apply submseteq_length in H. by rewrite length_seqZ in H.
Qed.

Lemma length_idxs ts : length (concat (idxs <$> ts)) = (3 * length ts)%nat.
Proof. induction ts as [|t ts IH]; [done|]. rewrite fmap_cons. cbn [concat]. rewrite length_app, IH. simpl. lia. Qed.

Lemma few_work s ts A U : vinv s ts A U → (length ts <= 2)%nat ∧ (length (A ++ dev_busy s ++ U) <= 2)%nat.
Proof.
  intros V. pose proof (few_idxs _ (vi_distinct _ _ _ _ V) (vi_range _ _ _ _ V)) as H. rewrite length_idxs in H.
  assert (L : (length ts <= 2)%nat) by lia. split; [done|].
  assert (P : A ++ dev_busy s ++ U ⊆+ rq_0 <$> ts).
  { apply NoDup_submseteq; [apply V|]. intros h Hh. destruct (vi_heads _ _ _ _ V h Hh) as (t & Ht & <-).
    apply list_elem_of_fmap. by exists t. }
  apply submseteq_length in P. rewrite length_fmap in P. lia.
Qed.

(** Descriptors of different requests differ. *)
Lemma idxs_in t ts i : t ∈ ts → i ∈ idxs t → i ∈ concat (idxs <$> ts).
Proof.
  intros Ht Hi. induction ts as [|x ts IH]; [by apply elem_of_nil in Ht|]. rewrite fmap_cons. cbn [concat].
  apply elem_of_app. apply elem_of_cons in Ht as [->|Ht]; [by left | right; by apply IH].
Qed.

Lemma head_inj ts t t' : NoDup (concat (idxs <$> ts)) → t ∈ ts → t' ∈ ts → rq_0 t = rq_0 t' → t = t'.
Proof.
  induction ts as [|x ts IH]; [by intros _ ?%elem_of_nil|]. rewrite fmap_cons. cbn [concat].
  intros (N1 & N2 & N3)%NoDup_app. rewrite !elem_of_cons. intros [->|Ht] [->|Ht'] E; [done|..|by apply IH].
  - exfalso. apply (N2 (rq_0 x)); [by left|]. rewrite E. apply (idxs_in t'); [done | by left].
  - exfalso. apply (N2 (rq_0 x)); [by left|]. rewrite <- E. apply (idxs_in t); [done | by left].
Qed.

(** ** Descriptors *)

Lemma alloc_loop_run n i s :
  (∃ j, i ≤ j < i + Z.of_nat n ∧ vfree s j = true ∧
    alloc_desc_loop n i s = Ret (j, set_vfree (upd (vfree s) j false) s)) ∨
  alloc_desc_loop n i s = Ret (-1, s) ∧ ∀ j, i ≤ j < i + Z.of_nat n → vfree s j = false.
Proof.
  revert i. induction n as [|n IH]; intros i; [right; split; [done | lia]|]. cbn [alloc_desc_loop]. unfold gets, mbind, M_bind.
  destruct (vfree s i) eqn:E.
  - left. exists i. split; [lia|]. by split.
  - destruct (IH (i + 1)) as [(j & Hj & Hf & H)|[H N]]; [left | right].
    + exists j. split; [lia|]. by split.
    + split; [done|]. intros j Hj. destruct (decide (j = i)) as [->|]; [done | apply N; lia].
Qed.

Lemma alloc_desc_run s :
  (∃ j, 0 ≤ j < NUM ∧ vfree s j = true ∧ alloc_desc s = Ret (j, set_vfree (upd (vfree s) j false) s)) ∨
  alloc_desc s = Ret (-1, s) ∧ ∀ j, 0 ≤ j < NUM → vfree s j = false.
Proof. exact (alloc_loop_run (Z.to_nat NUM) 0 s). Qed.

(** A descriptor given back. *)
Definition freed (i : Z) (s : vdisk) : vdisk :=
  vwakeup ChFree (set_vfree (upd (vfree s) i true) (set_desc (upd (desc s) i (Desc PNull 0 0 0)) s)).

Lemma free_desc_run s i : i < NUM → vfree s i = false → free_desc i s = Ret (tt, freed i s).
Proof.
  intros Hi Hf. unfold free_desc. rewrite (proj2 (Z.leb_gt _ _)) by done. unfold gets, mbind, M_bind. by rewrite Hf.
Qed.

(** There are at most two free descriptors. *)
Definition few_free (s : vdisk) : Prop := ∃ l, (length l <= 2)%nat ∧ ∀ j, 0 ≤ j < NUM → vfree s j = true → j ∈ l.

(** The same but for descriptors that are free. *)
Definition idle_same (s s' : vdisk) : Prop :=
  ∃ d f w, s' = VDisk d (avail_idx s) (avail_ring s) (used_count s) (used_ring s) f (used_idx s) (info_b s) (info_status s)
      (op_type s) (op_sector s) (vb_disk s) (vb_block s) (vb_data s) w (dev_bytes s) (dev_next s) (dev_busy s) ∧
    (∀ i, vfree s i = false → d i = desc s i) ∧ ∀ i, f i = vfree s i.

Lemma bind_run {T A B} (m : M T A) (f : A → M T B) s a s1 r : m s = Ret (a, s1) → f a s1 = r → (m ≫= f) s = r.
Proof. unfold mbind, M_bind. by intros -> ->. Qed.

Lemma alloc3_run s :
  (∃ i0 i1 i2, (i1 ≠ i0 ∧ i2 ≠ i0 ∧ i2 ≠ i1) ∧ (∀ i, i ∈ [i0; i1; i2] → 0 ≤ i < NUM ∧ vfree s i = true) ∧
    alloc3_desc s = Ret (Some (i0, i1, i2), set_vfree (upd (upd (upd (vfree s) i0 false) i1 false) i2 false) s)) ∨
  ∃ s', alloc3_desc s = Ret (None, s') ∧ idle_same s s' ∧ few_free s.
Proof.
  unfold alloc3_desc. destruct (alloc_desc_run s) as [(i0 & R0 & F0 & E0)|[E0 N0]].
  2: { right. exists s. split; [by eapply bind_run|]. split.
       - exists (desc s), (vfree s), (wakeups s). split; [by destruct s | by split].
       - exists []. split; [simpl; lia|]. intros j Hj. by rewrite N0. }
  set (s1 := set_vfree (upd (vfree s) i0 false) s) in *.
  assert (P0 : (i0 <? 0) = false) by (apply Z.ltb_ge; lia).
  destruct (alloc_desc_run s1) as [(i1 & R1 & F1 & E1)|[E1 N1]].
  2: { right. exists (freed i0 s1). split; [|split].
       - eapply bind_run; [exact E0|]. rewrite P0. eapply bind_run; [exact E1|]. eapply bind_run; [|done].
         apply free_desc_run; [lia | apply upd_eq].
       - eexists _, _, _. split; [reflexivity|]. split; intros i; unfold s1; simpl; unfold upd.
         + intros Hi. destruct (Z.eqb_spec i i0) as [->|]; [congruence | done].
         + destruct (Z.eqb_spec i i0) as [->|]; [congruence | done].
       - exists [i0]. split; [simpl; lia|]. intros j Hj Hf. specialize (N1 j Hj). unfold s1 in N1. simpl in N1. unfold upd in N1.
         destruct (Z.eqb_spec j i0) as [E|]; [rewrite E; by left | congruence]. }
  set (s2 := set_vfree (upd (vfree s1) i1 false) s1) in *.
  assert (P1 : (i1 <? 0) = false) by (apply Z.ltb_ge; lia).
  assert (D01 : i1 ≠ i0) by (intros ->; unfold s1 in F1; simpl in F1; rewrite upd_eq in F1; done).
  assert (F1' : vfree s i1 = true) by (unfold s1 in F1; simpl in F1; by rewrite upd_ne in F1).
  destruct (alloc_desc_run s2) as [(i2 & R2 & F2 & E2)|[E2 N2]].
  2: { right. exists (freed i1 (freed i0 s2)). split; [|split].
       - eapply bind_run; [exact E0|]. rewrite P0. eapply bind_run; [exact E1|]. rewrite P1.
         eapply bind_run; [exact E2|]. eapply bind_run; [apply free_desc_run; [lia|]; simpl; unfold upd; rewrite Z.eqb_refl; by destruct (_ =? _)|].
         eapply bind_run; [|done]. apply free_desc_run; [lia|]. simpl. rewrite upd_ne, upd_eq by done. done.
       - eexists _, _, _. split; [reflexivity|]. split; intros i; unfold s2, s1; simpl; unfold upd.
         + intros Hi. destruct (Z.eqb_spec i i1) as [->|]; [congruence|]. destruct (Z.eqb_spec i i0) as [->|]; [congruence | done].
         + destruct (Z.eqb_spec i i1) as [->|]; [done|]. destruct (Z.eqb_spec i i0) as [->|]; [congruence | done].
       - exists [i0; i1]. split; [simpl; lia|]. intros j Hj Hf. specialize (N2 j Hj). unfold s2, s1 in N2. simpl in N2. unfold upd in N2.
         destruct (Z.eqb_spec j i1) as [E|]; [rewrite E; right; by left|]. destruct (Z.eqb_spec j i0) as [E|]; [rewrite E; by left | congruence]. }
  assert (P2 : (i2 <? 0) = false) by (apply Z.ltb_ge; lia).
  unfold s2, s1 in F2. simpl in F2. unfold upd in F2. destruct (Z.eqb_spec i2 i1) as [|D12]; [done|].
  destruct (Z.eqb_spec i2 i0) as [|D02]; [done|]. left. exists i0, i1, i2. split; [|split].
  - done.
  - intros i. rewrite !elem_of_cons, elem_of_nil. intros [->|[->|[->|[]]]]; done.
  - eapply bind_run; [exact E0|]. rewrite P0. eapply bind_run; [exact E1|]. rewrite P1. eapply bind_run; [exact E2|]. by rewrite P2.
Qed.

Lemma not_free s ts A U i : vinv s ts A U → i ∈ concat (idxs <$> ts) → vfree s i = false.
Proof.
  intros V Hi. destruct (vfree s i) eqn:E; [|done]. pose proof (vi_range _ _ _ _ V) as R. rewrite Forall_forall in R.
  by apply (vi_free _ _ _ _ V i (R i Hi)) in E.
Qed.

(** Requests only depend on their own descriptors. *)
Lemma req_ok_same s s' t : (∀ i, i ∈ idxs t → desc s' i = desc s i) → op_type s' (rq_0 t) = op_type s (rq_0 t) →
  op_sector s' (rq_0 t) = op_sector s (rq_0 t) → vb_block s' (rq_b t) = vb_block s (rq_b t) →
  info_b s' (rq_0 t) = info_b s (rq_0 t) → req_ok s t → req_ok s' t.
Proof.
  intros Hd Ht Hs Hb Hi [[C1 C2 C3 C4] R2 R3 R4]. split; [split|..]; rewrite ?Ht, ?Hs, ?Hb, ?Hi; try done.
  - rewrite Hd; [done | by left].
  - rewrite Hd; [done | right; by left].
  - rewrite Hd; [done | right; right; by left].
Qed.

Lemma vinv_idle s s' ts A U : idle_same s s' → vinv s ts A U → vinv s' ts A U.
Proof.
  intros (d & f & w & -> & Hd & Hf) V. pose proof V as [V1 V2 V3 V4 V5 V6 V7 V8 V9 V10 V11 V12 V13 V14]. split; simpl; try done.
  - intros i Hi. rewrite Hf. by apply V2.
  - apply Forall_forall. intros t Ht. rewrite Forall_forall in V4. eapply (req_ok_same s); try done; [|by apply V4].
    intros i Hi. apply Hd. apply (not_free s ts A U i V). by eapply idxs_in.
Qed.

(** ** Starting a request *)

Definition data_desc (b : nat) (write : bool) (i2 : Z) : virtq_desc :=
  Desc (PData b) BSIZE (Z.lor (if write then 0 else VRING_DESC_F_WRITE) VRING_DESC_F_NEXT) i2.

Definition started (s : vdisk) (b : nat) (write : bool) (i0 i1 i2 : Z) : vdisk :=
  VDisk (upd (upd (upd (desc s) i0 (Desc (POps i0) sizeof_blk_req VRING_DESC_F_NEXT i1)) i1 (data_desc b write i2)) i2
      (Desc (PStatus i0) 1 VRING_DESC_F_WRITE 0))
    (u16 (avail_idx s + 1)) (upd (avail_ring s) (avail_idx s mod NUM) i0) (used_count s) (used_ring s)
    (upd (upd (upd (vfree s) i0 false) i1 false) i2 false) (used_idx s) (upd (info_b s) i0 (Some b))
    (upd (info_status s) i0 0xff) (upd (op_type s) i0 (if write then VIRTIO_BLK_T_OUT else VIRTIO_BLK_T_IN))
    (upd (op_sector s) i0 (u32 (vb_block s b * (BSIZE / 512)))) (bupd (vb_disk s) b 1) (vb_block s) (vb_data s) (wakeups s)
    (dev_bytes s) (dev_next s) (dev_busy s).

Lemma rw_start_run b write s :
  (∃ i0 i1 i2, (i1 ≠ i0 ∧ i2 ≠ i0 ∧ i2 ≠ i1) ∧ (∀ i, i ∈ [i0; i1; i2] → 0 ≤ i < NUM ∧ vfree s i = true) ∧
    rw_start b write s = Ret (Some (i0, i1, i2), started s b write i0 i1 i2)) ∨
  ∃ s', rw_start b write s = Ret (None, s') ∧ idle_same s s' ∧ few_free s.
Proof.
  unfold rw_start. destruct (alloc3_run s) as [(i0 & i1 & i2 & D & F & E)|(s' & E & H)].
  - left. exists i0, i1, i2. split; [done|]. split; [done|]. eapply bind_run; [reflexivity|]. by eapply bind_run.
  - right. exists s'. split; [|done]. eapply bind_run; [reflexivity|]. by eapply bind_run.
Qed.

Lemma head_in t ts : t ∈ ts → rq_0 t ∈ concat (idxs <$> ts).
Proof. intros H. apply (idxs_in t); [done | by left]. Qed.

(** A new entry on the available ring. *)
Lemma window_snoc ring start l h idx : (length l < 8)%nat → idx mod NUM = (start + Z.of_nat (length l)) mod NUM →
  window ring start l → window (upd ring (idx mod NUM) h) start (l ++ [h]).
Proof.
  intros Hl Hi W k x Hk. destruct (decide (k < length l)%nat) as [Hlt|Hge].
  - rewrite lookup_app_l in Hk by done. rewrite upd_ne; [by apply W|]. rewrite Hi. unfold NUM. lia.
  - rewrite lookup_app_r in Hk by lia. destruct (k - length l)%nat as [|n] eqn:E; [|done]. simpl in Hk. injection Hk as <-.
    replace k with (length l) by lia. rewrite <- Hi. apply upd_eq.
Qed.

Lemma in_0 (i0 i1 i2 : Z) : i0 ∈ [i0; i1; i2].
Proof. by left. Qed.
Lemma in_1 (i0 i1 i2 : Z) : i1 ∈ [i0; i1; i2].
Proof. right. by left. Qed.
Lemma in_2 (i0 i1 i2 : Z) : i2 ∈ [i0; i1; i2].
Proof. right. right. by left. Qed.

Section Start.
Context (s : vdisk) (ts : list req) (A U : list Z) (V : vinv s ts A U) (b : nat) (write : bool) (i0 i1 i2 : Z).
Context (D : i1 ≠ i0 ∧ i2 ≠ i0 ∧ i2 ≠ i1) (F : ∀ i, i ∈ [i0; i1; i2] → 0 ≤ i < NUM ∧ vfree s i = true).
Context (Hb : 0 ≤ vb_block s b < 2 ^ 31) (Hn : ∀ t, t ∈ ts → rq_b t ≠ b ∧ vb_block s (rq_b t) ≠ vb_block s b).

Lemma start_new i : i ∈ [i0; i1; i2] → i ∉ concat (idxs <$> ts).
Proof. intros Hi. destruct (F i Hi) as [R Hf]. by apply (vi_free _ _ _ _ V i R). Qed.

Lemma start_old t i : t ∈ ts → i ∈ idxs t → i ≠ i0 ∧ i ≠ i1 ∧ i ≠ i2.
Proof.
  intros Ht Hi. pose proof (idxs_in t ts i Ht Hi) as Hc. split; [|split]; intros ->; refine (start_new _ _ Hc); eauto using in_0, in_1, in_2.
Qed.

Lemma start_work : i0 ∉ A ++ dev_busy s ++ U.
Proof.
  intros H. destruct (vi_heads _ _ _ _ V i0 H) as (t & Ht & E). apply (start_new i0); [by left|]. rewrite <- E. by apply head_in.
Qed.

Lemma start_perm : (A ++ [i0]) ++ dev_busy s ++ U ≡ₚ i0 :: A ++ dev_busy s ++ U.
Proof. rewrite <- (assoc_L app). symmetry. apply Permutation_middle. Qed.

Lemma start_reqs : Forall (req_ok (started s b write i0 i1 i2)) (Req b write i0 i1 i2 (wanted s b write) :: ts).
Proof.
  destruct D as (D1 & D2 & D3). constructor.
  - split; [split|..]; simpl.
    + rewrite !upd_ne by done. by rewrite upd_eq.
    + rewrite upd_ne by done. by rewrite upd_eq.
    + by rewrite upd_eq.
    + by rewrite upd_eq.
    + rewrite upd_eq. unfold BSIZE. change (1024 / 512) with 2. unfold u32. lia.
    + done.
    + by rewrite upd_eq.
  - apply Forall_forall. intros t Ht. pose proof (vi_reqs _ _ _ _ V) as R. rewrite Forall_forall in R.
    destruct (start_old t (rq_0 t) Ht ltac:(by left)) as (H0 & _).
    apply (req_ok_same s); simpl; rewrite ?upd_ne by done; try done; [|by apply R].
    intros i Hi. destruct (start_old t i Ht Hi) as (N0 & N1 & N2). by rewrite !upd_ne.
Qed.

Lemma start_inv : vinv (started s b write i0 i1 i2) (Req b write i0 i1 i2 (wanted s b write) :: ts) (A ++ [i0]) U.
Proof.
  pose proof V as [V1 V2 V3 V4 V5 V6 [V7 V7'] V8 V9 V10 V11 V12 V13 V14]. destruct (few_work _ _ _ _ V) as [_ L]. rewrite length_app in L.
  destruct D as (D1 & D2 & D3). split; simpl; try done.
  - pose proof (start_new _ (in_0 i0 i1 i2)). pose proof (start_new _ (in_1 i0 i1 i2)). pose proof (start_new _ (in_2 i0 i1 i2)).
    repeat apply NoDup_cons_2; try done; rewrite ?not_elem_of_cons; done.
  - intros i Hi. rewrite !not_elem_of_cons. unfold upd.
    destruct (Z.eqb_spec i i2); [by split; [|intros (_ & _ & ? & _)]|].
    destruct (Z.eqb_spec i i1); [by split; [|intros (_ & ? & _)]|].
    destruct (Z.eqb_spec i i0); [by split; [|intros (? & _)]|]. rewrite V2 by done. split; [done | by intros (_ & _ & _ & ?)].
  - repeat apply Forall_cons_2; try apply F; eauto using in_0, in_1, in_2.
  - apply start_reqs.
  - apply NoDup_cons_2; [|done]. intros H. apply list_elem_of_fmap in H as (t & E & Ht). destruct (Hn t Ht). congruence.
  - intros t t'. rewrite !elem_of_cons. intros [->|Ht] [->|Ht'] E; simpl in E; [done|..|by apply V6].
    + destruct (Hn t' Ht'). congruence.
    + destruct (Hn t Ht). congruence.
  - split.
    + apply window_snoc; [lia | | done]. rewrite V7'. unfold u16, NUM. lia.
    + rewrite length_app, V7'. simpl. unfold u16. lia.
  - rewrite start_perm. apply NoDup_cons_2; [apply start_work | done].
  - intros h. rewrite start_perm, elem_of_cons. intros [->|Hh].
    + eexists. split; [by left | done].
    + destruct (V10 h Hh) as (t & Ht & E). exists t. split; [by right | done].
  - intros t. rewrite elem_of_cons. unfold bupd. intros [->|Ht]; simpl.
    + rewrite decide_True by done. rewrite decide_True; [done|]. rewrite start_perm. by left.
    + destruct (Hn t Ht) as [Hb' _]. rewrite decide_False by done. rewrite V11 by done.
      destruct (start_old t (rq_0 t) Ht ltac:(by left)) as (H0 & _). apply decide_ext. rewrite start_perm, elem_of_cons. tauto.
  - intros t. rewrite elem_of_cons. intros [->|Ht] Hn'; simpl in *.
    + exfalso. apply Hn'. rewrite !elem_of_app, elem_of_cons. tauto.
    + destruct (start_old t (rq_0 t) Ht ltac:(by left)) as (H0 & _). rewrite upd_ne by done. apply V12; [done|].
      intros H. apply Hn'. rewrite !elem_of_app in *. tauto.
  - intros t. rewrite elem_of_cons. intros [->|Ht]; [done | by apply V13].
Qed.
End Start.

(** ** The device at work *)

(** Chains of the same head are the same request. *)
Lemma chain_det s h b write i1 i2 b' write' i1' i2' :
  chain s h b write i1 i2 → chain s h b' write' i1' i2' → b' = b ∧ write' = write.
Proof.
  intros [A1 A2 A3 A4] [B1 B2 B3 B4]. rewrite A1 in B1. injection B1 as <-. rewrite A2 in B2. injection B2 as <- _ _.
  split; [done|]. rewrite A4 in B4. by destruct write, write'.
Qed.

Lemma busy_req s ts A U h : vinv s ts A U → h ∈ A ++ dev_busy s ++ U → ∃ t, t ∈ ts ∧ rq_0 t = h ∧ req_ok s t.
Proof.
  intros V H. destruct (vi_heads _ _ _ _ V h H) as (t & Ht & E). exists t. split; [done|]. split; [done|].
  pose proof (vi_reqs _ _ _ _ V) as R. rewrite Forall_forall in R. by apply R.
Qed.

Lemma taken_inv s ts A U : vinv s ts A U → dev_next s ≠ avail_idx s → ∃ A', vinv (taken s) ts A' U.
Proof.
  intros V Hne. destruct (few_work _ _ _ _ V) as [_ L]. rewrite length_app in L.
  destruct V as [V1 V2 V3 V4 V5 V6 [V7 V7'] V8 V9 V10 V11 V12 V13 V14]. destruct A as [|h A'].
  { exfalso. apply Hne. rewrite V7'. simpl. unfold u16. lia. }
  assert (Eh : avail_ring s (dev_next s mod NUM) = h). { rewrite <- (V7 0%nat h eq_refl). f_equal. simpl. f_equal. lia. }
  assert (P : A' ++ (dev_busy s ++ [h]) ++ U ≡ₚ (h :: A') ++ dev_busy s ++ U) by (rewrite <- !(assoc_L app); solve_Permutation).
  exists A'. split; simpl; try done; rewrite ?Eh; try setoid_rewrite P; try done.
  - by eapply Forall_impl; [exact V4|]; intros t [[] ? ? ?].
  - split.
    + intros k x Hk. rewrite <- (V7 (Datatypes.S k) x Hk). f_equal. unfold u16, NUM. lia.
    + rewrite V7'. simpl. unfold u16. lia.
  - intros t Ht. rewrite V11 by done. apply decide_ext. by rewrite P.
  - intros t Ht Hn. apply V12; [done|]. intros H. apply Hn. rewrite !elem_of_app, ?elem_of_cons in *. tauto.
  - split; [|apply V14]. unfold u16. lia.
Qed.

Section Complete.
Context (s : vdisk) (ts : list req) (A U : list Z) (V : vinv s ts A U) (k : nat) (t : req).
Context (Hk : dev_busy s !! k = Some (rq_0 t)) (Ht : t ∈ ts) (R : req_ok s t).

Definition after : vdisk := completed s k (rq_0 t) (rq_b t) (rq_write t).

Lemma others t' : t' ∈ ts →
  t' = t ∨ rq_0 t' ≠ rq_0 t ∧ rq_b t' ≠ rq_b t ∧ vb_block s (rq_b t') ≠ vb_block s (rq_b t).
Proof.
  intros Ht'. destruct (decide (rq_0 t' = rq_0 t)) as [E|E]; [left; by apply (head_inj ts t' t (vi_distinct _ _ _ _ V))|].
  right. split; [done|]. split; intros E'; apply E; f_equal; apply (vi_blocks _ _ _ _ V); try done. by rewrite E'.
Qed.

Lemma complete_perm : A ++ delete k (dev_busy s) ++ U ++ [rq_0 t] ≡ₚ A ++ dev_busy s ++ U.
Proof. rewrite (delete_Permutation _ _ _ Hk) at 2. solve_Permutation. Qed.

Lemma complete_data b' : b' ≠ rq_b t → vb_data after b' = vb_data s b'.
Proof. intros H. unfold after, completed. simpl. destruct (rq_write t); [done|]. unfold put_data, bupd. by rewrite decide_False. Qed.

Lemma complete_bytes blk o : 0 ≤ o < BSIZE → blk ≠ vb_block s (rq_b t) → dev_bytes after (BSIZE * blk + o) = dev_bytes s (BSIZE * blk + o).
Proof.
  intros Ho Hb. unfold after, completed. simpl. destruct (rq_write t); [|done]. unfold put_sectors. rewrite (ro_sector _ _ R).
  destruct (_ && _) eqn:E; [|done]. apply andb_true_iff in E as [E1%Z.leb_le E2%Z.ltb_lt]. unfold BSIZE in *. lia.
Qed.

Lemma complete_moved : moved after t.
Proof.
  intros o Ho. pose proof (ro_sector _ _ R) as S2. unfold after, completed. simpl. destruct (rq_write t).
  - unfold put_sectors. rewrite S2, !(proj2 (Z.leb_le _ _)), !(proj2 (Z.ltb_lt _ _)) by (unfold BSIZE in *; lia). simpl. f_equal.
    unfold BSIZE. lia.
  - unfold put_data, bupd. rewrite decide_True by done. rewrite S2, !(proj2 (Z.leb_le _ _)), !(proj2 (Z.ltb_lt _ _)) by lia. simpl.
    f_equal. unfold BSIZE. lia.
Qed.

Lemma complete_kept t' o : t' ∈ ts → 0 ≤ o < BSIZE → wanted after (rq_b t') (rq_write t') o = rq_want t' o.
Proof.
  intros Ht' Ho. rewrite <- (vi_kept _ _ _ _ V t' Ht' o Ho). unfold wanted.
  change (vb_block after) with (vb_block s). destruct (others t' Ht') as [->|(H0 & Hb & Hk')].
  - unfold after, completed. simpl. by destruct (rq_write t).
  - destruct (rq_write t'); [by rewrite complete_data | by apply complete_bytes].
Qed.

Lemma complete_inv : vinv after ts A (U ++ [rq_0 t]).
Proof.
  destruct (few_work _ _ _ _ V) as [_ L]. rewrite !length_app in L.
  pose proof V as [V1 V2 V3 V4 V5 V6 V7 [V8 V8'] V9 V10 V11 V12 V13 V14]. split; try done.
  - by eapply Forall_impl; [exact V4|]; intros x [[] ? ? ?].
  - simpl. split.
    + apply window_snoc; [lia | | done]. rewrite V8'. unfold u16, NUM. lia.
    + rewrite length_app, V8'. simpl. unfold u16. lia.
  - simpl. by rewrite complete_perm.
  - intros h. simpl. rewrite complete_perm. apply V10.
  - intros t' Ht'. simpl. rewrite V11 by done. apply decide_ext. by rewrite complete_perm.
  - intros t' Ht' Hn. destruct (others t' Ht') as [->|(H0 & Hb & Hk')].
    + split; [simpl; by rewrite upd_eq | apply complete_moved].
    + destruct (V12 t' Ht') as [S0 Mv].
      * intros H. apply Hn. simpl. rewrite (delete_Permutation _ _ _ Hk) in H. rewrite !elem_of_app, elem_of_cons in *. tauto.
      * split; [simpl; by rewrite upd_ne|]. intros o Ho. rewrite complete_data by done. change (vb_block after) with (vb_block s).
        rewrite complete_bytes by done. by apply Mv.
  - intros t' Ht' o Ho. by apply complete_kept.
Qed.
End Complete.

Lemma device_inv s s' ts A U : device_ok → vinv s ts A U → dstep s s' →
  ∃ A' U', vinv s' ts A' U' ∧ vb_block s' = vb_block s ∧
    ∀ blk o, 0 ≤ o < BSIZE → (∀ t, t ∈ ts → rq_write t = true → vb_block s (rq_b t) ≠ blk) →
      dev_bytes s' (BSIZE * blk + o) = dev_bytes s (BSIZE * blk + o).
Proof.
  intros D V H. destruct (D s s' H) as [[Hne ->]|(k & h & b & write & i1 & i2 & Hk & C & ->)].
  - intros h Hh. destruct (busy_req s ts A U h V) as (t & _ & <- & [C _ _ _]); [rewrite !elem_of_app; tauto | by eexists _, _, _, _].
  - destruct (taken_inv s ts A U V Hne) as (A' & V'). by exists A', U.
  - destruct (busy_req s ts A U h V) as (t & Ht & <- & R); [rewrite !elem_of_app; right; left; by eapply list_elem_of_lookup_2|].
    destruct (chain_det _ _ _ _ _ _ _ _ _ _ (ro_chain _ _ R) C) as [-> ->]. exists A, (U ++ [rq_0 t]).
    split; [by apply complete_inv|]. split; [done|]. intros blk o Ho Hw. destruct (rq_write t) eqn:E.
    + rewrite <- E. apply complete_bytes; [done|done|]. intros ->. by apply (Hw t).
    + done.
Qed.

(** ** The interrupt handler *)

Definition seen (b : nat) (s : vdisk) : vdisk :=
  set_used_idx (u16 (used_idx s + 1)) (vwakeup (ChBuf b) (set_vb_disk (bupd (vb_disk s) b 0) s)).

Lemma seen_inv s ts A U t : vinv s ts A (rq_0 t :: U) → t ∈ ts → vinv (seen (rq_b t) s) ts A U.
Proof.
  intros V Ht. destruct (few_work _ _ _ _ V) as [_ L]. rewrite !length_app in L. simpl in L.
  pose proof (others s ts A _ V t Ht) as O.
  destruct V as [V1 V2 V3 V4 V5 V6 V7 [V8 V8'] V9 V10 V11 V12 V13 V14].
  assert (P : A ++ dev_busy s ++ rq_0 t :: U ≡ₚ rq_0 t :: A ++ dev_busy s ++ U) by solve_Permutation.
  rewrite P in V9. apply NoDup_cons in V9 as [V9' V9].
  split; simpl; try done.
  - by eapply Forall_impl; [exact V4|]; intros x [[] ? ? ?].
  - split.
    + intros k x Hk. rewrite <- (V8 (Datatypes.S k) x Hk). f_equal. unfold u16, NUM. lia.
    + rewrite V8'. simpl. unfold u16. lia.
  - intros h Hh. apply V10. rewrite P. by right.
  - intros t' Ht'. unfold bupd. destruct (O t' Ht') as [->|(H0 & Hb & _)].
    + rewrite decide_True by done. by rewrite decide_False.
    + rewrite decide_False by done. rewrite V11 by done. apply decide_ext. rewrite P, elem_of_cons. tauto.
  - split; [apply V14|]. unfold u16. lia.
Qed.

Lemma intr_run U s ts A : vinv s ts A U →
  ∃ s', intr_loop (length U) s = Ret (tt, s') ∧ vinv s' ts A [] ∧
    (vb_block s' = vb_block s ∧ dev_bytes s' = dev_bytes s ∧ dev_busy s' = dev_busy s ∧ ∃ l, wakeups s' = wakeups s ++ l) ∧
    ∀ t, t ∈ ts → rq_0 t ∈ U → ChBuf (rq_b t) ∈ wakeups s'.
Proof.
  revert s. induction U as [|h U IH]; intros s V.
  - exists s. split.
    + simpl. unfold gets, mbind, M_bind, id. destruct V as [_ _ _ _ _ _ _ [_ E] _ _ _ _ _ [_ R]].
      rewrite E. simpl. rewrite (proj2 (Z.eqb_eq _ _)); [done | unfold u16; simpl; lia].
    + split; [done|]. split; [|by intros t _ ?%elem_of_nil]. do 3 (split; [done|]). exists []. by rewrite app_nil_r.
  - destruct (busy_req s ts A _ h V) as (t & Ht & <- & R); [rewrite !elem_of_app, elem_of_cons; tauto|].
    destruct (IH _ (seen_inv s ts A U t V Ht)) as (s' & Er & V' & (F1 & F2 & F3 & l & F4) & W). exists s'. split; [|split; [done|split]].
    + destruct (few_work _ _ _ _ V) as [_ L]. rewrite !length_app in L. simpl in L. destruct (vi_used _ _ _ _ V) as [Wd Eu].
      pose proof (proj2 (vi_counts _ _ _ _ V)) as Rg. specialize (Wd 0%nat _ eq_refl). rewrite Z.add_0_r in Wd.
      cbn [intr_loop length]. unfold gets, mbind, M_bind, id. rewrite (proj2 (Z.eqb_neq _ _)) by (rewrite Eu; cbn [length]; unfold u16; lia).
      rewrite Wd, (ro_info _ _ R). destruct (vi_done _ _ _ _ V t Ht) as [-> _]; [|exact Er].
      pose proof (vi_work _ _ _ _ V) as N. rewrite (assoc_L app) in N. apply NoDup_app in N as (_ & N & _).
      intros H. apply (N _ H). by left.
    + do 3 (split; [done|]). exists (ChBuf (rq_b t) :: l). rewrite F4. simpl. by rewrite <- (assoc_L app).
    + intros t' Ht'. rewrite elem_of_cons. intros [E|H]; [|by apply W].
      rewrite (head_inj ts t' t (vi_distinct _ _ _ _ V) Ht' Ht E), F4. simpl. rewrite !elem_of_app, elem_of_cons. tauto.
Qed.

(** The bound of the handler's loop is the number of entries it has not seen. *)
Lemma intr_fuel s ts A U : vinv s ts A U → Z.to_nat (u16 (used_count s - used_idx s)) = length U.
Proof.
  intros V. destruct (few_work _ _ _ _ V) as [_ L]. rewrite !length_app in L. destruct V as [_ _ _ _ _ _ _ [_ E] _ _ _ _ _ [_ R]].
  rewrite E. unfold u16. lia.
Qed.

(** ** The end of a request *)

Definition ended (s : vdisk) (t : req) : vdisk :=
  freed (rq_2 t) (freed (rq_1 t) (freed (rq_0 t) (set_info_b (upd (info_b s) (rq_0 t) None) s))).

Lemma free_chain_step f i s : i < NUM → vfree s i = false →
  free_chain_loop (Datatypes.S f) i s =
    (if nonzero (Z.land (d_flags (desc s i)) VRING_DESC_F_NEXT) then free_chain_loop f (d_next (desc s i)) else mret tt) (freed i s).
Proof.
  intros Hi Hf. cbn [free_chain_loop]. eapply bind_run; [reflexivity|]. eapply bind_run; [by apply free_desc_run|]. done.
Qed.

Lemma end_run s t ts A U : vinv s (t :: ts) A U →
  rw_end (rq_b t) (rq_0 t) s =
    if decide (rq_0 t ∈ A ++ dev_busy s ++ U) then Ret (false, s) else Ret (true, ended s t).
Proof.
  intros V. unfold rw_end. unfold gets at 1. unfold mbind at 1, M_bind at 1. rewrite (vi_flag _ _ _ _ V t) by by left.
  destruct (decide _) as [|Hn]; [done|]. change (0 =? 1) with false.
  pose proof (vi_distinct _ _ _ _ V) as N. pose proof (Forall_inv (vi_reqs _ _ _ _ V)) as [[C1 C2 C3 C4] _ _ _].
  assert (F : ∀ i, i ∈ idxs t → vfree s i = false ∧ i < NUM).
  { intros i Hi. assert (Hc : i ∈ concat (idxs <$> t :: ts)) by (apply (idxs_in t); [by left | done]).
    split; [by apply (not_free s _ A U i V)|]. pose proof (vi_range _ _ _ _ V) as G. rewrite Forall_forall in G. by apply G. }
  rewrite fmap_cons in N. cbn in N. rewrite !NoDup_cons, !not_elem_of_cons in N. destruct N as ((N1 & N2 & _) & (N3 & _) & _).
  eapply bind_run; [reflexivity|]. eapply bind_run; [|reflexivity]. unfold free_chain. change (Z.to_nat NUM) with 8%nat.
  destruct (F _ (in_0 _ _ _)) as [F0 L0]. destruct (F _ (in_1 _ _ _)) as [F1 L1]. destruct (F _ (in_2 _ _ _)) as [F2 L2].
  rewrite free_chain_step by done. simpl (desc _). rewrite C1. simpl (d_flags _). simpl (d_next _). change (nonzero _) with true. cbv iota.
  rewrite free_chain_step; [|done|simpl; by rewrite upd_ne]. simpl (desc _). rewrite upd_ne, C2 by done. simpl (d_next _).
  replace (nonzero _) with true by by destruct (rq_write t). cbv iota.
  rewrite free_chain_step; [|done|simpl; by rewrite !upd_ne]. simpl (desc _). by rewrite !upd_ne, C3 by done.
Qed.

Lemma end_inv s t ts A U : vinv s (t :: ts) A U → rq_0 t ∉ A ++ dev_busy s ++ U → vinv (ended s t) ts A U.
Proof.
  intros V Hn. destruct V as [V1 V2 V3 V4 V5 V6 V7 V8 V9 V10 V11 V12 V13 V14].
  rewrite fmap_cons in V1, V2, V3. cbn [concat] in V1, V2, V3. apply NoDup_app in V1 as (_ & N & V1).
  apply Forall_app in V3 as [V3' V3]. apply NoDup_cons in V5 as [_ V5]. apply Forall_cons in V4 as [_ V4].
  assert (O : ∀ t' i, t' ∈ ts → i ∈ idxs t' → i ≠ rq_0 t ∧ i ≠ rq_1 t ∧ i ≠ rq_2 t).
  { intros t' i Ht' Hi. pose proof (idxs_in t' ts i Ht' Hi) as Hc.
    split; [|split]; intros E; refine (N _ _ Hc); rewrite E; [apply in_0 | apply in_1 | apply in_2]. }
  split; simpl; try done; try (by intros t' Ht'; (apply V11 || apply V12 || apply V13); right).
  - intros i Hi. unfold upd. destruct (Z.eqb_spec i (rq_2 t)) as [->|H2]; [split; [intros _; apply N, in_2 | done]|].
    destruct (Z.eqb_spec i (rq_1 t)) as [->|H1]; [split; [intros _; apply N, in_1 | done]|].
    destruct (Z.eqb_spec i (rq_0 t)) as [->|H0]; [split; [intros _; apply N, in_0 | done]|].
    rewrite V2 by done. rewrite not_elem_of_app. unfold idxs. rewrite !not_elem_of_cons. split; [by intros [_ ?] | intros H].
    split; [|done]. do 3 (split; [done|]). apply not_elem_of_nil.
  - apply Forall_forall. intros t' Ht'. rewrite Forall_forall in V4. destruct (O t' _ Ht' (in_0 _ _ _)) as (H0 & _).
    apply (req_ok_same s); simpl; rewrite ?upd_ne by done; try done; [|by apply V4].
    intros i Hi. destruct (O t' i Ht' Hi) as (? & ? & ?). by rewrite !upd_ne.
  - intros t1 t2 H1 H2. apply V6; by right.
  - intros h Hh. destruct (V10 h Hh) as (t' & Ht' & <-). exists t'. split; [|done].
    apply elem_of_cons in Ht' as [->|Ht']; done.
Qed.

(** ** Every step keeps the invariant *)

Definition vsys_ok (s : vsys) : Prop := ∃ A U, vinv (vd s) (reqs s) A U.

Lemma req_first s k t A U : reqs s !! k = Some t → vinv (vd s) (reqs s) A U → vinv (vd s) (t :: delete k (reqs s)) A U.
Proof. intros Hk. apply vinv_perm. by apply delete_Permutation. Qed.

Lemma client_inv s ts A U block data : vinv s ts A U →
  (∀ t, t ∈ ts → block (rq_b t) = vb_block s (rq_b t) ∧ data (rq_b t) = vb_data s (rq_b t)) →
  vinv (set_bufs block data s) ts A U.
Proof.
  intros [V1 V2 V3 V4 V5 V6 V7 V8 V9 V10 V11 V12 V13 V14] H. split; simpl; try done.
  - apply Forall_forall. intros t Ht. rewrite Forall_forall in V4. apply (req_ok_same s); try done; [by apply H | by apply V4].
  - intros t t' Ht Ht'. rewrite (proj1 (H t Ht)), (proj1 (H t' Ht')). by apply V6.
  - intros t Ht Hn. destruct (V12 t Ht Hn) as [S0 Mv]. split; [done|]. intros o Ho. simpl.
    rewrite (proj1 (H t Ht)), (proj2 (H t Ht)). by apply Mv.
  - intros t Ht o Ho. rewrite <- (V13 t Ht o Ho). unfold wanted. simpl. by rewrite (proj1 (H t Ht)), (proj2 (H t Ht)).
Qed.

Lemma vstep_ok s s' : device_ok → vstep s s' → vsys_ok s → vsys_ok s'.
Proof.
  intros D St (A & U & V). unfold vsys_ok. destruct St as [b write i0 i1 i2 d M E|b write d M E|d E|d E|block data H|k t d Hk E]; simpl.
  - destruct (rw_start_run b write (vd s)) as [(j0 & j1 & j2 & Dj & Fj & E')|(s' & E' & _)]; rewrite E' in E; [|done].
    injection E as <- <- <- <-. exists (A ++ [j0]), U. eapply vinv_perm; [apply Permutation_cons_append|].
    apply start_inv; try done; apply M.
  - destruct (rw_start_run b write (vd s)) as [(j0 & j1 & j2 & Dj & Fj & E')|(s' & E' & Id & _)]; rewrite E' in E; [done|].
    injection E as <-. exists A, U. by eapply vinv_idle.
  - destruct (device_inv _ _ _ _ _ D V E) as (A' & U' & V' & _). by exists A', U'.
  - destruct (intr_run U _ _ A V) as (s' & E' & V' & _). unfold virtio_disk_intr, gets, mbind, M_bind, id in E.
    rewrite (intr_fuel _ _ _ _ V), E' in E. injection E as <-. by exists A, [].
  - exists A, U. by apply client_inv.
  - pose proof (req_first s k t A U Hk V) as V'. rewrite (end_run _ _ _ _ _ V') in E. destruct (decide _) as [|Hn]; [done|].
    injection E as <-. exists A, U. by apply end_inv.
Qed.

Lemma vsteps_ok s s' : device_ok → rtc vstep s s' → vsys_ok s → vsys_ok s'.
Proof. intros D. induction 1 as [|s1 s2 s3 H _ IH]; [done|]. intros O. apply IH. by eapply vstep_ok. Qed.

(** ** The contract of the driver *)

Record disk_contract (s : vsys) : Prop := DiskContract {
  (** A request is accepted unless two are under way. *)
  dc_start : ∀ b write, (∃ i0 i1 i2 d, rw_start b write (vd s) = Ret (Some (i0, i1, i2), d)) ∨
    length (reqs s) = 2%nat ∧ ∃ d, rw_start b write (vd s) = Ret (None, d);
  (** The interrupt handler returns, wakes those whose request is done, and only the
      requests the device has not completed still wait. *)
  dc_intr : ∃ d, virtio_disk_intr (vd s) = Ret (tt, d) ∧
    (∀ t, t ∈ reqs s → vb_disk (vd s) (rq_b t) = 1 → vb_disk d (rq_b t) = 0 → ChBuf (rq_b t) ∈ wakeups d) ∧
    (dev_next (vd s) = avail_idx (vd s) → dev_busy (vd s) = [] → ∀ t, t ∈ reqs s → vb_disk d (rq_b t) = 0);
  (** A process waits as long as [b->disk] is set; when it returns, the buffer and the
      block on the disk hold what was asked for. *)
  dc_end : ∀ t, t ∈ reqs s →
    vb_disk (vd s) (rq_b t) = 1 ∧ rw_end (rq_b t) (rq_0 t) (vd s) = Ret (false, vd s) ∨
    vb_disk (vd s) (rq_b t) = 0 ∧ ∃ d, rw_end (rq_b t) (rq_0 t) (vd s) = Ret (true, d) ∧
      ∀ o, 0 ≤ o < BSIZE → vb_data d (rq_b t) o = rq_want t o ∧ dev_bytes d (BSIZE * vb_block d (rq_b t) + o) = rq_want t o;
  (** Blocks that are not being written stay as they are. *)
  dc_frame : ∀ s' blk o, vstep s s' → 0 ≤ o < BSIZE →
    (∀ t, t ∈ reqs s → rq_write t = true → vb_block (vd s) (rq_b t) ≠ blk) →
    dev_bytes (vd s') (BSIZE * blk + o) = dev_bytes (vd s) (BSIZE * blk + o);
}.

Lemma start_accepts s ts A U b write : vinv s ts A U →
  (∃ i0 i1 i2 d, rw_start b write s = Ret (Some (i0, i1, i2), d)) ∨ length ts = 2%nat ∧ ∃ d, rw_start b write s = Ret (None, d).
Proof.
  intros V. destruct (rw_start_run b write s) as [(i0 & i1 & i2 & _ & _ & E)|(d & E & _ & l & Hl & Hf)]; [left; by eexists _, _, _, _|].
  right. split; [|by exists d]. pose proof (few_work _ _ _ _ V) as [L _].
  assert (P : seqZ 0 8 ⊆+ l ++ concat (idxs <$> ts)).
  { apply NoDup_submseteq; [apply NoDup_seqZ|]. intros i Hi%elem_of_seqZ. apply elem_of_app.
    destruct (vfree s i) eqn:Ei; [left; apply Hf; [unfold NUM; lia | done]|]. right.
    destruct (decide (i ∈ concat (idxs <$> ts))) as [|Hn]; [done|]. apply (vi_free _ _ _ _ V) in Hn; [congruence | unfold NUM; lia]. }
  apply submseteq_length in P. rewrite length_app, length_idxs, length_seqZ in P. lia.
Qed.

Lemma ok_contract s : device_ok → vsys_ok s → disk_contract s.
Proof.
  intros D (A & U & V). split.
  - intros b write. by eapply start_accepts.
  - destruct (intr_run U _ _ A V) as (d & E & V' & (_ & _ & Eb & _) & W). exists d. split; [|split].
    + unfold virtio_disk_intr, gets, mbind, M_bind, id. by rewrite (intr_fuel _ _ _ _ V).
    + intros t Ht. rewrite (vi_flag _ _ _ _ V t Ht), (vi_flag _ _ _ _ V' t Ht), Eb, app_nil_r. intros H1 H2. apply W; [done|].
      destruct (decide _) as [Hi|] in H1; [|done]. destruct (decide _) as [|Hn] in H2; [done|].
      rewrite !elem_of_app in *. tauto.
    + intros En Eb' t Ht. rewrite (vi_flag _ _ _ _ V' t Ht), Eb, Eb', app_nil_r. destruct A as [|h A]; [done|]. exfalso.
      destruct (few_work _ _ _ _ V) as [_ L]. rewrite length_app in L. simpl in L. destruct (vi_avail _ _ _ _ V) as [_ Ea].
      rewrite Ea in En. simpl in En. pose proof (vi_counts _ _ _ _ V) as [R _]. unfold u16 in En. lia.
  - intros t Ht. apply list_elem_of_lookup in Ht as [k Hk]. pose proof (req_first s k t A U Hk V) as V'.
    rewrite (vi_flag _ _ _ _ V' t) by by left. rewrite (end_run _ _ _ _ _ V'). destruct (decide _) as [|Hn]; [by left | right].
    split; [done|]. eexists. split; [done|]. intros o Ho. destruct (vi_done _ _ _ _ V' t) as [_ Mv]; [by left | |].
    { intros H. apply Hn. rewrite !elem_of_app in *. tauto. }
    specialize (Mv o Ho). pose proof (vi_kept _ _ _ _ V' t ltac:(by left) o Ho) as Kp. unfold wanted in Kp. simpl.
    destruct (rq_write t); split; congruence.
  - intros s' blk o St Ho Hw. destruct St as [b write i0 i1 i2 d M E|b write d M E|d E|d E|block data H|k t d Hk E]; simpl; try done.
    + destruct (rw_start_run b write (vd s)) as [(j0 & j1 & j2 & _ & _ & E')|(s' & E' & _)]; rewrite E' in E; [|done].
      by injection E as <- <- <- <-.
    + destruct (rw_start_run b write (vd s)) as [(j0 & j1 & j2 & _ & _ & E')|(s' & E' & (x & f & w & -> & _) & _)]; rewrite E' in E; [done|].
      by injection E as <-.
    + destruct (device_inv _ _ _ _ _ D V E) as (A' & U' & _ & _ & H). by apply H.
    + destruct (intr_run U _ _ A V) as (s' & E' & _ & (_ & Ed & _) & _). unfold virtio_disk_intr, gets, mbind, M_bind, id in E.
      rewrite (intr_fuel _ _ _ _ V), E' in E. injection E as <-. by rewrite Ed.
    + rewrite (end_run _ _ _ _ _ (req_first s k t A U Hk V)) in E. destruct (decide _); [done|]. by injection E as <-.
Qed.
End System.

(** ** From start-up on *)

(** The driver's variables before [virtio_disk_init], with the device idle. *)
Definition vboot (bytes : Z → Z) (block : nat → Z) (data : nat → bdata) : vdisk :=
  VDisk (λ _, Desc PNull 0 0 0) 0 (λ _, 0) 0 (λ _, 0) (λ _, false) 0 (λ _, None) (λ _, 0) (λ _, 0) (λ _, 0)
    (λ _, 0) block data [] bytes 0 [].

Lemma boot_ok bytes block data : vsys_ok (VSys (init_queue (vboot bytes block data)) []).
Proof.
  exists [], []. split; simpl; try done; try (by intros ? ?%elem_of_nil); try constructor; try done.
  - intros _. apply not_elem_of_nil.
  - intros _. rewrite (proj2 (Z.leb_le _ _)), (proj2 (Z.ltb_lt _ _)) by lia. done.
  - by intros ? ? ?%elem_of_nil.
Qed.
