(* ===== verification/Printf.v ===== *)
(** * Formatted output (kernel/printf.c, procdump of kernel/proc.c)

    [printf] as the list of characters it passes to [consputc].  Strings are lists
    of bytes without their terminator; the arguments are a list of values. *)

From stdpp Require Import base numbers list strings.
From S2P Require Import Prelude Layout ProcState Sched.
Local Open Scope Z_scope.

(** The bytes of a string literal. *)
Definition chars (s : string) : list Z := (λ a, Z.of_N (Ascii.N_of_ascii a)) <$> String.list_ascii_of_string s.

Definition newline : Z := 10.
Definition percent : Z := 37.

(** [digits[d]]. *)
Definition digit (d : Z) : Z := if d <? 10 then 48 + d else 87 + d.

(** The do-while loop of [printint]: the digits, least significant first. *)
Fixpoint printint_loop (fuel : nat) (x base : Z) : list Z :=
  match fuel with
  | O => []
  | S f => digit (x mod base) :: (if x / base =? 0 then [] else printint_loop f (x / base) base)
  end.

(** An [int] is printed; a [uint] has at most 32 digits in base 2 or more. *)
Definition printint (xx base : Z) (sign : bool) : list Z :=
  let neg := sign && (xx <? 0) in
  let x := if neg then u32 (- xx) else u32 xx in
  let buf := printint_loop 32 x base ++ (if neg then [45] else []) in
  rev buf.

Fixpoint printptr_loop (n : nat) (x : Z) : list Z :=
  match n with
  | O => []
  | S n' => digit (Z.shiftr x 60) :: printptr_loop n' (u64 (Z.shiftl x 4))
  end.

Definition printptr (x : Z) : list Z := 48 :: 120 :: printptr_loop 16 x.

(** What [va_arg] may find. *)
Inductive parg : Type := PInt (v : Z) | PPtr (v : Z) | PStr (s : option (list Z)).

(** [None] is an argument of the wrong type or none at all, which is undefined. *)
Fixpoint printf (fmt : list Z) (ap : list parg) : option (list Z) :=
  match fmt with
  | [] => Some []
  | c :: fmt' =>
      if c =? percent then
        match fmt' with
        | [] => Some []
        | c :: fmt'' =>
            if c =? 100 then
              match ap with PInt v :: ap' => out ← printf fmt'' ap'; Some (printint v 10 true ++ out) | _ => None end
            else if c =? 120 then
              match ap with PInt v :: ap' => out ← printf fmt'' ap'; Some (printint v 16 true ++ out) | _ => None end
            else if c =? 112 then
              match ap with PPtr v :: ap' => out ← printf fmt'' ap'; Some (printptr v ++ out) | _ => None end
            else if c =? 115 then
              match ap with
              | PStr s :: ap' => out ← printf fmt'' ap'; Some (default (chars "(null)") s ++ out)
              | _ => None
              end
            else if c =? percent then out ← printf fmt'' ap; Some (percent :: out)
            else out ← printf fmt'' ap; Some (percent :: c :: out)
        end
      else out ← printf fmt' ap; Some (c :: out)
  end.

(** ** [procdump] *)

Definition state_name (st : procstate) : list Z :=
  chars match st with
  | UNUSED => "Unused  "
  | USED => "Used    "
  | SLEEPING => "Sleeping"
  | RUNNABLE => "Runnable"
  | RUNNING => "Running "
  | ZOMBIE => "Zombie  "
  end.

Definition spaces (n : Z) : list Z := replicate (Z.to_nat n) 32.

(** The name up to its terminator. *)
Fixpoint cstring (l : list Z) : list Z :=
  match l with
  | [] => []
  | c :: l' => if c =? 0 then [] else c :: cstring l'
  end.

Definition dump_title (pol : policy) : list Z :=
  match pol with
  | RR => chars "Procdump: Round Robin Scheduler" ++ [newline; newline]
  | FCFS => chars "Procdump: First Come First Serve Scheduler" ++ [newline; newline]
  | PBS => chars "Procdump: Priority Based Scheduler" ++ [newline; newline]
  | LBS => chars "Procdump: Lottery Based Scheduler" ++ [newline; newline]
  | MLFQ => []
  end.

Definition dump_proc (pol : policy) (ticks : Z) (p : proc) : list Z :=
  if has_state UNUSED p then []
  else match pol with
  | MLFQ =>
      if 2 <? p_pid p then
        printint (p_pid p) 10 true ++ chars "," ++ printint (p_queue p) 10 true ++ chars "," ++
        printint ticks 10 true ++ chars "," ++ state_name (p_state p) ++ [newline]
      else []
  | _ =>
      printint (p_pid p) 10 true ++ spaces (11 - num_digits (p_pid p)) ++
      state_name (p_state p) ++ chars "       " ++
      printint (p_timeRun p) 10 true ++ spaces (15 - num_digits (p_timeRun p)) ++
      printint (p_timeSlept p) 10 true ++ spaces (16 - num_digits (p_timeSlept p)) ++
      cstring (p_name p) ++ [newline]
  end.

Definition procdump (pol : policy) (ticks : Z) (t : list proc) : list Z :=
  [newline] ++ dump_title pol ++
  match pol with
  | MLFQ => []
  | _ => chars "PID        State          Time Run       Time Slept      Name       " ++ [newline]
  end ++
  concat (dump_proc pol ticks <$> t) ++ [newline].

(** ** What is printed *)

(** The value of a digit, and of a number as it is written. *)
Definition undigit (c : Z) : Z := if c <? 58 then c - 48 else c - 87.
Definition value (base : Z) (l : list Z) : Z := foldl (λ a c, a * base + undigit c) 0 l.
Definition value_signed (base : Z) (l : list Z) : Z :=
  match l with
  | c :: l' => if c =? 45 then - value base l' else value base l
  | [] => 0
  end.

Lemma undigit_digit d : 0 ≤ d < 16 → undigit (digit d) = d ∧ digit d ≠ 45.
Proof.
  intros Hd. unfold undigit, digit. destruct (Z.ltb_spec d 10).
  - rewrite (proj2 (Z.ltb_lt _ _)) by lia. lia.
  - rewrite (proj2 (Z.ltb_ge _ _)) by lia. lia.
Qed.

Lemma printint_loop_value fuel x base :
  2 ≤ base ≤ 16 → 0 ≤ x < base ^ Z.of_nat fuel →
  value base (rev (printint_loop fuel x base)) = x ∧ Forall (λ c, c ≠ 45) (printint_loop fuel x base) ∧
  printint_loop fuel x base ≠ [] ∨ fuel = O.
Proof.
  intros Hb. revert x. induction fuel as [|f IH]; intros x Hx; [by right|left]. cbn [printint_loop].
  destruct (undigit_digit (x mod base)) as [Hu Hn]; [pose proof (Z.mod_pos_bound x base); lia|].
  pose proof (Z.div_mod x base ltac:(lia)) as E. rewrite Nat2Z.inj_succ, Z.pow_succ_r in Hx by lia.
  destruct (Z.eqb_spec (x / base) 0) as [H0|H0].
  - split; [|split; [repeat constructor; done | done]]. unfold value. simpl. rewrite Hu. lia.
  - destruct (IH (x / base)) as [(IH1 & IH2 & IH3)| ->].
    + pose proof (Z.div_pos x base ltac:(lia) ltac:(lia)). split; [done|].
      apply Z.div_lt_upper_bound; lia.
    + split; [|split; [by constructor | done]]. cbn [rev]. unfold value in *. rewrite foldl_app, IH1. simpl. lia.
    + change (base ^ Z.of_nat 0) with 1 in Hx. destruct H0. apply Z.div_small. lia.
Qed.

Lemma printint_split xx base :
  2 ≤ base ≤ 16 → - 2 ^ 31 ≤ xx < 2 ^ 31 →
  ∃ ds, ds ≠ [] ∧ value base ds = Z.abs xx ∧ Forall (λ c, c ≠ 45) ds ∧ ds = rev (printint_loop 32 (Z.abs xx) base) ∧
    printint xx base true = (if xx <? 0 then [45] else []) ++ ds.
Proof.
  intros Hb Hx. assert (Hp : 2 ^ 32 ≤ base ^ 32) by (apply Z.pow_le_mono_l; lia).
  destruct (printint_loop_value 32 (Z.abs xx) base) as [(H1 & H2 & H3)|]; [exact Hb | change (Z.of_nat 32) with 32; lia | | discriminate].
  exists (rev (printint_loop 32 (Z.abs xx) base)). split; [|split; [done|split; [by apply Forall_rev|split; [done|]]]].
  { intros E. apply H3. by rewrite <- (rev_involutive (printint_loop _ _ _)), E. }
  assert (E : (if xx <? 0 then u32 (- xx) else u32 xx) = Z.abs xx).
  { unfold u32. destruct (Z.ltb_spec xx 0); rewrite Z.mod_small; lia. }
  unfold printint. cbn [andb]. cbv zeta. rewrite E, rev_app_distr. by destruct (xx <? 0).
Qed.

Lemma num_digits_loop_length fuel x d :
  0 < x < 10 ^ Z.of_nat fuel → num_digits_loop fuel x d = d + Z.of_nat (length (printint_loop fuel x 10)).
Proof.
  revert x d. induction fuel as [|f IH]; intros x d Hx; [simpl in Hx; lia|].
  cbn [num_digits_loop printint_loop]. rewrite (proj2 (Z.ltb_lt 0 x)) by lia.
  rewrite Nat2Z.inj_succ, Z.pow_succ_r in Hx by lia. destruct (Z.eqb_spec (x / 10) 0) as [H0|H0].
  - rewrite H0. destruct f; simpl; lia.
  - rewrite IH; [simpl length; lia|]. split; [pose proof (Z.div_pos x 10); lia|]. apply Z.div_lt_upper_bound; lia.
Qed.

Lemma printint_loop_fuel f f' x : 0 ≤ x < 10 ^ Z.of_nat f → (f ≤ f')%nat → f ≠ O → printint_loop f' x 10 = printint_loop f x 10.
Proof.
  revert f' x. induction f as [|f IH]; intros f' x Hx Hle Hf; [done|]. destruct f' as [|f']; [lia|].
  cbn [printint_loop]. f_equal. destruct (Z.eqb_spec (x / 10) 0) as [H0|H0]; [done|].
  rewrite Nat2Z.inj_succ, Z.pow_succ_r in Hx by lia.
  assert (Hq : 0 ≤ x / 10 < 10 ^ Z.of_nat f) by (split; [apply Z.div_pos; lia | apply Z.div_lt_upper_bound; lia]).
  apply IH; [done | lia|]. intros ->. change (10 ^ Z.of_nat 0) with 1 in Hq. lia.
Qed.

(** What [printf] prints for a %d or %x is the number: read back in the same base
    it gives the [int], the smallest one included; and [num_digits], by which
    [procdump] aligns its columns, is the number of characters a %d prints, for
    every [int] but the smallest, for which it is 1. *)
Theorem printint_correct xx base :
  2 ≤ base ≤ 16 → - 2 ^ 31 ≤ xx < 2 ^ 31 →
  value_signed base (printint xx base true) = xx ∧
  num_digits xx = if xx =? - 2 ^ 31 then 1 else Z.of_nat (length (printint xx 10 true)).
Proof.
  intros Hb Hx. split.
  - destruct (printint_split xx base Hb Hx) as (ds & Hne & Hv & Hf & _ & ->). destruct (Z.ltb_spec xx 0).
    + simpl. lia.
    + destruct ds as [|c ds]; [done|]. cbn [app value_signed]. apply Forall_cons in Hf as [Hc _].
      rewrite (proj2 (Z.eqb_neq c 45) Hc), Hv. lia.
  - destruct (Z.eqb_spec xx (- 2 ^ 31)) as [->|Hm]; [reflexivity|].
    destruct (printint_split xx 10 ltac:(lia) Hx) as (ds & _ & _ & _ & -> & ->).
    rewrite length_app, length_rev, (printint_loop_fuel 10 32) by lia. unfold num_digits.
    assert (E : (if xx <? 0 then i32 (xx * -1) else xx) = Z.abs xx) by (unfold i32; destruct (Z.ltb_spec xx 0); lia).
    rewrite E. destruct (Z.eqb_spec (Z.abs xx) 0) as [H0|H0].
    + rewrite H0, (proj2 (Z.ltb_ge xx 0)) by lia. done.
    + rewrite num_digits_loop_length by lia. destruct (xx <? 0); simpl length; lia.
Qed.

Lemma printint_correct_witness :
  value_signed 16 (printint (-255) 16 true) = -255 ∧ num_digits (-255) = 4.
Proof.
  destruct (printint_correct (-255) 16) as [H1 H2]; [lia | lia|]. split; [exact H1 | rewrite H2; reflexivity].
Defined.
