(* ===== verification/Console.v ===== *)
(** * The console (kernel/uart.c, kernel/console.c)

    The transmit buffer of the UART, the line editing of the console and its
    interrupt handler.  The device takes [u_room] more bytes before it reports its
    holding register full, has received the bytes [u_rx], and has been given the
    bytes [u_wire]; when it makes room is up to the device.  A spin lock makes each
    routine one step; waiting for room is the outcome [Block]. *)

From stdpp Require Import base numbers list strings.
From S2P Require Import Prelude Layout Kalloc Vm ProcState Sched Printf.
Local Open Scope Z_scope.

(** ** State *)

Definition UART_TX_BUF_SIZE : Z := 32.
Definition INPUT_BUF_SIZE : Z := 128.
Definition BACKSPACE : Z := 0x100.

(** [C(x)], Control-x. *)
Definition ctrl (x : Z) : Z := x - 64.

Record uart : Type := Uart {
  tx_buf : Z → Z;
  tx_w : Z;
  tx_r : Z;
  u_room : nat;
  u_rx : list Z;
  u_wire : list Z;
}.

Record console : Type := Console {
  c_buf : Z → Z;
  c_r : Z;
  c_w : Z;
  c_e : Z;
}.

(** The console, the UART, the process table, whose sleepers they wake, and the
    memory they copy to and from. *)
Record tty : Type := Tty {
  t_cons : console;
  t_uart : uart;
  t_procs : list proc;
  t_cur : option nat;
  t_ticks : Z;
  t_mem : kstate;
}.

Definition set_cons (f : console → console) (t : tty) : tty :=
  Tty (f (t_cons t)) (t_uart t) (t_procs t) (t_cur t) (t_ticks t) (t_mem t).
Definition set_uart (f : uart → uart) (t : tty) : tty :=
  Tty (t_cons t) (f (t_uart t)) (t_procs t) (t_cur t) (t_ticks t) (t_mem t).
Definition set_tprocs (f : list proc → list proc) (t : tty) : tty :=
  Tty (t_cons t) (t_uart t) (f (t_procs t)) (t_cur t) (t_ticks t) (t_mem t).

Definition set_tmem (m : kstate) (t : tty) : tty :=
  Tty (t_cons t) (t_uart t) (t_procs t) (t_cur t) (t_ticks t) m.

Definition set_c_r (v : Z) (c : console) : console := Console (c_buf c) v (c_w c) (c_e c).
Definition set_c_w (v : Z) (c : console) : console := Console (c_buf c) (c_r c) v (c_e c).
Definition set_c_e (v : Z) (c : console) : console := Console (c_buf c) (c_r c) (c_w c) v.

(** [cons.buf[cons.e++ % INPUT_BUF_SIZE] = c]. *)
Definition append (c : Z) (k : console) : console :=
  Console (upd (c_buf k) (c_e k mod INPUT_BUF_SIZE) (u8 c)) (c_r k) (c_w k) (u32 (c_e k + 1)).

(** The channels [&cons.r] and [&uart_tx_r]. *)
Definition chan_cons_r : chanaddr := ChanAddr 1.
Definition chan_tx_r : chanaddr := ChanAddr 2.

Definition twakeup (c : chanaddr) : M tty unit :=
  k ← gets t_cur;
  tk ← gets t_ticks;
  modify (set_tprocs (wakeup k c tk)).

(** ** The UART *)

(** Writing THR hands a byte to the device. *)
Definition transmit (c : Z) (u : uart) : uart :=
  Uart (tx_buf u) (tx_w u) (tx_r u) (Nat.pred (u_room u)) (u_rx u) (u_wire u ++ [u8 c]).

(** It spins until the device has room, so the device is left as if it had had
    room for the byte. *)
Definition uartputc_sync (c : Z) : M tty unit :=
  modify (set_uart (transmit c)).

(** [uart_tx_r += 1]. *)
Definition tx_take (u : uart) : uart :=
  Uart (tx_buf u) (tx_w u) (u64 (tx_r u + 1)) (u_room u) (u_rx u) (u_wire u).

Fixpoint uartstart_loop (fuel : nat) : M tty unit :=
  u ← gets t_uart;
  if tx_w u =? tx_r u then mret tt
  else match u_room u with
  | O => mret tt
  | S _ =>
      match fuel with
      | O => diverge
      | S f =>
          let c := tx_buf u (tx_r u mod UART_TX_BUF_SIZE) in
          modify (set_uart tx_take);;
          twakeup chan_tx_r;;
          modify (set_uart (transmit c));;
          uartstart_loop f
      end
  end.

(** The device reports its register full after [u_room] bytes at the latest. *)
Definition uartstart : M tty unit :=
  u ← gets t_uart;
  uartstart_loop (u_room u).

Definition tx_put (c : Z) (u : uart) : uart :=
  Uart (upd (tx_buf u) (tx_w u mod UART_TX_BUF_SIZE) (u8 c)) (u64 (tx_w u + 1)) (tx_r u) (u_room u) (u_rx u) (u_wire u).

Definition uartputc (c : Z) : M tty unit :=
  u ← gets t_uart;
  if tx_w u =? u64 (tx_r u + UART_TX_BUF_SIZE) then block "uart_tx_r"
  else
    modify (set_uart (tx_put c));;
    uartstart.

(** The byte in RHR, or -1. *)
Definition uartgetc : M tty Z :=
  u ← gets t_uart;
  match u_rx u with
  | [] => mret (-1)
  | c :: rx =>
      modify (set_uart (λ u, Uart (tx_buf u) (tx_w u) (tx_r u) (u_room u) rx (u_wire u)));;
      mret c
  end.

(** ** The console *)

Definition consputc (c : Z) : M tty unit :=
  if c =? BACKSPACE then uartputc_sync 8;; uartputc_sync 32;; uartputc_sync 8
  else uartputc_sync c.

(** The output of a [printf]. *)
Fixpoint conswrite (l : list Z) : M tty unit :=
  match l with
  | [] => mret tt
  | c :: l' => consputc c;; conswrite l'
  end.

(** The loop of Control-U; it stops after [e - w] characters at the latest. *)
Fixpoint kill_line (fuel : nat) : M tty unit :=
  k ← gets t_cons;
  if (c_e k =? c_w k) || (c_buf k (u32 (c_e k - 1) mod INPUT_BUF_SIZE) =? newline) then mret tt
  else
    match fuel with
    | O => diverge
    | S f =>
        modify (set_cons (set_c_e (u32 (c_e k - 1))));;
        consputc BACKSPACE;;
        kill_line f
    end.

Definition consoleintr (pol : policy) (c : Z) : M tty unit :=
  k ← gets t_cons;
  if c =? ctrl 80 then
    t ← gets id;
    conswrite (procdump pol (t_ticks t) (t_procs t))
  else if c =? ctrl 85 then kill_line (Z.to_nat (u32 (c_e k - c_w k)))
  else if (c =? ctrl 72) || (c =? 127) then
    when (negb (c_e k =? c_w k))
      (modify (set_cons (set_c_e (u32 (c_e k - 1))));; consputc BACKSPACE)
  else
    when (nonzero c && (u32 (c_e k - c_r k) <? INPUT_BUF_SIZE))
      (let c := if c =? 13 then newline else c in
       consputc c;;
       modify (set_cons (append c));;
       k ← gets t_cons;
       when ((c =? newline) || (c =? ctrl 68) || (u32 (c_e k - c_r k) =? INPUT_BUF_SIZE))
         (modify (set_cons (set_c_w (c_e k)));; twakeup chan_cons_r)).

(** All that has been received, then what waits to be sent. *)
Fixpoint uartintr_loop (fuel : nat) (pol : policy) : M tty unit :=
  c ← uartgetc;
  if c =? -1 then mret tt
  else
    match fuel with
    | O => diverge
    | S f => consoleintr pol c;; uartintr_loop f pol
    end.

Definition uartintr (pol : policy) : M tty unit :=
  u ← gets t_uart;
  uartintr_loop (length (u_rx u)) pol;;
  uartstart.

(** ** Reading and writing *)

Section ReadWrite.
Context `{L : Linker}.

(** [myproc()]. *)
Definition tproc (t : tty) : proc := default proc_zero (t_cur t ≫= λ i, t_procs t !! i).

(** The loop of [consolewrite], which the system call calls with user addresses. *)
Fixpoint consolewrite_loop (fuel : nat) (src n i : Z) : M tty Z :=
  if i <? n then
    match fuel with
    | O => diverge
    | S f =>
        p ← gets tproc;
        r ← zoom t_mem set_tmem (copyin (p_pagetable p) (u64 (src + i)) 1);
        if r.1 =? -1 then mret i
        else uartputc (List.hd 0 r.2);; consolewrite_loop f src n (i + 1)
    end
  else mret i.

Definition consolewrite (src n : Z) : M tty Z := consolewrite_loop (Z.to_nat n) src n 0.

(** The loop of [consoleread]: it returns what is left of [n], or nothing when the
    process was killed. *)
Fixpoint consoleread_loop (fuel : nat) (target dst n : Z) : M tty (option Z) :=
  if 0 <? n then
    match fuel with
    | O => diverge
    | S f =>
        k ← gets t_cons;
        p ← gets tproc;
        if c_r k =? c_w k then
          if nonzero (killed p) then mret None else block "cons.r"
        else
          let c := c_buf k (c_r k mod INPUT_BUF_SIZE) in
          if c =? ctrl 68 then
            (if n <? target then mret tt else modify (set_cons (set_c_r (u32 (c_r k + 1)))));;
            mret (Some n)
          else
            modify (set_cons (set_c_r (u32 (c_r k + 1))));;
            r ← zoom t_mem set_tmem (copyout (p_pagetable p) dst [c]);
            if r =? -1 then mret (Some n)
            else if c =? newline then mret (Some (n - 1))
            else consoleread_loop f target (u64 (dst + 1)) (n - 1)
    end
  else mret (Some n).

Definition consoleread (dst n : Z) : M tty Z :=
  r ← consoleread_loop (Z.to_nat n) n dst n;
  mret (match r with Some n' => n - n' | None => -1 end).
End ReadWrite.
