(* ===== verification/ConsoleSpec.v ===== *)
(** * What the console does (kernel/uart.c, kernel/console.c)

    The transmit ring as a queue in front of the wire, and the input ring with its
    three indices as a line discipline on two lists. *)

From stdpp Require Import base numbers list strings.
From S2P Require Import Prelude Layout Kalloc Vm ProcState Sched Printf Console.
Local Open Scope Z_scope.

(** ** Rings *)

(** The [n] bytes of a ring of size [m] from index [r]. *)
Definition ring (buf : Z → Z) (m r : Z) (n : nat) : list Z := (λ i, buf ((r + Z.of_nat i) mod m)) <$> seq 0 n.

Lemma ring_length buf m r n : length (ring buf m r n) = n.
Proof. unfold ring. by rewrite length_fmap, length_seq. Qed.

Lemma ring_snoc buf m r n : ring buf m r (S n) = ring buf m r n ++ [buf ((r + Z.of_nat n) mod m)].
Proof. unfold ring. by rewrite seq_S, fmap_app. Qed.

Lemma ring_cons buf m r n : ring buf m r (S n) = buf (r mod m) :: ring buf m (r + 1) n.
Proof.
  unfold ring. cbn [seq]. rewrite fmap_cons, Z.add_0_r. f_equal. rewrite <- fmap_S_seq, <- list_fmap_compose.
  apply list_fmap_ext. intros i x _. simpl. f_equal. f_equal. lia.
Qed.

Lemma ring_app buf m r n k : ring buf m r (n + k) = ring buf m r n ++ ring buf m (r + Z.of_nat n) k.
Proof.
  induction k as [|k IH]; [by rewrite Nat.add_0_r, app_nil_r|].
  rewrite Nat.add_succ_r, !ring_snoc, IH, <- app_assoc. do 3 f_equal. f_equal. f_equal. lia.
Qed.

Lemma ring_mod buf m r r' n : 0 < m → r mod m = r' mod m → ring buf m r n = ring buf m r' n.
Proof.
  intros Hm E. apply list_fmap_ext. intros i x _. f_equal.
  by rewrite <- (Zplus_mod_idemp_l r), E, Zplus_mod_idemp_l.
Qed.

Lemma ring_upd buf m r n c j :
  0 < m → (Z.of_nat n < m) → j = (r + Z.of_nat n) mod m →
  ring (upd buf j c) m r n = ring buf m r n ∧ ring (upd buf j c) m r (S n) = ring buf m r n ++ [c].
Proof.
  intros Hm Hn ->. assert (E : ring (upd buf ((r + Z.of_nat n) mod m) c) m r n = ring buf m r n).
  { apply list_fmap_ext. intros i x Hi. apply lookup_seq in Hi as [-> Hi]. apply upd_ne.
    intros Ec. assert (Hz : (Z.of_nat n - Z.of_nat (0 + i)) mod m = 0).
    { replace (Z.of_nat n - Z.of_nat (0 + i)) with ((r + Z.of_nat n) - (r + Z.of_nat (0 + i))) by lia.
      rewrite Zminus_mod, Ec, Z.sub_diag. apply Z.mod_0_l. lia. }
    rewrite Z.mod_small in Hz by lia. lia. }
  split; [done|]. by rewrite ring_snoc, E, upd_eq.
Qed.

(** ** The transmit ring *)

(** The bytes waiting to be sent. *)
Definition pending (u : uart) : list Z := ring (tx_buf u) UART_TX_BUF_SIZE (tx_r u) (Z.to_nat (u64 (tx_w u - tx_r u))).

Definition tx_ok (u : uart) : Prop :=
  0 ≤ tx_r u < 2 ^ 64 ∧ 0 ≤ tx_w u < 2 ^ 64 ∧ u64 (tx_w u - tx_r u) ≤ UART_TX_BUF_SIZE ∧
  ∀ i, u8 (tx_buf u i) = tx_buf u i.

(** What the device has been given and will be given, in order. *)
Definition sent (u : uart) : list Z := u_wire u ++ pending u.

Lemma mod64_32 x : u64 x mod 32 = x mod 32.
Proof. unfold u64. lia. Qed.

Lemma tx_put_ok u c :
  tx_ok u → tx_w u ≠ u64 (tx_r u + UART_TX_BUF_SIZE) → tx_ok (tx_put c u) ∧ sent (tx_put c u) = sent u ++ [u8 c].
Proof.
  intros (H1 & H2 & H3 & H4) Hf. unfold UART_TX_BUF_SIZE in *.
  assert (Hd : 0 ≤ u64 (tx_w u - tx_r u) < 32) by (unfold u64 in *; lia).
  assert (E : u64 (u64 (tx_w u + 1) - tx_r u) = u64 (tx_w u - tx_r u) + 1) by (unfold u64 in *; lia).
  split; [split; [done|split; [unfold tx_put, u64; simpl; lia|split]]|].
  - simpl. rewrite E. unfold UART_TX_BUF_SIZE. lia.
  - intros i. simpl. unfold upd. destruct (_ =? _); [unfold u8; by rewrite Z.mod_mod | done].
  - unfold sent, pending, tx_put. simpl. rewrite E. unfold UART_TX_BUF_SIZE.
    rewrite Z2Nat.inj_add, Nat.add_1_r by lia. rewrite <- app_assoc. f_equal. apply ring_upd; [lia | lia|].
    rewrite Z2Nat.id by lia. unfold u64 in *. lia.
Qed.

Lemma tx_send_ok u :
  tx_ok u → tx_w u ≠ tx_r u →
  let u' := transmit (tx_buf u (tx_r u mod UART_TX_BUF_SIZE)) (tx_take u) in
  tx_ok u' ∧ sent u' = sent u ∧ (length (pending u') < length (pending u))%nat.
Proof.
  intros (H1 & H2 & H3 & H4) Hne. unfold UART_TX_BUF_SIZE in *. cbv zeta.
  assert (Hd : 0 < u64 (tx_w u - tx_r u) ≤ 32) by (unfold u64 in *; lia).
  assert (E : u64 (tx_w u - u64 (tx_r u + 1)) = u64 (tx_w u - tx_r u) - 1) by (unfold u64 in *; lia).
  assert (Ep : pending u = tx_buf u (tx_r u mod 32) ::
    pending (transmit (tx_buf u (tx_r u mod 32)) (tx_take u))).
  { unfold pending, transmit, tx_take, UART_TX_BUF_SIZE. simpl. rewrite E.
    replace (Z.to_nat (u64 (tx_w u - tx_r u))) with (S (Z.to_nat (u64 (tx_w u - tx_r u) - 1))) by lia.
    rewrite ring_cons. f_equal. apply ring_mod; [lia|]. by rewrite mod64_32. }
  split; [split; [|split; [|split]]|split].
  - simpl. unfold u64. lia.
  - done.
  - simpl. rewrite E. unfold UART_TX_BUF_SIZE. lia.
  - done.
  - unfold sent. rewrite Ep. simpl. by rewrite H4, <- app_assoc.
  - rewrite Ep. simpl. lia.
Qed.

(** Only the UART and the sleepers change. *)
Definition tx_frame (t t' : tty) : Prop := t_cons t' = t_cons t ∧ t_mem t' = t_mem t.

Lemma uartstart_loop_wp fuel t :
  (u_room (t_uart t) ≤ fuel)%nat → tx_ok (t_uart t) →
  wp (uartstart_loop fuel) t (λ _ t', tx_ok (t_uart t') ∧ sent (t_uart t') = sent (t_uart t) ∧
    (pending (t_uart t') = [] ∨ u_room (t_uart t') = 0%nat) ∧ tx_frame t t').
Proof.
  revert t. induction fuel as [|f IH]; intros t Hf Hok; cbn [uartstart_loop]; apply wp_bind, wp_gets;
    (destruct (Z.eqb_spec (tx_w (t_uart t)) (tx_r (t_uart t))) as [He|Hne];
     [apply wp_ret; split; [done|]; split; [done|]; split; [left|done];
      unfold pending; by rewrite He, Z.sub_diag|]).
  - destruct (u_room (t_uart t)) eqn:Er; [|lia]. apply wp_ret. split; [done|]. split; [done|]. split; [by right|done].
  - destruct (u_room (t_uart t)) eqn:Er; [apply wp_ret; split; [done|]; split; [done|]; split; [by right|done]|].
    destruct (tx_send_ok (t_uart t) Hok Hne) as (H1 & H2 & _).
    cbv zeta. apply wp_bind, wp_modify, wp_bind. unfold twakeup. apply wp_bind, wp_gets, wp_bind, wp_gets, wp_modify.
    apply wp_bind, wp_modify. eapply wp_mono; [apply IH|].
    + simpl. rewrite Er. simpl. lia.
    + exact H1.
    + intros _ t' (G1 & G2 & G3 & G4). split; [done|]. split; [by rewrite G2|]. done.
Qed.

(** C36. Nothing written to the console is lost or reordered: [uartputc] adds its byte
    behind all bytes accepted before it, or waits when 32 are pending, and neither
    it nor [uartstart] changes the order of what the device has been given and what
    is still pending; [uartstart] stops only when nothing is pending or the device
    has no room. *)
Theorem uart_in_order c t :
  tx_ok (t_uart t) →
  (wp uartstart t (λ _ t', tx_ok (t_uart t') ∧ sent (t_uart t') = sent (t_uart t) ∧
    (pending (t_uart t') = [] ∨ u_room (t_uart t') = 0%nat))) ∧
  (if Z.of_nat (length (pending (t_uart t))) =? UART_TX_BUF_SIZE then uartputc c t = Block "uart_tx_r"
   else wp (uartputc c) t (λ _ t', tx_ok (t_uart t') ∧ sent (t_uart t') = sent (t_uart t) ++ [u8 c])).
Proof.
  intros Hok. assert (Hs : ∀ t, tx_ok (t_uart t) → wp uartstart t (λ _ t', tx_ok (t_uart t') ∧
    sent (t_uart t') = sent (t_uart t) ∧ (pending (t_uart t') = [] ∨ u_room (t_uart t') = 0%nat))).
  { intros t0 H0. unfold uartstart. apply wp_bind, wp_gets. eapply wp_mono; [by apply uartstart_loop_wp|].
    intros _ t' (H1 & H2 & H3 & _). done. }
  split; [by apply Hs|]. pose proof Hok as (H1 & H2 & H3 & _).
  assert (Hfull : (Z.of_nat (length (pending (t_uart t))) =? UART_TX_BUF_SIZE) =
    (tx_w (t_uart t) =? u64 (tx_r (t_uart t) + UART_TX_BUF_SIZE))).
  { apply eq_true_iff_eq. rewrite !Z.eqb_eq. unfold pending. rewrite ring_length. unfold u64, UART_TX_BUF_SIZE in *. lia. }
  rewrite Hfull. destruct (Z.eqb_spec (tx_w (t_uart t)) (u64 (tx_r (t_uart t) + UART_TX_BUF_SIZE))) as [E|E].
  - unfold uartputc, mbind, M_bind, gets. by rewrite (proj2 (Z.eqb_eq _ _) E).
  - unfold uartputc. apply wp_bind, wp_gets. rewrite (proj2 (Z.eqb_neq _ _) E). apply wp_bind, wp_modify.
    destruct (tx_put_ok (t_uart t) c Hok E) as [P1 P2].
    eapply wp_mono; [apply (Hs (set_uart (tx_put c) t)); exact P1|].
    intros _ t' (G1 & G2 & _). split; [done|]. by rewrite G2.
Qed.

(** ** The line discipline *)

(** The bytes a reader may take, and the line that is still being edited. *)
Definition ready (k : console) : list Z := ring (c_buf k) INPUT_BUF_SIZE (c_r k) (Z.to_nat (u32 (c_w k - c_r k))).
Definition editing (k : console) : list Z := ring (c_buf k) INPUT_BUF_SIZE (c_w k) (Z.to_nat (u32 (c_e k - c_w k))).
Definition typed (k : console) : list Z := ring (c_buf k) INPUT_BUF_SIZE (c_r k) (Z.to_nat (u32 (c_e k - c_r k))).

(** The indices are in order around the ring. *)
Definition cons_wf (k : console) : Prop :=
  0 ≤ c_r k < 2 ^ 32 ∧ 0 ≤ c_w k < 2 ^ 32 ∧ 0 ≤ c_e k < 2 ^ 32 ∧
  u32 (c_w k - c_r k) + u32 (c_e k - c_w k) ≤ INPUT_BUF_SIZE.

(** Between interrupts, the line has no end yet. *)
Definition cons_ok (k : console) : Prop := cons_wf k ∧ newline ∉ editing k.

(** What a character does. *)
Definition edit (c : Z) (l : list Z * list Z) : list Z * list Z :=
  let '(rd, ed) := l in
  if c =? ctrl 80 then l
  else if c =? ctrl 85 then (rd, [])
  else if (c =? ctrl 72) || (c =? 127) then (rd, removelast ed)
  else if nonzero c && (Z.of_nat (length rd + length ed) <? INPUT_BUF_SIZE) then
    let c := if c =? 13 then newline else c in
    if (c =? newline) || (c =? ctrl 68) || (Z.of_nat (length rd + length ed) + 1 =? INPUT_BUF_SIZE)
    then (rd ++ ed ++ [c], []) else (rd, ed ++ [c])
  else l.

Lemma mod32_128 x : u32 x mod 128 = x mod 128.
Proof. unfold u32. lia. Qed.

Lemma typed_len k : cons_wf k → u32 (c_e k - c_r k) = u32 (c_w k - c_r k) + u32 (c_e k - c_w k).
Proof. intros (H1 & H2 & H3 & H4). unfold INPUT_BUF_SIZE, u32 in *. lia. Qed.

Lemma typed_split k : cons_wf k → typed k = ready k ++ editing k.
Proof.
  intros Hk. unfold typed, ready, editing. rewrite (typed_len k Hk). pose proof Hk as (H1 & H2 & H3 & H4).
  rewrite Z2Nat.inj_add by (unfold u32; lia). rewrite ring_app. f_equal. apply ring_mod; [done|].
  rewrite Z2Nat.id by (unfold u32; lia). unfold INPUT_BUF_SIZE.
  rewrite <- Zplus_mod_idemp_r, mod32_128, Zplus_mod_idemp_r. f_equal. lia.
Qed.

Lemma append_ok k c :
  cons_wf k → u32 (c_e k - c_r k) < INPUT_BUF_SIZE → 0 ≤ c < 256 →
  ready (append c k) = ready k ∧ editing (append c k) = editing k ++ [c] ∧
  cons_wf (append c k) ∧ u32 (c_e (append c k) - c_r k) = u32 (c_e k - c_r k) + 1.
Proof.
  intros Hk Hl Hc. pose proof (typed_len k Hk) as Ht. pose proof (typed_split k Hk) as Hs.
  pose proof Hk as (H1 & H2 & H3 & H4). unfold INPUT_BUF_SIZE in *.
  assert (Ee : u32 (u32 (c_e k + 1) - c_w k) = u32 (c_e k - c_w k) + 1) by (unfold u32 in *; lia).
  assert (Er : u32 (u32 (c_e k + 1) - c_r k) = u32 (c_e k - c_r k) + 1) by (unfold u32 in *; lia).
  assert (Ew : 0 ≤ u32 (c_w k - c_r k) ∧ 0 ≤ u32 (c_e k - c_w k)) by (unfold u32; lia).
  assert (Ec : u8 c = c) by (unfold u8; lia).
  assert (Hj : c_e k mod 128 = (c_r k + Z.of_nat (Z.to_nat (u32 (c_e k - c_r k)))) mod 128).
  { rewrite Z2Nat.id by (unfold u32; lia). rewrite <- Zplus_mod_idemp_r, mod32_128, Zplus_mod_idemp_r. f_equal. lia. }
  destruct (ring_upd (c_buf k) 128 (c_r k) (Z.to_nat (u32 (c_e k - c_r k))) (u8 c) (c_e k mod 128)) as [_ R]; [lia | lia | done|].
  change (ring (c_buf k) 128 (c_r k) (Z.to_nat (u32 (c_e k - c_r k)))) with (typed k) in R. rewrite Hs in R.
  assert (Happ : ready (append c k) ++ editing (append c k) = ready k ++ editing k ++ [c]).
  { rewrite Ec in R. rewrite app_assoc, <- R. rewrite <- Ec at 3. unfold ready, editing, append. simpl. unfold INPUT_BUF_SIZE.
    replace (S (Z.to_nat (u32 (c_e k - c_r k)))) with
      (Z.to_nat (u32 (c_w k - c_r k)) + Z.to_nat (u32 (u32 (c_e k + 1) - c_w k)))%nat by lia.
    rewrite ring_app. f_equal. apply ring_mod; [done|]. rewrite Z2Nat.id by lia.
    rewrite <- Zplus_mod_idemp_r, mod32_128, Zplus_mod_idemp_r. f_equal. lia. }
  apply app_inj_1 in Happ as [A1 A2]; [|unfold ready, append; simpl; by rewrite !ring_length].
  split; [done|]. split; [done|]. split; [|done]. unfold cons_wf, INPUT_BUF_SIZE. simpl. rewrite Ee. unfold u32 in *. lia.
Qed.

(** Dropping the last character of the line. *)
Lemma erase_ok k :
  cons_ok k → c_e k ≠ c_w k →
  let k' := set_c_e (u32 (c_e k - 1)) k in
  cons_ok k' ∧ ready k' = ready k ∧ editing k' = removelast (editing k) ∧
  editing k = removelast (editing k) ++ [c_buf k (u32 (c_e k - 1) mod INPUT_BUF_SIZE)] ∧
  u32 (c_e k' - c_w k) + 1 = u32 (c_e k - c_w k).
Proof.
  intros [(H1 & H2 & H3 & H4) H5] Hne. cbv zeta. unfold INPUT_BUF_SIZE in *.
  assert (Ee : u32 (u32 (c_e k - 1) - c_w k) + 1 = u32 (c_e k - c_w k)) by (unfold u32 in *; lia).
  assert (Ew : 0 ≤ u32 (u32 (c_e k - 1) - c_w k)) by (unfold u32; lia).
  assert (E : editing k = editing (set_c_e (u32 (c_e k - 1)) k) ++ [c_buf k (u32 (c_e k - 1) mod 128)]).
  { unfold editing. simpl. unfold INPUT_BUF_SIZE. rewrite <- Ee, Z2Nat.inj_add, Nat.add_1_r, ring_snoc by lia.
    do 3 f_equal. rewrite Z2Nat.id by lia. rewrite <- Zplus_mod_idemp_r, !mod32_128, Zplus_mod_idemp_r.
    rewrite <- (Zplus_mod_idemp_r (u32 _ - _)), <- Zminus_mod_idemp_l, mod32_128. lia. }
  rewrite E, removelast_last. split; [|done]. split.
  - unfold cons_wf, INPUT_BUF_SIZE. simpl. unfold u32 in *. lia.
  - intros Hin. apply H5. rewrite E. apply elem_of_app. by left.
Qed.

(** Output leaves the input and the processes alone. *)
Definition same_input (t t' : tty) : Prop := t_cons t' = t_cons t ∧ t_procs t' = t_procs t ∧ t_cur t' = t_cur t ∧ t_ticks t' = t_ticks t.

Lemma consputc_wp c t : wp (consputc c) t (λ _ t', same_input t t').
Proof.
  unfold consputc, uartputc_sync. destruct (c =? BACKSPACE); [apply wp_bind, wp_modify, wp_bind, wp_modify|]; by apply wp_modify.
Qed.

Lemma conswrite_wp l t : wp (conswrite l) t (λ _ t', same_input t t').
Proof.
  revert t. induction l as [|c l IH]; intros t; [by apply wp_ret|]. cbn [conswrite]. apply wp_bind.
  eapply wp_mono; [apply consputc_wp|]. intros _ t1 (E1 & E2 & E3 & E4). eapply wp_mono; [apply IH|].
  intros _ t2 (F1 & F2 & F3 & F4). unfold same_input. by rewrite F1, F2, F3, F4.
Qed.

Lemma kill_line_wp fuel t :
  cons_ok (t_cons t) → Z.of_nat fuel = u32 (c_e (t_cons t) - c_w (t_cons t)) →
  wp (kill_line fuel) t (λ _ t', cons_ok (t_cons t') ∧ ready (t_cons t') = ready (t_cons t) ∧
    editing (t_cons t') = [] ∧ t_procs t' = t_procs t).
Proof.
  revert t. induction fuel as [|f IH]; intros t Hk Hf; cbn [kill_line]; apply wp_bind, wp_gets; pose proof Hk as [(H1 & H2 & H3 & H4) H5].
  - rewrite (proj2 (Z.eqb_eq (c_e (t_cons t)) (c_w (t_cons t)))) by (unfold u32 in *; lia). apply wp_ret.
    split; [done|]. split; [done|]. split; [|done]. unfold editing. by rewrite <- Hf.
  - assert (Hne : c_e (t_cons t) ≠ c_w (t_cons t)) by (intros E; rewrite E, Z.sub_diag in Hf; done).
    destruct (erase_ok _ Hk Hne) as (K & R & E & E' & N).
    rewrite (proj2 (Z.eqb_neq _ _) Hne). rewrite (proj2 (Z.eqb_neq (c_buf _ _) newline)); cbn [orb].
    2: { intros En. apply H5. rewrite E', En. apply elem_of_app. right. by left. }
    apply wp_bind, wp_modify, wp_bind. eapply wp_mono; [apply consputc_wp|]. intros _ t1 (F1 & F2 & _).
    eapply wp_mono; [apply IH; rewrite F1; [exact K|]|].
    + simpl. simpl in N. lia.
    + rewrite F1, F2. intros _ t2 (G1 & G2 & G3 & G4). split; [done|]. split; [by rewrite G2|]. done.
Qed.

Lemma commit_line k : cons_wf k → let k' := set_c_w (c_e k) k in cons_ok k' ∧ ready k' = ready k ++ editing k ∧ editing k' = [].
Proof.
  intros Hk. cbv zeta. pose proof (typed_len k Hk) as Ht. pose proof Hk as (H1 & H2 & H3 & H4).
  assert (E0 : editing (set_c_w (c_e k) k) = []) by (unfold editing; simpl; by rewrite Z.sub_diag).
  split; [|split; [by rewrite <- typed_split | done]]. split; [|rewrite E0; apply not_elem_of_nil].
  unfold cons_wf, INPUT_BUF_SIZE in *. simpl. rewrite Z.sub_diag. unfold u32 in *. lia.
Qed.

Lemma typed_count k : cons_wf k → u32 (c_e k - c_r k) = Z.of_nat (length (ready k) + length (editing k)).
Proof.
  intros Hk. rewrite <- length_app, <- typed_split by done. unfold typed. rewrite ring_length. unfold u32. lia.
Qed.

(** A character that is stored. *)
Lemma cstore_wp c t :
  0 ≤ c < 256 → cons_ok (t_cons t) → u32 (c_e (t_cons t) - c_r (t_cons t)) < INPUT_BUF_SIZE →
  wp (consputc c;; modify (set_cons (append c));;
      k ← gets t_cons;
      when ((c =? newline) || (c =? ctrl 68) || (u32 (c_e k - c_r k) =? INPUT_BUF_SIZE))
        (modify (set_cons (set_c_w (c_e k)));; twakeup chan_cons_r)) t (λ _ t',
    let rd := ready (t_cons t) in
    let ed := editing (t_cons t) in
    cons_ok (t_cons t') ∧
    if (c =? newline) || (c =? ctrl 68) || (Z.of_nat (length rd + length ed) + 1 =? INPUT_BUF_SIZE)
    then ready (t_cons t') = rd ++ ed ++ [c] ∧ editing (t_cons t') = [] ∧
         t_procs t' = wakeup (t_cur t) chan_cons_r (t_ticks t) (t_procs t)
    else ready (t_cons t') = rd ∧ editing (t_cons t') = ed ++ [c] ∧ t_procs t' = t_procs t).
Proof.
  intros Hc [Hk Hn] Hr. destruct (append_ok _ c Hk Hr Hc) as (A1 & A2 & A3 & A4).
  apply wp_bind. eapply wp_mono; [apply consputc_wp|]. intros _ t1 (E1 & E2 & E3 & E4).
  apply wp_bind, wp_modify, wp_bind, wp_gets.
  change (t_cons (set_cons (append c) t1)) with (append c (t_cons t1)). rewrite E1. change (c_r (append c (t_cons t))) with (c_r (t_cons t)).
  rewrite A4, (typed_count _ Hk). destruct (_ || _ || _) eqn:Eb; cbn [when].
  - destruct (commit_line _ A3) as (C1 & C2 & C3). rewrite A1, A2 in C2.
    apply wp_bind, wp_modify. unfold twakeup. apply wp_bind, wp_gets, wp_bind, wp_gets, wp_modify. simpl.
    rewrite E1, E2, E3, E4, Eb. done.
  - apply wp_ret. cbv zeta. rewrite Eb. simpl. rewrite E1. split; [|done]. split; [done|]. rewrite A2. intros [|Hin]%elem_of_app; [done|].
    apply list_elem_of_singleton in Hin as <-. done.
Qed.

(** C35. The console implements a line discipline on two lists, the bytes a reader may
    take and the line being edited: Control-U empties the line, backspace and
    delete drop its last character, any other character is put at its end if fewer
    than 128 bytes are held; a newline, Control-D or the 128th byte hands the line
    over and wakes the readers.  The indices stay in order around the ring, and
    the line never contains a newline. *)
Theorem consoleintr_refines pol c t :
  0 ≤ c < 256 → cons_ok (t_cons t) →
  wp (consoleintr pol c) t (λ _ t',
    cons_ok (t_cons t') ∧
    (ready (t_cons t'), editing (t_cons t')) = edit c (ready (t_cons t), editing (t_cons t)) ∧
    t_procs t' = if bool_decide (ready (t_cons t') = ready (t_cons t)) then t_procs t
                 else wakeup (t_cur t) chan_cons_r (t_ticks t) (t_procs t)).
Proof.
  intros Hc Hk. unfold consoleintr, edit. apply wp_bind, wp_gets.
  destruct (c =? ctrl 80); [apply wp_bind, wp_gets; eapply wp_mono; [apply conswrite_wp|]|].
  { intros _ t' (E1 & E2 & _). rewrite E1, bool_decide_eq_true_2 by done. done. }
  destruct (c =? ctrl 85).
  { eapply wp_mono; [apply kill_line_wp; [done|]; rewrite Z2Nat.id; [done | unfold u32; lia]|].
    intros _ t' (K & R & E & P). rewrite R, E, bool_decide_eq_true_2 by done. done. }
  destruct ((c =? ctrl 72) || (c =? 127)).
  { destruct (Z.eqb_spec (c_e (t_cons t)) (c_w (t_cons t))) as [Ee|Ee]; cbn [negb when].
    - apply wp_ret. rewrite bool_decide_eq_true_2 by done. split; [done|]. split; [|done].
      assert (E0 : editing (t_cons t) = []) by (unfold editing; by rewrite Ee, Z.sub_diag). by rewrite E0.
    - destruct (erase_ok _ Hk Ee) as (K & R & E & _). apply wp_bind, wp_modify.
      eapply wp_mono; [apply consputc_wp|]. intros _ t' (F1 & F2 & _). rewrite F1, F2. simpl in *.
      rewrite R, E, bool_decide_eq_true_2 by done. done. }
  rewrite (typed_count _ (proj1 Hk)). destruct (nonzero c && _) eqn:Eb; cbn [when].
  2: { apply wp_ret. rewrite bool_decide_eq_true_2 by done. done. }
  apply andb_true_iff in Eb as [_ Hl%Z.ltb_lt]. cbv zeta. set (c' := if c =? 13 then newline else c).
  eapply wp_mono; [apply (cstore_wp c' t); [unfold c', newline; destruct (c =? 13); lia | done|]|].
  { by rewrite (typed_count _ (proj1 Hk)). }
  intros _ t' [K H]. split; [done|]. destruct (_ || _ || _); destruct H as (H1 & H2 & H3); rewrite H1, H2.
  - split; [done|]. rewrite bool_decide_eq_false_2; [done|]. intros E. apply (f_equal length) in E.
    rewrite !length_app in E. simpl in E. lia.
  - split; [done|]. by rewrite bool_decide_eq_true_2.
Qed.

(** A console that has been started. *)
Definition tty0 : tty :=
  Tty (Console (λ _, 0) 0 0 0) (Uart (λ _, 0) 0 0 1 [] []) [] None 0 (KState (λ _, 0) 0 (λ _, 0)).

Lemma uart_in_order_witness : wp (uartputc 65) tty0 (λ _ t', sent (t_uart t') = [65]).
Proof.
  assert (H : tx_ok (t_uart tty0)) by (split; [simpl; lia | split; [simpl; lia | split; [done | done]]]).
  destruct (uart_in_order 65 tty0 H) as [_ P]. eapply wp_mono; [exact P|]. intros u t' [_ E]. exact E.
Defined.

Lemma consoleintr_refines_witness :
  wp (consoleintr RR 97) tty0 (λ _ t', editing (t_cons t') = [97]).
Proof.
  assert (H : cons_ok (t_cons tty0)).
  { split; [split; [simpl; lia | split; [simpl; lia | split; [simpl; lia | done]]] | apply not_elem_of_nil]. }
  eapply wp_mono; [apply (consoleintr_refines RR 97 tty0 ltac:(lia) H)|].
  intros u t' (_ & E & _). injection E as _ E. exact E.
Defined.
