(* ===== verification/Kern.v ===== *)
(** * The state of the kernel

    The components put together, as one system call sees them: the file system over
    its blocks, physical memory, the process table, open files, pipes, the console.
    The call runs on behalf of one process, [myproc()].  The operations of a
    component run on its part of the state. *)

From stdpp Require Import base numbers list strings.
From S2P Require Import Prelude Layout Kalloc Vm ProcState Sched Pipe Bio Block Fs Printf Console.
Local Open Scope Z_scope.

(** ** Addresses of code the kernel stores in registers and structures *)
Class Symbols : Type := {
  sym_forkret : Z;
  sym_usertrap : Z;
  sym_kernelvec : Z;
  sym_uservec : Z;
  sym_userret : Z;
}.

(** ** Open files (kernel/file.h) *)

Inductive ftype : Type := FD_NONE | FD_PIPE | FD_INODE | FD_DEVICE.

#[global] Instance ftype_eq_dec : EqDecision ftype.
Proof. solve_decision. Defined.

(** [f_pipe] is the address of the pipe, [f_ip] a slot of the inode table. *)
Record file : Type := File {
  f_type : ftype;
  f_ref : Z;
  f_readable : Z;
  f_writable : Z;
  f_pipe : Z;
  f_ip : nat;
  f_off : Z;
  f_major : Z;
}.

Definition file_zero : file := File FD_NONE 0 0 0 0 0 0 0.

Definition fset_type (v : ftype) (f : file) : file :=
  File v (f_ref f) (f_readable f) (f_writable f) (f_pipe f) (f_ip f) (f_off f) (f_major f).
Definition fset_ref (v : Z) (f : file) : file :=
  File (f_type f) v (f_readable f) (f_writable f) (f_pipe f) (f_ip f) (f_off f) (f_major f).
Definition fset_mode (r w : Z) (f : file) : file :=
  File (f_type f) (f_ref f) r w (f_pipe f) (f_ip f) (f_off f) (f_major f).
Definition fset_pipe (v : Z) (f : file) : file :=
  File (f_type f) (f_ref f) (f_readable f) (f_writable f) v (f_ip f) (f_off f) (f_major f).
Definition fset_ip (v : nat) (f : file) : file :=
  File (f_type f) (f_ref f) (f_readable f) (f_writable f) (f_pipe f) v (f_off f) (f_major f).
Definition fset_off (v : Z) (f : file) : file :=
  File (f_type f) (f_ref f) (f_readable f) (f_writable f) (f_pipe f) (f_ip f) v (f_major f).
Definition fset_major (v : Z) (f : file) : file :=
  File (f_type f) (f_ref f) (f_readable f) (f_writable f) (f_pipe f) (f_ip f) (f_off f) v.

(** ** The state *)

(** [pipes] gives the pipe in the page at an address; [cur] is the slot of the
    process the system call runs for. *)
Record kern (S : Type) : Type := Kern {
  fs : fstate S;
  procs : list proc;
  files : list file;
  pipes : Z → pipe;
  cons : console;
  tx : uart;
  nextpid : Z;
  ticks : Z;
  initproc : option nat;
  cur : nat;
}.
Arguments Kern {S}.
Arguments fs {S}. Arguments procs {S}. Arguments files {S}. Arguments pipes {S}. Arguments cons {S}.
Arguments tx {S}. Arguments nextpid {S}. Arguments ticks {S}. Arguments initproc {S}. Arguments cur {S}.

Section Kern.
Context {S : Type} `{BO : BlockOps S} `{L : Linker}.

Definition set_fs (v : fstate S) (k : kern S) : kern S :=
  Kern v (procs k) (files k) (pipes k) (cons k) (tx k) (nextpid k) (ticks k) (initproc k) (cur k).
Definition set_kprocs (f : list proc → list proc) (k : kern S) : kern S :=
  Kern (fs k) (f (procs k)) (files k) (pipes k) (cons k) (tx k) (nextpid k) (ticks k) (initproc k) (cur k).
Definition set_files (f : list file → list file) (k : kern S) : kern S :=
  Kern (fs k) (procs k) (f (files k)) (pipes k) (cons k) (tx k) (nextpid k) (ticks k) (initproc k) (cur k).
Definition set_pipes (v : Z → pipe) (k : kern S) : kern S :=
  Kern (fs k) (procs k) (files k) v (cons k) (tx k) (nextpid k) (ticks k) (initproc k) (cur k).
Definition set_tty (c : console) (u : uart) (k : kern S) : kern S :=
  Kern (fs k) (procs k) (files k) (pipes k) c u (nextpid k) (ticks k) (initproc k) (cur k).
Definition set_nextpid (v : Z) (k : kern S) : kern S :=
  Kern (fs k) (procs k) (files k) (pipes k) (cons k) (tx k) v (ticks k) (initproc k) (cur k).
Definition set_ticks (v : Z) (k : kern S) : kern S :=
  Kern (fs k) (procs k) (files k) (pipes k) (cons k) (tx k) (nextpid k) v (initproc k) (cur k).
Definition set_initproc (v : option nat) (k : kern S) : kern S :=
  Kern (fs k) (procs k) (files k) (pipes k) (cons k) (tx k) (nextpid k) (ticks k) v (cur k).

(** ** Processes and files by slot *)

Definition pat (k : kern S) (i : nat) : proc := default proc_zero (procs k !! i).
Definition getp (i : nat) : M (kern S) proc := gets (λ k, pat k i).
Definition setp (i : nat) (f : proc → proc) : M (kern S) unit := modify (set_kprocs (alter f i)).

(** [myproc()]. *)
Definition myslot : M (kern S) nat := gets cur.
Definition myproc : M (kern S) proc := gets (λ k, pat k (cur k)).
Definition setmy (f : proc → proc) : M (kern S) unit := i ← myslot; setp i f.

Definition fat (k : kern S) (i : nat) : file := default file_zero (files k !! i).
Definition getf (i : nat) : M (kern S) file := gets (λ k, fat k i).
Definition setf (i : nat) (f : file → file) : M (kern S) unit := modify (set_files (alter f i)).

(** ** Running an operation of a component *)

(** The file system works for [myproc()]: its page table, directory and pid. *)
Definition fs_for (p : proc) (s : fstate S) : fstate S :=
  FState (blocks s) (sb s) (itable s) (umem s) (p_pagetable p) (default 0%nat (p_cwd p)) (p_pid p).
Definition onfs {A} (m : M (fstate S) A) : M (kern S) A :=
  zoom (λ k, fs_for (pat k (cur k)) (fs k)) set_fs m.

(** Memory, with the allocator and the page tables in it. *)
Definition kmem (k : kern S) : kstate := umem (fs k).
Definition set_kmem (v : kstate) (k : kern S) : kern S := set_fs (set_umem v (fs k)) k.
Definition onmem {A} (m : M kstate A) : M (kern S) A := zoom kmem set_kmem m.

(** The console. *)
Definition get_tty (k : kern S) : tty := Tty (cons k) (tx k) (procs k) (Some (cur k)) (ticks k) (kmem k).
Definition put_tty (t : tty) (k : kern S) : kern S :=
  set_kmem (t_mem t) (set_kprocs (λ _, t_procs t) (set_tty (t_cons t) (t_uart t) k)).
Definition ontty {A} (m : M tty A) : M (kern S) A := zoom get_tty put_tty m.

(** [wakeup], [killed]. *)
Definition kwakeup (c : chanaddr) : M (kern S) unit :=
  modify (λ k, set_kprocs (wakeup (Some (cur k)) c (ticks k)) k).

(** The pipe at address [a].  Two probes, asleep on its two channels, tell which of
    them the operation woke; [&pi->nread] and [&pi->nwrite] are bytes 536 and 540
    of the page. *)
Definition probe (c : pchan) : pproc := PProc CRead 0 0 0 0 (Asleep c 0).
Definition get_pipe (a : Z) (k : kern S) : pstate :=
  PState (kmem k) (pipes k a) None [probe ChRead; probe ChWrite].
Definition woken (s : pstate) (i : nat) : bool :=
  match users s !! i with
  | Some q => match q_pc q with Asleep _ _ => false | _ => true end
  | None => false
  end.
Definition wake_if (b : bool) (c : chanaddr) (k : kern S) : kern S :=
  if b then set_kprocs (wakeup (Some (cur k)) c (ticks k)) k else k.
Definition put_pipe (a : Z) (s : pstate) (k : kern S) : kern S :=
  wake_if (woken s 1) (ChanAddr (a + 540)) (wake_if (woken s 0) (ChanAddr (a + 536))
    (set_kmem (vms s) (set_pipes (λ b, if b =? a then pi s else pipes k b) k))).
Definition onpipe {A} (a : Z) (m : M pstate A) : M (kern S) A := zoom (get_pipe a) (put_pipe a) m.

(** [begin_op], [end_op]. *)
Definition begin : M (kern S) unit := onfs (onb blk_begin).
Definition finish : M (kern S) unit := onfs (onb blk_end).

(** [printf] to the console. *)
Definition kprintf (l : list Z) : M (kern S) unit := ontty (conswrite l).

(** ** Lemmas *)

Lemma wp_onmem {A} (m : M kstate A) (k : kern S) (Q : A → kern S → Prop) :
  wp m (kmem k) (λ a s, Q a (set_kmem s k)) → wp (onmem m) k Q.
Proof. apply wp_zoom. Qed.

Lemma kmem_set s (k : kern S) : kmem (set_kmem s k) = s.
Proof. done. Qed.
End Kern.
