(* ===== verification/File.v ===== *)
(** * Open files (kernel/file.c, pipealloc of kernel/pipe.c)

    The table of open files with its reference counts, and reading and writing
    through an open file.  The lock of the table makes each of its critical
    sections one step; where a pipe or the console makes the caller sleep, the
    outcome is [Block]. *)

From stdpp Require Import base numbers list strings.
From S2P Require Import Prelude Layout Kalloc Vm ProcState Sched Pipe Bio Block Fs Printf Console Kern.
Local Open Scope Z_scope.

Definition CONSOLE : Z := 1.
Definition fmax : Z := (MAXOPBLOCKS - 1 - 1 - 2) / 2 * BSIZE.

Section File.
Context {S : Type} `{BO : BlockOps S} `{L : Linker}.

(** ** The table *)

Fixpoint find_free (i : nat) (l : list file) : option nat :=
  match l with
  | [] => None
  | f :: l' => if f_ref f =? 0 then Some i else find_free (Datatypes.S i) l'
  end.

Definition filealloc : M (kern S) (option nat) :=
  l ← gets files;
  match find_free 0 l with
  | Some i => setf i (fset_ref 1);; mret (Some i)
  | None => mret None
  end.

Definition filedup (i : nat) : M (kern S) nat :=
  f ← getf i;
  if f_ref f <? 1 then panic "filedup"
  else setf i (fset_ref (i32 (f_ref f + 1)));; mret i.

Definition fileclose (i : nat) : M (kern S) unit :=
  f ← getf i;
  if f_ref f <? 1 then panic "fileclose"
  else
    let ref := f_ref f - 1 in
    if 0 <? ref then setf i (fset_ref ref)
    else
      let ff := f in
      setf i (λ f, fset_type FD_NONE (fset_ref 0 f));;
      match f_type ff with
      | FD_PIPE => onpipe (f_pipe ff) (pipeclose (f_pipe ff) (nonzero (f_writable ff)))
      | FD_INODE | FD_DEVICE => begin;; onfs (iput (f_ip ff));; finish
      | FD_NONE => mret tt
      end.

(** ** Metadata *)

(** [struct stat] in memory: the four bytes before [size] are padding, which the
    code leaves as the stack had them. *)
Definition stat_bytes (pad : list Z) (st : stat) : list Z :=
  let d := store32 (λ _, 0) 0 (st_dev st) in
  let d := store32 d 4 (st_ino st) in
  let d := store16 d 8 (st_type st) in
  let d := store16 d 10 (st_nlink st) in
  let d := store64 d 16 (st_size st) in
  let d := write_bytes 12 (take 4 pad) d in
  read_bytes 0 24 d.

Definition filestat (pad : list Z) (i : nat) (addr : Z) : M (kern S) Z :=
  f ← getf i;
  match f_type f with
  | FD_INODE | FD_DEVICE =>
      onfs (ilock (f_ip f));;
      st ← onfs (stati (f_ip f));
      onfs (iunlock (f_ip f));;
      p ← myproc;
      r ← onmem (copyout (p_pagetable p) addr (stat_bytes pad st));
      if r <? 0 then mret (-1) else mret 0
  | _ => mret (-1)
  end.

(** ** Reading and writing *)

(** A call on a pipe up to its return; if it has to sleep first, it blocks. *)
Definition pipe_result (r : pnext) : M (kern S) Z :=
  match r with
  | Returns v | Faults v _ => mret v
  | Sleeps _ => block "pipe"
  | Again _ _ | Enter => diverge
  end.

Definition pipe_caller (c : pcall) (addr n : Z) (p : proc) : pproc :=
  PProc c (p_pagetable p) addr n (killed p) AtEntry.

(** [devsw[major].read] and [devsw[major].write]: the console is the only device
    (consoleinit). *)
Definition has_dev (major : Z) : bool := (0 <=? major) && (major <? NDEV) && (major =? CONSOLE).

Definition fileread (i : nat) (addr n : Z) : M (kern S) Z :=
  f ← getf i;
  if f_readable f =? 0 then mret (-1)
  else match f_type f with
  | FD_PIPE =>
      p ← myproc;
      r ← onpipe (f_pipe f) (piperead (pipe_caller CRead addr n p));
      pipe_result r
  | FD_DEVICE => if has_dev (f_major f) then ontty (consoleread addr n) else mret (-1)
  | FD_INODE =>
      onfs (ilock (f_ip f));;
      r ← onfs (readi (f_ip f) (User addr) (f_off f) (u32 n));
      when (0 <? r.1) (setf i (fset_off (u32 (f_off f + r.1))));;
      onfs (iunlock (f_ip f));;
      mret r.1
  | FD_NONE => panic "fileread"
  end.

(** The loop of [filewrite]; it returns [i]. *)
Fixpoint filewrite_loop (fuel : nat) (i : nat) (addr n k : Z) : M (kern S) Z :=
  if k <? n then
    match fuel with
    | O => diverge
    | Datatypes.S fu =>
        let n1 := if fmax <? n - k then fmax else n - k in
        f ← getf i;
        begin;;
        onfs (ilock (f_ip f));;
        r ← onfs (writei (f_ip f) (FromUser (u64 (addr + k))) (f_off f) n1);
        when (0 <? r) (setf i (fset_off (u32 (f_off f + r))));;
        onfs (iunlock (f_ip f));;
        finish;;
        if negb (r =? n1) then mret k else filewrite_loop fu i addr n (k + r)
    end
  else mret k.

Definition filewrite (i : nat) (addr n : Z) : M (kern S) Z :=
  f ← getf i;
  if f_writable f =? 0 then mret (-1)
  else match f_type f with
  | FD_PIPE =>
      p ← myproc;
      r ← onpipe (f_pipe f) (pipewrite (pipe_caller CWrite addr n p));
      pipe_result r
  | FD_DEVICE => if has_dev (f_major f) then ontty (consolewrite addr n) else mret (-1)
  | FD_INODE =>
      k ← filewrite_loop (Z.to_nat n) i addr n 0;
      mret (if k =? n then n else -1)
  | FD_NONE => panic "filewrite"
  end.

(** ** [pipealloc] *)

Definition pipe_new (old : pipe) : pipe := Pipe (data old) 0 0 1 1.

(** The page for the pipe holds whatever it held before. *)
Definition pipealloc : M (kern S) (option (nat * nat)) :=
  f0 ← filealloc;
  match f0 with
  | None => mret None
  | Some f0 =>
      f1 ← filealloc;
      match f1 with
      | None => fileclose f0;; mret None
      | Some f1 =>
          pi ← onmem kalloc;
          if pi =? 0 then fileclose f0;; fileclose f1;; mret None
          else
            modify (λ k, set_pipes (λ b, if b =? pi then pipe_new (pipes k b) else pipes k b) k);;
            setf f0 (λ f, fset_pipe pi (fset_mode 1 0 (fset_type FD_PIPE f)));;
            setf f1 (λ f, fset_pipe pi (fset_mode 0 1 (fset_type FD_PIPE f)));;
            mret (Some (f0, f1))
      end
  end.
End File.
