(* ===== verification/Proc.v ===== *)
(** * The life of a process (kernel/proc.c)

    Allocation, [fork], [exit], [wait] and [waitx], and the first process.  A
    process holds [p->lock] from [allocproc] to the end of [fork], and [wait_lock]
    is held throughout [wait] and the end of [exit], so each of these sections is
    one step of the process table; [wait] sleeping is the outcome [Block]. *)

From stdpp Require Import base numbers list strings.
From S2P Require Import Prelude Str Layout Kalloc Vm ProcState Sched Pipe Bio Block Fs Dir Printf Console Kern File.
Local Open Scope Z_scope.

(** ** Trap frames (kernel/proc.h) *)

Definition tf_kernel_satp : Z := 0.
Definition tf_kernel_sp : Z := 8.
Definition tf_kernel_trap : Z := 16.
Definition tf_epc : Z := 24.
Definition tf_kernel_hartid : Z := 32.
Definition tf_sp : Z := 48.
Definition tf_a0 : Z := 112.
Definition tf_a1 : Z := 120.
Definition tf_a7 : Z := 168.
Definition sizeof_trapframe : Z := 288.

(** The four bytes of an [int] or [uint]. *)
Definition int_bytes (v : Z) : list Z := read_bytes 0 4 (store32 (λ _, 0) 0 v).

(** [safestrcpy(p->name, new, sizeof(p->name))]. *)
Definition copy_name (old new : list Z) : list Z := read_bytes 0 16 (safestrcpy 0 4096 16 (two_arrays old new)).

Section Proc.
Context {S : Type} `{BO : BlockOps S} `{L : Linker} `{Y : Symbols}.

Definition tf_get (p : proc) (off : Z) : M (kern S) Z := onmem (loadM (p_trapframe p + off)).
Definition tf_set (p : proc) (off v : Z) : M (kern S) unit := onmem (storeM (p_trapframe p + off) v).

(** ** Allocation *)

Definition allocpid : M (kern S) Z :=
  pid ← gets nextpid;
  modify (set_nextpid (i32 (pid + 1)));;
  mret pid.

Fixpoint find_unused (i : nat) (t : list proc) : option nat :=
  match t with
  | [] => None
  | p :: t' => if has_state UNUSED p then Some i else find_unused (Datatypes.S i) t'
  end.

(** The assignments after [found:], and those at the end. *)
Definition alloc_init (pid tk : Z) (p : proc) : proc :=
  let p := set_state USED (set_pid pid p) in
  let p := set_createTime (i32 tk) p in
  let p := set_priority 60 p in
  let p := set_timesScheduled 0 p in
  let p := set_trace 0 p in
  let p := set_tickets 1 p in
  let p := set_niceness 5 p in
  let p := set_lastSlept (-1) p in
  let p := set_lastScheduled 0 p in
  let p := set_timeRun 0 p in
  let p := set_timeRanInQueue 0 p in
  let p := set_timeSlept 0 p in
  let p := set_alarmFreq 0 p in
  let p := set_lastAlarm 0 p in
  set_alarmRunning 0 p.

Definition alloc_final (tk : Z) (p : proc) : proc :=
  let p := set_context (sym_forkret :: u64 (p_kstack p + PGSIZE) :: replicate 12 0) p in
  let p := set_rtime 0 p in
  let p := set_etime 0 p in
  let p := set_ctime (u32 tk) p in
  let p := set_entryTime (i32 tk) p in
  let p := set_queue 0 p in
  set_timeRanInQueue 0 p.

Definition freeproc (i : nat) : M (kern S) unit :=
  p ← getp i;
  when (nonzero (p_trapframe p)) (onmem (kfree (p_trapframe p)));;
  setp i (set_trapframe 0);;
  when (nonzero (p_pagetable p)) (onmem (proc_freepagetable (p_pagetable p) (p_sz p)));;
  setp i (λ p,
    let p := set_pagetable 0 p in
    let p := set_sz 0 p in
    let p := set_pid 0 p in
    let p := set_parent None p in
    let p := set_name (<[0%nat := 0]> (p_name p)) p in
    let p := set_chan NoChan p in
    let p := set_killed 0 p in
    let p := set_xstate 0 p in
    set_state UNUSED p).

Definition allocproc : M (kern S) (option nat) :=
  t ← gets procs;
  match find_unused 0 t with
  | None => mret None
  | Some i =>
      pid ← allocpid;
      tk ← gets ticks;
      setp i (alloc_init pid tk);;
      tf ← onmem kalloc;
      setp i (set_trapframe tf);;
      if tf =? 0 then freeproc i;; mret None
      else
        pt ← onmem (proc_pagetable tf);
        setp i (set_pagetable pt);;
        if pt =? 0 then freeproc i;; mret None
        else
          setp i (alloc_final tk);;
          mret (Some i)
  end.

(** ** The first process *)

Definition initcode : list Z :=
  [0x17; 0x05; 0x00; 0x00; 0x13; 0x05; 0x45; 0x02;
   0x97; 0x05; 0x00; 0x00; 0x93; 0x85; 0x35; 0x02;
   0x93; 0x08; 0x70; 0x00; 0x73; 0x00; 0x00; 0x00;
   0x93; 0x08; 0x20; 0x00; 0x73; 0x00; 0x00; 0x00;
   0xef; 0xf0; 0x9f; 0xff; 0x2f; 0x69; 0x6e; 0x69;
   0x74; 0x00; 0x00; 0x24; 0x00; 0x00; 0x00; 0x00;
   0x00; 0x00; 0x00; 0x00].

Definition userinit : M (kern S) unit :=
  r ← allocproc;
  modify (set_initproc r);;
  match r with
  | None => panic "fault"
  | Some i =>
      p ← getp i;
      onmem (uvmfirst (p_pagetable p) initcode);;
      setp i (set_sz PGSIZE);;
      tf_set p tf_epc 0;;
      tf_set p tf_sp PGSIZE;;
      setp i (λ p, set_name (copy_name (p_name p) (chars "initcode")) p);;
      cwd ← onfs (namei (chars "/"));
      setp i (set_cwd cwd);;
      setp i (set_state RUNNABLE)
  end.

(** ** Memory *)

Definition growproc (n : Z) : M (kern S) Z :=
  p ← myproc;
  let sz := p_sz p in
  if 0 <? n then
    sz' ← onmem (uvmalloc (p_pagetable p) sz (u64 (sz + n)) PTE_W);
    if sz' =? 0 then mret (-1) else setmy (set_sz sz');; mret 0
  else if n <? 0 then
    sz' ← onmem (uvmdealloc (p_pagetable p) sz (u64 (sz + n)));
    setmy (set_sz sz');; mret 0
  else setmy (set_sz sz);; mret 0.

(** ** [fork] *)

(** The descriptors, from [fd] on. *)
Fixpoint dup_files (fd : nat) (fds : list (option nat)) (np : nat) : M (kern S) unit :=
  match fds with
  | [] => mret tt
  | o :: fds' =>
      match o with
      | Some f => f' ← filedup f; setp np (λ q, set_ofile (<[fd := Some f']> (p_ofile q)) q)
      | None => mret tt
      end;;
      dup_files (Datatypes.S fd) fds' np
  end.

Definition fork : M (kern S) Z :=
  me ← myslot;
  p ← myproc;
  r ← allocproc;
  match r with
  | None => mret (-1)
  | Some np =>
      q ← getp np;
      c ← onmem (uvmcopy (p_pagetable p) (p_pagetable q) (p_sz p));
      if c <? 0 then freeproc np;; mret (-1)
      else
        setp np (set_sz (p_sz p));;
        onmem (memmoveM (p_trapframe q) (p_trapframe p) sizeof_trapframe);;
        tf_set q tf_a0 0;;
        dup_files 0 (p_ofile p) np;;
        match p_cwd p with
        | None => panic "fault"
        | Some d => d' ← onfs (idup d); setp np (set_cwd (Some d'))
        end;;
        setp np (λ q, set_name (copy_name (p_name q) (p_name p)) q);;
        q ← getp np;
        let pid := p_pid q in
        p ← myproc;
        setp np (λ q, set_tickets (p_tickets p) (set_trace (p_trace p) (set_parent (Some me) q)));;
        setp np (set_state RUNNABLE);;
        mret pid
  end.

(** ** [exit] *)

Fixpoint reparent (i : nat) (n : nat) (p : nat) : M (kern S) unit :=
  match n with
  | O => mret tt
  | Datatypes.S n' =>
      pp ← getp i;
      init ← gets initproc;
      when (bool_decide (p_parent pp = Some p))
        (setp i (set_parent init);;
         match init with Some k => kwakeup (ChanProc k) | None => kwakeup NoChan end);;
      reparent (Datatypes.S i) n' p
  end.

Fixpoint close_files (fd : nat) (fds : list (option nat)) : M (kern S) unit :=
  match fds with
  | [] => mret tt
  | o :: fds' =>
      match o with
      | Some f => fileclose f;; setmy (λ p, set_ofile (<[fd := None]> (p_ofile p)) p)
      | None => mret tt
      end;;
      close_files (Datatypes.S fd) fds'
  end.

(** [exit], up to the call of [sched], from which it does not return. *)
Definition exit (status : Z) : M (kern S) unit :=
  me ← myslot;
  init ← gets initproc;
  if bool_decide (init = Some me) then panic "init exiting"
  else
    p ← myproc;
    close_files 0 (p_ofile p);;
    match p_cwd p with
    | None => panic "fault"
    | Some d => begin;; onfs (iput d);; finish
    end;;
    setmy (set_cwd None);;
    n ← gets (λ k, length (procs k));
    reparent 0 n me;;
    p ← myproc;
    match p_parent p with Some k => kwakeup (ChanProc k) | None => kwakeup NoChan end;;
    tk ← gets ticks;
    setmy (λ p, set_etime (u32 tk) (set_state ZOMBIE (set_xstate status p))).

(** The guards of [sched]: the message of the panic, if any. *)
Definition sched_panics (held : bool) (noff : Z) (st : procstate) (intr : bool) : option string :=
  if negb held then Some "sched p->lock"
  else if negb (noff =? 1) then Some "sched locks"
  else if bool_decide (st = RUNNING) then Some "sched running"
  else if intr then Some "sched interruptible"
  else None.

(** ** [wait] *)

(** Whether [me] has children, and the first of them that is a zombie. *)
Fixpoint find_child (i : nat) (me : nat) (t : list proc) : bool * option nat :=
  match t with
  | [] => (false, None)
  | p :: t' =>
      if bool_decide (p_parent p = Some me) then
        if has_state ZOMBIE p then (true, Some i) else (true, (find_child (Datatypes.S i) me t').2)
      else find_child (Datatypes.S i) me t'
  end.

(** Copying out the status and freeing the child. *)
Definition reap (i : nat) (addr : Z) : M (kern S) Z :=
  p ← myproc;
  q ← getp i;
  r ← (if nonzero addr then onmem (copyout (p_pagetable p) addr (int_bytes (p_xstate q))) else mret 0);
  if r <? 0 then mret (-1)
  else freeproc i;; mret (p_pid q).

Definition wait (addr : Z) : M (kern S) Z :=
  me ← myslot;
  t ← gets procs;
  p ← myproc;
  match find_child 0 me t with
  | (_, Some i) => reap i addr
  | (havekids, None) => if negb havekids || nonzero (killed p) then mret (-1) else block "wait"
  end.

(** The times are those of the child that was found, if any. *)
Definition waitx (addr : Z) : M (kern S) (Z * option (Z * Z)) :=
  me ← myslot;
  t ← gets procs;
  p ← myproc;
  match find_child 0 me t with
  | (_, Some i) =>
      q ← getp i;
      let rtime := p_rtime q in
      let wtime := u32 (p_etime q - p_ctime q - p_rtime q) in
      r ← reap i addr;
      mret (r, Some (wtime, rtime))
  | (havekids, None) =>
      if negb havekids || nonzero (p_killed p) then mret (-1, None) else block "wait"
  end.
End Proc.
