(* ===== verification/Sysproc.v ===== *)
(** * System calls: their arguments, and those on processes (kernel/syscall.c,
    kernel/sysproc.c)

    Fetching words and strings from the registers and the memory of the process.  A
    call returns its value, or nothing if it does not return to the process. *)

From stdpp Require Import base numbers list strings.
From S2P Require Import Prelude Str Layout Kalloc Vm ProcState Sched Pipe Bio Block Fs Dir Printf Console Kern File Proc.
Local Open Scope Z_scope.

Section SysArg.
Context {S : Type} `{BO : BlockOps S} `{L : Linker}.

(** The result and the word. *)
Definition fetchaddr (addr : Z) : M (kern S) (Z * Z) :=
  p ← myproc;
  if (p_sz p <=? addr) || (p_sz p <? u64 (addr + 8)) then mret (-1, 0)
  else
    r ← onmem (copyin (p_pagetable p) addr 8);
    if negb (r.1 =? 0) then mret (-1, 0) else mret (0, load64 (byte_at r.2) 0).

(** The result and the bytes copied to [buf]. *)
Definition fetchstr (addr max : Z) : M (kern S) (Z * list Z) :=
  p ← myproc;
  r ← onmem (copyinstr (p_pagetable p) addr max);
  if r.1 <? 0 then mret (-1, r.2) else mret (Z.of_nat (length (cstring r.2)), r.2).

Definition argraw (n : Z) : M (kern S) Z :=
  p ← myproc;
  if (0 <=? n) && (n <=? 5) then tf_get p (tf_a0 + 8 * n)
  else panic "argraw".

Definition argint (n : Z) : M (kern S) Z := v ← argraw n; mret (i32 v).
Definition argaddr (n : Z) : M (kern S) Z := argraw n.

(** The string, or nothing on an error. *)
Definition argstr (n max : Z) : M (kern S) (option (list Z)) :=
  addr ← argaddr n;
  r ← fetchstr addr max;
  mret (if r.1 <? 0 then None else Some (cstring r.2)).
End SysArg.

(** [-1] as the [uint64] a call returns. *)
Definition fails : Z := u64 (-1).

Section Sysproc.
Context {S : Type} `{BO : BlockOps S} `{L : Linker} `{Y : Symbols} (pol : policy).

(** [yield]: the process is RUNNABLE, and runs again when the scheduler picks it;
    the steps of the others in between are those of [mstep]. *)
Definition kyield : M (kern S) unit :=
  tk ← gets ticks;
  setmy (λ p, dispatch pol tk (yield1 tk p)).

Definition sys_exit : M (kern S) (option Z) := n ← argint 0; exit n;; mret None.

Definition sys_getpid : M (kern S) (option Z) := p ← myproc; mret (Some (u64 (p_pid p))).

Definition sys_fork : M (kern S) (option Z) := r ← fork; mret (Some (u64 r)).

Definition sys_wait : M (kern S) (option Z) := a ← argaddr 0; r ← wait a; mret (Some (u64 r)).

Definition sys_sbrk : M (kern S) (option Z) :=
  n ← argint 0;
  p ← myproc;
  let addr := p_sz p in
  r ← growproc n;
  if r <? 0 then mret (Some fails) else mret (Some addr).

(** Whether the loop of [sys_sleep] goes on; [n] is compared as a [uint]. *)
Definition sleeping (ticks0 n now : Z) : bool := u32 (now - ticks0) <? u32 n.

Definition sys_sleep : M (kern S) (option Z) :=
  n ← argint 0;
  ticks0 ← gets ticks;
  now ← gets ticks;
  p ← myproc;
  if sleeping ticks0 n now then
    if nonzero (killed p) then mret (Some fails) else block "ticks"
  else mret (Some 0).

Definition sys_kill : M (kern S) (option Z) :=
  pid ← argint 0;
  t ← gets procs;
  let r := kill pid t in
  modify (set_kprocs (λ _, r.2));;
  mret (Some (u64 r.1)).

Definition sys_uptime : M (kern S) (option Z) := t ← gets ticks; mret (Some t).

Definition sys_trace : M (kern S) (option Z) :=
  mask ← argint 0;
  if mask <? 2 then mret (Some fails)
  else setmy (set_trace mask);; mret (Some 0).

Definition sys_settickets : M (kern S) (option Z) :=
  tickets ← argint 0;
  if tickets <? 1 then mret (Some fails)
  else setmy (set_tickets tickets);; mret (Some 0).

(** [returnVal > priority] compares as [uint64]. *)
Definition sys_set_priority : M (kern S) (option Z) :=
  priority ← argint 0;
  process_id ← argint 1;
  t ← gets procs;
  match getProc 0 process_id t with
  | None => mret (Some fails)
  | Some i =>
      p ← getp i;
      let returnVal := u64 (p_priority p) in
      setp i (λ p, set_timeSlept 0 (set_timeRun 0 (set_niceness 5 (set_priority priority p))));;
      when (u64 priority <? returnVal) kyield;;
      mret (Some returnVal)
  end.

Definition sys_sigalarm : M (kern S) (option Z) :=
  interval ← argint 0;
  handler ← argaddr 1;
  if interval <=? 0 then setmy (set_alarmFreq 0);; mret (Some fails)
  else
    setmy (λ p, set_lastAlarm 0 (set_alarmHandler handler (set_alarmFreq interval p)));;
    mret (Some 0).

Definition sys_sigreturn : M (kern S) (option Z) :=
  p ← myproc;
  setmy (set_alarmRunning 0);;
  onmem (memmoveM (p_trapframe p) (p_backupTrapFrame p) sizeof_trapframe);;
  onmem (kfree (p_backupTrapFrame p));;
  a ← tf_get p tf_a0;
  mret (Some a).

(** [junk] is what the variables [wtime] and [rtime] hold before [waitx]. *)
Definition sys_waitx (junk : Z * Z) : M (kern S) (option Z) :=
  addr ← argaddr 0;
  addr1 ← argaddr 1;
  addr2 ← argaddr 2;
  r ← waitx addr;
  p ← myproc;
  let '(wtime, rtime) := default junk r.2 in
  c1 ← onmem (copyout (p_pagetable p) addr1 (int_bytes wtime));
  if c1 <? 0 then mret (Some fails)
  else
    c2 ← onmem (copyout (p_pagetable p) addr2 (int_bytes rtime));
    if c2 <? 0 then mret (Some fails) else mret (Some (u64 r.1)).
End Sysproc.
