(* ===== verification/Sysfile.v ===== *)
(** * System calls on files (kernel/sysfile.c)

    A call returns its value.  Names and paths are their bytes up to the
    terminating NUL; an array of the stack that a call fills starts out as zeros. *)

From stdpp Require Import base numbers list strings.
From S2P Require Import Prelude Str Layout Kalloc Vm ProcState Sched Pipe Bio Block Fs Dir Printf Console Kern File Proc.
From S2P Require Import Sysproc.
Local Open Scope Z_scope.

Definition O_RDONLY : Z := 0x000.
Definition O_WRONLY : Z := 0x001.
Definition O_RDWR : Z := 0x002.
Definition O_CREATE : Z := 0x200.
Definition O_TRUNC : Z := 0x400.

Definition name0 : list Z := replicate (Z.to_nat DIRSIZ) 0.

Section Sysfile.
Context {S : Type} `{BO : BlockOps S} `{L : Linker} `{Y : Symbols}.

(** ** Descriptors *)

(** The descriptor and its file, or nothing. *)
Definition argfd (n : Z) : M (kern S) (option (Z * nat)) :=
  fd ← argint n;
  p ← myproc;
  if (fd <? 0) || (NOFILE <=? fd) then mret None
  else mret (match p_ofile p !! Z.to_nat fd with Some (Some f) => Some (fd, f) | _ => None end).

Fixpoint find_fd (fd : nat) (l : list (option nat)) : option nat :=
  match l with
  | [] => None
  | None :: _ => Some fd
  | Some _ :: l' => find_fd (Datatypes.S fd) l'
  end.

Definition set_fd (fd : nat) (o : option nat) : M (kern S) unit :=
  setmy (λ p, set_ofile (<[fd := o]> (p_ofile p)) p).

Definition fdalloc (f : nat) : M (kern S) Z :=
  p ← myproc;
  match find_fd 0 (p_ofile p) with
  | Some fd => set_fd fd (Some f);; mret (Z.of_nat fd)
  | None => mret (-1)
  end.

Definition sys_dup : M (kern S) (option Z) :=
  r ← argfd 0;
  match r with
  | None => mret (Some fails)
  | Some (_, f) =>
      fd ← fdalloc f;
      if fd <? 0 then mret (Some fails) else filedup f;; mret (Some fd)
  end.

Definition sys_read : M (kern S) (option Z) :=
  p ← argaddr 1;
  n ← argint 2;
  r ← argfd 0;
  match r with
  | None => mret (Some fails)
  | Some (_, f) => v ← fileread f p n; mret (Some (u64 v))
  end.

Definition sys_write : M (kern S) (option Z) :=
  p ← argaddr 1;
  n ← argint 2;
  r ← argfd 0;
  match r with
  | None => mret (Some fails)
  | Some (_, f) => v ← filewrite f p n; mret (Some (u64 v))
  end.

Definition sys_close : M (kern S) (option Z) :=
  r ← argfd 0;
  match r with
  | None => mret (Some fails)
  | Some (fd, f) => set_fd (Z.to_nat fd) None;; fileclose f;; mret (Some 0)
  end.

Definition sys_fstat (pad : list Z) : M (kern S) (option Z) :=
  st ← argaddr 1;
  r ← argfd 0;
  match r with
  | None => mret (Some fails)
  | Some (_, f) => v ← filestat pad f st; mret (Some (u64 v))
  end.

(** ** Links *)

(** The label [bad] of [sys_link]. *)
Definition link_bad (ip : nat) : M (kern S) (option Z) :=
  onfs (ilock ip;; setip ip (λ i, iset_nlink (i16 (i_nlink i - 1)) i);; iupdate ip;; iunlockput ip);;
  finish;;
  mret (Some fails).

Definition sys_link : M (kern S) (option Z) :=
  old ← argstr 0 MAXPATH;
  match old with
  | None => mret (Some fails)
  | Some old =>
      new ← argstr 1 MAXPATH;
      match new with
      | None => mret (Some fails)
      | Some new =>
          begin;;
          r ← onfs (namei old);
          match r with
          | None => finish;; mret (Some fails)
          | Some ip =>
              onfs (ilock ip);;
              i ← onfs (getip ip);
              if i_type i =? T_DIR then onfs (iunlockput ip);; finish;; mret (Some fails)
              else
                onfs (setip ip (λ i, iset_nlink (i16 (i_nlink i + 1)) i);; iupdate ip;; iunlock ip);;
                d ← onfs (nameiparent new name0);
                match d with
                | (None, _) => link_bad ip
                | (Some dp, name) =>
                    onfs (ilock dp);;
                    di ← onfs (getip dp);
                    i ← onfs (getip ip);
                    if negb (i_dev di =? i_dev i) then onfs (iunlockput dp);; link_bad ip
                    else
                      l ← onfs (dirlink dp name (i_inum i));
                      if l <? 0 then onfs (iunlockput dp);; link_bad ip
                      else onfs (iunlockput dp);; onfs (iput ip);; finish;; mret (Some 0)
                end
          end
      end
  end.

Fixpoint isdirempty_loop (fuel : nat) (dp : nat) (off : Z) : M (fstate S) bool :=
  i ← getip dp;
  if off <? i_size i then
    match fuel with
    | O => diverge
    | Datatypes.S f =>
        r ← readi dp Kernel off sizeof_dirent;
        if negb (r.1 =? sizeof_dirent) then panic "isdirempty: readi"
        else if nonzero (de_inum r.2) then mret false
        else isdirempty_loop f dp (off + sizeof_dirent)
    end
  else mret true.

Definition isdirempty (dp : nat) : M (fstate S) bool :=
  i ← getip dp;
  isdirempty_loop (Z.to_nat (i_size i)) dp (2 * sizeof_dirent).

(** The label [bad] of [sys_unlink]. *)
Definition unlink_bad (dp : nat) : M (kern S) (option Z) :=
  onfs (iunlockput dp);; finish;; mret (Some fails).

Definition sys_unlink : M (kern S) (option Z) :=
  path ← argstr 0 MAXPATH;
  match path with
  | None => mret (Some fails)
  | Some path =>
      begin;;
      d ← onfs (nameiparent path name0);
      match d with
      | (None, _) => finish;; mret (Some fails)
      | (Some dp, name) =>
          onfs (ilock dp);;
          if (namecmp name (chars ".") =? 0) || (namecmp name (chars "..") =? 0) then unlink_bad dp
          else
            r ← onfs (dirlookup dp name);
            match r with
            | None => unlink_bad dp
            | Some (ip, off) =>
                onfs (ilock ip);;
                i ← onfs (getip ip);
                if i_nlink i <? 1 then panic "unlink: nlink < 1"
                else
                  e ← (if i_type i =? T_DIR then onfs (isdirempty ip) else mret true);
                  if negb e then onfs (iunlockput ip);; unlink_bad dp
                  else
                    w ← onfs (writei dp (FromKernel (replicate (Z.to_nat sizeof_dirent) 0)) off sizeof_dirent);
                    if negb (w =? sizeof_dirent) then panic "unlink: writei"
                    else
                      when (i_type i =? T_DIR)
                        (onfs (setip dp (λ i, iset_nlink (i16 (i_nlink i - 1)) i);; iupdate dp));;
                      onfs (iunlockput dp);;
                      onfs (setip ip (λ i, iset_nlink (i16 (i_nlink i - 1)) i);; iupdate ip;; iunlockput ip);;
                      finish;;
                      mret (Some 0)
            end
      end
  end.

(** ** Creating and opening *)

(** The label [fail] of [create]. *)
Definition create_fail (ip dp : nat) : M (fstate S) (option nat) :=
  setip ip (iset_nlink 0);; iupdate ip;; iunlockput ip;; iunlockput dp;; mret None.

Definition create (path : list Z) (type major minor : Z) : M (fstate S) (option nat) :=
  d ← nameiparent path name0;
  match d with
  | (None, _) => mret None
  | (Some dp, name) =>
      ilock dp;;
      r ← dirlookup dp name;
      match r with
      | Some (ip, _) =>
          iunlockput dp;;
          ilock ip;;
          i ← getip ip;
          if (type =? T_FILE) && ((i_type i =? T_FILE) || (i_type i =? T_DEVICE)) then mret (Some ip)
          else iunlockput ip;; mret None
      | None =>
          di ← getip dp;
          a ← ialloc (i_dev di) type;
          match a with
          | None => iunlockput dp;; mret None
          | Some ip =>
              ilock ip;;
              setip ip (λ i, iset_nlink 1 (iset_majmin major minor i));;
              iupdate ip;;
              i ← getip ip;
              ok ← (if type =? T_DIR then
                      l1 ← dirlink ip (chars ".") (i_inum i);
                      if l1 <? 0 then mret false
                      else l2 ← dirlink ip (chars "..") (i_inum di); mret (negb (l2 <? 0))
                    else mret true);
              if negb ok then create_fail ip dp
              else
                l ← dirlink dp name (i_inum i);
                if l <? 0 then create_fail ip dp
                else
                  when (type =? T_DIR) (setip dp (λ i, iset_nlink (i16 (i_nlink i + 1)) i);; iupdate dp);;
                  iunlockput dp;;
                  mret (Some ip)
          end
      end
  end.

(** The first half of [sys_open]: the inode, locked. *)
Definition open_inode (path : list Z) (omode : Z) : M (fstate S) (option nat) :=
  if nonzero (Z.land omode O_CREATE) then create path T_FILE 0 0
  else
    r ← namei path;
    match r with
    | None => mret None
    | Some ip =>
        ilock ip;;
        i ← getip ip;
        if (i_type i =? T_DIR) && negb (omode =? O_RDONLY) then iunlockput ip;; mret None
        else mret (Some ip)
    end.

(** The second half, with file [f] and descriptor [fd]. *)
Definition open_file (ip f : nat) (fd omode : Z) : M (kern S) (option Z) :=
  i ← onfs (getip ip);
  (if i_type i =? T_DEVICE then setf f (λ x, fset_major (i_major i) (fset_type FD_DEVICE x))
   else setf f (λ x, fset_off 0 (fset_type FD_INODE x)));;
  setf f (λ x, fset_mode (if nonzero (Z.land omode O_WRONLY) then 0 else 1)
    (if nonzero (Z.land omode O_WRONLY) || nonzero (Z.land omode O_RDWR) then 1 else 0) (fset_ip ip x));;
  when (nonzero (Z.land omode O_TRUNC) && (i_type i =? T_FILE)) (onfs (itrunc ip));;
  onfs (iunlock ip);;
  finish;;
  mret (Some fd).

Definition sys_open : M (kern S) (option Z) :=
  omode ← argint 1;
  path ← argstr 0 MAXPATH;
  match path with
  | None => mret (Some fails)
  | Some path =>
      begin;;
      r ← onfs (open_inode path omode);
      match r with
      | None => finish;; mret (Some fails)
      | Some ip =>
          i ← onfs (getip ip);
          if (i_type i =? T_DEVICE) && ((i_major i <? 0) || (NDEV <=? i_major i)) then
            onfs (iunlockput ip);; finish;; mret (Some fails)
          else
            f ← filealloc;
            match f with
            | None => onfs (iunlockput ip);; finish;; mret (Some fails)
            | Some f =>
                fd ← fdalloc f;
                if fd <? 0 then fileclose f;; onfs (iunlockput ip);; finish;; mret (Some fails)
                else open_file ip f fd omode
            end
      end
  end.

Definition sys_mkdir : M (kern S) (option Z) :=
  begin;;
  path ← argstr 0 MAXPATH;
  match path with
  | None => finish;; mret (Some fails)
  | Some path =>
      r ← onfs (create path T_DIR 0 0);
      match r with
      | None => finish;; mret (Some fails)
      | Some ip => onfs (iunlockput ip);; finish;; mret (Some 0)
      end
  end.

Definition sys_mknod : M (kern S) (option Z) :=
  begin;;
  major ← argint 1;
  minor ← argint 2;
  path ← argstr 0 MAXPATH;
  match path with
  | None => finish;; mret (Some fails)
  | Some path =>
      r ← onfs (create path T_DEVICE (i16 major) (i16 minor));
      match r with
      | None => finish;; mret (Some fails)
      | Some ip => onfs (iunlockput ip);; finish;; mret (Some 0)
      end
  end.

Definition sys_chdir : M (kern S) (option Z) :=
  p ← myproc;
  begin;;
  path ← argstr 0 MAXPATH;
  match path with
  | None => finish;; mret (Some fails)
  | Some path =>
      r ← onfs (namei path);
      match r with
      | None => finish;; mret (Some fails)
      | Some ip =>
          onfs (ilock ip);;
          i ← onfs (getip ip);
          if negb (i_type i =? T_DIR) then onfs (iunlockput ip);; finish;; mret (Some fails)
          else
            onfs (iunlock ip);;
            match p_cwd p with Some d => onfs (iput d) | None => panic "fault" end;;
            finish;;
            setmy (set_cwd (Some ip));;
            mret (Some 0)
      end
  end.

(** ** Pipes *)

Definition sys_pipe : M (kern S) (option Z) :=
  p ← myproc;
  fdarray ← argaddr 0;
  r ← pipealloc;
  match r with
  | None => mret (Some fails)
  | Some (rf, wf) =>
      fd0 ← fdalloc rf;
      if fd0 <? 0 then fileclose rf;; fileclose wf;; mret (Some fails)
      else
        fd1 ← fdalloc wf;
        if fd1 <? 0 then
          set_fd (Z.to_nat fd0) None;; fileclose rf;; fileclose wf;; mret (Some fails)
        else
          c0 ← onmem (copyout (p_pagetable p) fdarray (int_bytes fd0));
          c1 ← (if c0 <? 0 then mret (-1) else onmem (copyout (p_pagetable p) (u64 (fdarray + 4)) (int_bytes fd1)));
          if c1 <? 0 then
            set_fd (Z.to_nat fd0) None;; set_fd (Z.to_nat fd1) None;;
            fileclose rf;; fileclose wf;; mret (Some fails)
          else mret (Some 0)
  end.
End Sysfile.
