(* ===== verification/Exec.v ===== *)
(** * Programs (kernel/exec.c, sys_exec of kernel/sysfile.c)

    Loading an ELF file into a new page table, building the stack and replacing the
    image of the process. *)

From stdpp Require Import base numbers list strings.
From S2P Require Import Prelude Str Layout Kalloc Vm ProcState Sched Pipe Bio Block Fs Dir Printf Console Kern File Proc.
From S2P Require Import Sysproc Sysfile.
Local Open Scope Z_scope.

(** ** ELF (kernel/elf.h) *)

Definition ELF_MAGIC : Z := 0x464C457F.
Definition ELF_PROG_LOAD : Z := 1.
Definition sizeof_elfhdr : Z := 64.
Definition sizeof_proghdr : Z := 56.

Record elfhdr : Type := ElfHdr { e_magic : Z; e_entry : Z; e_phoff : Z; e_phnum : Z }.
Record proghdr : Type := ProgHdr {
  ph_type : Z; ph_flags : Z; ph_off : Z; ph_vaddr : Z; ph_filesz : Z; ph_memsz : Z;
}.

Definition read_elfhdr (bs : list Z) : elfhdr :=
  let d := byte_at bs in ElfHdr (load32 d 0) (load64 d 24) (load64 d 32) (load16 d 56).
Definition read_proghdr (bs : list Z) : proghdr :=
  let d := byte_at bs in
  ProgHdr (load32 d 0) (load32 d 4) (load64 d 8) (load64 d 16) (load64 d 32) (load64 d 40).

Definition flags2perm (flags : Z) : Z :=
  let perm := if nonzero (Z.land flags 1) then PTE_X else 0 in
  if nonzero (Z.land flags 2) then Z.lor perm PTE_W else perm.

(** The part of the path after its last slash. *)
Fixpoint last_elem (last path : list Z) : list Z :=
  match path with
  | [] => last
  | c :: path' => if c =? slash then last_elem path' path' else last_elem last path'
  end.

(** The bytes of an array of [uint64]. *)
Fixpoint words_bytes (l : list Z) : list Z :=
  match l with
  | [] => []
  | w :: l' => read_bytes 0 8 (store64 (λ _, 0) 0 w) ++ words_bytes l'
  end.

Section Exec.
Context {S : Type} `{BO : BlockOps S} `{L : Linker} `{Y : Symbols}.

(** ** Segments *)

(** [loadseg] from [i] on; the bytes of the file go straight to the page. *)
Fixpoint loadseg_loop (fuel : nat) (pagetable va : Z) (ip : nat) (offset sz i : Z) : M (kern S) Z :=
  if i <? sz then
    match fuel with
    | O => diverge
    | Datatypes.S f =>
        pa ← onmem (walkaddr pagetable (u64 (va + i)));
        if pa =? 0 then panic "loadseg: address should exist"
        else
          let n := if sz - i <? PGSIZE then sz - i else PGSIZE in
          r ← onfs (readi ip Kernel (u32 (offset + i)) n);
          onmem (modify (set_mem (write_bytes pa r.2)));;
          if negb (r.1 =? n) then mret (-1)
          else loadseg_loop f pagetable va ip offset sz (u32 (i + PGSIZE))
    end
  else mret 0.

Definition loadseg (pagetable va : Z) (ip : nat) (offset sz : Z) : M (kern S) Z :=
  loadseg_loop (Z.to_nat (sz / PGSIZE + 1)) pagetable va ip offset sz 0.

(** What one program header does: the new size, or nothing on an error. *)
Definition load_ph (pagetable sz : Z) (ip : nat) (ph : proghdr) : M (kern S) (bool * Z) :=
  if negb (ph_type ph =? ELF_PROG_LOAD) then mret (true, sz)
  else if ph_memsz ph <? ph_filesz ph then mret (false, sz)
  else if u64 (ph_vaddr ph + ph_memsz ph) <? ph_vaddr ph then mret (false, sz)
  else if nonzero (ph_vaddr ph mod PGSIZE) then mret (false, sz)
  else
    sz1 ← onmem (uvmalloc pagetable sz (u64 (ph_vaddr ph + ph_memsz ph)) (flags2perm (ph_flags ph)));
    if sz1 =? 0 then mret (false, sz)
    else
      r ← loadseg pagetable (ph_vaddr ph) ip (u32 (ph_off ph)) (u32 (ph_filesz ph));
      mret (negb (r <? 0), sz1).

(** The loop over the program headers: whether it succeeded, and the size. *)
Fixpoint load_loop (n : nat) (pagetable sz : Z) (ip : nat) (off : Z) : M (kern S) (bool * Z) :=
  match n with
  | O => mret (true, sz)
  | Datatypes.S n' =>
      r ← onfs (readi ip Kernel (u32 off) sizeof_proghdr);
      if negb (r.1 =? sizeof_proghdr) then mret (false, sz)
      else
        s ← load_ph pagetable sz ip (read_proghdr r.2);
        if negb s.1 then mret s
        else load_loop n' pagetable s.2 ip (i32 (off + sizeof_proghdr))
  end.

(** ** The stack *)

(** The strings of [argv]: the stack pointer and the addresses, or nothing. *)
Fixpoint push_args (pagetable stackbase sp argc : Z) (argv : list (list Z)) (ustack : list Z) :
    M (kern S) (option (Z * list Z)) :=
  match argv with
  | [] => mret (Some (sp, ustack ++ [0]))
  | a :: argv' =>
      if MAXARG <=? argc then mret None
      else
        let sp := u64 (sp - (Z.of_nat (length a) + 1)) in
        let sp := sp - sp mod 16 in
        if sp <? stackbase then mret None
        else
          r ← onmem (copyout pagetable sp (a ++ [0]));
          if r <? 0 then mret None
          else push_args pagetable stackbase sp (argc + 1) argv' (ustack ++ [sp])
  end.

(** ** [exec] *)

(** The label [bad]. *)
Definition exec_bad (pagetable sz : Z) (ip : option nat) : M (kern S) Z :=
  when (nonzero pagetable) (onmem (proc_freepagetable pagetable sz));;
  match ip with
  | Some ip => onfs (iunlockput ip);; finish
  | None => mret tt
  end;;
  mret (-1).

(** From the stack on, when the program is loaded at [pagetable] with size [sz]. *)
Definition exec_image (path : list Z) (argv : list (list Z)) (elf : elfhdr) (pagetable sz : Z) : M (kern S) Z :=
  p ← myproc;
  let oldsz := p_sz p in
  let sz := PGROUNDUP sz in
  sz1 ← onmem (uvmalloc pagetable sz (u64 (sz + 2 * PGSIZE)) PTE_W);
  if sz1 =? 0 then exec_bad pagetable sz None
  else
    let sz := sz1 in
    onmem (uvmclear pagetable (u64 (sz - 2 * PGSIZE)));;
    let stackbase := u64 (sz - PGSIZE) in
    r ← push_args pagetable stackbase sz 0 argv [];
    match r with
    | None => exec_bad pagetable sz None
    | Some (sp, ustack) =>
        let argc := Z.of_nat (length argv) in
        let sp := u64 (sp - (argc + 1) * 8) in
        let sp := sp - sp mod 16 in
        if sp <? stackbase then exec_bad pagetable sz None
        else
          r ← onmem (copyout pagetable sp (words_bytes ustack));
          if r <? 0 then exec_bad pagetable sz None
          else
            tf_set p tf_a1 sp;;
            setmy (λ p, set_name (copy_name (p_name p) (last_elem path path)) p);;
            let oldpagetable := p_pagetable p in
            setmy (λ p, set_sz sz (set_pagetable pagetable p));;
            tf_set p tf_epc (e_entry elf);;
            tf_set p tf_sp sp;;
            onmem (proc_freepagetable oldpagetable oldsz);;
            mret argc
    end.

Definition exec (path : list Z) (argv : list (list Z)) : M (kern S) Z :=
  p ← myproc;
  begin;;
  r ← onfs (namei path);
  match r with
  | None => finish;; mret (-1)
  | Some ip =>
      onfs (ilock ip);;
      h ← onfs (readi ip Kernel 0 sizeof_elfhdr);
      let elf := read_elfhdr h.2 in
      if negb (h.1 =? sizeof_elfhdr) then exec_bad 0 0 (Some ip)
      else if negb (e_magic elf =? ELF_MAGIC) then exec_bad 0 0 (Some ip)
      else
        pagetable ← onmem (proc_pagetable (p_trapframe p));
        if pagetable =? 0 then exec_bad 0 0 (Some ip)
        else
          s ← load_loop (Z.to_nat (e_phnum elf)) pagetable 0 ip (i32 (e_phoff elf));
          if negb s.1 then exec_bad pagetable s.2 (Some ip)
          else
            onfs (iunlockput ip);;
            finish;;
            exec_image path argv elf pagetable s.2
  end.

(** ** [sys_exec] *)

(** The loop over [argv]: whether it ended well, and the pages with their strings. *)
Fixpoint exec_args (n : nat) (uargv i : Z) (argv : list (Z * list Z)) : M (kern S) (bool * list (Z * list Z)) :=
  match n with
  | O => mret (false, argv)
  | Datatypes.S n' =>
      a ← fetchaddr (u64 (uargv + 8 * i));
      if a.1 <? 0 then mret (false, argv)
      else if a.2 =? 0 then mret (true, argv)
      else
        page ← onmem kalloc;
        if page =? 0 then mret (false, argv)
        else
          s ← fetchstr a.2 PGSIZE;
          onmem (modify (set_mem (write_bytes page s.2)));;
          let argv := argv ++ [(page, cstring s.2)] in
          if s.1 <? 0 then mret (false, argv) else exec_args n' uargv (i + 1) argv
  end.

Fixpoint free_args (pages : list Z) : M (kern S) unit :=
  match pages with
  | [] => mret tt
  | p :: pages' => onmem (kfree p);; free_args pages'
  end.

Definition sys_exec : M (kern S) (option Z) :=
  uargv ← argaddr 1;
  path ← argstr 0 MAXPATH;
  match path with
  | None => mret (Some fails)
  | Some path =>
      r ← exec_args (Z.to_nat MAXARG) uargv 0 [];
      if negb r.1 then free_args r.2.*1;; mret (Some fails)
      else
        ret ← exec path r.2.*2;
        free_args r.2.*1;;
        mret (Some (u64 ret))
  end.
End Exec.
