(* ===== verification/ExecLoad.v ===== *)
(** * Loading a program (kernel/exec.c)

    What the program headers of a file ask for, as a function of the bytes of the
    file, and that the loop of [exec] builds exactly that image in a new page table. *)

From stdpp Require Import base numbers list strings.
From S2P Require Import Prelude Str Layout Kalloc Vm PageTable Uvm Ucopy Freewalk Aspace Image.
From S2P Require Import ProcState Sched Pipe Bio Block Fs Dir FsAlloc FsFile FsInode FsRw Printf Console Kern File Proc.
From S2P Require Import Sysproc Sysfile Exec.
Local Open Scope Z_scope.

(** ** The specification *)

(** [n] bytes of a file from [off] on. *)
Definition slice (F : list Z) (off n : Z) : list Z := take (Z.to_nat n) (drop (Z.to_nat off) F).

(** The pages that hold [sz] bytes. *)
Definition pages (sz : Z) : Z := (sz + PGSIZE - 1) / PGSIZE.

(** A program in memory: its size, its bytes, the permissions of its pages. *)
Record image : Type := Img { im_sz : Z; im_byte : Z → Z; im_perm : list Z }.

Definition no_image : image := Img 0 (λ _, 0) [].

(** What a program header asks for, with a file of bytes [F]. *)
Definition load_seg (F : list Z) (ph : proghdr) (im : image) : option image :=
  if negb (ph_type ph =? ELF_PROG_LOAD) then Some im
  else
    let n := u32 (ph_filesz ph) in
    let sz := Z.max (im_sz im) (ph_vaddr ph + ph_memsz ph) in
    if (ph_filesz ph <=? ph_memsz ph) && (ph_vaddr ph + ph_memsz ph <? 2 ^ 64) && (ph_vaddr ph mod PGSIZE =? 0) &&
       (0 <? sz) && ((n =? 0) || (u32 (ph_off ph) + n <=? Z.of_nat (length F)))
    then Some (Img sz (write_bytes (ph_vaddr ph) (slice F (u32 (ph_off ph)) n) (im_byte im))
                (im_perm im ++ replicate (Z.to_nat (pages sz) - length (im_perm im)) (Z.lor (Z.lor PTE_R PTE_U) (flags2perm (ph_flags ph)))))
    else None.

(** The headers, [n] of them, from [off] on. *)
Fixpoint load_segs (F : list Z) (n : nat) (off : Z) (im : image) : option image :=
  match n with
  | O => Some im
  | Datatypes.S n' =>
      if u32 off + sizeof_proghdr <=? Z.of_nat (length F) then
        load_seg F (read_proghdr (slice F (u32 off) sizeof_proghdr)) im ≫= load_segs F n' (i32 (off + sizeof_proghdr))
      else None
  end.

(** ** Facts about bytes *)

Lemma length_slice F off n : 0 ≤ off → 0 ≤ n → off + n ≤ Z.of_nat (length F) → Z.of_nat (length (slice F off n)) = n.
Proof. intros Ho Hn H. unfold slice. rewrite length_take, length_drop. lia. Qed.

Lemma slice_app F off n m : 0 ≤ off → 0 ≤ n → 0 ≤ m → slice F off n ++ slice F (off + n) m = slice F off (n + m).
Proof.
  intros Ho Hn Hm. unfold slice. rewrite (Z2Nat.inj_add off n), (Z2Nat.inj_add n m), <- drop_drop, <- take_take_drop by lia. done.
Qed.

Lemma write_bytes_app a bs cs m : write_bytes a (bs ++ cs) m = write_bytes (a + Z.of_nat (length bs)) cs (write_bytes a bs m).
Proof.
  revert a m. induction bs as [|b bs IH]; intros a m; simpl; [by rewrite Z.add_0_r|]. rewrite IH. f_equal. lia.
Qed.

Lemma fbytes_slice V i off n : 0 ≤ off → 0 ≤ n → off + n ≤ i_size i →
  fbytes V i off (Z.to_nat n) = slice (fbytes V i 0 (Z.to_nat (i_size i))) off n.
Proof.
  intros Ho Hn H. unfold slice. replace (Z.to_nat (i_size i)) with (Z.to_nat off + (Z.to_nat n + Z.to_nat (i_size i - off - n)))%nat by lia.
  rewrite fbytes_app, drop_app_length' by (unfold fbytes; by rewrite length_fmap, length_seq).
  rewrite fbytes_app, take_app_length' by (unfold fbytes; by rewrite length_fmap, length_seq). f_equal. lia.
Qed.

Lemma pages_bounds sz : 0 ≤ sz → 0 ≤ pages sz ∧ (pages sz - 1) * PGSIZE < sz ≤ pages sz * PGSIZE.
Proof. unfold pages, PGSIZE. lia. Qed.

Lemma PGROUNDUP_pages sz : 0 ≤ sz < 2 ^ 64 - PGSIZE → PGROUNDUP sz = pages sz * PGSIZE.
Proof. intros H. rewrite PGROUNDUP_spec by done. unfold pages, PGSIZE. lia. Qed.

(** ** The file *)

Section Load.
Context {S : Type} `{BO : BlockOps S} {L : Linker} {LOk : LinkerOk L} `{Y : Symbols} (dev : Z) `{BL : !BlockLaws S dev} (f0 : fstate S).

(** The inode at slot [ip] is locked, in a transaction, and its file has the bytes [F];
    the file system is as in [f0]. *)
Record program (c : Z) (ip : nat) (i : inode) (F : list Z) (k : kern S) : Prop := Program {
  pg_inode : itable (fs k) !! ip = Some i;
  pg_in : binside (blocks (fs k)) [] None c;
  pg_ok : file_ok dev (sb (fs k)) (blocks (fs k)) i;
  pg_mapped : mapped (bview (blocks (fs k))) i;
  pg_size : 0 ≤ i_size i ≤ MAXFILE * BSIZE;
  pg_bytes : F = fbytes (bview (blocks (fs k))) i 0 (Z.to_nat (i_size i));
  pg_sb : sb (fs k) = sb f0;
  pg_table : itable (fs k) = itable f0;
  pg_step : bstep dev [] (bview (blocks f0)) (blocks f0) (blocks (fs k));
}.

(** Only the file system and the memory differ. *)
Definition rest (k k' : kern S) : Prop := k' = set_fs (fs k') k.

Lemma rest_refl k : rest k k.
Proof. by destruct k. Qed.

Lemma rest_trans k1 k2 k3 : rest k1 k2 → rest k2 k3 → rest k1 k3.
Proof. unfold rest. intros -> ->. done. Qed.

Lemma rest_mem s k : rest k (set_kmem s k).
Proof. done. Qed.

Lemma program_mem c ip i F s k : program c ip i F k → program c ip i F (set_kmem s k).
Proof. intros [H1 H2 H3 H4 H5 H6 H7 H8 H9]. by split. Qed.

Lemma length_program c ip i F k : program c ip i F k → Z.of_nat (length F) = i_size i ∧ Z.of_nat (length F) ≤ 274432.
Proof.
  intros P. rewrite (pg_bytes _ _ _ _ _ P). unfold fbytes. rewrite length_fmap, length_seq. pose proof (pg_size _ _ _ _ _ P) as H.
  unfold MAXFILE, NDIRECT, NINDIRECT, BSIZE in H. lia.
Qed.

(** [readi] of [n] bytes returns them, or fewer when the file ends before. *)
Lemma readi_program_wp c ip i F k off n : program c ip i F k → 0 ≤ off < 2 ^ 32 → 0 < n ≤ 2 ^ 31 →
  wp (onfs (readi ip Kernel off n)) k (λ r k', program c ip i F k' ∧ rest k k' ∧ kmem k' = kmem k ∧
    Z.of_nat (length r.2) = r.1 ∧ r.1 ≤ n ∧ (off + n ≤ Z.of_nat (length F) → r = (n, slice F off n)) ∧ (Z.of_nat (length F) < off + n → r.1 < n)).
Proof.
  intros P Hoff Hn. destruct (length_program _ _ _ _ _ P) as [HF HM]. pose proof P as [H1 H2 H3 H4 H5 H6 H7 H8 H9]. apply wp_zoom.
  destruct (Z.ltb_spec (off + n) (2 ^ 32)) as [Hlt|Hge].
  - eapply wp_mono; [by apply (readi_wp dev _ ip i off n c); (done || lia)|]. intros r s' [-> R].
    pose proof R as (b & -> & I & St). pose proof (reads_file dev _ _ _ _ R H3) as H3'. pose proof (bstep_eq dev _ _ _ _ St) as E. simpl in E, H3'.
    simpl. split; [|split; [done|]].
    + split; simpl; [done | done | done | by rewrite E | done | by rewrite E | done | done|].
      eapply bstep_trans; [exact H9|]. eapply bstep_ext; [exact St|]. apply (bs_view _ _ _ _ _ H9).
    + split; [done|]. unfold clip. assert (Hl : Z.of_nat (length (fbytes (bview (blocks (fs k))) i off (Z.to_nat (Z.max 0 (Z.min n (i_size i - off)))))) = Z.max 0 (Z.min n (i_size i - off)))
        by (unfold fbytes; rewrite length_fmap, length_seq; lia).
      split; [done|]. split; [lia|]. split; [|lia]. intros Hle. replace (Z.max 0 (Z.min n (i_size i - off))) with n by lia.
      f_equal. rewrite H6. apply fbytes_slice; lia.
  - unfold readi. eapply getip_wp; [done|]. replace (u32 (off + n) <? off) with true.
    2:{ symmetry. apply Z.ltb_lt. unfold u32. replace (off + n) with ((off + n - 2 ^ 32) + 1 * 2 ^ 32) by lia. rewrite Z.mod_add, Z.mod_small by lia. lia. }
    rewrite orb_true_r. apply wp_ret. simpl. split; [by split | split; [done|]]. split; [done|]. split; [done|]. split; [lia|]. split; lia.
Qed.

(** ** The memory *)

(** Permissions of a page the process may read. *)
Definition user_perm (p : Z) : Prop := 0 ≤ p < 1024 ∧ Z.testbit p 1 = true ∧ Z.testbit p 4 = true.

(** The image [im] is in the pages [ws] of a new address space. *)
Record loaded (s0 s : kstate) (l : list Z) (root tf : Z) (ws : list Z) (im : image) : Prop := Loaded {
  ld_inv : kinv s l;
  ld_built : built s0 s root tf ws;
  ld_shows : shows s ws (im_byte im);
  ld_ends : ends ws (im_byte im);
  ld_perms : perms ws (im_perm im);
  ld_user : Forall user_perm (im_perm im);
  ld_len : Z.of_nat (length ws) = pages (im_sz im);
  ld_sz : 0 ≤ im_sz im;
}.

Context (s0 : kstate) (root tf : Z).

Lemma loaded_size s l ws im : loaded s0 s l root tf ws im →
  im_sz im ≤ 2 ^ 27 ∧ PGROUNDUP (im_sz im) = Z.of_nat (length ws) * PGSIZE ∧ length (im_perm im) = length ws.
Proof.
  intros H. pose proof (built_len _ _ _ _ _ (ld_built _ _ _ _ _ _ _ H)) as Hl. pose proof (ld_len _ _ _ _ _ _ _ H) as E.
  pose proof (ld_sz _ _ _ _ _ _ _ H) as Hz. pose proof (pages_bounds (im_sz im) Hz) as [_ Hb]. rewrite <- E in Hb.
  assert (im_sz im ≤ 2 ^ 27) by (unfold PGSIZE in *; lia). split; [done|]. rewrite PGROUNDUP_pages by (unfold PGSIZE; lia).
  split; [lia|]. symmetry. eapply Forall2_length, (ld_perms _ _ _ _ _ _ _ H).
Qed.

(** The page of an address of the image. *)
Lemma loaded_page s l ws im va : loaded s0 s l root tf ws im → 0 ≤ va < im_sz im →
  ∃ w, ws !! Z.to_nat (va / PGSIZE) = Some w ∧ pte_of (mem s) root va = w ∧ Z.testbit w 0 = true ∧ Z.testbit w 4 = true ∧ va < MAXVA ∧ 0 < PTE2PA w.
Proof.
  intros H Hva. destruct (loaded_size _ _ _ _ H) as (Hm & _ & Hp). pose proof (ld_len _ _ _ _ _ _ _ H) as Hlen.
  pose proof (built_len _ _ _ _ _ (ld_built _ _ _ _ _ _ _ H)). pose proof (pages_bounds (im_sz im) ltac:(lia)) as [_ Hb].
  destruct (lookup_lt_is_Some_2 ws (Z.to_nat (va / PGSIZE))) as [w Hw]; [unfold PGSIZE in *; lia|]. exists w. split; [done|].
  destruct (Forall2_lookup_l _ _ _ _ _ (ld_perms _ _ _ _ _ _ _ H) Hw) as (p & Hip & q & Hq & ->).
  pose proof (Forall_lookup_1 _ _ _ _ (ld_user _ _ _ _ _ _ _ H) Hip) as (Hp1 & Hp2 & Hp3). destruct (valid_page_bounds q Hq) as [Hqb Hqa].
  assert (va < MAXVA) by (rewrite MAXVA_value; lia). rewrite !entry_bit, entry_page, Hp3 by (done || lia).
  split_and!; [|by rewrite orb_true_r|done|done|lia].
  rewrite (bt_space _ _ _ _ _ (ld_built _ _ _ _ _ _ _ H)), space_user by (done || unfold PGSIZE in *; lia). by rewrite Hw.
Qed.

(** Bytes of the file go to one page. *)
Lemma loaded_write s l ws z b ps w a bs :
  loaded s0 s l root tf ws (Img z b ps) → ws !! Z.to_nat (a / PGSIZE) = Some w → 0 ≤ a → a mod PGSIZE = 0 → Z.of_nat (length bs) ≤ PGSIZE →
  loaded s0 (set_mem (write_bytes (PTE2PA w) bs) s) l root tf ws (Img z (write_bytes a bs b) ps).
Proof.
  intros [H1 H2 H3 H4 H5 H6 H7 H8] Hw Ha Hm Hl.
  destruct (built_write s0 s l root tf ws _ w 0 bs H2 H1 Hw ltac:(lia) ltac:(lia)) as (B & K & Sh). rewrite Z.add_0_r in *.
  split; try done.
  - simpl. replace a with (Z.of_nat (Z.to_nat (a / PGSIZE)) * PGSIZE + 0) by (unfold PGSIZE in *; lia). by apply Sh.
  - intros x Hx. simpl. pose proof (lookup_lt_Some _ _ _ Hw). rewrite write_bytes_out by (unfold PGSIZE in *; lia). by apply H4.
Qed.

(** ** [loadseg] *)

Lemma loadseg_loop_wp c ip i F fuel k l ws z b ps va off sz j :
  program c ip i F k → va mod PGSIZE = 0 → 0 ≤ va → va + sz ≤ z → 0 ≤ off < 2 ^ 32 → 0 ≤ sz < 2 ^ 32 → 0 ≤ j → j mod PGSIZE = 0 →
  (0 < j → off + Z.min j sz ≤ Z.of_nat (length F)) → sz - j < Z.of_nat fuel * PGSIZE →
  loaded s0 (kmem k) l root tf ws (Img z (write_bytes va (slice F off (Z.min j sz)) b) ps) →
  wp (loadseg_loop fuel root va ip off sz j) k (λ r k', program c ip i F k' ∧ rest k k' ∧
    ((r = 0 ∧ (sz = 0 ∨ off + sz ≤ Z.of_nat (length F)) ∧ loaded s0 (kmem k') l root tf ws (Img z (write_bytes va (slice F off sz) b) ps)) ∨
     (r = -1 ∧ Z.of_nat (length F) < off + sz ∧ 0 < sz ∧ built s0 (kmem k') root tf ws))).
Proof.
  intros P Hva Hva0 Hz Hoff Hsz. revert k j P. induction fuel as [|f IH]; intros k j P Hj Hjm Hin Hfuel Hld; cbn [loadseg_loop];
    (destruct (Z.ltb_spec j sz) as [Hlt|Hge]; [|apply wp_ret; split; [done|]; split; [apply rest_refl|]; left; rewrite Z.min_r in Hin, Hld by lia;
      split; [done|]; split; [destruct (Z.ltb_spec 0 j); [right; auto | left; lia] | done]]); [lia|].
  destruct (length_program _ _ _ _ _ P) as [_ HF]. rewrite Z.min_l in Hin, Hld by lia.
  destruct (loaded_size _ _ _ _ Hld) as (Hmax & _). simpl in Hmax.
  destruct (loaded_page _ _ _ _ (va + j) Hld) as (w & Hw & Hpte & Hb0 & Hb4 & HMX & Hpos); [simpl; lia|].
  apply wp_bind, wp_onmem. unfold u64. rewrite (Z.mod_small (va + j)) by lia.
  eapply wp_mono; [apply (walkaddr_wp (kmem k) root (va + j) w); (done || lia || apply (bt_taken _ _ _ _ _ (ld_built _ _ _ _ _ _ _ Hld)))|].
  intros r s' [-> ->]. rewrite (proj2 (Z.eqb_neq _ 0)) by lia. cbv zeta. set (n := if sz - j <? PGSIZE then sz - j else PGSIZE).
  assert (Hn : n = Z.min (sz - j) PGSIZE) by (unfold n; destruct (Z.ltb_spec (sz - j) PGSIZE); lia). assert (Hn0 : 0 < n ≤ PGSIZE) by (unfold PGSIZE in *; lia).
  assert (Ho : u32 (off + j) = off + j).
  { unfold u32. apply Z.mod_small. destruct (decide (j = 0)) as [->|]; [lia|]. assert (off + j ≤ Z.of_nat (length F)) by (apply Hin; lia). lia. }
  rewrite Ho. apply wp_bind. eapply wp_mono; [apply (readi_program_wp c ip i F); [by apply program_mem| |unfold PGSIZE in *; lia]|].
  { destruct (decide (j = 0)) as [->|]; [lia|]. assert (off + j ≤ Z.of_nat (length F)) by (apply Hin; lia). lia. }
  intros [r bs] k1 (P1 & R1 & M1 & E1 & E2 & E3 & E4). cbn [fst snd] in *. apply wp_bind, wp_onmem, wp_modify. rewrite M1. change (kmem (set_kmem (kmem k) k)) with (kmem k).
  assert (Hld2 : loaded s0 (set_mem (write_bytes (PTE2PA w) bs) (kmem k)) l root tf ws (Img z (write_bytes (va + j) bs (write_bytes va (slice F off j) b)) ps)).
  { apply loaded_write; [done | done | lia | unfold PGSIZE in *; lia | lia]. }
  set (k2 := set_kmem _ k1). assert (R2 : rest k k2) by (eapply rest_trans; [exact R1 | apply rest_mem]).
  destruct (Z.eqb_spec r n) as [Hrn|Hrn]; cbn [negb].
  - assert (Hle : off + j + n ≤ Z.of_nat (length F)) by lia. specialize (E3 Hle). injection E3 as _ ->.
    replace (u32 (j + PGSIZE)) with (j + PGSIZE) by (unfold u32, PGSIZE in *; rewrite Z.mod_small; lia).
    eapply wp_mono; [apply (IH k2)|].
    + by apply program_mem.
    + unfold PGSIZE; lia.
    + unfold PGSIZE in *; lia.
    + intros _. unfold PGSIZE in *; lia.
    + unfold PGSIZE in *; lia.
    + replace (Z.min (j + PGSIZE) sz) with (j + n) by lia. rewrite <- slice_app, write_bytes_app, length_slice by (lia || (destruct (decide (j = 0)) as [->|]; [lia | apply Hin; lia])). done.
    + intros r' k3 (P3 & R3 & H3). split; [done|]. split; [by eapply rest_trans | done].
  - apply wp_ret. split; [by apply program_mem|]. split; [done|]. right. split_and!; [done | | lia | apply Hld2].
    destruct (Z.ltb_spec (Z.of_nat (length F)) (off + j + n)); [lia|]. specialize (E3 ltac:(lia)). congruence.
Qed.

(** ** A program header *)

Record ph_ok (ph : proghdr) : Prop := PhOk {
  pho_vaddr : 0 ≤ ph_vaddr ph < 2 ^ 64;
  pho_filesz : 0 ≤ ph_filesz ph < 2 ^ 64;
  pho_memsz : 0 ≤ ph_memsz ph < 2 ^ 64;
}.

Lemma read_proghdr_ok bs : ph_ok (read_proghdr bs).
Proof. split; apply load64_bound. Qed.

Lemma flags2perm_ok f : user_perm (Z.lor (Z.lor PTE_R PTE_U) (flags2perm f)) ∧ 0 ≤ flags2perm f < 1024.
Proof. unfold flags2perm, user_perm. destruct (nonzero (Z.land f 1)), (nonzero (Z.land f 2)); repeat split; (done || lia). Qed.

(** What is left after a failure: memory that can be given back. *)
Definition abandoned (k : kern S) (sz : Z) : Prop :=
  ∃ ws, built s0 (kmem k) root tf ws ∧ 0 ≤ sz < 2 ^ 64 - PGSIZE ∧ PGROUNDUP sz = Z.of_nat (length ws) * PGSIZE.

(** The result of loading, [o] being what the headers ask for. *)
Definition load_post (l ws : list Z) (o : option image) (r : bool * Z) (k' : kern S) : Prop :=
  if r.1 then ∃ im ws' l', o = Some im ∧ r.2 = im_sz im ∧ loaded s0 (kmem k') l' root tf ws' im ∧
    (length ws ≤ length ws')%nat ∧ (length l + 3 * length ws ≤ length l' + 3 * length ws')%nat
  else abandoned k' r.2 ∧ ∀ im, o = Some im → Z.of_nat (length l) < 3 * (pages (im_sz im) - Z.of_nat (length ws)).

Lemma loaded_abandoned k l ws im : loaded s0 (kmem k) l root tf ws im → abandoned k (im_sz im).
Proof.
  intros H. destruct (loaded_size _ _ _ _ H) as (H1 & H2 & _). pose proof (ld_sz _ _ _ _ _ _ _ H).
  exists ws. split; [apply H|]. split; [unfold PGSIZE; lia | done].
Qed.

(** Growing the image with zeros. *)
Lemma loaded_grow s s' l l' ws vs z b ps newsz f :
  loaded s0 s l root tf ws (Img z b ps) → keeps (PTE2PA <$> ws) s s' → built s0 s' root tf (ws ++ vs) → new_pages s' (flags2perm f) vs →
  (Z.of_nat (length (ws ++ vs)) - 1) * PGSIZE < newsz ≤ Z.of_nat (length (ws ++ vs)) * PGSIZE → z ≤ newsz → kinv s' l' →
  loaded s0 s' l' root tf (ws ++ vs) (Img newsz b (ps ++ replicate (Z.to_nat (pages newsz) - length ps) (Z.lor (Z.lor PTE_R PTE_U) (flags2perm f)))).
Proof.
  intros H K B N Hb Hz Hk. destruct (loaded_size _ _ _ _ H) as (_ & _ & Hp). destruct H as [H1 H2 H3 H4 H5 H6 H7 H8]. simpl in *.
  destruct (flags2perm_ok f) as [Hf1 Hf2].
  assert (Hpg : pages newsz = Z.of_nat (length (ws ++ vs))) by (unfold pages, PGSIZE in *; lia).
  destruct (shows_grow s' ws vs (flags2perm f) b Hf2 (shows_keeps _ _ _ _ K H3) H4 N) as [S1 S2].
  assert (Hc : (Z.to_nat (pages newsz) - length ps)%nat = length vs) by (rewrite Hpg, length_app; lia). rewrite Hc.
  split; simpl; [done | done | done | done | by eapply perms_grow | | done | lia].
  apply Forall_app. split; [done|]. by apply Forall_replicate.
Qed.

(** [uvmalloc] to the end of the segment. *)
Lemma grow_wp s l ws im newsz f :
  loaded s0 s l root tf ws im → 0 ≤ newsz < 2 ^ 64 → let z := Z.max (im_sz im) newsz in
  wp (uvmalloc root (im_sz im) newsz (flags2perm f)) s (λ r s',
    (r = 0 ∧ built s0 s' root tf ws ∧ (0 < z → Z.of_nat (length l) < 3 * (pages z - Z.of_nat (length ws)))) ∨
    (r = z ∧ 0 < z ∧ ∃ ws' l',
      loaded s0 s' l' root tf ws' (Img z (im_byte im) (im_perm im ++ replicate (Z.to_nat (pages z) - length (im_perm im)) (Z.lor (Z.lor PTE_R PTE_U) (flags2perm f)))) ∧
      (length ws ≤ length ws')%nat ∧ (length l + 3 * length ws ≤ length l' + 3 * length ws')%nat)).
Proof.
  intros H Hn z. destruct (loaded_size _ _ _ _ H) as (Hmax & HR & Hp). pose proof (ld_sz _ _ _ _ _ _ _ H) as Hs0. pose proof (ld_len _ _ _ _ _ _ _ H) as Hl0.
  destruct (Z.ltb_spec newsz (im_sz im)) as [Hlt|Hge].
  { unfold uvmalloc. rewrite (proj2 (Z.ltb_lt _ _)) by done. apply wp_ret. right. unfold z. rewrite Z.max_l by lia. split; [done|]. split; [lia|].
    exists ws, l. rewrite <- Hl0, Nat2Z.id, Hp, Nat.sub_diag. simpl. rewrite app_nil_r. by destruct im. }
  unfold z. rewrite Z.max_r by lia. destruct (flags2perm_ok f) as [_ Hf].
  eapply wp_mono; [apply (uvmalloc_wp s0 s l root tf ws (im_sz im) newsz (flags2perm f)); try done; [apply H | apply H | unfold PGSIZE; lia | lia]|].
  intros r s' (K & [(-> & B & Hfew)|(-> & vs & B & N & Hb & l' & Hk & Hc)]); [left; split_and!; [done | done | intros _; exact Hfew]|].
  destruct (Z.eqb_spec newsz 0) as [->|Hne].
  - left. split; [done|]. split; [|lia]. assert (length (ws ++ vs) = 0%nat) as E by (unfold PGSIZE in *; lia). rewrite length_app in E.
    assert (vs = []) as -> by (apply nil_length_inv; lia). by rewrite app_nil_r in B.
  - right. split; [done|]. split; [lia|]. exists (ws ++ vs), l'. split.
    + destruct im as [z0 b ps]. simpl in *. by eapply (loaded_grow s s' l).
    + rewrite length_app. lia.
Qed.

Lemma load_ph_wp c ip i F k l ws im ph :
  program c ip i F k → loaded s0 (kmem k) l root tf ws im → ph_ok ph →
  wp (load_ph root (im_sz im) ip ph) k (λ r k', program c ip i F k' ∧ rest k k' ∧ load_post l ws (load_seg F ph im) r k').
Proof.
  intros P Hld [Hv Hf Hm]. pose proof (loaded_abandoned k l ws im Hld) as HA. destruct (loaded_size _ _ _ _ Hld) as (Hmax & HR & Hps). pose proof (ld_sz _ _ _ _ _ _ _ Hld) as Hsz0.
  assert (HF : ∀ o, o = None → program c ip i F k ∧ rest k k ∧ load_post l ws o (false, im_sz im) k).
  { intros o ->. split; [done|]. split; [apply rest_refl|]. by split. }
  unfold load_ph, load_seg. destruct (ph_type ph =? ELF_PROG_LOAD); cbn [negb].
  2:{ apply wp_ret. split; [done|]. split; [apply rest_refl|]. exists im, ws, l. by split_and!. }
  rewrite Z.ltb_antisym. destruct (ph_filesz ph <=? ph_memsz ph) eqn:Hfm; cbn [negb]; [|apply wp_ret, HF; done]. apply Z.leb_le in Hfm.
  replace (u64 (ph_vaddr ph + ph_memsz ph) <? ph_vaddr ph) with (negb (ph_vaddr ph + ph_memsz ph <? 2 ^ 64)).
  2:{ destruct (Z.ltb_spec (ph_vaddr ph + ph_memsz ph) (2 ^ 64)); cbn [negb]; symmetry; unfold u64.
      - apply Z.ltb_ge. rewrite Z.mod_small; lia.
      - apply Z.ltb_lt. replace (ph_vaddr ph + ph_memsz ph) with (ph_vaddr ph + ph_memsz ph - 2 ^ 64 + 1 * 2 ^ 64) by lia. rewrite Z.mod_add, Z.mod_small; lia. }
  destruct (ph_vaddr ph + ph_memsz ph <? 2 ^ 64) eqn:Hvm; cbn [negb andb]; [|apply wp_ret, HF; done]. apply Z.ltb_lt in Hvm.
  unfold nonzero. destruct (ph_vaddr ph mod PGSIZE =? 0) eqn:Hal; cbn [negb andb]; [|apply wp_ret, HF; done]. apply Z.eqb_eq in Hal.
  unfold u64. rewrite Z.mod_small by lia. apply wp_bind, wp_onmem.
  eapply wp_mono; [apply (grow_wp (kmem k) l ws im (ph_vaddr ph + ph_memsz ph) (ph_flags ph) Hld); lia|].
  intros r s' [(-> & Hs' & Hfew)|(-> & Hpos & ws' & l' & Hld' & Hw & Hc)].
  { change (0 =? 0) with true. cbv iota. apply wp_ret. split; [by apply program_mem|]. split; [apply rest_mem|]. split.
    - cbn [snd]. exists ws. split; [done|]. split; [unfold PGSIZE; lia | done].
    - intros im'. destruct (0 <? Z.max (im_sz im) (ph_vaddr ph + ph_memsz ph)) eqn:Hpos; cbn [andb]; [|done]. destruct (_ || _); [|done]. intros [= <-]. apply Hfew. simpl. by apply Z.ltb_lt. }
  set (z := Z.max (im_sz im) (ph_vaddr ph + ph_memsz ph)) in *. rewrite (proj2 (Z.eqb_neq z 0)), (proj2 (Z.ltb_lt 0 z)) by lia. cbn [andb].
  assert (Hu : 0 ≤ u32 (ph_filesz ph) ≤ ph_filesz ph) by (unfold u32; split; [apply Z.mod_pos_bound; lia | apply Z.mod_le; lia]).
  assert (Hu' : u32 (ph_filesz ph) < 2 ^ 32) by (apply Z.mod_pos_bound; lia).
  apply wp_bind. unfold loadseg. eapply wp_mono; [eapply (loadseg_loop_wp c ip i F _ (set_kmem s' k) l' ws' z); try done; try lia|].
  - by apply program_mem.
  - apply Z.mod_pos_bound. lia.
  - rewrite Z2Nat.id by (unfold PGSIZE; lia). unfold PGSIZE; lia.
  - rewrite Z.min_l by lia. exact Hld'.
  - intros r k' (P' & R' & [(-> & HFs & Hl2)|(-> & HFs & Hp & Hb)]); apply wp_ret; (split; [done|]); (split; [eapply rest_trans; [apply rest_mem | exact R']|]).
    + replace ((u32 (ph_filesz ph) =? 0) || _) with true. 2:{ symmetry. rewrite orb_true_iff, Z.eqb_eq, Z.leb_le. lia. }
      unfold load_post. cbn [fst snd]. change (negb (0 <? 0)) with true. cbv iota. eexists _, ws', l'. split; [reflexivity|]. done.
    + rewrite (proj2 (Z.eqb_neq _ 0)), (proj2 (Z.leb_gt _ _)) by lia. split; [|done]. destruct (loaded_size _ _ _ _ Hld') as (Hz & HR' & _). simpl in Hz, HR'.
      exists ws'. split; [done|]. split; [unfold PGSIZE; simpl; lia | done].
Qed.

(** ** The loop over the headers *)

Lemma load_seg_size F ph im im' : load_seg F ph im = Some im' → im_sz im ≤ im_sz im'.
Proof.
  unfold load_seg. destruct (negb _); [intros [= ->]; lia|]. destruct (_ && _); [|done]. intros [= <-]. simpl. lia.
Qed.

Lemma load_segs_size F n off im im' : load_segs F n off im = Some im' → im_sz im ≤ im_sz im'.
Proof.
  revert off im. induction n as [|n IH]; intros off im; cbn [load_segs]; [intros [= ->]; lia|]. destruct (_ <=? _); [|done].
  intros (im1 & H1%load_seg_size & H2%IH)%bind_Some. lia.
Qed.

Lemma pages_mono a b : a ≤ b → pages a ≤ pages b.
Proof. intros H. unfold pages, PGSIZE. lia. Qed.

Lemma load_loop_wp c ip i F n k l ws im off :
  program c ip i F k → loaded s0 (kmem k) l root tf ws im →
  wp (load_loop n root (im_sz im) ip off) k (λ r k', program c ip i F k' ∧ rest k k' ∧ load_post l ws (load_segs F n off im) r k').
Proof.
  revert k l ws im off. induction n as [|n IH]; intros k l ws im off P Hld; cbn [load_loop load_segs].
  { apply wp_ret. split; [done|]. split; [apply rest_refl|]. exists im, ws, l. by split_and!. }
  assert (Hu : 0 ≤ u32 off < 2 ^ 32) by (apply Z.mod_pos_bound; lia).
  apply wp_bind. eapply wp_mono; [by apply (readi_program_wp c ip i F)|].
  intros [r bs] k1 (P1 & R1 & M1 & E1 & E2 & E3 & E4). cbn [fst snd] in *. rewrite <- M1 in Hld.
  destruct (Z.leb_spec (u32 off + sizeof_proghdr) (Z.of_nat (length F))) as [Hle|Hgt].
  2:{ rewrite (proj2 (Z.eqb_neq r _)) by lia. cbn [negb]. apply wp_ret. split; [done|]. split; [done|]. split; [by eapply loaded_abandoned | done]. }
  specialize (E3 Hle). injection E3 as -> ->. rewrite Z.eqb_refl. cbn [negb]. apply wp_bind.
  eapply wp_mono; [apply (load_ph_wp c ip i F k1 l ws im); [done | done | apply read_proghdr_ok]|].
  intros [b z] k2 (P2 & R2 & H2). set (ph := read_proghdr _) in *. assert (R02 : rest k k2) by (by eapply rest_trans). destruct b; cbn [fst snd negb]; unfold load_post in H2; cbn [fst snd] in H2.
  - destruct H2 as (im1 & ws1 & l1 & -> & -> & Hld1 & Hw & Hc). cbn [mbind option_bind].
    eapply wp_mono; [by apply (IH k2 l1 ws1 im1)|]. intros [b' z'] k3 (P3 & R3 & H3). split; [done|]. split; [by eapply rest_trans|].
    unfold load_post in *. cbn [fst snd] in *. destruct b'.
    + destruct H3 as (im2 & ws2 & l2 & -> & -> & Hld2 & Hw2 & Hc2). exists im2, ws2, l2. split_and!; [done | done | done | lia | lia].
    + destruct H3 as [HA HN]. split; [done|]. intros im2 E. specialize (HN im2 E). lia.
  - apply wp_ret. split; [done|]. split; [done|]. destruct H2 as [HA HN]. split; [done|].
    intros im2 (im1 & Hs1 & Hs2)%bind_Some. specialize (HN im1 Hs1). pose proof (pages_mono _ _ (load_segs_size _ _ _ _ _ Hs2)). lia.
Qed.
End Load.
