(* ===== verification/ExecStack.v ===== *)
(** * The arguments of a program (kernel/exec.c)

    Where [exec] puts the argument strings and the array of their addresses on the
    stack page, and that it puts them there. *)

From stdpp Require Import base numbers list strings.
From S2P Require Import Prelude Str Layout Kalloc Vm PageTable Uvm Ucopy Freewalk Aspace Image.
From S2P Require Import ProcState Sched Pipe Bio Block Fs Dir Printf Console Kern File Proc.
From S2P Require Import Sysproc Sysfile Exec ExecLoad.
Local Open Scope Z_scope.

(** ** The specification *)

Definition align16 (x : Z) : Z := x - x mod 16.

(** The stack pointer and the addresses of the strings, if the page at [base] has room. *)
Fixpoint place (base sp : Z) (args : list (list Z)) : option (Z * list Z) :=
  match args with
  | [] => Some (sp, [])
  | a :: args' =>
      let sp := align16 (sp - (Z.of_nat (length a) + 1)) in
      if sp <? base then None
      else '(sp', addrs) ← place base sp args'; Some (sp', sp :: addrs)
  end.

(** The same with the array of the addresses below the strings. *)
Definition layout (base : Z) (args : list (list Z)) : option (Z * list Z) :=
  '(sp, addrs) ← place base (base + PGSIZE) args;
  let sp := align16 (sp - (Z.of_nat (length args) + 1) * 8) in
  if sp <? base then None else Some (sp, addrs).

(** The bytes of the strings at their addresses. *)
Fixpoint push_bytes (addrs : list Z) (args : list (list Z)) (img : Z → Z) : Z → Z :=
  match addrs, args with
  | p :: addrs', a :: args' => push_bytes addrs' args' (write_bytes p (a ++ [0]) img)
  | _, _ => img
  end.

(** ** The layout is sound: strings and array do not overlap *)

Lemma align16_bounds x : align16 x ≤ x < align16 x + 16 ∧ align16 x mod 16 = 0.
Proof. unfold align16. lia. Qed.

Lemma place_sound base sp args sp' addrs : base ≤ sp → place base sp args = Some (sp', addrs) →
  base ≤ sp' ≤ sp ∧ length addrs = length args ∧
  (∀ img va, va < sp' ∨ sp ≤ va → push_bytes addrs args img va = img va) ∧
  ∀ j a p, args !! j = Some a → addrs !! j = Some p → sp' ≤ p ∧ p + Z.of_nat (length a) + 1 ≤ sp ∧ p mod 16 = 0 ∧
    ∀ img o x, (a ++ [0]) !! o = Some x → push_bytes addrs args img (p + Z.of_nat o) = u8 x.
Proof.
  revert sp addrs. induction args as [|a args IH]; intros sp addrs Hb; cbn [place].
  { intros [= <- <-]. split_and!; [lia | lia | done | done | done]. }
  set (q := align16 _). destruct (align16_bounds (sp - (Z.of_nat (length a) + 1))) as [Hq Hq16]. fold q in Hq, Hq16.
  destruct (Z.ltb_spec q base) as [|Hqb]; [done|]. intros ([sp2 ads] & Hp & [= <- <-])%bind_Some.
  destruct (IH q ads Hqb Hp) as (H1 & H2 & H3 & H4). assert (Hla : Z.of_nat (length (a ++ [0])) = Z.of_nat (length a) + 1) by (rewrite length_app; simpl; lia).
  split; [lia|]. split; [simpl; lia|]. cbn [push_bytes]. split.
  - intros img va Hva. rewrite H3 by lia. apply write_bytes_out. lia.
  - intros [|j] a' p Ha Hpj; simpl in Ha, Hpj.
    + injection Ha as <-. injection Hpj as <-. split_and!; [lia | lia | done|]. intros img o x Hx. pose proof (lookup_lt_Some _ _ _ Hx).
      rewrite H3 by lia. rewrite write_bytes_spec. replace (Z.to_nat (q + Z.of_nat o - q)) with o by lia. rewrite Hx.
      by rewrite (proj2 (Z.leb_le _ _)) by lia.
    + destruct (H4 j a' p Ha Hpj) as (? & ? & ? & H5). split_and!; [lia | lia | done|]. intros img o x Hx. by apply H5.
Qed.

Lemma place_pos base sp args sp' addrs : 0 < base → base ≤ sp → place base sp args = Some (sp', addrs) → Forall (λ p, base ≤ p < sp) addrs.
Proof.
  intros Hb Hs H. destruct (place_sound _ _ _ _ _ Hs H) as (H1 & H2 & _ & H4). apply Forall_lookup. intros j p Hp.
  destruct (lookup_lt_is_Some_2 args j) as [a Ha]; [rewrite <- H2; by eapply lookup_lt_Some|]. destruct (H4 j a p Ha Hp) as (? & ? & _). lia.
Qed.

(** The array. *)
Lemma length_words_bytes l : length (words_bytes l) = (8 * length l)%nat.
Proof. induction l as [|w l IH]; [done|]. cbn [words_bytes]. rewrite length_app, IH, length_read. simpl. lia. Qed.

Lemma words_bytes_load l a m j w : l !! j = Some w → load64 (write_bytes a (words_bytes l) m) (a + 8 * Z.of_nat j) = u64 w.
Proof.
  revert a m j. induction l as [|v l IH]; intros a m j Hj; [done|]. cbn [words_bytes]. rewrite write_bytes_app, length_read. destruct j as [|j]; simpl in Hj.
  - injection Hj as ->. rewrite Z.mul_0_r, Z.add_0_r, <- (load64_store64 (λ _, 0) 0 w).
    transitivity (load64 (write_bytes a (read_bytes 0 8 (store64 (λ _, 0) 0 w)) m) a);
      [apply load64_ext; intros b Hb; apply write_bytes_out; lia|].
    unfold load64. generalize (store64 (λ _, 0) 0 w). intros M.
    assert (G : ∀ n x y (f g : Z → Z), (∀ i, 0 ≤ i < Z.of_nat n → u8 (f (x + i)) = u8 (g (y + i))) → load_le f x n = load_le g y n).
    { clear. induction n as [|n IH]; intros x y f g H; [done|]. cbn [load_le]. pose proof (H 0 ltac:(lia)) as H0. rewrite !Z.add_0_r in H0. rewrite H0. f_equal. f_equal.
      apply IH. intros i Hi. rewrite <- !Z.add_assoc. apply H. lia. }
    apply G. intros i Hi. rewrite write_bytes_spec. replace (a + i - a) with i by lia. rewrite read_bytes_lookup by lia.
    rewrite (proj2 (Z.leb_le _ _)), !u8_idem by lia. do 2 f_equal. lia.
  - replace (a + 8 * Z.of_nat (S j)) with (a + Z.of_nat 8 + 8 * Z.of_nat j) by lia. by apply IH.
Qed.

(** ** The code *)

Section Stack.
Context {S : Type} `{BO : BlockOps S} {L : Linker} {LOk : LinkerOk L} `{Y : Symbols}.

(** Only the memory differs. *)
Definition memonly (k k' : kern S) : Prop := k' = set_kmem (kmem k') k.

Lemma memonly_refl k : memonly k k.
Proof. by destruct k as [[] ? ? ? ? ? ? ? ? ?]. Qed.

Lemma memonly_set s k : memonly k (set_kmem s k).
Proof. done. Qed.

Lemma memonly_trans k1 k2 k3 : memonly k1 k2 → memonly k2 k3 → memonly k1 k3.
Proof. unfold memonly. intros -> ->. done. Qed.

Lemma outable_rwx q : valid_page q → outable (entry q 30).
Proof.
  intros Hq. destruct (valid_page_bounds q Hq). unfold outable. rewrite !entry_bit by lia. split; [done|]. split; [done|]. by left.
Qed.

Context (s0 : kstate) (root tf : Z).

(** The stack page [i] of the space, after some strings. *)
Record stacked (s : kstate) (l ws : list Z) (i : nat) (img : Z → Z) (P : Z → Prop) : Prop := Stacked {
  st_inv : kinv s l;
  st_built : built s0 s root tf ws;
  st_out : ∃ w, ws !! i = Some w ∧ outable w ∧ P w;
  st_shows : shows s ws img;
}.

(** Pushing [bs] at [sp]. *)
Lemma push_wp s l ws i img P sp bs :
  stacked s l ws i img P → (1 ≤ i)%nat → Z.of_nat i * PGSIZE ≤ sp → sp + Z.of_nat (length bs) ≤ Z.of_nat i * PGSIZE + PGSIZE → bs ≠ [] →
  wp (copyout root sp bs) s (λ r s', (r = -1 ∧ l = [] ∧ s' = s) ∨
    (r = 0 ∧ ∃ w l', l' ≠ [] ∧ stacked s' l' (<[i := w]> ws) i (write_bytes sp bs img) (λ w, ∃ q, valid_page q ∧ w = entry q 30))).
Proof.
  intros [K B (w & Hw & Ho & _) Sh] Hi Hlo Hhi Hne. assert (0 < Z.of_nat (length bs)) by (destruct bs; [done | simpl; lia]).
  assert (Hd : sp / PGSIZE = Z.of_nat i) by (unfold PGSIZE in *; lia).
  eapply wp_mono; [apply (built_copyout s0 s l root tf ws i w sp bs B K Hw Ho); [unfold PGSIZE in *; lia | done | unfold PGSIZE in *; lia]|].
  intros r s' [HL|(-> & q & l' & Hq & K' & Hl' & B' & Sh')]; [by left|]. right. split; [done|]. exists (entry q 30), l'. split; [done|].
  split; [done | done | | by apply Sh']. exists (entry q 30). split; [apply list_lookup_insert_eq; by eapply lookup_lt_Some|]. split; [by apply outable_rwx | eauto].
Qed.

Lemma stacked_weaken s l ws i img (P Q : Z → Prop) : (∀ w, P w → Q w) → stacked s l ws i img P → stacked s l ws i img Q.
Proof. intros H [K B (w & ? & ? & ?) Sh]. split; [done | done | exists w; auto | done]. Qed.

Lemma push_args_wp argv k l ws i sp argc us img :
  let base := Z.of_nat i * PGSIZE in
  stacked (kmem k) l ws i img (λ _, True) → (1 ≤ i)%nat → base ≤ sp ≤ base + PGSIZE → base + PGSIZE < 2 ^ 64 → 0 ≤ argc → argc + Z.of_nat (length argv) ≤ MAXARG →
  Forall (λ a, Z.of_nat (length a) < PGSIZE) argv →
  wp (push_args root base sp argc argv us) k (λ r k', memonly k k' ∧ ∃ w l',
    (l ≠ [] → l' ≠ []) ∧ ∃ img', stacked (kmem k') l' (<[i := w]> ws) i img' (λ _, True) ∧
    match place base sp argv with
    | Some (sp', addrs) => (r = Some (sp', us ++ addrs ++ [0]) ∧ img' = push_bytes addrs argv img) ∨ (r = None ∧ l = [])
    | None => r = None
    end).
Proof.
  intros base. revert k l ws sp argc us img. induction argv as [|a argv IH]; intros k l ws sp argc us img H Hi Hsp Hmax Ha0 Hac Hall; cbn [push_args place].
  - apply wp_ret. split; [apply memonly_refl|]. pose proof (st_out _ _ _ _ _ _ H) as (w & Hw & _). exists w, l. split; [done|]. exists img.
    rewrite list_insert_id by done. split; [done|]. by left.
  - rewrite (proj2 (Z.leb_gt _ _)) by (simpl in Hac; lia). apply Forall_cons in Hall as [Hla Hall]. cbv zeta.
    assert (Hb1 : PGSIZE ≤ base) by (unfold base, PGSIZE; lia).
    rewrite (u64_small (sp - _)) by (unfold PGSIZE in *; lia). fold (align16 (sp - (Z.of_nat (length a) + 1))). set (q := align16 _).
    destruct (align16_bounds (sp - (Z.of_nat (length a) + 1))) as [Hq _]. fold q in Hq.
    assert (HF : ∀ o, o = None → memonly k k ∧ ∃ w l', (l ≠ [] → l' ≠ []) ∧ ∃ img', stacked (kmem k) l' (<[i := w]> ws) i img' (λ _, True) ∧ o = @None (Z * list Z)).
    { intros o ->. split; [apply memonly_refl|]. pose proof (st_out _ _ _ _ _ _ H) as (w & Hw & _). exists w, l. split; [done|]. exists img. by rewrite list_insert_id. }
    destruct (Z.ltb_spec q base) as [Hlt|Hge]; [apply wp_ret; by apply HF|].
    apply wp_bind, wp_onmem. eapply wp_mono; [apply (push_wp (kmem k) l ws i img (λ _, True) q (a ++ [0]) H Hi); [done | rewrite length_app; simpl; fold base; lia | by destruct a]|].
    intros r s' [(-> & -> & ->)|(-> & w & l' & Hl' & H')].
    + change (-1 <? 0) with true. cbv iota. apply wp_ret. rewrite <- (memonly_refl k). destruct (HF None eq_refl) as (M & w & l' & E1 & img' & E2 & _).
      split; [done|]. exists w, l'. split; [done|]. exists img'. split; [done|]. destruct (place base q argv) as [[]|]; [by right | done].
    + change (0 <? 0) with false. cbv iota. apply (stacked_weaken _ _ _ _ _ _ (λ _, True)) in H'; [|done].
      eapply wp_mono; [apply (IH (set_kmem s' k) l' (<[i := w]> ws) q (argc + 1) (us ++ [q]) (write_bytes q (a ++ [0]) img) H'); [done | lia | done | lia | simpl in Hac; lia | done]|].
      intros r k' (M & w2 & l2 & Hl2 & img2 & H2 & HP). rewrite list_insert_insert_eq in H2. split; [eapply memonly_trans; [apply memonly_set | exact M]|].
      exists w2, l2. split; [auto|]. exists img2. split; [done|]. destruct (place base q argv) as [[sp' addrs]|]; simpl; [|done].
      destruct HP as [[-> ->]|[-> ->]]; [left; by rewrite <- app_assoc | done].
Qed.
End Stack.
