(* ===== verification/ExecCommit.v ===== *)
(** * The new image of a process (kernel/exec.c)

    From the loaded program to the end of [exec]: guard page, stack, registers and
    names are set, the old image is freed; on an error the new one is. *)

From stdpp Require Import base numbers list strings.
From S2P Require Import Prelude Str Layout Kalloc Vm PageTable Uvm Ucopy Freewalk Aspace Image.
From S2P Require Import ProcState Sched Pipe Bio Block Fs Dir FsAlloc FsFile FsInode FsRw Printf Console Kern File Proc.
From S2P Require Import Sysproc Sysfile Exec ExecLoad ExecStack.
Local Open Scope Z_scope.

Section Commit.
Context {L : Linker} {LOk : LinkerOk L}.

(** An address space whose pages did not change. *)
Lemma live_same s s' l' root tf ws : live_space s root tf ws → kinv s' l' →
  (∀ x, pt_node s root x → same_page (mem s) (mem s') x ∧ rc s' x = rc s x) →
  (∀ x, valid_page x → 0 < cnt ws x → rc s x ≤ rc s' x) → live_space s' root tf ws.
Proof.
  intros [W Sp Lf [F1 F2] Ln Tf] Hk Hn Hc. destruct (pt_same s s' root W Hn) as (W' & HN & HP).
  assert (HN' : ∀ x, pt_node s' root x ↔ pt_node s root x).
  { intros x. split; intros (p & Hp & E); exists p; (split; [done|]); [by rewrite <- HN | by rewrite HN]. }
  split; [done | | done | | done | done].
  - intros va Hva. rewrite HP. by apply Sp.
  - split; [eapply Forall_impl; [exact F1|]; intros w [H1 H2]; split; [done | by rewrite HN']|].
    intros x Hx. specialize (F2 x Hx). pose proof (kinv_nonneg s' l' x Hk Hx). destruct (Z.ltb_spec 0 (cnt ws x)); [specialize (Hc x Hx ltac:(done)); lia | lia].
Qed.

Lemma store64_local m m' a v b : m b = m' b → store64 m a v b = store64 m' a v b.
Proof.
  unfold store64. generalize 8%nat. intros n. revert a v. induction n as [|n IH]; intros a v H; [done|].
  cbn [store_le]. unfold upd. destruct (b =? a); [done | by apply IH].
Qed.

(** The three words [exec] stores in the trap frame. *)
Definition exec_frame (tf sp entry : Z) (m : Z → Z) : Z → Z :=
  store64 (store64 (store64 m (tf + tf_a1) sp) (tf + tf_epc) entry) (tf + tf_sp) sp.

Lemma exec_frame_out tf sp e m b : b < tf ∨ tf + PGSIZE ≤ b → exec_frame tf sp e m b = m b.
Proof. intros H. unfold exec_frame, tf_a1, tf_epc, tf_sp, PGSIZE in *. rewrite !store64_out by lia. done. Qed.

Lemma exec_frame_local tf sp e m m' b : m b = m' b → exec_frame tf sp e m b = exec_frame tf sp e m' b.
Proof. intros H. unfold exec_frame. by do 3 apply store64_local. Qed.

(** The old image goes, the new one stays, and so does everything else: [s0] before
    [exec], [s] with the new space built, [s'] at the end. *)
Record committed (s0 s' : kstate) (oroot : Z) (ows : list Z) (root tf : Z) (ws : list Z) (img : Z → Z) (frame : (Z → Z) → Z → Z) : Prop := Committed {
  cm_inv : ∃ l, kinv s' l;
  cm_new : live_space s' root tf ws;
  cm_image : shows s' ws img;
  cm_gone : ∀ x, pt_node s0 oroot x → rc s' x = 0;
  cm_refs : ∀ x, valid_page x → 0 < rc s0 x → ¬ pt_node s0 oroot x → rc s' x = rc s0 x - cnt ows x;
  cm_keep : ∀ x, valid_page x → 0 < rc s0 x → ¬ pt_node s0 oroot x → 0 < rc s' x → x ≠ tf → same_page (mem s0) (mem s') x;
  cm_frame : ∀ b, tf ≤ b < tf + PGSIZE → mem s' b = frame (mem s0) b;
}.

Lemma image_commit_wp s0 s l root tf ws img oroot ows osz sp e :
  built s0 s root tf ws → kinv s l → shows s ws img → live_space s0 oroot tf ows → 0 ≤ osz < 2 ^ 64 - PGSIZE → PGROUNDUP osz = Z.of_nat (length ows) * PGSIZE →
  valid_page tf → cnt ows tf < rc s0 tf → ¬ pt_node s0 oroot tf →
  wp (proc_freepagetable oroot osz) (set_mem (exec_frame tf sp e) s) (λ _ s', committed s0 s' oroot ows root tf ws img (exec_frame tf sp e)).
Proof.
  intros B Hk Sh Ho Hsz HR Htf Hc Hnt. pose proof (bt_taken _ _ _ _ _ B) as T. destruct (valid_page_bounds tf Htf) as [Htb _].
  pose proof (built_live _ _ _ _ _ B ltac:(lia)) as U. set (s6 := set_mem (exec_frame tf sp e) s). pose proof (cnt_nonneg ows tf) as Hc0.
  assert (Hout : ∀ b, b < tf ∨ tf + PGSIZE ≤ b → exec_frame tf sp e (mem s) b = mem s b) by (intros b Hb; by apply exec_frame_out).
  destruct (tk_keep _ _ _ _ T tf Htf ltac:(lia)) as [Hrt Hst].
  assert (Hnn : ¬ pt_node s root tf) by (intros Hx; pose proof (tk_node _ _ _ _ T tf Hx); lia).
  destruct (write_user s l root tf (exec_frame tf sp e) Hk (tk_wf _ _ _ _ T) Htf ltac:(lia) Hnn Hout) as (Hk6 & _ & S6). fold s6 in Hk6, S6.
  assert (Hon : ∀ x, pt_node s0 oroot x → valid_page x ∧ 0 < rc s0 x) by (intros x (p & Hp & E); destruct (pw_page _ _ (ls_wf _ _ _ _ Ho) p x Hp E); split; [done | lia]).
  assert (Hnn' : ∀ x, pt_node s root x → valid_page x ∧ 0 < rc s x) by (intros x (p & Hp & E); destruct (pw_page _ _ (tk_wf _ _ _ _ T) p x Hp E); split; [done | lia]).
  destruct (ls_free _ _ _ _ Ho) as [_ Hfr].
  (* the old space just before it goes *)
  assert (U6 : live_space s6 oroot tf ows).
  { apply (live_same s0 s6 l oroot tf ows Ho Hk6).
    - intros x Hx. destruct (Hon x Hx) as [Hv H0]. destruct (tk_keep _ _ _ _ T x Hv H0) as [E1 E2]. split; [|done].
      intros b Hb. rewrite (S6 x Hv) by (done || by intros ->). by apply E2.
    - intros x Hv Hx. specialize (Hfr x Hv). rewrite <- (proj1 (tk_keep _ _ _ _ T x Hv ltac:(lia))). done. }
  eapply wp_mono; [by apply (proc_freepagetable_wp s6 l oroot tf ows osz)|]. intros _ s' ([l' Hk'] & R1 & R2 & F).
  (* the trees are as they were *)
  assert (HO : ∀ x, pt_node s6 oroot x ↔ pt_node s0 oroot x).
  { intros x. destruct (pt_same s0 s6 oroot (ls_wf _ _ _ _ Ho)) as (_ & HN & _).
    - intros y Hy. destruct (Hon y Hy) as [Hv H0]. destruct (tk_keep _ _ _ _ T y Hv H0) as [E1 E2]. split; [|done]. intros b Hb. rewrite (S6 y Hv) by (done || by intros ->). by apply E2.
    - split; intros (p & Hp & E); exists p; (split; [done|]); [by rewrite <- HN | by rewrite HN]. }
  (* pages taken since s0 stay *)
  assert (HT : ∀ x, valid_page x → rc s0 x = 0 → 0 < rc s x → rc s' x = rc s x ∧ same_page (mem s) (mem s') x).
  { intros x Hv H0 Hr. assert (Hno : ¬ pt_node s6 oroot x) by (rewrite HO; intros Hx; pose proof (Hon x Hx); lia).
    pose proof (Hfr x Hv). pose proof (cnt_nonneg ows x). assert (E : rc s' x = rc s x) by (rewrite R2 by done; change (rc s6 x) with (rc s x); lia).
    split; [done|]. intros b Hb. rewrite (F x Hv Hno ltac:(lia) b Hb). apply (S6 x Hv); [intros ->; lia | done]. }
  split; [eauto | | | intros x Hx; apply R1; by rewrite HO | | |].
  - apply (live_same s s' l' root tf ws U Hk').
    + intros x Hx. destruct (Hnn' x Hx) as [Hv H0]. destruct (HT x Hv (tk_node _ _ _ _ T x Hx) H0). done.
    + intros x Hv Hx. rewrite cnt_nodup in Hx by apply T. case_bool_decide as Hin; [|lia]. destruct (tk_page _ _ _ _ T x Hin) as (_ & Hr & H0 & _). destruct (HT x Hv H0); lia.
  - eapply shows_keeps; [|exact Sh]. intros x Hin. destruct (tk_page _ _ _ _ T x Hin) as (Hv & Hr & H0 & _). apply HT; [done | done | lia].
  - intros x Hv H0 Hno. rewrite R2 by (rewrite ?HO; done). change (rc s6 x) with (rc s x). by rewrite (proj1 (tk_keep _ _ _ _ T x Hv H0)).
  - intros x Hv H0 Hno Hr Hne b Hb. rewrite (F x Hv ltac:(by rewrite HO) Hr b Hb), (S6 x Hv Hne b Hb). by apply (tk_keep _ _ _ _ T x Hv H0).
  - intros b Hb. assert (Hr : 0 < rc s' tf) by (rewrite R2 by (done || by rewrite HO); change (rc s6 tf) with (rc s tf); lia).
    rewrite (F tf Htf ltac:(by rewrite HO) Hr b Hb). unfold s6. simpl. apply exec_frame_local. by apply Hst.
Qed.
End Commit.

Section Commit2.
Context {S : Type} `{BO : BlockOps S} {L : Linker} {LOk : LinkerOk L} `{Y : Symbols}.

(** The label [bad] with a page table. *)
Lemma exec_bad_wp s0 k root tf ws sz :
  built s0 (kmem k) root tf ws → 0 ≤ tf < 2 ^ 56 → 0 ≤ sz < 2 ^ 64 - PGSIZE → PGROUNDUP sz = Z.of_nat (length ws) * PGSIZE →
  wp (exec_bad root sz None) k (λ r k', r = -1 ∧ memonly k k' ∧ restored s0 (kmem k')).
Proof.
  intros B Ht Hsz HR. unfold exec_bad. assert (Hr : 0 < root).
  { destruct (pw_page _ _ (tk_wf _ _ _ _ (bt_taken _ _ _ _ _ B)) [] root vpath_nil eq_refl) as [Hv _]. apply (valid_page_bounds root Hv). }
  unfold nonzero. rewrite (proj2 (Z.eqb_neq root 0)) by lia. cbn [negb when]. apply wp_bind, wp_onmem.
  eapply wp_mono; [by apply (built_free s0 (kmem k) root tf ws)|]. intros [] s' R. apply wp_bind, wp_ret, wp_ret. by split_and!.
Qed.

(** The guard page and the stack page. *)
Lemma stack_pages_wp s0 s l root tf ws im :
  loaded s0 s l root tf ws im → let top := (Z.of_nat (length ws) + 2) * PGSIZE in
  wp (uvmalloc root (Z.of_nat (length ws) * PGSIZE) top PTE_W) s (λ r s',
    (r = 0 ∧ built s0 s' root tf ws ∧ (length l < 6)%nat) ∨
    (r = top ∧ ∃ q1 q2 l', valid_page q1 ∧ valid_page q2 ∧ kinv s' l' ∧ (length l ≤ length l' + 6)%nat ∧
      built s0 s' root tf (ws ++ [entry q1 22; entry q2 22]) ∧ shows s' (ws ++ [entry q1 22; entry q2 22]) (im_byte im))).
Proof.
  intros H top. pose proof (built_len _ _ _ _ _ (ld_built _ _ _ _ _ _ _ H)) as Hl.
  assert (HR : PGROUNDUP (Z.of_nat (length ws) * PGSIZE) = Z.of_nat (length ws) * PGSIZE) by (rewrite PGROUNDUP_spec; unfold PGSIZE; lia).
  eapply wp_mono; [apply (uvmalloc_wp s0 s l root tf ws _ top PTE_W); [apply H | apply H | done | unfold PGSIZE; lia | unfold top, PGSIZE; lia | done]|].
  intros r s' (K & [(-> & B & Hfew)|(-> & vs & B & N & Hb & l' & Hk & Hc)]).
  { left. split_and!; [done | done|]. unfold top, PGSIZE in Hfew. lia. }
  right. split; [done|]. rewrite length_app in Hb. assert (Hv2 : length vs = 2%nat) by (unfold top, PGSIZE in *; lia).
  destruct (shows_grow s' ws vs PTE_W (im_byte im) ltac:(done) (shows_keeps _ _ _ _ K (ld_shows _ _ _ _ _ _ _ H)) (ld_ends _ _ _ _ _ _ _ H) N) as [S1 _].
  destruct vs as [|v1 [|v2 [|]]]; try done. apply Forall_cons in N as [(q1 & V1 & -> & _) N]. apply Forall_cons in N as [(q2 & V2 & -> & _) _].
  exists q1, q2, l'. by split_and!.
Qed.

(** What [exec_image] has done when it returns [r]. *)
Definition exec_post (s0 : kstate) (k : kern S) (l ws : list Z) (root : Z) (im : image) (path : list Z) (argv : list (list Z)) (elf : elfhdr) (ows : list Z) (r : Z) (k' : kern S) : Prop :=
  let p := pat k (cur k) in
  let base := (Z.of_nat (length ws) + 1) * PGSIZE in
  (r = -1 ∧ memonly k k' ∧ restored s0 (kmem k') ∧ (layout base argv = None ∨ (length l < 7)%nat)) ∨
  (r = Z.of_nat (length argv) ∧ ∃ sp addrs q1 q2, layout base argv = Some (sp, addrs) ∧ valid_page q1 ∧ valid_page q2 ∧
    k' = set_kmem (kmem k') (set_kprocs (alter (λ p, set_sz (base + PGSIZE) (set_pagetable root (set_name (copy_name (p_name p) (last_elem path path)) p))) (cur k)) k) ∧
    committed s0 (kmem k') (p_pagetable p) ows root (p_trapframe p) (ws ++ [entry q1 6; entry q2 30])
      (write_bytes sp (words_bytes (addrs ++ [0])) (push_bytes addrs argv (im_byte im))) (exec_frame (p_trapframe p) sp (e_entry elf))).

(** From the guard page on: the stack page takes the arguments, or there is no room. *)
Lemma guarded_wp s0 s l root tf ws q1 q2 img :
  built s0 s root tf (ws ++ [entry q1 22; entry q2 22]) → kinv s l → shows s (ws ++ [entry q1 22; entry q2 22]) img → valid_page q1 → valid_page q2 →
  wp (uvmclear root (Z.of_nat (length ws) * PGSIZE)) s (λ _ s', stacked s0 root tf s' l (ws ++ [entry q1 6; entry q2 22]) (length ws + 1) img (λ _, True)).
Proof.
  intros B K Sh V1 V2. eapply wp_mono; [apply (built_clear s0 s l root tf _ (length ws) q1 22 B K); [by rewrite lookup_app_r, Nat.sub_diag by lia | done | lia | done]|].
  intros [] s' (K' & B' & Sh'). change (Z.land 22 (Z.lnot PTE_U)) with 6 in *. rewrite insert_app_r_alt, Nat.sub_diag in B', Sh' by lia. simpl in B', Sh'.
  split; [done | done | | by apply Sh']. destruct (valid_page_bounds q2 V2). exists (entry q2 22). rewrite lookup_app_r by lia. replace (length ws + 1 - length ws)%nat with 1%nat by lia.
  split; [done|]. split; [|done]. unfold outable. rewrite !entry_bit by lia. split; [done|]. split; [done | by left].
Qed.

(** The end of [exec_image]. *)
Lemma exec_commit_wp s0 (k : kern S) l root ws img p ows path elf sp sz (argc : Z) :
  let tf := p_trapframe p in
  p = pat k (cur k) → built s0 (kmem k) root tf ws → kinv (kmem k) l → shows (kmem k) ws img →
  live_space s0 (p_pagetable p) tf ows → 0 ≤ p_sz p < 2 ^ 64 - PGSIZE → PGROUNDUP (p_sz p) = Z.of_nat (length ows) * PGSIZE →
  valid_page tf → cnt ows tf < rc s0 tf → ¬ pt_node s0 (p_pagetable p) tf →
  wp (tf_set p tf_a1 sp;;
      setmy (λ p, set_name (copy_name (p_name p) (last_elem path path)) p);;
      setmy (λ p, set_sz sz (set_pagetable root p));;
      tf_set p tf_epc (e_entry elf);;
      tf_set p tf_sp sp;;
      onmem (proc_freepagetable (p_pagetable p) (p_sz p));;
      mret argc) k (λ r k', r = argc ∧
    k' = set_kmem (kmem k') (set_kprocs (alter (λ p, set_sz sz (set_pagetable root (set_name (copy_name (p_name p) (last_elem path path)) p))) (cur k)) k) ∧
    committed s0 (kmem k') (p_pagetable p) ows root tf ws img (exec_frame tf sp (e_entry elf))).
Proof.
  intros tf -> B K Sh Ho Hsz HR Hv Hc Hn. unfold tf_set, setmy, setp, myslot, storeM. apply wp_bind, wp_onmem, wp_modify.
  apply wp_bind, wp_bind, wp_gets, wp_modify. apply wp_bind, wp_bind, wp_gets, wp_modify. apply wp_bind, wp_onmem, wp_modify. apply wp_bind, wp_onmem, wp_modify.
  apply wp_bind, wp_onmem. eapply wp_mono; [by apply (image_commit_wp s0 (kmem k) l root tf ws img (p_pagetable (pat k (cur k))) ows (p_sz (pat k (cur k))) sp (e_entry elf))|].
  intros [] s' C. apply wp_ret. split; [done|]. split; [|done]. unfold set_kmem, set_kprocs, set_fs. simpl. f_equal.
  by rewrite list_alter_alter_eq.
Qed.

Lemma exec_image_wp s0 k l ws root im path argv elf ows :
  let p := pat k (cur k) in let tf := p_trapframe p in
  loaded s0 (kmem k) l root tf ws im →
  live_space s0 (p_pagetable p) tf ows → 0 ≤ p_sz p < 2 ^ 64 - PGSIZE → PGROUNDUP (p_sz p) = Z.of_nat (length ows) * PGSIZE →
  valid_page tf → cnt ows tf < rc s0 tf → ¬ pt_node s0 (p_pagetable p) tf →
  Forall (λ a, Z.of_nat (length a) < PGSIZE) argv → Z.of_nat (length argv) < MAXARG →
  wp (exec_image path argv elf root (im_sz im)) k (exec_post s0 k l ws root im path argv elf ows).
Proof.
  intros p tf Hld Ho Hosz HoR Hv Hc Hn Hall Hac. destruct (loaded_size _ _ _ _ _ _ _ Hld) as (Hmax & HR & _). destruct (valid_page_bounds tf Hv) as [Htf _].
  pose proof (built_len _ _ _ _ _ (ld_built _ _ _ _ _ _ _ Hld)) as Hl. set (i := (length ws + 1)%nat). set (base := Z.of_nat i * PGSIZE).
  assert (Hbase : (Z.of_nat (length ws) + 1) * PGSIZE = base) by (unfold base, i; lia). set (top := (Z.of_nat (length ws) + 2) * PGSIZE).
  assert (Htop : top = base + PGSIZE ∧ 0 < top < 2 ^ 28) by (unfold top, base, i, PGSIZE; lia). destruct Htop as [Htop Htop2].
  assert (Hb1 : PGSIZE ≤ base) by (unfold base, i, PGSIZE; lia).
  unfold exec_image. apply wp_bind, wp_gets. fold p. cbv zeta. rewrite HR.
  replace (u64 (Z.of_nat (length ws) * PGSIZE + 2 * PGSIZE)) with top by (rewrite u64_small; unfold top, PGSIZE; lia).
  (* giving up *)
  assert (HRn : ∀ n, 0 ≤ n ≤ 65536 → PGROUNDUP (n * PGSIZE) = n * PGSIZE) by (intros n Hnn; rewrite PGROUNDUP_spec; unfold PGSIZE; lia).
  assert (HB : ∀ k1 ws1 n, memonly k k1 → built s0 (kmem k1) root tf ws1 → n = Z.of_nat (length ws1) * PGSIZE → (layout base argv = None ∨ (length l < 7)%nat) →
    wp (exec_bad root n None) k1 (exec_post s0 k l ws root im path argv elf ows)).
  { intros k1 ws1 n M B1 -> Hwhy. pose proof (built_len _ _ _ _ _ B1). eapply wp_mono; [apply (exec_bad_wp s0 k1 root tf ws1); [done | lia | unfold PGSIZE; lia | apply HRn; lia]|].
    intros r k' (-> & M' & R). left. split_and!; [done | by eapply memonly_trans | done | by rewrite Hbase]. }
  apply wp_bind, wp_onmem. eapply wp_mono; [by apply (stack_pages_wp s0 (kmem k) l root tf ws im)|].
  intros r s1 [(-> & B1 & Hfew)|(-> & q1 & q2 & l1 & V1 & V2 & K1 & Hc1 & B1 & Sh1)].
  { change (0 =? 0) with true. cbv iota. eapply HB; [apply memonly_set | exact B1 | done | right; lia]. }
  fold top. rewrite (proj2 (Z.eqb_neq top 0)) by lia. apply wp_bind, wp_onmem.
  replace (u64 (top - 2 * PGSIZE)) with (Z.of_nat (length ws) * PGSIZE) by (rewrite u64_small; unfold top, PGSIZE; lia).
  eapply wp_mono; [by apply (guarded_wp s0 s1 l1 root tf ws q1 q2 (im_byte im))|]. intros [] s2 St. fold i in St.
  replace (u64 (top - PGSIZE)) with base by (rewrite u64_small; unfold top, PGSIZE in *; lia).
  set (k2 := set_kmem s2 (set_kmem s1 k)). set (ws2 := ws ++ [entry q1 6; entry q2 22]) in *.
  assert (Hl2 : ∀ w, Z.of_nat (length (<[i := w]> ws2)) * PGSIZE = top) by (intros w; unfold ws2, top; rewrite length_insert, length_app; simpl; lia).
  apply wp_bind. eapply wp_mono; [apply (push_args_wp s0 root tf argv k2 l1 ws2 i top 0 [] (im_byte im) St); [unfold i; lia | fold base; unfold PGSIZE in *; lia | fold base; unfold PGSIZE in *; lia | lia | lia | done]|].
  fold base. intros r k3 (M3 & w3 & l3 & Hl3 & img3 & St3 & HP). assert (M03 : memonly k k3) by (eapply memonly_trans; [|exact M3]; done).
  unfold layout in HB. rewrite <- Htop in HB. destruct (place base top argv) as [[sp addrs]|] eqn:Hpl.
  2:{ rewrite HP. eapply HB; [done | apply St3 | by rewrite Hl2 | left; done]. }
  destruct (place_sound base top argv sp addrs ltac:(unfold PGSIZE in *; lia) Hpl) as (Hsp & Hla & _ & _). simpl in HB.
  destruct HP as [[-> ->]|[-> Hnil]]; [|eapply HB; [done | apply St3 | by rewrite Hl2 | right; rewrite Hnil in Hc1; simpl in Hc1; lia]].
  rewrite app_nil_l. rewrite (u64_small (sp - _)) by (unfold MAXARG, PGSIZE in *; lia).
  fold (align16 (sp - (Z.of_nat (length argv) + 1) * 8)). destruct (align16_bounds (sp - (Z.of_nat (length argv) + 1) * 8)) as [Hq _]. set (sp2 := align16 _) in *.
  destruct (Z.ltb_spec sp2 base) as [Hlt|Hge]; [eapply HB; [done | apply St3 | by rewrite Hl2 | left; done]|].
  apply wp_bind, wp_onmem. eapply wp_mono; [apply (push_wp s0 root tf (kmem k3) l3 _ i _ (λ _, True) sp2 (words_bytes (addrs ++ [0])) St3); [unfold i; lia | done | | ]|].
  { rewrite length_words_bytes, length_app, Hla. simpl. fold base. lia. }
  { intros E%(f_equal length). rewrite length_words_bytes, length_app in E. simpl in E. lia. }
  intros r s4 [(-> & -> & ->)|(-> & w4 & l4 & _ & [K4 B4 (w & Hw & _ & q & Vq & ->) Sh4])].
  { change (-1 <? 0) with true. cbv iota. eapply HB; [eapply memonly_trans; [exact M03 | apply memonly_set] | apply St3 | by rewrite Hl2 |].
    right. destruct l1; [simpl in Hc1; lia | exfalso; by apply Hl3]. }
  change (0 <? 0) with false. cbv iota. rewrite list_insert_insert_eq in *.
  assert (Hi2 : (i < length ws2)%nat) by (unfold i, ws2; rewrite length_app; simpl; lia). rewrite list_lookup_insert_eq in Hw by done. injection Hw as ->.
  assert (Ews : <[i := entry q 30]> ws2 = ws ++ [entry q1 6; entry q 30]).
  { unfold ws2, i. rewrite insert_app_r_alt by lia. replace (length ws + 1 - length ws)%nat with 1%nat by lia. done. }
  rewrite Ews in *. set (k4 := set_kmem s4 k3). assert (E4 : k4 = set_kmem s4 k) by (unfold k4; rewrite M03; done).
  eapply wp_mono; [eapply (exec_commit_wp s0 k4 l4 root (ws ++ [entry q1 6; entry q 30]) _ p ows path elf sp2 top); [by rewrite E4 | exact B4 | exact K4 | exact Sh4 | done..]|].
  intros r k' (-> & Ek & C). right. split; [done|]. exists sp2, addrs, q1, q. split; [|split; [done|]; split; [done|]; split].
  - rewrite Hbase. unfold layout. rewrite <- Htop, Hpl. simpl. fold sp2. by rewrite (proj2 (Z.ltb_ge _ _)) by lia.
  - rewrite Ek, E4. rewrite Hbase, <- Htop. done.
  - exact C.
Qed.
End Commit2.
