(* ===== verification/ExecSpec.v ===== *)
(** * [exec] from the path to the running program (kernel/exec.c)

    The file system, the log, memory and the process table together: [exec] finds the
    file, loads what it asks for, and replaces the image of the process, or it fails
    and has changed nothing. *)

From stdpp Require Import base numbers list strings.
From S2P Require Import Prelude Str Layout Kalloc Vm PageTable Uvm Ucopy Freewalk Aspace Image Demo ProcState Sched Pipe.
From S2P Require Import Bio BioProofs BioSpec BioView Log LogProofs LogSpec LogOps Block Fs Dir FsAlloc FsFile FsInode FsRw Txn FsSpec DirSpec Namei.
From S2P Require Import Printf Console Kern File Proc Sysproc Sysfile Exec ExecLoad ExecStack ExecCommit.
Local Open Scope Z_scope.

(** ** The specification *)

(** What a file with the bytes [F] asks [exec] to load. *)
Definition program_image (F : list Z) : option image :=
  let elf := read_elfhdr (slice F 0 sizeof_elfhdr) in
  if (sizeof_elfhdr <=? Z.of_nat (length F)) && (e_magic elf =? ELF_MAGIC)
  then load_segs F (Z.to_nat (e_phnum elf)) (i32 (e_phoff elf)) no_image
  else None.

(** The bytes of inode [i]. *)
Definition file_bytes (V : Z → bdata) (i : inode) : list Z := fbytes V i 0 (Z.to_nat (i_size i)).

(** ** What the process sees *)

Section Sees.
Context {L : Linker} {LOk : LinkerOk L}.

Lemma committed_ubyte s0 s' oroot ows root tf ws img fr ps va :
  committed s0 s' oroot ows root tf ws img fr → perms ws ps → Forall (λ p, 0 ≤ p < 1024) ps → 0 ≤ va < MAXVA →
  ubyte s' root va = ps !! Z.to_nat (va / PGSIZE) ≫= λ p, if Z.testbit p 4 then Some (img va) else None.
Proof.
  intros C Hp Hb Hva. destruct (cm_new _ _ _ _ _ _ _ _ _ C) as [W Sp Lf _ Hl Ht]. pose proof (Forall2_length _ _ _ Hp) as Hlen.
  assert (Hi : 0 ≤ va / PGSIZE) by (unfold PGSIZE; lia). rewrite MAXVA_value in Hva.
  unfold ubyte. cbv zeta. rewrite (Sp va) by (rewrite MAXVA_value; lia). unfold space_pte. rewrite TRAMPOLINE_page, TRAPFRAME_page.
  pose proof lk_trampoline_lo. pose proof lk_order1. pose proof lk_order2. pose proof lk_fits.
  destruct (Z.eqb_spec (va / PGSIZE) 67108863) as [E|E].
  { rewrite lookup_ge_None_2 by lia. rewrite !entry_bit by layout_lia. done. }
  destruct (Z.eqb_spec (va / PGSIZE) 67108862) as [E'|E'].
  { rewrite lookup_ge_None_2 by lia. rewrite !entry_bit by lia. done. }
  destruct (ps !! Z.to_nat (va / PGSIZE)) as [p|] eqn:Ep.
  - destruct (Forall2_lookup_r _ _ _ _ _ Hp Ep) as (w & Hw & q & Hq & ->). rewrite Hw. unfold default, id. cbn [mbind option_bind]. destruct (valid_page_bounds q Hq) as [Hqb _].
    rewrite !entry_bit by lia. rewrite orb_true_r, orb_false_r. cbn [andb]. destruct (Z.testbit p 4); [|done]. f_equal.
    rewrite (cm_image _ _ _ _ _ _ _ _ _ C _ _ (va mod PGSIZE) Hw) by (by apply Z.mod_pos_bound). f_equal. unfold PGSIZE in *. lia.
  - rewrite lookup_ge_None_2; [done|]. apply lookup_ge_None_1 in Ep. lia.
Qed.

(** A word of the process's memory. *)
Definition uword (s : kstate) (root a : Z) : Z := load64 (λ va, default 0 (ubyte s root va)) a.

(** What a program finds when it starts: its segments, no access to the guard page and
    nothing above the stack, and at [sp] the array of its arguments. *)
Record sees (s : kstate) (root : Z) (im : image) (sp : Z) (argv : list (list Z)) : Prop := Sees {
  se_program : ∀ va, 0 ≤ va < pages (im_sz im) * PGSIZE → ubyte s root va = Some (im_byte im va);
  se_guard : ∀ va, pages (im_sz im) * PGSIZE ≤ va < (pages (im_sz im) + 1) * PGSIZE → ubyte s root va = None;
  se_above : ∀ va, (pages (im_sz im) + 2) * PGSIZE ≤ va < MAXVA → ubyte s root va = None;
  se_args : ∀ j a, argv !! j = Some a → ∀ o x, (a ++ [0]) !! o = Some x →
    ubyte s root (uword s root (sp + 8 * Z.of_nat j) + Z.of_nat o) = Some (u8 x);
  se_end : uword s root (sp + 8 * Z.of_nat (length argv)) = 0;
  se_sp : (pages (im_sz im) + 1) * PGSIZE ≤ sp < (pages (im_sz im) + 2) * PGSIZE ∧ sp mod 16 = 0;
}.

Lemma layout_sound base args sp addrs : 0 < base → layout base args = Some (sp, addrs) →
  base ≤ sp ∧ sp mod 16 = 0 ∧ length addrs = length args ∧ sp + 8 * (Z.of_nat (length args) + 1) ≤ base + PGSIZE ∧
  (∀ j a q, args !! j = Some a → addrs !! j = Some q → sp + 8 * (Z.of_nat (length args) + 1) ≤ q ∧ q + Z.of_nat (length a) + 1 ≤ base + PGSIZE) ∧
  ∀ img, let final := write_bytes sp (words_bytes (addrs ++ [0])) (push_bytes addrs args img) in
    (∀ va, va < base → final va = img va) ∧
    (∀ j q, (addrs ++ [0]) !! j = Some q → load64 final (sp + 8 * Z.of_nat j) = u64 q) ∧
    (∀ j a q o x, args !! j = Some a → addrs !! j = Some q → (a ++ [0]) !! o = Some x → final (q + Z.of_nat o) = u8 x).
Proof.
  intros Hb H. unfold layout in H. apply bind_Some in H as ([sp1 ads] & Hp & H). cbv zeta in H. set (sp2 := align16 _) in H.
  destruct (Z.ltb_spec sp2 base) as [|Hge]; [done|]. injection H as <- <-.
  destruct (align16_bounds (sp1 - (Z.of_nat (length args) + 1) * 8)) as [Ha Ha16]. fold sp2 in Ha, Ha16.
  destruct (place_sound base (base + PGSIZE) args sp1 ads ltac:(unfold PGSIZE; lia) Hp) as (P1 & P2 & P3 & P4).
  assert (HW : Z.of_nat (length (words_bytes (ads ++ [0]))) = 8 * (Z.of_nat (length args) + 1)) by (rewrite length_words_bytes, length_app, P2; simpl; lia).
  split; [done|]. split; [done|]. split; [done|]. split; [lia|]. split; [intros j a q Hj Hq; destruct (P4 j a q Hj Hq) as (? & ? & _); lia|].
  intros img final. split; [|split].
  - intros va Hva. unfold final. rewrite write_bytes_out by lia. apply P3. lia.
  - intros j q Hq. by apply words_bytes_load.
  - intros j a q o x Hj Hq Hx. destruct (P4 j a q Hj Hq) as (? & _ & _ & P5). unfold final. rewrite write_bytes_out by lia. by apply P5.
Qed.

(** Images as the loader makes them: permissions for each page. *)
Definition image_ok (im : image) : Prop :=
  0 ≤ im_sz im ∧ Z.of_nat (length (im_perm im)) = pages (im_sz im) ∧ Forall user_perm (im_perm im).

Lemma load_seg_ok F ph im im' : load_seg F ph im = Some im' → image_ok im → image_ok im'.
Proof.
  intros H (Hz & Hl & Hu). pose proof (load_seg_size F ph im im' H) as Hs. unfold load_seg in H. destruct (negb _); [by injection H as <-|].
  destruct (_ && _); [|done]. injection H as <-. cbn [im_sz im_perm] in *. pose proof (pages_mono _ _ Hs) as Hm.
  split; [cbn [im_sz]; lia|]. split; [cbn [im_sz im_perm]; rewrite length_app, length_replicate; lia|]. apply Forall_app. split; [done|]. apply Forall_replicate, flags2perm_ok.
Qed.

Lemma load_segs_ok F n off im im' : load_segs F n off im = Some im' → image_ok im → image_ok im'.
Proof.
  revert off im. induction n as [|n IH]; intros off im; cbn [load_segs]; [by intros [= ->]|]. destruct (_ <=? _); [|done].
  intros (im1 & H1 & H2)%bind_Some Hok. eapply IH; [exact H2|]. by eapply load_seg_ok.
Qed.

Lemma program_image_ok F im : program_image F = Some im → image_ok im.
Proof. unfold program_image. destruct (_ && _); [|done]. intros H. eapply load_segs_ok; [exact H|]. split; [done|]. split; [done | constructor]. Qed.

Lemma committed_sees s0 s' oroot ows root tf ws fr im sp addrs argv :
  committed s0 s' oroot ows root tf ws (write_bytes sp (words_bytes (addrs ++ [0])) (push_bytes addrs argv (im_byte im))) fr →
  perms ws (im_perm im ++ [6; 30]) → image_ok im → layout ((pages (im_sz im) + 1) * PGSIZE) argv = Some (sp, addrs) → sees s' root im sp argv.
Proof.
  intros C Hp (Hz & Hl & Hu) Hlay. set (img := write_bytes _ _ _) in C. set (np := pages (im_sz im)) in *.
  pose proof (ls_len _ _ _ _ (cm_new _ _ _ _ _ _ _ _ _ C)) as Hmax. pose proof (Forall2_length _ _ _ Hp) as Hlen. rewrite length_app in Hlen. simpl in Hlen.
  assert (Hnp : 0 ≤ np) by lia. destruct (layout_sound ((np + 1) * PGSIZE) argv sp addrs ltac:(unfold PGSIZE; lia) Hlay) as (L1 & L2 & L3 & L4 & L5 & L6).
  destruct (L6 (im_byte im)) as (L7 & L8 & L9). fold img in L7, L8, L9.
  assert (Hb : Forall (λ p, 0 ≤ p < 1024) (im_perm im ++ [6; 30])).
  { apply Forall_app. split; [eapply Forall_impl; [exact Hu|]; by intros p (? & _)|]. repeat constructor; lia. }
  assert (HU : ∀ va, 0 ≤ va < MAXVA → ubyte s' root va = (im_perm im ++ [6; 30]) !! Z.to_nat (va / PGSIZE) ≫= λ p, if Z.testbit p 4 then Some (img va) else None)
    by (intros va Hva; by eapply committed_ubyte).
  assert (HM : (np + 2) * PGSIZE ≤ MAXVA) by (rewrite MAXVA_value; unfold PGSIZE; lia).
  assert (HS : ∀ va, (np + 1) * PGSIZE ≤ va < (np + 2) * PGSIZE → ubyte s' root va = Some (img va)).
  { intros va Hva. rewrite HU by (unfold PGSIZE in *; lia). replace (Z.to_nat (va / PGSIZE)) with (length (im_perm im) + 1)%nat by (unfold PGSIZE in *; lia).
    rewrite lookup_app_r by lia. by replace (length (im_perm im) + 1 - length (im_perm im))%nat with 1%nat by lia. }
  assert (HW : ∀ j q, (addrs ++ [0]) !! j = Some q → uword s' root (sp + 8 * Z.of_nat j) = u64 q).
  { intros j q Hj. rewrite <- (L8 j q Hj). pose proof (lookup_lt_Some _ _ _ Hj) as Hjl. rewrite length_app in Hjl. simpl in Hjl.
    apply load64_ext. intros b Hbb. by rewrite HS by (unfold PGSIZE in *; lia). }
  split.
  - intros va Hva. rewrite HU by (unfold PGSIZE in *; lia). rewrite lookup_app_l by (unfold PGSIZE in *; lia).
    destruct (lookup_lt_is_Some_2 (im_perm im) (Z.to_nat (va / PGSIZE))) as [q Hq]; [unfold PGSIZE in *; lia|]. rewrite Hq. cbn [mbind option_bind].
    destruct (Forall_lookup_1 _ _ _ _ Hu Hq) as (_ & _ & ->). f_equal. apply L7. unfold PGSIZE in *; lia.
  - intros va Hva. rewrite HU by (unfold PGSIZE in *; lia). replace (Z.to_nat (va / PGSIZE)) with (length (im_perm im)) by (unfold PGSIZE in *; lia).
    by rewrite lookup_app_r, Nat.sub_diag by lia.
  - intros va Hva. rewrite HU by (unfold PGSIZE in *; lia). rewrite lookup_ge_None_2; [done|]. rewrite length_app. simpl. unfold PGSIZE in *; lia.
  - intros j a Hj o x Hx. destruct (lookup_lt_is_Some_2 addrs j) as [q Hq]; [rewrite L3; by eapply lookup_lt_Some|].
    destruct (L5 j a q Hj Hq) as [Q1 Q2]. pose proof (lookup_lt_Some _ _ _ Hx) as Hxl. rewrite length_app in Hxl. simpl in Hxl.
    rewrite (HW j q) by (rewrite lookup_app_l; [done | by eapply lookup_lt_Some]). rewrite u64_small by (unfold PGSIZE in *; lia).
    rewrite HS by (unfold PGSIZE in *; lia). f_equal. by eapply L9.
  - rewrite (HW (length argv) 0); [done|]. by rewrite lookup_app_r, L3, Nat.sub_diag by lia.
  - unfold PGSIZE in *. split; [lia | done].
Qed.
End Sees.

(** ** The file system around it *)

Section Run.
Context {L : Linker} {LOk : LinkerOk L} `{Y : Symbols} (dev : Z) (Hdev : dev ≠ 0).
#[local] Instance exec_laws : BlockLaws lstate dev := log_block_laws dev Hdev.
Context (k : kern lstate) (c : bstate) (g : log) (lru : list nat) (N : Z → Prop).
Let p := pat k (cur k).
Let f0 : fstate lstate := set_blocks (opened c g) (fs_for p (fs k)).
Let V := bview (blocks f0).
Let D := dnode dev (sb f0) V.

(** The log is idle, the inode table agrees with the disk, the directories are a tree. *)
Record exec_ready : Prop := ExecReady {
  er_blocks : blocks (fs k) = LState c g;
  er_idle : idle dev c lru g;
  er_size : LOGSIZE ≤ lg_size g;
  er_table : ∀ j x, itable f0 !! j = Some x → slot_ok dev f0 None j x;
  er_tree : fs_tree dev f0 N;
  er_room : two_free f0;
  er_files : ∀ m, N m → file_inv dev (sb f0) (blocks f0) (D m);
}.

(** The transaction is over: the log is idle, the disk has not changed, and nothing is
    held. *)
Definition closed (k' : kern lstate) : Prop :=
  (∃ c' g' l', blocks (fs k') = LState c' g' ∧ idle dev c' l' g' ∧ ∀ x, outside g x → disk c' x = disk c x) ∧
  sb (fs k') = sb (fs k) ∧ length (itable (fs k')) = length (itable (fs k)) ∧
  ∀ j x0, itable (fs k) !! j = Some x0 → ∃ x, itable (fs k') !! j = Some x ∧ sl_locked (i_lock x) = 0 ∧ i_ref x = i_ref x0.

Lemma walking_umem m s hs lk : walking dev f0 26 s hs lk → walking dev (set_umem m f0) 26 (set_umem m s) hs lk.
Proof. intros [(b & T & -> & I & St) H2 H3 H4 H5 H6]. split; try done. by exists b, T. Qed.

(** A state of the file system in the kernel. *)
Lemma fs_for_walking m s hs lk : walking dev (set_umem m f0) 26 s hs lk → fs_for p s = s.
Proof. intros W. destruct (wk_fs _ _ _ _ _ _ W) as (b & T & -> & _ & _). done. Qed.

Lemma exec_finish_wp kX m : exec_ready → rest k kX → walking dev (set_umem m f0) 26 (fs kX) [] None →
  wp finish kX (λ _ k', rest k k' ∧ kmem k' = kmem kX ∧ closed k').
Proof.
  intros [Eb Id Hs _ _ _ _] R W. unfold finish. apply wp_zoom. apply wp_onb. destruct (wk_fs _ _ _ _ _ _ W) as (b & T & E & I & St).
  assert (Eb' : blocks (fs_for (pat kX (cur kX)) (fs kX)) = b) by (by rewrite E). rewrite Eb'.
  apply (end_op_wp dev c lru g b 26); [done | done | done | exact (bs_disk _ _ _ _ _ St)|].
  intros c' g' l' T' Id' [A1 _] D' _. split; [unfold rest; rewrite R; done|]. split; [done|].
  assert (Hc : ∀ x, content (cache b) dev x = disk c x).
  { intros x. pose proof (bs_view _ _ _ _ _ St x) as E2. change (content (cache b) dev x = content c dev x) in E2. rewrite E2. apply (idle_content dev c lru g Id). }
  split; [exists c', g', l'; split; [done|]; split; [done|]; intros x Hx; rewrite D', A1 by done; apply Hc|].
  split; [by rewrite E|]. split; [exact (wk_len _ _ _ _ _ _ W)|]. intros j x0 Hj. destruct (wk_ref _ _ _ _ _ _ W j x0 Hj) as (x & Hx & Er). exists x.
  split; [done|]. split; [by destruct (wk_slot _ _ _ _ _ _ W j x Hx) as (_ & H & _)|]. simpl in Er. lia.
Qed.

(** The file at slot [ip], inode [m], is open: [s2] is the state of the file system. *)
Definition opened_file (ip : nat) (m : Z) (F : list Z) (s2 : fstate lstate) (kX : kern lstate) : Prop :=
  walking dev f0 26 s2 [(ip, m)] (Some ip) ∧ i_nlink (D m) ≠ 0 ∧ rest k kX ∧ ∃ i, program dev s2 26 ip i F kX.

Lemma rest_pat kX : rest k kX → pat kX (cur kX) = p.
Proof. intros ->. done. Qed.

Lemma program_walking ip m F s2 kX : opened_file ip m F s2 kX →
  walking dev (set_umem (kmem kX) f0) 26 (fs_for p (fs kX)) [(ip, m)] (Some ip).
Proof.
  intros (W & _ & R & i & P). destruct P as [_ I _ _ _ _ Es Et St].
  assert (E : fs_for p (fs kX) = set_umem (kmem kX) (set_blocks (blocks (fs kX)) s2)).
  { destruct (wk_fs _ _ _ _ _ _ W) as (b & T & -> & _ & _). unfold fs_for, set_umem, kmem. simpl in *. by rewrite Es, Et. }
  rewrite E. apply walking_umem. eapply walking_reads; [exact W|]. exists (blocks (fs kX)). split; [done|]. split; [done|]. exact St.
Qed.

Lemma close_wp ip m F s2 kX : exec_ready → opened_file ip m F s2 kX →
  wp (onfs (iunlockput ip);; finish) kX (λ _ k', rest k k' ∧ kmem k' = kmem kX ∧ closed k').
Proof.
  intros HE HO. pose proof (program_walking _ _ _ _ _ HO) as W. destruct HO as (_ & Hn & R & _).
  apply wp_bind, wp_zoom. rewrite (rest_pat kX R). eapply wp_mono; [apply (iunlockput_wp dev _ 26 _ [] [] ip m W Hn)|].
  intros [] s4 W4. assert (Em : umem s4 = kmem kX) by (by destruct (wk_fs _ _ _ _ _ _ W4) as (b & T & -> & _)).
  eapply wp_mono; [apply (exec_finish_wp (set_fs s4 kX) (kmem kX) HE); [unfold rest in *; rewrite R; done | exact W4]|].
  intros [] k' (R' & M' & C'). split; [done|]. split; [|done]. by rewrite M'.
Qed.

(** Failure with the file open. *)
Lemma bad_wp ip m F s2 kX root sz tf : exec_ready → opened_file ip m F s2 kX → 0 ≤ tf < 2 ^ 56 →
  (root = 0 ∧ restored (kmem k) (kmem kX)) ∨ (root ≠ 0 ∧ abandoned (kmem k) root tf kX sz) →
  wp (exec_bad root sz (Some ip)) kX (λ r k', r = -1 ∧ rest k k' ∧ closed k' ∧ restored (kmem k) (kmem k')).
Proof.
  intros HE HO Ht H. unfold exec_bad, nonzero.
  assert (G : ∀ kY, opened_file ip m F s2 kY → restored (kmem k) (kmem kY) →
    wp (onfs (iunlockput ip);; finish) kY (λ _ k', rest k k' ∧ closed k' ∧ restored (kmem k) (kmem k'))).
  { intros kY HY Re. eapply wp_mono; [by apply (close_wp ip m F s2)|]. intros [] k' (R' & M' & C'). by rewrite M'. }
  apply wp_bind. destruct H as [[-> Re]|[Hne (ws & B & Hsz & HR)]].
  - change (negb (0 =? 0)) with false. cbn [when]. apply wp_ret, wp_bind. eapply wp_mono; [by apply G|]. intros [] k' (H1 & H2 & H3). by apply wp_ret.
  - rewrite (proj2 (Z.eqb_neq root 0)) by done. cbn [negb when]. apply wp_onmem. eapply wp_mono; [by apply (built_free (kmem k) (kmem kX) root tf ws sz)|].
    intros [] s' Re. apply wp_bind. eapply wp_mono; [apply G; [|exact Re]|].
    + destruct HO as (W & Hn & R & i & P). split; [done|]. split; [done|]. split; [by eapply rest_trans, rest_mem|]. exists i. by apply program_mem.
    + intros [] k' (H1 & H2 & H3). by apply wp_ret.
Qed.

(** ** The result *)

(** What has happened when [exec] returns [r]: nothing but [-1], or the new image.
    [l] are the free pages before, [ows] the pages of the old image; [F] are the bytes
    of the file, [im] what it asks for. *)
Definition exec_fails (r : Z) (k' : kern lstate) : Prop := r = -1 ∧ rest k k' ∧ restored (kmem k) (kmem k').

Definition exec_runs (path : list Z) (argv : list (list Z)) (ows F : list Z) (im : image) (r : Z) (k' : kern lstate) : Prop :=
  let base := (pages (im_sz im) + 1) * PGSIZE in
  let tf := p_trapframe p in
  r = Z.of_nat (length argv) ∧ ∃ root sp addrs ws, layout base argv = Some (sp, addrs) ∧ perms ws (im_perm im ++ [6; 30]) ∧
    k' = set_fs (fs k') (set_kprocs (alter (λ p, set_sz (base + PGSIZE) (set_pagetable root (set_name (copy_name (p_name p) (last_elem path path)) p))) (cur k)) k) ∧
    committed (kmem k) (kmem k') (p_pagetable p) ows root tf ws
      (write_bytes sp (words_bytes (addrs ++ [0])) (push_bytes addrs argv (im_byte im)))
      (exec_frame tf sp (e_entry (read_elfhdr (slice F 0 sizeof_elfhdr)))).

Definition exec_result (l : list Z) (path : list Z) (argv : list (list Z)) (ows : list Z) (F : option (list Z)) (r : Z) (k' : kern lstate) : Prop :=
  closed k' ∧
  match F ≫= λ F, im ← program_image F; Some (F, im) with
  | None => exec_fails r k'
  | Some (F, im) =>
      (exec_fails r k' ∧ (layout ((pages (im_sz im) + 1) * PGSIZE) argv = None ∨ Z.of_nat (length l) < 12 + 3 * pages (im_sz im))) ∨
      exec_runs path argv ows F im r k'
  end.

(** The process has an image of its own, and a trap frame that is no part of it. *)
Record exec_process (l ows : list Z) : Prop := ExecProcess {
  ep_inv : kinv (kmem k) l;
  ep_old : live_space (kmem k) (p_pagetable p) (p_trapframe p) ows;
  ep_sz : 0 ≤ p_sz p < 2 ^ 64 - PGSIZE;
  ep_pages : PGROUNDUP (p_sz p) = Z.of_nat (length ows) * PGSIZE;
  ep_tf : valid_page (p_trapframe p);
  ep_tf_ref : cnt ows (p_trapframe p) < rc (kmem k) (p_trapframe p);
  ep_tf_node : ¬ pt_node (kmem k) (p_pagetable p) (p_trapframe p);
}.

Lemma closed_mem s k' : closed k' → closed (set_kmem s k').
Proof. done. Qed.

Lemma loaded_empty s l root tf : built (kmem k) s root tf [] → kinv s l → loaded (kmem k) s l root tf [] no_image.
Proof.
  intros B K. split; simpl; [done | done | by intros i w o Hi | done | constructor | done | done | done].
Qed.

(** With the file closed again. *)
Lemma exec_image_run l ows path argv F im root ws kX l1 :
  exec_process l ows → rest k kX → closed kX → loaded (kmem k) (kmem kX) l1 root (p_trapframe p) ws im →
  (length l ≤ length l1 + 3 * length ws + 5)%nat → program_image F = Some im →
  Forall (λ a, Z.of_nat (length a) < PGSIZE) argv → Z.of_nat (length argv) < MAXARG →
  wp (exec_image path argv (read_elfhdr (slice F 0 sizeof_elfhdr)) root (im_sz im)) kX (exec_result l path argv ows (Some F)).
Proof.
  intros [Hk Ho Hsz HR Hv Hc Hn] R C Hld Hl Him Hall Hac. pose proof (rest_pat kX R) as Ep. pose proof (ld_len _ _ _ _ _ _ _ Hld) as Hlen.
  eapply wp_mono; [apply (exec_image_wp (kmem k) kX l1 ws root im path argv _ ows); rewrite ?Ep; done|].
  intros r k'. unfold exec_post, exec_result. cbv zeta. rewrite Ep. cbn [mbind option_bind]. rewrite Him. cbn [mbind option_bind]. rewrite <- Hlen.
  intros [(-> & M & Re & Hw)|(-> & sp & addrs & q1 & q2 & Hlay & V1 & V2 & E & Cm)].
  - split; [rewrite M; by apply closed_mem|]. left. split; [split; [done|]; split; [rewrite M; by eapply rest_trans, rest_mem | done]|].
    destruct Hw; [by left | right; lia].
  - split; [rewrite E; exact C|]. right. unfold exec_runs. cbv zeta. rewrite <- Hlen. split; [done|]. exists root, sp, addrs, (ws ++ [entry q1 6; entry q2 30]). split; [done|]. split; [|split; [|exact Cm]].
    + apply Forall2_app; [apply Hld|]. repeat constructor; eauto.
    + rewrite E. assert (Ec : cur kX = cur k) by (by rewrite R). rewrite Ec, R. done.
Qed.

(** With the file open. *)
Lemma exec_load_run l ows path argv ip m F s2 kX :
  exec_ready → exec_process l ows → opened_file ip m F s2 kX → kmem kX = kmem k →
  Forall (λ a, Z.of_nat (length a) < PGSIZE) argv → Z.of_nat (length argv) < MAXARG →
  wp (h ← onfs (readi ip Kernel 0 sizeof_elfhdr);
      let elf := read_elfhdr h.2 in
      if negb (h.1 =? sizeof_elfhdr) then exec_bad 0 0 (Some ip)
      else if negb (e_magic elf =? ELF_MAGIC) then exec_bad 0 0 (Some ip)
      else
        pagetable ← onmem (proc_pagetable (p_trapframe p));
        if pagetable =? 0 then exec_bad 0 0 (Some ip)
        else
          s ← load_loop (Z.to_nat (e_phnum elf)) pagetable 0 ip (i32 (e_phoff elf));
          if negb s.1 then exec_bad pagetable s.2 (Some ip)
          else
            onfs (iunlockput ip);;
            finish;;
            exec_image path argv elf pagetable s.2) kX (exec_result l path argv ows (Some F)).
Proof.
  intros HE HP (W & Hn & R & i & P) Em Hall Hac. pose proof HP as [Hk _ _ _ Hv _ _]. destruct (valid_page_bounds _ Hv) as [Htf _].
  assert (HO : ∀ kY, rest kX kY → program dev s2 26 ip i F kY → opened_file ip m F s2 kY).
  { intros kY RY PY. split; [done|]. split; [done|]. split; [by eapply rest_trans | by exists i]. }
  assert (HB : ∀ kY root sz, rest kX kY → program dev s2 26 ip i F kY →
    (root = 0 ∧ restored (kmem k) (kmem kY)) ∨ (root ≠ 0 ∧ abandoned (kmem k) root (p_trapframe p) kY sz) →
    (∀ im, program_image F = Some im → Z.of_nat (length l) < 12 + 3 * pages (im_sz im)) →
    wp (exec_bad root sz (Some ip)) kY (exec_result l path argv ows (Some F))).
  { intros kY root sz RY PY HM Him. eapply wp_mono; [apply (bad_wp ip m F s2 kY root sz (p_trapframe p) HE (HO kY RY PY)); [lia | done]|].
    intros r k' (-> & R' & C' & Re). split; [done|]. simpl. destruct (program_image F) as [im|]; simpl; [left; split; [done|]; right; by apply Him | done]. }
  assert (Re0 : restored (kmem k) (kmem k)) by (by eapply restored_refl).
  apply wp_bind. eapply wp_mono; [by apply (readi_program_wp dev s2 26 ip i F)|].
  intros [rn bs] k1 (P1 & R1 & M1 & E1 & E2 & E3 & E4). cbn [fst snd] in *. cbv zeta.
  destruct (Z.eqb_spec rn sizeof_elfhdr) as [Hrn|Hrn]; cbn [negb].
  2:{ apply HB; [done | done | left; by rewrite M1, Em|]. intros im. unfold program_image.
      destruct (Z.leb_spec sizeof_elfhdr (Z.of_nat (length F))) as [Hle|]; [|done]. specialize (E3 Hle). congruence. }
  assert (Hle : sizeof_elfhdr ≤ Z.of_nat (length F)) by (destruct (Z.ltb_spec (Z.of_nat (length F)) (0 + sizeof_elfhdr)); [specialize (E4 ltac:(done)); lia | lia]).
  specialize (E3 Hle). injection E3 as _ ->. set (elf := read_elfhdr (slice F 0 sizeof_elfhdr)) in *.
  assert (HI : (e_magic elf =? ELF_MAGIC) = true → program_image F = load_segs F (Z.to_nat (e_phnum elf)) (i32 (e_phoff elf)) no_image).
  { intros Hm. unfold program_image. fold elf. by rewrite (proj2 (Z.leb_le _ _)), Hm by done. }
  destruct (e_magic elf =? ELF_MAGIC) eqn:Hmag; cbn [negb].
  2:{ apply HB; [done | done | left; by rewrite M1, Em|]. intros im. unfold program_image. fold elf. by rewrite Hmag, andb_false_r. }
  specialize (HI eq_refl). apply wp_bind, wp_onmem. rewrite M1, Em.
  eapply wp_mono; [apply (proc_pagetable_wp (kmem k) l (p_trapframe p) Hk); unfold PGSIZE; lia|].
  intros root s3 [(-> & Re & Hfew)|(Hvr & B & l3 & Hk3 & Hl3)].
  { change (0 =? 0) with true. cbv iota. apply HB; [by eapply rest_trans, rest_mem | by apply program_mem | by left|].
    intros im Him. rewrite HI in Him. pose proof (load_segs_size _ _ _ _ _ Him) as Hs. simpl in Hs. pose proof (pages_bounds _ Hs). lia. }
  destruct (valid_page_bounds root Hvr) as [Hrb _]. rewrite (proj2 (Z.eqb_neq root 0)) by lia. apply wp_bind.
  eapply wp_mono; [apply (load_loop_wp dev s2 (kmem k) root (p_trapframe p) 26 ip i F _ (set_kmem s3 k1) l3 [] no_image); [by apply program_mem | by apply loaded_empty]|].
  intros [b z] k4 (P4 & R4 & H4). assert (RX4 : rest kX k4) by (eapply rest_trans; [eapply rest_trans; [exact R1 | apply rest_mem] | exact R4]).
  unfold load_post in H4. rewrite <- HI in H4. cbn [fst snd] in *. destruct b; cbn [negb].
  - destruct H4 as (im & ws & l4 & Him & -> & Hld & _ & Hc). simpl in Hc. apply wp_assoc, wp_bind.
    eapply wp_mono; [by apply (close_wp ip m F s2 k4 HE); apply HO|]. intros [] k5 (R5 & M5 & C5). rewrite <- M5 in Hld.
    apply (exec_image_run l ows path argv F im root ws k5 l4); try done. lia.
  - destruct H4 as [HA Hc]. apply HB; [done | done | right; split; [lia | done]|]. intros im Him. specialize (Hc im Him). simpl in Hc. lia.
Qed.

(** The file of inode [m] after [ilock]. *)
Lemma opened_locked s2 ip m r lk : exec_ready → N m → walking dev f0 26 s2 [(ip, m)] (Some ip) →
  itable s2 !! ip = Some (meta r lk 1 (D m)) → opened_file ip m (file_bytes V (D m)) s2 (set_fs s2 k).
Proof.
  intros HE HN W Hx. destruct (walking_view dev f0 26 s2 _ _ W) as (Es & Ev & I & _). pose proof (er_files HE m HN) as Hf.
  split; [done|]. split; [by apply (er_tree HE m HN)|]. split; [done|]. exists (meta r lk 1 (D m)).
  assert (Hf2 : file_inv dev (sb s2) (blocks s2) (D m)).
  { destruct (wk_fs _ _ _ _ _ _ W) as (b & T & -> & Ib & St). apply (reads_inv dev f0 26 (set_blocks b f0) (D m)); [by exists b | done]. }
  destruct Hf2 as [_ [F1 F2 F3 F4 F5 F6] M [_ _ _ _ Hz _ _] Z0]. split; try done; [split; [apply Hz | exact Z0]|]. change (fs (set_fs s2 k)) with s2. unfold file_bytes. by rewrite Ev.
Qed.

(** The result of [exec], with [F] the bytes of the file that the path names. *)
Lemma exec_wp l ows path argv n :
  exec_ready → exec_process l ows → starts dev f0 N path n → path_bytes path →
  Forall (λ a, Z.of_nat (length a) < PGSIZE) argv → Z.of_nat (length argv) < MAXARG →
  wp (exec path argv) k (exec_result l path argv ows ((λ m, file_bytes V (D m)) <$> resolve dev (sb f0) V false n (take 14 <$> elements path))).
Proof.
  intros HE HP Hst Hpb Hall Hac. pose proof HE as [Eb Id Hs Htab Htree Hroom _].
  unfold exec. apply wp_bind, wp_gets. fold p. apply wp_bind. unfold begin. apply wp_zoom, wp_onb. change (blocks (fs_for (pat k (cur k)) (fs k))) with (blocks (fs k)). rewrite Eb.
  apply (begin_op_wp dev c lru g); [done|]. change (set_blocks (opened c g) (fs_for (pat k (cur k)) (fs k))) with f0.
  apply wp_bind, wp_zoom. change (fs_for (pat (set_fs f0 k) (cur (set_fs f0 k))) (fs (set_fs f0 k))) with f0. unfold namei. apply wp_bind.
  eapply wp_mono; [apply (namex_wp dev f0 26 N path false _ n Htree Hroom); [split; [by apply (open_in dev c lru) | done] | done | done]|].
  intros [r nm] s1 H1. apply wp_ret. cbv zeta in H1. cbn [fst] in *. change (bview (blocks f0)) with V in H1. destruct (resolve dev (sb f0) V false n _) as [m|].
  - destruct H1 as (ip & -> & W1 & HN & _). apply wp_bind, wp_zoom. change (set_fs s1 (set_fs f0 k)) with (set_fs s1 k).
    assert (E1 : fs_for (pat (set_fs s1 k) (cur (set_fs s1 k))) (fs (set_fs s1 k)) = s1) by (by apply (fs_for_walking (umem f0) s1 [(ip, m)] None)). rewrite E1.
    eapply wp_mono; [apply (ilock_wp dev f0 26 s1 _ ip m W1); [by left | by apply (Htree m HN)]|]. intros [] s2 (W2 & rf & Hx).
    apply (exec_load_run l ows path argv ip m (file_bytes V (D m)) s2 (set_fs s2 k)); try done; [by eapply opened_locked|].
    by destruct (wk_fs _ _ _ _ _ _ W2) as (b & T & -> & _).
  - destruct H1 as [-> W1]. apply wp_bind. change (set_fs s1 (set_fs f0 k)) with (set_fs s1 k).
    eapply wp_mono; [apply (exec_finish_wp (set_fs s1 k) (umem f0) HE); [done | exact W1]|]. intros [] k' (R' & M' & C'). apply wp_ret. split; [done|]. simpl.
    split; [done|]. split; [done|]. rewrite M'. assert (Em : kmem (set_fs s1 k) = kmem k) by (by destruct (wk_fs _ _ _ _ _ _ W1) as (b & T & -> & _)).
    rewrite Em. eapply restored_refl, (ep_inv _ _ HP).
Qed.

(** C7. [exec] is atomic and does what the file says: it always returns, without
    panic, with the log idle, the disk, the locks and the inode references as before.
    If the path names no file, or the file is no valid program, or the arguments do
    not fit in the stack page, the result is -1 and the process table and every page
    in use are as they were.  Otherwise, given three free pages for each page of the
    program and twelve more, the result is the number of arguments and the process
    has a new page table whose pages hold the segments of the file, zeros after them,
    a guard page without access, and the arguments on the stack; the trap frame says
    where to start; of the old image exactly its references have been dropped; and
    nothing else has changed. *)
Theorem exec_correct l ows path argv n :
  exec_ready → exec_process l ows → starts dev f0 N path n → path_bytes path →
  Forall (λ a, Z.of_nat (length a) < PGSIZE) argv → Z.of_nat (length argv) < MAXARG →
  ∃ r k', exec path argv k = Ret (r, k') ∧
    exec_result l path argv ows ((λ m, file_bytes V (D m)) <$> resolve dev (sb f0) V false n (take 14 <$> elements path)) r k'.
Proof. intros HE HP Hst Hpb Hall Hac. by apply wp_elim, exec_wp. Qed.

(** The registers in the trap frame. *)
Lemma exec_frame_regs s0 s' oroot ows root tf ws img sp e : committed s0 s' oroot ows root tf ws img (exec_frame tf sp e) →
  0 ≤ sp < 2 ^ 64 → 0 ≤ e < 2 ^ 64 →
  load64 (mem s') (tf + tf_a1) = sp ∧ load64 (mem s') (tf + tf_epc) = e ∧ load64 (mem s') (tf + tf_sp) = sp.
Proof.
  intros C Hs He. assert (G : ∀ o, 0 ≤ o ≤ 288 → load64 (mem s') (tf + o) = load64 (exec_frame tf sp e (mem s0)) (tf + o)).
  { intros o Ho. apply load64_ext. intros b Hb. apply (cm_frame _ _ _ _ _ _ _ _ _ C). unfold PGSIZE. lia. }
  rewrite !G by (unfold tf_a1, tf_epc, tf_sp; lia). unfold exec_frame, tf_a1, tf_epc, tf_sp.
  repeat (rewrite load64_store64 || (rewrite load64_store64_ne by lia)). by rewrite !u64_small by done.
Qed.

(** C8. A program that [exec] has started finds what it needs: the process has the new
    page table and size; through it every byte of the segments of the file is there,
    the rest of its pages is zero, the guard page and everything above the stack fault;
    [argv] in [a1] is an array of pointers to the argument strings, each with its NUL,
    and a null pointer at the end; the stack pointer is aligned to 16 bytes and the
    program counter is the entry point of the file. *)
Theorem exec_started l ows path argv n r k' :
  exec_ready → exec_process l ows → starts dev f0 N path n → path_bytes path →
  Forall (λ a, Z.of_nat (length a) < PGSIZE) argv → Z.of_nat (length argv) < MAXARG → (cur k < length (procs k))%nat →
  exec path argv k = Ret (r, k') → r ≠ -1 →
  ∃ m im sp, resolve dev (sb f0) V false n (take 14 <$> elements path) = Some m ∧ program_image (file_bytes V (D m)) = Some im ∧
    let p' := pat k' (cur k) in let regs := p_trapframe p' in
    r = Z.of_nat (length argv) ∧ p_trapframe p' = p_trapframe p ∧ p_sz p' = (pages (im_sz im) + 2) * PGSIZE ∧
    sees (kmem k') (p_pagetable p') im sp argv ∧
    load64 (mem (kmem k')) (regs + tf_a1) = sp ∧ load64 (mem (kmem k')) (regs + tf_sp) = sp ∧
    load64 (mem (kmem k')) (regs + tf_epc) = e_entry (read_elfhdr (slice (file_bytes V (D m)) 0 sizeof_elfhdr)).
Proof.
  intros HE HP Hst Hpb Hall Hac Hcur Hex Hr. destruct (wp_elim _ _ _ (exec_wp l ows path argv n HE HP Hst Hpb Hall Hac)) as (r1 & k1 & E1 & H).
  rewrite Hex in E1. injection E1 as <- <-. destruct H as [_ H].
  destruct (resolve _ _ _ _ _ _) as [m|]; [|by destruct H]. simpl in H. exists m. destruct (program_image (file_bytes V (D m))) as [im|] eqn:Him; [|by destruct H].
  simpl in H. exists im. destruct H as [[[Hf _] _]|(-> & root & sp & addrs & ws & Hlay & Hp & Ek & C)]; [done|]. exists sp. split; [done|]. split; [done|]. cbv zeta.
  pose proof (program_image_ok _ _ Him) as Hok. pose proof (committed_sees _ _ _ _ _ _ _ _ _ _ _ _ C Hp Hok Hlay) as Hsees.
  assert (Ep : pat k' (cur k) = set_sz ((pages (im_sz im) + 1) * PGSIZE + PGSIZE) (set_pagetable root (set_name (copy_name (p_name p) (last_elem path path)) p))).
  { rewrite Ek. unfold pat. simpl. rewrite list_lookup_alter_eq. destruct (lookup_lt_is_Some_2 (procs k) (cur k) Hcur) as [q Hq].
    unfold p, pat. by rewrite Hq. }
  rewrite Ep. split; [done|]. split; [done|]. split; [simpl; lia|]. split; [exact Hsees|].
  pose proof (ls_len _ _ _ _ (cm_new _ _ _ _ _ _ _ _ _ C)) as Hmax. pose proof (Forall2_length _ _ _ Hp) as Hlen. rewrite length_app in Hlen. simpl in Hlen.
  destruct Hok as (_ & Hl & _). destruct (se_sp _ _ _ _ _ Hsees) as [Hsp _].
  destruct (exec_frame_regs _ _ _ _ _ _ _ _ _ _ C) as (R1 & R2 & R3); [unfold PGSIZE in *; lia | apply load64_bound|]. done.
Qed.
End Run.

(** ** A program of one segment, "/a" *)

Definition demo_elf : list Z :=
  words_bytes [ELF_MAGIC; 0; 0; 0; 64; 0; 0; 1; 1 + 5 * 2 ^ 32; 120; 0; 0; 4; 8; 0] ++ [19; 0; 0; 0].

#[local] Existing Instance root_laws.

(** A process with an empty address space. *)
Lemma demo_process : ∃ s root tf l, kinv (L := small) s l ∧ (15 ≤ length l)%nat ∧ live_space s root tf [] ∧ valid_page tf ∧ 0 < rc s tf ∧ ¬ pt_node s root tf.
Proof.
  destruct small_boot_inv as [_ K0]. assert (Hlen : length boot_pages = 24%nat) by (vm_compute; reflexivity).
  destruct boot_pages as [|tf l0]; [done|].
  destruct (wp_elim _ _ _ (kalloc_wp small_boot (tf :: l0) K0)) as (q & s1 & _ & H1). simpl in H1. destruct H1 as (-> & K1 & Hr & _ & _).
  assert (Hv : valid_page tf) by (apply (ki_valid _ _ _ K0); by left). destruct (valid_page_bounds tf Hv) as [Hb _].
  destruct (wp_elim _ _ _ (proc_pagetable_wp s1 l0 tf K1 ltac:(lia) ltac:(unfold PGSIZE; lia))) as (root & s2 & _ & [(_ & _ & Hf)|(_ & B & l & K2 & Hl)]); [simpl in Hlen; lia|].
  destruct (tk_keep _ _ _ _ (bt_taken _ _ _ _ _ B) tf Hv ltac:(lia)) as [Er _].
  exists s2, root, tf, l. split; [done|]. split; [simpl in Hlen; lia|]. split; [apply (built_live _ _ _ _ _ B); lia|]. split; [done|]. split; [lia|].
  intros Hn. pose proof (tk_node _ _ _ _ (bt_taken _ _ _ _ _ B) tf Hn). lia.
Qed.

Definition exec_kern (s : kstate) (root tf : Z) : kern lstate :=
  Kern (FState (LState (boot_cache (tree_disk demo_elf)) demo_log) demo_sb (replicate 3 inode0) s 0 0 0)
    [set_trapframe tf (set_pagetable root (set_state RUNNING proc_zero))] [] (λ _, Pipe (λ _, 0) 0 0 0 0)
    (Console (λ _, 0) 0 0 0) (Uart (λ _, 0) 0 0 4 [] []) 2 3 (Some 0%nat) 0.

Lemma demo_elf_nodes :
  dnode 1 demo_sb (tree_disk demo_elf) 1 = one_block 1 T_DIR 16 35 ∧ dnode 1 demo_sb (tree_disk demo_elf) 2 = one_block 2 T_FILE 124 36 ∧
  dirents (tree_disk demo_elf) (one_block 1 T_DIR 16 35) = [new_entry 2 [97]] ∧
  resolve 1 demo_sb (tree_disk demo_elf) false 1 (take 14 <$> elements [47; 97]) = Some 2 ∧
  file_bytes (tree_disk demo_elf) (one_block 2 T_FILE 124 36) = demo_elf ∧
  im_sz <$> program_image demo_elf = Some 8 ∧ is_Some (layout 8192 [[97]]).
Proof. split_and!; [vm_compute; reflexivity..|]. vm_compute. by eexists. Qed.

Lemma exec_kern_ready s root tf : exec_ready 1 rootdev (exec_kern s root tf) (boot_cache (tree_disk demo_elf)) demo_log boot_lru tree_inum.
Proof.
  destruct demo_elf_nodes as (E1 & E2 & ED & _). set (k := exec_kern s root tf).
  set (f := set_blocks (opened (boot_cache (tree_disk demo_elf)) demo_log) (fs_for (pat k (cur k)) (fs k))).
  assert (EV : @bview lstate _ 1 (exec_laws 1 rootdev) (blocks f) = tree_disk demo_elf) by (apply tree_view). assert (ES : sb f = demo_sb) by done.
  split; [reflexivity | apply tree_idle | done | | | |].
  - intros j x Hx. apply lookup_replicate_1 in Hx as [-> _]. split; [simpl; lia|]. split; [by rewrite decide_False|]. intros Hr. simpl in Hr. lia.
  - intros n [->| ->]; fold f; rewrite EV, ES.
    + rewrite E1, ED. split; [discriminate|]. split; [discriminate|]. intros _. split.
      * split; [apply (one_block_file demo_elf); simpl; unfold T_DIR; lia | reflexivity | simpl; lia | reflexivity].
      * intros e ->%list_elem_of_singleton _. right. vm_compute. reflexivity.
    + rewrite E2. split; [discriminate|]. split; [discriminate|]. intros HD. discriminate HD.
  - exists 0%nat, 1%nat, inode0, inode0. split_and!; done.
  - intros m [->| ->]; fold f; rewrite EV, ES; rewrite ?E1, ?E2; apply (one_block_file demo_elf); simpl; unfold T_DIR, T_FILE; lia.
Qed.

(** The process of [demo_process] is fit for [exec]. *)
Lemma exec_kern_process s root tf l : kinv (L := small) s l → live_space s root tf [] → valid_page tf → 0 < rc s tf → ¬ pt_node s root tf →
  exec_process (exec_kern s root tf) l [].
Proof. intros K Hls Hv Hr Hn. split; simpl; done || (unfold PGSIZE; lia). Qed.

Lemma exec_kern_starts s root tf : starts 1 (set_blocks (opened (boot_cache (tree_disk demo_elf)) demo_log) (fs_for (pat (exec_kern s root tf) 0) (fs (exec_kern s root tf)))) tree_inum [47; 97] 1.
Proof. split; [by left|]. vm_compute. split; reflexivity. Qed.

(** What [exec_result] says of this run: there are enough pages, so it succeeds. *)
Lemma demo_exec_result s root tf l r k' : (15 ≤ length l)%nat →
  let k := exec_kern s root tf in
  let f := set_blocks (opened (boot_cache (tree_disk demo_elf)) demo_log) (fs_for (pat k (cur k)) (fs k)) in
  let V := @bview lstate _ 1 (exec_laws 1 rootdev) (blocks f) in
  exec_result (L := small) 1 k (boot_cache (tree_disk demo_elf)) demo_log l [47; 97] [[97]] []
    ((λ m, file_bytes V (dnode 1 (sb f) V m)) <$> resolve 1 (sb f) V false 1 (take 14 <$> elements [47; 97])) r k' → r = 1.
Proof.
  intros Hl k f V [_ H]. destruct demo_elf_nodes as (_ & E2 & _ & ER & EF & EI & [[sp addrs] EL]).
  change V with (bview (tree_blocks demo_elf)) in H. rewrite tree_view in H. change (sb f) with demo_sb in H. rewrite ER in H.
  cbn [fmap option_fmap option_map] in H. rewrite E2, EF in H. cbn [mbind option_bind] in H.
  destruct (program_image demo_elf) as [im|]; [|discriminate EI]. injection EI as Ez. cbn [mbind option_bind] in H. rewrite Ez in H.
  change ((pages 8 + 1) * PGSIZE) with 8192 in H. rewrite EL in H. destruct H as [[_ [H|H]]|H]; [discriminate H | change (pages 8) with 1 in H; lia|].
  by destruct H as (-> & _).
Qed.

(** Running "/a" with itself as the only argument. *)
Lemma exec_correct_witness : ∃ s root tf k', exec (L := small) [47; 97] [[97]] (exec_kern s root tf) = Ret (1, k').
Proof.
  destruct demo_process as (s & root & tf & l & K & Hl & Hls & Hv & Hr & Hn). exists s, root, tf.
  destruct (exec_correct (L := small) 1 rootdev _ _ _ _ tree_inum l [] [47; 97] [[97]] 1 (exec_kern_ready s root tf)
    (exec_kern_process s root tf l K Hls Hv Hr Hn) (exec_kern_starts s root tf)) as (r & k' & E & H).
  - repeat constructor; lia.
  - repeat constructor; simpl; unfold PGSIZE; lia.
  - simpl. unfold MAXARG. lia.
  - exists k'. apply demo_exec_result in H as ->; [exact E | exact Hl].
Defined.

Lemma exec_started_witness : ∃ s root tf k' im sp, exec (L := small) [47; 97] [[97]] (exec_kern s root tf) = Ret (1, k') ∧
  sees (kmem k') (p_pagetable (pat k' 0)) im sp [[97]].
Proof.
  destruct demo_process as (s & root & tf & l & K & Hl & Hls & Hv & Hr & Hn). exists s, root, tf.
  assert (Hp : path_bytes [47; 97]) by (repeat constructor; lia).
  assert (Ha : Forall (λ a : list Z, Z.of_nat (length a) < PGSIZE) [[97]]) by (repeat constructor; simpl; unfold PGSIZE; lia).
  assert (Hc : Z.of_nat (length [[97]]) < MAXARG) by (simpl; unfold MAXARG; lia).
  destruct (wp_elim _ _ _ (exec_wp (L := small) 1 rootdev _ _ _ _ tree_inum l [] [47; 97] [[97]] 1 (exec_kern_ready s root tf)
    (exec_kern_process s root tf l K Hls Hv Hr Hn) (exec_kern_starts s root tf) Hp Ha Hc)) as (r & k' & E & H).
  apply demo_exec_result in H as ->; [|exact Hl]. exists k'.
  destruct (exec_started (L := small) 1 rootdev _ _ _ _ tree_inum l [] [47; 97] [[97]] 1 1 k' (exec_kern_ready s root tf)
    (exec_kern_process s root tf l K Hls Hv Hr Hn) (exec_kern_starts s root tf) Hp Ha Hc) as (m & im & sp & _ & _ & _ & _ & _ & H & _);
    [simpl; lia | exact E | discriminate|].
  exists im, sp. split; [exact E | exact H].
Defined.
