(* ===== verification/Syscall.v ===== *)
(** * The system call table (kernel/syscall.c) *)

From stdpp Require Import base numbers list strings.
From S2P Require Import Prelude Str Layout Kalloc Vm ProcState Sched Pipe Bio Block Fs Dir Printf Console Kern File Proc.
From S2P Require Import Sysproc Sysfile Exec.
Local Open Scope Z_scope.

Definition syscallnames : list string :=
  ["fork"; "exit"; "wait"; "pipe"; "read"; "kill"; "exec"; "fstat"; "chdir"; "dup"; "getpid"; "sbrk"; "sleep";
   "uptime"; "open"; "write"; "mknod"; "unlink"; "link"; "mkdir"; "close"; "trace"; "settickets"; "setpriority";
   "sigalarm"; "sigreturn"; "waitx"]%string.

Definition totalArgs : list Z :=
  [0; 1; 1; 0; 3; 2; 2; 1; 1; 1; 0; 1; 1; 0; 2; 3; 3; 1; 2; 1; 1; 1; 1; 2; 2; 0; 3].

(** What the compiled program has in memory that the code reads although it is not
    there: the words around [totalArgs], the padding of [struct stat] and the
    variables of [sys_waitx] on the stack. *)
Record environment : Type := Env {
  env_args : Z → Z;
  env_pad : list Z;
  env_times : Z * Z;
}.

Definition total_args (env : environment) (num : Z) : Z :=
  if num <? 1 then env_args env (num - 1)
  else default (env_args env (num - 1)) (totalArgs !! Z.to_nat (num - 1)).

Section Syscall.
Context {S : Type} `{BO : BlockOps S} `{L : Linker} `{Y : Symbols} (pol : policy) (env : environment).

(** [syscalls[num]]; numbers 1 to 27 are taken. *)
Definition syscalls (num : Z) : option (M (kern S) (option Z)) :=
  if num <? 1 then None
  else [sys_fork; sys_exit; sys_wait; sys_pipe; sys_read; sys_kill; sys_exec; sys_fstat (env_pad env); sys_chdir;
        sys_dup; sys_getpid; sys_sbrk; sys_sleep; sys_uptime; sys_open; sys_write; sys_mknod; sys_unlink; sys_link;
        sys_mkdir; sys_close; sys_trace; sys_settickets; sys_set_priority pol; sys_sigalarm; sys_sigreturn;
        sys_waitx (env_times env)] !! Z.to_nat (num - 1).

(** The loop that fetches the arguments into [args[3]]: beyond the third it writes
    over the stack. *)
Fixpoint fetch_args (n : nat) (i : Z) : M (kern S) (list Z) :=
  match n with
  | O => mret []
  | Datatypes.S n' =>
      a ← argint i;
      if 3 <=? i then panic "args"
      else l ← fetch_args n' (i + 1); mret (a :: l)
  end.

(** The arguments as [strace] prints them. *)
Fixpoint print_args (args : list Z) : list Z :=
  match args with
  | [] => []
  | [a] => printint a 10 true
  | a :: args' => printint a 10 true ++ chars " " ++ print_args args'
  end.

Definition trace_line (pid : Z) (name : string) (args : list Z) (ret : Z) : list Z :=
  printint pid 10 true ++ chars ": syscall " ++ chars name ++ chars " (" ++ print_args args ++ chars ") -> " ++
  printint (i32 ret) 10 true ++ [newline].

(** The result tells whether the process returns from the call. *)
Definition syscall : M (kern S) bool :=
  p ← myproc;
  a7 ← tf_get p tf_a7;
  let num := i32 a7 in
  args ← fetch_args (Z.to_nat (total_args env num)) 0;
  match syscalls num with
  | Some f =>
      r ← f;
      match r with
      | None => mret false
      | Some v =>
          p ← myproc;
          tf_set p tf_a0 v;;
          when (nonzero (Z.land (i32 (Z.shiftl 1 num)) (p_trace p)))
            (kprintf (trace_line (p_pid p) (default ""%string (syscallnames !! Z.to_nat (num - 1))) args v));;
          mret true
      end
  | None =>
      kprintf (printint (p_pid p) 10 true ++ chars " " ++ cstring (p_name p) ++ chars ": unknown sys call " ++
        printint num 10 true ++ [newline]);;
      tf_set p tf_a0 fails;;
      mret true
  end.
End Syscall.
