(* ===== verification/Trap.v ===== *)
(** * Traps (kernel/trap.c, forkret of kernel/proc.c)

    From a trap of a process to the return to user space.  The control registers
    of the hart are part of the state; which interrupt the PLIC reports is given
    with the trap.  The disk answers at once in this model, so its interrupt does
    nothing. *)

From stdpp Require Import base numbers list strings.
From S2P Require Import Prelude Str Layout Kalloc Vm ProcState Sched Pipe Bio Block Fs Dir Printf Console Kern File Proc.
From S2P Require Import Sysproc Sysfile Exec Syscall.
Local Open Scope Z_scope.

Definition SSTATUS_SPP : Z := Z.shiftl 1 8.
Definition SSTATUS_SPIE : Z := Z.shiftl 1 5.
Definition SATP_SV39 : Z := Z.shiftl 8 60.
Definition MAKE_SATP (pagetable : Z) : Z := Z.lor SATP_SV39 (Z.shiftr pagetable 12).
Definition UART0_IRQ : Z := 10.
Definition VIRTIO0_IRQ : Z := 1.

(** The registers of a hart, and the interrupt the PLIC has for it. *)
Record hart : Type := Hart {
  r_sstatus : Z;
  r_sepc : Z;
  r_scause : Z;
  r_stval : Z;
  r_stvec : Z;
  r_satp : Z;
  r_tp : Z;
  r_sip : Z;
  r_intr : bool;
  plic : Z;
}.

Definition w_sstatus (v : Z) (h : hart) : hart :=
  Hart v (r_sepc h) (r_scause h) (r_stval h) (r_stvec h) (r_satp h) (r_tp h) (r_sip h) (r_intr h) (plic h).
Definition w_sepc (v : Z) (h : hart) : hart :=
  Hart (r_sstatus h) v (r_scause h) (r_stval h) (r_stvec h) (r_satp h) (r_tp h) (r_sip h) (r_intr h) (plic h).
Definition w_stvec (v : Z) (h : hart) : hart :=
  Hart (r_sstatus h) (r_sepc h) (r_scause h) (r_stval h) v (r_satp h) (r_tp h) (r_sip h) (r_intr h) (plic h).
Definition w_sip (v : Z) (h : hart) : hart :=
  Hart (r_sstatus h) (r_sepc h) (r_scause h) (r_stval h) (r_stvec h) (r_satp h) (r_tp h) v (r_intr h) (plic h).
Definition w_intr (v : bool) (h : hart) : hart :=
  Hart (r_sstatus h) (r_sepc h) (r_scause h) (r_stval h) (r_stvec h) (r_satp h) (r_tp h) (r_sip h) v (plic h).
Definition w_plic (v : Z) (h : hart) : hart :=
  Hart (r_sstatus h) (r_sepc h) (r_scause h) (r_stval h) (r_stvec h) (r_satp h) (r_tp h) (r_sip h) (r_intr h) v.

Record tstate (S : Type) : Type := TState { tk : kern S; th : hart }.
Arguments TState {S}. Arguments tk {S}. Arguments th {S}.

Section Trap.
Context {S : Type} `{BO : BlockOps S} `{L : Linker} `{Y : Symbols} (pol : policy) (env : environment).

Definition set_tk (k : kern S) (t : tstate S) : tstate S := TState k (th t).
Definition onk {A} (m : M (kern S) A) : M (tstate S) A := zoom tk set_tk m.
Definition seth (f : hart → hart) : M (tstate S) unit := modify (λ t, TState (tk t) (f (th t))).
Definition reg {A} (f : hart → A) : M (tstate S) A := gets (λ t, f (th t)).

(** ** Interrupts *)

Definition clockintr : M (kern S) unit :=
  modify (λ k, set_ticks (u32 (ticks k + 1)) k);;
  modify (set_kprocs update_time);;
  kwakeup ChanTicks.

Definition devintr : M (tstate S) Z :=
  scause ← reg r_scause;
  if nonzero (Z.land scause 0x8000000000000000) && (Z.land scause 0xff =? 9) then
    irq ← reg plic;
    (if irq =? UART0_IRQ then onk (ontty (uartintr pol))
     else if irq =? VIRTIO0_IRQ then mret tt
     else when (nonzero irq)
       (onk (kprintf (chars "unexpected interrupt irq=" ++ printint irq 10 true ++ [newline]))));;
    when (nonzero irq) (seth (w_plic 0));;
    mret 1
  else if scause =? 0x8000000000000001 then
    tp ← reg r_tp;
    when (tp =? 0) (onk clockintr);;
    sip ← reg r_sip;
    seth (w_sip (Z.land sip (Z.lnot 2)));;
    mret 2
  else mret 0.

(** ** Page faults on stores *)

(** Copy-on-write; the result is whether the process may go on. *)
Definition cow_fault (stval : Z) : M (kern S) bool :=
  let va := i32 stval in
  p ← myproc;
  if MAXVA <=? va then mret false
  else if va =? 0 then mret false
  else
    pte ← onmem (walk (p_pagetable p) (u64 va) false);
    if pte =? 0 then mret false
    else
      w ← onmem (loadM pte);
      if negb (nonzero (Z.land w PTE_W)) && negb (nonzero (Z.land w PTE_COW)) then mret false
      else if nonzero (Z.land w PTE_W) || negb (nonzero (Z.land w PTE_U)) || negb (nonzero (Z.land w PTE_V))
      then mret false
      else
        new ← onmem kalloc;
        if new =? 0 then mret false
        else
          onmem (memmoveM new (PTE2PA w) PGSIZE);;
          let old := PTE2PA w in
          onmem (storeM pte (Z.lor (Z.lor (Z.lor (Z.lor (Z.lor (PA2PTE new) PTE_V) PTE_R) PTE_W) PTE_U) PTE_X));;
          w' ← onmem (loadM pte);
          onmem (storeM pte (Z.land w' (Z.lnot PTE_COW)));;
          onmem (kfree old);;
          mret true.

(** ** Alarms *)

Definition alarm_due (p : proc) : bool :=
  nonzero (p_alarmFreq p) && (p_alarmRunning p =? 0) && (p_alarmFreq p <=? i32 (p_timeRun p - p_lastAlarm p)).

(** The trap frame is saved and the handler set as the place to return to; without
    a page to save it the store to address 0 faults in the kernel. *)
Definition alarm : M (kern S) unit :=
  p ← myproc;
  when (alarm_due p)
    (setmy (set_alarmRunning 1);;
     b ← onmem kalloc;
     setmy (set_backupTrapFrame b);;
     if b =? 0 then panic "kerneltrap: Unknown interrupt"
     else
       onmem (memmoveM b (p_trapframe p) sizeof_trapframe);;
       setmy (λ p, set_lastAlarm (p_timeRun p) p);;
       tf_set p tf_epc (p_alarmHandler p)).

(** ** From and to user space *)

Definition usertrapret : M (tstate S) Z :=
  p ← onk myproc;
  seth (w_intr false);;
  seth (w_stvec (TRAMPOLINE + (sym_uservec - lk_trampoline)));;
  satp ← reg r_satp;
  onk (tf_set p tf_kernel_satp satp);;
  onk (tf_set p tf_kernel_sp (u64 (p_kstack p + PGSIZE)));;
  onk (tf_set p tf_kernel_trap sym_usertrap);;
  tp ← reg r_tp;
  onk (tf_set p tf_kernel_hartid tp);;
  x ← reg r_sstatus;
  seth (w_sstatus (Z.lor (Z.land x (Z.lnot SSTATUS_SPP)) SSTATUS_SPIE));;
  epc ← onk (tf_get p tf_epc);
  seth (w_sepc epc);;
  mret (MAKE_SATP (p_pagetable p)).

Definition preempts : bool := match pol with FCFS | PBS => false | _ => true end.

(** The second half of [usertrap]; nothing is returned when the process exits. *)
Definition usertrap_end (which_dev : Z) : M (tstate S) (option Z) :=
  p ← onk myproc;
  if nonzero (killed p) then onk (exit (-1));; mret None
  else
    when (which_dev =? 2) (onk alarm;; when preempts (onk (kyield pol)));;
    r ← usertrapret;
    mret (Some r).

Definition usertrap : M (tstate S) (option Z) :=
  sstatus ← reg r_sstatus;
  if nonzero (Z.land sstatus SSTATUS_SPP) then panic "usertrap: not from user mode"
  else
    seth (w_stvec sym_kernelvec);;
    p ← onk myproc;
    sepc ← reg r_sepc;
    onk (tf_set p tf_epc sepc);;
    scause ← reg r_scause;
    if scause =? 8 then
      if nonzero (killed p) then onk (exit (-1));; mret None
      else
        onk (tf_set p tf_epc (u64 (sepc + 4)));;
        seth (w_intr true);;
        r ← onk (syscall pol env);
        if (r : bool) then usertrap_end 0 else mret None
    else if scause =? 15 then
      stval ← reg r_stval;
      ok ← onk (cow_fault stval);
      if (ok : bool) then usertrap_end 0
      else onk (setmy setkilled);; onk (exit (-1));; mret None
    else
      d ← devintr;
      when (d =? 0)
        (stval ← reg r_stval;
         onk (kprintf (chars "usertrap(): unexpected scause " ++ printptr scause ++ chars " pid=" ++
           printint (p_pid p) 10 true ++ [newline]));;
         onk (kprintf (chars "            sepc=" ++ printptr sepc ++ chars " stval=" ++ printptr stval ++ [newline]));;
         onk (setmy setkilled));;
      usertrap_end d.

(** A trap taken in the kernel. *)
Definition kerneltrap : M (tstate S) unit :=
  sepc ← reg r_sepc;
  sstatus ← reg r_sstatus;
  intr ← reg r_intr;
  if Z.land sstatus SSTATUS_SPP =? 0 then panic "kerneltrap: not from supervisor mode"
  else if (intr : bool) then panic "kerneltrap: interrupts enabled"
  else
    d ← devintr;
    if d =? 0 then panic "kerneltrap: Unknown interrupt"
    else
      p ← onk myproc;
      when ((d =? 2) && has_state RUNNING p && preempts) (onk (kyield pol));;
      seth (w_sepc sepc);;
      seth (w_sstatus sstatus).

(** The first return of a process; the very first one starts the file system. *)
Definition forkret (first : bool) : M (tstate S) Z :=
  when first (onk (onfs (fsinit ROOTDEV)));;
  usertrapret.
End Trap.
