(* ===== verification/KernCalm.v ===== *)
(** * Calm operations of the kernel

    Most of what a system call does leaves alone who the processes are, which files
    they have open and how often each file is referred to; it may wake processes.
    Such operations are calm, and are composed of calm operations: among them the
    system calls that read, write, and deal with names, memory, programs, times and
    alarms. *)

From stdpp Require Import base numbers list strings.
From S2P Require Import Prelude Str Layout Kalloc Vm ProcState Sched Pipe Bio Block Fs Dir Printf Console Kern File Proc.
From S2P Require Import Sysproc Sysfile Exec Syscall Trap.
Local Open Scope Z_scope.

Create HintDb calm.

(** A process that takes part: its creation is complete and it has not exited. *)
Definition alive (st : procstate) : Prop := st = SLEEPING ∨ st = RUNNABLE ∨ st = RUNNING.

(** The same process, perhaps woken. *)
Record same_proc (p q : proc) : Prop := SameProc {
  sp_pid : p_pid q = p_pid p;
  sp_parent : p_parent q = p_parent p;
  sp_ofile : p_ofile q = p_ofile p;
  sp_state : p_state q = p_state p ∨ alive (p_state p) ∧ alive (p_state q);
}.

Lemma same_proc_refl p : same_proc p p.
Proof. split; auto. Qed.

Lemma same_proc_trans p q r : same_proc p q → same_proc q r → same_proc p r.
Proof.
  intros [A1 A2 A3 A4] [B1 B2 B3 B4]. split; [congruence..|].
  destruct A4 as [E|[A4 A5]], B4 as [E'|[B4 B5]].
  - left. congruence.
  - right. by rewrite <- E.
  - right. by rewrite E'.
  - by right.
Qed.

(** Tables of the same processes. *)
Definition same_procs (t t' : list proc) : Prop := Forall2 same_proc t t'.

Lemma same_procs_refl t : same_procs t t.
Proof. apply Forall_Forall2_diag, Forall_true. apply same_proc_refl. Qed.

Lemma same_procs_trans t t' t'' : same_procs t t' → same_procs t' t'' → same_procs t t''.
Proof.
  intros H1. revert t''. induction H1 as [|p q t t' Hpq H1 IH]; intros t'' H2; inversion H2; constructor; [|by apply IH].
  by eapply same_proc_trans.
Qed.

Lemma same_procs_fmap f t : (∀ p, same_proc p (f p)) → same_procs t (f <$> t).
Proof. intros H. induction t as [|p t IH]; [constructor|]. constructor; [apply H | exact IH]. Qed.

Lemma same_procs_imap f t : (∀ i p, same_proc p (f i p)) → same_procs t (imap f t).
Proof.
  revert f. induction t as [|p t IH]; intros f H; [constructor|]. rewrite imap_cons. constructor; [apply H|]. apply IH. intros. apply H.
Qed.

Lemma same_procs_alter f i t : (∀ p, same_proc p (f p)) → same_procs t (alter f i t).
Proof.
  intros H. revert i. induction t as [|p t IH]; intros i; [constructor|]. destruct i as [|i]; constructor.
  - apply H.
  - apply same_procs_refl.
  - apply same_proc_refl.
  - apply IH.
Qed.

(** ** Waking, killing and counting *)

Lemma update_niceness_same p : same_proc p (update_niceness p).
Proof. unfold update_niceness. destruct (nonzero _); split; auto. Qed.

Lemma wakeup1_same c tk p : same_proc p (wakeup1 c tk p).
Proof.
  unfold wakeup1. destruct (has_state SLEEPING p && _) eqn:E; [|apply same_proc_refl].
  apply andb_true_iff in E as [E _]. apply has_state_true in E.
  assert (A : alive (p_state p) ∧ alive RUNNABLE) by (rewrite E; unfold alive; auto).
  unfold update_niceness. destruct (nonzero _); split; simpl; auto.
Qed.

Lemma wakeup_same k c tk t : same_procs t (wakeup k c tk t).
Proof. apply same_procs_imap. intros i p. destruct (bool_decide _); [apply same_proc_refl | apply wakeup1_same]. Qed.

Lemma kill1_same p : same_proc p (kill1 p).
Proof.
  unfold kill1. destruct (has_state SLEEPING (set_killed 1 p)) eqn:E; [|split; auto].
  apply has_state_true in E. simpl in E. split; simpl; auto. right. rewrite E. unfold alive. auto.
Qed.

Lemma kill_same pid t : same_procs t (kill pid t).2.
Proof.
  induction t as [|p t IH]; [constructor|]. cbn [kill]. destruct (p_pid p =? pid).
  - constructor; [apply kill1_same | apply same_procs_refl].
  - destruct (kill pid t) as [r t']. constructor; [apply same_proc_refl | exact IH].
Qed.

Lemma update_time_same t : same_procs t (update_time t).
Proof. apply same_procs_fmap. intros p. destruct (has_state RUNNING p); split; auto. Qed.

(** A process that yields and is dispatched again. *)
Lemma yield_same pol tk p : alive (p_state p) → same_proc p (dispatch pol tk (yield1 tk p)).
Proof.
  intros A. assert (A' : alive RUNNING) by (unfold alive; auto).
  assert (D : ∀ q, same_proc p q → same_proc p (dispatch pol tk q)).
  { intros q [H1 H2 H3 _]. unfold dispatch. destruct pol; [| | | |destruct (_ =? 4)]; split; simpl; auto. }
  apply D. unfold yield1. eapply same_proc_trans; [|apply update_niceness_same]. split; simpl; auto.
  right. split; [done|]. unfold alive. auto.
Qed.

(** ** The console *)

Section Tty.
Context `{L : Linker}.

(** A routine of the console leaves the processes as they are, or wakes them. *)
Definition tcalm {A} (m : M tty A) : Prop := ∀ t, pwp m t (λ _ t', same_procs (t_procs t) (t_procs t')).

Lemma tcalm_ret {A} (a : A) : tcalm (mret a).
Proof. intros t. apply same_procs_refl. Qed.

Lemma tcalm_gets {A} (f : tty → A) : tcalm (gets f).
Proof. intros t. apply same_procs_refl. Qed.

Lemma tcalm_bind {A B} (m : M tty A) (f : A → M tty B) : tcalm m → (∀ a, tcalm (f a)) → tcalm (m ≫= f).
Proof.
  intros Hm Hf t. apply pwp_bind. eapply pwp_mono; [apply Hm|]. intros a t1 H1. cbv beta.
  eapply pwp_mono; [apply Hf|]. intros b t2 H2. exact (same_procs_trans _ _ _ H1 H2).
Qed.

Lemma tcalm_modify f : (∀ t, t_procs (f t) = t_procs t) → tcalm (modify f).
Proof. intros H t. unfold pwp, modify. rewrite H. apply same_procs_refl. Qed.

Lemma tcalm_zoom {A} (m : M kstate A) : tcalm (zoom t_mem set_tmem m).
Proof. intros t. apply pwp_zoom, pwp_any. intros. apply same_procs_refl. Qed.

Lemma tcalm_panic {A} e : tcalm (A := A) (panic e).
Proof. by intros t. Qed.

Lemma tcalm_block {A} c : tcalm (A := A) (block c).
Proof. by intros t. Qed.

Lemma tcalm_diverge {A} : tcalm (A := A) diverge.
Proof. by intros t. Qed.

Lemma tcalm_wakeup c : tcalm (twakeup c).
Proof. intros t. apply wakeup_same. Qed.
End Tty.

#[export] Hint Resolve tcalm_panic tcalm_block tcalm_diverge tcalm_ret tcalm_gets tcalm_wakeup tcalm_zoom : calm.

(** Take a routine apart into calm pieces. *)
Ltac tcalm_auto :=
  repeat first
    [ solve [auto 1 with calm nocore]
    | apply tcalm_modify; reflexivity
    | apply tcalm_bind; [|intros ?]
    | progress unfold when
    | match goal with |- tcalm (match ?x with _ => _ end) => destruct x end ].

Section TtyRoutines.
Context `{L : Linker}.

Lemma uartstart_loop_calm n : tcalm (uartstart_loop n).
Proof. induction n; simpl; tcalm_auto. Qed.

Lemma conswrite_calm l : tcalm (conswrite l).
Proof. induction l; simpl; unfold consputc, uartputc_sync; tcalm_auto. Qed.

Lemma kill_line_calm n : tcalm (kill_line n).
Proof. induction n; simpl; unfold consputc, uartputc_sync; tcalm_auto. Qed.
#[local] Hint Resolve uartstart_loop_calm conswrite_calm kill_line_calm : calm.

Lemma uartputc_calm c : tcalm (uartputc c).
Proof. unfold uartputc, uartstart. tcalm_auto. Qed.

Lemma consoleintr_calm pol c : tcalm (consoleintr pol c).
Proof. unfold consoleintr, consputc, uartputc_sync. tcalm_auto. Qed.
#[local] Hint Resolve uartputc_calm consoleintr_calm : calm.

Lemma uartintr_calm pol : tcalm (uartintr pol).
Proof.
  unfold uartintr, uartstart. apply tcalm_bind; [tcalm_auto|]. intros u. apply tcalm_bind; [|intros; tcalm_auto].
  generalize (length (u_rx u)). intros n. induction n; simpl; unfold uartgetc; tcalm_auto.
Qed.

Lemma consolewrite_calm src n : tcalm (consolewrite src n).
Proof.
  unfold consolewrite. generalize (Z.to_nat n) 0. intros m. induction m; intros i; simpl; tcalm_auto.
Qed.

Lemma consoleread_loop_calm m target dst n : tcalm (consoleread_loop m target dst n).
Proof. revert dst n. induction m; intros dst n; simpl; tcalm_auto. Qed.
#[local] Hint Resolve consoleread_loop_calm : calm.

Lemma consoleread_calm dst n : tcalm (consoleread dst n).
Proof. unfold consoleread. tcalm_auto. Qed.
End TtyRoutines.

#[export] Hint Resolve conswrite_calm uartintr_calm consolewrite_calm consoleread_calm : calm.

(** ** The kernel *)

Section Calm.
Context {S : Type} `{BO : BlockOps S} `{L : Linker} `{Y : Symbols}.

(** The same processes, the same counts, the same [myproc()]. *)
Record quietly (k k' : kern S) : Prop := Quietly {
  qk_procs : same_procs (procs k) (procs k');
  qk_refs : f_ref <$> files k' = f_ref <$> files k;
  qk_next : nextpid k' = nextpid k;
  qk_init : initproc k' = initproc k;
  qk_cur : cur k' = cur k;
}.

Lemma quietly_refl k : quietly k k.
Proof. split; simpl; try reflexivity. apply same_procs_refl. Qed.

Lemma quietly_trans k1 k2 k3 : quietly k1 k2 → quietly k2 k3 → quietly k1 k3.
Proof.
  intros [A1 A2 A3 A4 A5] [B1 B2 B3 B4 B5]. split; [|congruence..]. exact (same_procs_trans _ _ _ A1 B1).
Qed.

(** [myproc()] takes part. *)
Definition cur_alive (k : kern S) : Prop := ∃ p, procs k !! cur k = Some p ∧ alive (p_state p).

Lemma same_alive p q : same_proc p q → alive (p_state p) → alive (p_state q).
Proof. intros [_ _ _ [->|[_ H]]]; auto. Qed.

Lemma quietly_alive k k' : quietly k k' → cur_alive k → cur_alive k'.
Proof.
  intros Q (p & Hp & A). destruct (Forall2_lookup_l _ _ _ _ _ (qk_procs _ _ Q) Hp) as (q & Hq & E).
  exists q. rewrite (qk_cur _ _ Q). split; [done|]. exact (same_alive _ _ E A).
Qed.

(** Code run for a process that takes part. *)
Definition calm {A} (m : M (kern S) A) : Prop := ∀ k, cur_alive k → pwp m k (λ _ k', quietly k k').

Lemma pwp_calm {A} (m : M (kern S) A) k (Q : A → kern S → Prop) :
  calm m → cur_alive k → (∀ a k', quietly k k' → Q a k') → pwp m k Q.
Proof. intros Hm Ha HQ. eapply pwp_mono; [by apply Hm|]. exact HQ. Qed.

Lemma calm_ret {A} (a : A) : calm (mret a).
Proof. intros k _. apply quietly_refl. Qed.

Lemma calm_gets {A} (f : kern S → A) : calm (gets f).
Proof. intros k _. apply quietly_refl. Qed.

Lemma calm_myproc : calm myproc.
Proof. intros k _. apply quietly_refl. Qed.

Lemma calm_bind {A B} (m : M (kern S) A) (f : A → M (kern S) B) : calm m → (∀ a, calm (f a)) → calm (m ≫= f).
Proof.
  intros Hm Hf k A0. apply pwp_bind. eapply pwp_mono; [by apply Hm|]. intros a k1 H1. cbv beta.
  eapply pwp_mono; [by apply Hf, (quietly_alive k)|]. intros b k2 H2. exact (quietly_trans _ _ _ H1 H2).
Qed.

Lemma calm_panic {A} e : calm (A := A) (panic e).
Proof. by intros k _. Qed.

Lemma calm_block {A} c : calm (A := A) (block c).
Proof. by intros k _. Qed.

Lemma calm_diverge {A} : calm (A := A) diverge.
Proof. by intros k _. Qed.

Lemma calm_modify f : (∀ k, cur_alive k → quietly k (f k)) → calm (modify f).
Proof. intros H k A. by apply H. Qed.

Lemma calm_onfs {A} (m : M (fstate S) A) : calm (onfs m).
Proof. intros k _. apply pwp_zoom, pwp_any. intros a s. split; simpl; try reflexivity. apply same_procs_refl. Qed.

Lemma calm_onmem {A} (m : M kstate A) : calm (onmem m).
Proof. intros k _. apply pwp_zoom, pwp_any. intros a s. split; simpl; try reflexivity. apply same_procs_refl. Qed.

Lemma quietly_procs k f : (∀ t, same_procs t (f t)) → quietly k (set_kprocs f k).
Proof. intros H. split; [apply H|reflexivity..]. Qed.

Lemma calm_onpipe {A} a (m : M pstate A) : calm (onpipe a m).
Proof.
  intros k _. apply pwp_zoom, pwp_any. intros x s. unfold put_pipe.
  assert (W : ∀ b c k', quietly k k' → quietly k (wake_if b c k')).
  { intros b c k' H. unfold wake_if. destruct b; [|done].
    eapply quietly_trans; [exact H|]. apply quietly_procs. intros. apply wakeup_same. }
  apply W, W. split; simpl; try reflexivity. apply same_procs_refl.
Qed.

Lemma calm_ontty {A} (m : M tty A) : tcalm m → calm (ontty m).
Proof.
  intros H k _. apply pwp_zoom. eapply pwp_mono; [apply H|]. intros a t Ht. by split.
Qed.

(** The same without a process to run for. *)
Lemma pwp_onmem {A} (m : M kstate A) k (Q : A → kern S → Prop) :
  (∀ a k', quietly k k' → Q a k') → pwp (onmem m) k Q.
Proof.
  intros H. apply pwp_zoom, pwp_any. intros a s. apply H. split; simpl; try reflexivity. apply same_procs_refl.
Qed.

Lemma pwp_onfs {A} (m : M (fstate S) A) k (Q : A → kern S → Prop) :
  (∀ a k', quietly k k' → Q a k') → pwp (onfs m) k Q.
Proof.
  intros H. apply pwp_zoom, pwp_any. intros a s. apply H. split; simpl; try reflexivity. apply same_procs_refl.
Qed.

Lemma pwp_setp i f k (Q : unit → kern S → Prop) :
  (∀ p, same_proc p (f p)) → (∀ k', quietly k k' → Q tt k') → pwp (setp i f) k Q.
Proof. intros Hf H. apply pwp_modify, H, quietly_procs. intros t. by apply same_procs_alter. Qed.

Lemma calm_kprintf l : calm (kprintf l).
Proof. apply calm_ontty, conswrite_calm. Qed.

Lemma calm_kwakeup c : calm (kwakeup c).
Proof. apply calm_modify. intros k _. apply quietly_procs. intros. apply wakeup_same. Qed.

Lemma calm_setp i f : (∀ p, same_proc p (f p)) → calm (setp i f).
Proof. intros H. apply calm_modify. intros k _. apply quietly_procs. intros. by apply same_procs_alter. Qed.

Lemma calm_setmy f : (∀ p, same_proc p (f p)) → calm (setmy f).
Proof. intros H. apply calm_bind; [apply calm_gets|]. intros i. by apply calm_setp. Qed.

Lemma calm_setf i f : (∀ x, f_ref (f x) = f_ref x) → calm (setf i f).
Proof.
  intros H. apply calm_modify. intros k _. split; try done; [apply same_procs_refl|]. simpl.
  generalize (files k). intros l. revert i. induction l as [|x l IH]; intros [|i]; try done; simpl; f_equal; auto.
  apply IH.
Qed.
Lemma calm_kyield pol : calm (kyield pol).
Proof.
  intros k (p & Hp & A). split; try done. cbn. apply Forall2_same_length_lookup. split; [by rewrite length_alter|].
  intros i x y Hx. destruct (decide (i = cur k)) as [->|Hi].
  - rewrite list_lookup_alter_eq, Hp. intros [= <-]. rewrite Hp in Hx. injection Hx as <-. by apply yield_same.
  - rewrite list_lookup_alter_ne by done. rewrite Hx. intros [= <-]. apply same_proc_refl.
Qed.
End Calm.

#[export] Hint Resolve calm_panic calm_block calm_diverge calm_kprintf calm_ret calm_gets calm_onfs calm_onmem calm_onpipe calm_kwakeup calm_ontty calm_kyield calm_myproc : calm.

(** An update of a process that keeps what [same_proc] fixes. *)
Ltac same_proc_auto := intros ?; split; simpl; auto.

(** Take kernel code apart into calm pieces. *)
Ltac calm_auto :=
  repeat first
    [ solve [auto 3 with calm nocore]
    | solve [apply calm_setmy; same_proc_auto]
    | solve [apply calm_setp; same_proc_auto]
    | solve [apply calm_setf; reflexivity]
    | apply calm_bind; [|intros ?]
    | progress unfold when
    | match goal with |- calm (match ?x with _ => _ end) => destruct x end ].

Section SyscallCalm.
Context {S : Type} `{BO : BlockOps S} `{L : Linker} `{Y : Symbols} (pol : policy) (env : environment).

(** ** Arguments *)

Lemma calm_tf_get p off : calm (S := S) (tf_get p off).
Proof. apply calm_onmem. Qed.

Lemma calm_tf_set p off v : calm (S := S) (tf_set p off v).
Proof. apply calm_onmem. Qed.
#[local] Hint Resolve calm_tf_get calm_tf_set : calm.

Lemma calm_argraw n : calm (S := S) (argraw n).
Proof. unfold argraw, myproc. calm_auto. Qed.
#[local] Hint Resolve calm_argraw : calm.

Lemma calm_argint n : calm (S := S) (argint n).
Proof. unfold argint. calm_auto. Qed.

Lemma calm_argaddr n : calm (S := S) (argaddr n).
Proof. apply calm_argraw. Qed.

Lemma calm_fetchaddr a : calm (S := S) (fetchaddr a).
Proof. unfold fetchaddr, myproc. calm_auto. Qed.

Lemma calm_fetchstr a n : calm (S := S) (fetchstr a n).
Proof. unfold fetchstr, myproc. calm_auto. Qed.
#[local] Hint Resolve calm_argint calm_argaddr calm_fetchaddr calm_fetchstr : calm.

Lemma calm_argstr n max : calm (S := S) (argstr n max).
Proof. unfold argstr. calm_auto. Qed.

Lemma calm_argfd n : calm (S := S) (argfd n).
Proof. unfold argfd, myproc. calm_auto. Qed.
#[local] Hint Resolve calm_argstr calm_argfd : calm.

(** ** Files *)

Lemma calm_fileread i a n : calm (S := S) (fileread i a n).
Proof. unfold fileread, pipe_result, getf, myproc. calm_auto. Qed.

Lemma calm_filewrite_loop m i a n j : calm (S := S) (filewrite_loop m i a n j).
Proof. revert j. induction m; intros j; simpl; unfold begin, finish, getf; calm_auto. Qed.
#[local] Hint Resolve calm_fileread calm_filewrite_loop : calm.

Lemma calm_filewrite i a n : calm (S := S) (filewrite i a n).
Proof. unfold filewrite, pipe_result, getf, myproc. calm_auto. Qed.

Lemma calm_filestat pad i a : calm (S := S) (filestat pad i a).
Proof. unfold filestat, getf, myproc. calm_auto. Qed.
#[local] Hint Resolve calm_filewrite calm_filestat : calm.

(** ** Programs *)

Lemma calm_loadseg pt va ip off sz : calm (S := S) (loadseg pt va ip off sz).
Proof.
  unfold loadseg. generalize (Z.to_nat (sz / PGSIZE + 1)) 0. intros m. induction m; intros i; simpl; calm_auto.
Qed.
#[local] Hint Resolve calm_loadseg : calm.

Lemma calm_load_loop n pt sz ip off : calm (S := S) (load_loop n pt sz ip off).
Proof. revert sz off. induction n; intros sz off; simpl; unfold load_ph; calm_auto. Qed.

Lemma calm_push_args pt base sp argc argv us : calm (S := S) (push_args pt base sp argc argv us).
Proof. revert sp argc us. induction argv; intros sp argc us; simpl; calm_auto. Qed.
#[local] Hint Resolve calm_load_loop calm_push_args : calm.

Lemma calm_exec_bad pt sz ip : calm (S := S) (exec_bad pt sz ip).
Proof. unfold exec_bad, finish. calm_auto. Qed.
#[local] Hint Resolve calm_exec_bad : calm.

Lemma calm_exec_image path argv elf pt sz : calm (S := S) (exec_image path argv elf pt sz).
Proof. unfold exec_image, myproc. calm_auto. Qed.
#[local] Hint Resolve calm_exec_image : calm.

Lemma calm_exec path argv : calm (S := S) (exec path argv).
Proof. unfold exec, begin, finish, myproc. calm_auto. Qed.

Lemma calm_exec_args n ua i argv : calm (S := S) (exec_args n ua i argv).
Proof. revert i argv. induction n; intros i argv; simpl; calm_auto. Qed.

Lemma calm_free_args l : calm (S := S) (free_args l).
Proof. induction l; simpl; calm_auto. Qed.
#[local] Hint Resolve calm_exec calm_exec_args calm_free_args : calm.

(** ** System calls *)

Lemma calm_growproc n : calm (S := S) (growproc n).
Proof. unfold growproc, myproc. calm_auto. Qed.
#[local] Hint Resolve calm_growproc : calm.

Lemma calm_link_bad ip : calm (S := S) (link_bad ip).
Proof. unfold link_bad, finish. calm_auto. Qed.

Lemma calm_unlink_bad dp : calm (S := S) (unlink_bad dp).
Proof. unfold unlink_bad, finish. calm_auto. Qed.
#[local] Hint Resolve calm_link_bad calm_unlink_bad : calm.

Lemma calm_sys_names :
  calm (S := S) sys_link ∧ calm (S := S) sys_unlink ∧ calm (S := S) sys_mkdir ∧ calm (S := S) sys_mknod ∧
  calm (S := S) sys_chdir.
Proof.
  unfold sys_link, sys_unlink, sys_mkdir, sys_mknod, sys_chdir, begin, finish, myproc.
  split; [calm_auto|]. split; [calm_auto|]. split; [calm_auto|]. split; calm_auto.
Qed.

Lemma calm_sys_rw : calm (S := S) sys_read ∧ calm (S := S) sys_write ∧ (∀ pad, calm (S := S) (sys_fstat pad)) ∧ calm (S := S) sys_exec.
Proof.
  unfold sys_read, sys_write, sys_fstat, sys_exec. split; [calm_auto|]. split; [calm_auto|].
  split; [intros pad; calm_auto | calm_auto].
Qed.

Lemma calm_sys_kill : calm (S := S) sys_kill.
Proof.
  unfold sys_kill. apply calm_bind; [auto with calm|]. intros pid k A. split; try done. apply kill_same.
Qed.

Lemma calm_sys_proc :
  calm (S := S) sys_getpid ∧ calm (S := S) sys_sbrk ∧ calm (S := S) sys_sleep ∧ calm (S := S) sys_uptime ∧
  calm (S := S) sys_trace ∧ calm (S := S) sys_settickets ∧ calm (S := S) (sys_set_priority pol) ∧
  calm (S := S) sys_sigalarm ∧ calm (S := S) sys_sigreturn.
Proof.
  unfold sys_getpid, sys_sbrk, sys_sleep, sys_uptime, sys_trace, sys_settickets, sys_set_priority, sys_sigalarm,
    sys_sigreturn, myproc, getp.
  do 8 (split; [calm_auto|]). calm_auto.
Qed.
End SyscallCalm.

#[export] Hint Resolve calm_tf_get calm_tf_set calm_argraw calm_argint calm_argaddr calm_fetchaddr calm_fetchstr calm_argstr
  calm_argfd calm_fileread calm_filewrite calm_filestat calm_exec calm_exec_args calm_free_args calm_growproc
  calm_link_bad calm_unlink_bad : calm.
