(* ===== verification/KernInv.v ===== *)
(** * The process table and the open files

    The invariant that ties processes, their parents and their descriptors to the
    table of open files, and how the pieces of the system calls change it. *)

From stdpp Require Import base numbers list strings.
From S2P Require Import Prelude Str Layout Kalloc Vm ProcState Sched Pipe Bio Block Fs Dir FsFile Printf Console Kern File Proc.
From S2P Require Import Sysproc Sysfile Exec Syscall Trap KernCalm.
Local Open Scope Z_scope.

(** ** Counting *)

Fixpoint zsum {A} (g : A → Z) (l : list A) : Z :=
  match l with [] => 0 | x :: l' => g x + zsum g l' end.

(** The descriptors of a process, and of all of them, that refer to file [f]. *)
Definition refers (f : nat) (o : option nat) : Z := if decide (o = Some f) then 1 else 0.
Definition fds_of (f : nat) (p : proc) : Z := zsum (refers f) (p_ofile p).
Definition refs_in (t : list proc) (f : nat) : Z := zsum (fds_of f) t.

(** ** The invariant *)

(** A process that is gone has closed everything. *)
Definition closed (p : proc) : Prop := Forall (λ o, o = None) (p_ofile p).
Definition gone (p : proc) : Prop := p_state p = UNUSED ∨ p_state p = ZOMBIE.

Section Inv.
Context {S : Type} `{BO : BlockOps S} `{L : Linker} `{Y : Symbols}.

(** The reference count of every file is the number of descriptors that refer to it,
    plus [d] for the references the running code holds itself. *)
Record fds_inv (d : nat → Z) (k : kern S) : Prop := FdsInv {
  fi_len : length (procs k) = Z.to_nat NPROC;
  fi_fds : Forall (λ p, length (p_ofile p) = Z.to_nat NOFILE) (procs k);
  fi_closed : Forall (λ p, gone p → closed p) (procs k);
  fi_ref : ∀ f, f_ref (fat k f) = refs_in (procs k) f + d f;
}.

(** Pids are positive, already given out, and no two processes share one. *)
Record pid_inv (k : kern S) : Prop := PidInv {
  pi_next : 0 < nextpid k < 2 ^ 31;
  pi_pid : ∀ i p, procs k !! i = Some p → p_state p ≠ UNUSED → 0 < p_pid p < nextpid k;
  pi_uniq : ∀ i j p q, procs k !! i = Some p → procs k !! j = Some q →
    p_state p ≠ UNUSED → p_state q ≠ UNUSED → p_pid p = p_pid q → i = j;
}.

(** Every process but the first has a parent that will wait for it. *)
Definition parented (k : kern S) (i : nat) (p : proc) : Prop :=
  initproc k = Some i ∨ ∃ j q, p_parent p = Some j ∧ procs k !! j = Some q ∧ alive (p_state q).
Definition settled (p : proc) : Prop := p_state p ≠ UNUSED ∧ p_state p ≠ USED.
Definition tree_inv (k : kern S) : Prop :=
  ∀ i p, procs k !! i = Some p → settled p → parented k i p.

Record tables_inv (d : nat → Z) (k : kern S) : Prop := TablesInv {
  ti_fds : fds_inv d k;
  ti_pid : pid_inv k;
  ti_tree : tree_inv k;
}.

(** The first process never exits. *)
Definition init_ok (k : kern S) : Prop :=
  ∃ i p, initproc k = Some i ∧ procs k !! i = Some p ∧ alive (p_state p).

(** No process that takes part stops doing so. *)
Record lives (k k' : kern S) : Prop := Lives {
  lv_init : initproc k' = initproc k;
  lv_cur : cur k' = cur k;
  lv_alive : ∀ j p, procs k !! j = Some p → alive (p_state p) → ∃ q, procs k' !! j = Some q ∧ alive (p_state q);
}.

(** ** Sums *)

Lemma zsum_insert {A} (g : A → Z) l i x y : l !! i = Some x → zsum g (<[i := y]> l) = zsum g l - g x + g y.
Proof.
  revert i. induction l as [|z l IH]; intros [|i] H; simplify_eq/=; [lia|]. rewrite (IH i H). lia.
Qed.

Lemma zsum_bound {A} (g : A → Z) (c : Z) l : Forall (λ x, 0 <= g x <= c) l → 0 <= zsum g l <= c * Z.of_nat (length l).
Proof. induction 1 as [|x l H _ IH]; simpl; lia. Qed.

Lemma zsum_ext {A} (g : A → Z) l l' : Forall2 (λ x y, g y = g x) l l' → zsum g l' = zsum g l.
Proof. induction 1 as [|x y l l' H _ IH]; simpl; lia. Qed.

Lemma refers_some f i : refers f (Some i) = if decide (i = f) then 1 else 0.
Proof. unfold refers. destruct (decide (Some i = Some f)), (decide (i = f)); congruence. Qed.

Lemma refers_none f : refers f None = 0.
Proof. done. Qed.

Lemma fds_of_closed f p : closed p → fds_of f p = 0.
Proof. unfold closed, fds_of. induction 1 as [|o l -> _ IH]; simpl; rewrite ?refers_none; lia. Qed.

Lemma refs_in_bound t f :
  Forall (λ p, length (p_ofile p) = Z.to_nat NOFILE) t → 0 <= refs_in t f <= NOFILE * Z.of_nat (length t).
Proof.
  intros H. apply zsum_bound. eapply Forall_impl; [exact H|]. intros p Hp. unfold fds_of.
  assert (B : 0 <= zsum (refers f) (p_ofile p) <= 1 * Z.of_nat (length (p_ofile p))).
  { apply zsum_bound. apply Forall_true. intros o. unfold refers. destruct (decide _); lia. }
  rewrite Hp in B. change (Z.of_nat (Z.to_nat NOFILE)) with NOFILE in B. lia.
Qed.

(** ** Living on *)

Lemma lives_refl k : lives k k.
Proof. split; eauto. Qed.

Lemma lives_trans k1 k2 k3 : lives k1 k2 → lives k2 k3 → lives k1 k3.
Proof.
  intros [A1 A2 A3] [B1 B2 B3]. split; [congruence..|].
  intros j p Hp Ha. destruct (A3 j p Hp Ha) as (q & Hq & Hqa). eauto.
Qed.

Lemma lives_cur k k' : lives k k' → cur_alive k → cur_alive k'.
Proof. intros [_ A2 A3] (p & Hp & Ha). unfold cur_alive. rewrite A2. eauto. Qed.

Lemma lives_init k k' : lives k k' → init_ok k → init_ok k'.
Proof.
  intros [A1 _ A3] (i & p & Hi & Hp & Ha). destruct (A3 i p Hp Ha) as (q & Hq & Hqa).
  exists i, q. by rewrite A1.
Qed.

Lemma quietly_lives k k' : quietly k k' → lives k k'.
Proof.
  intros Q. split; [apply Q..|]. intros j p Hp Ha.
  destruct (Forall2_lookup_l _ _ _ _ _ (qk_procs _ _ Q) Hp) as (q & Hq & E). eauto using same_alive.
Qed.

Lemma alter_inv {A} (g : A → A) i (l : list A) j y : alter g i l !! j = Some y →
  ∃ x, l !! j = Some x ∧ (j = i ∧ y = g x ∨ j ≠ i ∧ y = x).
Proof.
  destruct (decide (j = i)) as [->|Hj].
  - rewrite list_lookup_alter_eq. intros H. apply fmap_Some in H as (x & Hx & ->). eauto.
  - rewrite list_lookup_alter_ne by done. eauto.
Qed.

Lemma lives_alter k g i p : procs k !! i = Some p → (alive (p_state p) → alive (p_state (g p))) →
  lives k (set_kprocs (alter g i) k).
Proof.
  intros Hi Hg. split; try done. intros j r Hr Ha. simpl. destruct (decide (j = i)) as [->|Hj].
  - rewrite list_lookup_alter_eq, Hi. rewrite Hi in Hr. injection Hr as <-. simpl. eauto.
  - rewrite list_lookup_alter_ne by done. eauto.
Qed.

(** ** Calm code *)

Lemma fat_ref (k : kern S) f : f_ref (fat k f) = default 0 ((f_ref <$> files k) !! f).
Proof. unfold fat. rewrite list_lookup_fmap. by destruct (files k !! f). Qed.

Lemma alive_not st : alive st → st ≠ UNUSED ∧ st ≠ USED ∧ st ≠ ZOMBIE.
Proof. intros [->|[->| ->]]; done. Qed.

Lemma same_gone p q : same_proc p q → gone q → gone p.
Proof.
  intros [_ _ _ [E|[_ A]]] G; [unfold gone in *; by rewrite <- E|].
  apply alive_not in A as (A1 & _ & A3). destruct G; contradiction.
Qed.

Lemma same_unused p q : same_proc p q → p_state q ≠ UNUSED → p_state p ≠ UNUSED.
Proof. intros [_ _ _ [E|[A _]]]; [by rewrite E|]. intros _. apply alive_not in A. tauto. Qed.

Lemma same_settled p q : same_proc p q → settled q → settled p.
Proof. intros [_ _ _ [E|[A _]]] H; unfold settled in *; [by rewrite <- E|]. apply alive_not in A. tauto. Qed.

Lemma same_at t t' i q : same_procs t t' → t' !! i = Some q → ∃ p, t !! i = Some p ∧ same_proc p q.
Proof. intros H Hq. destruct (Forall2_lookup_r _ _ _ _ _ H Hq) as (p & Hp & E). eauto. Qed.

Lemma fds_quietly d k k' : quietly k k' → fds_inv d k → fds_inv d k'.
Proof.
  intros Q [I1 I2 I3 I4]. pose proof (qk_procs _ _ Q) as P. split.
  - rewrite <- I1. symmetry. by apply Forall2_length in P.
  - apply Forall_lookup. intros i q Hq. destruct (same_at _ _ _ _ P Hq) as (p & Hp & E).
    rewrite (sp_ofile _ _ E). rewrite Forall_lookup in I2. eauto.
  - apply Forall_lookup. intros i q Hq G. destruct (same_at _ _ _ _ P Hq) as (p & Hp & E).
    unfold closed. rewrite (sp_ofile _ _ E). rewrite Forall_lookup in I3. eapply I3; eauto using same_gone.
  - intros f. rewrite fat_ref, (qk_refs _ _ Q), <- fat_ref, I4. f_equal. symmetry. apply zsum_ext.
    eapply Forall2_impl; [exact P|]. intros p q E. unfold fds_of. by rewrite (sp_ofile _ _ E).
Qed.

Lemma pid_quietly k k' : quietly k k' → pid_inv k → pid_inv k'.
Proof.
  intros Q [I1 I2 I3]. pose proof (qk_procs _ _ Q) as P. split; rewrite ?(qk_next _ _ Q).
  - done.
  - intros i q Hq U. destruct (same_at _ _ _ _ P Hq) as (p & Hp & E).
    rewrite (sp_pid _ _ E). eauto using same_unused.
  - intros i j q q' Hq Hq' U U'.
    destruct (same_at _ _ _ _ P Hq) as (p & Hp & E), (same_at _ _ _ _ P Hq') as (p' & Hp' & E').
    rewrite (sp_pid _ _ E), (sp_pid _ _ E'). eauto using same_unused.
Qed.

Lemma tree_quietly k k' : quietly k k' → tree_inv k → tree_inv k'.
Proof.
  intros Q I i q Hq Hs. destruct (same_at _ _ _ _ (qk_procs _ _ Q) Hq) as (p & Hp & E).
  destruct (I i p Hp (same_settled _ _ E Hs)) as [Hi|(j & r & Hj & Hr & Ha)].
  - left. by rewrite (qk_init _ _ Q).
  - right. destruct (lv_alive _ _ (quietly_lives _ _ Q) j r Hr Ha) as (r' & Hr' & Ha').
    exists j, r'. by rewrite (sp_parent _ _ E).
Qed.

Lemma tables_inv_quietly d k k' : quietly k k' → tables_inv d k → tables_inv d k'.
Proof. intros Q [I1 I2 I3]. split; [by eapply fds_quietly | by eapply pid_quietly | by eapply tree_quietly]. Qed.

Lemma tables_inv_ext d d' k : (∀ f, d f = d' f) → tables_inv d k → tables_inv d' k.
Proof. intros E [[I1 I2 I3 I4] I5 I6]. split; [|done..]. split; [done..|]. intros f. by rewrite <- E. Qed.

(** ** Changing a process *)

Lemma fds_alter d k g i p : fds_inv d k → procs k !! i = Some p →
  length (p_ofile (g p)) = length (p_ofile p) → (gone (g p) → closed (g p)) →
  fds_inv (λ f, d f + fds_of f p - fds_of f (g p)) (set_kprocs (alter g i) k).
Proof.
  intros [I1 I2 I3 I4] Hi Hl Hc. split; simpl.
  - by rewrite length_alter.
  - apply Forall_alter; [done|]. intros x Hx H. rewrite Hi in Hx. injection Hx as <-. by rewrite Hl.
  - apply Forall_alter; [done|]. intros x Hx _. rewrite Hi in Hx. by injection Hx as <-.
  - intros f. change (fat (set_kprocs (alter g i) k) f) with (fat k f). rewrite I4. unfold refs_in.
    rewrite (alter_insert _ _ _ _ Hi), (zsum_insert _ _ _ _ _ Hi). lia.
Qed.

Lemma pid_alter k g i p : pid_inv k → procs k !! i = Some p →
  (p_state (g p) ≠ UNUSED → p_state p ≠ UNUSED ∧ p_pid (g p) = p_pid p) →
  pid_inv (set_kprocs (alter g i) k).
Proof.
  intros [I1 I2 I3] Hi Hg. assert (X : ∀ j y, alter g i (procs k) !! j = Some y → p_state y ≠ UNUSED →
    ∃ x, procs k !! j = Some x ∧ p_state x ≠ UNUSED ∧ p_pid y = p_pid x).
  { intros j y Hy U. destruct (alter_inv _ _ _ _ _ Hy) as (x & Hx & [[-> ->]|[_ ->]]); [|eauto].
    rewrite Hi in Hx. injection Hx as <-. destruct (Hg U). eauto. }
  split; simpl; [done|..].
  - intros j y Hy U. destruct (X j y Hy U) as (x & Hx & Ux & ->). eauto.
  - intros j j' y y' Hy Hy' U U'. destruct (X j y Hy U) as (x & Hx & Ux & ->), (X j' y' Hy' U') as (x' & Hx' & Ux' & ->). eauto.
Qed.

Lemma tree_alter k g i p : tree_inv k → procs k !! i = Some p →
  (alive (p_state p) → alive (p_state (g p))) → (settled (g p) → parented k i (g p)) →
  tree_inv (set_kprocs (alter g i) k).
Proof.
  intros I Hi Ha Hs. assert (X : ∀ j r, parented k j r → parented (set_kprocs (alter g i) k) j r).
  { intros j r [H|(m & q & Hm & Hq & Hqa)]; [by left|]. right. exists m.
    destruct (lv_alive _ _ (lives_alter k g i p Hi Ha) m q Hq Hqa) as (q' & ? & ?). eauto. }
  intros j y Hy Hsy. apply X. destruct (alter_inv _ _ _ _ _ Hy) as (x & Hx & [[-> ->]|[_ ->]]); [|eauto].
  rewrite Hi in Hx. injection Hx as <-. auto.
Qed.
End Inv.
