(* ===== verification/FileInv.v ===== *)
(** * Descriptors and reference counts

    What the operations on open files and descriptors do to the invariant, and the
    system calls built from them: dup, close, open and pipe. *)

From stdpp Require Import base numbers list strings.
From S2P Require Import Prelude Str Layout Kalloc Vm ProcState Sched Pipe Bio Block Fs Dir FsFile Printf Console Kern File Proc.
From S2P Require Import Sysproc Sysfile Exec Syscall Trap KernCalm KernInv.
Local Open Scope Z_scope.

(** The running code holds one reference to [i] more, or one less. *)
Definition plus (d : nat → Z) (i : nat) : nat → Z := λ f, d f + refers f (Some i).
Definition minus (d : nat → Z) (i : nat) : nat → Z := λ f, d f - refers f (Some i).
Definition none : nat → Z := λ _, 0.

Lemma minus_plus d i f : minus (plus d i) i f = d f.
Proof. unfold minus, plus. lia. Qed.

Lemma plus_minus d i f : plus (minus d i) i f = d f.
Proof. unfold minus, plus. lia. Qed.

Lemma find_free_spec j l i : find_free j l = Some i → (j <= i)%nat ∧ ∃ x, l !! (i - j)%nat = Some x ∧ f_ref x = 0.
Proof.
  revert j. induction l as [|x l IH]; intros j H; [done|]. cbn [find_free] in H. destruct (f_ref x =? 0) eqn:E.
  - injection H as <-. split; [lia|]. exists x. rewrite Nat.sub_diag. split; [done | lia].
  - destruct (IH _ H) as (Hle & y & Hy & Hr). split; [lia|]. exists y.
    replace (i - j)%nat with (S (i - S j)) by lia. done.
Qed.

Lemma find_fd_spec j l fd : find_fd j l = Some fd → (j <= fd)%nat ∧ l !! (fd - j)%nat = Some None.
Proof.
  revert j. induction l as [|o l IH]; intros j H; [done|]. destruct o as [f|]; cbn [find_fd] in H.
  - destruct (IH _ H) as (Hle & Hy). split; [lia|]. by replace (fd - j)%nat with (S (fd - S j)) by lia.
  - injection H as <-. split; [lia|]. by rewrite Nat.sub_diag.
Qed.

Section FileInv.
Context {S : Type} `{BO : BlockOps S} `{L : Linker} `{Y : Symbols}.

(** ** The table of open files *)

Lemma tables_inv_setref d (k : kern S) i g x : tables_inv d k → files k !! i = Some x →
  tables_inv (λ f, d f + if decide (i = f) then f_ref (g x) - f_ref x else 0) (set_files (alter g i) k).
Proof.
  intros [[I1 I2 I3 I4] I5 I6] Hx. split; [|destruct I5; by split | exact I6].
  split; try done. intros f. change (procs (set_files (alter g i) k)) with (procs k).
  specialize (I4 f). unfold fat in *. simpl. destruct (decide (i = f)) as [->|Hf].
  - rewrite list_lookup_alter_eq, Hx. rewrite Hx in I4. simpl in *. lia.
  - rewrite list_lookup_alter_ne by done. lia.
Qed.

Lemma lives_files (k : kern S) f : lives k (set_files f k).
Proof. split; try done. eauto. Qed.

Lemma filealloc_inv d (k : kern S) : tables_inv d k →
  pwp filealloc k (λ r k', procs k' = procs k ∧ lives k k' ∧
    match r with Some i => tables_inv (plus d i) k' | None => tables_inv d k' end).
Proof.
  intros I. unfold filealloc. apply pwp_bind, pwp_gets.
  destruct (find_free 0 (files k)) as [i|] eqn:E; [|by split; [|split; [apply lives_refl|]]].
  destruct (find_free_spec _ _ _ E) as (_ & x & Hx & Hr). rewrite Nat.sub_0_r in Hx.
  split; [done|]. split; [apply lives_files|]. eapply tables_inv_ext; [|exact (tables_inv_setref d k i (fset_ref 1) x I Hx)].
  intros f. unfold plus. rewrite refers_some. simpl. destruct (decide (i = f)); lia.
Qed.

(** A count of at least one is that of a file. *)
Lemma fat_pos (k : kern S) i : 1 <= f_ref (fat k i) → ∃ x, files k !! i = Some x ∧ fat k i = x.
Proof. unfold fat. destruct (files k !! i) as [x|]; simpl; [eauto | lia]. Qed.

Lemma ref_bound d (k : kern S) i : fds_inv d k → f_ref (fat k i) <= 1024 + d i.
Proof.
  intros [I1 I2 _ I4]. rewrite I4. pose proof (refs_in_bound (procs k) i I2) as B. rewrite I1 in B.
  change (NOFILE * Z.of_nat (Z.to_nat NPROC)) with 1024 in B. lia.
Qed.

Lemma filedup_inv d (k : kern S) i : tables_inv d k → d i <= 1 →
  pwp (filedup i) k (λ r k', r = i ∧ procs k' = procs k ∧ lives k k' ∧ tables_inv (plus d i) k').
Proof.
  intros I Hd. unfold filedup. apply pwp_bind, pwp_gets.
  destruct (f_ref (fat k i) <? 1) eqn:E; [exact Logic.I|]. destruct (fat_pos k i) as (x & Hx & Hf); [lia|].
  pose proof (ref_bound d k i (ti_fds _ _ I)) as B. rewrite Hf in *.
  split; [done|]. split; [done|]. split; [apply lives_files|].
  eapply tables_inv_ext; [|exact (tables_inv_setref d k i (fset_ref (i32 (f_ref x + 1))) x I Hx)].
  intros f. unfold plus. rewrite refers_some. simpl. rewrite i32_small by lia. destruct (decide (i = f)); lia.
Qed.

Lemma fileclose_inv d (k : kern S) i : tables_inv d k → cur_alive k →
  pwp (fileclose i) k (λ _ k', same_procs (procs k) (procs k') ∧ lives k k' ∧ tables_inv (minus d i) k').
Proof.
  intros I A. unfold fileclose. apply pwp_bind, pwp_gets.
  destruct (f_ref (fat k i) <? 1) eqn:E; [exact Logic.I|]. destruct (fat_pos k i) as (x & Hx & Hf); [lia|].
  rewrite Hf in *.
  assert (C : ∀ g, f_ref (g x) = f_ref x - 1 → tables_inv (minus d i) (set_files (alter g i) k)).
  { intros g Hg. eapply tables_inv_ext; [|exact (tables_inv_setref d k i g x I Hx)]. intros f. unfold minus. rewrite refers_some, Hg.
    destruct (decide (i = f)); lia. }
  destruct (0 <? f_ref x - 1) eqn:E'.
  - split; [apply same_procs_refl|]. split; [apply lives_files | by apply C].
  - apply pwp_bind. set (k1 := set_files (alter (λ f, fset_type FD_NONE (fset_ref 0 f)) i) k).
    assert (I1 : tables_inv (minus d i) k1) by (apply C; simpl; lia).
    apply pwp_modify, (pwp_calm _ k1); [unfold begin, finish; calm_auto | exact A|].
    intros _ k' Q. split; [apply Q|]. split; [|by eapply tables_inv_quietly].
      eapply lives_trans; [apply lives_files | by apply quietly_lives].
Qed.

(** ** Descriptors *)

(** Descriptor [fd] of the running process is file [f]. *)
Definition has_fd (k : kern S) (fd f : nat) : Prop :=
  ∃ p, procs k !! cur k = Some p ∧ p_ofile p !! fd = Some (Some f).

Lemma has_fd_same (k k' : kern S) fd f : same_procs (procs k) (procs k') → cur k' = cur k → has_fd k fd f → has_fd k' fd f.
Proof.
  intros P E (p & Hp & Hf). destruct (Forall2_lookup_l _ _ _ _ _ P Hp) as (q & Hq & Hs).
  exists q. by rewrite E, (sp_ofile _ _ Hs).
Qed.

Lemma tables_inv_setfd d (k : kern S) i p fd o o' : tables_inv d k → procs k !! i = Some p → ¬ gone p → p_ofile p !! fd = Some o →
  tables_inv (λ f, d f + refers f o - refers f o')
    (set_kprocs (alter (λ p, set_ofile (<[fd := o']> (p_ofile p)) p) i) k).
Proof.
  intros [I1 I2 I3] Hp Hg Ho. set (g := λ p, set_ofile (<[fd := o']> (p_ofile p)) p). split.
  - assert (F : fds_inv (λ f, d f + fds_of f p - fds_of f (g p)) (set_kprocs (alter g i) k)).
    { apply fds_alter; [done..| |].
      - simpl. by rewrite length_insert.
      - intros G. by destruct Hg. }
    destruct F as [F1 F2 F3 F4]. split; [done..|]. intros f. rewrite F4. unfold fds_of at 1 2. simpl.
    rewrite (zsum_insert _ _ _ _ _ Ho). lia.
  - apply (pid_alter _ _ _ p); [done..|]. intros U. by split.
  - apply (tree_alter _ _ _ p); [done..|]. intros H. apply (I3 _ _ Hp H).
Qed.

Lemma alive_here p : alive (p_state p) → ¬ gone p.
Proof. intros A [G|G]; rewrite G in A; apply alive_not in A; tauto. Qed.

Lemma set_fd_inv d (k : kern S) fd o o' p : tables_inv d k → procs k !! cur k = Some p → alive (p_state p) →
  p_ofile p !! fd = Some o →
  pwp (set_fd fd o') k (λ _ k', lives k k' ∧ tables_inv (λ f, d f + refers f o - refers f o') k' ∧
    ∃ q, procs k' !! cur k' = Some q ∧ p_ofile q = <[fd := o']> (p_ofile p)).
Proof.
  intros I Hp Ha Ho. set (g := λ p, set_ofile (<[fd := o']> (p_ofile p)) p).
  change (pwp (set_fd fd o') k) with (pwp (modify (set_kprocs (alter g (cur k)))) k).
  apply pwp_modify. split; [by apply (lives_alter _ _ _ p)|].
  split; [exact (tables_inv_setfd d k (cur k) p fd o o' I Hp (alive_here p Ha) Ho)|].
  exists (g p). split; [|done]. simpl. by rewrite list_lookup_alter_eq, Hp.
Qed.

Lemma fdalloc_inv d (k : kern S) f : tables_inv d k → cur_alive k →
  pwp (fdalloc f) k (λ r k', lives k k' ∧
    if r <? 0 then k' = k
    else tables_inv (minus d f) k' ∧ has_fd k' (Z.to_nat r) f ∧
      ∀ fd' f', has_fd k fd' f' → has_fd k' fd' f' ∧ fd' ≠ Z.to_nat r).
Proof.
  intros I (p & Hp & Ha). unfold fdalloc. apply pwp_bind, pwp_gets.
  assert (E : pat k (cur k) = p) by (unfold pat; by rewrite Hp). rewrite E.
  destruct (find_fd 0 (p_ofile p)) as [fd|] eqn:F; [|by split; [apply lives_refl|]].
  destruct (find_fd_spec _ _ _ F) as [_ Hn]. rewrite Nat.sub_0_r in Hn.
  apply pwp_bind. eapply pwp_mono; [exact (set_fd_inv d k fd None (Some f) p I Hp Ha Hn)|].
  intros _ k' (Hl & Hk & q & Hq & Ho). split; [done|].
  assert ((Z.of_nat fd <? 0) = false) as -> by (apply Z.ltb_ge; apply Nat2Z.is_nonneg). rewrite Nat2Z.id. split; [|split].
  - eapply tables_inv_ext; [|exact Hk]. intros x. unfold minus. rewrite refers_none. lia.
  - exists q. split; [done|]. rewrite Ho. apply list_lookup_insert_eq. by eapply lookup_lt_Some.
  - intros fd' f' (p' & Hp' & Hf'). rewrite Hp in Hp'. injection Hp' as <-.
    assert (fd' ≠ fd) by (intros ->; congruence). split; [|done]. exists q. split; [done|].
    rewrite Ho, list_lookup_insert_ne; done.
Qed.

Lemma argfd_spec n (k : kern S) : cur_alive k →
  pwp (argfd n) k (λ r k', quietly k k' ∧
    match r with Some (fd, f) => has_fd k' (Z.to_nat fd) f | None => True end).
Proof.
  intros A. unfold argfd. apply pwp_bind, pwp_calm; [auto with calm | done|]. intros fd k1 Q1.
  apply pwp_bind, pwp_gets. destruct (_ || _); [by split|]. split; [done|].
  destruct (quietly_alive _ _ Q1 A) as (p & Hp & _). unfold pat. rewrite Hp. simpl.
  destruct (p_ofile p !! Z.to_nat fd) as [[f|]|] eqn:E; try done. by exists p.
Qed.

(** ** System calls *)

(** Code that keeps the invariant and does not end the process. *)
Definition safe {A} (m : M (kern S) A) : Prop :=
  ∀ k, tables_inv none k → cur_alive k → pwp m k (λ _ k', tables_inv none k' ∧ lives k k').

Lemma safe_calm {A} (m : M (kern S) A) : calm m → safe m.
Proof.
  intros H k I A0. apply pwp_calm; [done..|]. intros a k' Q. split; [by eapply tables_inv_quietly | by apply quietly_lives].
Qed.

Lemma safe_bind {A B} (m : M (kern S) A) (f : A → M (kern S) B) : safe m → (∀ a, safe (f a)) → safe (m ≫= f).
Proof.
  intros Hm Hf k I A0. apply pwp_bind. eapply pwp_mono; [by apply Hm|]. intros a k1 [I1 L1]. cbv beta.
  eapply pwp_mono; [apply Hf; [done | by eapply lives_cur]|]. intros b k2 [I2 L2]. split; [done|].
  by eapply lives_trans.
Qed.

Lemma sys_dup_safe : safe sys_dup.
Proof.
  intros k I A. unfold sys_dup. apply pwp_bind. eapply pwp_mono; [by apply argfd_spec|].
  intros r k1 [Q1 H1]. cbv beta. pose proof (tables_inv_quietly _ _ _ Q1 I) as I1. pose proof (quietly_lives _ _ Q1) as L1.
  pose proof (lives_cur _ _ L1 A) as A1.
  destruct r as [[fd f]|]; [|by split]. apply pwp_bind. eapply pwp_mono; [exact (fdalloc_inv _ _ f I1 A1)|].
  intros r k2 [L2 H2]. cbv beta. destruct (r <? 0).
  - subst k2. by split.
  - destruct H2 as (I2 & _ & _). apply pwp_bind. eapply pwp_mono; [apply (filedup_inv _ _ f I2)|].
    + unfold minus, none. rewrite refers_some, decide_True by done. lia.
    + intros r' k3 (_ & _ & L3 & I3). split; [|eauto using lives_trans]. eapply tables_inv_ext; [|exact I3]. apply plus_minus.
Qed.

Lemma sys_close_safe : safe sys_close.
Proof.
  intros k I A. unfold sys_close. apply pwp_bind. eapply pwp_mono; [by apply argfd_spec|].
  intros r k1 [Q1 H1]. cbv beta. pose proof (tables_inv_quietly _ _ _ Q1 I) as I1. pose proof (quietly_lives _ _ Q1) as L1.
  destruct (lives_cur _ _ L1 A) as (p & Hp & Ha).
  destruct r as [[fd f]|]; [|by split]. destruct H1 as (p' & Hp' & Hf). rewrite Hp in Hp'. injection Hp' as <-.
  apply pwp_bind. eapply pwp_mono; [exact (set_fd_inv _ _ _ _ None p I1 Hp Ha Hf)|].
  intros _ k2 (L2 & I2 & _). cbv beta. apply pwp_bind.
  eapply pwp_mono; [apply (fileclose_inv _ _ f I2); eauto using lives_cur, lives_trans|].
  intros _ k3 (_ & L3 & I3). split; [|eauto using lives_trans]. eapply tables_inv_ext; [|exact I3].
  intros x. unfold minus, none. rewrite refers_none. lia.
Qed.

(** The end of [sys_open] is calm. *)
Lemma calm_open_file ip f fd omode : calm (S := S) (open_file ip f fd omode).
Proof. unfold open_file, finish. calm_auto. Qed.

(** [sys_open] once the inode is known. *)
Lemma open_fd_safe ip omode : safe (
  f ← filealloc;
  match f with
  | None => onfs (iunlockput ip);; finish;; mret (Some fails)
  | Some f =>
      fd ← fdalloc f;
      if fd <? 0 then fileclose f;; onfs (iunlockput ip);; finish;; mret (Some fails)
      else open_file ip f fd omode
  end).
Proof.
  intros k I A. apply pwp_bind. eapply pwp_mono; [by apply filealloc_inv|]. intros [f|] k1 (P1 & L1 & I1); cbv beta iota.
  - pose proof (lives_cur _ _ L1 A) as A1.
    apply pwp_bind. eapply pwp_mono; [by apply (fdalloc_inv _ _ f I1)|]. intros fd k2 [L2 H2]. cbv beta.
    pose proof (lives_cur _ _ L2 A1) as A2. destruct (fd <? 0).
    + subst k2. apply pwp_bind. eapply pwp_mono; [by apply (fileclose_inv _ _ f I1)|]. intros _ k3 (_ & L3 & I3). cbv beta.
      pose proof (lives_cur _ _ L3 A1) as A3.
      apply pwp_calm; [unfold finish; calm_auto | done|]. intros r k4 Q. pose proof (quietly_lives _ _ Q) as L4. split.
      * eapply tables_inv_quietly; [exact Q|]. eapply tables_inv_ext; [|exact I3]. apply minus_plus.
      * eapply lives_trans; [exact L1|]. by eapply lives_trans.
    + destruct H2 as (I2 & _). apply pwp_calm; [apply calm_open_file | done|]. intros r k3 Q.
      pose proof (quietly_lives _ _ Q) as L3. split; [|eauto using lives_trans].
      eapply tables_inv_quietly; [exact Q|]. eapply tables_inv_ext; [|exact I2]. apply minus_plus.
  - apply pwp_calm; [unfold finish; calm_auto | by eapply lives_cur|]. intros r k2 Q.
    pose proof (quietly_lives _ _ Q) as L2. split; [by eapply tables_inv_quietly | by eapply lives_trans].
Qed.

Lemma pipealloc_inv d (k : kern S) : tables_inv d k → cur_alive k →
  pwp pipealloc k (λ r k', lives k k' ∧
    match r with Some (f0, f1) => tables_inv (plus (plus d f0) f1) k' | None => tables_inv d k' end).
Proof.
  intros I A. unfold pipealloc. apply pwp_bind. eapply pwp_mono; [by apply filealloc_inv|].
  intros [f0|] k1 (_ & L1 & I1); cbv beta iota; [|by split]. pose proof (lives_cur _ _ L1 A) as A1.
  apply pwp_bind. eapply pwp_mono; [by apply filealloc_inv|]. intros [f1|] k2 (_ & L2 & I2); cbv beta iota.
  - pose proof (lives_cur _ _ L2 A1) as A2. pose proof (lives_trans _ _ _ L1 L2) as L2'.
    apply pwp_bind, pwp_calm; [auto with calm | done|]. intros pi k3 Q3.
    pose proof (tables_inv_quietly _ _ _ Q3 I2) as I3. pose proof (quietly_lives _ _ Q3) as L3.
    pose proof (lives_cur _ _ L3 A2) as A3. pose proof (lives_trans _ _ _ L2' L3) as L3'. destruct (pi =? 0).
    + apply pwp_bind. eapply pwp_mono; [by apply (fileclose_inv _ _ f0 I3)|]. intros _ k4 (_ & L4 & I4). cbv beta.
      apply pwp_bind. eapply pwp_mono; [by apply (fileclose_inv _ _ f1 I4); eapply lives_cur|]. intros _ k5 (_ & L5 & I5).
      split; [eauto using lives_trans|]. eapply tables_inv_ext; [|exact I5]. intros f. unfold minus, plus. lia.
    + apply pwp_bind, pwp_calm; [apply calm_modify; intros; split; try done; apply same_procs_refl | done|]. intros _ k4 Q4.
      apply pwp_bind, pwp_calm; [calm_auto | by eapply quietly_alive|]. intros _ k5 Q5.
      apply pwp_bind, pwp_calm; [calm_auto | eauto using quietly_alive|]. intros _ k6 Q6.
      pose proof (quietly_trans _ _ _ Q4 (quietly_trans _ _ _ Q5 Q6)) as Q. split; [|by eapply tables_inv_quietly].
      eapply lives_trans; [exact L3'|]. by apply quietly_lives.
  - apply pwp_bind. eapply pwp_mono; [by apply (fileclose_inv _ _ f0 I2); eapply lives_cur|]. intros _ k3 (_ & L3 & I3).
    split; [eauto using lives_trans|]. eapply tables_inv_ext; [|exact I3]. apply minus_plus.
Qed.

Lemma sys_open_safe : safe sys_open.
Proof.
  assert (C : ∀ A (m : M (kern S) A) B (f : A → M (kern S) B), calm m → (∀ a, safe (f a)) → safe (m ≫= f)).
  { intros A m B f H. by apply safe_bind, safe_calm. }
  unfold sys_open, begin. apply C; [auto with calm|]. intros omode. apply C; [auto with calm|]. intros [path|].
  - apply C; [auto with calm|]. intros _. apply C; [auto with calm|]. intros [ip|].
    + apply C; [auto with calm|]. intros i. destruct (_ && _); [|apply open_fd_safe].
      apply safe_calm. unfold finish. calm_auto.
    + apply safe_calm. unfold finish. calm_auto.
  - apply safe_calm. calm_auto.
Qed.

(** Undoing what [sys_pipe] did: one descriptor, then both files. *)
Lemma clear_fd_inv d (k : kern S) fd f : tables_inv d k → cur_alive k → has_fd k fd f →
  pwp (set_fd fd None) k (λ _ k', lives k k' ∧ tables_inv (plus d f) k' ∧
    ∀ fd' f', fd' ≠ fd → has_fd k fd' f' → has_fd k' fd' f').
Proof.
  intros I (p & Hp & Ha) (p' & Hp' & Hf). rewrite Hp in Hp'. injection Hp' as <-.
  eapply pwp_mono; [exact (set_fd_inv d k fd _ None p I Hp Ha Hf)|]. intros _ k' (Hl & Hk & q & Hq & Ho).
  split; [done|]. split.
  - eapply tables_inv_ext; [|exact Hk]. intros x. unfold plus. rewrite refers_none. lia.
  - intros fd' f' Hne (p' & Hp' & Hf'). rewrite Hp in Hp'. injection Hp' as <-. exists q. split; [done|].
    rewrite Ho, list_lookup_insert_ne; done.
Qed.

Lemma close_two_inv d (k : kern S) f0 f1 : tables_inv (plus (plus d f0) f1) k → cur_alive k →
  pwp (fileclose f0;; fileclose f1;; mret (Some fails)) k (λ _ k', tables_inv d k' ∧ lives k k').
Proof.
  intros I A. apply pwp_bind. eapply pwp_mono; [by apply (fileclose_inv _ _ f0 I)|]. intros _ k1 (_ & L1 & I1). cbv beta.
  apply pwp_bind. eapply pwp_mono; [by apply (fileclose_inv _ _ f1 I1); eapply lives_cur|]. intros _ k2 (_ & L2 & I2).
  split; [|by eapply lives_trans]. eapply tables_inv_ext; [|exact I2]. intros f. unfold minus, plus. lia.
Qed.

(** The end of [sys_pipe], with both descriptors in place. *)
Lemma pipe_copy_safe pt fdarray fd0 fd1 rf wf (k : kern S) : tables_inv none k → cur_alive k →
  has_fd k (Z.to_nat fd0) rf → has_fd k (Z.to_nat fd1) wf → Z.to_nat fd0 ≠ Z.to_nat fd1 →
  pwp (c0 ← onmem (copyout pt fdarray (int_bytes fd0));
       c1 ← (if c0 <? 0 then mret (-1) else onmem (copyout pt (u64 (fdarray + 4)) (int_bytes fd1)));
       if c1 <? 0 then
         set_fd (Z.to_nat fd0) None;; set_fd (Z.to_nat fd1) None;;
         fileclose rf;; fileclose wf;; mret (Some fails)
       else mret (Some 0)) k (λ _ k', tables_inv none k' ∧ lives k k').
Proof.
  intros I A H0 H1 Hne. apply pwp_bind, pwp_calm; [auto with calm | done|]. intros c0 k1 Q1.
  apply pwp_bind, pwp_calm; [destruct (c0 <? 0); auto with calm | by eapply quietly_alive|]. intros c1 k2 Q2.
  pose proof (quietly_trans _ _ _ Q1 Q2) as Q. pose proof (tables_inv_quietly _ _ _ Q I) as I2.
  pose proof (quietly_lives _ _ Q) as L2. pose proof (quietly_alive _ _ Q A) as A2.
  destruct (c1 <? 0); [|by split]. pose proof (has_fd_same _ _ _ _ (qk_procs _ _ Q) (qk_cur _ _ Q) H0) as H0'.
  pose proof (has_fd_same _ _ _ _ (qk_procs _ _ Q) (qk_cur _ _ Q) H1) as H1'.
  apply pwp_bind. eapply pwp_mono; [exact (clear_fd_inv _ _ _ _ I2 A2 H0')|]. intros _ k3 (L3 & I3 & K3). cbv beta.
  pose proof (lives_cur _ _ L3 A2) as A3. apply pwp_bind.
  eapply pwp_mono; [exact (clear_fd_inv _ _ _ _ I3 A3 (K3 _ _ (not_eq_sym Hne) H1'))|]. intros _ k4 (L4 & I4 & _). cbv beta.
  eapply pwp_mono; [exact (close_two_inv _ _ _ _ I4 (lives_cur _ _ L4 A3))|]. intros r k5 [I5 L5].
  split; [done|]. eauto using lives_trans.
Qed.

Lemma sys_pipe_safe : safe sys_pipe.
Proof.
  intros k I A. unfold sys_pipe. apply pwp_bind, pwp_gets. apply pwp_bind, pwp_calm; [auto with calm | done|].
  intros fdarray k1 Q1. pose proof (tables_inv_quietly _ _ _ Q1 I) as I1. pose proof (quietly_lives _ _ Q1) as L1.
  pose proof (quietly_alive _ _ Q1 A) as A1. apply pwp_bind. eapply pwp_mono; [exact (pipealloc_inv _ _ I1 A1)|].
  intros [[rf wf]|] k2 [L2 I2]; cbv beta iota; [|split; [done | by eapply lives_trans]].
  pose proof (lives_cur _ _ L2 A1) as A2. pose proof (lives_trans _ _ _ L1 L2) as L2'.
  apply pwp_bind. eapply pwp_mono; [exact (fdalloc_inv _ _ rf I2 A2)|]. intros fd0 k3 [L3 H3]. cbv beta.
  pose proof (lives_cur _ _ L3 A2) as A3. pose proof (lives_trans _ _ _ L2' L3) as L3'. destruct (fd0 <? 0).
  { subst k3. eapply pwp_mono; [exact (close_two_inv _ _ _ _ I2 A2)|]. intros r k4 [I4 L4]. eauto using lives_trans. }
  destruct H3 as (I3 & F0 & _). apply pwp_bind. eapply pwp_mono; [exact (fdalloc_inv _ _ wf I3 A3)|].
  intros fd1 k4 [L4 H4]. cbv beta. pose proof (lives_cur _ _ L4 A3) as A4. destruct (fd1 <? 0).
  - subst k4. apply pwp_bind. eapply pwp_mono; [exact (clear_fd_inv _ _ _ _ I3 A3 F0)|]. intros _ k5 (L5 & I5 & _). cbv beta.
    eapply pwp_mono; [apply (close_two_inv none _ rf wf); [|by eapply lives_cur]|].
    + eapply tables_inv_ext; [|exact I5]. apply plus_minus.
    + intros r k6 [I6 L6]. split; [done|]. eauto using lives_trans.
  - destruct H4 as (I4 & F1 & K4). destruct (K4 _ _ F0) as [F0' Hne].
    eapply pwp_mono; [apply (pipe_copy_safe _ _ _ _ rf wf); try done|].
    + eapply tables_inv_ext; [|exact I4]. intros f. unfold minus, plus. lia.
    + intros r k5 [I5 L5]. split; [done|]. eauto using lives_trans.
Qed.
End FileInv.
