(* ===== verification/ProcInv.v ===== *)
(** * Processes and the invariant

    Allocation, [fork], [exit] and [wait] keep pids distinct, reference counts exact
    and every process the child of a process that takes part. *)

From stdpp Require Import base numbers list strings.
From S2P Require Import Prelude Str Layout Kalloc Vm ProcState Sched Pipe Bio Block Fs Dir FsFile Printf Console Kern File Proc.
From S2P Require Import Sysproc Sysfile Exec Syscall Trap KernCalm KernInv FileInv.
Local Open Scope Z_scope.

Lemma find_unused_spec j t i : find_unused j t = Some i → (j <= i)%nat ∧ ∃ p, t !! (i - j)%nat = Some p ∧ p_state p = UNUSED.
Proof.
  revert j. induction t as [|x t IH]; intros j H; [done|]. cbn [find_unused] in H. destruct (has_state UNUSED x) eqn:E.
  - injection H as <-. split; [lia|]. exists x. rewrite Nat.sub_diag. split; [done | by apply has_state_true].
  - destruct (IH _ H) as (Hle & y & Hy & Hr). split; [lia|]. exists y.
    by replace (i - j)%nat with (S (i - S j)) by lia.
Qed.

Lemma find_child_spec j me t b i : find_child j me t = (b, Some i) →
  (j <= i)%nat ∧ ∃ p, t !! (i - j)%nat = Some p ∧ p_state p = ZOMBIE.
Proof.
  revert j b. induction t as [|x t IH]; intros j b H; [done|]. cbn [find_child] in H.
  assert (R : ∀ b', find_child (S j) me t = (b', Some i) →
    (j <= i)%nat ∧ ∃ p, (x :: t) !! (i - j)%nat = Some p ∧ p_state p = ZOMBIE).
  { intros b' H'. destruct (IH _ _ H') as (Hle & y & Hy & Hr). split; [lia|]. exists y.
    by replace (i - j)%nat with (S (i - S j)) by lia. }
  destruct (bool_decide _); [|eauto]. destruct (has_state ZOMBIE x) eqn:E.
  - injection H as _ <-. split; [lia|]. exists x. rewrite Nat.sub_diag. split; [done | by apply has_state_true].
  - destruct (find_child (S j) me t) as [b' o] eqn:F. simpl in H. injection H as _ ->. eauto.
Qed.

Section ProcInv.
Context {S : Type} `{BO : BlockOps S} `{L : Linker} `{Y : Symbols}.

(** ** Allocation *)

(** A slot being set up, or torn down: nothing open from descriptor [fd] on. *)
Definition nascent (k : kern S) (i fd : nat) : Prop :=
  ∃ p, procs k !! i = Some p ∧ p_state p = USED ∧ ∀ j, (fd <= j)%nat → (j < Z.to_nat NOFILE)%nat → p_ofile p !! j = Some None.

Lemma nascent_quietly k k' i fd : quietly k k' → nascent k i fd → nascent k' i fd.
Proof.
  intros Q (p & Hp & Hs & Hf). destruct (Forall2_lookup_l _ _ _ _ _ (qk_procs _ _ Q) Hp) as (q & Hq & E).
  exists q. split; [done|]. rewrite (sp_ofile _ _ E). split; [|done]. destruct (sp_state _ _ E) as [->|[A _]]; [done|].
  rewrite Hs in A. apply alive_not in A. tauto.
Qed.

Lemma closed_nascent p : length (p_ofile p) = Z.to_nat NOFILE → closed p →
  ∀ j, (j < Z.to_nat NOFILE)%nat → p_ofile p !! j = Some None.
Proof.
  intros Hl Hc j Hj. rewrite <- Hl in Hj. destruct (lookup_lt_is_Some_2 _ _ Hj) as [o Ho].
  rewrite Ho. f_equal. unfold closed in Hc. rewrite Forall_lookup in Hc. exact (Hc j o Ho).
Qed.

Lemma nascent_closed p : length (p_ofile p) = Z.to_nat NOFILE →
  (∀ j, (j < Z.to_nat NOFILE)%nat → p_ofile p !! j = Some None) → closed p.
Proof.
  intros Hl H. apply Forall_lookup. intros j o Ho. assert (j < Z.to_nat NOFILE)%nat as Hj.
  { rewrite <- Hl. by eapply lookup_lt_Some. }
  rewrite (H j Hj) in Ho. by injection Ho.
Qed.

Lemma pid_alloc (k : kern S) g i p : pid_inv k → nextpid k < 2 ^ 31 - 1 → procs k !! i = Some p → p_state p = UNUSED →
  p_pid (g p) = nextpid k →
  pid_inv (set_kprocs (alter g i) (set_nextpid (i32 (nextpid k + 1)) k)).
Proof.
  intros [[I1 I1'] I2 I3] Hn Hi Hu Hg. split; simpl; try rewrite i32_small by lia.
  - lia.
  - intros j y Hy U. destruct (alter_inv _ _ _ _ _ Hy) as (x & Hx & [[-> ->]|[_ ->]]).
    + rewrite Hi in Hx. injection Hx as <-. lia.
    + specialize (I2 j x Hx U). lia.
  - intros j j' y y' Hy Hy' U U' E.
    destruct (alter_inv _ _ _ _ _ Hy) as (x & Hx & [[-> ->]|[Hj ->]]),
      (alter_inv _ _ _ _ _ Hy') as (x' & Hx' & [[-> ->]|[Hj' ->]]); [done|..|eauto].
    + rewrite Hi in Hx. injection Hx as <-. specialize (I2 j' x' Hx' U'). lia.
    + rewrite Hi in Hx'. injection Hx' as <-. specialize (I2 j x Hx U). lia.
Qed.

Lemma tables_inv_alloc d (k : kern S) i p tk : tables_inv d k → nextpid k < 2 ^ 31 - 1 → procs k !! i = Some p → p_state p = UNUSED →
  let k' := set_kprocs (alter (alloc_init (nextpid k) tk) i) (set_nextpid (i32 (nextpid k + 1)) k) in
  tables_inv d k' ∧ lives k k' ∧ nascent k' i 0.
Proof.
  intros [I1 I2 I3] Hn Hi Hu k'. set (k1 := set_nextpid (i32 (nextpid k + 1)) k).
  assert (D : alive (p_state p) → alive (p_state (alloc_init (nextpid k) tk p))).
  { rewrite Hu. intros A. apply alive_not in A. tauto. }
  split; [split|split].
  - assert (F1 : fds_inv d k1) by (destruct I1; by split).
    assert (F : fds_inv (λ f, d f + fds_of f p - fds_of f p) k').
    { apply (fds_alter d k1 (alloc_init (nextpid k) tk) i p F1 Hi); [done | by intros [|]]. }
    destruct F as [F2 F3 F4 F5]. split; [done..|]. intros f. rewrite F5. lia.
  - by apply (pid_alloc k _ i p).
  - apply (tree_alter k1 _ i p); [exact I3 | done..|]. by intros [_ []].
  - exact (lives_trans k k1 k' (ltac:(split; eauto)) (lives_alter k1 _ i p Hi D)).
  - exists (alloc_init (nextpid k) tk p). simpl. rewrite list_lookup_alter_eq, Hi. split; [done|]. split; [done|].
    intros j _ Hj. change (p_ofile (alloc_init (nextpid k) tk p)) with (p_ofile p). revert j Hj.
    destruct I1 as [_ J2 J3 _]. rewrite Forall_lookup in J2, J3. apply closed_nascent; [by eapply J2|].
    eapply J3; [exact Hi|]. by left.
Qed.

(** A slot with nothing open and no children is given back. *)
Definition discarded (p : proc) : Prop := (p_state p = USED ∨ p_state p = ZOMBIE) ∧ closed p.

Lemma discarded_same p q : same_proc p q → discarded p → discarded q.
Proof.
  intros [_ _ E [Hs|[A _]]] [Hd Hc]; unfold discarded, closed in *; rewrite E.
  - by rewrite Hs.
  - apply alive_not in A. tauto.
Qed.

Definition erased (p q : proc) : Prop := p_state q = UNUSED ∧ p_ofile q = p_ofile p.

(** A change of a process that leaves its descriptors alone. *)
Lemma tables_inv_change d (k : kern S) g i p : tables_inv d k → procs k !! i = Some p → p_ofile (g p) = p_ofile p →
  (gone (g p) → closed p) → (p_state (g p) ≠ UNUSED → p_state p ≠ UNUSED ∧ p_pid (g p) = p_pid p) →
  (alive (p_state p) → alive (p_state (g p))) → (settled (g p) → parented k i (g p)) →
  tables_inv d (set_kprocs (alter g i) k) ∧ lives k (set_kprocs (alter g i) k).
Proof.
  intros [I1 I2 I3] Hi Eo Hg Hu Ha Hs. split; [split|].
  - assert (F : fds_inv (λ f, d f + fds_of f p - fds_of f (g p)) (set_kprocs (alter g i) k)).
    { apply fds_alter; [done..|by rewrite Eo|]. intros G. unfold closed. rewrite Eo. exact (Hg G). }
    destruct F as [F1 F2 F3 F4]. split; [done..|]. intros f. rewrite F4. unfold fds_of. rewrite Eo. lia.
  - by apply (pid_alter _ _ _ p).
  - by apply (tree_alter _ _ _ p).
  - by apply (lives_alter _ _ _ p).
Qed.

Lemma tables_inv_erase d (k : kern S) g i p : tables_inv d k → procs k !! i = Some p → discarded p → erased p (g p) →
  tables_inv d (set_kprocs (alter g i) k) ∧ lives k (set_kprocs (alter g i) k).
Proof.
  intros I Hi [Hd Hc] [Eu Eo]. apply (tables_inv_change _ _ _ _ p); try done.
  - intros A. apply alive_not in A. tauto.
  - intros [U _]. by rewrite Eu in U.
Qed.

Lemma freeproc_inv d (k : kern S) i p : tables_inv d k → procs k !! i = Some p → discarded p →
  pwp (freeproc i) k (λ _ k', tables_inv d k' ∧ lives k k').
Proof.
  intros I Hp Hd. unfold freeproc. apply pwp_bind, pwp_gets.
  assert (W : ∀ b (m : M kstate unit) k0 (Q : unit → kern S → Prop), (∀ k', quietly k0 k' → Q tt k') → pwp (when b (onmem m)) k0 Q).
  { intros [|] m k0 Q H; [|apply H, quietly_refl]. apply pwp_onmem. intros [] k'. auto. }
  apply pwp_bind, W. intros k1 Q1. apply pwp_bind, pwp_setp; [same_proc_auto|]. intros k2 Q2.
  apply pwp_bind, W. intros k3 Q3. pose proof (quietly_trans _ _ _ Q1 (quietly_trans _ _ _ Q2 Q3)) as Q.
  destruct (Forall2_lookup_l _ _ _ _ _ (qk_procs _ _ Q) Hp) as (q & Hq & E). apply pwp_modify.
  match goal with |- tables_inv d (set_kprocs (alter ?g i) k3) ∧ _ =>
    destruct (tables_inv_erase d k3 g i q (tables_inv_quietly _ _ _ Q I) Hq (discarded_same _ _ E Hd)) as [J1 J2]; [done|] end.
  split; [exact J1|]. eapply lives_trans; [by apply quietly_lives | exact J2].
Qed.

Lemma nascent_discarded d (k : kern S) i : tables_inv d k → nascent k i 0 → ∃ p, procs k !! i = Some p ∧ discarded p.
Proof.
  intros [[_ I2 _ _] _ _] (p & Hp & Hs & Hf). exists p. split; [done|]. split; [by left|].
  rewrite Forall_lookup in I2. apply nascent_closed; [by eapply I2|]. intros j. apply Hf. lia.
Qed.

Lemma allocproc_inv d (k : kern S) : tables_inv d k → nextpid k < 2 ^ 31 - 1 →
  pwp allocproc k (λ r k', tables_inv d k' ∧ lives k k' ∧ match r with Some i => nascent k' i 0 | None => True end).
Proof.
  intros I Hn. unfold allocproc. apply pwp_bind, pwp_gets.
  destruct (find_unused 0 (procs k)) as [i|] eqn:E; [|by split; [|split; [apply lives_refl|]]].
  destruct (find_unused_spec _ _ _ E) as (_ & p & Hp & Hu). rewrite Nat.sub_0_r in Hp.
  unfold allocpid. apply pwp_bind, pwp_bind, pwp_gets. apply pwp_bind, pwp_modify, pwp_ret.
  apply pwp_bind, pwp_gets. apply pwp_bind, pwp_modify.
  destruct (tables_inv_alloc d k i p (ticks k) I Hn Hp Hu) as (I1 & L1 & N1).
  set (k1 := set_kprocs _ _) in *. change (ticks (set_nextpid _ k)) with (ticks k). fold k1.
  assert (F : ∀ k2, quietly k1 k2 → pwp (freeproc i;; mret None) k2 (λ r k', tables_inv d k' ∧ lives k k' ∧
    match r with Some i => nascent k' i 0 | None => True end)).
  { intros k2 Q. pose proof (tables_inv_quietly _ _ _ Q I1) as I2. apply pwp_bind.
    destruct (nascent_discarded d k2 i I2 (nascent_quietly _ _ _ _ Q N1)) as (q & Hq & Hd).
    eapply pwp_mono; [exact (freeproc_inv d k2 i q I2 Hq Hd)|]. intros _ k' [I' L']. split; [done|]. split; [|done].
    eapply lives_trans; [exact L1|]. eapply lives_trans; [by apply quietly_lives | done]. }
  apply pwp_bind, pwp_onmem. intros tf k2 Q2. apply pwp_bind, pwp_setp; [same_proc_auto|]. intros k3 Q3.
  pose proof (quietly_trans _ _ _ Q2 Q3) as Q3'. destruct (tf =? 0); [by apply F|].
  apply pwp_bind, pwp_onmem. intros pt k4 Q4. apply pwp_bind, pwp_setp; [same_proc_auto|]. intros k5 Q5.
  pose proof (quietly_trans _ _ _ Q3' (quietly_trans _ _ _ Q4 Q5)) as Q5'. destruct (pt =? 0); [by apply F|].
  apply pwp_bind, pwp_setp; [same_proc_auto|]. intros k6 Q6. pose proof (quietly_trans _ _ _ Q5' Q6) as Q.
  split; [by eapply tables_inv_quietly|]. split; [|by eapply nascent_quietly].
  eapply lives_trans; [exact L1 | by apply quietly_lives].
Qed.

(** ** [fork] *)

Lemma dup_files_inv (k : kern S) fd fds np : (fd + length fds)%nat = Z.to_nat NOFILE → tables_inv none k → nascent k np fd →
  pwp (dup_files fd fds np) k (λ _ k', tables_inv none k' ∧ lives k k' ∧ nascent k' np (Z.to_nat NOFILE)).
Proof.
  revert fd k. induction fds as [|o fds IH]; intros fd k Hl I N; cbn [dup_files length] in *.
  - split; [done|]. split; [apply lives_refl|]. by rewrite <- Hl, Nat.add_0_r.
  - assert (N' : nascent k np (Datatypes.S fd)).
    { destruct N as (q & Hq & Hs & Hf). exists q. split; [done|]. split; [done|]. intros j Hj. apply Hf. lia. }
    destruct o as [f|]; apply pwp_bind; [|apply pwp_ret; apply IH; [lia | done..]].
    apply pwp_bind. eapply pwp_mono; [by apply filedup_inv|]. intros r k1 (-> & P1 & L1 & I1). apply pwp_modify.
    destruct N as (q & Hq & Hs & Hf). rewrite <- P1 in Hq. set (g := λ q, set_ofile (<[fd := Some f]> (p_ofile q)) q).
    assert (Hg : ¬ gone q) by (unfold gone; rewrite Hs; by intros [|]).
    pose proof (tables_inv_setfd _ k1 np q fd None (Some f) I1 Hq Hg (Hf fd (le_n _) ltac:(lia))) as I2. fold g in I2.
    set (k2 := set_kprocs (alter g np) k1) in *.
    assert (L2 : lives k1 k2) by (by apply (lives_alter k1 g np q)).
    eapply pwp_mono; [apply (IH (Datatypes.S fd) k2)|].
    + lia.
    + eapply tables_inv_ext; [|exact I2]. intros x. unfold plus, none. rewrite refers_none. lia.
    + exists (g q). simpl. rewrite list_lookup_alter_eq, Hq. split; [done|]. split; [done|]. intros j Hj Hj'.
      rewrite list_lookup_insert_ne by lia. apply Hf; lia.
    + intros _ k3 (I3 & L3 & N3). split; [done|]. split; [|done]. eauto using lives_trans.
Qed.

(** The end of [fork]: the child gets its parent and may run. *)
Lemma fork_start_inv (k : kern S) me np tks trc (pid : Z) : tables_inv none k → me = cur k → cur_alive k → nascent k np (Z.to_nat NOFILE) →
  pwp (setp np (λ q, set_tickets tks (set_trace trc (set_parent (Some me) q)));;
       setp np (set_state RUNNABLE);; mret pid) k (λ _ k', tables_inv none k' ∧ lives k k').
Proof.
  intros I -> (p & Hp & Ha) (q & Hq & Hs & _). apply pwp_bind, pwp_modify.
  set (g := λ q, set_tickets tks (set_trace trc (set_parent (Some (cur k)) q))).
  assert (NA : ¬ alive (p_state q)) by (rewrite Hs; intros A; apply alive_not in A; tauto).
  destruct (tables_inv_change none k g np q I Hq) as [I1 L1]; try done.
  { unfold gone. simpl. rewrite Hs. by intros [|]. }
  { unfold settled. simpl. rewrite Hs. by intros [_ []]. }
  set (k1 := set_kprocs (alter g np) k) in *. apply pwp_bind, pwp_modify.
  assert (Hq1 : procs k1 !! np = Some (g q)) by (simpl; by rewrite list_lookup_alter_eq, Hq).
  destruct (tables_inv_change none k1 (set_state RUNNABLE) np (g q) I1 Hq1) as [I2 L2]; try done.
  - by intros [|].
  - intros _. simpl. by rewrite Hs.
  - intros _. right. destruct (lv_alive _ _ L1 _ _ Hp Ha) as (p' & Hp' & Ha'). by exists (cur k), p'.
  - split; [done|]. by eapply lives_trans.
Qed.

Lemma fork_inv (k : kern S) : tables_inv none k → cur_alive k → nextpid k < 2 ^ 31 - 1 →
  pwp fork k (λ _ k', tables_inv none k' ∧ lives k k').
Proof.
  intros I A Hn. unfold fork. apply pwp_bind, pwp_gets. apply pwp_bind, pwp_gets.
  destruct A as (p & Hp & Ha). assert (A : cur_alive k) by (by exists p).
  assert (E : pat k (cur k) = p) by (unfold pat; by rewrite Hp). rewrite E.
  assert (Hl : length (p_ofile p) = Z.to_nat NOFILE).
  { destruct I as [[_ I2 _ _] _ _]. rewrite Forall_lookup in I2. by eapply I2. }
  apply pwp_bind. eapply pwp_mono; [exact (allocproc_inv none k I Hn)|].
  intros [np|] k1 (I1 & L1 & N1); cbv beta iota; [|by split]. pose proof (lives_cur _ _ L1 A) as A1.
  apply pwp_bind, pwp_gets. apply pwp_bind, pwp_onmem. intros c k2 Q2. destruct (c <? 0).
  { pose proof (tables_inv_quietly _ _ _ Q2 I1) as I2. apply pwp_bind.
    destruct (nascent_discarded none k2 np I2 (nascent_quietly _ _ _ _ Q2 N1)) as (q & Hq & Hd).
    eapply pwp_mono; [exact (freeproc_inv none k2 np q I2 Hq Hd)|]. intros _ k3 [I3 L3]. split; [done|].
    eapply lives_trans; [exact L1|]. eapply lives_trans; [by apply quietly_lives | done]. }
  apply pwp_bind, pwp_setp; [same_proc_auto|]. intros k3 Q3. apply pwp_bind, pwp_onmem. intros _ k4 Q4.
  apply pwp_bind, pwp_onmem. intros _ k5 Q5.
  pose proof (quietly_trans _ _ _ (quietly_trans _ _ _ Q2 Q3) (quietly_trans _ _ _ Q4 Q5)) as Q.
  pose proof (lives_trans _ _ _ L1 (quietly_lives _ _ Q)) as L5. apply pwp_bind.
  eapply pwp_mono; [apply (dup_files_inv k5 0 (p_ofile p) np); [done | by eapply tables_inv_quietly | by eapply nascent_quietly]|].
  intros _ k6 (I6 & L6 & N6). cbv beta. pose proof (lives_trans _ _ _ L5 L6) as L6'. apply pwp_bind.
  destruct (p_cwd p) as [cwd|]; [|exact Logic.I]. apply pwp_bind, pwp_onfs. intros cwd' k7 Q7.
  apply pwp_setp; [same_proc_auto|]. intros k8 Q8. apply pwp_bind, pwp_setp; [same_proc_auto|]. intros k9 Q9.
  pose proof (quietly_trans _ _ _ Q7 (quietly_trans _ _ _ Q8 Q9)) as Q'. apply pwp_bind, pwp_gets. apply pwp_bind, pwp_gets.
  pose proof (lives_trans _ _ _ L6' (quietly_lives _ _ Q')) as L9.
  eapply pwp_mono; [apply fork_start_inv; [by eapply tables_inv_quietly | symmetry; apply L9 | by eapply lives_cur | by eapply nascent_quietly]|].
  intros r k10 [I10 L10]. split; [done|]. by eapply lives_trans.
Qed.

(** ** [wait] *)

Lemma reap_inv (k : kern S) i addr p : tables_inv none k → procs k !! i = Some p → p_state p = ZOMBIE →
  pwp (reap i addr) k (λ _ k', tables_inv none k' ∧ lives k k').
Proof.
  intros I Hp Hz. unfold reap. apply pwp_bind, pwp_gets. apply pwp_bind, pwp_gets. apply pwp_bind.
  assert (F : ∀ r k1, quietly k k1 → pwp (if r <? 0 then mret (-1) else freeproc i;; mret (p_pid (pat k i))) k1
    (λ _ k', tables_inv none k' ∧ lives k k')).
  { intros r k1 Q. pose proof (tables_inv_quietly _ _ _ Q I) as I1. pose proof (quietly_lives _ _ Q) as L1.
    destruct (r <? 0); [by split|]. destruct (Forall2_lookup_l _ _ _ _ _ (qk_procs _ _ Q) Hp) as (q & Hq & E).
    apply pwp_bind. eapply pwp_mono; [apply (freeproc_inv none k1 i q I1 Hq)|].
    - apply (discarded_same p q E). split; [by right|]. destruct I as [[_ _ I3 _] _ _]. rewrite Forall_lookup in I3.
      apply (I3 i p Hp). by right.
    - intros _ k2 [I2 L2]. split; [done|]. by eapply lives_trans. }
  destruct (nonzero addr); [apply pwp_onmem; intros r k1 Q; by apply F | by apply F, quietly_refl].
Qed.

Lemma wait_safe addr : safe (S := S) (wait addr).
Proof.
  intros k I A. unfold wait. apply pwp_bind, pwp_gets. apply pwp_bind, pwp_gets. apply pwp_bind, pwp_gets.
  destruct (find_child 0 (cur k) (procs k)) as [b [i|]] eqn:E.
  - destruct (find_child_spec _ _ _ _ _ E) as (_ & p & Hp & Hz). rewrite Nat.sub_0_r in Hp. by apply (reap_inv k i addr p).
  - destruct (_ || _); [|exact Logic.I]. split; [done | apply lives_refl].
Qed.

Lemma waitx_safe addr : safe (S := S) (waitx addr).
Proof.
  intros k I A. unfold waitx. apply pwp_bind, pwp_gets. apply pwp_bind, pwp_gets. apply pwp_bind, pwp_gets.
  destruct (find_child 0 (cur k) (procs k)) as [b [i|]] eqn:E.
  - destruct (find_child_spec _ _ _ _ _ E) as (_ & p & Hp & Hz). rewrite Nat.sub_0_r in Hp.
    apply pwp_bind, pwp_gets. apply pwp_bind. eapply pwp_mono; [by apply (reap_inv k i addr p)|]. done.
  - destruct (_ || _); [|exact Logic.I]. split; [done | apply lives_refl].
Qed.

(** ** [exit] *)

(** The running process has closed the descriptors below [fd]; the others are [fds]. *)
Definition closing (k : kern S) (fd : nat) (fds : list (option nat)) : Prop :=
  ∃ p, procs k !! cur k = Some p ∧ alive (p_state p) ∧ p_ofile p = replicate fd None ++ fds.

Lemma closing_same k k' fd fds : same_procs (procs k) (procs k') → cur k' = cur k → closing k fd fds → closing k' fd fds.
Proof.
  intros P E (p & Hp & Ha & Hf). destruct (Forall2_lookup_l _ _ _ _ _ P Hp) as (q & Hq & Hs).
  exists q. rewrite E, (sp_ofile _ _ Hs). eauto using same_alive.
Qed.

Lemma closing_next (k : kern S) fd fds : closing k fd (None :: fds) → closing k (Datatypes.S fd) fds.
Proof.
  intros (p & Hp & Ha & Hf). exists p. split; [done|]. split; [done|]. rewrite Hf.
  by rewrite replicate_S_end, <- app_assoc.
Qed.

Lemma close_files_inv (k : kern S) fd fds : tables_inv none k → closing k fd fds →
  pwp (close_files fd fds) k (λ _ k', tables_inv none k' ∧ lives k k' ∧ closing k' (fd + length fds) []).
Proof.
  revert fd k. induction fds as [|o fds IH]; intros fd k I C; cbn [close_files length].
  - split; [done|]. split; [apply lives_refl|]. by rewrite Nat.add_0_r.
  - rewrite Nat.add_succ_r, <- Nat.add_succ_l.
    destruct o as [f|]; apply pwp_bind; [|apply pwp_ret; apply IH; [done | by apply closing_next]].
    apply pwp_bind. assert (A : cur_alive k) by (destruct C as (p & Hp & Ha & _); by exists p).
    eapply pwp_mono; [exact (fileclose_inv _ _ f I A)|]. intros _ k1 (P1 & L1 & I1). cbv beta.
    destruct (closing_same _ _ _ _ P1 (lv_cur _ _ L1) C) as (p & Hp & Ha & Hf).
    assert (Hfd : p_ofile p !! fd = Some (Some f)).
    { rewrite Hf, lookup_app_r by (by rewrite length_replicate). by rewrite length_replicate, Nat.sub_diag. }
    eapply pwp_mono; [exact (set_fd_inv _ k1 fd (Some f) None p I1 Hp Ha Hfd)|]. intros _ k2 (L2 & I2 & q & Hq & Ho). cbv beta.
    eapply pwp_mono; [apply (IH (Datatypes.S fd) k2)|].
    + eapply tables_inv_ext; [|exact I2]. intros x. unfold minus, none. rewrite refers_none. lia.
    + apply closing_next. destruct (lv_alive _ _ L2 _ _ Hp Ha) as (q' & Hq' & Ha'). exists q. split; [done|].
      rewrite <- (lv_cur _ _ L2), Hq in Hq'. injection Hq' as <-. split; [done|]. rewrite Ho, Hf.
      rewrite insert_app_r_alt by (by rewrite length_replicate). by rewrite length_replicate, Nat.sub_diag.
    + intros _ k3 (I3 & L3 & C3). split; [done|]. split; [|done]. eauto using lives_trans.
Qed.

(** The children of the slots below [n] are not those of [me]. *)
Definition childless (k : kern S) (me n : nat) : Prop :=
  ∀ j p, (j < n)%nat → procs k !! j = Some p → p_parent p ≠ Some me.

Lemma childless_same k k' me n : same_procs (procs k) (procs k') → childless k me n → childless k' me n.
Proof.
  intros P C j q Hj Hq. destruct (same_at _ _ _ _ P Hq) as (p & Hp & E). rewrite (sp_parent _ _ E). by eapply C.
Qed.

Lemma reparent_inv (k : kern S) i n me fds : tables_inv none k → init_ok k → initproc k ≠ Some me → closing k 0 fds →
  childless k me i →
  pwp (reparent i n me) k (λ _ k', tables_inv none k' ∧ lives k k' ∧ closing k' 0 fds ∧ childless k' me (i + n)).
Proof.
  revert i k. induction n as [|n IH]; intros i k I N Hm C Cl; cbn [reparent].
  - split; [done|]. split; [apply lives_refl|]. split; [done|]. by rewrite Nat.add_0_r.
  - rewrite Nat.add_succ_r, <- Nat.add_succ_l. apply pwp_bind, pwp_gets. apply pwp_bind, pwp_gets. apply pwp_bind.
    assert (R : ∀ k', tables_inv none k' → lives k k' → closing k' 0 fds → childless k' me (Datatypes.S i) →
      pwp (reparent (Datatypes.S i) n me) k' (λ _ k'', tables_inv none k'' ∧ lives k k'' ∧ closing k'' 0 fds ∧
        childless k'' me (Datatypes.S i + n))).
    { intros k' I' L' C' Cl'. eapply pwp_mono; [apply (IH (Datatypes.S i) k'); try done|].
      - by eapply lives_init.
      - by rewrite (lv_init _ _ L').
      - intros _ k'' (? & ? & ?). split; [done|]. split; [by eapply lives_trans | done]. }
    destruct (bool_decide (p_parent (pat k i) = Some me)) eqn:B; cbn [when].
    + apply bool_decide_eq_true in B. destruct N as (m & r & Hi & Hr & Hra). rewrite Hi.
      assert (Hx : ∃ x, procs k !! i = Some x) by (unfold pat in B; destruct (procs k !! i); [eauto | done]).
      destruct Hx as [x Hx]. apply pwp_bind, pwp_modify.
      destruct (tables_inv_change none k (set_parent (Some m)) i x I Hx) as [I1 L1]; try done.
      { intros G. destruct I as [[_ _ I3 _] _ _]. rewrite Forall_lookup in I3. by apply (I3 i x Hx). }
      { intros _. right. by exists m, r. }
      set (k1 := set_kprocs (alter (set_parent (Some m)) i) k) in *.
      assert (C1 : closing k1 0 fds).
      { destruct C as (p & Hp & Ha & Hf). destruct (lv_alive _ _ L1 _ _ Hp Ha) as (q & Hq & Hqa). exists q.
        split; [done|]. split; [done|]. rewrite <- Hf. destruct (alter_inv _ _ _ _ _ Hq) as (p' & Hp' & Hc).
        rewrite Hp in Hp'. injection Hp' as <-. by destruct Hc as [[_ ->]|[_ ->]]. }
      apply pwp_calm; [auto with calm | by destruct C1 as (p & ? & ? & _); exists p|]. intros _ k2 Q.
      pose proof (quietly_lives _ _ Q) as L2. apply R.
      * by eapply tables_inv_quietly.
      * by eapply lives_trans.
      * apply (closing_same k1); [apply Q | exact (qk_cur _ _ Q) | done].
      * apply (childless_same k1); [apply Q|]. intros j p Hj Hp.
        destruct (alter_inv _ _ _ _ _ Hp) as (p' & Hp' & [[-> ->]|[Hne ->]]).
        -- simpl. congruence.
        -- apply (Cl j); [lia | done].
    + apply pwp_ret, R; [done | apply lives_refl | done|]. intros j p Hj Hp. apply bool_decide_eq_false in B.
      destruct (decide (j = i)) as [->|]; [|apply (Cl j); [lia | done]]. unfold pat in B. by rewrite Hp in B.
Qed.

(** The last step: nothing is open and nobody is left behind. *)
Lemma tables_inv_zombie (k : kern S) g p : tables_inv none k → init_ok k → initproc k ≠ Some (cur k) → procs k !! cur k = Some p →
  alive (p_state p) → closed p → childless k (cur k) (Z.to_nat NPROC) →
  p_state (g p) = ZOMBIE → p_ofile (g p) = p_ofile p → p_pid (g p) = p_pid p → p_parent (g p) = p_parent p →
  tables_inv none (set_kprocs (alter g (cur k)) k) ∧ init_ok (set_kprocs (alter g (cur k)) k).
Proof.
  intros [I1 I2 I3] (m & r & Hm & Hr & Hra) Hi Hp Ha Hc Cl Ez Eo Ep Epar.
  assert (K : ∀ j x, j ≠ cur k → procs k !! j = Some x → alter g (cur k) (procs k) !! j = Some x).
  { intros j x Hj Hx. by rewrite list_lookup_alter_ne by done. }
  split; [split|].
  - assert (F : fds_inv (λ f, none f + fds_of f p - fds_of f (g p)) (set_kprocs (alter g (cur k)) k)).
    { apply fds_alter; [done..|by rewrite Eo|]. intros _. unfold closed. by rewrite Eo. }
    destruct F as [F1 F2 F3 F4]. split; [done..|]. intros f. rewrite F4. unfold fds_of. rewrite Eo. lia.
  - apply (pid_alter _ _ _ p); [done..|]. apply alive_not in Ha. rewrite Ez, Ep. tauto.
  - intros j y Hy Hs. assert (X : ∃ x, procs k !! j = Some x ∧ settled x ∧ p_parent y = p_parent x).
    { destruct (alter_inv _ _ _ _ _ Hy) as (x & Hx & [[-> ->]|[_ ->]]); [|eauto]. rewrite Hp in Hx. injection Hx as <-.
      exists p. split; [done|]. split; [|done]. apply alive_not in Ha. split; tauto. }
    destruct X as (x & Hx & Hsx & Ex). destruct (I3 j x Hx Hsx) as [H|(l & q & Hl & Hq & Hqa)]; [by left|].
    right. exists l, q. rewrite Ex. split; [done|]. split; [|done]. apply K; [|done]. intros ->.
    apply (Cl j x); [|done..]. rewrite <- (fi_len _ _ I1). by eapply lookup_lt_Some.
  - exists m, r. split; [done|]. split; [|done]. apply K; [|done]. intros ->. done.
Qed.

Lemma exit_inv (k : kern S) status : tables_inv none k → init_ok k → cur_alive k →
  pwp (exit status) k (λ _ k', tables_inv none k' ∧ init_ok k').
Proof.
  intros I N A. unfold exit. apply pwp_bind, pwp_gets. apply pwp_bind, pwp_gets.
  destruct (bool_decide (initproc k = Some (cur k))) eqn:B; [exact Logic.I|]. apply bool_decide_eq_false in B.
  apply pwp_bind, pwp_gets. destruct A as (p & Hp & Ha).
  assert (E : pat k (cur k) = p) by (unfold pat; by rewrite Hp). rewrite E. apply pwp_bind.
  eapply pwp_mono; [apply (close_files_inv k 0 (p_ofile p) I); by exists p|]. intros _ k1 (I1 & L1 & C1). cbv beta.
  assert (A1 : cur_alive k1) by (destruct C1 as (q & ? & ? & _); by exists q).
  apply pwp_bind, pwp_calm; [destruct (p_cwd p); unfold begin, finish; calm_auto | done|]. intros _ k2 Q2.
  apply pwp_bind, pwp_calm; [calm_auto | by eapply quietly_alive|]. intros _ k3 Q3. apply pwp_bind, pwp_gets.
  pose proof (quietly_trans _ _ _ Q2 Q3) as Q. pose proof (tables_inv_quietly _ _ _ Q I1) as I3.
  pose proof (lives_trans _ _ _ L1 (quietly_lives _ _ Q)) as L3.
  rewrite (fi_len _ _ (ti_fds _ _ I3)). apply pwp_bind.
  set (fds := replicate (length (p_ofile p)) (@None nat)).
  eapply pwp_mono; [apply (reparent_inv k3 0 (Z.to_nat NPROC) (cur k) fds I3)|].
  - by eapply lives_init.
  - by rewrite (lv_init _ _ L3).
  - apply (closing_same k1); [apply Q | exact (qk_cur _ _ Q)|]. destruct C1 as (q & Hq & Hqa & Hf). exists q.
    rewrite Nat.add_0_l, app_nil_r in Hf. done.
  - intros j x Hj. lia.
  - intros _ k4 (I4 & L4 & C4 & Cl4). cbv beta. pose proof (lives_trans _ _ _ L3 L4) as L4'.
    assert (A4 : cur_alive k4) by (destruct C4 as (q & ? & ? & _); by exists q).
    apply pwp_bind, pwp_gets. apply pwp_bind, pwp_calm; [destruct (p_parent _); auto with calm | done|]. intros _ k5 Q5.
    apply pwp_bind, pwp_gets. destruct (closing_same k4 k5 _ _ (qk_procs _ _ Q5) (qk_cur _ _ Q5) C4) as (q & Hq & Hqa & Hf).
    pose proof (lives_trans _ _ _ L4' (quietly_lives _ _ Q5)) as L5.
    apply pwp_bind, pwp_gets. apply pwp_modify. apply (tables_inv_zombie k5 _ q); try done.
    + by eapply tables_inv_quietly.
    + by eapply lives_init.
    + by rewrite (lv_init _ _ L5), (lv_cur _ _ L5).
    + unfold closed. rewrite Hf. by apply Forall_replicate.
    + rewrite (lv_cur _ _ L5). exact (childless_same _ _ _ _ (qk_procs _ _ Q5) Cl4).
Qed.
End ProcInv.
