(* ===== verification/KernSpec.v ===== *)
(** * The kernel as a whole

    Starting from [userinit], through any traps of any processes and any decisions
    of the scheduler: reference counts stay exact, pids stay distinct and every
    process has somebody to wait for it. *)

From stdpp Require Import base numbers list strings relations.
From S2P Require Import Prelude Str Layout Kalloc Vm ProcState Sched Pipe Bio Block Fs Dir FsFile Printf Console Kern File Proc.
From S2P Require Import Sysproc Sysfile Exec Syscall Trap KernCalm KernInv FileInv ProcInv.
Local Open Scope Z_scope.

Section KernSpec.
Context {S : Type} `{BO : BlockOps S} `{L : Linker} `{Y : Symbols} (pol : policy) (env : environment).

(** ** Steps *)

Definition set_cur (i : nat) (k : kern S) : kern S :=
  Kern (fs k) (procs k) (files k) (pipes k) (cons k) (tx k) (nextpid k) (ticks k) (initproc k) i.

(** Traps from user space and from the kernel, on behalf of process [i]; what the
    scheduler, [sleep] and the upkeep of the queues do to a process; and user code,
    which may leave anything in memory. *)
Inductive kstep (k : kern S) : kern S → Prop :=
| ks_user i p h r t :
    procs k !! i = Some p → p_state p = RUNNING → nextpid k < 2 ^ 31 - 1 →
    usertrap pol env (TState (set_cur i k) h) = Ret (r, t) → kstep k (tk t)
| ks_kernel i p h r t :
    procs k !! i = Some p → p_state p = RUNNING →
    kerneltrap pol (TState (set_cur i k) h) = Ret (r, t) → kstep k (tk t)
| ks_run i p q :
    procs k !! i = Some p → run_chosen pol (ticks k) p = Some q →
    kstep k (set_kprocs (alter (λ _, q) i) k)
| ks_sleep i p c :
    procs k !! i = Some p → p_state p = RUNNING →
    kstep k (set_kprocs (alter (sleep1 c (ticks k)) i) k)
| ks_awake i : kstep k (set_kprocs (alter sleep2 i) k)
| ks_maintain : pol = MLFQ → kstep k (set_kprocs (mlfq_maintain (ticks k)) k)
| ks_memory m : kstep k (set_kmem m k).

(** The tables when [main] calls [userinit]. *)
Record fresh (k : kern S) : Prop := Fresh {
  fr_len : length (procs k) = Z.to_nat NPROC;
  fr_procs : Forall (λ p, p_state p = UNUSED ∧ p_ofile p = replicate (Z.to_nat NOFILE) None) (procs k);
  fr_files : Forall (λ f, f_ref f = 0) (files k);
  fr_next : nextpid k = 1;
  fr_init : initproc k = None;
}.

Definition reaches (k0 k : kern S) : Prop := ∃ k1, userinit k0 = Ret (tt, k1) ∧ rtc kstep k1 k.

(** ** System calls *)

Definition call_ok (f : M (kern S) (option Z)) : Prop := ∀ k,
  tables_inv none k → init_ok k → cur_alive k → nextpid k < 2 ^ 31 - 1 →
  pwp f k (λ r k', tables_inv none k' ∧ init_ok k' ∧ (r ≠ None → lives k k')).

Lemma safe_call f : safe f → call_ok f.
Proof.
  intros H k I N A _. eapply pwp_mono; [by apply H|]. intros r k' [I' L']. split; [done|]. split; [|done].
  by eapply lives_init.
Qed.

Lemma calm_call f : calm f → call_ok f.
Proof. intros H. by apply safe_call, safe_calm. Qed.

Lemma safe_then {A} (m : M (kern S) A) f : safe m → (∀ a, calm (f a)) → call_ok (m ≫= f).
Proof. intros Hm Hf. apply safe_call, safe_bind; [done|]. intros a. by apply safe_calm. Qed.

Lemma sys_fork_ok : call_ok sys_fork.
Proof.
  intros k I N A Hn. apply pwp_bind. eapply pwp_mono; [exact (fork_inv k I A Hn)|]. intros r k' [I' L'].
  split; [done|]. split; [by eapply lives_init | done].
Qed.

Lemma sys_exit_ok : call_ok sys_exit.
Proof.
  intros k I N A _. apply pwp_bind, pwp_calm; [auto with calm | done|]. intros n k1 Q. apply pwp_bind.
  pose proof (quietly_lives _ _ Q) as L1.
  eapply pwp_mono; [apply exit_inv; [by eapply tables_inv_quietly | by eapply lives_init | by eapply quietly_alive]|].
  intros _ k2 [I2 N2]. by split; [|split].
Qed.

Lemma sys_wait_ok : call_ok sys_wait.
Proof.
  apply safe_call, safe_bind; [apply safe_calm; auto with calm|]. intros a. apply safe_bind; [apply wait_safe|].
  intros r. apply safe_calm. auto with calm.
Qed.

Lemma sys_waitx_ok junk : call_ok (sys_waitx junk).
Proof.
  unfold sys_waitx. apply safe_call. do 3 (apply safe_bind; [apply safe_calm; auto with calm|]; intros ?).
  apply safe_bind; [apply waitx_safe|]. intros r. apply safe_calm. unfold myproc. calm_auto.
Qed.

Lemma syscalls_ok num f : syscalls pol env num = Some f → call_ok f.
Proof.
  unfold syscalls. destruct (num <? 1); [done|]. intros H.
  destruct (calm_sys_names (S := S)) as (N1 & N2 & N3 & N4 & N5).
  destruct (calm_sys_rw (S := S)) as (R1 & R2 & R3 & R4).
  destruct (calm_sys_proc (S := S) pol) as (P1 & P2 & P3 & P4 & P5 & P6 & P7 & P8 & P9).
  pose proof (calm_sys_kill (S := S)) as K.
  match type of H with ?l !! _ = _ => assert (F : Forall call_ok l) end.
  { repeat apply Forall_cons_2; first [ apply Forall_nil_2 | apply calm_call; assumption | apply calm_call, R3 | apply sys_fork_ok | apply sys_exit_ok
      | apply sys_wait_ok | apply sys_waitx_ok | apply safe_call, sys_pipe_safe | apply safe_call, sys_open_safe
      | apply safe_call, sys_dup_safe | apply safe_call, sys_close_safe ]. }
  rewrite Forall_lookup in F. by eapply F.
Qed.

Lemma calm_fetch_args n i : calm (S := S) (fetch_args n i).
Proof. revert i. induction n as [|n IH]; intros i; cbn [fetch_args]; calm_auto. Qed.

Lemma syscall_ok k : tables_inv none k → init_ok k → cur_alive k → nextpid k < 2 ^ 31 - 1 →
  pwp (syscall pol env) k (λ r k', tables_inv none k' ∧ init_ok k' ∧ (r = true → lives k k')).
Proof.
  intros I N A Hn. unfold syscall. apply pwp_bind, pwp_gets. apply pwp_bind, pwp_calm; [auto with calm | done|].
  intros a7 k1 Q1. apply pwp_bind, pwp_calm; [apply calm_fetch_args | by eapply quietly_alive|]. intros args k2 Q2.
  pose proof (quietly_trans _ _ _ Q1 Q2) as Q. pose proof (tables_inv_quietly _ _ _ Q I) as I2.
  pose proof (quietly_lives _ _ Q) as L2. pose proof (quietly_alive _ _ Q A) as A2.
  destruct (syscalls pol env (i32 a7)) as [f|] eqn:E.
  - apply pwp_bind. eapply pwp_mono; [apply (syscalls_ok _ _ E); [done | by eapply lives_init | done | by rewrite (qk_next _ _ Q)]|].
    intros [v|] k3 (I3 & N3 & L3); cbv beta iota; [|by split; [|split]]. specialize (L3 ltac:(done)).
    apply pwp_calm; [calm_auto | by eapply lives_cur|]. intros b k4 Q4.
    pose proof (quietly_lives _ _ Q4) as L4. split; [by eapply tables_inv_quietly|]. split; [by eapply lives_init|].
    intros _. eapply lives_trans; [exact L2|]. by eapply lives_trans.
  - apply pwp_calm; [calm_auto | done|]. intros b k3 Q3. pose proof (quietly_lives _ _ Q3) as L3.
    pose proof (lives_trans _ _ _ L2 L3) as L'. split; [by eapply tables_inv_quietly|]. split; [by eapply lives_init | done].
Qed.

(** ** Traps *)

Definition hcalm {A} (m : M (tstate S) A) : Prop :=
  ∀ t, cur_alive (tk t) → pwp m t (λ _ t', quietly (tk t) (tk t')).

Lemma hcalm_ret {A} (a : A) : hcalm (mret a).
Proof. intros t _. apply quietly_refl. Qed.

Lemma hcalm_reg {A} (f : hart → A) : hcalm (reg f).
Proof. intros t _. apply quietly_refl. Qed.

Lemma hcalm_seth f : hcalm (seth f).
Proof. intros t _. apply quietly_refl. Qed.

Lemma hcalm_onk {A} (m : M (kern S) A) : calm m → hcalm (onk m).
Proof. intros H t A0. apply pwp_zoom. by apply H. Qed.

Lemma hcalm_panic {A} e : hcalm (A := A) (panic e).
Proof. by intros t _. Qed.

Lemma hcalm_bind {A B} (m : M (tstate S) A) (f : A → M (tstate S) B) : hcalm m → (∀ a, hcalm (f a)) → hcalm (m ≫= f).
Proof.
  intros Hm Hf t A0. apply pwp_bind. eapply pwp_mono; [by apply Hm|]. intros a t1 H1. cbv beta.
  eapply pwp_mono; [by apply Hf, (quietly_alive (tk t))|]. intros b t2 H2. exact (quietly_trans _ _ _ H1 H2).
Qed.

Lemma pwp_hcalm {A} (m : M (tstate S) A) t (Q : A → tstate S → Prop) :
  hcalm m → cur_alive (tk t) → (∀ a t', quietly (tk t) (tk t') → Q a t') → pwp m t Q.
Proof. intros Hm Ha HQ. eapply pwp_mono; [by apply Hm|]. exact HQ. Qed.

#[local] Hint Resolve hcalm_panic hcalm_ret hcalm_reg hcalm_seth hcalm_onk : calm.

Ltac hcalm_auto :=
  repeat first
    [ solve [auto 3 with calm nocore]
    | solve [apply hcalm_onk; unfold myproc; calm_auto]
    | apply hcalm_bind; [|intros ?]
    | progress unfold when
    | match goal with |- hcalm (match ?x with _ => _ end) => destruct x end ].

Lemma calm_clockintr : calm (S := S) clockintr.
Proof.
  unfold clockintr. apply calm_bind.
  - apply calm_modify. intros k _. split; try done. apply same_procs_refl.
  - intros _. apply calm_bind; [|intros; auto with calm]. apply calm_modify. intros k _. apply quietly_procs, update_time_same.
Qed.

Lemma calm_cow_fault v : calm (S := S) (cow_fault v).
Proof. unfold cow_fault, myproc. calm_auto. Qed.

Lemma calm_alarm : calm (S := S) alarm.
Proof. unfold alarm, myproc. calm_auto. Qed.
#[local] Hint Resolve calm_clockintr calm_cow_fault calm_alarm : calm.

Lemma hcalm_devintr : hcalm (devintr pol).
Proof. unfold devintr. hcalm_auto. Qed.

Lemma hcalm_usertrapret : hcalm usertrapret.
Proof. unfold usertrapret. hcalm_auto. Qed.
#[local] Hint Resolve hcalm_devintr hcalm_usertrapret : calm.

(** What a trap establishes. *)
Definition sound (k : kern S) : Prop := tables_inv none k ∧ init_ok k.

Lemma sound_quietly k k' : quietly k k' → sound k → sound k'.
Proof. intros Q [I N]. split; [by eapply tables_inv_quietly | eapply lives_init; [by apply quietly_lives | done]]. Qed.

Lemma exit_ok t : sound (tk t) → cur_alive (tk t) →
  pwp (onk (exit (-1));; mret None) t (λ (_ : option Z) t', sound (tk t')).
Proof.
  intros [I N] A. apply pwp_bind, pwp_zoom. eapply pwp_mono; [exact (exit_inv (tk t) (-1) I N A)|].
  intros _ k' [I' N']. by split.
Qed.

Lemma usertrap_end_ok d t : sound (tk t) → cur_alive (tk t) →
  pwp (usertrap_end pol d) t (λ _ t', sound (tk t')).
Proof.
  intros Hs A. unfold usertrap_end. apply pwp_bind, pwp_hcalm; [auto with calm | done|]. intros p t1 Q1.
  pose proof (sound_quietly _ _ Q1 Hs) as S1. pose proof (quietly_alive _ _ Q1 A) as A1.
  destruct (nonzero (killed p)); [by apply exit_ok|].
  apply pwp_hcalm; [|done|].
  - apply hcalm_bind; [unfold when; hcalm_auto|]. intros _. hcalm_auto.
  - intros r t2 Q2. by eapply sound_quietly.
Qed.

Lemma usertrap_ok t : sound (tk t) → cur_alive (tk t) → nextpid (tk t) < 2 ^ 31 - 1 →
  pwp (usertrap pol env) t (λ _ t', sound (tk t')).
Proof.
  intros Hs A Hn. unfold usertrap. apply pwp_bind, pwp_gets. destruct (nonzero _); [exact Logic.I|].
  apply pwp_bind, pwp_modify. apply pwp_bind, pwp_zoom, pwp_gets. apply pwp_bind, pwp_gets. apply pwp_bind.
  apply pwp_hcalm; [auto with calm | done|]. intros _ t1 Q1. apply pwp_bind, pwp_gets.
  pose proof (sound_quietly _ _ Q1 Hs) as S1. pose proof (quietly_alive _ _ Q1 A) as A1.
  destruct (_ =? 8); [|destruct (_ =? 15)].
  - destruct (nonzero _); [by apply exit_ok|]. apply pwp_bind, pwp_hcalm; [auto with calm | done|]. intros _ t2 Q2.
    apply pwp_bind, pwp_modify. apply pwp_bind, pwp_zoom. destruct (sound_quietly _ _ Q2 S1) as [I2 N2].
    eapply pwp_mono; [apply syscall_ok; [done | done | by apply (quietly_alive (tk t1)) |]|].
    + simpl. by rewrite (qk_next _ _ Q2), (qk_next _ _ Q1).
    + intros [|] k3 (I3 & N3 & L3); [|by split]. apply usertrap_end_ok; [by split|].
      apply (lives_cur (tk t2)); [by apply L3 | by apply (quietly_alive (tk t1))].
  - apply pwp_bind, pwp_gets. apply pwp_bind, pwp_hcalm; [auto with calm | done|]. intros ok t2 Q2.
    pose proof (sound_quietly _ _ Q2 S1) as S2. pose proof (quietly_alive _ _ Q2 A1) as A2.
    destruct ok; [by apply usertrap_end_ok|].
    apply pwp_bind, pwp_hcalm; [apply hcalm_onk, calm_setmy; same_proc_auto | done|]. intros _ t3 Q3.
    apply exit_ok; [by eapply sound_quietly | by eapply quietly_alive].
  - apply pwp_bind, pwp_hcalm; [auto with calm | done|]. intros d t2 Q2.
    apply pwp_bind, pwp_hcalm; [hcalm_auto | by eapply quietly_alive|]. intros _ t3 Q3.
    pose proof (quietly_trans _ _ _ Q2 Q3) as Q. apply usertrap_end_ok; [by eapply sound_quietly | by eapply quietly_alive].
Qed.

Lemma hcalm_kerneltrap : hcalm (kerneltrap pol).
Proof. unfold kerneltrap. hcalm_auto. Qed.

(** ** Every state *)

Lemma maintain_same tk t : same_procs t (mlfq_maintain tk t).
Proof.
  unfold mlfq_maintain, age. rewrite map_map. apply same_procs_fmap. intros p. split.
  1-3: unfold age1, demote1; repeat case_match; reflexivity.
  left. apply maintain1_running.
Qed.

Lemma quietly_alter (k : kern S) g i p : procs k !! i = Some p → same_proc p (g p) → quietly k (set_kprocs (alter g i) k).
Proof.
  intros Hp E. split; try done. apply Forall2_same_length_lookup. split; [simpl; by rewrite length_alter|].
  intros j x y Hx Hy. destruct (alter_inv _ _ _ _ _ Hy) as (x' & Hx' & [[-> ->]|[_ ->]]); rewrite Hx in Hx'; injection Hx' as <-.
  - rewrite Hp in Hx. by injection Hx as <-.
  - apply same_proc_refl.
Qed.

Lemma run_chosen_same tk p q : run_chosen pol tk p = Some q → same_proc p q.
Proof.
  intros H. destruct (run_chosen_spec pol tk p q H) as [H1 H2]. unfold run_chosen in H.
  destruct (has_state RUNNABLE p); [|done]. injection H as <-.
  assert (A : alive (p_state p) ∧ alive RUNNING) by (rewrite H1; unfold alive; auto).
  split; [..|right; by rewrite H2]; unfold dispatch; destruct pol; try done; by destruct (_ =? 4).
Qed.

Lemma kstep_sound k k' : kstep k k' → sound k → sound k'.
Proof.
  intros H Hs. assert (C : ∀ i, sound (set_cur i k)).
  { intros i. destruct Hs as [[[] [] ?] ?]. by split. }
  destruct H as [i p h r t Hp Hr Hn E|i p h r t Hp Hr E|i p q Hp E|i p c Hp Hr|i| ->|m].
  - refine (pwp_elim _ _ _ _ (λ _ t', sound (tk t')) _ E). apply usertrap_ok; [apply C | | done].
    exists p. split; [done|]. rewrite Hr. unfold alive. auto.
  - refine (pwp_elim _ _ _ _ (λ _ t', sound (tk t')) _ E). apply pwp_hcalm; [apply hcalm_kerneltrap| |].
    + exists p. split; [done|]. rewrite Hr. unfold alive. auto.
    + intros _ t' Q. exact (sound_quietly _ _ Q (C i)).
  - refine (sound_quietly _ _ (quietly_alter _ _ _ p Hp _) Hs). by eapply run_chosen_same.
  - refine (sound_quietly _ _ (quietly_alter _ _ _ p Hp _) Hs). split; try done. right. rewrite Hr. unfold alive. simpl. auto.
  - refine (sound_quietly _ _ (quietly_procs _ _ _) Hs). intros t. apply same_procs_alter. same_proc_auto.
  - refine (sound_quietly _ _ (quietly_procs _ _ _) Hs). intros t. apply maintain_same.
  - refine (sound_quietly k _ _ Hs). split; try done. apply same_procs_refl.
Qed.

(** ** The first process *)

Lemma fresh_inv k : fresh k → tables_inv none k.
Proof.
  intros [F1 F2 F3 F4 F5]. rewrite Forall_lookup in F2. rewrite Forall_lookup in F3. split; [split|split|].
  - done.
  - apply Forall_lookup. intros i p Hp. destruct (F2 i p Hp) as [_ ->]. apply length_replicate.
  - apply Forall_lookup. intros i p Hp _. destruct (F2 i p Hp) as [_ E]. unfold closed. rewrite E. by apply Forall_replicate.
  - intros f. assert (R : refs_in (procs k) f = 0).
    { unfold refs_in. assert (G : ∀ t, Forall (λ p, fds_of f p = 0) t → zsum (fds_of f) t = 0).
      { induction 1 as [|x l H _ IH]; simpl; lia. }
      apply G, Forall_lookup. intros i p Hp. apply fds_of_closed. destruct (F2 i p Hp) as [_ E].
      unfold closed. rewrite E. by apply Forall_replicate. }
    rewrite R. unfold fat, none. destruct (files k !! f) as [x|] eqn:E; [|done]. simpl. rewrite (F3 f x E). done.
  - rewrite F4. lia.
  - intros i p Hp U. destruct (F2 i p Hp) as [U' _]. done.
  - intros i j p q Hp _ U. destruct (F2 i p Hp) as [U' _]. done.
  - intros i p Hp [U _]. destruct (F2 i p Hp) as [U' _]. done.
Qed.

Lemma userinit_sound k : fresh k → pwp userinit k (λ _ k', sound k').
Proof.
  intros F. pose proof (fresh_inv k F) as I. unfold userinit. apply pwp_bind.
  eapply pwp_mono; [apply (allocproc_inv none k I); rewrite (fr_next _ F); lia|].
  intros r k1 (I1 & L1 & N1). cbv beta. apply pwp_bind, pwp_modify. destruct r as [i|]; [|exact Logic.I].
  set (k2 := set_initproc (Some i) k1). assert (I2 : tables_inv none k2).
  { destruct I1 as [[] [] T]. split; [by split | by split|]. intros j p Hp Hs. destruct (T j p Hp Hs) as [H|H]; [|by right].
    rewrite (lv_init _ _ L1), (fr_init _ F) in H. done. }
  apply pwp_bind, pwp_gets. apply pwp_bind, pwp_onmem. intros _ k3 Q3. apply pwp_bind, pwp_setp; [same_proc_auto|].
  intros k4 Q4. apply pwp_bind, pwp_onmem. intros _ k5 Q5. apply pwp_bind, pwp_onmem. intros _ k6 Q6.
  apply pwp_bind, pwp_setp; [same_proc_auto|]. intros k7 Q7. apply pwp_bind, pwp_onfs. intros cwd k8 Q8.
  apply pwp_bind, pwp_setp; [same_proc_auto|]. intros k9 Q9.
  pose proof (quietly_trans _ _ _ (quietly_trans _ _ _ Q3 Q4) (quietly_trans _ _ _ Q5 Q6)) as Qa.
  pose proof (quietly_trans _ _ _ Qa (quietly_trans _ _ _ Q7 (quietly_trans _ _ _ Q8 Q9))) as Q.
  destruct (nascent_quietly k2 k9 i 0 Q N1) as (p & Hp & Hu & _). apply pwp_modify.
  destruct (tables_inv_change none k9 (set_state RUNNABLE) i p (tables_inv_quietly _ _ _ Q I2) Hp) as [I10 L10]; try done.
  - by intros [|].
  - by rewrite Hu.
  - intros _. unfold alive. simpl. auto.
  - intros _. left. exact (qk_init _ _ Q).
  - split; [done|]. exists i, (set_state RUNNABLE p). simpl. rewrite (qk_init _ _ Q), list_lookup_alter_eq, Hp.
    split; [done|]. split; [done|]. unfold alive. auto.
Qed.

Lemma reaches_sound k0 k : fresh k0 → reaches k0 k → sound k.
Proof.
  intros F (k1 & E & R). pose proof (pwp_elim _ _ _ _ _ (userinit_sound k0 F) E) as H. cbv beta in H. clear E.
  induction R as [|x y z Hxy _ IH]; [done|]. apply IH. by eapply kstep_sound.
Qed.
End KernSpec.
