(* ===== verification/KernRun.v ===== *)
(** * Running the kernel

    The theorems about every state the kernel reaches, and a run of it: the first
    process grows, opens a pipe and forks, through [usertrap] and the system call
    table. *)

From stdpp Require Import base numbers list strings relations.
From S2P Require Import Prelude Str Layout Kalloc Vm Demo ProcState Sched Pipe Bio BioSpec Log Block Fs Dir FsFile FsSpec.
From S2P Require Import Printf Console Kern File Proc Sysproc Sysfile Exec Syscall Trap.
From S2P Require Import KernCalm KernInv FileInv ProcInv KernSpec.
Local Open Scope Z_scope.

(** ** A machine and its first process *)

#[local] Instance run_symbols : Symbols := {|
  sym_forkret := KERNBASE + 16;
  sym_usertrap := KERNBASE + 32;
  sym_kernelvec := KERNBASE + 48;
  sym_uservec := KERNBASE;
  sym_userret := KERNBASE + 8;
|}.

(** The tables at the call of [userinit]. *)
Definition run_k0 : kern lstate :=
  Kern (FState (LState (boot_cache fs_disk) open_log) demo_sb [demo_inode; inode0] small_boot 0 0 0)
    (procinit (replicate (Z.to_nat NPROC) proc_zero)) (replicate 100 file_zero) (λ _, Pipe (λ _, 0) 0 0 0 0)
    (Console (λ _, 0) 0 0 0) (Uart (λ _, 0) 0 0 4 [] []) 1 0 None 0.

Definition run_k1 : kern lstate := run_state (userinit run_k0) run_k0.

(** The scheduler runs it. *)
Definition run_k2 : kern lstate := set_kprocs (alter (λ _, dispatch RR 0 (pat run_k1 0)) 0%nat) run_k1.

(** ** System calls *)

(** User code has loaded the number and the first argument of a call. *)
Definition run_regs (num a0 : Z) (k : kern lstate) : kern lstate :=
  let tf := p_trapframe (pat k 0) in
  set_kmem (set_mem (λ m, store64 (store64 m (tf + tf_a7) num) (tf + tf_a0) a0) (kmem k)) k.

Definition run_hart : hart := Hart 0 0 8 0 0 0 0 0 false 0.
Definition run_env : environment := Env (λ _, 0) [] (0, 0).

Definition run_trap (k : kern lstate) : outcome (option Z * tstate lstate) :=
  usertrap RR run_env (TState (set_cur 0 k) run_hart).
Definition run_call (num a0 : Z) (k : kern lstate) : kern lstate :=
  tk (run_state (run_trap (run_regs num a0 k)) (TState k run_hart)).

(** sbrk(4096), pipe(4096), fork(). *)
Definition run_k3 : kern lstate := run_call 12 4096 run_k2.
Definition run_k4 : kern lstate := run_call 4 4096 run_k3.
Definition run_k5 : kern lstate := run_call 1 0 run_k4.

Lemma run_call_step num a0 k p r : procs k !! 0%nat = Some p → p_state p = RUNNING → nextpid k < 2 ^ 31 - 1 →
  run_val (run_trap (run_regs num a0 k)) = Some r → rtc (kstep RR run_env) k (run_call num a0 k).
Proof.
  intros Hp Hr Hn E. apply (rtc_l _ _ (run_regs num a0 k)); [apply ks_memory|]. apply rtc_once.
  apply (ks_user RR run_env (run_regs num a0 k) 0%nat p run_hart r); [done..|]. exact (run_ret _ _ _ E).
Qed.

(** The state of the first process and the next pid, at the end of a call. *)
Definition run_ready (k : kern lstate) : bool := has_state RUNNING (pat k 0) && (nextpid k <? 10).

Lemma run_ready_spec k : run_ready k = true →
  ∃ p, procs k !! 0%nat = Some p ∧ p_state p = RUNNING ∧ nextpid k < 2 ^ 31 - 1.
Proof.
  intros H. apply andb_prop in H as [H1 H2]. apply has_state_true in H1. unfold pat in H1.
  destruct (procs k !! 0%nat) as [p|]; [|done]. exists p. split; [done|]. split; [done | lia].
Qed.

Lemma run_call_reaches num a0 k : run_ready k = true → run_val (run_trap (run_regs num a0 k)) ≠ None →
  rtc (kstep RR run_env) k (run_call num a0 k).
Proof.
  intros H E. destruct (run_ready_spec k H) as (p & Hp & Hr & Hn).
  destruct (run_val (run_trap (run_regs num a0 k))) as [r|] eqn:Er; [|done]. by apply (run_call_step _ _ _ p r).
Qed.

Lemma run_fresh : fresh run_k0.
Proof.
  split; try done.
  - apply Forall_forall. intros p Hp. unfold run_k0, procinit in Hp. cbn [procs] in Hp.
    apply list_elem_of_lookup in Hp as [i Hi]. rewrite list_lookup_imap in Hi. apply fmap_Some in Hi as (x & Hx & ->).
    apply lookup_replicate in Hx as [-> _]. done.
  - by apply Forall_replicate.
Qed.

Lemma run_reaches : reaches RR run_env run_k0 run_k5.
Proof.
  exists run_k1. split; [apply run_ret; vm_compute; reflexivity|].
  eapply rtc_l; [apply (ks_run RR run_env run_k1 0 (pat run_k1 0)); vm_compute; reflexivity|].
  fold run_k2. etransitivity; [apply (run_call_reaches 12 4096); [vm_compute; reflexivity | vm_compute; discriminate]|].
  fold run_k3. etransitivity; [apply (run_call_reaches 4 4096); [vm_compute; reflexivity | vm_compute; discriminate]|].
  fold run_k4. apply (run_call_reaches 1 0); [vm_compute; reflexivity | vm_compute; discriminate].
Qed.

(** ** The properties *)

Section Properties.
Context {S : Type} `{BO : BlockOps S} `{L : Linker} `{Y : Symbols}.


(** C6. However the processes run, the first process keeps running, every other
    process that has been created has a parent that takes part, so that somebody can
    wait for it, and no two processes share a pid. *)
Theorem process_tree pol env (k0 k : kern S) :
  fresh k0 → reaches pol env k0 k →
  init_ok k ∧
  (∀ i p, procs k !! i = Some p → settled p → parented k i p) ∧
  (∀ i j p q, procs k !! i = Some p → procs k !! j = Some q → p_state p ≠ UNUSED → p_state q ≠ UNUSED →
    p_pid p = p_pid q → i = j).
Proof. intros F R. destruct (reaches_sound pol env k0 k F R) as [[_ [_ _ U] T] N]. eauto. Qed.
End Properties.


Lemma process_tree_witness : parented run_k5 1 (pat run_k5 1).
Proof.
  destruct (process_tree RR run_env run_k0 run_k5 run_fresh run_reaches) as (_ & T & _).
  apply T; [vm_compute; reflexivity | split; vm_compute; discriminate].
Defined.
