(* ===== verification/TrapSpec.v ===== *)
(** * Alarms and faults

    The alarm of [usertrap] and [sys_sigreturn] together leave the interrupted code
    as it was; and system calls and faults by which a process stops the kernel. *)

From stdpp Require Import base numbers list strings relations.
From S2P Require Import Prelude Str Layout Kalloc Vm PageTable Uvm Ucopy Demo ProcState Sched Pipe Bio BioSpec Log Block Fs Dir FsFile FsSpec.
From S2P Require Import Printf Console Kern File Proc Sysproc Sysfile Exec Syscall Trap.
From S2P Require Import KernCalm KernInv FileInv ProcInv KernSpec KernRun.
Local Open Scope Z_scope.

(** ** Code that panics *)

Lemma stop_here {T A B} (m : M T A) (f : A → M T B) s e : m s = Panic e → (m ≫= f) s = Panic e.
Proof. unfold mbind, M_bind. by intros ->. Qed.

Lemma stop_later {T A B} (m : M T A) (f : A → M T B) s a s' e : m s = Ret (a, s') → f a s' = Panic e → (m ≫= f) s = Panic e.
Proof. unfold mbind, M_bind. by intros ->. Qed.

Lemma stop_zoom {T U A} (get : T → U) (set : U → T → T) (m : M U A) s e : m (get s) = Panic e → zoom get set m s = Panic e.
Proof. unfold zoom. by intros ->. Qed.

(** What holds after code that is known to return. *)
Lemma wp_at {T A} (m : M T A) s a s' (Q : A → T → Prop) : wp m s Q → m s = Ret (a, s') → Q a s'.
Proof. unfold wp. intros H E. by rewrite E in H. Qed.

Section TrapSpec.
Context {S : Type} `{BO : BlockOps S} `{L : Linker} `{LO : !LinkerOk L} `{Y : Symbols}.

(** ** Rules for the state of the kernel *)

Lemma pat_alter (k : kern S) i f p : procs k !! i = Some p → pat (set_kprocs (alter f i) k) i = f p.
Proof. intros H. unfold pat. simpl. by rewrite list_lookup_alter_eq, H. Qed.

(** ** The alarm *)

(** The trap frame, byte by byte. *)
Definition same_frame (m m' : Z → Z) (tf : Z) : Prop := ∀ o, 0 ≤ o < sizeof_trapframe → m' (tf + o) = m (tf + o).

Lemma frame_page tf o : 0 ≤ o < sizeof_trapframe → tf ≤ tf + o < tf + PGSIZE.
Proof. unfold sizeof_trapframe, PGSIZE. lia. Qed.

(** Page [b] keeps what was in the frame. *)
Definition saved (m m' : Z → Z) (tf b : Z) : Prop := ∀ o, 0 ≤ o < sizeof_trapframe → m' (b + o) = m (tf + o).

Lemma alarm_wp (k : kern S) p b l : procs k !! cur k = Some p → alarm_due p = true → kinv (kmem k) (b :: l) →
  valid_page (p_trapframe p) → p_trapframe p ∉ b :: l →
  wp alarm k (λ _ k1,
    saved (mem (kmem k)) (mem (kmem k1)) (p_trapframe p) b ∧
    load64 (mem (kmem k1)) (p_trapframe p + tf_epc) = u64 (p_alarmHandler p) ∧
    kinv (kmem k1) l ∧ rc (kmem k1) b = 1 ∧ rc (kmem k1) (p_trapframe p) = rc (kmem k) (p_trapframe p) ∧ cur k1 = cur k ∧
    ∃ p1, procs k1 !! cur k = Some p1 ∧ p_trapframe p1 = p_trapframe p ∧ p_backupTrapFrame p1 = b ∧ p_alarmRunning p1 = 1).
Proof.
  intros Hp Hd Hk Hv Hn. assert (E : pat k (cur k) = p) by (unfold pat; by rewrite Hp).
  unfold alarm. apply wp_bind, wp_gets. rewrite E, Hd. cbn [when]. unfold setmy, setp, myslot.
  apply wp_bind, wp_bind, wp_gets, wp_modify. apply wp_bind, wp_onmem.
  eapply wp_mono; [exact (kalloc_wp _ _ Hk)|]. intros b' s1 (-> & Hk1 & Hr1 & Hrx & Hm1).
  assert (Hvb : valid_page b) by (apply (ki_valid _ _ _ Hk); by left).
  assert (Hne : p_trapframe p ≠ b) by (intros E'; apply Hn; rewrite E'; by left).
  pose proof (valid_page_bounds b Hvb) as [Hb Hb'].
  pose proof (valid_page_bounds _ Hv) as [_ Ht'].
  apply wp_bind, wp_bind, wp_gets, wp_modify. rewrite (proj2 (Z.eqb_neq b 0)) by lia.
  apply wp_bind, wp_onmem, wp_modify. apply wp_bind, wp_bind, wp_gets, wp_modify. apply wp_onmem, wp_modify.
  set (m0 := mem (kmem k)) in *. set (tf := p_trapframe p) in *.
  set (m3 := store64 (mmove b tf sizeof_trapframe (mset b 5 PGSIZE m0)) (tf + tf_epc) (p_alarmHandler p)).
  assert (M3 : ∀ s, mem (set_mem (λ m, store64 m (tf + tf_epc) (p_alarmHandler p))
    (set_mem (mmove b tf sizeof_trapframe) (KState (mem s1) (freelist s) (refs s)))) = m3).
  { intros s. simpl. rewrite Hm1. reflexivity. }
  split; [|split; [|split; [|split; [|split; [|split]]]]].
  - change (saved m0 (mem (set_mem (λ m, store64 m (tf + tf_epc) (p_alarmHandler p))
      (set_mem (mmove b tf sizeof_trapframe) (KState (mem s1) (freelist s1) (refs s1))))) tf b). rewrite M3.
    intros o Ho. unfold m3, sizeof_trapframe, PGSIZE, tf_epc in *. rewrite store64_out by lia.
    rewrite mmove_in by lia. apply mset_out. lia.
  - change (load64 (mem (set_mem (λ m, store64 m (tf + tf_epc) (p_alarmHandler p))
      (set_mem (mmove b tf sizeof_trapframe) (KState (mem s1) (freelist s1) (refs s1))))) (tf + tf_epc) = u64 (p_alarmHandler p)).
    rewrite M3. apply load64_store64.
  - apply (kinv_mem _ (set_mem (mmove b tf sizeof_trapframe) s1)); [apply (kinv_mem _ s1); [exact Hk1|]|];
      intros q Hq x Hx; simpl.
    + apply mmove_out. assert (q ≠ b) by (intros ->; pose proof (ki_nodup _ _ _ Hk) as ND; apply NoDup_cons in ND; tauto).
      destruct (ki_valid _ _ _ Hk1 q Hq) as [Hq' _]. unfold sizeof_trapframe, PGSIZE in *. lia.
    + apply store64_out. assert (q ≠ tf) by (intros ->; apply Hn; by right).
      destruct (ki_valid _ _ _ Hk1 q Hq) as [Hq' _]. unfold tf_epc, PGSIZE in *. lia.
  - exact Hr1.
  - by apply Hrx.
  - reflexivity.
  - eexists. split; [|split; [|split]].
    + simpl. rewrite !list_lookup_alter_eq, Hp. reflexivity.
    + reflexivity.
    + reflexivity.
    + reflexivity.
Qed.

Lemma sigreturn_wp (k : kern S) p l : procs k !! cur k = Some p → kinv (kmem k) l →
  let tf := p_trapframe p in let b := p_backupTrapFrame p in
  valid_page tf → 0 < rc (kmem k) tf → valid_page b → 0 < rc (kmem k) b → b ≠ tf →
  wp sys_sigreturn k (λ r k1,
    (∀ o, 0 ≤ o < sizeof_trapframe → mem (kmem k1) (tf + o) = mem (kmem k) (b + o)) ∧
    r = Some (load64 (mem (kmem k1)) (tf + tf_a0)) ∧
    rc (kmem k1) b = rc (kmem k) b - 1 ∧ cur k1 = cur k ∧ procs k1 !! cur k = Some (set_alarmRunning 0 p)).
Proof.
  intros Hp Hk tf b Ht Hrt Hb Hrb Hne. assert (E : pat k (cur k) = p) by (unfold pat; by rewrite Hp).
  destruct (kinv_used _ _ _ Hk Ht Hrt) as [Hnt _]. pose proof (valid_page_bounds _ Ht) as [_ At].
  unfold sys_sigreturn. apply wp_bind, wp_gets. rewrite E. unfold setmy, setp, myslot.
  apply wp_bind, wp_bind, wp_gets, wp_modify. apply wp_bind, wp_onmem, wp_modify. apply wp_bind, wp_onmem.
  set (s1 := set_mem (mmove tf b sizeof_trapframe) (kmem k)).
  assert (Hk1 : kinv s1 l).
  { apply (kinv_mem _ (kmem k) l _ Hk). intros q Hq x Hx. apply mmove_out.
    assert (q ≠ tf) by (intros ->; done). destruct (ki_valid _ _ _ Hk q Hq) as [Hq' _].
    unfold sizeof_trapframe, PGSIZE in *. lia. }
  eapply wp_mono; [exact (kfree_wp s1 l b Hk1 Hb Hrb)|]. intros _ s2 (Hr2 & _ & Hm2 & _).
  pose proof (valid_page_bounds _ Hb) as [_ Ab].
  apply wp_bind, wp_onmem, wp_gets. split; [|split; [|split; [|split]]].
  - intros o Ho. change (mem s2 (tf + o) = mem (kmem k) (b + o)). rewrite Hm2.
    + apply mmove_in. done.
    + unfold sizeof_trapframe, PGSIZE in *. lia.
  - reflexivity.
  - exact Hr2.
  - reflexivity.
  - simpl. by rewrite list_lookup_alter_eq, Hp.
Qed.

Lemma load64_frame m m' tf b o : (∀ x, 0 ≤ x < sizeof_trapframe → m' (tf + x) = m (b + x)) → 0 ≤ o → o + 8 ≤ sizeof_trapframe →
  load64 m' (tf + o) = load64 m (b + o).
Proof.
  intros H Ho Ho'. assert (G : ∀ n i, 0 ≤ i → i + Z.of_nat n ≤ sizeof_trapframe →
    load_le m' (tf + i) n = load_le m (b + i) n).
  { induction n as [|n IH]; intros i Hi Hn; [done|]. cbn [load_le]. rewrite (H i) by lia.
    replace (tf + i + 1) with (tf + (i + 1)) by lia. replace (b + i + 1) with (b + (i + 1)) by lia.
    rewrite IH by lia. done. }
  apply G; lia.
Qed.

(** C33. When an alarm goes off the process continues in its handler, and when the
    handler calls [sigreturn], whatever it did in between short of the page the
    kernel saved the registers in, all the registers the alarm interrupted are back,
    and the call returns the interrupted value of a0, so that the system call
    dispatcher, which stores the result in a0, does not change it either. *)
Theorem alarm_roundtrip (k : kern S) p b l :
  procs k !! cur k = Some p → alarm_due p = true → kinv (kmem k) (b :: l) →
  valid_page (p_trapframe p) → p_trapframe p ∉ b :: l →
  ∃ k1 : kern S, alarm k = Ret (tt, k1) ∧
    load64 (mem (kmem k1)) (p_trapframe p + tf_epc) = u64 (p_alarmHandler p) ∧
    kinv (kmem k1) l ∧ rc (kmem k1) b = 1 ∧
    ∀ (k2 : kern S) p2 l2,
      procs k2 !! cur k2 = Some p2 → p_trapframe p2 = p_trapframe p →
      p_backupTrapFrame p2 = p_backupTrapFrame (pat k1 (cur k)) →
      kinv (kmem k2) l2 → 0 < rc (kmem k2) (p_trapframe p) → 0 < rc (kmem k2) b →
      same_page (mem (kmem k1)) (mem (kmem k2)) b →
      ∃ k3 : kern S, sys_sigreturn k2 = Ret (Some (load64 (mem (kmem k)) (p_trapframe p + tf_a0)), k3) ∧
        same_frame (mem (kmem k)) (mem (kmem k3)) (p_trapframe p) ∧ p_alarmRunning (pat k3 (cur k3)) = 0.
Proof.
  intros Hp Hd Hk Hv Hn. pose proof (alarm_wp k p b l Hp Hd Hk Hv Hn) as W.
  apply wp_elim in W as ([] & k1 & E1 & Hs & He & Hk1 & Hr1 & _ & _ & p1 & Hp1 & _ & Hb1 & _).
  exists k1. do 4 (split; [done|]). unfold pat at 1. rewrite Hp1. simpl. rewrite Hb1.
  intros k2 p2 l2 Hp2 Ht2 Hb2 Hk2 Hrt Hrb Hsame. assert (Hvb : valid_page b) by (apply (ki_valid _ _ _ Hk); by left).
  pose proof (sigreturn_wp k2 p2 l2 Hp2 Hk2) as W. cbv zeta in W. rewrite Ht2, Hb2 in W.
  specialize (W Hv Hrt Hvb Hrb ltac:(intros ->; apply Hn; by left)).
  apply wp_elim in W as (r & k3 & E3 & Hm & -> & _ & Hc & Hp3).
  assert (F : same_frame (mem (kmem k)) (mem (kmem k3)) (p_trapframe p)).
  { intros o Ho. rewrite Hm by done. rewrite Hsame; [by apply Hs|]. by apply frame_page. }
  exists k3. split; [|split; [done|]].
  - rewrite E3. do 3 f_equal. apply load64_frame; [exact F|..]; unfold tf_a0, sizeof_trapframe; lia.
  - rewrite Hc. unfold pat. by rewrite Hp3.
Qed.

(** ** Stopping the kernel *)

Lemma kfree_unused s pa : valid_page pa → rc s pa = 0 → kfree pa s = Panic "kfree: ref count is 0".
Proof.
  intros Hv Hr. unfold kfree. pose proof (valid_page_bounds _ Hv) as [_ Al]. rewrite Al. pose proof Hv as [_ [H1 H2]].
  rewrite (proj2 (Z.ltb_ge _ _)) by lia. rewrite (proj2 (Z.leb_gt _ _)) by lia. cbn [nonzero negb orb Z.eqb].
  rewrite valid_page_idx by done. unfold rc in Hr. unfold gets, mbind, M_bind. rewrite Hr. reflexivity.
Qed.

(** A process that calls [sigreturn] once more after the handler has returned
    stops the kernel: the page is no longer allocated, and [kfree] panics. *)
Theorem sigreturn_again_panics (k : kern S) p :
  procs k !! cur k = Some p → valid_page (p_backupTrapFrame p) → rc (kmem k) (p_backupTrapFrame p) = 0 →
  sys_sigreturn k = Panic "kfree: ref count is 0".
Proof.
  intros Hp Hv Hr. assert (E : pat k (cur k) = p) by (unfold pat; by rewrite Hp).
  unfold sys_sigreturn. eapply stop_later; [reflexivity|]. rewrite E. eapply stop_later; [reflexivity|].
  eapply stop_later; [reflexivity|]. apply stop_here, stop_zoom, kfree_unused; done.
Qed.

(** Pid 0 is that of the free slots. *)
Definition pids_tell (t : list proc) : Prop := Forall (λ p, p_pid p = 0 ↔ p_state p = UNUSED) t.

Lemma kill_zero_spec t j i : pids_tell t → find_unused j t = Some i →
  (kill 0 t).1 = 0 ∧ (kill 0 t).2 = alter kill1 (i - j)%nat t ∧ find_unused j (kill 0 t).2 = Some i.
Proof.
  intros H. revert j. induction H as [|p t Hp H IH]; intros j E; [done|]. cbn [find_unused kill] in *.
  destruct (has_state UNUSED p) eqn:U.
  - injection E as <-. apply has_state_true in U. rewrite (proj2 (Z.eqb_eq _ _) (proj2 Hp U)), Nat.sub_diag.
    split; [done|]. split; [done|]. cbn [find_unused snd]. unfold kill1, has_state in *. simpl. rewrite U. simpl. by rewrite U.
  - apply has_state_false in U. rewrite (proj2 (Z.eqb_neq _ _)) by (intros E'; by apply U, Hp).
    destruct (IH (Datatypes.S j) E) as (H1 & H2 & H3). destruct (kill 0 t) as [r t'] eqn:K. cbn [fst snd] in *.
    assert (Hle : (Datatypes.S j <= i)%nat) by (by destruct (find_unused_spec _ _ _ E)).
    split; [done|]. split.
    + replace (i - j)%nat with (Datatypes.S (i - Datatypes.S j)) by lia. by rewrite H2.
    + cbn [find_unused]. rewrite (proj2 (has_state_false UNUSED p) U). done.
Qed.


(** C37. A store of a process to an address with bit 31 set and the bits above clear,
    all of them addresses below [MAXVA], stops the kernel: [usertrap] keeps the
    address in an [int], and [walk] panics on the negative number. *)
Theorem store_fault_panics pol env (t : tstate S) :
  r_scause (th t) = 15 → Z.land (r_sstatus (th t)) SSTATUS_SPP = 0 → 2 ^ 31 ≤ r_stval (th t) < 2 ^ 32 →
  usertrap pol env t = Panic "walk".
Proof.
  intros Hc Hs Hv.
  assert (Hi : i32 (r_stval (th t)) = r_stval (th t) - 2 ^ 32) by (unfold i32; lia).
  unfold usertrap. eapply stop_later; [reflexivity|]. rewrite Hs. cbn [nonzero negb Z.eqb].
  do 4 (eapply stop_later; [reflexivity|]). eapply stop_later; [reflexivity|].
  change (r_scause (th _)) with (r_scause (th t)). rewrite Hc. cbn [Z.eqb Pos.eqb].
  eapply stop_later; [reflexivity|]. change (r_stval (th _)) with (r_stval (th t)). apply stop_here, stop_zoom.
  unfold cow_fault. rewrite Hi. eapply stop_later; [reflexivity|].
  assert (HM : MAXVA = 2 ^ 38) by reflexivity. rewrite HM. rewrite (proj2 (Z.leb_gt _ _)) by lia. rewrite (proj2 (Z.eqb_neq _ 0)) by lia.
  apply stop_here, stop_zoom. unfold walk. rewrite HM, (proj2 (Z.leb_le _ _)); [done|]. unfold u64. lia.
Qed.
End TrapSpec.

(** ** The theorems at work *)

#[local] Existing Instance run_symbols.

(** A process with its trap frame in the first page and an alarm every tick. *)
Definition al_mem : kstate := run_state (kalloc small_boot) small_boot.
Definition al_proc : proc :=
  set_timeRun 3 (set_alarmHandler 64 (set_alarmFreq 2 (set_trapframe (pg 1) (set_state RUNNING proc_zero)))).
Definition al_kern (s : kstate) (p : proc) : kern lstate :=
  Kern (FState (LState (boot_cache fs_disk) open_log) demo_sb [] s 0 0 0) [p] [] (λ _, Pipe (λ _, 0) 0 0 0 0)
    (Console (λ _, 0) 0 0 0) (Uart (λ _, 0) 0 0 4 [] []) 2 3 (Some 0%nat) 0.

Lemma al_pages : boot_pages = pg 1 :: pg 2 :: drop 2 boot_pages.
Proof. vm_compute. reflexivity. Qed.

Lemma al_start : kinv al_mem (pg 2 :: drop 2 boot_pages) ∧ rc al_mem (pg 1) = 1 ∧ valid_page (pg 1) ∧
  pg 1 ∉ pg 2 :: drop 2 boot_pages.
Proof.
  destruct small_boot_inv as [_ K]. rewrite al_pages in K. pose proof (kalloc_wp _ _ K) as W.
  apply wp_elim in W as (r & s & E & -> & Hk & Hr & _). assert (Ea : al_mem = s) by (unfold al_mem; by rewrite E).
  rewrite Ea. split; [done|]. split; [done|]. split; [apply (ki_valid _ _ _ K); by left|].
  pose proof (ki_nodup _ _ _ K) as ND. by apply NoDup_cons in ND as [? _].
Qed.

#[global] Opaque al_mem.

(** The handler returns at once. *)
Lemma alarm_roundtrip_witness : ∃ k1 k3 : kern lstate,
  alarm (al_kern al_mem al_proc) = Ret (tt, k1) ∧
  sys_sigreturn k1 = Ret (Some (load64 (mem al_mem) (pg 1 + tf_a0)), k3) ∧
  same_frame (mem al_mem) (mem (kmem k3)) (pg 1).
Proof.
  destruct al_start as (Hk & Hr & Hv & Hn).
  destruct (alarm_roundtrip (al_kern al_mem al_proc) al_proc (pg 2) (drop 2 boot_pages)) as (k1 & E1 & _ & Hk1 & Hr1 & H);
    [reflexivity | reflexivity | exact Hk | exact Hv | exact Hn|].
  pose proof (alarm_wp (al_kern al_mem al_proc) al_proc (pg 2) (drop 2 boot_pages) eq_refl eq_refl Hk Hv Hn) as W.
  destruct (wp_at _ _ _ _ _ W E1) as (_ & _ & _ & _ & Hrt & Hc & p1 & Hp1 & Ht1 & _).
  destruct (H k1 p1 (drop 2 boot_pages)) as (k3 & E3 & F & _).
  - rewrite Hc. exact Hp1.
  - exact Ht1.
  - unfold pat. rewrite Hp1. reflexivity.
  - exact Hk1.
  - rewrite Hrt. change (0 < rc al_mem (pg 1)). rewrite Hr. reflexivity.
  - rewrite Hr1. reflexivity.
  - intros x _. reflexivity.
  - exists k1, k3. split; [exact E1|]. split; [exact E3 | exact F].
Defined.

Lemma sigreturn_again_panics_witness :
  sys_sigreturn (al_kern small_boot (set_backupTrapFrame (pg 1) al_proc)) = Panic "kfree: ref count is 0".
Proof.
  destruct small_boot_inv as [_ K]. assert (Hin : pg 1 ∈ boot_pages) by (rewrite al_pages; by left).
  apply (sigreturn_again_panics _ (set_backupTrapFrame (pg 1) al_proc)).
  - reflexivity.
  - exact (ki_valid _ _ _ K (pg 1) Hin).
  - exact (ki_free _ _ _ K (pg 1) Hin).
Defined.


Lemma store_fault_panics_witness :
  usertrap RR run_env (TState (al_kern al_mem al_proc) (Hart 0 4096 15 (2 ^ 31 + 8) 0 0 0 0 false 0)) = Panic "walk".
Proof. apply store_fault_panics; [reflexivity | reflexivity | split; [discriminate | reflexivity]]. Defined.
