(* ===== verification/Asm.v ===== *)
(** * Assembly: context switch, trap entry and exit, timer, start of a CPU
    (kernel/swtch.S, kernel/trampoline.S, kernel/kernelvec.S, kernel/entry.S)

    The instructions these files use, on a CPU with its registers, its control and
    status registers, its privilege mode and a byte memory; and the files themselves,
    instruction by instruction.  Each piece of code is straight: it ends with the jump
    that leaves it, and [pc] is where it goes.  There is no TLB, so [sfence.vma] does
    nothing. *)

From stdpp Require Import base numbers list strings.
From S2P Require Import Prelude Layout.
Local Open Scope Z_scope.

(** ** The CPU *)

Inductive reg : Type :=
  zero | ra | sp | gp | tp | t0 | t1 | t2 | s0 | s1 | a0 | a1 | a2 | a3 | a4 | a5 | a6 | a7
| s2 | s3 | s4 | s5 | s6 | s7 | s8 | s9 | s10 | s11 | t3 | t4 | t5 | t6.

#[global] Instance reg_eq_dec : EqDecision reg.
Proof. solve_decision. Defined.

Inductive csr : Type :=
  sstatus | sepc | satp | sscratch | sip | sie | mstatus | mepc | mscratch | mtvec | mie | mhartid
| medeleg | mideleg | pmpaddr0 | pmpcfg0 | stvec.

#[global] Instance csr_eq_dec : EqDecision csr.
Proof. solve_decision. Defined.

Inductive mode : Type := User | Supervisor | Machine.

Record rv : Type := RV { regs : reg → Z; csrs : csr → Z; priv : mode; pc : Z; rmem : Z → Z }.

Definition fupd {A B} `{EqDecision A} (f : A → B) (k : A) (v : B) : A → B := λ x, if decide (x = k) then v else f x.

(** Register [zero] reads as 0. *)
Definition rget (h : rv) (r : reg) : Z := if decide (r = zero) then 0 else regs h r.
Definition rset (r : reg) (v : Z) (h : rv) : rv := RV (fupd (regs h) r v) (csrs h) (priv h) (pc h) (rmem h).
Definition cset (c : csr) (v : Z) (h : rv) : rv := RV (regs h) (fupd (csrs h) c v) (priv h) (pc h) (rmem h).
Definition mset (m : Z → Z) (h : rv) : rv := RV (regs h) (csrs h) (priv h) (pc h) m.
Definition jump (a : Z) (h : rv) : rv := RV (regs h) (csrs h) (priv h) a (rmem h).
Definition setpriv (p : mode) (h : rv) : rv := RV (regs h) (csrs h) p (pc h) (rmem h).

(** Bit [i] of [x] set to [b]. *)
Definition put_bit (x i : Z) (b : bool) : Z := if b then Z.setbit x i else Z.clearbit x i.

(** Only bit 1 of [sip], the software interrupt, can be written. *)
Definition csr_write (c : csr) (v : Z) (h : rv) : rv :=
  cset c (if decide (c = sip) then put_bit (csrs h sip) 1 (Z.testbit v 1) else v) h.

Inductive instr : Type :=
| Sd (rs : reg) (off : Z) (base : reg)
| Ld (rd : reg) (off : Z) (base : reg)
| Li (rd : reg) (imm : Z)
| Addi (rd rs : reg) (imm : Z)
| Add (rd rs1 rs2 : reg)
| Mul (rd rs1 rs2 : reg)
| Csrr (rd : reg) (c : csr)
| Csrw (c : csr) (rs : reg)
| Csrrw (rd : reg) (c : csr) (rs : reg)
| Sfence_vma
| Jr (rs : reg)
| Ret
| Sret
| Mret.

Section Machine.
(** The address translation of the hardware: page table register and virtual address
    to physical address. *)
Context (tr : Z → Z → option Z).

(** Machine mode does not translate. *)
Definition phys (h : rv) (va : Z) : option Z :=
  match priv h with Machine => Some va | _ => tr (csrs h satp) va end.

(** [sret] returns to the mode in [sstatus.SPP] (bit 8) and takes the interrupt enable
    from [SPIE] (bit 5) to [SIE] (bit 1). *)
Definition do_sret (h : rv) : rv :=
  let s := csrs h sstatus in
  let s' := put_bit (put_bit (put_bit s 1 (Z.testbit s 5)) 5 true) 8 false in
  jump (csrs h sepc) (setpriv (if Z.testbit s 8 then Supervisor else User) (cset sstatus s' h)).

(** [mret] does the same for [mstatus]: MPP is bits 11 and 12, MPIE bit 7, MIE bit 3. *)
Definition do_mret (h : rv) : rv :=
  let s := csrs h mstatus in
  let s' := put_bit (put_bit (put_bit (put_bit s 3 (Z.testbit s 7)) 7 true) 11 false) 12 false in
  let p := if Z.testbit s 12 then Machine else if Z.testbit s 11 then Supervisor else User in
  jump (csrs h mepc) (setpriv p (cset mstatus s' h)).

(** One instruction; nothing, if the address is not mapped. *)
Definition istep (i : instr) (h : rv) : option rv :=
  match i with
  | Sd rs off base => a ← phys h (u64 (rget h base + off)); Some (mset (store64 (rmem h) a (rget h rs)) h)
  | Ld rd off base => a ← phys h (u64 (rget h base + off)); Some (rset rd (load64 (rmem h) a) h)
  | Li rd imm => Some (rset rd imm h)
  | Addi rd rs imm => Some (rset rd (u64 (rget h rs + imm)) h)
  | Add rd rs1 rs2 => Some (rset rd (u64 (rget h rs1 + rget h rs2)) h)
  | Mul rd rs1 rs2 => Some (rset rd (u64 (rget h rs1 * rget h rs2)) h)
  | Csrr rd c => Some (rset rd (csrs h c) h)
  | Csrw c rs => Some (csr_write c (rget h rs) h)
  | Csrrw rd c rs => Some (rset rd (csrs h c) (csr_write c (rget h rs) h))
  | Sfence_vma => Some h
  | Jr rs => Some (jump (rget h rs) h)
  | Ret => Some (jump (rget h ra) h)
  | Sret => Some (do_sret h)
  | Mret => Some (do_mret h)
  end.

Fixpoint irun (p : list instr) (h : rv) : option rv :=
  match p with
  | [] => Some h
  | i :: p' => h' ← istep i h; irun p' h'
  end.
End Machine.

(** ** swtch.S *)

Definition swtch : list instr :=
  [Sd ra 0 a0; Sd sp 8 a0; Sd s0 16 a0; Sd s1 24 a0; Sd s2 32 a0; Sd s3 40 a0; Sd s4 48 a0; Sd s5 56 a0;
   Sd s6 64 a0; Sd s7 72 a0; Sd s8 80 a0; Sd s9 88 a0; Sd s10 96 a0; Sd s11 104 a0; Ld ra 0 a1; Ld sp 8 a1;
   Ld s0 16 a1; Ld s1 24 a1; Ld s2 32 a1; Ld s3 40 a1; Ld s4 48 a1; Ld s5 56 a1; Ld s6 64 a1; Ld s7 72 a1;
   Ld s8 80 a1; Ld s9 88 a1; Ld s10 96 a1; Ld s11 104 a1; Ret].

(** ** trampoline.S *)

Definition uservec : list instr :=
  [Csrw sscratch a0; Li a0 TRAPFRAME; Sd ra 40 a0; Sd sp 48 a0; Sd gp 56 a0; Sd tp 64 a0; Sd t0 72 a0;
   Sd t1 80 a0; Sd t2 88 a0; Sd s0 96 a0; Sd s1 104 a0; Sd a1 120 a0; Sd a2 128 a0; Sd a3 136 a0; Sd a4 144 a0;
   Sd a5 152 a0; Sd a6 160 a0; Sd a7 168 a0; Sd s2 176 a0; Sd s3 184 a0; Sd s4 192 a0; Sd s5 200 a0;
   Sd s6 208 a0; Sd s7 216 a0; Sd s8 224 a0; Sd s9 232 a0; Sd s10 240 a0; Sd s11 248 a0; Sd t3 256 a0;
   Sd t4 264 a0; Sd t5 272 a0; Sd t6 280 a0; Csrr t0 sscratch; Sd t0 112 a0; Ld sp 8 a0; Ld tp 32 a0;
   Ld t0 16 a0; Ld t1 0 a0; Sfence_vma; Csrw satp t1; Sfence_vma; Jr t0].

Definition userret : list instr :=
  [Sfence_vma; Csrw satp a0; Sfence_vma; Li a0 TRAPFRAME; Ld ra 40 a0; Ld sp 48 a0; Ld gp 56 a0; Ld tp 64 a0;
   Ld t0 72 a0; Ld t1 80 a0; Ld t2 88 a0; Ld s0 96 a0; Ld s1 104 a0; Ld a1 120 a0; Ld a2 128 a0; Ld a3 136 a0;
   Ld a4 144 a0; Ld a5 152 a0; Ld a6 160 a0; Ld a7 168 a0; Ld s2 176 a0; Ld s3 184 a0; Ld s4 192 a0;
   Ld s5 200 a0; Ld s6 208 a0; Ld s7 216 a0; Ld s8 224 a0; Ld s9 232 a0; Ld s10 240 a0; Ld s11 248 a0;
   Ld t3 256 a0; Ld t4 264 a0; Ld t5 272 a0; Ld t6 280 a0; Ld a0 112 a0; Sret].

(** ** kernelvec.S *)

(** Up to the call of [kerneltrap], and from its return on. *)
Definition kernelvec_save : list instr :=
  [Addi sp sp (-256); Sd ra 0 sp; Sd sp 8 sp; Sd gp 16 sp; Sd tp 24 sp; Sd t0 32 sp; Sd t1 40 sp; Sd t2 48 sp;
   Sd s0 56 sp; Sd s1 64 sp; Sd a0 72 sp; Sd a1 80 sp; Sd a2 88 sp; Sd a3 96 sp; Sd a4 104 sp; Sd a5 112 sp;
   Sd a6 120 sp; Sd a7 128 sp; Sd s2 136 sp; Sd s3 144 sp; Sd s4 152 sp; Sd s5 160 sp; Sd s6 168 sp;
   Sd s7 176 sp; Sd s8 184 sp; Sd s9 192 sp; Sd s10 200 sp; Sd s11 208 sp; Sd t3 216 sp; Sd t4 224 sp;
   Sd t5 232 sp; Sd t6 240 sp].

Definition kernelvec_restore : list instr :=
  [Ld ra 0 sp; Ld sp 8 sp; Ld gp 16 sp; Ld t0 32 sp; Ld t1 40 sp; Ld t2 48 sp; Ld s0 56 sp; Ld s1 64 sp;
   Ld a0 72 sp; Ld a1 80 sp; Ld a2 88 sp; Ld a3 96 sp; Ld a4 104 sp; Ld a5 112 sp; Ld a6 120 sp; Ld a7 128 sp;
   Ld s2 136 sp; Ld s3 144 sp; Ld s4 152 sp; Ld s5 160 sp; Ld s6 168 sp; Ld s7 176 sp; Ld s8 184 sp;
   Ld s9 192 sp; Ld s10 200 sp; Ld s11 208 sp; Ld t3 216 sp; Ld t4 224 sp; Ld t5 232 sp; Ld t6 240 sp;
   Addi sp sp 256; Sret].

Definition kernelvec (tr : Z → Z → option Z) (kerneltrap : rv → option rv) (h : rv) : option rv :=
  h1 ← irun tr kernelvec_save h; h2 ← kerneltrap h1; irun tr kernelvec_restore h2.

Definition timervec : list instr :=
  [Csrrw a0 mscratch a0; Sd a1 0 a0; Sd a2 8 a0; Sd a3 16 a0; Ld a1 24 a0; Ld a2 32 a0; Ld a3 0 a1;
   Add a3 a3 a2; Sd a3 0 a1; Li a1 2; Csrw sip a1; Ld a3 16 a0; Ld a2 8 a0; Ld a1 0 a0; Csrrw a0 mscratch a0;
   Mret].

(** ** entry.S *)

(** [stack0] is an address the linker chooses, [start] the C function it calls. *)
Definition entry (stack0 : Z) : list instr :=
  [Li sp stack0; Li a0 (1024 * 4); Csrr a1 mhartid; Addi a1 a1 1; Mul a0 a0 a1; Add sp sp a0].
