(* ===== verification/Boot.v ===== *)
(** * The start of a CPU (kernel/start.c, kernel/riscv.h)

    [start] and [timerinit] run in machine mode on the CPU of the assembly model. *)

From stdpp Require Import base numbers list strings.
From S2P Require Import Prelude Layout Asm.
Local Open Scope Z_scope.

(** ** Constants *)

Definition MSTATUS_MPP_MASK : Z := Z.shiftl 3 11.
Definition MSTATUS_MPP_S : Z := Z.shiftl 1 11.
Definition MSTATUS_MIE : Z := Z.shiftl 1 3.
Definition SIE_SEIE : Z := Z.shiftl 1 9.
Definition SIE_STIE : Z := Z.shiftl 1 5.
Definition SIE_SSIE : Z := Z.shiftl 1 1.
Definition MIE_MTIE : Z := Z.shiftl 1 7.
Definition CLINT : Z := 0x2000000.
Definition CLINT_MTIMECMP (hartid : Z) : Z := CLINT + 0x4000 + 8 * hartid.
Definition CLINT_MTIME : Z := CLINT + 0xBFF8.

Definition interval : Z := 1000000.

(** ** Control registers (kernel/riscv.h) *)

Definition r_mhartid (h : rv) : Z := csrs h mhartid.
Definition r_mstatus (h : rv) : Z := csrs h mstatus.
Definition w_mstatus (x : Z) (h : rv) : rv := cset mstatus x h.
Definition w_mepc (x : Z) (h : rv) : rv := cset mepc x h.
Definition r_sie (h : rv) : Z := csrs h sie.
Definition w_sie (x : Z) (h : rv) : rv := cset sie x h.
Definition r_mie (h : rv) : Z := csrs h mie.
Definition w_mie (x : Z) (h : rv) : rv := cset mie x h.
Definition w_medeleg (x : Z) (h : rv) : rv := cset medeleg x h.
Definition w_mideleg (x : Z) (h : rv) : rv := cset mideleg x h.
Definition w_mtvec (x : Z) (h : rv) : rv := cset mtvec x h.
Definition w_pmpcfg0 (x : Z) (h : rv) : rv := cset pmpcfg0 x h.
Definition w_pmpaddr0 (x : Z) (h : rv) : rv := cset pmpaddr0 x h.
Definition w_satp (x : Z) (h : rv) : rv := cset satp x h.
Definition w_mscratch (x : Z) (h : rv) : rv := cset mscratch x h.
Definition w_tp (x : Z) (h : rv) : rv := rset tp x h.

(** ** start.c *)

Section Start.
(** Addresses the linker chooses: [timer_scratch], [timervec] and [main]. *)
Context (timer_scratch timervec_at main_at : Z).

(** [timer_scratch[id]], five words for each CPU. *)
Definition scratch (id : Z) : Z := timer_scratch + 40 * id.

Definition timerinit (h : rv) : rv :=
  let id := i32 (r_mhartid h) in
  let h := mset (store64 (rmem h) (CLINT_MTIMECMP id) (load64 (rmem h) CLINT_MTIME + interval)) h in
  let h := mset (store64 (rmem h) (scratch id + 24) (CLINT_MTIMECMP id)) h in
  let h := mset (store64 (rmem h) (scratch id + 32) interval) h in
  let h := w_mscratch (scratch id) h in
  let h := w_mtvec timervec_at h in
  let h := w_mstatus (Z.lor (r_mstatus h) MSTATUS_MIE) h in
  w_mie (Z.lor (r_mie h) MIE_MTIE) h.

Definition start (h : rv) : rv :=
  let x := r_mstatus h in
  let x := Z.land x (Z.lnot MSTATUS_MPP_MASK) in
  let x := Z.lor x MSTATUS_MPP_S in
  let h := w_mstatus x h in
  let h := w_mepc main_at h in
  let h := w_satp 0 h in
  let h := w_medeleg 0xffff h in
  let h := w_mideleg 0xffff h in
  let h := w_sie (Z.lor (Z.lor (Z.lor (r_sie h) SIE_SEIE) SIE_STIE) SIE_SSIE) h in
  let h := w_pmpaddr0 0x3fffffffffffff h in
  let h := w_pmpcfg0 0xf h in
  let h := timerinit h in
  let id := i32 (r_mhartid h) in
  let h := w_tp (u64 id) h in
  do_mret h.
End Start.
