(* ===== verification/Main.v ===== *)
(** * The start of the kernel (kernel/main.c, kernel/plic.c, and the initialisers of
    kernel/console.c, uart.c, printf.c, kalloc.c, vm.c, proc.c, trap.c, bio.c, fs.c, file.c
    and virtio_disk.c)

    [main] up to the call of [scheduler], on the machine as a CPU sees it: the kernel's
    data, the registers of the CPU, the disk driver, and the devices behind their
    registers.  [answers] is what a device register reads as after the writes so far. *)

From stdpp Require Import base numbers list strings.
From S2P Require Import Prelude Str Layout Kalloc Vm ProcState Sched Lock Pipe Bio Log Block Fs Dir Virtio Printf Console Kern File Proc.
From S2P Require Import Sysproc Sysfile Exec Syscall Trap.
Local Open Scope Z_scope.

(** ** The machine *)

(** An entry of [devsw]: the functions behind [read] and [write]. *)
Inductive devop : Type := Consoleread | Consolewrite.
Record devsw_entry : Type := Devsw { dv_read : option devop; dv_write : option devop }.

(** [mlocks] are the spin locks initialised so far, with their names, [mmio] the writes
    to device registers, as address and value. *)
Record machine : Type := Machine {
  mk : kern lstate;
  mdisk : vdisk;
  mh : hart;
  kernel_pagetable : Z;
  devsw : list devsw_entry;
  pr_locking : Z;
  mlocks : list (string * spinlock);
  mmio : list (Z * Z);
  started : Z;
}.

Definition set_mk (k : kern lstate) (m : machine) : machine :=
  Machine k (mdisk m) (mh m) (kernel_pagetable m) (devsw m) (pr_locking m) (mlocks m) (mmio m) (started m).
Definition set_mdisk (f : vdisk → vdisk) (m : machine) : machine :=
  Machine (mk m) (f (mdisk m)) (mh m) (kernel_pagetable m) (devsw m) (pr_locking m) (mlocks m) (mmio m) (started m).
Definition set_mh (f : hart → hart) (m : machine) : machine :=
  Machine (mk m) (mdisk m) (f (mh m)) (kernel_pagetable m) (devsw m) (pr_locking m) (mlocks m) (mmio m) (started m).
Definition set_kpt (v : Z) (m : machine) : machine :=
  Machine (mk m) (mdisk m) (mh m) v (devsw m) (pr_locking m) (mlocks m) (mmio m) (started m).
Definition set_devsw (f : list devsw_entry → list devsw_entry) (m : machine) : machine :=
  Machine (mk m) (mdisk m) (mh m) (kernel_pagetable m) (f (devsw m)) (pr_locking m) (mlocks m) (mmio m) (started m).
Definition set_locking (v : Z) (m : machine) : machine :=
  Machine (mk m) (mdisk m) (mh m) (kernel_pagetable m) (devsw m) v (mlocks m) (mmio m) (started m).
Definition add_locks (l : list (string * spinlock)) (m : machine) : machine :=
  Machine (mk m) (mdisk m) (mh m) (kernel_pagetable m) (devsw m) (pr_locking m) (mlocks m ++ l) (mmio m) (started m).
Definition add_mmio (l : list (Z * Z)) (m : machine) : machine :=
  Machine (mk m) (mdisk m) (mh m) (kernel_pagetable m) (devsw m) (pr_locking m) (mlocks m) (mmio m ++ l) (started m).
Definition set_started (v : Z) (m : machine) : machine :=
  Machine (mk m) (mdisk m) (mh m) (kernel_pagetable m) (devsw m) (pr_locking m) (mlocks m) (mmio m) v.

Section Main.
Context `{L : Linker} `{Y : Symbols} (answers : list (Z * Z) → Z → Z).

Definition onkern {A} (m : M (kern lstate) A) : M machine A := zoom mk set_mk m.

Definition initlock (name : string) : M machine unit := modify (add_locks [(name, SpinLock 0 None)]).

(** Registers of devices. *)
Definition rdreg (a : Z) : M machine Z := gets (λ m, u32 (answers (mmio m) a)).
Definition wrreg (a v : Z) : M machine unit := modify (add_mmio [(a, v)]).

Definition cpuid : M machine Z := gets (λ m, i32 (r_tp (mh m))).

(** [printf] of a text. *)
Definition printk (l : list Z) : M machine unit := onkern (kprintf l).

(** ** The console *)

Definition IER : Z := 1.
Definition FCR : Z := 2.
Definition LCR : Z := 3.
Definition WriteReg (reg v : Z) : M machine unit := wrreg (UART0 + reg) v.

Definition uartinit : M machine unit :=
  WriteReg IER 0x00;;
  WriteReg LCR (Z.shiftl 1 7);;
  WriteReg 0 0x03;;
  WriteReg 1 0x00;;
  WriteReg LCR (Z.shiftl 3 0);;
  WriteReg FCR (Z.lor (Z.shiftl 1 0) (Z.shiftl 3 1));;
  WriteReg IER (Z.lor (Z.shiftl 1 1) (Z.shiftl 1 0));;
  initlock "uart".

Definition dev_set_read (v : devop) (d : devsw_entry) : devsw_entry := Devsw (Some v) (dv_write d).
Definition dev_set_write (v : devop) (d : devsw_entry) : devsw_entry := Devsw (dv_read d) (Some v).

Definition consoleinit : M machine unit :=
  initlock "cons";;
  uartinit;;
  modify (set_devsw (alter (dev_set_read Consoleread) (Z.to_nat CONSOLE)));;
  modify (set_devsw (alter (dev_set_write Consolewrite) (Z.to_nat CONSOLE))).

Definition printfinit : M machine unit := initlock "pr";; modify (set_locking 1).

(** ** Memory, processes, traps *)

Definition kinit_locked : M machine unit := initlock "kmem";; onkern (onmem kinit).

Definition kvminit : M machine unit :=
  pt ← onkern (onmem kvmmake);
  modify (set_kpt pt).

Definition w_satp (v : Z) (h : hart) : hart :=
  Hart (r_sstatus h) (r_sepc h) (r_scause h) (r_stval h) (r_stvec h) v (r_tp h) (r_sip h) (r_intr h) (plic h).

Definition kvminithart : M machine unit :=
  pt ← gets kernel_pagetable;
  modify (set_mh (w_satp (MAKE_SATP pt))).

Definition procinit_locked : M machine unit :=
  initlock "nextpid";;
  initlock "wait_lock";;
  modify (add_locks (replicate (Z.to_nat NPROC) ("proc", SpinLock 0 None)));;
  onkern (modify (set_kprocs procinit)).

Definition trapinit : M machine unit := initlock "time".
Definition trapinithart : M machine unit := modify (set_mh (w_stvec sym_kernelvec)).

(** ** plic.c *)

Definition PLIC_SENABLE (hart : Z) : Z := PLIC + 0x2080 + hart * 0x100.
Definition PLIC_SPRIORITY (hart : Z) : Z := PLIC + 0x201000 + hart * 0x2000.
Definition PLIC_SCLAIM (hart : Z) : Z := PLIC + 0x201004 + hart * 0x2000.

Definition plicinit : M machine unit :=
  wrreg (PLIC + UART0_IRQ * 4) 1;;
  wrreg (PLIC + VIRTIO0_IRQ * 4) 1.

Definition plicinithart : M machine unit :=
  hart ← cpuid;
  wrreg (PLIC_SENABLE hart) (Z.lor (Z.shiftl 1 UART0_IRQ) (Z.shiftl 1 VIRTIO0_IRQ));;
  wrreg (PLIC_SPRIORITY hart) 0.

Definition plic_claim : M machine Z :=
  hart ← cpuid;
  irq ← rdreg (PLIC_SCLAIM hart);
  mret (i32 irq).

Definition plic_complete (irq : Z) : M machine unit :=
  hart ← cpuid;
  wrreg (PLIC_SCLAIM hart) (u32 irq).

(** ** The file system's tables and the disk *)

Definition binit_locked : M machine unit := initlock "bcache";; onkern (onfs (onb (onc binit))).
Definition iinit_locked : M machine unit := initlock "itable";; onkern (onfs iinit).
Definition fileinit : M machine unit := initlock "ftable".

(** [*R(r)]. *)
Definition R (r : Z) : Z := VIRTIO0 + r.
Definition VIRTIO_MMIO_MAGIC_VALUE : Z := 0x000.
Definition VIRTIO_MMIO_VERSION : Z := 0x004.
Definition VIRTIO_MMIO_DEVICE_ID : Z := 0x008.
Definition VIRTIO_MMIO_VENDOR_ID : Z := 0x00c.
Definition VIRTIO_MMIO_DEVICE_FEATURES : Z := 0x010.
Definition VIRTIO_MMIO_DRIVER_FEATURES : Z := 0x020.
Definition VIRTIO_MMIO_QUEUE_SEL : Z := 0x030.
Definition VIRTIO_MMIO_QUEUE_NUM_MAX : Z := 0x034.
Definition VIRTIO_MMIO_QUEUE_NUM : Z := 0x038.
Definition VIRTIO_MMIO_QUEUE_READY : Z := 0x044.
Definition VIRTIO_MMIO_STATUS : Z := 0x070.
Definition VIRTIO_MMIO_QUEUE_DESC_LOW : Z := 0x080.
Definition VIRTIO_MMIO_QUEUE_DESC_HIGH : Z := 0x084.
Definition VIRTIO_MMIO_DRIVER_DESC_LOW : Z := 0x090.
Definition VIRTIO_MMIO_DRIVER_DESC_HIGH : Z := 0x094.
Definition VIRTIO_MMIO_DEVICE_DESC_LOW : Z := 0x0a0.
Definition VIRTIO_MMIO_DEVICE_DESC_HIGH : Z := 0x0a4.
Definition VIRTIO_CONFIG_S_ACKNOWLEDGE : Z := 1.
Definition VIRTIO_CONFIG_S_DRIVER : Z := 2.
Definition VIRTIO_CONFIG_S_DRIVER_OK : Z := 4.
Definition VIRTIO_CONFIG_S_FEATURES_OK : Z := 8.

(** The first part of [virtio_disk_init]: is it a disk?  [||] stops at the first
    register that differs. *)
Fixpoint registers_read (l : list (Z * Z)) : M machine bool :=
  match l with
  | [] => mret true
  | (r, v) :: l' =>
      x ← rdreg (R r);
      if x =? v then registers_read l' else mret false
  end.
Definition virtio_probe : M machine bool :=
  registers_read [(VIRTIO_MMIO_MAGIC_VALUE, 0x74726976); (VIRTIO_MMIO_VERSION, 2); (VIRTIO_MMIO_DEVICE_ID, 2); (VIRTIO_MMIO_VENDOR_ID, 0x554d4551)].

(** The handshake: the status the device answers with. *)
Definition virtio_negotiate : M machine Z :=
  wrreg (R VIRTIO_MMIO_STATUS) 0;;
  wrreg (R VIRTIO_MMIO_STATUS) VIRTIO_CONFIG_S_ACKNOWLEDGE;;
  let status := Z.lor VIRTIO_CONFIG_S_ACKNOWLEDGE VIRTIO_CONFIG_S_DRIVER in
  wrreg (R VIRTIO_MMIO_STATUS) status;;
  features ← rdreg (R VIRTIO_MMIO_DEVICE_FEATURES);
  wrreg (R VIRTIO_MMIO_DRIVER_FEATURES) (u32 (driver_features features));;
  wrreg (R VIRTIO_MMIO_STATUS) (Z.lor status VIRTIO_CONFIG_S_FEATURES_OK);;
  rdreg (R VIRTIO_MMIO_STATUS).

(** The queue: its size and the addresses of its three pages. *)
Definition virtio_queue : M machine unit :=
  wrreg (R VIRTIO_MMIO_QUEUE_SEL) 0;;
  ready ← rdreg (R VIRTIO_MMIO_QUEUE_READY);
  if nonzero ready then panic "virtio disk should not be ready"
  else
    max ← rdreg (R VIRTIO_MMIO_QUEUE_NUM_MAX);
    if max =? 0 then panic "virtio disk has no queue 0"
    else if max <? NUM then panic "virtio disk max queue too short"
    else
      d ← onkern (onmem kalloc);
      a ← onkern (onmem kalloc);
      u ← onkern (onmem kalloc);
      if (d =? 0) || (a =? 0) || (u =? 0) then panic "virtio disk kalloc"
      else
        onkern (onmem (memsetM d 0 PGSIZE));;
        onkern (onmem (memsetM a 0 PGSIZE));;
        onkern (onmem (memsetM u 0 PGSIZE));;
        wrreg (R VIRTIO_MMIO_QUEUE_NUM) NUM;;
        wrreg (R VIRTIO_MMIO_QUEUE_DESC_LOW) (u32 d);;
        wrreg (R VIRTIO_MMIO_QUEUE_DESC_HIGH) (Z.shiftr d 32);;
        wrreg (R VIRTIO_MMIO_DRIVER_DESC_LOW) (u32 a);;
        wrreg (R VIRTIO_MMIO_DRIVER_DESC_HIGH) (Z.shiftr a 32);;
        wrreg (R VIRTIO_MMIO_DEVICE_DESC_LOW) (u32 u);;
        wrreg (R VIRTIO_MMIO_DEVICE_DESC_HIGH) (Z.shiftr u 32);;
        wrreg (R VIRTIO_MMIO_QUEUE_READY) 1;;
        modify (set_mdisk init_queue).

Definition virtio_disk_init : M machine unit :=
  initlock "virtio_disk";;
  found ← virtio_probe;
  if negb found then panic "could not find virtio disk"
  else
    status ← virtio_negotiate;
    if Z.land status VIRTIO_CONFIG_S_FEATURES_OK =? 0 then panic "virtio disk FEATURES_OK unset"
    else
      virtio_queue;;
      wrreg (R VIRTIO_MMIO_STATUS) (Z.lor status VIRTIO_CONFIG_S_DRIVER_OK).

(** ** main.c *)

Definition start_kernel : M machine unit :=
  consoleinit;;
  printfinit;;
  printk [newline];;
  printk (chars "xv6 kernel is booting" ++ [newline]);;
  printk [newline];;
  kinit_locked;;
  kvminit;;
  kvminithart;;
  procinit_locked;;
  trapinit;;
  trapinithart;;
  plicinit;;
  plicinithart;;
  binit_locked;;
  iinit_locked;;
  fileinit;;
  virtio_disk_init;;
  onkern userinit;;
  modify (set_started 1).

(** The other CPUs spin until the first one has finished. *)
Definition join_kernel : M machine unit :=
  s ← gets started;
  if s =? 0 then block "started"
  else
    hart ← cpuid;
    printk (chars "hart " ++ printint hart 10 true ++ chars " starting" ++ [newline]);;
    kvminithart;;
    trapinithart;;
    plicinithart.

(** Up to the call of [scheduler]. *)
Definition main : M machine unit :=
  hart ← cpuid;
  if hart =? 0 then start_kernel else join_kernel.
End Main.
