(* ===== verification/MainSpec.v ===== *)
(** * The kernel starts (kernel/main.c)

    [main] on the first CPU of a machine that has been switched on: it returns, to call
    the scheduler, with the page table, the tables, the devices and the first process in
    the state that the other theorems start from; and the disk serves requests from then
    on. *)

From stdpp Require Import base numbers list strings relations.
From S2P Require Import Prelude Str Layout Kalloc Vm PageTable Uvm Ucopy Freewalk Aspace Kvm Image Demo ProcState Sched Lock Pipe.
From S2P Require Import Bio BioProofs BioSpec Log LogSpec Block Fs Dir FsAlloc Virtio VirtioSpec Printf Console Kern File Proc.
From S2P Require Import Sysproc Sysfile Exec ExecCommit Syscall Trap KernCalm KernInv FileInv ProcInv KernSpec Main.
Local Open Scope Z_scope.

(** ** Pages taken one by one *)

Section Pages.
Context {L : Linker} {LOk : LinkerOk L}.

Lemma kalloc_grown s q l : kinv s (q :: l) →
  wp kalloc s (λ r s', r = q ∧ valid_page q ∧ kinv s' l ∧ grown s s' ∧ rc s q = 0 ∧ rc s' q = 1).
Proof.
  intros Hk. assert (Hq : valid_page q) by (apply (ki_valid _ _ _ Hk); by left).
  assert (H0 : rc s q = 0) by (apply (ki_free _ _ _ Hk); by left).
  eapply wp_mono; [by apply (kalloc_wp s (q :: l))|]. intros r s' (-> & Hk' & H1 & Hr & Hm). split_and!; try done.
  intros x Hx Hx0. assert (x ≠ q) by (intros ->; lia). split; [by apply Hr|]. rewrite Hm. apply same_page_mset; [apply Hq | apply Hx | done].
Qed.

(** Writing a page taken since [s0]. *)
Lemma write_grown s0 s l q f : kinv s l → grown s0 s → valid_page q → rc s0 q = 0 → 0 < rc s q →
  (∀ b, b < q ∨ q + PGSIZE ≤ b → f (mem s) b = mem s b) → kinv (set_mem f s) l ∧ grown s0 (set_mem f s).
Proof.
  intros Hk G Hq H0 H1 Hf.
  assert (HS : ∀ x, valid_page x → x ≠ q → same_page (mem s) (f (mem s)) x).
  { intros x Hx Hne b Hb. apply Hf. destruct Hx as [Hx _], Hq as [Hqa _]. unfold PGSIZE in *. lia. }
  split.
  - apply kinv_mem; [done|]. intros x Hx. apply HS; [by apply (ki_valid _ _ _ Hk)|]. intros ->. rewrite (ki_free _ _ _ Hk q Hx) in H1. lia.
  - intros x Hx Hr. destruct (G x Hx Hr) as [E S]. split; [done|]. intros b Hb. simpl. rewrite (HS x Hx); [by apply S | intros ->; lia | done].
Qed.

Lemma built_grown s0 s root tf ws : built s0 s root tf ws → grown s0 s.
Proof. intros B x. apply (tk_keep _ _ _ _ (bt_taken _ _ _ _ _ B)). Qed.

(** [uvmfirst] puts the code at address 0. *)
Lemma uvmfirst_wp s0 s l root tf src : built s0 s root tf [] → kinv s l → (3 ≤ length l)%nat → Z.of_nat (length src) < PGSIZE →
  wp (uvmfirst root src) s (λ _ s', ∃ q l', kinv s' l' ∧ (length l ≤ length l' + 3)%nat ∧ valid_page q ∧
    built s0 s' root tf [entry q 30] ∧ shows s' [entry q 30] (write_bytes 0 src (λ _, 0))).
Proof.
  intros [T Hs Hlf] Hk Hl Hsrc. unfold uvmfirst. rewrite (proj2 (Z.leb_gt _ _)) by done. apply wp_bind.
  eapply wp_mono; [by apply (taken_alloc s0 s l root [])|]. intros q s1 [(_ & _ & ->)|(Hv & (l1 & -> & Hk1) & T1 & (_ & _ & E1) & _)]; [simpl in Hl; lia|].
  simpl in T1. destruct (tk_page _ _ _ _ T1 q ltac:(by left)) as (_ & Hr1 & Hr0 & _).
  assert (Hout : ∀ b, b < q ∨ q + PGSIZE ≤ b → mset q 0 PGSIZE (mem s1) b = mem s1 b) by (intros; by apply mset_out).
  apply wp_bind, wp_modify. destruct (taken_write s0 s1 root [q] q (mset q 0 PGSIZE) T1 ltac:(by left) Hout) as (T2 & (_ & _ & E2) & _).
  assert (G1 : grown s0 s1) by (intros x; apply (tk_keep _ _ _ _ T1)).
  destruct (write_grown s0 s1 l1 q (mset q 0 PGSIZE) Hk1 G1 Hv Hr0 ltac:(lia) Hout) as [Hk2 _].
  set (s2 := set_mem (mset q 0 PGSIZE) s1) in *. apply wp_bind. destruct (valid_page_bounds q Hv) as [Hqb Hqa].
  eapply wp_mono; [apply (built_map s0 s2 l1 root tf [] q 30 Hk2); try done; intros va Hva; rewrite E2, E1; by apply Hs|].
  intros r s3 (K & [(_ & B & l3 & Hk3 & Hc)|(_ & _ & _ & Hc)]); [|simpl in Hl; lia]. apply wp_modify.
  simpl app in B. assert (Ep : PTE2PA (entry q 30) = q) by (apply entry_page; done || lia).
  destruct (built_write s0 s3 l3 root tf _ 0 (entry q 30) 0 src B Hk3 eq_refl ltac:(lia) ltac:(lia)) as (B4 & Hk4 & Sh).
  rewrite Ep, Z.add_0_r in *. exists q, l3. split; [done|]. split; [simpl; lia|]. split; [done|]. split; [done|]. apply Sh.
  intros [|] w o Hi Ho; [|done]. injection Hi as <-. rewrite Ep, (K q) by (by left || lia). unfold s2. simpl. by rewrite mset_in by lia.
Qed.
End Pages.

(** ** The first process *)

Section First.
Context {L : Linker} {LOk : LinkerOk L} {Y : Symbols}.

(** The process [userinit] makes in a free slot. *)
Definition first_process (tk tf root : Z) (p : proc) : proc :=
  let p := alloc_final tk (set_pagetable root (set_trapframe tf (alloc_init 1 tk p))) in
  let p := set_sz PGSIZE p in
  let p := set_name (copy_name (p_name p) (chars "initcode")) p in
  set_state RUNNABLE (set_cwd (Some 0%nat) p).

(** Its trap frame. *)
Definition first_frame (tf : Z) (m : Z → Z) : Z → Z := store64 (store64 m (tf + tf_epc) 0) (tf + tf_sp) PGSIZE.

Lemma first_frame_out tf m b : b < tf ∨ tf + PGSIZE ≤ b → first_frame tf m b = m b.
Proof. intros H. unfold first_frame, tf_epc, tf_sp, PGSIZE in *. by rewrite !store64_out by lia. Qed.

(** The memory of the first process: a page with the code and the trap frame. *)
Record first_memory (s0 s : kstate) (tf root q : Z) : Prop := FirstMemory {
  fm_grown : grown s0 s;
  fm_frame : valid_page tf ∧ rc s0 tf = 0 ∧ rc s tf = 1;
  fm_space : live_space s root tf [entry q 30];
  fm_image : shows s [entry q 30] (write_bytes 0 initcode (λ _, 0));
  fm_regs : load64 (mem s) (tf + tf_epc) = 0 ∧ load64 (mem s) (tf + tf_sp) = PGSIZE;
}.

Lemma first_memory_ok s0 s1 s l root tf q : grown s0 s1 → valid_page tf → rc s0 tf = 0 → rc s1 tf = 1 →
  kinv s l → built s1 s root tf [entry q 30] → shows s [entry q 30] (write_bytes 0 initcode (λ _, 0)) →
  kinv (set_mem (first_frame tf) s) l ∧ first_memory s0 (set_mem (first_frame tf) s) tf root q.
Proof.
  intros G Ht H0 H1 Hk B Sh. pose proof (bt_taken _ _ _ _ _ B) as T. destruct (tk_keep _ _ _ _ T tf Ht ltac:(lia)) as [Er _].
  assert (Hout : ∀ b, b < tf ∨ tf + PGSIZE ≤ b → first_frame tf (mem s) b = mem s b) by (intros; by apply first_frame_out).
  destruct (write_grown s0 s l tf (first_frame tf) Hk (grown_trans _ _ _ G (built_grown _ _ _ _ _ B)) Ht H0 ltac:(lia) Hout) as [Hk' G'].
  destruct (valid_page_bounds tf Ht) as [Htb _]. split; [done|]. split; [done | by rewrite <- H1, <- Er | | |].
  - apply (live_same s _ l root tf); [apply (built_live _ _ _ _ _ B); lia | done | | done]. intros x Hx. split; [|done].
    destruct Hx as (p & Hp & E). destruct (pw_page _ _ (tk_wf _ _ _ _ T) p x Hp E) as [Hv _].
    assert (x ≠ tf) by (intros ->; pose proof (tk_node _ _ _ _ T tf (ex_intro _ p (conj Hp E))); lia).
    intros b Hb. apply first_frame_out. destruct Hv as [Hx _], Ht as [Hta _]. unfold PGSIZE in *. lia.
  - eapply shows_keeps; [|exact Sh]. intros x Hx b Hb. simpl. apply first_frame_out.
    destruct (tk_page _ _ _ _ T x Hx) as (Hv & _ & Hx0 & _). assert (x ≠ tf) by (intros ->; lia).
    destruct Hv as [Hx1 _], Ht as [Hta _]. unfold PGSIZE in *. lia.
  - simpl. unfold first_frame, tf_epc, tf_sp. rewrite load64_store64_ne, !load64_store64 by lia. done.
Qed.

(** What [userinit] leaves of the kernel's data [k], with the memory [s]. *)
Definition after_userinit (k : kern lstate) (s : kstate) (tf root : Z) (p : proc) (t : list proc) (i : inode) (ti : list inode) : kern lstate :=
  Kern (FState (blocks (fs k)) (sb (fs k)) (Inode ROOTDEV ROOTINO 1 (i_lock i) 0 (i_type i) (i_major i) (i_minor i) (i_nlink i) (i_size i) (i_addrs i) :: ti)
      s root 0 1) (first_process (ticks k) tf root p :: t) (files k) (pipes k) (cons k) (tx k) 2 (ticks k) (Some 0%nat) 0.

(** A kernel before [userinit]. *)
Record before_first (k : kern lstate) (p : proc) (t : list proc) (i : inode) (ti : list inode) : Prop := BeforeFirst {
  bf_procs : procs k = p :: t;
  bf_unused : p_state p = UNUSED ∧ p_cwd p = None;
  bf_inodes : itable (fs k) = i :: ti;
  bf_free : Forall (λ i, i_ref i = 0) (i :: ti);
  bf_next : nextpid k = 1;
  bf_cur : cur k = 0%nat;
}.

Lemma iget_scan_none n l : Forall (λ i, i_ref i = 0) l → iget_scan n (Some 0%nat) ROOTDEV ROOTINO l = (false, Some 0%nat).
Proof. intros H. revert n. induction H as [|i l Hi _ IH]; intros n; [done|]. cbn [iget_scan]. rewrite Hi. apply IH. Qed.

Lemma userinit_wp k p t i ti l : before_first k p t i ti → kinv (kmem k) l → (9 ≤ length l)%nat →
  wp userinit k (λ _ k', ∃ s tf root q l', k' = after_userinit k s tf root p t i ti ∧
    kinv s l' ∧ (length l ≤ length l' + 9)%nat ∧ first_memory (kmem k) s tf root q).
Proof.
  intros [Hp [Hu Hc] Hi Hf Hn Hcur] Hk Hl. destruct k as [[bl sb0 it s0 upt0 ucwd0 upid0] ps fls pps cn u np tk ip cu].
  cbn [procs fs itable nextpid cur kmem umem] in *. subst ps it np cu.
  unfold userinit, allocproc. apply wp_bind, wp_bind, wp_gets. cbn [procs find_unused]. unfold has_state. rewrite bool_decide_true by done.
  apply wp_bind. unfold allocpid. apply wp_bind, wp_gets, wp_bind, wp_modify, wp_ret. apply wp_bind, wp_gets, wp_bind, wp_modify.
  destruct l as [|tf l]; [simpl in Hl; lia|]. apply wp_bind, wp_onmem. eapply wp_mono; [by apply (kalloc_grown s0 tf l)|].
  intros tf' s1 (-> & Ht & Hk1 & G1 & H0 & H1). destruct (valid_page_bounds tf Ht) as [Htb _].
  apply wp_bind, wp_modify. rewrite (proj2 (Z.eqb_neq tf 0)) by lia. apply wp_bind, wp_onmem.
  eapply wp_mono; [apply (proc_pagetable_wp s1 l tf Hk1); unfold PGSIZE; lia|]. simpl length in Hl.
  intros root s2 [(_ & _ & ?)|(Hr & B & l2 & Hk2 & Hl2)]; [lia|]. destruct (valid_page_bounds root Hr) as [Hrb _].
  apply wp_bind, wp_modify. rewrite (proj2 (Z.eqb_neq root 0)) by lia. apply wp_bind, wp_modify, wp_ret.
  apply wp_bind, wp_modify, wp_bind, wp_gets. apply wp_bind, wp_onmem.
  eapply wp_mono; [apply (uvmfirst_wp s1 s2 l2 root tf initcode B Hk2); [lia | done]|].
  intros [] s3 (q & l3 & Hk3 & Hl3 & Hq & B3 & Sh). apply wp_bind, wp_modify.
  apply wp_bind, wp_onmem, wp_modify. apply wp_bind, wp_onmem, wp_modify. apply wp_bind, wp_modify.
  destruct (first_memory_ok s0 s1 s3 l3 root tf q G1 Ht H0 H1 Hk3 B3 Sh) as [Hk4 F].
  apply wp_bind. unfold onfs. apply wp_zoom. unfold namei, namex. apply wp_bind, wp_bind.
  change (first_byte (chars "/") =? slash) with true. cbv iota. unfold iget. apply wp_bind, wp_gets.
  assert (Es : iget_scan 0 None ROOTDEV ROOTINO (i :: ti) = (false, Some 0%nat)).
  { apply Forall_cons in Hf as [Hi0 Hti]. cbn [iget_scan]. rewrite Hi0. by apply iget_scan_none. }
  match goal with |- context [iget_scan 0 None ROOTDEV ROOTINO ?x] => change x with (i :: ti) end. rewrite Es. cbv iota.
  apply wp_bind, wp_modify, wp_ret. change (skipelem (chars "/") (replicate (Z.to_nat DIRSIZ) 0)) with (@None (list Z * list Z)).
  cbn [namex_loop length chars]. apply wp_ret, wp_ret. apply wp_bind, wp_modify, wp_modify.
  exists (set_mem (first_frame tf) s3), tf, root, q, l3. split; [|split; [done|split; [simpl length; lia | done]]].
  destruct p. simpl in Hc. subst. reflexivity.
Qed.
End First.

(** ** The disk *)

(** Keeps a machine given by its fields in that form; one write to a device. *)
Ltac fields := lazy beta iota delta [add_mmio add_locks set_mdisk set_mk set_mh set_kpt set_devsw set_locking
  mk mdisk mh kernel_pagetable devsw pr_locking mlocks mmio started set_tty set_kmem set_fs set_umem set_kprocs kmem fs_for set_blocks set_cache set_itable
  fs procs files pipes cons tx nextpid ticks initproc cur blocks sb itable umem upt ucwd upid cache lg].
Ltac write := apply wp_bind, wp_modify; fields.

(** A device that follows the virtio specification for a block device: it identifies
    itself, accepts any of the features it offers, has a queue that is long enough and
    not in use until it is told so. *)
Record disk_device (answers : list (Z * Z) → Z → Z) : Prop := DiskDevice {
  dd_magic : ∀ h, u32 (answers h (R VIRTIO_MMIO_MAGIC_VALUE)) = 0x74726976;
  dd_version : ∀ h, u32 (answers h (R VIRTIO_MMIO_VERSION)) = 2;
  dd_id : ∀ h, u32 (answers h (R VIRTIO_MMIO_DEVICE_ID)) = 2;
  dd_vendor : ∀ h, u32 (answers h (R VIRTIO_MMIO_VENDOR_ID)) = 0x554d4551;
  dd_accepts : ∀ h f st, Z.land f (u32 (answers h (R VIRTIO_MMIO_DEVICE_FEATURES))) = f → Z.testbit st 3 = true →
    Z.testbit (u32 (answers (h ++ [(R VIRTIO_MMIO_DRIVER_FEATURES, f); (R VIRTIO_MMIO_STATUS, st)]) (R VIRTIO_MMIO_STATUS))) 3 = true;
  dd_idle : ∀ h, Forall (λ w, w.1 ≠ R VIRTIO_MMIO_QUEUE_READY) h → u32 (answers h (R VIRTIO_MMIO_QUEUE_READY)) = 0;
  dd_max : ∀ h, NUM ≤ u32 (answers h (R VIRTIO_MMIO_QUEUE_NUM_MAX));
}.

(** The features the driver asks for are among those offered. *)
Lemma driver_features_sub x : Z.land (u32 (driver_features x)) x = u32 (driver_features x).
Proof.
  assert (H : ∀ l y, Z.land y x = y → Z.land (foldl (λ f n, Z.land f (Z.lnot (Z.shiftl 1 n))) y l) x = foldl (λ f n, Z.land f (Z.lnot (Z.shiftl 1 n))) y l).
  { induction l as [|n l IH]; intros y Hy; [done|]. cbn [foldl]. apply IH. rewrite <- Z.land_assoc, (Z.land_comm _ x), Z.land_assoc. by rewrite Hy. }
  unfold u32. rewrite <- Z.land_ones by lia. rewrite <- Z.land_assoc, (Z.land_comm (Z.ones 32)), Z.land_assoc. unfold driver_features.
  by rewrite H by apply Z.land_diag.
Qed.

(** The writes of [virtio_disk_init], for the features [f], the pages of the queue and
    the status read back. *)
Definition negotiation (f : Z) : list (Z * Z) :=
  [(R VIRTIO_MMIO_STATUS, 0); (R VIRTIO_MMIO_STATUS, 1); (R VIRTIO_MMIO_STATUS, 3); (R VIRTIO_MMIO_DRIVER_FEATURES, f); (R VIRTIO_MMIO_STATUS, 11);
   (R VIRTIO_MMIO_QUEUE_SEL, 0)].
Definition queue_setup (d a u st : Z) : list (Z * Z) :=
  [(R VIRTIO_MMIO_QUEUE_NUM, NUM); (R VIRTIO_MMIO_QUEUE_DESC_LOW, u32 d); (R VIRTIO_MMIO_QUEUE_DESC_HIGH, Z.shiftr d 32);
   (R VIRTIO_MMIO_DRIVER_DESC_LOW, u32 a); (R VIRTIO_MMIO_DRIVER_DESC_HIGH, Z.shiftr a 32); (R VIRTIO_MMIO_DEVICE_DESC_LOW, u32 u);
   (R VIRTIO_MMIO_DEVICE_DESC_HIGH, Z.shiftr u 32); (R VIRTIO_MMIO_QUEUE_READY, 1); (R VIRTIO_MMIO_STATUS, Z.lor st 4)].

(** Locks that have been initialised. *)
Definition unlocked (names : list string) : list (string * spinlock) := (λ n, (n, lock0)) <$> names.

Section Disk.
Context {L : Linker} {LOk : LinkerOk L}.

(** Pages taken since [s0], all zero. *)
Definition zero_pages (s0 s : kstate) (P : list Z) : Prop :=
  NoDup P ∧ ∀ x, x ∈ P → valid_page x ∧ rc s0 x = 0 ∧ rc s x = 1 ∧ ∀ b, x ≤ b < x + PGSIZE → mem s b = 0.

Lemma zero_state s0 s l d a u :
  kinv s l → grown s0 s → NoDup [d; a; u] → (∀ x, x ∈ [d; a; u] → valid_page x ∧ rc s0 x = 0 ∧ rc s x = 1) →
  let s' := set_mem (mset u 0 PGSIZE) (set_mem (mset a 0 PGSIZE) (set_mem (mset d 0 PGSIZE) s)) in
  kinv s' l ∧ grown s0 s' ∧ zero_pages s0 s' [d; a; u].
Proof.
  intros Hk G ND HP s'. assert (HO : ∀ x m b, b < x ∨ x + PGSIZE ≤ b → mset x 0 PGSIZE m b = m b) by (intros; by apply mset_out).
  destruct (HP d ltac:(by constructor)) as (Vd & Zd & Rd). destruct (HP a ltac:(by repeat constructor)) as (Va & Za & Ra).
  destruct (HP u ltac:(by repeat constructor)) as (Vu & Zu & Ru).
  destruct (write_grown s0 s l d (mset d 0 PGSIZE) Hk G Vd Zd ltac:(lia) (HO d _)) as [K1 G1].
  destruct (write_grown s0 _ l a (mset a 0 PGSIZE) K1 G1 Va Za ltac:(change (0 < rc s a); lia) (HO a _)) as [K2 G2].
  destruct (write_grown s0 _ l u (mset u 0 PGSIZE) K2 G2 Vu Zu ltac:(change (0 < rc s u); lia) (HO u _)) as [K3 G3].
  split; [done|]. split; [done|]. split; [done|]. intros x Hx. destruct (HP x Hx) as (Vx & Zx & Rx). split_and!; [done..|].
  intros b Hb. unfold s'. simpl. rewrite !elem_of_cons in Hx. unfold mset.
  repeat match goal with |- context [if ?c then _ else _] => destruct c eqn:? end; try done.
  exfalso. destruct Hx as [->|[->|[->|?%elem_of_nil]]]; [| | |done]; lia.
Qed.

Lemma three_pages s l : kinv s l → (3 ≤ length l)%nat → ∃ d a u s1 s2 s3 l',
  kalloc s = Ret (d, s1) ∧ kalloc s1 = Ret (a, s2) ∧ kalloc s2 = Ret (u, s3) ∧ kinv s3 l' ∧ length l = (length l' + 3)%nat ∧ grown s s3 ∧
  NoDup [d; a; u] ∧ ∀ x, x ∈ [d; a; u] → valid_page x ∧ rc s x = 0 ∧ rc s3 x = 1.
Proof.
  intros Hk Hl. destruct l as [|d [|a [|u l]]]; simpl in Hl; try lia.
  destruct (wp_elim _ _ _ (kalloc_grown s d _ Hk)) as (? & s1 & E1 & -> & Vd & K1 & G1 & Zd & Rd).
  destruct (wp_elim _ _ _ (kalloc_grown s1 a _ K1)) as (? & s2 & E2 & -> & Va & K2 & G2 & Za & Ra).
  destruct (wp_elim _ _ _ (kalloc_grown s2 u _ K2)) as (? & s3 & E3 & -> & Vu & K3 & G3 & Zu & Ru).
  exists d, a, u, s1, s2, s3, l. split_and!; try done; [simpl; lia | by eapply grown_trans, grown_trans | |].
  - pose proof (ki_nodup _ _ _ Hk) as N. by apply (NoDup_app [d; a; u] l) in N as [? _].
  - assert (Z1 : ∀ x, x ∈ d :: a :: u :: l → rc s x = 0) by (intros x Hx; by apply (ki_free _ _ _ Hk)).
    destruct (G2 d Vd ltac:(lia)) as [R2 _]. destruct (G3 d Vd ltac:(lia)) as [R3 _]. destruct (G3 a Va ltac:(lia)) as [R4 _].
    intros x. rewrite !elem_of_cons. intros [->|[->|[->|?%elem_of_nil]]]; [| | |done]; (split; [done|]); (split; [apply Z1; by repeat constructor | lia]).
Qed.

Context (answers : list (Z * Z) → Z → Z) (DD : disk_device answers).

(** The machine after [virtio_disk_init], with the memory [s] and the writes [w]. *)
Definition disk_set_up (m : machine) (s : kstate) (w : list (Z * Z)) : machine :=
  Machine (set_kmem s (mk m)) (init_queue (mdisk m)) (mh m) (kernel_pagetable m) (devsw m) (pr_locking m) (mlocks m ++ unlocked ["virtio_disk"])
    (mmio m ++ w) (started m).

Lemma probe_wp (m : machine) Q : Q true m → wp (virtio_probe answers) m Q.
Proof.
  intros HQ. unfold virtio_probe. destruct DD as [D1 D2 D3 D4 _ _ _]. cbn [registers_read].
  apply wp_bind, wp_gets. rewrite D1. apply wp_bind, wp_gets. rewrite D2. apply wp_bind, wp_gets. rewrite D3.
  apply wp_bind, wp_gets. rewrite D4. by apply wp_ret.
Qed.

(** An operation on memory, of a machine given by its fields. *)
Lemma onkern_mem_wp {A} (f : M kstate A) k vd h kpt dv pl lk mm st (Q : A → machine → Prop) :
  wp f (kmem k) (λ a s, Q a (Machine (set_kmem s k) vd h kpt dv pl lk mm st)) →
  wp (onkern (onmem f)) (Machine k vd h kpt dv pl lk mm st) Q.
Proof. intros H. by apply wp_zoom, wp_onmem. Qed.

(** The handshake: the features asked for are among those offered, so that the device
    accepts them. *)
Lemma negotiate_wp k vd h kpt dv pl lk mm st0 Q :
  (∀ f st, Z.land f (u32 (answers (mm ++ take 3 (negotiation f)) (R VIRTIO_MMIO_DEVICE_FEATURES))) = f → Z.testbit st 3 = true →
    Q st (Machine k vd h kpt dv pl lk (mm ++ take 5 (negotiation f)) st0)) →
  wp (virtio_negotiate answers) (Machine k vd h kpt dv pl lk mm st0) Q.
Proof.
  intros HQ. unfold virtio_negotiate. do 3 write. apply wp_bind, wp_gets. fields. rewrite <- !app_assoc.
  set (f := u32 (driver_features _)). do 2 write. apply wp_gets. fields. rewrite <- !app_assoc.
  assert (Hf : Z.land f (u32 (answers (mm ++ take 3 (negotiation f)) (R VIRTIO_MMIO_DEVICE_FEATURES))) = f) by apply driver_features_sub.
  apply (HQ f); [done|]. pose proof (dd_accepts _ DD (mm ++ take 3 (negotiation f)) f 11 Hf eq_refl) as H. rewrite <- app_assoc in H. exact H.
Qed.

(** The queue gets three zeroed pages. *)
Lemma queue_wp k vd h kpt dv pl lk mm st0 l Q : kinv (kmem k) l → (3 ≤ length l)%nat → Forall (λ w, w.1 ≠ R VIRTIO_MMIO_QUEUE_READY) mm →
  (∀ s d a u l' st, kinv s l' → length l = (length l' + 3)%nat → grown (kmem k) s → zero_pages (kmem k) s [d; a; u] →
    Q tt (Machine (set_kmem s k) (init_queue vd) h kpt dv pl lk (mm ++ (R VIRTIO_MMIO_QUEUE_SEL, 0) :: take 8 (queue_setup d a u st)) st0)) →
  wp (virtio_queue answers) (Machine k vd h kpt dv pl lk mm st0) Q.
Proof.
  intros Hk Hl Hr HQ. destruct (three_pages (kmem k) l Hk Hl) as (d & a & u & s1 & s2 & s3 & l' & E1 & E2 & E3 & Hk3 & Hl3 & G & ND & HP).
  destruct (zero_state _ s3 l' d a u Hk3 G ND HP) as (Hk4 & G4 & Z4).
  assert (NZ : ∀ x, x ∈ [d; a; u] → (x =? 0) = false) by (intros x Hx; destruct (valid_page_bounds x (proj1 (HP x Hx))); lia).
  unfold virtio_queue. write. apply wp_bind, wp_gets. fields. rewrite (dd_idle _ DD) by (apply Forall_app; split; [done | by repeat constructor]).
  change (nonzero 0) with false. cbv iota. apply wp_bind, wp_gets. fields.
  set (mx := u32 (answers _ _)). assert (Hm : NUM ≤ mx) by apply (dd_max _ DD).
  rewrite (proj2 (Z.eqb_neq mx 0)), (proj2 (Z.ltb_ge mx NUM)) by (unfold NUM in *; lia). clearbody mx.
  apply wp_bind, onkern_mem_wp, (wp_intro _ _ _ _ _ E1). apply wp_bind, onkern_mem_wp, (wp_intro _ _ _ _ _ E2).
  apply wp_bind, onkern_mem_wp, (wp_intro _ _ _ _ _ E3). rewrite (NZ d), (NZ a), (NZ u) by (by repeat constructor). cbn [orb].
  do 3 apply wp_bind, onkern_mem_wp, wp_modify. do 8 write. apply wp_modify. fields. rewrite <- !app_assoc.
  exact (HQ _ d a u l' 0 Hk4 Hl3 G4 Z4).
Qed.

Lemma virtio_disk_init_wp (m : machine) l : kinv (kmem (mk m)) l → (3 ≤ length l)%nat → Forall (λ w, w.1 ≠ R VIRTIO_MMIO_QUEUE_READY) (mmio m) →
  wp (virtio_disk_init answers) m (λ _ m', ∃ s d a u f st l', m' = disk_set_up m s (negotiation f ++ queue_setup d a u st) ∧
    kinv s l' ∧ length l = (length l' + 3)%nat ∧ grown (kmem (mk m)) s ∧ zero_pages (kmem (mk m)) s [d; a; u] ∧
    Z.land f (u32 (answers (mmio m ++ take 3 (negotiation f)) (R VIRTIO_MMIO_DEVICE_FEATURES))) = f).
Proof.
  intros Hk Hl Hr. destruct m as [k vd h kpt dv pl lk mm st0]. cbn [mk mmio] in *.
  unfold virtio_disk_init. write. apply wp_bind, probe_wp. cbn [negb]. apply wp_bind, negotiate_wp. intros f st Hf Hst.
  assert (Hs8 : (Z.land st VIRTIO_CONFIG_S_FEATURES_OK =? 0) = false).
  { apply Z.eqb_neq. intros E. apply (f_equal (λ z, Z.testbit z 3)) in E. rewrite Z.land_spec, Hst in E. done. }
  rewrite Hs8. apply wp_bind, (queue_wp _ _ _ _ _ _ _ _ _ l); [done | done | apply Forall_app; split; [done | by repeat constructor]|].
  intros s d a u l' st' Hk' Hl' G Z. apply wp_modify. fields. exists s, d, a, u, f, st, l'. split; [|done].
  unfold disk_set_up. fields. rewrite <- !app_assoc. reflexivity.
Qed.
End Disk.

(** ** From power on to the scheduler *)

(** The texts [main] prints. *)
Definition banner : list Z := newline :: chars "xv6 kernel is booting" ++ [newline; newline].

Definition said (l : list Z) (k : kern lstate) : kern lstate := set_tty (cons k) (foldl (λ u c, transmit c u) (tx k) l) k.

Lemma conswrite_out l t Q : Forall (λ c, c ≠ BACKSPACE) l → Q tt (set_uart (λ u, foldl (λ u c, transmit c u) u l) t) → wp (conswrite l) t Q.
Proof.
  intros H. revert t. induction H as [|c l Hc _ IH]; intros t HQ; cbn [conswrite].
  - apply wp_ret. by destruct t.
  - apply wp_bind. unfold consputc. rewrite (proj2 (Z.eqb_neq _ _) Hc). apply wp_modify. by apply IH.
Qed.

Lemma printk_wp l m Q : forallb (λ c, negb (c =? BACKSPACE)) l = true → Q tt (set_mk (said l (mk m)) m) → wp (printk l) m Q.
Proof.
  intros H HQ. apply wp_zoom, wp_zoom, conswrite_out.
  - apply Forall_forall. intros c Hc. rewrite forallb_forall in H. specialize (H c). rewrite <- list_elem_of_In in H. specialize (H Hc). lia.
  - destruct m as [[[] ? ? ? ? ? ? ? ? ?] ? ? ? ? ? ? ? ?]. exact HQ.
Qed.

(** Power on: the data of the kernel is zero but for its initialisers, the memory
    behind it arbitrary; [d] is the disk, [room] the room in the UART, [h] the registers
    [start] leaves. *)
Definition power_on (d : Z → bdata) (mm : Z → Z) (pp : Z → pipe) (room : nat) (h : hart) (vd : vdisk) : machine :=
  Machine (Kern (FState (LState (cold_cache d) (Log 0 0 0 0 0 0 (λ _, 0))) (SuperBlock 0 0 0 0 0 0 0 0) (replicate (Z.to_nat NINODE) inode0)
      (boot_kstate mm) 0 0 0) (replicate (Z.to_nat NPROC) proc_zero) (replicate (Z.to_nat NFILE) file_zero) pp (Console (λ _, 0) 0 0 0)
      (Uart (λ _, 0) 0 0 room [] []) 1 0 None 0)
    vd h 0 (replicate (Z.to_nat NDEV) (Devsw None None)) 0 [] [] 0.

(** The device table, locks and register writes up to [virtio_disk_init]. *)
Definition device_table : list devsw_entry :=
  alter (λ _, Devsw (Some Consoleread) (Some Consolewrite)) (Z.to_nat CONSOLE) (replicate (Z.to_nat NDEV) (Devsw None None)).
Definition first_locks : list (string * spinlock) := unlocked (
  ["cons"; "uart"; "pr"; "kmem"; "nextpid"; "wait_lock"] ++ replicate (Z.to_nat NPROC) "proc" ++ ["time"; "bcache"; "itable"; "ftable"]).
Definition first_writes (hart : Z) : list (Z * Z) :=
  [(UART0 + 1, 0); (UART0 + 3, 0x80); (UART0, 3); (UART0 + 1, 0); (UART0 + 3, 3); (UART0 + 2, 7); (UART0 + 1, 3);
   (PLIC + 40, 1); (PLIC + 4, 1); (PLIC_SENABLE hart, 0x402); (PLIC_SPRIORITY hart, 0)].

(** Steps that only set fields of the machine. *)
Ltac pure_steps :=
  repeat lazymatch goal with
  | |- wp (mbind _ _) _ _ => apply wp_bind
  | |- wp (modify _) _ _ => apply wp_modify
  | |- wp (gets _) _ _ => apply wp_gets
  end.

Section Start.
Context {L : Linker} {LOk : LinkerOk L} {Y : Symbols} (answers : list (Z * Z) → Z → Z).

(** The machine before [virtio_disk_init]. *)
Definition half_way (d : Z → bdata) (s : kstate) (root : Z) (pp : Z → pipe) (room : nat) (h : hart) (vd : vdisk) : machine :=
  Machine (Kern (FState (LState (boot_cache d) (Log 0 0 0 0 0 0 (λ _, 0))) (SuperBlock 0 0 0 0 0 0 0 0) (replicate (Z.to_nat NINODE) inode0)
      s 0 0 0) (procinit (replicate (Z.to_nat NPROC) proc_zero)) (replicate (Z.to_nat NFILE) file_zero) pp (Console (λ _, 0) 0 0 0)
      (foldl (λ u c, transmit c u) (Uart (λ _, 0) 0 0 room [] []) banner) 1 0 None 0)
    vd (w_stvec sym_kernelvec (w_satp (MAKE_SATP root) h)) root device_table 1 first_locks (first_writes (i32 (r_tp h))) 0.

Lemma start_kernel_front d mm pp room h vd Q : (333 ≤ length boot_pages)%nat →
  (∀ s root qs l, kinv s l → (length boot_pages ≤ length l + 333)%nat → kernel_space s root qs →
    wp (virtio_disk_init answers;; onkern userinit;; modify (set_started 1)) (half_way d s root pp room h vd) Q) →
  wp (start_kernel answers) (power_on d mm pp room h vd) Q.
Proof.
  intros Hl HK. unfold start_kernel, power_on, consoleinit, uartinit, printfinit, WriteReg, wrreg, initlock. pure_steps. fields.
  apply printk_wp; [done|]. apply wp_bind, printk_wp; [done|]. apply wp_bind, printk_wp; [done|]. unfold said. fields.
  apply wp_bind, wp_bind, wp_modify, wp_zoom, wp_onmem. eapply wp_mono; [apply (kinit_wp mm)|]. intros [] s1 K1.
  apply wp_bind, wp_bind, wp_zoom, wp_onmem. eapply wp_mono; [apply (kvmmake_space s1 boot_pages K1 Hl)|].
  intros root s (qs & l & K & Hc & KS & _). apply wp_modify. apply wp_bind, wp_bind, wp_gets, wp_modify. fields.
  unfold procinit_locked, trapinit, trapinithart, plicinit, plicinithart, cpuid, binit_locked, initlock, wrreg. pure_steps. fields.
  apply wp_zoom, wp_modify. fields. pure_steps. fields. apply wp_zoom, wp_zoom, wp_zoom, wp_zoom. fields.
  eapply wp_intro; [apply binit_run|]. fields. apply wp_bind, wp_bind, wp_modify. fields. apply wp_zoom, wp_zoom, wp_modify. fields. apply wp_bind, wp_modify. fields.
  eapply (HK s root qs l) in K; [|done..]. exact K.
Qed.
End Start.

(** ** What [main] leaves *)

Section Boots.
Context {L : Linker} {LOk : LinkerOk L} {Y : Symbols} (answers : list (Z * Z) → Z → Z) (DD : disk_device answers).

(** The first process: runnable, with number 1, a kernel stack it starts on in [forkret],
    its code at address 0, the registers for its first return to user space, the root
    directory, and no open files. *)
Record first_ok (s : kstate) (p : proc) : Prop := FirstOk {
  fo_state : p_state p = RUNNABLE ∧ p_pid p = 1 ∧ p_parent p = None ∧ p_killed p = 0;
  fo_stack : p_kstack p = KSTACK 0 ∧ p_context p = sym_forkret :: KSTACK 0 + PGSIZE :: replicate 12 0;
  fo_files : p_cwd p = Some 0%nat ∧ p_ofile p = replicate (Z.to_nat NOFILE) None;
  fo_name : p_name p = chars "initcode" ++ replicate 8 0;
  fo_size : p_sz p = PGSIZE;
  fo_space : ∃ q, live_space s (p_pagetable p) (p_trapframe p) [entry q 30] ∧ shows s [entry q 30] (write_bytes 0 initcode (λ _, 0));
  fo_frame : valid_page (p_trapframe p) ∧ rc s (p_trapframe p) = 1;
  fo_regs : load64 (mem s) (p_trapframe p + tf_epc) = 0 ∧ load64 (mem s) (p_trapframe p + tf_sp) = PGSIZE;
}.

(** The machine [main] leaves for the scheduler, with the disk [d] and the driver [vd0]
    it started from. *)
Record booted (d : Z → bdata) (h : hart) (vd0 : vdisk) (m : machine) : Prop := Booted {
  bo_started : started m = 1;
  bo_output : u_wire (tx (mk m)) = banner;
  bo_devices : ∀ major, 0 ≤ major < NDEV →
    devsw m !! Z.to_nat major = Some (if has_dev major then Devsw (Some Consoleread) (Some Consolewrite) else Devsw None None);
  bo_hart : r_satp (mh m) = MAKE_SATP (kernel_pagetable m) ∧ r_stvec (mh m) = sym_kernelvec ∧ r_tp (mh m) = r_tp h;
  bo_memory : ∃ l, kinv (kmem (mk m)) l;
  bo_kernel : ∃ qs, kernel_space (kmem (mk m)) (kernel_pagetable m) qs;
  bo_first : ∃ p, procs (mk m) !! 0%nat = Some p ∧ first_ok (kmem (mk m)) p;
  bo_others : ∀ i p, procs (mk m) !! S i = Some p → p_state p = UNUSED ∧ p_kstack p = KSTACK (Z.of_nat (S i));
  bo_root : (∃ x, itable (fs (mk m)) !! 0%nat = Some x ∧ i_dev x = ROOTDEV ∧ i_inum x = ROOTINO ∧ i_ref x = 1 ∧ i_valid x = 0) ∧
    ∀ i x, itable (fs (mk m)) !! S i = Some x → i_ref x = 0;
  bo_cache : binv (cache (blocks (fs (mk m)))) boot_lru ∧ disk (cache (blocks (fs (mk m)))) = d ∧ wtrace (cache (blocks (fs (mk m)))) = [];
  bo_disk : mdisk m = init_queue vd0;
  bo_queue : ∃ s0 dsc av us f st, zero_pages s0 (kmem (mk m)) [dsc; av; us] ∧
    mmio m = first_writes (i32 (r_tp h)) ++ negotiation f ++ queue_setup dsc av us st;
  bo_locks : mlocks m = first_locks ++ unlocked ["virtio_disk"] ∧ pr_locking m = 1;
  bo_fresh : ∃ k0, fresh k0 ∧ userinit k0 = Ret (tt, mk m);
}.

Lemma device_table_spec major : 0 ≤ major < NDEV →
  device_table !! Z.to_nat major = Some (if has_dev major then Devsw (Some Consoleread) (Some Consolewrite) else Devsw None None).
Proof.
  unfold NDEV. intros H. assert (major = 0 ∨ major = 1 ∨ major = 2 ∨ major = 3 ∨ major = 4 ∨ major = 5 ∨ major = 6 ∨ major = 7 ∨ major = 8 ∨ major = 9) as C by lia.
  by repeat destruct C as [->|C]; [..|subst].
Qed.

Lemma procinit_zero i p : procinit (replicate (Z.to_nat NPROC) proc_zero) !! i = Some p → p = set_kstack (KSTACK (Z.of_nat i)) proc_zero.
Proof. unfold procinit. rewrite list_lookup_imap. intros (x & [-> _]%lookup_replicate & ->)%fmap_Some. done. Qed.

(** The kernel just before [userinit]. *)
Lemma half_way_fresh d s root pp room h vd w :
  let k := mk (disk_set_up (half_way d s root pp room h vd) s w) in
  fresh k ∧ before_first k (set_kstack (KSTACK 0) proc_zero) (tail (procinit (replicate (Z.to_nat NPROC) proc_zero))) inode0 (replicate 49 inode0).
Proof.
  split; split; try done.
  - apply Forall_forall. intros p [i Hi]%list_elem_of_lookup. by rewrite (procinit_zero i p Hi).
  - by apply Forall_replicate.
  - by repeat constructor.
Qed.

Lemma first_process_ok s0 s tf root q : first_memory s0 s tf root q →
  first_ok s (first_process 0 tf root (set_kstack (KSTACK 0) proc_zero)).
Proof. intros [_ (H1 & _ & H2) Hs Hi Hr]. split; try done. by exists q. Qed.

Lemma boots_wp d mm pp room h vd : i32 (r_tp h) = 0 → (345 ≤ length boot_pages)%nat →
  wp (main answers) (power_on d mm pp room h vd) (λ _ m, booted d h vd m).
Proof.
  intros Hh Hl. unfold main, cpuid. apply wp_bind, wp_gets. change (mh (power_on d mm pp room h vd)) with h. rewrite Hh. change (0 =? 0) with true. cbv iota.
  apply start_kernel_front; [lia|]. intros s root qs l Hk Hc KS. apply wp_bind.
  eapply wp_mono; [apply (virtio_disk_init_wp answers DD _ l); [exact Hk | lia | unfold half_way; cbn [mmio]; rewrite Hh; by repeat constructor]|].
  intros [] m (s1 & dsc & av & us & f & st & l1 & -> & Hk1 & Hl1 & G1 & Z1 & _). change (kmem (mk (half_way d s root pp room h vd))) with s in *.
  destruct (half_way_fresh d s1 root pp room h vd (negotiation f ++ queue_setup dsc av us st)) as [F B].
  apply wp_bind, wp_zoom. destruct (wp_elim _ _ _ (userinit_wp _ _ _ _ _ l1 B Hk1 ltac:(lia))) as ([] & k' & E & s2 & tf & rt & q & l2 & -> & Hk2 & _ & FM).
  apply (wp_intro _ _ _ _ _ E), wp_modify.
  assert (Z2 : zero_pages s s2 [dsc; av; us]).
  { destruct Z1 as [ND Z1]. split; [done|]. intros x Hx. destruct (Z1 x Hx) as (Vx & R0 & R1 & Zx). destruct (fm_grown _ _ _ _ _ FM x Vx) as [R2 S2]; [change (0 < rc s1 x); lia|].
    change (rc (kmem _) x) with (rc s1 x) in R2. split_and!; [done | done | lia|]. intros b Hb. rewrite (S2 b Hb). by apply Zx. }
  split; try done.
  - apply device_table_spec.
  - by exists l2.
  - exists qs. eapply kernel_space_grown; [apply (fm_grown _ _ _ _ _ FM)|]. by eapply kernel_space_grown.
  - eexists. split; [reflexivity|]. by eapply first_process_ok.
  - intros i p Hp. assert (Hp' : procinit (replicate (Z.to_nat NPROC) proc_zero) !! S i = Some p) by exact Hp.
    by rewrite (procinit_zero _ _ Hp').
  - split; [by eexists|]. intros i x Hx. assert (Hx' : replicate 49 inode0 !! i = Some x) by exact Hx. by apply lookup_replicate in Hx' as [-> _].
  - destruct (boot_cache_ok d) as (? & _ & ? & ? & _). done.
  - exists s, dsc, av, us, f, st. done.
  - eexists. split; [exact F | exact E].
Qed.

(** The digits of a number. *)
Lemma printint_text xx base sign : 2 ≤ base ≤ 16 → Forall (λ c, c ≠ BACKSPACE) (printint xx base sign).
Proof.
  intros Hb. unfold printint. apply Forall_rev, Forall_app. split; [|by destruct (sign && (xx <? 0)); repeat constructor].
  generalize 32%nat. intros n. generalize (if sign && (xx <? 0) then u32 (- xx) else u32 xx). induction n as [|n IH]; intros x; cbn [printint_loop]; constructor.
  - unfold digit, BACKSPACE. pose proof (Z.mod_pos_bound x base). destruct (x mod base <? 10); lia.
  - by destruct (x / base =? 0).
Qed.

(** Another CPU uses the same page table and leaves everything else alone. *)
Lemma joins_wp m h : i32 (r_tp h) ≠ 0 → started m = 1 →
  wp (main answers) (set_mh (λ _, h) m) (λ _ m', r_satp (mh m') = MAKE_SATP (kernel_pagetable m) ∧ r_stvec (mh m') = sym_kernelvec ∧
    kmem (mk m') = kmem (mk m) ∧ procs (mk m') = procs (mk m) ∧ fs (mk m') = fs (mk m) ∧ kernel_pagetable m' = kernel_pagetable m ∧ mdisk m' = mdisk m ∧
    mmio m' = mmio m ++ [(PLIC_SENABLE (i32 (r_tp h)), 0x402); (PLIC_SPRIORITY (i32 (r_tp h)), 0)]).
Proof.
  intros Hh Hs. destruct m as [[] ? ? ? ? ? ? ? st]. cbn [started] in Hs. subst st. unfold main, cpuid. apply wp_bind, wp_gets. fields.
  rewrite (proj2 (Z.eqb_neq _ 0) Hh). unfold join_kernel. apply wp_bind, wp_gets. fields. change (1 =? 0) with false. cbv iota.
  unfold cpuid. apply wp_bind, wp_gets. fields. apply wp_bind, printk_wp.
  { apply forallb_forall. intros c Hc. rewrite <- list_elem_of_In in Hc. rewrite !elem_of_app in Hc.
    assert (HF : Forall (λ c, c ≠ BACKSPACE) (chars "hart " ++ printint (i32 (r_tp h)) 10 true ++ chars " starting" ++ [newline])).
    { rewrite !Forall_app. split_and!; [| by apply printint_text | |]; apply (bool_decide_unpack _); vm_compute; done. }
    rewrite Forall_forall in HF. specialize (HF c). rewrite !elem_of_app in HF. specialize (HF ltac:(tauto)). lia. }
  unfold said. fields. unfold kvminithart, trapinithart, plicinithart, cpuid, wrreg. pure_steps. fields. rewrite <- app_assoc. split_and!; done.
Qed.

(** C9. On a machine with 345 free pages and a disk that follows the virtio specification,
    [main] on the first CPU returns, to call the scheduler: the banner is printed, paging
    is on with a page table that keeps the kernel's memory, stacks and guards apart, the
    disk has a queue in three zeroed pages of its own, only the console is a device, the
    buffer cache is sound and has written nothing, and the only process is the first one,
    ready to run its code at address 0 with the root directory.  The tables are those the
    theorems on all reachable states start from.  Every other CPU waits for this and then
    turns paging on with the same page table. *)
Theorem kernel_boots d mm pp room h vd : i32 (r_tp h) = 0 → (345 ≤ length boot_pages)%nat →
  let m0 := power_on d mm pp room h vd in
  ∃ m, main answers m0 = Ret (tt, m) ∧ booted d h vd m ∧
  ∀ h', i32 (r_tp h') ≠ 0 → main answers (set_mh (λ _, h') m0) = Block "started" ∧
    ∃ m', main answers (set_mh (λ _, h') m) = Ret (tt, m') ∧ r_satp (mh m') = r_satp (mh m) ∧ r_stvec (mh m') = sym_kernelvec ∧
      kmem (mk m') = kmem (mk m) ∧ procs (mk m') = procs (mk m) ∧ fs (mk m') = fs (mk m).
Proof.
  intros Hh Hl m0. destruct (wp_elim _ _ _ (boots_wp d mm pp room h vd Hh Hl)) as ([] & m & E & B). exists m. split; [done|]. split; [done|].
  intros h' Hh'. split.
  - unfold main, cpuid, gets, mbind, M_bind. cbn [set_mh mh]. rewrite (proj2 (Z.eqb_neq _ 0) Hh'). reflexivity.
  - destruct (wp_elim _ _ _ (joins_wp m h' Hh' (bo_started _ _ _ _ B))) as ([] & m' & E' & H1 & H2 & H3 & H4 & H5 & _). exists m'.
    rewrite H1. destruct (bo_hart _ _ _ _ B) as [-> _]. done.
Qed.
End Boots.

(** ** The disk from start-up on *)

Section Serves.
Context {L : Linker} (answers : list (Z * Z) → Z → Z).

(** Steps that leave the driver's variables alone, and those that set up its queue. *)
Definition driver_to {A} (g : vdisk → vdisk) (c : M machine A) : Prop := ∀ m, pwp c m (λ _ m', mdisk m' = g (mdisk m)).

Lemma driver_seq {A B} g (c : M machine A) (f : A → M machine B) : driver_to (λ v, v) c → (∀ a, driver_to g (f a)) → driver_to g (c ≫= f).
Proof. intros Hc Hf m. apply pwp_bind. eapply pwp_mono; [apply Hc|]. intros a m' <-. apply Hf. Qed.

Lemma driver_last {A B} g (c : M machine A) (f : A → M machine B) : driver_to g c → (∀ a, driver_to (λ v, v) (f a)) → driver_to g (c ≫= f).
Proof. intros Hc Hf m. apply pwp_bind. eapply pwp_mono; [apply Hc|]. intros a m' <-. apply Hf. Qed.

Lemma onkern_driver {A} (c : M (kern lstate) A) : driver_to (λ v, v) (onkern c).
Proof. intros m. apply pwp_zoom, pwp_any. done. Qed.

Lemma probe_driver : driver_to (λ v, v) (virtio_probe answers).
Proof.
  unfold virtio_probe. generalize [(VIRTIO_MMIO_MAGIC_VALUE, 0x74726976); (VIRTIO_MMIO_VERSION, 2); (VIRTIO_MMIO_DEVICE_ID, 2); (VIRTIO_MMIO_VENDOR_ID, 0x554d4551)].
  intros l. induction l as [|[r v] l IH]; intros m; cbn [registers_read]; [by apply pwp_ret|]. apply pwp_bind, pwp_gets. case_match; [apply IH | by apply pwp_ret].
Qed.

Lemma virtio_disk_init_driver : driver_to init_queue (virtio_disk_init answers).
Proof.
  unfold virtio_disk_init. apply driver_seq; [done | intros _]. apply driver_seq; [apply probe_driver | intros b]. destruct (negb b); [done|].
  apply driver_seq; [unfold virtio_negotiate; repeat (apply driver_seq; [done | intros]); done | intros st]. case_match; [done|].
  apply driver_last; [|done]. unfold virtio_queue. do 2 (apply driver_seq; [done | intros]). case_match; [done|]. apply driver_seq; [done | intros].
  do 2 (case_match; [done|]). do 3 (apply driver_seq; [apply onkern_driver | intros]). case_match; [done|].
  do 3 (apply driver_seq; [apply onkern_driver | intros]). do 8 (apply driver_seq; [done | intros]). done.
Qed.

End Serves.

(** ** A machine *)

(** A device that works on one request at a time. *)
Definition one_at_a_time (s s' : vdisk) : Prop :=
  (dev_busy s = [] ∧ dev_next s ≠ avail_idx s ∧ s' = taken s) ∨
  ∃ h b write i1 i2, dev_busy s = [h] ∧ chain s h b write i1 i2 ∧ s' = completed s 0 h b write.

(** The last value written to a register. *)
Definition last_write (h : list (Z * Z)) (r : Z) : Z := foldl (λ v w, if w.1 =? r then w.2 else v) 0 h.

Definition qemu (h : list (Z * Z)) (a : Z) : Z :=
  let r := a - VIRTIO0 in
  if r =? 0x000 then 0x74726976 else if r =? 0x004 then 2 else if r =? 0x008 then 2 else if r =? 0x00c then 0x554d4551
  else if r =? 0x034 then 1024 else if r =? 0x010 then 0x30006e54 else last_write h a.

Lemma qemu_ok : disk_device qemu.
Proof.
  split; try done.
  - intros h f st _ Hst. change (Z.testbit (u32 (last_write (h ++ [(R VIRTIO_MMIO_DRIVER_FEATURES, f); (R VIRTIO_MMIO_STATUS, st)]) (R VIRTIO_MMIO_STATUS))) 3 = true).
    unfold last_write. rewrite foldl_app. cbn [foldl fst snd]. rewrite Z.eqb_refl. unfold u32. by rewrite Z.mod_pow2_bits_low.
  - intros h Hh. change (u32 (last_write h (R VIRTIO_MMIO_QUEUE_READY)) = 0). unfold last_write.
    induction Hh as [|w h Hw _ IH]; [done|]. cbn [foldl]. by rewrite (proj2 (Z.eqb_neq _ _) Hw).
Qed.

#[local] Instance main_symbols : Symbols := {|
  sym_forkret := KERNBASE + 16;
  sym_usertrap := KERNBASE + 32;
  sym_kernelvec := KERNBASE + 48;
  sym_uservec := KERNBASE;
  sym_userret := KERNBASE + 8;
|}.

Definition first_hart : hart := Hart 0 0 0 0 0 0 0 0 false 0.

Lemma kernel_boots_witness : ∃ m, main (L := roomy) qemu (power_on (λ _ _, 0) (λ _, 0) (λ _, Pipe (λ _, 0) 0 0 0 0) 16 first_hart (vboot (λ _, 0) (λ _, 0) (λ _ _, 0))) = Ret (tt, m) ∧
  started m = 1 ∧ u_wire (tx (mk m)) = banner.
Proof.
  destruct (kernel_boots (L := roomy) (LOk := roomy_ok) qemu qemu_ok (λ _ _, 0) (λ _, 0) (λ _, Pipe (λ _, 0) 0 0 0 0) 16 first_hart (vboot (λ _, 0) (λ _, 0) (λ _ _, 0)) eq_refl)
    as (m & E & [H1 H2 _ _ _ _ _ _ _ _ _ _ _ _] & _); [vm_compute; repeat constructor|].
  exists m. split; [exact E|]. split; [exact H1 | exact H2].
Defined.

Definition fresh_disk : vdisk := init_queue (vboot (λ _, 7) (λ b, Z.of_nat b) (λ _ _, 0)).
Definition reading : vdisk := VirtioSpec.started fresh_disk 5 false 0 1 2.

Lemma disk_ready : ∃ m0 m, mdisk m0 = vboot (λ _, 7) (λ b, Z.of_nat b) (λ _ _, 0) ∧ virtio_disk_init qemu m0 = Ret (tt, m) ∧ mdisk m = fresh_disk.
Proof.
  set (k := Kern (FState (LState (cold_cache (λ _ _, 0)) (Log 0 0 0 0 0 0 (λ _, 0))) (SuperBlock 0 0 0 0 0 0 0 0) [] small_boot 0 0 0) [] [] (λ _, Pipe (λ _, 0) 0 0 0 0)
    (Console (λ _, 0) 0 0 0) (Uart (λ _, 0) 0 0 4 [] []) 1 0 None 0).
  set (m0 := Machine k (vboot (λ _, 7) (λ b, Z.of_nat b) (λ _ _, 0)) first_hart 0 [] 0 [] [] 0).
  destruct (wp_elim _ _ _ (virtio_disk_init_wp qemu qemu_ok m0 boot_pages (proj2 small_boot_inv) ltac:(vm_compute; repeat constructor) ltac:(constructor)))
    as ([] & m & E & s & d & a & u & f & st & l & -> & _).
  exists m0. eexists. split; [reflexivity|]. split; [exact E | reflexivity].
Qed.

