(* ===== verification/AsmSpec.v ===== *)
(** * Saving and restoring registers (kernel/swtch.S, kernel/trampoline.S,
    kernel/kernelvec.S, kernel/start.c)

    A context switch resumes where the other side left off; a trap from user space and
    the return from it, a trap in the kernel and a timer interrupt leave the registers
    of the code they interrupt as they were. *)

From stdpp Require Import base numbers list strings.
From S2P Require Import Prelude Layout Asm Boot.
Local Open Scope Z_scope.

(** ** Registers *)

Lemma fupd_eq {A B} `{EqDecision A} (f : A → B) k v : fupd f k v k = v.
Proof. unfold fupd. by rewrite decide_True. Qed.

Lemma fupd_ne {A B} `{EqDecision A} (f : A → B) k v x : x ≠ k → fupd f k v x = f x.
Proof. intros H. unfold fupd. by rewrite decide_False. Qed.

(** Registers hold 64-bit words. *)
Definition words (h : rv) : Prop := ∀ r, 0 ≤ regs h r < 2 ^ 64.

Lemma rget_regs h r : r ≠ zero → rget h r = regs h r.
Proof. intros H. unfold rget. by rewrite decide_False. Qed.

Lemma rget_word h r : words h → u64 (rget h r) = rget h r.
Proof. intros W. apply u64_small. unfold rget. destruct (decide _); [lia | apply W]. Qed.

(** ** Blocks of saves and of loads *)

(** Addresses [va .. va+n-1] are memory from [pa] on. *)
Definition maps (tr : Z → Z → option Z) (h : rv) (va n pa : Z) : Prop :=
  ∀ o, 0 ≤ o < n → phys tr h (u64 (va + o)) = Some (pa + o).

Definition saves (base : reg) (l : list (reg * Z)) : list instr := (λ x, Sd x.1 x.2 base) <$> l.
Definition loads (base : reg) (l : list (reg * Z)) : list instr := (λ x, Ld x.1 x.2 base) <$> l.

(** A table of registers and offsets: aligned words, no register [zero]. *)
Definition layout (n : Z) (l : list (reg * Z)) : Prop :=
  NoDup l.*1 ∧ NoDup l.*2 ∧ Forall (λ x, fst x ≠ zero ∧ 0 ≤ snd x ∧ snd x + 8 ≤ n ∧ snd x mod 8 = 0) l.

#[global] Instance layout_dec n l : Decision (layout n l).
Proof. apply _. Defined.

Lemma layout_cons n x l : layout n (x :: l) →
  (fst x ≠ zero ∧ 0 ≤ snd x ∧ snd x + 8 ≤ n ∧ snd x mod 8 = 0) ∧ (fst x ∉ l.*1) ∧ (snd x ∉ l.*2) ∧ layout n l.
Proof.
  intros (N1 & N2 & F). apply NoDup_cons in N1 as [? ?], N2 as [? ?]. apply Forall_cons in F as [? ?]. do 3 (split; [done|]). by split.
Qed.

(** A register that is not in a concrete table. *)
Ltac not_in := cbn; rewrite !not_elem_of_cons; repeat split; [done..|apply not_elem_of_nil].

Lemma irun_app tr p q h : irun tr (p ++ q) h = irun tr p h ≫= irun tr q.
Proof.
  revert h. induction p as [|i p IH]; intros h; [done|]. simpl. destruct (istep tr i h) as [h'|]; [apply IH | done].
Qed.

Lemma irun_app_eq tr p q h h' : irun tr p h = Some h' → irun tr (p ++ q) h = irun tr q h'.
Proof. intros E. by rewrite irun_app, E. Qed.

(** One instruction at a time. *)
Lemma irun_step tr i p h h' r : istep tr i h = Some h' → irun tr p h' = r → irun tr (i :: p) h = r.
Proof. intros E <-. simpl. by rewrite E. Qed.

Lemma irun_sd tr rs off base p h a r : phys tr h (u64 (rget h base + off)) = Some a →
  irun tr p (mset (store64 (rmem h) a (rget h rs)) h) = r → irun tr (Sd rs off base :: p) h = r.
Proof. intros E. apply irun_step. simpl. by rewrite E. Qed.

Lemma irun_ld tr rd off base p h a r : phys tr h (u64 (rget h base + off)) = Some a →
  irun tr p (rset rd (load64 (rmem h) a) h) = r → irun tr (Ld rd off base :: p) h = r.
Proof. intros E. apply irun_step. simpl. by rewrite E. Qed.

(** Run straight code; [mem] proves the translation of an address. *)
Ltac run_with mem :=
  repeat first [eapply irun_sd; [mem|] | eapply irun_ld; [mem|] | eapply irun_step; [reflexivity|]]; reflexivity.

(** Two aligned words are the same or do not overlap. *)
Lemma words_apart a o o' : o mod 8 = 0 → o' mod 8 = 0 → o ≠ o' → a + o + 8 ≤ a + o' ∨ a + o' + 8 ≤ a + o.
Proof. intros. lia. Qed.

Lemma run_saves tr h base n pa l : layout n l → maps tr h (rget h base) n pa →
  ∃ m, irun tr (saves base l) h = Some (mset m h) ∧
    (∀ x, x ∈ l → load64 m (pa + x.2) = u64 (rget h x.1)) ∧
    (∀ o, o mod 8 = 0 → o ∉ l.*2 → load64 m (pa + o) = load64 (rmem h) (pa + o)) ∧
    ∀ a, a < pa ∨ pa + n ≤ a → m a = rmem h a.
Proof.
  revert h. induction l as [|x l IH]; intros h L Mp.
  { exists (rmem h). split; [by destruct h|]. split; [by intros x ?%elem_of_nil | done]. }
  apply layout_cons in L as ((Hz & H0 & Hn & Ha) & N1 & N2 & L).
  set (h1 := mset (store64 (rmem h) (pa + x.2) (rget h x.1)) h).
  destruct (IH h1 L Mp) as (m & E & S1 & S2 & S3). exists m. split; [|split; [|split]].
  - change (saves base (x :: l)) with (Sd x.1 x.2 base :: saves base l). cbn [irun istep].
    rewrite (Mp x.2) by lia. cbn [mbind option_bind]. exact E.
  - intros y. rewrite elem_of_cons. intros [->|Hy]; [|by apply S1]. rewrite S2 by done. apply load64_store64.
  - intros o Ho. rewrite fmap_cons, not_elem_of_cons. intros [Hne Hni]. rewrite S2 by done. simpl.
    apply load64_store64_ne. destruct (words_apart pa o x.2); lia.
  - intros a Hr. rewrite S3 by done. apply store64_out. lia.
Qed.

(** The base register may be loaded too, with the value it has. *)
Lemma run_loads tr h base n pa l : layout n l → base ≠ zero → maps tr h (rget h base) n pa →
  (∀ o, (base, o) ∈ l → load64 (rmem h) (pa + o) = rget h base) →
  ∃ f, irun tr (loads base l) h = Some (RV f (csrs h) (priv h) (pc h) (rmem h)) ∧
    (∀ x, x ∈ l → f x.1 = load64 (rmem h) (pa + x.2)) ∧ ∀ r, r ∉ l.*1 → f r = regs h r.
Proof.
  intros L Hb. revert h. induction l as [|x l IH]; intros h Mp Hs.
  { exists (regs h). split; [by destruct h|]. split; [by intros x ?%elem_of_nil | done]. }
  apply layout_cons in L as ((Hz & H0 & Hn & Ha) & N1 & N2 & L).
  set (h1 := rset x.1 (load64 (rmem h) (pa + x.2)) h).
  assert (Eb : rget h1 base = rget h base).
  { rewrite !rget_regs by done. simpl. destruct (decide (base = x.1)) as [->|]; [|by rewrite fupd_ne].
    rewrite fupd_eq, Hs; [by rewrite rget_regs|]. destruct x. by left. }
  assert (Mp' : maps tr h1 (rget h1 base) n pa) by (rewrite Eb; exact Mp).
  destruct (IH L h1 Mp') as (f & E & F1 & F2).
  { intros o Ho. rewrite Eb. apply Hs. by right. }
  exists f. split; [|split].
  - change (loads base (x :: l)) with (Ld x.1 x.2 base :: loads base l). cbn [irun istep].
    rewrite (Mp x.2) by lia. cbn [mbind option_bind]. exact E.
  - intros y. rewrite elem_of_cons. intros [->|Hy]; [|by rewrite F1]. rewrite F2 by done. simpl. apply fupd_eq.
  - intros r. rewrite fmap_cons, not_elem_of_cons. intros [Hne Hni]. rewrite F2 by done. simpl. by rewrite fupd_ne.
Qed.

(** ** Context switches *)

(** [struct context]. *)
Definition ctx_regs : list (reg * Z) :=
  [(ra, 0); (sp, 8); (s0, 16); (s1, 24); (s2, 32); (s3, 40); (s4, 48); (s5, 56); (s6, 64); (s7, 72); (s8, 80);
   (s9, 88); (s10, 96); (s11, 104)].

Lemma ctx_layout : layout 112 ctx_regs.
Proof. apply (bool_decide_unpack _). vm_compute. exact Logic.I. Qed.

Lemma swtch_shape : swtch = saves a0 ctx_regs ++ loads a1 ctx_regs ++ [Ret].
Proof. done. Qed.

Lemma swtch_run tr h pold pnew : words h →
  maps tr h (rget h a0) 112 pold → maps tr h (rget h a1) 112 pnew → pold + 112 ≤ pnew ∨ pnew + 112 ≤ pold →
  ∃ h', irun tr swtch h = Some h' ∧
    (∀ x, x ∈ ctx_regs → load64 (rmem h') (pold + x.2) = regs h x.1) ∧
    (∀ x, x ∈ ctx_regs → regs h' x.1 = load64 (rmem h) (pnew + x.2)) ∧
    (∀ r, r ∉ ctx_regs.*1 → regs h' r = regs h r) ∧
    pc h' = load64 (rmem h) pnew ∧ csrs h' = csrs h ∧ priv h' = priv h ∧
    ∀ a, a < pold ∨ pold + 112 ≤ a → rmem h' a = rmem h a.
Proof.
  intros W Mo Mn Hd. rewrite swtch_shape.
  destruct (run_saves tr h a0 112 pold ctx_regs ctx_layout Mo) as (m & E1 & S1 & _ & S3). rewrite (irun_app_eq _ _ _ _ _ E1).
  destruct (run_loads tr (mset m h) a1 112 pnew ctx_regs ctx_layout) as (f & E2 & F1 & F2); [done | exact Mn | |].
  { intros o Ho. exfalso. assert (N : a1 ∉ ctx_regs.*1) by not_in. by apply N, (list_elem_of_fmap_2 fst _ (a1, o)). }
  rewrite (irun_app_eq _ _ _ _ _ E2). eexists. split; [reflexivity|].
  assert (Hm : ∀ x, x ∈ ctx_regs → load64 m (pnew + x.2) = load64 (rmem h) (pnew + x.2)).
  { intros x Hx. destruct ctx_layout as (_ & _ & F). rewrite Forall_forall in F. destruct (F x Hx) as (_ & ? & ? & _).
    apply load64_ext. intros b Hb. apply S3. lia. }
  split; [|split; [|split; [|split; [|split; [|split]]]]]; try done.
  - intros x Hx. destruct ctx_layout as (_ & _ & F). rewrite Forall_forall in F. destruct (F x Hx) as (Hz & _).
    simpl. rewrite S1, rget_word by done. by apply rget_regs.
  - intros x Hx. simpl. rewrite F1 by done. by apply Hm.
  - change (f ra = load64 (rmem h) pnew). assert (Hr : (ra, 0) ∈ ctx_regs) by by left.
    pose proof (F1 _ Hr) as Fr. pose proof (Hm _ Hr) as Er. cbn [fst snd rmem mset] in Fr, Er. by rewrite Fr, Er, Z.add_0_r.
Qed.

(** C15. A process that calls [swtch] continues, whenever some CPU later switches to its
    context, right after the call and with its return address, its stack pointer and
    every callee-saved register as it left them; meanwhile the CPU runs the other
    context the same way, and no memory but the saved context changes. *)
Theorem swtch_resumes tr h pold pnew h2 px :
  words h → words h2 →
  maps tr h (rget h a0) 112 pold → maps tr h (rget h a1) 112 pnew → pold + 112 ≤ pnew ∨ pnew + 112 ≤ pold →
  maps tr h2 (rget h2 a0) 112 px → maps tr h2 (rget h2 a1) 112 pold → px + 112 ≤ pold ∨ pold + 112 ≤ px →
  ∃ h', irun tr swtch h = Some h' ∧
    pc h' = load64 (rmem h) pnew ∧
    (∀ x, x ∈ ctx_regs → regs h' x.1 = load64 (rmem h) (pnew + x.2)) ∧
    (∀ a, a < pold ∨ pold + 112 ≤ a → rmem h' a = rmem h a) ∧
    ((∀ a, pold ≤ a < pold + 112 → rmem h2 a = rmem h' a) →
      ∃ h3, irun tr swtch h2 = Some h3 ∧ pc h3 = regs h ra ∧ ∀ x, x ∈ ctx_regs → regs h3 x.1 = regs h x.1).
Proof.
  intros W W2 Mo Mn Hd Mx Mo2 Hd2. destruct (swtch_run tr h pold pnew W Mo Mn Hd) as (h' & E & S1 & S2 & _ & P & _ & _ & S3).
  exists h'. do 4 (split; [done|]). intros Hsame.
  destruct (swtch_run tr h2 px pold W2 Mx Mo2 Hd2) as (h3 & E3 & _ & T2 & _ & P3 & _). exists h3.
  assert (Hl : ∀ x, x ∈ ctx_regs → load64 (rmem h2) (pold + x.2) = regs h x.1).
  { intros x Hx. rewrite <- S1 by done. apply load64_ext. intros b Hb. apply Hsame.
    destruct ctx_layout as (_ & _ & F). rewrite Forall_forall in F. destruct (F x Hx) as (_ & ? & ? & _). lia. }
  split; [done|]. split.
  - rewrite P3. rewrite <- (Z.add_0_r pold). apply (Hl (ra, 0)). by left.
  - intros x Hx. rewrite T2 by done. by apply Hl.
Qed.

(** ** Traps from user space *)

(** The user registers of [struct trapframe], but for [a0]. *)
Definition tf_regs : list (reg * Z) :=
  [(ra, 40); (sp, 48); (gp, 56); (tp, 64); (t0, 72); (t1, 80); (t2, 88); (s0, 96); (s1, 104); (a1, 120); (a2, 128);
   (a3, 136); (a4, 144); (a5, 152); (a6, 160); (a7, 168); (s2, 176); (s3, 184); (s4, 192); (s5, 200); (s6, 208);
   (s7, 216); (s8, 224); (s9, 232); (s10, 240); (s11, 248); (t3, 256); (t4, 264); (t5, 272); (t6, 280)].

Lemma tf_layout : layout 288 tf_regs.
Proof. apply (bool_decide_unpack _). vm_compute. exact Logic.I. Qed.

(** Together with [a0] these are all registers. *)
Lemma tf_all r : r = zero ∨ r = a0 ∨ r ∈ tf_regs.*1.
Proof. destruct r; [by left|..]; right; (by left) || (right; apply (bool_decide_unpack _); vm_compute; exact Logic.I). Qed.

(** The registers are in the trap frame at [tf]. *)
Definition tf_holds (m : Z → Z) (tf : Z) (f : reg → Z) : Prop :=
  load64 m (tf + 112) = f a0 ∧ ∀ x, x ∈ tf_regs → load64 m (tf + x.2) = f x.1.

Lemma uservec_shape : uservec = [Csrw sscratch a0; Li a0 TRAPFRAME] ++ saves a0 tf_regs ++
  [Csrr t0 sscratch; Sd t0 112 a0; Ld sp 8 a0; Ld tp 32 a0; Ld t0 16 a0; Ld t1 0 a0; Sfence_vma; Csrw satp t1; Sfence_vma; Jr t0].
Proof. done. Qed.

Lemma userret_shape : userret = [Sfence_vma; Csrw satp a0; Sfence_vma; Li a0 TRAPFRAME] ++ loads a0 tf_regs ++ [Ld a0 112 a0; Sret].
Proof. done. Qed.

Lemma tf_entry x : x ∈ tf_regs → x.1 ≠ zero ∧ x.1 ≠ a0 ∧ 0 ≤ snd x ≤ 280 ∧ snd x mod 8 = 0 ∧ x.2 ≠ 112.
Proof.
  intros Hx. destruct tf_layout as (_ & _ & F). rewrite Forall_forall in F. destruct (F x Hx) as (Hz & ? & ? & ?).
  assert (N1 : a0 ∉ tf_regs.*1) by (apply (bool_decide_unpack _); vm_compute; exact Logic.I).
  assert (N2 : 112 ∉ tf_regs.*2) by (apply (bool_decide_unpack _); vm_compute; exact Logic.I).
  split; [done|]. split; [intros E; apply N1; rewrite <- E; by apply list_elem_of_fmap_2|]. split; [lia|]. split; [done|].
  intros E. apply N2. rewrite <- E. by apply list_elem_of_fmap_2.
Qed.

Lemma uservec_run tr h tf : words h → priv h = Supervisor → maps tr h TRAPFRAME 288 tf →
  ∃ h', irun tr uservec h = Some h' ∧ tf_holds (rmem h') tf (regs h) ∧
    pc h' = load64 (rmem h) (tf + 16) ∧ regs h' sp = load64 (rmem h) (tf + 8) ∧ regs h' tp = load64 (rmem h) (tf + 32) ∧
    csrs h' satp = load64 (rmem h) tf ∧ priv h' = Supervisor ∧
    (∀ c, c ≠ satp → c ≠ sscratch → csrs h' c = csrs h c) ∧
    ∀ a, a < tf ∨ tf + 288 ≤ a → rmem h' a = rmem h a.
Proof.
  intros W P Mp. rewrite uservec_shape. set (h0 := rset a0 TRAPFRAME (csr_write sscratch (rget h a0) h)).
  rewrite (irun_app_eq tr [Csrw sscratch a0; Li a0 TRAPFRAME] _ h h0) by done.
  assert (Ph : ∀ r, priv r = priv h → csrs r satp = csrs h satp → maps tr r TRAPFRAME 288 tf).
  { intros r H1 H2 o Ho. unfold phys. rewrite H1, H2. exact (Mp o Ho). }
  assert (M0 : maps tr h0 (rget h0 a0) 288 tf) by by apply Ph.
  destruct (run_saves tr h0 a0 288 tf tf_regs tf_layout M0) as (m & E & S1 & S2 & S3). rewrite (irun_app_eq _ _ _ _ _ E).
  set (m' := store64 m (tf + 112) (regs h a0)).
  assert (Hn : ∀ o, o ∈ [0; 8; 16; 32] → load64 m' (tf + o) = load64 (rmem h) (tf + o)).
  { intros o Ho. unfold m'. rewrite load64_store64_ne, S2; [done|..];
      rewrite !elem_of_cons, elem_of_nil in Ho; destruct Ho as [->|[->|[->|[->|[]]]]]; try done; try lia;
      apply (bool_decide_unpack _); vm_compute; exact Logic.I. }
  eexists. split.
  - run_with ltac:(apply (Ph _ eq_refl eq_refl); lia).
  - split; [|split; [|split; [|split; [|split; [|split; [|split]]]]]].
    + split.
      * change (load64 m' (tf + 112) = regs h a0). unfold m'. rewrite load64_store64. apply u64_small, W.
      * intros x Hx. destruct (tf_entry x Hx) as (Hz & Ha & Hr & Hm & Hne). change (load64 m' (tf + x.2) = regs h x.1).
        unfold m'. rewrite load64_store64_ne by (destruct (words_apart tf x.2 112); lia). rewrite S1 by done.
        rewrite rget_regs by done. simpl. rewrite fupd_ne by done. apply u64_small, W.
    + apply (Hn 16). rewrite !elem_of_cons; tauto.
    + apply (Hn 8). rewrite !elem_of_cons; tauto.
    + apply (Hn 32). rewrite !elem_of_cons; tauto.
    + change (load64 m' (tf + 0) = load64 (rmem h) tf). rewrite (Hn 0) by by left. by rewrite Z.add_0_r.
    + done.
    + intros c H1 H2. simpl. by rewrite !fupd_ne.
    + intros a Ha. change (m' a = rmem h a). unfold m'. rewrite store64_out by lia. by apply S3.
Qed.

Lemma userret_run tr h tf f : words h → priv h = Supervisor →
  maps tr (cset satp (regs h a0) h) TRAPFRAME 288 tf → tf_holds (rmem h) tf f →
  ∃ h', irun tr userret h = Some h' ∧ (∀ r, r ≠ zero → regs h' r = f r) ∧
    pc h' = csrs h sepc ∧ csrs h' satp = regs h a0 ∧ rmem h' = rmem h ∧
    priv h' = (if Z.testbit (csrs h sstatus) 8 then Supervisor else User) ∧
    Z.testbit (csrs h' sstatus) 1 = Z.testbit (csrs h sstatus) 5.
Proof.
  intros W P Mp [H0 Hf]. rewrite userret_shape.
  set (h0 := rset a0 TRAPFRAME (csr_write satp (rget h a0) h)).
  rewrite (irun_app_eq tr [Sfence_vma; Csrw satp a0; Sfence_vma; Li a0 TRAPFRAME] _ h h0) by done.
  destruct (run_loads tr h0 a0 288 tf tf_regs tf_layout) as (g & E & F1 & F2); [done | exact Mp | |].
  { intros o Ho. destruct (tf_entry _ Ho) as (_ & [] & _). done. }
  rewrite (irun_app_eq _ _ _ _ _ E). assert (Ga : g a0 = TRAPFRAME).
  { rewrite F2; [done|]. intros H. apply list_elem_of_fmap in H as (x & Ex & Hx). destruct (tf_entry x Hx) as (_ & Ha & _). congruence. }
  eexists. split.
  - eapply irun_ld; [|eapply irun_step; [reflexivity|]; reflexivity]. unfold rget. simpl. rewrite Ga. exact (Mp 112 ltac:(lia)).
  - split; [|split; [|split; [|split; [|split]]]]; try done.
    + intros r Hr. change (fupd g a0 (load64 (rmem h) (tf + 112)) r = f r). destruct (tf_all r) as [|[->|Hx]]; [done | by rewrite fupd_eq|].
      apply list_elem_of_fmap in Hx as (x & -> & Hx). destruct (tf_entry x Hx) as (_ & Ha & _).
      rewrite fupd_ne by done. rewrite F1 by done. by apply Hf.
    + change (Z.testbit (put_bit (put_bit (put_bit (csrs h sstatus) 1 (Z.testbit (csrs h sstatus) 5)) 5 true) 8 false) 1 =
        Z.testbit (csrs h sstatus) 5). unfold put_bit. rewrite Z.clearbit_neq, Z.setbit_neq by lia.
      destruct (Z.testbit (csrs h sstatus) 5); [by rewrite Z.setbit_eq by lia | by rewrite Z.clearbit_eq by lia].
Qed.


(** ** Traps in the kernel *)

Definition kv_regs : list (reg * Z) :=
  [(ra, 0); (sp, 8); (gp, 16); (tp, 24); (t0, 32); (t1, 40); (t2, 48); (s0, 56); (s1, 64); (a0, 72); (a1, 80); (a2, 88);
   (a3, 96); (a4, 104); (a5, 112); (a6, 120); (a7, 128); (s2, 136); (s3, 144); (s4, 152); (s5, 160); (s6, 168);
   (s7, 176); (s8, 184); (s9, 192); (s10, 200); (s11, 208); (t3, 216); (t4, 224); (t5, 232); (t6, 240)].
Definition kv_back : list (reg * Z) := filter (λ x, x.1 ≠ tp) kv_regs.

Lemma kv_layout : layout 256 kv_regs ∧ layout 256 kv_back.
Proof. split; apply (bool_decide_unpack _); vm_compute; exact Logic.I. Qed.

Lemma kv_all r : r = zero ∨ r = tp ∨ r ∈ kv_back.*1.
Proof. destruct r; [by left|..]; right; (by left) || (right; apply (bool_decide_unpack _); vm_compute; exact Logic.I). Qed.

Lemma kernelvec_shape : kernelvec_save = Addi sp sp (-256) :: saves sp kv_regs ∧
  kernelvec_restore = loads sp kv_back ++ [Addi sp sp 256; Sret].
Proof. done. Qed.

Section Kernelvec.
Context (tr : Z → Z → option Z) (kerneltrap : rv → option rv).

(** What the assembly relies on: [kerneltrap] returns on the same stack, possibly on
    another CPU, leaves the caller's part of the stack alone, and keeps the page table,
    [sepc] and [sstatus]. *)
Definition kerneltrap_ok : Prop := ∀ h pa, priv h = Supervisor → words h → maps tr h (regs h sp) 256 pa →
  ∃ h', kerneltrap h = Some h' ∧ regs h' sp = regs h sp ∧ priv h' = Supervisor ∧
    csrs h' satp = csrs h satp ∧ csrs h' sepc = csrs h sepc ∧ csrs h' sstatus = csrs h sstatus ∧
    ∀ a, pa ≤ a < pa + 256 → rmem h' a = rmem h a.

(** C17. An interrupt in the kernel is invisible to the code it interrupts, except that it
    may continue on another CPU: every register but [tp] is as before, and execution
    goes on where it was, in the mode it was in. *)
Theorem kernel_trap_transparent h pa :
  kerneltrap_ok → words h → priv h = Supervisor → Z.testbit (csrs h sstatus) 8 = true →
  maps tr h (u64 (regs h sp - 256)) 256 pa →
  ∃ h', kernelvec tr kerneltrap h = Some h' ∧ (∀ r, r ≠ zero → r ≠ tp → regs h' r = regs h r) ∧
    pc h' = csrs h sepc ∧ priv h' = Supervisor ∧ csrs h' satp = csrs h satp.
Proof.
  intros K W P Sp Mp. destruct kv_layout as [L1 L2]. destruct kernelvec_shape as [Es Er]. unfold kernelvec.
  set (h0 := rset sp (u64 (rget h sp + -256)) h). assert (Esp : rget h0 sp = u64 (regs h sp - 256)) by done.
  assert (M0 : maps tr h0 (rget h0 sp) 256 pa) by (rewrite Esp; exact Mp).
  destruct (run_saves tr h0 sp 256 pa kv_regs L1 M0) as (m & E1 & S1 & _ & _).
  rewrite Es. rewrite (irun_step tr (Addi sp sp (-256)) _ h h0 _ eq_refl E1). cbn [mbind option_bind].
  assert (W0 : words h0). { intros r. simpl. unfold fupd. destruct (decide _); [apply u64_bound | apply W]. }
  destruct (K (mset m h0) pa P) as (h2 & E2 & Hsp & P2 & C1 & C2 & C3 & Hm); [exact W0 | exact M0|].
  rewrite E2. cbn [mbind option_bind]. rewrite Er. simpl in Hsp. rewrite fupd_eq in Hsp.
  assert (Hl : ∀ x, x ∈ kv_regs → load64 (rmem h2) (pa + x.2) = rget h0 x.1).
  { intros x Hx. rewrite <- (rget_word h0) by done. rewrite <- S1 by done. apply load64_ext. intros b Hb. apply Hm.
    destruct L1 as (_ & _ & F). rewrite Forall_forall in F. destruct (F x Hx) as (_ & ? & ? & _). lia. }
  assert (Hin : ∀ x, x ∈ kv_back → x ∈ kv_regs) by (intros x Hx; by apply list_elem_of_filter in Hx as [_ ?]).
  destruct (run_loads tr h2 sp 256 pa kv_back L2) as (f & E3 & F1 & _); [done | | |].
  { intros o Ho. unfold phys. rewrite P2, C1, rget_regs, Hsp by done. specialize (M0 o Ho). unfold phys in M0. simpl in M0. by rewrite P in M0. }
  { intros o Ho. pose proof (Hl _ (Hin _ Ho)) as El. cbn [fst snd] in El. rewrite El, Esp, rget_regs by done. by rewrite Hsp. }
  rewrite (irun_app_eq _ _ _ _ _ E3).
  assert (Hf : ∀ r, r ≠ zero → r ≠ tp → f r = rget h0 r).
  { intros r Hz Ht. destruct (kv_all r) as [|[|Hx]]; [done..|]. apply list_elem_of_fmap in Hx as (x & -> & Hx).
    rewrite F1 by done. apply Hl. by apply Hin. }
  eexists. split; [reflexivity|]. split; [|split; [|split]].
  - intros r Hz Ht. change (fupd f sp (u64 (f sp + 256)) r = regs h r). destruct (decide (r = sp)) as [->|Hne].
    + rewrite fupd_eq, Hf, Esp by done. pose proof (W sp). unfold u64. lia.
    + rewrite fupd_ne, Hf by done. rewrite rget_regs by done. simpl. by rewrite fupd_ne.
  - exact C2.
  - change ((if Z.testbit (csrs h2 sstatus) 8 then Supervisor else User) = Supervisor). rewrite C3.
    change (csrs (mset m h0) sstatus) with (csrs h sstatus). by rewrite Sp.
  - exact C1.
Qed.
End Kernelvec.

(** ** Timer interrupts *)

(** What the hardware does on a timer interrupt: MPIE (bit 7) takes MIE (bit 3), MPP (bits
    11 and 12) the mode. *)
Definition mtrap (h : rv) : rv :=
  let s := csrs h mstatus in
  let b12 := match priv h with Machine => true | _ => false end in
  let b11 := match priv h with User => false | _ => true end in
  let s' := put_bit (put_bit (put_bit (put_bit s 7 (Z.testbit s 3)) 3 false) 11 b11) 12 b12 in
  jump (csrs h mtvec) (setpriv Machine (cset mepc (pc h) (cset mstatus s' h))).

Lemma put_bit_eq x i b : 0 ≤ i → Z.testbit (put_bit x i b) i = b.
Proof. intros H. destruct b; simpl; [by apply Z.setbit_eq | apply Z.clearbit_eq]. Qed.

Lemma put_bit_ne x i j b : 0 ≤ i → 0 ≤ j → i ≠ j → Z.testbit (put_bit x i b) j = Z.testbit x j.
Proof. intros Hi Hj H. destruct b; simpl; [by apply Z.setbit_neq | by apply Z.clearbit_neq]. Qed.

(** The scratch area of a CPU as [timerinit] leaves it: the address of the CPU's compare
    register and the interval. *)
Record scratch_ok (h : rv) (sc cmp iv : Z) : Prop := ScratchOk {
  so_scratch : csrs h mscratch = sc;
  so_cmp : load64 (rmem h) (sc + 24) = cmp;
  so_interval : load64 (rmem h) (sc + 32) = iv;
  so_range : 0 ≤ sc ∧ sc + 40 ≤ 2 ^ 64 ∧ 0 ≤ cmp < 2 ^ 64;
  so_apart : cmp + 8 ≤ sc ∨ sc + 40 ≤ cmp;
}.

(** Steps in machine mode, with the values they use. *)
Lemma mrun_sd tr rs off base p f c k m a v r : base ≠ zero → rs ≠ zero → u64 (f base + off) = a → f rs = v →
  irun tr p (RV f c Machine k (store64 m a v)) = r → irun tr (Sd rs off base :: p) (RV f c Machine k m) = r.
Proof.
  intros Hb Hr Ea Ev E. eapply irun_sd; [done|]. unfold mset. simpl. rewrite !rget_regs by done. simpl. by rewrite Ea, Ev.
Qed.

Lemma mrun_ld tr rd off base p f c k m a v r : base ≠ zero → u64 (f base + off) = a → load64 m a = v →
  irun tr p (RV (fupd f rd v) c Machine k m) = r → irun tr (Ld rd off base :: p) (RV f c Machine k m) = r.
Proof.
  intros Hb Ea Ev E. eapply irun_ld; [done|]. unfold rset. simpl. rewrite !rget_regs by done. simpl. by rewrite Ea, Ev.
Qed.

(** [mstatus] on entry to the handler. *)
Lemma mtrap_status h : let s := csrs (mtrap h) mstatus in
  (if Z.testbit s 12 then Machine else if Z.testbit s 11 then Supervisor else User) = priv h ∧
  Z.testbit s 7 = Z.testbit (csrs h mstatus) 3.
Proof.
  intros s. set (x := csrs h mstatus). set (b12 := match priv h with Machine => true | _ => false end).
  set (b11 := match priv h with User => false | _ => true end).
  assert (E : s = put_bit (put_bit (put_bit (put_bit x 7 (Z.testbit x 3)) 3 false) 11 b11) 12 b12) by done.
  rewrite E. rewrite put_bit_eq by lia. rewrite put_bit_ne, put_bit_eq by lia. rewrite !put_bit_ne, put_bit_eq by lia.
  unfold b12, b11. by destruct (priv h).
Qed.

Lemma timervec_run tr h sc cmp iv : words h → scratch_ok h sc cmp iv →
  ∃ h', irun tr timervec (mtrap h) = Some h' ∧ (∀ r, regs h' r = regs h r) ∧ pc h' = pc h ∧ priv h' = priv h ∧
    load64 (rmem h') cmp = u64 (load64 (rmem h) cmp + iv) ∧
    (∀ a, (a < sc ∨ sc + 24 ≤ a) → (a < cmp ∨ cmp + 8 ≤ a) → rmem h' a = rmem h a) ∧
    Z.testbit (csrs h' sip) 1 = true ∧ Z.testbit (csrs h' mstatus) 3 = Z.testbit (csrs h mstatus) 3 ∧
    ∀ c, c ∉ [mstatus; mepc; sip] → csrs h' c = csrs h c.
Proof.
  intros W [Hs Hc Hi Hr Ha]. unfold timervec.
  set (m1 := store64 (store64 (store64 (rmem h) (sc + 0) (regs h a1)) (sc + 8) (regs h a2)) (sc + 16) (regs h a3)).
  assert (L24 : load64 m1 (sc + 24) = cmp) by (unfold m1; rewrite !load64_store64_ne by lia; done).
  assert (L32 : load64 m1 (sc + 32) = iv) by (unfold m1; rewrite !load64_store64_ne by lia; done).
  assert (Lc : load64 m1 cmp = load64 (rmem h) cmp) by (unfold m1; rewrite !load64_store64_ne by lia; done).
  set (m2 := store64 m1 cmp (u64 (load64 (rmem h) cmp + iv))).
  assert (L0 : load64 m2 (sc + 0) = regs h a1).
  { unfold m2, m1. rewrite !load64_store64_ne by lia. rewrite load64_store64. apply u64_small, W. }
  assert (L8 : load64 m2 (sc + 8) = regs h a2).
  { unfold m2, m1. rewrite !load64_store64_ne by lia. rewrite load64_store64. apply u64_small, W. }
  assert (L16 : load64 m2 (sc + 16) = regs h a3).
  { unfold m2, m1. rewrite !load64_store64_ne by lia. rewrite load64_store64. apply u64_small, W. }
  assert (A : ∀ o, 0 ≤ o < 40 → u64 (sc + o) = sc + o) by (intros o Ho; apply u64_small; lia).
  assert (B : u64 (cmp + 0) = cmp) by (rewrite Z.add_0_r; apply u64_small; lia).
  eexists. split.
  - eapply (irun_step tr _ _ _ (RV (fupd (regs h) a0 sc) (fupd (csrs (mtrap h)) mscratch (regs h a0)) Machine (csrs h mtvec) (rmem h))).
    { simpl. unfold csr_write. simpl. by rewrite <- Hs. }
    do 3 (eapply mrun_sd; [done | done | apply A; lia | reflexivity|]). change (store64 _ _ _) with m1.
    eapply mrun_ld; [done | apply A; lia | exact L24|]. eapply mrun_ld; [done | apply A; lia | exact L32|].
    eapply mrun_ld; [done | exact B | exact Lc|].
    eapply (irun_step _ _ _ _ (RV _ _ _ _ _)); [reflexivity|]. eapply mrun_sd; [done | done | exact B | reflexivity|].
    change (store64 _ _ _) with m2. do 2 (eapply (irun_step _ _ _ _ (RV _ _ _ _ _)); [reflexivity|]).
    eapply mrun_ld; [done | apply A; lia | exact L16|]. eapply mrun_ld; [done | apply A; lia | exact L8|].
    eapply mrun_ld; [done | apply A; lia | exact L0|]. do 2 (eapply irun_step; [reflexivity|]). reflexivity.
  - split; [by intros []|]. split; [done|]. destruct (mtrap_status h) as [Hp H7]. split; [exact Hp|]. split; [|split; [|split; [|split]]].
    + change (load64 m2 cmp = u64 (load64 (rmem h) cmp + iv)). unfold m2. rewrite load64_store64. apply u64_small, u64_bound.
    + intros a H1 H2. change (m2 a = rmem h a). unfold m2, m1. by rewrite !store64_out by lia.
    + apply put_bit_eq. lia.
    + rewrite <- H7. set (x := csrs (mtrap h) mstatus).
      change (Z.testbit (put_bit (put_bit (put_bit (put_bit x 3 (Z.testbit x 7)) 7 true) 11 false) 12 false) 3 = Z.testbit x 7).
      rewrite !put_bit_ne by lia. apply put_bit_eq. lia.
    + intros c. rewrite !not_elem_of_cons. intros (N1 & N2 & N3 & _). destruct c; done.
Qed.

(** A CPU that has run [start]. *)
Lemma start_facts ts tv main h : 0 ≤ csrs h mhartid < 8 → KERNBASE ≤ ts → ts + 320 ≤ PHYSTOP →
  let id := csrs h mhartid in let h1 := start ts tv main h in
  pc h1 = main ∧ priv h1 = Supervisor ∧ regs h1 tp = id ∧ csrs h1 satp = 0 ∧ csrs h1 mtvec = tv ∧
  scratch_ok h1 (scratch ts id) (CLINT_MTIMECMP id) interval.
Proof.
  intros Hid H1 H2 id h1. unfold PHYSTOP, KERNBASE in *. assert (Hid' : 0 ≤ id < 8) by exact Hid.
  assert (Ei : i32 (csrs h mhartid) = id) by (apply i32_small; lia).
  set (m1 := store64 (rmem h) (CLINT_MTIMECMP id) (load64 (rmem h) CLINT_MTIME + interval)).
  set (m2 := store64 (store64 m1 (scratch ts id + 24) (CLINT_MTIMECMP id)) (scratch ts id + 32) interval).
  assert (Em : rmem h1 = m2) by (unfold m2, m1; rewrite <- Ei; reflexivity).
  set (x := Z.lor (Z.lor (Z.land (csrs h mstatus) (Z.lnot MSTATUS_MPP_MASK)) MSTATUS_MPP_S) MSTATUS_MIE).
  assert (Ex : Z.testbit x 12 = false ∧ Z.testbit x 11 = true).
  { unfold x. rewrite !Z.lor_spec, !Z.land_spec, !Z.lnot_spec by lia. by rewrite !andb_false_r, !orb_true_r. }
  split; [done|]. split; [|split; [|split; [done|split; [done|]]]].
  - change ((if Z.testbit x 12 then Machine else if Z.testbit x 11 then Supervisor else User) = Supervisor).
    by destruct Ex as [-> ->].
  - change (u64 (i32 (csrs h mhartid)) = id). rewrite Ei. apply u64_small. lia.
  - unfold scratch, CLINT_MTIMECMP, CLINT, interval in *. split.
    + change (ts + 40 * i32 (csrs h mhartid) = ts + 40 * id). by rewrite Ei.
    + rewrite Em. unfold m2. rewrite load64_store64_ne, load64_store64 by lia. apply u64_small. lia.
    + rewrite Em. unfold m2. rewrite load64_store64. by apply u64_small.
    + lia.
    + lia.
Qed.

(** C40. A CPU that starts enters [main] in supervisor mode with its number in [tp]; and from
    then on, as long as the scratch area [timerinit] prepared is left alone, every timer
    interrupt is invisible to the code it interrupts, in whatever mode it runs: all
    registers, the program counter and the mode are as before, while the compare
    register of this CPU moves on by the interval and a software interrupt is pending
    for the kernel. *)
Theorem timer_transparent tr ts tv main h0 h :
  0 ≤ csrs h0 mhartid < 8 → KERNBASE ≤ ts → ts + 320 ≤ PHYSTOP →
  let id := csrs h0 mhartid in let h1 := start ts tv main h0 in
  (pc h1 = main ∧ priv h1 = Supervisor ∧ regs h1 tp = id ∧ csrs h1 satp = 0 ∧ csrs h1 mtvec = tv) ∧
  (words h → csrs h mscratch = csrs h1 mscratch →
    (∀ a, scratch ts id + 24 ≤ a < scratch ts id + 40 → rmem h a = rmem h1 a) →
    ∃ h', irun tr timervec (mtrap h) = Some h' ∧ (∀ r, regs h' r = regs h r) ∧ pc h' = pc h ∧ priv h' = priv h ∧
      load64 (rmem h') (CLINT_MTIMECMP id) = u64 (load64 (rmem h) (CLINT_MTIMECMP id) + interval) ∧
      (∀ a, (a < scratch ts id ∨ scratch ts id + 24 ≤ a) → (a < CLINT_MTIMECMP id ∨ CLINT_MTIMECMP id + 8 ≤ a) →
        rmem h' a = rmem h a) ∧
      Z.testbit (csrs h' sip) 1 = true ∧ ∀ c, c ∉ [mstatus; mepc; sip] → csrs h' c = csrs h c).
Proof.
  intros Hid H1 H2 id h1. destruct (start_facts ts tv main h0 Hid H1 H2) as (P1 & P2 & P3 & P4 & P5 & [Q1 Q2 Q3 Q4 Q5]).
  split; [done|]. intros W Hs Hm.
  destruct (timervec_run tr h (scratch ts id) (CLINT_MTIMECMP id) interval W) as (h' & E & R1 & R2 & R3 & R4 & R5 & R6 & _ & R8).
  - split; try done; [by rewrite Hs | etransitivity; [|exact Q2] | etransitivity; [|exact Q3]]; apply load64_ext; intros b Hb; apply Hm; fold id in Hb; unfold scratch in *; lia.
  - exists h'. by repeat split.
Qed.

(** ** Concrete runs *)

Definition flat (satp va : Z) : option Z := Some va.

Lemma flat_maps h va n : 0 ≤ va → va + n ≤ 2 ^ 64 → maps flat h va n va.
Proof. intros H1 H2 o Ho. unfold phys. rewrite u64_small by lia. by destruct (priv h). Qed.

Definition cpu_of (f : reg → Z) (m : Z → Z) : rv := RV f (λ _, 0) Supervisor 0 m.

Definition caller : rv := cpu_of (λ r, match r with a0 => 1000 | a1 => 2000 | ra => 77 | s3 => 9 | _ => 5 end) (λ _, 0).
Definition later : rv :=
  cpu_of (λ r, match r with a0 => 3000 | a1 => 1000 | _ => 6 end)
    (match irun flat swtch caller with Some h => rmem h | None => λ _, 0 end).

Lemma demo_words f m : (∀ r, 0 ≤ f r < 2 ^ 64) → words (cpu_of f m).
Proof. done. Qed.

Lemma swtch_resumes_witness : ∃ h3, irun flat swtch later = Some h3 ∧ pc h3 = 77 ∧ regs h3 s3 = 9.
Proof.
  destruct (swtch_resumes flat caller 1000 2000 later 3000) as (h' & E & _ & _ & _ & H).
  - intros []; simpl; lia.
  - intros []; simpl; lia.
  - by apply flat_maps.
  - by apply flat_maps.
  - lia.
  - by apply flat_maps.
  - by apply flat_maps.
  - lia.
  - destruct H as (h3 & E3 & P & R); [by unfold later; rewrite E|]. exists h3. split; [done|]. split; [done|].
    apply (R (s3, 40)). unfold ctx_regs. rewrite !elem_of_cons. tauto.
Defined.


(** The interrupted code is in the kernel and its stack pointer is 4096; [kerneltrap]
    moves it to CPU 1. *)
Definition in_kernel : rv :=
  RV (λ r, match r with sp => 4096 | s3 => 9 | _ => 5 end) (λ c, match c with sstatus => 256 | sepc => 44 | _ => 0 end)
    Supervisor 0 (λ _, 0).

Lemma kernel_trap_transparent_witness :
  ∃ h', kernelvec flat (λ h, Some (rset tp 1 h)) in_kernel = Some h' ∧ regs h' s3 = 9 ∧ regs h' sp = 4096 ∧ pc h' = 44.
Proof.
  destruct (kernel_trap_transparent flat (λ h, Some (rset tp 1 h)) in_kernel 3840) as (h' & E & R & P & _).
  - intros h pa Hp W Mp. by exists (rset tp 1 h).
  - intros []; simpl; lia.
  - done.
  - done.
  - by apply flat_maps.
  - exists h'. exact (conj E (conj (R s3 ltac:(done) ltac:(done)) (conj (R sp ltac:(done) ltac:(done)) P))).
Defined.

Definition booted : rv := start KERNBASE 64 128 (RV (λ _, 0) (λ _, 0) Machine 0 (λ _, 0)).

Lemma timer_transparent_witness : ∃ h', irun flat timervec (mtrap booted) = Some h' ∧ pc h' = 128 ∧ priv h' = Supervisor.
Proof.
  destruct (timer_transparent flat KERNBASE 64 128 (RV (λ _, 0) (λ _, 0) Machine 0 (λ _, 0)) booted) as [(P & S1 & _) H].
  - simpl. lia.
  - done.
  - by vm_compute.
  - destruct H as (h' & E & _ & Hp & Hv & _); [by intros [] | done | done|]. exists h'. exact (conj E (conj (eq_trans Hp P) (eq_trans Hv S1))).
Defined.
