(* ===== verification/Ulib.v ===== *)
(** * The user library: strings, numbers, formatted output (user/ulib.c, user/printf.c)

    Strings and buffers are bytes of the process's memory [Z → Z]; what is printed is
    the list of characters passed to [putc]. *)

From stdpp Require Import base numbers list strings.
From Stdlib Require Import FunctionalExtensionality.
From S2P Require Import Prelude Str.
Local Open Scope Z_scope.

(** ** ulib.c *)

(** [while(( *s++ = *t++ ) != 0);]; nothing, if the fuel runs out. *)
Fixpoint strcpy_loop (fuel : nat) (s t : Z) (m : Z → Z) : option (Z → Z) :=
  match fuel with
  | O => None
  | S f => let m := upd m s (m t) in if nonzero (m s) then strcpy_loop f (s + 1) (t + 1) m else Some m
  end.
Definition strcpy (fuel : nat) (s t : Z) (m : Z → Z) : option (Z * (Z → Z)) :=
  m' ← strcpy_loop fuel s t m; Some (s, m').

Fixpoint strcmp_loop (fuel : nat) (p q : Z) (m : Z → Z) : option Z :=
  match fuel with
  | O => None
  | S f => if nonzero (m p) && (m p =? m q) then strcmp_loop f (p + 1) (q + 1) m else Some (u8 (m p) - u8 (m q))
  end.
Definition strcmp (fuel : nat) (p q : Z) (m : Z → Z) : option Z := strcmp_loop fuel p q m.

Fixpoint strlen_loop (fuel : nat) (n s : Z) (m : Z → Z) : option Z :=
  match fuel with
  | O => None
  | S f => if nonzero (m (s + n)) then strlen_loop f (n + 1) s m else Some n
  end.
Definition strlen (fuel : nat) (s : Z) (m : Z → Z) : option Z := n ← strlen_loop fuel 0 s m; Some (u32 n).

Fixpoint memset_loop (n : nat) (i dst c : Z) (m : Z → Z) : Z → Z :=
  match n with
  | O => m
  | S n' => memset_loop n' (i + 1) dst c (upd m (dst + i) (u8 c))
  end.
Definition memset (dst c n : Z) (m : Z → Z) : Z → Z := memset_loop (Z.to_nat (u32 n)) 0 dst c m.

(** 0 is the null pointer. *)
Fixpoint strchr (fuel : nat) (s c : Z) (m : Z → Z) : option Z :=
  match fuel with
  | O => None
  | S f => if nonzero (m s) then if m s =? c then Some s else strchr f (s + 1) c m else Some 0
  end.

(** [gets]: [inp] is what is left to read on descriptor 0. *)
Fixpoint gets_loop (n : nat) (i buf max : Z) (inp : list Z) (m : Z → Z) : Z * list Z * (Z → Z) :=
  match n with
  | O => (i, inp, m)
  | S n' =>
      if i + 1 <? max then
        match inp with
        | [] => (i, inp, m)
        | c :: inp' =>
            let m := upd m (buf + i) c in
            if (c =? 10) || (c =? 13) then (i + 1, inp', m) else gets_loop n' (i + 1) buf max inp' m
        end
      else (i, inp, m)
  end.
Definition gets (buf max : Z) (inp : list Z) (m : Z → Z) : list Z * (Z → Z) :=
  let '(i, inp', m) := gets_loop (Z.to_nat max) 0 buf max inp m in (inp', upd m (buf + i) 0).

(** [while('0' <= *s && *s <= '9') n = n*10 + *s++ - '0';] on an [int]. *)
Fixpoint atoi_loop (fuel : nat) (s n : Z) (m : Z → Z) : option Z :=
  match fuel with
  | O => None
  | S f => if (48 <=? m s) && (m s <=? 57) then atoi_loop f (s + 1) (i32 (n * 10 + m s - 48)) m else Some n
  end.
Definition atoi (fuel : nat) (s : Z) (m : Z → Z) : option Z := atoi_loop fuel s 0 m.

(** [n] is an [int]: with a negative one nothing is copied. *)
Definition memmove (vdst vsrc n : Z) (m : Z → Z) : Z → Z :=
  if vdst <? vsrc then move_up (Z.to_nat n) vdst vsrc m
  else move_down (Z.to_nat n) (vdst + n) (vsrc + n) m.

Fixpoint memcmp_loop (n : nat) (p1 p2 : Z) (m : Z → Z) : Z :=
  match n with
  | O => 0
  | S n' => if negb (m p1 =? m p2) then m p1 - m p2 else memcmp_loop n' (p1 + 1) (p2 + 1) m
  end.
Definition memcmp (s1 s2 n : Z) (m : Z → Z) : Z := memcmp_loop (Z.to_nat (u32 n)) s1 s2 m.

Definition memcpy (dst src n : Z) (m : Z → Z) : Z → Z := memmove dst src (i32 (u32 n)) m.

(** [stat] over the system calls it makes. *)
Definition stat {W} (open : Z → Z → M W Z) (fstat : Z → Z → M W Z) (close : Z → M W Z) (n st : Z) : M W Z :=
  fd ← open n 0;
  if fd <? 0 then mret (-1)
  else r ← fstat fd st; close fd;; mret r.

(** ** printf.c *)

Definition digits (d : Z) : Z := if d <? 10 then 48 + d else 55 + d.

Fixpoint printint_loop (fuel : nat) (x base : Z) : list Z :=
  match fuel with
  | O => []
  | S f => digits (x mod base) :: (if x / base =? 0 then [] else printint_loop f (x / base) base)
  end.

Definition printint (xx base : Z) (sgn : bool) : list Z :=
  let neg := sgn && (xx <? 0) in
  let x := if neg then u32 (- xx) else u32 xx in
  rev (printint_loop 32 x base ++ if neg then [45] else []).

Fixpoint printptr_loop (n : nat) (x : Z) : list Z :=
  match n with
  | O => []
  | S n' => digits (Z.shiftr x 60) :: printptr_loop n' (u64 (Z.shiftl x 4))
  end.
Definition printptr (x : Z) : list Z := 48 :: 120 :: printptr_loop 16 x.

Inductive varg : Type := VInt (v : Z) | VLong (v : Z) | VStr (s : option (list Z)).

(** [state] is 0 or '%'.  [None]: an argument of the wrong type or none at all. *)
Fixpoint vprintf (state : Z) (fmt : list Z) (ap : list varg) : option (list Z) :=
  match fmt with
  | [] => Some []
  | c :: fmt' =>
      if state =? 0 then
        if c =? 37 then vprintf 37 fmt' ap
        else out ← vprintf 0 fmt' ap; Some (c :: out)
      else if c =? 100 then
        match ap with VInt v :: ap' => out ← vprintf 0 fmt' ap'; Some (printint v 10 true ++ out) | _ => None end
      else if c =? 108 then
        match ap with VLong v :: ap' => out ← vprintf 0 fmt' ap'; Some (printint (i32 v) 10 false ++ out) | _ => None end
      else if c =? 120 then
        match ap with VInt v :: ap' => out ← vprintf 0 fmt' ap'; Some (printint v 16 false ++ out) | _ => None end
      else if c =? 112 then
        match ap with VLong v :: ap' => out ← vprintf 0 fmt' ap'; Some (printptr v ++ out) | _ => None end
      else if c =? 115 then
        match ap with
        | VStr s :: ap' => out ← vprintf 0 fmt' ap'; Some (default [40; 110; 117; 108; 108; 41] s ++ out)
        | _ => None
        end
      else if c =? 99 then
        match ap with VInt v :: ap' => out ← vprintf 0 fmt' ap'; Some (u8 v :: out) | _ => None end
      else if c =? 37 then out ← vprintf 0 fmt' ap; Some (c :: out)
      else out ← vprintf 0 fmt' ap; Some (37 :: c :: out)
  end.

(** ** Strings in memory *)

(** The bytes from [p] on are [l]. *)
Definition holds (m : Z → Z) (p : Z) (l : list Z) : Prop := ∀ k x, l !! k = Some x → m (p + Z.of_nat k) = x.

(** [l], none of it 0, and the terminator. *)
Definition string_at (m : Z → Z) (p : Z) (l : list Z) : Prop :=
  holds m p l ∧ Forall (λ c, c ≠ 0) l ∧ m (p + Z.of_nat (length l)) = 0.

Lemma holds_cons m p c l : holds m p (c :: l) ↔ m p = c ∧ holds m (p + 1) l.
Proof.
  split.
  - intros H. split; [by rewrite <- (H 0%nat c eq_refl), Z.add_0_r|]. intros k x Hk. rewrite <- (H (S k) x Hk). f_equal. lia.
  - intros [H1 H2] [|k] x; simpl; [intros [= <-]; by rewrite Z.add_0_r|]. intros Hk. rewrite <- (H2 k x Hk). f_equal. lia.
Qed.

Lemma holds_app m p l l' : holds m p (l ++ l') ↔ holds m p l ∧ holds m (p + Z.of_nat (length l)) l'.
Proof.
  revert p. induction l as [|c l IH]; intros p; simpl.
  - rewrite Z.add_0_r. split; [|tauto]. intros H. split; [by intros k x|done].
  - rewrite !holds_cons, IH. replace (p + 1 + Z.of_nat (length l)) with (p + Z.of_nat (S (length l))) by lia. tauto.
Qed.

Lemma holds_ext m m' p l : holds m p l → (∀ a, p ≤ a < p + Z.of_nat (length l) → m' a = m a) → holds m' p l.
Proof. intros H E k x Hk. rewrite E; [by apply H|]. apply lookup_lt_Some in Hk. lia. Qed.

Lemma string_cons m p c l : string_at m p (c :: l) ↔ m p = c ∧ c ≠ 0 ∧ string_at m (p + 1) l.
Proof.
  unfold string_at. rewrite holds_cons, Forall_cons. simpl.
  replace (p + 1 + Z.of_nat (length l)) with (p + Z.of_nat (S (length l))) by lia. tauto.
Qed.

Lemma string_nil m p : string_at m p [] → m p = 0.
Proof. intros (_ & _ & H). by rewrite Z.add_0_r in H. Qed.

Lemma strlen_loop_spec fuel n s m l : (length l < fuel)%nat → string_at m (s + n) l →
  strlen_loop fuel n s m = Some (n + Z.of_nat (length l)).
Proof.
  revert n l. induction fuel as [|f IH]; intros n l Hf Hs; [lia|]. cbn [strlen_loop]. destruct l as [|c l].
  - rewrite (string_nil _ _ Hs). simpl. f_equal. lia.
  - apply string_cons in Hs as (E & Hc & Hs). rewrite E, (proj2 (nonzero_true c)) by done. simpl in Hf.
    replace (s + n + 1) with (s + (n + 1)) in Hs by lia. rewrite (IH (n + 1) l) by (done || lia). f_equal. simpl. lia.
Qed.

Lemma strchr_found fuel s c m a : (length a < fuel)%nat → holds m s (a ++ [c]) → Forall (λ x, x ≠ 0) a → c ≠ 0 → c ∉ a →
  strchr fuel s c m = Some (s + Z.of_nat (length a)).
Proof.
  intros Hf Hs Hz Hc Hn. revert fuel s Hf Hs. induction a as [|x a IH]; intros [|f] s Hf Hs; simpl in Hf; try lia; cbn [strchr].
  - apply holds_cons in Hs as [-> _]. rewrite (proj2 (nonzero_true c)), Z.eqb_refl by done. f_equal. simpl. lia.
  - apply holds_cons in Hs as [-> Hs]. apply Forall_cons in Hz as [Hx Hz]. apply not_elem_of_cons in Hn as [Hcx Hn].
    rewrite (proj2 (nonzero_true x)) by done. rewrite (proj2 (Z.eqb_neq x c)) by done. rewrite IH by (done || lia). f_equal. simpl. lia.
Qed.

Lemma strchr_missing fuel s c m l : (length l < fuel)%nat → string_at m s l → c ∉ l → strchr fuel s c m = Some 0.
Proof.
  revert s l. induction fuel as [|f IH]; intros s l Hf Hs Hn; [lia|]. cbn [strchr]. destruct l as [|x l].
  - by rewrite (string_nil _ _ Hs).
  - apply string_cons in Hs as (-> & Hx & Hs). apply not_elem_of_cons in Hn as [Hcx Hn]. simpl in Hf.
    rewrite (proj2 (nonzero_true x)) by done. rewrite (proj2 (Z.eqb_neq x c)) by done. apply (IH _ l); [lia | done..].
Qed.

Lemma memmove_spec dst src n m a : 0 ≤ n →
  memmove dst src n m a = if (dst <=? a) && (a <? dst + n) then m (src + (a - dst)) else m a.
Proof.
  intros Hn. unfold memmove. destruct (Z.ltb_spec dst src).
  - rewrite move_up_spec by lia. by rewrite Z2Nat.id.
  - rewrite move_down_spec by lia. rewrite Z2Nat.id by done. replace (dst + n - n) with dst by lia.
    by replace (src + n + (a - (dst + n))) with (src + (a - dst)) by lia.
Qed.

(** ** Numbers *)

(** The number a string of digits writes. *)
Definition decimal (l : list Z) : Z := foldl (λ n c, n * 10 + (c - 48)) 0 l.

Lemma decimal_mono l n : 0 ≤ n → Forall (λ c, 48 ≤ c ≤ 57) l → n ≤ foldl (λ n c, n * 10 + (c - 48)) n l.
Proof.
  revert n. induction l as [|c l IH]; intros n Hn F; simpl; [lia|]. apply Forall_cons in F as [Hc F].
  specialize (IH (n * 10 + (c - 48)) ltac:(lia) F). lia.
Qed.

Lemma atoi_loop_spec fuel s n m l : (length l < fuel)%nat → holds m s l → Forall (λ c, 48 ≤ c ≤ 57) l →
  ¬ (48 ≤ m (s + Z.of_nat (length l)) ≤ 57) → 0 ≤ n → foldl (λ n c, n * 10 + (c - 48)) n l < 2 ^ 31 →
  atoi_loop fuel s n m = Some (foldl (λ n c, n * 10 + (c - 48)) n l).
Proof.
  revert s n l. induction fuel as [|f IH]; intros s n l Hf Hh Hd He Hn Hb; [lia|]. cbn [atoi_loop]. destruct l as [|c l].
  - simpl in He. rewrite Z.add_0_r in He. destruct (Z.leb_spec 48 (m s)), (Z.leb_spec (m s) 57); simpl; try done; lia.
  - apply holds_cons in Hh as [E Hh]. apply Forall_cons in Hd as [Hc Hd]. rewrite E.
    rewrite (proj2 (Z.leb_le 48 c)), (proj2 (Z.leb_le c 57)) by lia. simpl in *.
    pose proof (decimal_mono l (n * 10 + (c - 48)) ltac:(lia) Hd). rewrite i32_small by lia.
    replace (n * 10 + c - 48) with (n * 10 + (c - 48)) by lia. apply IH; try done; try lia.
    replace (s + 1 + Z.of_nat (length l)) with (s + Z.of_nat (S (length l))) by lia. done.
Qed.

Lemma printint_loop_decimal fuel x : 0 ≤ x < 10 ^ Z.of_nat fuel → fuel ≠ O →
  decimal (rev (printint_loop fuel x 10)) = x ∧ Forall (λ c, 48 ≤ c ≤ 57) (printint_loop fuel x 10) ∧
  (length (printint_loop fuel x 10) <= fuel)%nat.
Proof.
  revert x. induction fuel as [|f IH]; intros x Hx Hf; [done|]. cbn [printint_loop].
  assert (Hd : digits (x mod 10) = 48 + x mod 10 ∧ 0 ≤ x mod 10 < 10).
  { unfold digits. rewrite (proj2 (Z.ltb_lt _ _)) by lia. lia. }
  rewrite Nat2Z.inj_succ, Z.pow_succ_r in Hx by lia. destruct (Z.eqb_spec (x / 10) 0) as [H0|H0].
  - split; [unfold decimal; simpl; lia|]. split; [repeat constructor; lia | simpl; lia].
  - destruct (IH (x / 10)) as (I1 & I2 & I3); [lia | by intros ->; change (10 ^ Z.of_nat 0) with 1 in Hx; lia|].
    split; [|split; [constructor; [lia | done] | simpl; lia]]. cbn [rev]. unfold decimal in *. rewrite foldl_app, I1. simpl. lia.
Qed.

(** Printing and parsing are inverse: [atoi] on what [printf] prints for a %d gives the
    number back, for every [int] that is not negative. *)
Theorem atoi_printint x p m fuel :
  0 ≤ x < 2 ^ 31 → string_at m p (printint x 10 true) → (32 < fuel)%nat → atoi fuel p m = Some x.
Proof.
  intros Hx (Hh & _ & Hz) Hf. unfold printint in *. rewrite (proj2 (Z.ltb_ge x 0)) in * by lia. cbn [andb] in *.
  rewrite app_nil_r, u32_small in * by lia. destruct (printint_loop_decimal 32 x) as (D1 & D2 & D3); [lia | done|].
  rewrite length_rev in Hz. unfold atoi. rewrite (atoi_loop_spec _ _ _ _ (rev (printint_loop 32 x 10))).
  - f_equal. exact D1.
  - rewrite length_rev. lia.
  - done.
  - by apply Forall_rev.
  - rewrite length_rev, Hz. lia.
  - lia.
  - change (decimal (rev (printint_loop 32 x 10)) < 2 ^ 31). lia.
Qed.

(** "407" at address 0. *)
Lemma atoi_printint_witness : atoi 40 0 (λ a, nth (Z.to_nat a) [52; 48; 55; 0] 0) = Some 407.
Proof.
  apply (atoi_printint 407 0 (λ a, nth (Z.to_nat a) [52; 48; 55; 0] 0) 40).
  - lia.
  - split; [|split; [|reflexivity]].
    + intros [|[|[|k]]] x; simpl; intros H; by inversion H.
    + apply (bool_decide_unpack _). vm_compute. exact Logic.I.
  - lia.
Defined.
