(* ===== verification/Grep.v ===== *)
(** * grep (user/grep.c)

    The matcher works on strings as lists of bytes without their terminator; [grep]
    itself on the buffer in memory and on input that [read] delivers in pieces of any
    size. *)

From stdpp Require Import base numbers list strings.
From S2P Require Import Prelude Str Ulib.
Local Open Scope Z_scope.

(** ** The matcher *)

Definition star : Z := 42.
Definition dollar : Z := 36.
Definition caret : Z := 94.
Definition dot : Z := 46.

(** The do-while loop of [matchstar], with [matchhere] on the rest of the pattern. *)
Fixpoint matchstar (mh : list Z → bool) (c : Z) (text : list Z) : bool :=
  if mh text then true
  else match text with
  | [] => false
  | x :: text' => if (x =? c) || (c =? dot) then matchstar mh c text' else false
  end.

Definition empty (l : list Z) : bool := match l with [] => true | _ => false end.

Fixpoint matchhere (re : list Z) (text : list Z) : bool :=
  match re with
  | [] => true
  | c :: re1 =>
      match re1 with
      | d :: re2 =>
          if d =? star then matchstar (matchhere re2) c text
          else match text with
          | [] => false
          | x :: text' => if (c =? dot) || (c =? x) then matchhere re1 text' else false
          end
      | [] =>
          if c =? dollar then empty text
          else match text with
          | [] => false
          | x :: text' => if (c =? dot) || (c =? x) then matchhere re1 text' else false
          end
      end
  end.

(** The do-while loop of [match]. *)
Fixpoint match_loop (re text : list Z) : bool :=
  if matchhere re text then true
  else match text with
  | [] => false
  | _ :: text' => match_loop re text'
  end.

Definition match_ (re text : list Z) : bool :=
  match re with
  | c :: re' => if c =? caret then matchhere re' text else match_loop re text
  | [] => match_loop re text
  end.

(** ** [grep] *)

(** The process: its memory, what is left to read, how much each [read] delivers at
    most, and what it has written. *)
Record gproc : Type := GProc { g_mem : Z → Z; g_in : list Z; g_sizes : list Z; g_out : list Z }.

Definition sizeof_buf : Z := 1024.

Fixpoint put_bytes (m : Z → Z) (a : Z) (l : list Z) : Z → Z :=
  match l with
  | [] => m
  | x :: l' => put_bytes (upd m a x) (a + 1) l'
  end.
Fixpoint get_bytes (m : Z → Z) (a : Z) (n : nat) : list Z :=
  match n with
  | O => []
  | S n' => m a :: get_bytes m (a + 1) n'
  end.

(** [read(fd, a, n)] *)
Definition read (a n : Z) (s : gproc) : Z * gproc :=
  let k := match g_sizes s with [] => n | x :: _ => Z.min n (Z.max 1 x) end in
  let data := take (Z.to_nat k) (g_in s) in
  (Z.of_nat (length data),
   GProc (put_bytes (g_mem s) a data) (drop (Z.to_nat k) (g_in s)) (tail (g_sizes s)) (g_out s)).

Section Grep.
(** The address of [buf]. *)
Context (buf : Z).

(** The loop over the lines in the buffer. *)
Fixpoint lines_loop (fuel : nat) (pattern : list Z) (p : Z) (s : gproc) : option (Z * gproc) :=
  match fuel with
  | O => None
  | S f =>
      q ← strchr (Z.to_nat sizeof_buf) p 10 (g_mem s);
      if q =? 0 then Some (p, s)
      else
        let m := upd (g_mem s) q 0 in
        if match_ pattern (cstr (Z.to_nat sizeof_buf) p m) then
          let m := upd m q 10 in
          lines_loop f pattern (q + 1)
            (GProc m (g_in s) (g_sizes s) (g_out s ++ get_bytes m p (Z.to_nat (q + 1 - p))))
        else lines_loop f pattern (q + 1) (GProc m (g_in s) (g_sizes s) (g_out s))
  end.

Fixpoint grep_loop (fuel : nat) (pattern : list Z) (m : Z) (s : gproc) : option gproc :=
  match fuel with
  | O => None
  | S f =>
      let '(n, s) := read (buf + m) (sizeof_buf - m - 1) s in
      if 0 <? n then
        let m := m + n in
        let s := GProc (upd (g_mem s) (buf + m) 0) (g_in s) (g_sizes s) (g_out s) in
        r ← lines_loop (Z.to_nat sizeof_buf) pattern buf s;
        let '(p, s) := r in
        if 0 <? m then
          let m := m - (p - buf) in
          grep_loop f pattern m (GProc (memmove buf p m (g_mem s)) (g_in s) (g_sizes s) (g_out s))
        else grep_loop f pattern m s
      else Some s
  end.

Definition grep (fuel : nat) (pattern : list Z) (s : gproc) : option gproc := grep_loop fuel pattern 0 s.
End Grep.

(** ** What patterns mean *)

(** A character, or '.' for any. *)
Definition takes (c x : Z) : Prop := c = dot ∨ x = c.

Inductive atom : Type := One (c : Z) | Rep (c : Z).

(** The atoms of a pattern, and whether it ends with the anchor '$'. *)
Fixpoint atoms (re : list Z) : list atom :=
  match re with
  | [] => []
  | c :: re1 =>
      match re1 with
      | d :: re2 => if d =? star then Rep c :: atoms re2 else One c :: atoms re1
      | [] => if c =? dollar then [] else [One c]
      end
  end.
Fixpoint to_end (re : list Z) : bool :=
  match re with
  | [] => false
  | c :: re1 =>
      match re1 with
      | d :: re2 => if d =? star then to_end re2 else to_end re1
      | [] => c =? dollar
      end
  end.

(** The strings a pattern denotes. *)
Inductive lang : list atom → list Z → Prop :=
| lang_nil : lang [] []
| lang_one c x l s : takes c x → lang l s → lang (One c :: l) (x :: s)
| lang_rep c a l s : Forall (takes c) a → lang l s → lang (Rep c :: l) (a ++ s).

(** At the start of a text. *)
Definition here (re text : list Z) : Prop :=
  ∃ mid post, text = mid ++ post ∧ lang (atoms re) mid ∧ (to_end re = true → post = []).

Lemma takes_bool c x : (c =? dot) || (c =? x) = true ↔ takes c x.
Proof. rewrite orb_true_iff, !Z.eqb_eq. unfold takes. split; intros [?|?]; auto. Qed.

Lemma takes_bool' c x : (x =? c) || (c =? dot) = true ↔ takes c x.
Proof. rewrite orb_true_iff, !Z.eqb_eq. unfold takes. tauto. Qed.

Lemma matchstar_spec mh (P : list Z → Prop) c text : (∀ t, mh t = true ↔ P t) →
  matchstar mh c text = true ↔ ∃ a b, text = a ++ b ∧ Forall (takes c) a ∧ P b.
Proof.
  intros Hm. induction text as [|x t IH]; cbn [matchstar].
  - destruct (mh []) eqn:E.
    + split; [intros _; exists [], []; split; [done|]; split; [done|by apply Hm] | done].
    + split; [done|]. intros (a & b & Eab & _ & Hb). symmetry in Eab. apply app_nil in Eab as [-> ->]. apply Hm in Hb. congruence.
  - destruct (mh (x :: t)) eqn:E.
    + split; [intros _; exists [], (x :: t); split; [done|]; split; [done|by apply Hm] | done].
    + destruct ((x =? c) || (c =? dot)) eqn:Ex.
      * rewrite IH. apply takes_bool' in Ex. split.
        -- intros (a & b & -> & Ha & Hb). exists (x :: a), b. split; [done|]. split; [by constructor | done].
        -- intros (a & b & Eab & Ha & Hb). destruct a as [|y a]; simpl in Eab.
           ++ rewrite <- Eab in Hb. apply Hm in Hb. congruence.
           ++ injection Eab as -> ->. apply Forall_cons in Ha as [_ Ha]. by exists a, b.
      * split; [done|]. intros (a & b & Eab & Ha & Hb). destruct a as [|y a]; simpl in Eab.
        -- rewrite <- Eab in Hb. apply Hm in Hb. congruence.
        -- injection Eab as -> ->. apply Forall_cons in Ha as [Hy _]. apply takes_bool' in Hy. congruence.
Qed.

Lemma here_rep c re2 text : (∃ a b, text = a ++ b ∧ Forall (takes c) a ∧ here re2 b) ↔ here (c :: star :: re2) text.
Proof.
  unfold here. simpl. split.
  - intros (a & b & -> & Ha & mid & post & -> & Hl & Hp). exists (a ++ mid), post. split; [by rewrite (assoc_L app)|].
    split; [by constructor | done].
  - intros (mid & post & -> & Hl & Hp). inversion Hl as [| |c' a l s Ha Hl' E1 E2]; subst.
    exists a, (s ++ post). split; [by rewrite (assoc_L app)|]. split; [done|]. by exists s, post.
Qed.

(** One character, when the pattern does not go on with '*' and is not the anchor. *)
Lemma here_one c re1 text : atoms (c :: re1) = One c :: atoms re1 → to_end (c :: re1) = to_end re1 →
  (match text with [] => false | x :: text' => if (c =? dot) || (c =? x) then matchhere re1 text' else false end = true ↔
    ∃ x text', text = x :: text' ∧ takes c x ∧ matchhere re1 text' = true) ∧
  ((∃ x text', text = x :: text' ∧ takes c x ∧ here re1 text') ↔ here (c :: re1) text).
Proof.
  intros Ea Ee. split.
  - destruct text as [|x t]; [split; [done | by intros (x & t & ? & _)]|]. destruct ((c =? dot) || (c =? x)) eqn:E.
    + apply takes_bool in E. split; [by exists x, t | by intros (? & ? & [= <- <-] & _ & ?)].
    + split; [done|]. intros (? & ? & [= <- <-] & Ht & _). apply takes_bool in Ht. congruence.
  - unfold here. rewrite Ea, Ee. split.
    + intros (x & t & -> & Hx & mid & post & -> & Hl & Hp). exists (x :: mid), post. split; [done|]. split; [by constructor | done].
    + intros (mid & post & -> & Hl & Hp). inversion Hl as [|c' x l s Hx Hl' E1 E2|]; subst. exists x, (s ++ post).
      split; [done|]. split; [done|]. by exists s, post.
Qed.

Lemma matchhere_spec re text : matchhere re text = true ↔ here re text.
Proof.
  remember (length re) as n eqn:Hn. assert (Hle : (length re <= n)%nat) by lia. clear Hn. revert re text Hle.
  induction n as [|n IH]; intros re text Hle; destruct re as [|c re1]; simpl in Hle; try lia.
  1,2: split; [intros _; exists [], text; split; [done|]; split; [constructor | done] | done].
  destruct re1 as [|d re2].
  - cbn [matchhere]. destruct (Z.eqb_spec c dollar) as [->|Hc].
    + unfold here. simpl. destruct text; simpl.
      * split; [|done]. intros _. exists [], []. split; [done|]. split; [constructor | done].
      * split; [done|]. intros (mid & post & E & Hl & Hp). inversion Hl; subst. by rewrite Hp in E.
    + destruct (here_one c [] text) as [H1 H2]; [simpl; by rewrite (proj2 (Z.eqb_neq _ _) Hc)..|].
      rewrite H1, <- H2. split; intros (x & t & E & Hx & Hm); exists x, t; (split; [done|]; split; [done|]).
      * exists [], t. split; [done|]. split; [constructor | done].
      * done.
  - cbn [matchhere]. destruct (Z.eqb_spec d star) as [->|Hd].
    + rewrite <- here_rep. apply (matchstar_spec (matchhere re2) (here re2)). intros t. apply IH. simpl in Hle. lia.
    + destruct (here_one c (d :: re2) text) as [H1 H2]; [simpl; by rewrite (proj2 (Z.eqb_neq _ _) Hd)..|].
      rewrite H1, <- H2. split; intros (x & t & E & Hx & Hm); exists x, t; (split; [done|]; split; [done|]); apply IH; (done || lia).
Qed.

Lemma match_loop_spec re text : match_loop re text = true ↔ ∃ pre t, text = pre ++ t ∧ here re t.
Proof.
  induction text as [|x text IH]; cbn [match_loop].
  - destruct (matchhere re []) eqn:E.
    + split; [|done]. intros _. exists [], []. split; [done|]. by apply matchhere_spec.
    + split; [done|]. intros (pre & t & Et & H). symmetry in Et. apply app_nil in Et as [_ ->]. apply matchhere_spec in H. congruence.
  - destruct (matchhere re (x :: text)) eqn:E.
    + split; [|done]. intros _. exists [], (x :: text). split; [done|]. by apply matchhere_spec.
    + rewrite IH. split.
      * intros (pre & t & -> & H). by exists (x :: pre), t.
      * intros (pre & t & Et & H). destruct pre as [|y pre]; simpl in Et.
        -- rewrite <- Et in H. apply matchhere_spec in H. congruence.
        -- injection Et as -> ->. by exists pre, t.
Qed.

(** The pattern without a leading '^', and whether there is one. *)
Definition body (re : list Z) : list Z := match re with c :: re' => if c =? caret then re' else re | [] => [] end.
Definition from_start (re : list Z) : bool := match re with c :: _ => c =? caret | [] => false end.

(** C21. [match] finds a pattern in a text exactly if the text has a part the pattern
    denotes, at the start of the text if the pattern begins with '^' and at its end if
    it ends with '$'; and it always returns. *)
Theorem match_correct re text :
  match_ re text = true ↔
  ∃ pre mid post, text = pre ++ mid ++ post ∧ lang (atoms (body re)) mid ∧
    (from_start re = true → pre = []) ∧ (to_end (body re) = true → post = []).
Proof.
  assert (L : ∀ r, match_loop r text = true ↔ ∃ pre mid post, text = pre ++ mid ++ post ∧ lang (atoms r) mid ∧ (to_end r = true → post = [])).
  { intros r. rewrite match_loop_spec. split.
    - intros (pre & t & -> & mid & post & -> & H1 & H2). by exists pre, mid, post.
    - intros (pre & mid & post & -> & H1 & H2). exists pre, (mid ++ post). split; [done|]. by exists mid, post. }
  destruct re as [|c re]; simpl.
  - rewrite L. split; [intros (pre & mid & post & -> & H1 & H2) | intros (pre & mid & post & -> & H1 & _ & H2)];
      by exists pre, mid, post.
  - destruct (Z.eqb_spec c caret) as [->|Hc].
    + rewrite matchhere_spec. unfold here. split.
      * intros (mid & post & -> & H1 & H2). exists [], mid, post. by repeat split.
      * intros (pre & mid & post & -> & H1 & H2 & H3). rewrite H2 by done. by exists mid, post.
    + rewrite L. split; [intros (pre & mid & post & -> & H1 & H2) | intros (pre & mid & post & -> & H1 & _ & H2)];
        by exists pre, mid, post.
Qed.

(** ** The lines of the input *)

(** The complete lines of [l] after [cur], and the rest. *)
Fixpoint scan (cur l : list Z) : list (list Z) * list Z :=
  match l with
  | [] => ([], cur)
  | x :: l' => if x =? 10 then let r := scan [] l' in (cur :: r.1, r.2) else scan (cur ++ [x]) l'
  end.

(** What is printed of a list of lines. *)
Definition printed (pattern : list Z) (ls : list (list Z)) : list Z :=
  concat ((λ l, if match_ pattern l then l ++ [10] else []) <$> ls).

Lemma printed_app pattern ls ls' : printed pattern (ls ++ ls') = printed pattern ls ++ printed pattern ls'.
Proof. unfold printed. by rewrite fmap_app, concat_app. Qed.

Lemma scan_app cur l l' :
  scan cur (l ++ l') = ((scan cur l).1 ++ (scan (scan cur l).2 l').1, (scan (scan cur l).2 l').2).
Proof.
  revert cur. induction l as [|x l IH]; intros cur; simpl; [by destruct (scan cur l')|].
  destruct (x =? 10); rewrite IH; done.
Qed.

Lemma scan_plain cur a : 10 ∉ a → scan cur a = ([], cur ++ a).
Proof.
  revert cur. induction a as [|x a IH]; intros cur Hn; simpl; [by rewrite app_nil_r|].
  apply not_elem_of_cons in Hn as [Hx Hn]. rewrite (proj2 (Z.eqb_neq x 10)) by done. rewrite IH by done. by rewrite <- (assoc_L app).
Qed.

Lemma scan_line cur a b : 10 ∉ a → scan cur (a ++ 10 :: b) = ((cur ++ a) :: (scan [] b).1, (scan [] b).2).
Proof. intros Hn. rewrite scan_app, scan_plain by done. done. Qed.

(** The rest has no newline, and comes last in the input. *)
Lemma scan_rest cur l : 10 ∉ cur → 10 ∉ (scan cur l).2.
Proof.
  revert cur. induction l as [|x l IH]; intros cur Hn; simpl; [done|]. destruct (Z.eqb_spec x 10) as [->|Hx].
  - apply IH. apply not_elem_of_nil.
  - apply IH. rewrite elem_of_app, elem_of_cons, elem_of_nil. intros [?|[?|[]]]; [done | congruence].
Qed.

Lemma scan_suffix l : ∃ pre, l = pre ++ (scan [] l).2.
Proof.
  assert (H : ∀ cur, ∃ pre, cur ++ l = pre ++ (scan cur l).2).
  { induction l as [|x l IH]; intros cur; simpl; [exists []; by rewrite app_nil_r|]. destruct (Z.eqb_spec x 10) as [->|].
    - destruct (IH []) as [pre E]. exists (cur ++ 10 :: pre). rewrite <- (assoc_L app). simpl. by rewrite <- E.
    - destruct (IH (cur ++ [x])) as [pre E]. exists pre. by rewrite <- E, <- (assoc_L app). }
  apply (H []).
Qed.

(** Lines that fit into the buffer. *)
Definition short (r : list (list Z) * list Z) : Prop := Forall (λ l : list Z, (length l <= 1022)%nat) (r.1 ++ [r.2]).

Lemma short_start cur l : short (scan cur l) → (length cur <= 1022)%nat.
Proof.
  revert cur. induction l as [|x l IH]; intros cur; simpl.
  - intros H. by apply Forall_cons in H as [H _].
  - destruct (x =? 10); intros H; [by apply Forall_cons in H as [H _]|]. specialize (IH _ H). rewrite length_app in IH. simpl in IH. lia.
Qed.

Lemma short_rest cur l l' : short (scan cur (l ++ l')) → short (scan (scan cur l).2 l').
Proof. rewrite scan_app. unfold short. simpl. rewrite <- (assoc_L app). by intros [_ H]%Forall_app. Qed.

(** ** The buffer *)

Lemma put_bytes_holds m a l : holds (put_bytes m a l) a l ∧ ∀ x, x < a ∨ a + Z.of_nat (length l) ≤ x → put_bytes m a l x = m x.
Proof.
  revert m a. induction l as [|x l IH]; intros m a; simpl; [split; [by intros k y | done]|].
  destruct (IH (upd m a x) (a + 1)) as [H1 H2]. split.
  - apply holds_cons. split; [|done]. rewrite H2 by lia. apply upd_eq.
  - intros y Hy. rewrite H2 by lia. apply upd_ne. lia.
Qed.

Lemma get_bytes_holds m a l : holds m a l → get_bytes m a (length l) = l.
Proof. revert a. induction l as [|x l IH]; intros a H; [done|]. apply holds_cons in H as [<- H]. simpl. by rewrite (IH (a + 1)). Qed.

Lemma cstr_string n p m l : (length l < n)%nat → string_at m p l → Forall (λ c, 0 ≤ c < 256) l → cstr n p m = l.
Proof.
  revert p l. induction n as [|n IH]; intros p l Hn Hs Hb; [lia|]. cbn [cstr]. destruct l as [|c l].
  - by rewrite (string_nil _ _ Hs).
  - apply string_cons in Hs as (-> & Hc & Hs). apply Forall_cons in Hb as [Hb Hb']. simpl in Hn.
    assert (E : u8 c = c) by (unfold u8; lia). rewrite E, (proj2 (nonzero_true c)) by done. f_equal. apply IH; (done || lia).
Qed.

(** Bytes of a text file. *)
Definition texty (l : list Z) : Prop := Forall (λ c, 0 < c < 256) l.

Lemma texty_app l l' : texty (l ++ l') ↔ texty l ∧ texty l'.
Proof. apply Forall_app. Qed.

Lemma texty_string m p l : texty l → holds m p l → m (p + Z.of_nat (length l)) = 0 → string_at m p l.
Proof. intros Ht Hh Hz. split; [done|]. split; [|done]. eapply Forall_impl; [exact Ht|]. simpl. lia. Qed.

Lemma lines_loop_spec fuel pattern p s l :
  0 < p → (length l < fuel)%nat → (length l < 1024)%nat → texty l → string_at (g_mem s) p l →
  ∃ m, lines_loop fuel pattern p s =
      Some (p + Z.of_nat (length l) - Z.of_nat (length (scan [] l).2),
        GProc m (g_in s) (g_sizes s) (g_out s ++ printed pattern (scan [] l).1)) ∧
    holds m (p + Z.of_nat (length l) - Z.of_nat (length (scan [] l).2)) (scan [] l).2.
Proof.
  revert p s l. induction fuel as [|f IH]; intros p s l Hp Hf Hl Ht Hs; [lia|]. cbn [lines_loop].
  destruct (decide (10 ∈ l)) as [Hin|Hn].
  - apply list_elem_of_split_l in Hin as (a & b & -> & Hna). rewrite length_app in Hf, Hl. simpl in Hf, Hl.
    destruct Hs as (Hh & Hz & He). apply texty_app in Ht as [Hta Htb]. apply Forall_cons in Htb as [_ Htb].
    assert (Hh' := Hh). replace (a ++ 10 :: b) with ((a ++ [10]) ++ b) in Hh' by by rewrite <- (assoc_L app).
    apply holds_app in Hh' as [Ha Hb]. rewrite length_app in Hb. simpl in Hb.
    rewrite (strchr_found _ _ _ _ a); [| change (Z.to_nat sizeof_buf) with 1024%nat; lia | done | | done | done].
    2: { eapply Forall_impl; [exact Hta|]. simpl. lia. }
    cbn [mbind option_bind]. set (q := p + Z.of_nat (length a)). rewrite (proj2 (Z.eqb_neq q 0)) by lia.
    set (m0 := upd (g_mem s) q 0). apply holds_app in Ha as [Ha Hq]. apply holds_cons in Hq as [Hq _]. fold q in Hq.
    assert (Hm0 : holds m0 p a) by (eapply holds_ext; [exact Ha|]; intros x Hx; apply upd_ne; lia).
    rewrite (cstr_string _ p m0 a); [| change (Z.to_nat sizeof_buf) with 1024%nat; lia | | eapply Forall_impl; [exact Hta|]; simpl; lia].
    2: { apply texty_string; [done..|]. apply upd_eq. }
    assert (Hlen : p + Z.of_nat (length (a ++ 10 :: b)) = q + 1 + Z.of_nat (length b)) by (rewrite length_app; simpl; lia).
    rewrite Hlen in He. rewrite Hlen, (scan_line [] a b) by done. cbn [fst snd app].
    assert (Hb' : ∀ m, (∀ x, x ≠ q → m x = g_mem s x) → string_at m (q + 1) b).
    { intros m Em. apply texty_string; [done| |].
      - eapply holds_ext; [|intros x Hx; apply Em; lia]. by replace (q + 1) with (p + Z.of_nat (length a + 1)) by lia.
      - rewrite Em by lia. exact He. }
    change (printed pattern (a :: (scan [] b).1)) with ((if match_ pattern a then a ++ [10] else []) ++ printed pattern (scan [] b).1).
    rewrite (assoc_L app). destruct (match_ pattern a) eqn:E.
    + set (m1 := upd m0 q 10). assert (Hg : get_bytes m1 p (Z.to_nat (q + 1 - p)) = a ++ [10]).
      { replace (Z.to_nat (q + 1 - p)) with (length (a ++ [10])) by (rewrite length_app; simpl; lia). apply get_bytes_holds.
        apply holds_app. split; [eapply holds_ext; [exact Hm0|]; intros x Hx; apply upd_ne; lia|].
        apply holds_cons. split; [apply upd_eq | by intros ? ?]. }
      rewrite Hg. eapply (IH (q + 1) (GProc m1 _ _ _) b); [lia.. | done|].
      apply Hb'. intros x Hx. change (m1 x = g_mem s x). unfold m1, m0. by rewrite !upd_ne.
    + rewrite app_nil_r. eapply (IH (q + 1) (GProc m0 _ _ _) b); [lia.. | done|].
      apply Hb'. intros x Hx. by apply upd_ne.
  - rewrite (strchr_missing _ _ _ _ l); [| change (Z.to_nat sizeof_buf) with 1024%nat; lia | done | done].
    simpl. rewrite scan_plain by done. simpl. exists (g_mem s). rewrite app_nil_r.
    replace (p + Z.of_nat (length l) - Z.of_nat (length l)) with p by lia. split; [by destruct s | apply Hs].
Qed.

Section Run.
Context (buf : Z) (Hbuf : 0 < buf).

Lemma read_spec a n s : 0 < n → g_in s ≠ [] →
  ∃ data rest sizes m, read a n s = (Z.of_nat (length data), GProc m rest sizes (g_out s)) ∧
    g_in s = data ++ rest ∧ (0 < Z.of_nat (length data) ≤ n) ∧ holds m a data ∧ ∀ x, x < a → m x = g_mem s x.
Proof.
  intros Hn Hin. unfold read. set (k := match g_sizes s with [] => n | x :: _ => Z.min n (Z.max 1 x) end).
  assert (Hk : 0 < k ≤ n) by (unfold k; destruct (g_sizes s); lia). destruct (put_bytes_holds (g_mem s) a (take (Z.to_nat k) (g_in s))) as [H1 H2].
  eexists _, _, _, _. split; [reflexivity|]. split; [by rewrite take_drop|]. split; [|split; [done|]].
  - rewrite length_take. destruct (g_in s); [done|]. simpl. lia.
  - intros x Hx. apply H2. lia.
Qed.

Lemma grep_loop_spec fuel pattern cur s :
  (length (g_in s) < fuel)%nat → holds (g_mem s) buf cur → 10 ∉ cur → texty cur → texty (g_in s) → short (scan cur (g_in s)) →
  ∃ s', grep_loop buf fuel pattern (Z.of_nat (length cur)) s = Some s' ∧
    g_out s' = g_out s ++ printed pattern (scan cur (g_in s)).1.
Proof.
  revert cur s. induction fuel as [|f IH]; intros cur s Hf Hh Hn Htc Hti Hsh; [lia|]. cbn [grep_loop].
  pose proof (short_start _ _ Hsh) as Hc. unfold sizeof_buf at 1. destruct (decide (g_in s = [])) as [E|Hne].
  { unfold read. rewrite E, take_nil. simpl. eexists. split; [reflexivity|]. simpl. by rewrite app_nil_r. }
  destruct (read_spec (buf + Z.of_nat (length cur)) (1024 - Z.of_nat (length cur) - 1) s) as
    (data & rest & sizes & m & -> & Ein & Hd & Hm & Ho); [lia | done|].
  rewrite (proj2 (Z.ltb_lt 0 _)) by lia. cbn [g_mem g_in g_sizes g_out].
  set (m0 := upd m (buf + (Z.of_nat (length cur) + Z.of_nat (length data))) 0). set (s0 := GProc m0 rest sizes (g_out s)).
  rewrite Ein in *. apply texty_app in Hti as [Htd Htr]. rewrite length_app in Hf.
  assert (Hl : string_at m0 buf (cur ++ data)).
  { apply texty_string; [by apply texty_app | |rewrite length_app, Nat2Z.inj_add; apply upd_eq].
    apply holds_app. split; eapply holds_ext; [exact Hh| |exact Hm|].
    - intros x Hx. unfold m0. rewrite upd_ne by lia. apply Ho. lia.
    - intros x Hx. unfold m0. apply upd_ne. lia. }
  destruct (lines_loop_spec (Z.to_nat sizeof_buf) pattern buf s0 (cur ++ data)) as (m1 & -> & H1);
    [done | change (Z.to_nat sizeof_buf) with 1024%nat; rewrite length_app; lia | rewrite length_app; lia | by apply texty_app | done|].
  cbn [mbind option_bind]. rewrite (proj2 (Z.ltb_lt 0 _)) by lia.
  assert (Es : scan [] (cur ++ data) = scan cur data) by (rewrite scan_app, scan_plain by done; simpl; by destruct (scan cur data)).
  rewrite Es in *. set (t := (scan cur data).2) in *. rewrite length_app, Nat2Z.inj_add in *.
  replace (Z.of_nat (length cur) + Z.of_nat (length data) - (buf + (Z.of_nat (length cur) + Z.of_nat (length data)) - Z.of_nat (length t) - buf))
    with (Z.of_nat (length t)) by lia.
  edestruct (IH t) as (s' & E' & Out); [..|eexists; split; [exact E'|]]; simpl.
  - lia.
  - intros j x Hj. rewrite memmove_spec by lia. pose proof (lookup_lt_Some _ _ _ Hj).
    rewrite (proj2 (Z.leb_le _ _)), (proj2 (Z.ltb_lt _ _)) by lia. simpl. rewrite <- (H1 j x Hj). f_equal. lia.
  - by apply scan_rest.
  - destruct (scan_suffix (cur ++ data)) as [pre Ep]. rewrite Es in Ep. fold t in Ep. assert (Ht : texty (cur ++ data)) by by apply texty_app.
    rewrite Ep in Ht. by apply texty_app in Ht as [_ ?].
  - done.
  - by apply short_rest.
  - rewrite Out. simpl. rewrite scan_app. simpl. rewrite printed_app. by rewrite (assoc_L app).
Qed.

(** C22. [grep] prints exactly the lines that match, in order, however [read] cuts the
    input into pieces, and it terminates: for a text file all of whose lines fit into
    the buffer, fuel above the number of its bytes is enough.  A last line without
    newline is not printed. *)
Theorem grep_prints_matches pattern m input sizes fuel :
  texty input → short (scan [] input) → (length input < fuel)%nat →
  ∃ s, grep buf fuel pattern (GProc m input sizes []) = Some s ∧ g_out s = printed pattern (scan [] input).1.
Proof.
  intros Ht Hs Hf. apply (grep_loop_spec fuel pattern [] (GProc m input sizes [])); try done; [apply not_elem_of_nil | constructor].
Qed.
End Run.

(** Input "ab", "cd", "xb" in lines, delivered in pieces of 1, 4 and the rest; "b$". *)
Lemma grep_prints_matches_witness :
  ∃ s, grep 4096 20 [98; 36] (GProc (λ _, 0) [97; 98; 10; 99; 100; 10; 120; 98; 10] [1; 4] []) = Some s ∧
    g_out s = [97; 98; 10; 120; 98; 10].
Proof.
  apply (grep_prints_matches 4096 ltac:(lia) [98; 36] (λ _, 0) [97; 98; 10; 99; 100; 10; 120; 98; 10] [1; 4] 20).
  - repeat constructor; lia.
  - repeat constructor; simpl; lia.
  - simpl. lia.
Defined.
