(* ===== verification/Umalloc.v ===== *)
(** * The allocator of user programs (user/umalloc.c)

    The circular free list lives in the process's memory: a [Header] at [p] has its
    [ptr] in the 8 bytes at [p] and its [size], in units of 16 bytes, in the 4 bytes at
    [p + 8].  [sbrk] is the kernel's: it grants or refuses each request that keeps the
    process within physical memory, as the list [u_grants] says. *)

From stdpp Require Import base numbers list strings.
From S2P Require Import Prelude Layout.
Local Open Scope Z_scope.

Record uheap : Type := UHeap { u_mem : Z → Z; u_freep : Z; u_brk : Z; u_grants : list bool }.

Definition set_umem (m : Z → Z) (s : uheap) : uheap := UHeap m (u_freep s) (u_brk s) (u_grants s).
Definition set_freep (p : Z) (s : uheap) : uheap := UHeap (u_mem s) p (u_brk s) (u_grants s).

(** ** Headers *)

Definition sizeof_Header : Z := 16.
Definition hptr (m : Z → Z) (p : Z) : Z := load64 m p.
Definition hsize (m : Z → Z) (p : Z) : Z := load32 m (p + 8).
Definition set_hptr (p v : Z) (m : Z → Z) : Z → Z := store64 m p v.
Definition set_hsize (p v : Z) (m : Z → Z) : Z → Z := store32 m (p + 8) (u32 v).

(** [p + n] on a [Header *]. *)
Definition hplus (p n : Z) : Z := p + sizeof_Header * n.

(** ** [sbrk] (kernel/sysproc.c) *)

(** All of a process's memory is physical memory. *)
Definition sbrk_max : Z := PHYSTOP - KERNBASE.

(** [n] is an [int]; -1 on failure. *)
Definition sbrk (n : Z) (s : uheap) : Z * uheap :=
  let n := i32 n in
  match u_grants s with
  | true :: gs =>
      if u_brk s + n <=? sbrk_max then (u_brk s, UHeap (u_mem s) (u_freep s) (u_brk s + n) gs)
      else (-1, UHeap (u_mem s) (u_freep s) (u_brk s) gs)
  | _ => (-1, UHeap (u_mem s) (u_freep s) (u_brk s) (tail (u_grants s)))
  end.

(** ** [free] *)

(** The search for the place of [bp]. *)
Fixpoint free_loop (fuel : nat) (bp p : Z) (m : Z → Z) : option Z :=
  match fuel with
  | O => None
  | S f =>
      let next := hptr m p in
      if (p <? bp) && (bp <? next) then Some p
      else if (next <=? p) && ((p <? bp) || (bp <? next)) then Some p
      else free_loop f bp next m
  end.

(** Joining [bp] to the block above it, and the block [p] below it to [bp]. *)
Definition join_upper (bp p : Z) (m : Z → Z) : Z → Z :=
  if hplus bp (hsize m bp) =? hptr m p then
    let m := set_hsize bp (hsize m bp + hsize m (hptr m p)) m in
    set_hptr bp (hptr m (hptr m p)) m
  else set_hptr bp (hptr m p) m.
Definition join_lower (bp p : Z) (m : Z → Z) : Z → Z :=
  if hplus p (hsize m p) =? bp then
    let m := set_hsize p (hsize m p + hsize m bp) m in
    set_hptr p (hptr m bp) m
  else set_hptr p bp m.

Definition free (fuel : nat) (ap : Z) (s : uheap) : option uheap :=
  let bp := ap - sizeof_Header in
  p ← free_loop fuel bp (u_freep s) (u_mem s);
  let m := join_upper bp p (u_mem s) in
  let m := join_lower bp p m in
  Some (UHeap m p (u_brk s) (u_grants s)).

(** ** [morecore] *)

Definition morecore (fuel : nat) (nu : Z) (s : uheap) : option (Z * uheap) :=
  let nu := if nu <? 4096 then 4096 else nu in
  let '(p, s) := sbrk (nu * sizeof_Header) s in
  if p =? -1 then Some (0, s)
  else
    s ← free fuel (hplus p 1) (set_umem (set_hsize p nu (u_mem s)) s);
    Some (u_freep s, s).

(** ** [malloc] *)

(** Block [p], after [prevp] in the list, is large enough. *)
Definition take_fit (nunits prevp p : Z) (s : uheap) : Z * uheap :=
  let m := u_mem s in
  if hsize m p =? nunits then
    (hplus p 1, set_freep prevp (set_umem (set_hptr prevp (hptr m p) m) s))
  else
    let m := set_hsize p (hsize m p - nunits) m in
    let p := hplus p (hsize m p) in
    let m := set_hsize p nunits m in
    (hplus p 1, set_freep prevp (set_umem m s)).

Fixpoint malloc_loop (fuel : nat) (nunits prevp p : Z) (s : uheap) : option (Z * uheap) :=
  match fuel with
  | O => None
  | S f =>
      if nunits <=? hsize (u_mem s) p then Some (take_fit nunits prevp p s)
      else if p =? u_freep s then
        r ← morecore fuel nunits s;
        let '(p, s) := r in
        if p =? 0 then Some (0, s) else malloc_loop f nunits p (hptr (u_mem s) p) s
      else malloc_loop f nunits p (hptr (u_mem s) p) s
  end.

Section Malloc.
(** The address of the variable [base]. *)
Context (base : Z).

Definition nunits_of (nbytes : Z) : Z := u32 ((nbytes + sizeof_Header - 1) / sizeof_Header + 1).

(** The list with only [base]. *)
Definition init_list (s : uheap) : uheap :=
  UHeap (set_hsize base 0 (set_hptr base base (u_mem s))) base (u_brk s) (u_grants s).

Definition malloc (fuel : nat) (nbytes : Z) (s : uheap) : option (Z * uheap) :=
  let nunits := nunits_of (u32 nbytes) in
  let s := if u_freep s =? 0 then init_list s else s in
  let prevp := u_freep s in
  malloc_loop fuel nunits prevp (hptr (u_mem s) prevp) s.
End Malloc.
