(* ===== verification/UmallocSpec.v ===== *)
(** * The allocator of user programs: no block is lost, overlapped or shared
    (user/umalloc.c)

    The free list is a ring through memory that starts at [base] and is sorted by
    address; free blocks and blocks in use are apart and together are all the memory
    the allocator ever got. *)

From stdpp Require Import base numbers list strings relations.
From S2P Require Import Prelude Layout Umalloc.
Local Open Scope Z_scope.

(** ** Blocks *)

(** A block: the address of its header and its size in units. *)
Abbreviation blk := (Z * Z)%type.
Definition bend (x : blk) : Z := x.1 + 16 * x.2.

(** One after the other; not overlapping. *)
Definition before (x y : blk) : Prop := x.1 + 16 ≤ y.1 ∧ bend x ≤ y.1.
Definition apart (x y : blk) : Prop := bend x ≤ y.1 ∨ bend y ≤ x.1.

Definition units (l : list blk) : Z := foldr (λ x n, snd x + n) 0 l.

(** All pairs of a list, in order. *)
Fixpoint pw (R : blk → blk → Prop) (l : list blk) : Prop :=
  match l with
  | [] => True
  | x :: l' => (∀ y, y ∈ l' → R x y) ∧ pw R l'
  end.

Lemma pw_app R l1 l2 : pw R (l1 ++ l2) ↔ pw R l1 ∧ pw R l2 ∧ ∀ x y, x ∈ l1 → y ∈ l2 → R x y.
Proof.
  induction l1 as [|z l1 IH]; simpl.
  - split; [|tauto]. intros H. split; [done|]. split; [done|]. by intros x y ?%elem_of_nil.
  - rewrite IH. split.
    + intros (H1 & H2 & H3 & H4). repeat split; try done; [intros y Hy; apply H1, elem_of_app; by left|].
      intros x y Hx Hy. apply elem_of_cons in Hx as [->|Hx]; [apply H1, elem_of_app; by right | by apply H4].
    + intros ((H1 & H2) & H3 & H4). repeat split; try done.
      * intros y Hy. apply elem_of_app in Hy as [Hy|Hy]; [by apply H1 | apply H4; [by left | done]].
      * intros x y Hx Hy. apply H4; [by right | done].
Qed.

Lemma units_app l1 l2 : units (l1 ++ l2) = units l1 + units l2.
Proof. induction l1 as [|x l1 IH]; simpl; [done|]. unfold units in *. simpl. rewrite IH. lia. Qed.

Lemma units_cons x l : units (x :: l) = x.2 + units l.
Proof. done. Qed.

(** ** Headers in memory *)

(** Two headers that do not overlap. *)
Definition sep (p q : Z) : Prop := p + 16 ≤ q ∨ q + 16 ≤ p.

Lemma hptr_set p v m : 0 ≤ v < 2 ^ 64 → hptr (set_hptr p v m) p = v.
Proof. intros H. unfold hptr, set_hptr. rewrite load64_store64. by apply u64_small. Qed.

Lemma hsize_set p v m : 0 ≤ v < 2 ^ 32 → hsize (set_hsize p v m) p = v.
Proof. intros H. unfold hsize, set_hsize. rewrite load32_store32. rewrite u32_small by apply u32_bound. by apply u32_small. Qed.

Lemma hsize_set_hptr p q v m : p = q ∨ sep p q → hsize (set_hptr q v m) p = hsize m p.
Proof. unfold sep. intros H. apply load_store_le_out. lia. Qed.

Lemma hptr_set_hptr p q v m : sep p q → hptr (set_hptr q v m) p = hptr m p.
Proof. unfold sep. intros H. apply load_store_le_out. lia. Qed.

Lemma hptr_set_hsize p q v m : p = q ∨ sep p q → hptr (set_hsize q v m) p = hptr m p.
Proof. unfold sep. intros H. apply load_store_le_out. lia. Qed.

Lemma hsize_set_hsize p q v m : sep p q → hsize (set_hsize q v m) p = hsize m p.
Proof. unfold sep. intros H. apply load_store_le_out. lia. Qed.

(** A change of memory within the header at [p]. *)
Definition only (p : Z) (m m' : Z → Z) : Prop := ∀ a, a < p ∨ p + 16 ≤ a → m' a = m a.

Lemma only_set_hptr p v m : only p m (set_hptr p v m).
Proof. intros a Ha. apply store_le_out. lia. Qed.

Lemma only_set_hsize p v m : only p m (set_hsize p v m).
Proof. intros a Ha. apply store_le_out. lia. Qed.

Lemma only_trans p m m' m'' : only p m m' → only p m' m'' → only p m m''.
Proof. intros H1 H2 a Ha. by rewrite H2, H1. Qed.

Lemma only_headers p q m m' : only p m m' → sep q p → hptr m' q = hptr m q ∧ hsize m' q = hsize m q.
Proof. intros H Hs. unfold sep in Hs. split; apply load_le_ext; intros b Hb; apply H; lia. Qed.

(** ** The ring *)

Definition nextp (l : list blk) (e : Z) : Z := match l with [] => e | x :: _ => x.1 end.

(** The headers of [l] in memory, linked in order, the last to [e]. *)
Fixpoint chain (m : Z → Z) (l : list blk) (e : Z) : Prop :=
  match l with
  | [] => True
  | x :: l' => hsize m x.1 = x.2 ∧ hptr m x.1 = nextp l' e ∧ chain m l' e
  end.

Lemma chain_app m l1 l2 e : chain m (l1 ++ l2) e ↔ chain m l1 (nextp l2 e) ∧ chain m l2 e.
Proof.
  induction l1 as [|x l1 IH]; simpl; [tauto|]. rewrite IH. replace (nextp (l1 ++ l2) e) with (nextp l1 (nextp l2 e)); [tauto|].
  by destruct l1.
Qed.

Lemma nextp_app l1 l2 e : nextp (l1 ++ l2) e = nextp l1 (nextp l2 e).
Proof. by destruct l1. Qed.

Lemma ring_ext m m' l e : (∀ x, x ∈ l → hptr m' x.1 = hptr m x.1 ∧ hsize m' x.1 = hsize m x.1) → chain m l e → chain m' l e.
Proof.
  induction l as [|x l IH]; intros H; simpl; [done|]. intros (C1 & C2 & C3). destruct (H x ltac:(by left)) as [-> ->].
  repeat split; try done. apply IH; [|done]. intros y Hy. apply H. by right.
Qed.

Lemma chain_only p m m' l e : only p m m' → (∀ x, x ∈ l → sep x.1 p) → chain m l e → chain m' l e.
Proof. intros H Hs. apply ring_ext. intros x Hx. eapply only_headers; [done | by apply Hs]. Qed.

(** ** The invariant *)

Section Heap.
Context (base brk0 : Z).

(** [L] are the free blocks in order of address, [A] the blocks in use. *)
Record heap (s : uheap) (L A : list blk) : Prop := Heap {
  hp_ring : chain (u_mem s) ((base, 0) :: L) base;
  hp_freep : u_freep s ∈ base :: L.*1;
  hp_order : pw before L;
  hp_used : pw apart A;
  hp_apart : ∀ x y, x ∈ L → y ∈ A → apart x y;
  hp_size : ∀ x, x ∈ A → hsize (u_mem s) x.1 = x.2;
  hp_range : ∀ x, x ∈ L ++ A → brk0 ≤ fst x ∧ bend x ≤ u_brk s ∧ 0 < snd x;
  hp_bounds : 0 < base ∧ base + 16 ≤ brk0 ∧ brk0 ≤ u_brk s ≤ sbrk_max;
  hp_total : 16 * (units L + units A) = u_brk s - brk0;
}.

(** The ring with [base]. *)
Lemma ring_order s L A : heap s L A → pw before ((base, 0) :: L).
Proof.
  intros H. split; [|apply H]. intros y Hy. destruct (hp_range _ _ _ H y) as (R & _); [apply elem_of_app; by left|].
  pose proof (hp_bounds _ _ _ H). unfold before, bend. simpl. lia.
Qed.

Lemma free_bounds s L A x : heap s L A → x ∈ L ++ A → 0 < snd x < 2 ^ 28 ∧ 0 < fst x < 2 ^ 28.
Proof.
  intros H Hx. destruct (hp_range _ _ _ H x Hx) as (R1 & R2 & R3). pose proof (hp_bounds _ _ _ H) as B.
  unfold bend, sbrk_max, PHYSTOP, KERNBASE in *. lia.
Qed.

(** ** The search of [free] *)

(** The place of a block among blocks it is apart from. *)
Lemma place x L : 0 < x.2 → pw before L → (∀ y, y ∈ L → apart y x) →
  ∃ la lb, L = la ++ lb ∧ (∀ y, y ∈ la → bend y ≤ x.1) ∧ ∀ y, y ∈ lb → bend x ≤ y.1.
Proof.
  intros Hx. induction L as [|y L IH]; intros P Ha.
  - exists [], []. split; [done|]. split; by intros z ?%elem_of_nil.
  - destruct P as [P1 P2]. destruct (Ha y ltac:(by left)) as [H|H].
    + destruct IH as (la & lb & -> & H1 & H2); [done | intros z Hz; apply Ha; by right|].
      exists (y :: la), lb. split; [done|]. split; [|done]. intros z [->|Hz]%elem_of_cons; [done | by apply H1].
    + exists [], (y :: L). split; [done|]. split; [by intros z ?%elem_of_nil|].
      intros z [->|Hz]%elem_of_cons; [done|]. destruct (P1 z Hz). lia.
Qed.

(** From below the place, up to it. *)
Lemma loop_forward m bp seg p l2 fuel :
  chain m (seg ++ p :: l2) base → pw before (seg ++ p :: l2) → base < bp → base ≤ p.1 → p.1 < bp →
  (∀ y, y ∈ l2 → bp < y.1) → (length seg < fuel)%nat →
  free_loop fuel bp (nextp (seg ++ [p]) base) m = Some p.1.
Proof.
  revert fuel. induction seg as [|y seg IH]; intros fuel C P Hb Hp Hpb Hl Hf; destruct fuel as [|f]; simpl in Hf; try lia; cbn [free_loop].
  - destruct C as (_ & C & _). cbn [app nextp]. rewrite C. rewrite (proj2 (Z.ltb_lt p.1 bp)) by done. destruct l2 as [|z l2]; simpl.
    + rewrite (proj2 (Z.ltb_ge bp base)) by lia. by rewrite (proj2 (Z.leb_le base p.1)).
    + by rewrite (proj2 (Z.ltb_lt bp z.1)) by (apply Hl; by left).
  - destruct C as (_ & C & C'). destruct P as [P1 P2]. cbn [app nextp]. rewrite C. rewrite nextp_app. cbn [nextp].
    set (w := nextp seg p.1). assert (Hw : w ≤ p.1 ∧ y.1 + 16 ≤ w).
    { unfold w. destruct seg as [|z seg]; simpl.
      - split; [done|]. by destruct (P1 p ltac:(by left)).
      - split; [|by destruct (P1 z ltac:(by left))]. destruct P2 as [P2 _].
        destruct (P2 p) as [? _]; [apply elem_of_app; right; by left|]. lia. }
    rewrite (proj2 (Z.ltb_ge bp w)) by lia. rewrite andb_false_r. rewrite (proj2 (Z.leb_gt w y.1)) by lia. cbn [andb].
    replace w with (nextp (seg ++ [p]) base) by (unfold w; by destruct seg). apply IH; (done || lia).
Qed.

(** From above the place, on to [base]. *)
Lemma loop_wrap m bp seg fuel : chain m seg base → pw before seg → base < bp → (∀ y, y ∈ seg → bp < y.1) →
  free_loop (length seg + fuel) bp (nextp seg base) m = free_loop fuel bp base m.
Proof.
  induction seg as [|y seg IH]; intros C P Hb Hl; [done|]. destruct C as (_ & C & C'). destruct P as [P1 P2].
  cbn [length Nat.add free_loop nextp]. rewrite C. pose proof (Hl y ltac:(by left)) as Hy.
  rewrite (proj2 (Z.ltb_ge y.1 bp)) by lia. cbn [andb orb].
  assert (E : (nextp seg base <=? y.1) && (bp <? nextp seg base) = false).
  { destruct seg as [|z seg]; simpl; [rewrite (proj2 (Z.ltb_ge bp base)) by lia; apply andb_false_r|].
    destruct (P1 z ltac:(by left)). by rewrite (proj2 (Z.leb_gt z.1 y.1)) by lia. }
  rewrite E. apply IH; try done. intros z Hz. apply Hl. by right.
Qed.

Lemma free_loop_spec m bp l1 p l2 freep fuel L :
  (base, 0) :: L = l1 ++ p :: l2 → chain m ((base, 0) :: L) base → pw before ((base, 0) :: L) →
  base < bp → base ≤ p.1 → p.1 < bp → (∀ y, y ∈ l2 → bp < y.1) → freep ∈ base :: L.*1 →
  (2 * length L + 3 <= fuel)%nat → free_loop fuel bp freep m = Some p.1.
Proof.
  intros E C P Hb Hp Hpb Hl Hf Hfu. assert (Hf' : freep ∈ (l1 ++ p :: l2).*1) by by rewrite <- E.
  assert (HL : length L = (length l1 + length l2)%nat).
  { assert (H := f_equal length E). rewrite length_app in H. simpl in H. lia. }
  rewrite E in C, P. apply list_elem_of_fmap in Hf' as (z & -> & Hz). apply elem_of_app in Hz as [Hz|Hz].
  - apply list_elem_of_split in Hz as (k1 & k2 & ->). rewrite <- (assoc_L app) in C, P. apply chain_app in C as [_ C].
    apply pw_app in P as (_ & P & _). rewrite length_app in HL. simpl in HL.
    apply (loop_forward m bp (z :: k2) p l2 fuel); try done. simpl. lia.
  - apply elem_of_cons in Hz as [->|Hz].
    + apply chain_app in C as [_ C]. apply pw_app in P as (_ & P & _). apply (loop_forward m bp [] p l2 fuel); try done. simpl. lia.
    + assert (Hbase : base = nextp (l1 ++ [p]) base).
      { destruct l1; simpl in *; [injection E as <- _; done | injection E as <- _; done]. }
      pose proof C as Cw. pose proof P as Pw. apply list_elem_of_split in Hz as (k1 & k2 & ->).
      rewrite (app_comm_cons k1), (assoc_L app) in Cw, Pw. apply chain_app in Cw as [_ Cw]. apply pw_app in Pw as (_ & Pw & _).
      rewrite length_app in HL. simpl in HL.
      replace fuel with (length (z :: k2) + (fuel - length (z :: k2)))%nat by (simpl; lia).
      change z.1 with (nextp (z :: k2) base). rewrite loop_wrap; try done.
      * rewrite Hbase at 1. apply loop_forward with (l2 := k1 ++ z :: k2); try done. simpl. lia.
      * intros y Hy. apply Hl. apply elem_of_app. by right.
Qed.

(** ** Joining blocks *)

(** [x] joined to the block above it, and [p] to the block above it. *)
Definition up (x : blk) (l : list blk) : blk * list blk :=
  match l with
  | z :: l' => if bend x =? z.1 then ((x.1, x.2 + z.2), l') else (x, l)
  | [] => (x, [])
  end.
Definition down (p y : blk) : list blk := if bend p =? y.1 then [(p.1, p.2 + y.2)] else [p; y].
Definition joined (p x : blk) (l : list blk) : list blk := down p (up x l).1 ++ (up x l).2.

(** Addresses and sizes are small. *)
Definition small (x : blk) : Prop := 0 ≤ fst x < 2 ^ 28 ∧ 0 ≤ snd x < 2 ^ 28.

Lemma join_upper_spec m p x l : 0 < base < 2 ^ 28 → base < x.1 → chain m (p :: l) base → hsize m x.1 = x.2 →
  p.1 + 16 ≤ x.1 → (∀ y, y ∈ l → x.1 + 16 ≤ y.1) → small x → (∀ y, y ∈ l → small y) → 0 < x.2 →
  let m' := join_upper x.1 p.1 m in chain m' ((up x l).1 :: (up x l).2) base ∧ only x.1 m m'.
Proof.
  intros Hb Hbx (_ & Cp & C) Hx Hpx Hl [S1 S2] Sl Hx0 m'. unfold m', join_upper, hplus, sizeof_Header. rewrite Cp, Hx.
  unfold up. destruct l as [|z l]; cbn [nextp].
  - rewrite (proj2 (Z.eqb_neq _ _)) by lia. split; [|apply only_set_hptr]. simpl.
    rewrite hsize_set_hptr, hptr_set by (tauto || lia). done.
  - destruct C as (Cz1 & Cz2 & C). pose proof (Hl z ltac:(by left)) as Hz. destruct (Sl z ltac:(by left)) as [S3 S4].
    assert (Hn : 0 ≤ nextp l base < 2 ^ 28) by (destruct l as [|w l]; simpl; [lia | apply (Sl w); right; by left]).
    unfold bend. destruct (Z.eqb_spec (x.1 + 16 * x.2) z.1) as [E|E].
    + split; [|eapply only_trans; [apply only_set_hsize | apply only_set_hptr]]. cbn [chain fst snd].
      rewrite hsize_set_hptr, hsize_set by (tauto || lia). split; [lia|].
      rewrite (hptr_set_hsize p.1) by (unfold sep; lia). rewrite Cp. cbn [nextp].
      rewrite (hptr_set_hsize z.1) by (unfold sep; lia). rewrite Cz2, hptr_set by lia. split; [done|].
      eapply chain_only; [eapply only_trans; [apply only_set_hsize | apply only_set_hptr] | | exact C].
      intros y Hy. specialize (Hl y ltac:(by right)). unfold sep. lia.
    + split; [|apply only_set_hptr]. cbn [chain fst snd nextp]. rewrite hsize_set_hptr, hptr_set by (tauto || lia). split; [done|].
      split; [done|]. rewrite hsize_set_hptr, hptr_set_hptr by (unfold sep; lia). split; [done|]. split; [done|].
      eapply chain_only; [apply only_set_hptr | | exact C]. intros y Hy. specialize (Hl y ltac:(by right)). unfold sep. lia.
Qed.

Lemma join_lower_spec m p y l : 0 < base < 2 ^ 28 → chain m (y :: l) base → hsize m p.1 = p.2 →
  p.1 + 16 ≤ y.1 → (∀ z, z ∈ l → p.1 + 16 ≤ z.1) → small p → (0 ≤ y.1 < 2 ^ 28 ∧ 0 ≤ y.2 ∧ p.2 + y.2 < 2 ^ 32) →
  (∀ z, z ∈ l → small z) →
  let m' := join_lower y.1 p.1 m in chain m' (down p y ++ l) base ∧ only p.1 m m'.
Proof.
  intros Hb (Cy1 & Cy2 & C) Hp Hpy Hl [S1 S2] S3 Sl m'. unfold m', join_lower, hplus, sizeof_Header. rewrite Hp, Cy1.
  assert (Hn : 0 ≤ nextp l base < 2 ^ 28) by (destruct l as [|w l]; simpl; [lia | apply (Sl w); by left]).
  unfold down, bend. destruct (Z.eqb_spec (p.1 + 16 * p.2) y.1) as [E|E].
  - split; [|eapply only_trans; [apply only_set_hsize | apply only_set_hptr]]. cbn [chain fst snd app].
    rewrite hsize_set_hptr, hsize_set by (tauto || lia). split; [lia|]. rewrite (hptr_set_hsize y.1) by (unfold sep; lia).
    rewrite Cy2, hptr_set by lia. split; [done|].
    eapply chain_only; [eapply only_trans; [apply only_set_hsize | apply only_set_hptr] | | exact C].
    intros z Hz. specialize (Hl z Hz). unfold sep. lia.
  - split; [|apply only_set_hptr]. cbn [chain fst snd app nextp]. rewrite hsize_set_hptr, hptr_set by (tauto || lia).
    split; [done|]. split; [done|]. rewrite hsize_set_hptr, hptr_set_hptr by (unfold sep; lia). split; [done|]. split; [done|].
    eapply chain_only; [apply only_set_hptr | | exact C]. intros z Hz. specialize (Hl z Hz). unfold sep. lia.
Qed.

(** Joining keeps the units and the order, and does not reach further. *)
Lemma joined_units p x l : units (joined p x l) = p.2 + x.2 + units l.
Proof.
  assert (E : units ((up x l).1 :: (up x l).2) = x.2 + units l).
  { unfold up. destruct l as [|z l]; [done|]. destruct (_ =? _); rewrite !units_cons; simpl; lia. }
  unfold joined, down. rewrite units_cons in E. destruct (_ =? _); rewrite units_app; rewrite !units_cons; simpl; lia.
Qed.

Lemma joined_forall (P : blk → Prop) p x l : P p → P x → (∀ z, z ∈ l → P z) →
  (∀ a b, P a → P b → bend a = b.1 → P (a.1, a.2 + b.2)) → ∀ z, z ∈ joined p x l → P z.
Proof.
  intros Hp Hx Hl Hj z.
  assert (Hu : P (up x l).1 ∧ ∀ y, y ∈ (up x l).2 → P y).
  { unfold up. destruct l as [|w l]; [split; [done | by intros y ?%elem_of_nil]|].
    destruct (Z.eqb_spec (bend x) w.1) as [E|]; simpl; [|by split].
    split; [apply Hj; [done | apply Hl; by left | done] | intros y Hy; apply Hl; by right]. }
  destruct Hu as [H1 H2]. unfold joined, down. rewrite elem_of_app. intros [Hz|Hz]; [|by apply H2].
  destruct (Z.eqb_spec (bend p) (up x l).1.1) as [E|].
  - apply list_elem_of_singleton in Hz as ->. by apply Hj.
  - apply elem_of_cons in Hz as [->|Hz]; [done|]. by apply list_elem_of_singleton in Hz as ->.
Qed.

Lemma joined_order p x l : 0 ≤ p.2 → 0 ≤ x.2 → (∀ z, z ∈ l → 0 ≤ z.2) → pw before (p :: x :: l) → pw before (joined p x l).
Proof.
  intros Hp Hx Hl (P1 & P2 & P3). unfold before, bend in *.
  assert (Hu : pw before ((up x l).1 :: (up x l).2) ∧ (up x l).1.1 = x.1 ∧ x.2 ≤ (up x l).1.2 ∧
    ∀ y, y ∈ (up x l).1 :: (up x l).2 → p.1 + 16 ≤ y.1 ∧ p.1 + 16 * p.2 ≤ y.1).
  { unfold up. destruct l as [|w l]; simpl.
    - split; [by split; [intros y ?%elem_of_nil|]|]. split; [done|]. split; [lia|].
      intros y Hy. apply list_elem_of_singleton in Hy as ->. apply P1. by left.
    - destruct P3 as [P3 P4]. pose proof (Hl w ltac:(by left)). unfold bend. destruct (Z.eqb_spec (x.1 + 16 * x.2) w.1) as [E|E]; simpl.
      + split; [|split; [done|split; [lia|]]].
        * split; [|done]. intros y Hy. pose proof (P3 y Hy) as [? ?]. pose proof (P2 y ltac:(by right)) as [? ?].
          unfold before, bend in *. simpl. lia.
        * intros y [->|Hy]%elem_of_cons; simpl; [apply (P1 x); by left | apply P1; right; by right].
      + split; [by split|]. split; [done|]. split; [lia|]. intros y Hy. by apply P1. }
  destruct Hu as ((U1 & U2) & U3 & U4 & U5). unfold joined, down. destruct (Z.eqb_spec (bend p) (up x l).1.1) as [E|E]; simpl.
  - split; [|done]. intros y Hy. pose proof (U5 y ltac:(by right)) as [? ?]. pose proof (U1 y Hy) as [? ?].
    unfold before, bend in *. simpl. lia.
  - split; [|by split]. intros y Hy. unfold before, bend. by apply U5.
Qed.

Lemma joined_grows p x l : 0 ≤ p.2 → (∀ z, z ∈ l → 0 ≤ z.2) → ∃ z, z ∈ joined p x l ∧ x.2 ≤ snd z.
Proof.
  intros Hp Hl. assert (Hu : x.2 ≤ (up x l).1.2).
  { unfold up. destruct l as [|w l]; simpl; [lia|]. pose proof (Hl w ltac:(by left)). destruct (_ =? _); simpl; lia. }
  unfold joined, down. destruct (_ =? _).
  - eexists. split; [by left|]. simpl. lia.
  - eexists. split; [right; by left | done].
Qed.

Lemma joined_length p x l : (length (joined p x l) <= 2 + length l)%nat ∧ nextp (joined p x l) base = p.1.
Proof.
  assert (Hu : (length (up x l).2 <= length l)%nat) by (unfold up; destruct l; [done|]; destruct (_ =? _); simpl; lia).
  unfold joined, down. destruct (_ =? _); simpl; split; (done || lia).
Qed.

(** ** [free] *)

(** The ring around the place of a block in use. *)
Lemma ring_split s L x A : heap s L (x :: A) →
  ∃ l1 p lb, (base, 0) :: L = l1 ++ p :: lb ∧ (∀ y, y ∈ l1 ++ [p] → before y x) ∧ (∀ y, y ∈ lb → before x y ∧ y ∈ L) ∧
    (∀ y, y ∈ l1 ++ [p] → y = (base, 0) ∨ y ∈ L).
Proof.
  intros H. destruct (hp_range _ _ _ H x) as (Rx & _ & Ux); [apply elem_of_app; right; by left|]. pose proof (hp_bounds _ _ _ H) as B.
  destruct (place x L Ux (hp_order _ _ _ H)) as (la & lb & E & H1 & H2); [intros y Hy; apply (hp_apart _ _ _ H); [done | by left]|].
  assert (Hne : (base, 0) :: la ≠ []) by done. destruct (exists_last Hne) as (l1 & p & Ep). exists l1, p, lb.
  assert (Hin : ∀ y, y ∈ l1 ++ [p] → y = (base, 0) ∨ y ∈ la) by (intros y; rewrite <- Ep; apply elem_of_cons).
  split; [rewrite E; change ((base, 0) :: la ++ lb) with (((base, 0) :: la) ++ lb); rewrite Ep, <- (assoc_L app); done|]. split; [|split].
  - intros y Hy. destruct (Hin y Hy) as [->|Hy']; [unfold before, bend; simpl; lia|]. specialize (H1 y Hy').
    destruct (hp_range _ _ _ H y) as (_ & _ & ?); [rewrite E; rewrite !elem_of_app; tauto|]. unfold before, bend in *. lia.
  - intros y Hy. specialize (H2 y Hy). split; [unfold before, bend in *; lia|]. rewrite E, elem_of_app. tauto.
  - intros y Hy. destruct (Hin y Hy) as [->|Hy']; [by left|]. right. rewrite E, elem_of_app. tauto.
Qed.

Lemma ring_block s L A y : heap s L A → y = (base, 0) ∨ y ∈ L ++ A → small y.
Proof.
  intros H [->|Hy].
  - pose proof (hp_bounds _ _ _ H) as B. unfold small, sbrk_max, PHYSTOP, KERNBASE in *. simpl. lia.
  - pose proof (free_bounds _ _ _ _ H Hy) as [? ?]. unfold small. lia.
Qed.

Lemma join_apart y a b : 0 < snd y → apart a y → apart b y → bend a = b.1 → apart (a.1, a.2 + b.2) y.
Proof. unfold apart, bend. simpl. lia. Qed.

(** Range of the blocks of the ring. *)
Definition in_ring (brk : Z) (y : blk) : Prop := y = (base, 0) ∨ brk0 ≤ fst y ∧ bend y ≤ brk ∧ 0 < snd y.

Lemma join_range brk a b : base + 16 ≤ brk0 → in_ring brk a → in_ring brk b → bend a = b.1 → in_ring brk (a.1, a.2 + b.2).
Proof.
  unfold in_ring, bend. intros B [->|Ha] [->|Hb] E; simpl in *; first [by left | right; lia].
Qed.

(** The ring still starts at [base]. *)
Lemma joined_ring l1 p x lb L : (base, 0) :: L = l1 ++ p :: lb → base < x.1 → ∃ L', l1 ++ joined p x lb = (base, 0) :: L'.
Proof.
  intros E Hb. destruct l1 as [|y l1]; simpl in E; injection E as <- E; [|by eexists]. unfold joined, down.
  assert (Hu : (up x lb).1.1 = x.1) by (unfold up; destruct lb; [done|]; by destruct (_ =? _)).
  rewrite Hu. unfold bend. simpl. rewrite (proj2 (Z.eqb_neq _ _)) by lia. by eexists.
Qed.

(** The blocks of the new ring. *)
Lemma joined_blocks s L x A l1 p lb : heap s L (x :: A) → (base, 0) :: L = l1 ++ p :: lb →
  (∀ y, y ∈ l1 ++ [p] → before y x) → (∀ y, y ∈ lb → before x y) →
  pw before (l1 ++ joined p x lb) ∧ ∀ z, z ∈ l1 ++ joined p x lb → in_ring (u_brk s) z ∧ ∀ y, y ∈ A → apart z y.
Proof.
  intros H ER H1 H2. pose proof (hp_bounds _ _ _ H) as B. pose proof (ring_order _ _ _ H) as P. rewrite ER in P.
  assert (Hx : x ∈ L ++ x :: A) by (apply elem_of_app; right; by left).
  assert (HA : ∀ y, y ∈ A → 0 < snd y) by (intros y Hy; apply (hp_range _ _ _ H y), elem_of_app; right; by right).
  assert (HR : ∀ z, z ∈ l1 ++ p :: lb → in_ring (u_brk s) z ∧ ∀ y, y ∈ A → apart z y).
  { intros z Hz. rewrite <- ER in Hz. apply elem_of_cons in Hz as [->|Hz].
    - split; [by left|]. intros y Hy. left. destruct (hp_range _ _ _ H y) as (? & _); [apply elem_of_app; right; by right|].
      unfold bend. simpl. lia.
    - split; [right; apply (hp_range _ _ _ H), elem_of_app; by left|]. intros y Hy. apply (hp_apart _ _ _ H); [done | by right]. }
  assert (HX : in_ring (u_brk s) x ∧ ∀ y, y ∈ A → apart x y).
  { split; [right; by apply (hp_range _ _ _ H)|]. apply (hp_used _ _ _ H). }
  assert (Hn : ∀ z, in_ring (u_brk s) z → 0 ≤ snd z) by (intros z [->|(_ & _ & ?)]; simpl; lia).
  apply pw_app in P as (P1 & P2 & P3). destruct P2 as [P2 P4]. split.
  - apply pw_app. split; [done|]. split.
    + apply joined_order; [apply Hn, HR, elem_of_app; right; by left | apply Hn, HX | intros z Hz; apply Hn, HR, elem_of_app; right; by right|].
      split; [|split; [done | done]]. intros y [->|Hy]%elem_of_cons; [apply H1, elem_of_app; right; by left | by apply P2].
    + intros y z Hy. apply (joined_forall (before y)).
      * apply P3; [done | by left].
      * apply H1, elem_of_app. by left.
      * intros w Hw. apply P3; [done | by right].
      * by intros a b Ha _ _.
  - intros z [Hz|Hz]%elem_of_app; [apply HR, elem_of_app; by left|]. revert z Hz.
    apply (joined_forall (λ z, in_ring (u_brk s) z ∧ ∀ y, y ∈ A → apart z y)); [apply HR, elem_of_app; right; by left | done | |].
    + intros z Hz. apply HR, elem_of_app. right. by right.
    + intros a b [Ha1 Ha2] [Hb1 Hb2] E. split; [apply join_range; (done || lia)|]. intros y Hy. apply join_apart; auto.
Qed.

(** What the two joins do to the ring and to memory. *)
Lemma joins_spec m l1 p x lb : 0 < base < 2 ^ 28 → base < x.1 → 0 < x.2 → hsize m x.1 = x.2 → small x →
  chain m (l1 ++ p :: lb) base → pw before (l1 ++ p :: lb) → (∀ y, y ∈ l1 ++ p :: lb → small y) →
  (∀ y, y ∈ l1 ++ [p] → before y x) → (∀ y, y ∈ lb → before x y) →
  let m' := join_lower x.1 p.1 (join_upper x.1 p.1 m) in
  chain m' (l1 ++ joined p x lb) base ∧
  ∀ a, a < x.1 ∨ x.1 + 16 ≤ a → a < p.1 ∨ p.1 + 16 ≤ a → m' a = m a.
Proof.
  intros Hb Hbx Ux Hx Sx C P Sy H1 H2 m'. apply chain_app in C as [C1 C2]. apply pw_app in P as (P1 & P2 & P3).
  destruct (H1 p) as [Bp1 Bp2]; [apply elem_of_app; right; by left|].
  assert (Sp : small p) by (apply Sy, elem_of_app; right; by left).
  assert (Sl : ∀ y, y ∈ lb → small y) by (intros y Hy; apply Sy, elem_of_app; right; by right).
  destruct (join_upper_spec m p x lb) as [U1 U2]; try done; [intros y Hy; apply (H2 y Hy)|]. set (m1 := join_upper x.1 p.1 m) in *.
  assert (Hu : (up x lb).1.1 = x.1 ∧ 0 ≤ (up x lb).1.2 < 2 ^ 29 ∧ ∀ y, y ∈ (up x lb).2 → y ∈ lb).
  { unfold up. destruct Sx. destruct lb as [|w lb]; simpl; [split; [done|]; split; [lia|done]|].
    destruct (Sl w ltac:(by left)). destruct (_ =? _); simpl; (split; [done|]; split; [lia|]); [by right | done]. }
  destruct Hu as (Hu1 & Hu2 & Hu3). destruct (only_headers x.1 p.1 m m1 U2) as [_ Hps]; [unfold sep; lia|].
  destruct C2 as (Cp & _ & _). rewrite Cp in Hps. destruct Sp as [Sp1 Sp2].
  destruct (join_lower_spec m1 p (up x lb).1 (up x lb).2) as [W1 W2]; try done; try lia.
  { intros z Hz. destruct P2 as [P2 _]. by destruct (P2 z (Hu3 z Hz)). }
  { destruct Sx. lia. }
  { intros z Hz. by apply Sl, Hu3. }
  rewrite Hu1 in W1, W2. fold m' in W1, W2. split.
  - apply chain_app. split; [|exact W1]. destruct (joined_length p x lb) as [_ ->].
    eapply (chain_only p.1 m1); [exact W2| |eapply (chain_only x.1 m); [exact U2| |exact C1]].
    + intros y Hy. destruct (P3 y p Hy ltac:(by left)). unfold sep. lia.
    + intros y Hy. destruct (H1 y) as [? _]; [apply elem_of_app; by left|]. unfold sep. lia.
  - intros a Ha1 Ha2. rewrite W2 by done. by apply U2.
Qed.

(** The blocks in use are away from the headers of the ring. *)
Lemma node_away s L A p y : heap s L A → p = (base, 0) ∨ p ∈ L → y ∈ A → p.1 + 16 ≤ y.1 ∨ bend y ≤ p.1.
Proof.
  intros H Hp Hy. pose proof (hp_bounds _ _ _ H) as B.
  destruct (hp_range _ _ _ H y) as (Ly & _); [apply elem_of_app; by right|]. destruct Hp as [->|Hp]; [simpl; lia|].
  pose proof (hp_apart _ _ _ H p y Hp Hy) as Hap. destruct (hp_range _ _ _ H p) as (_ & _ & Up); [apply elem_of_app; by left|].
  unfold apart, bend in *. lia.
Qed.

Lemma used_away s L x A p y a : heap s L (x :: A) → p = (base, 0) ∨ p ∈ L → y ∈ A → y.1 ≤ a < bend y →
  (a < x.1 ∨ x.1 + 16 ≤ a) ∧ (a < p.1 ∨ p.1 + 16 ≤ a).
Proof.
  intros H Hp Hy Ha. assert (Hxy : apart x y) by by apply (hp_used _ _ _ H).
  destruct (hp_range _ _ _ H x) as (_ & _ & Ux); [apply elem_of_app; right; by left|].
  pose proof (node_away _ _ _ p y H Hp ltac:(by right)). unfold apart, bend in *. lia.
Qed.

(** The state after [free]. *)
Lemma free_heap s L x A l1 p lb L' m : heap s L (x :: A) → (base, 0) :: L = l1 ++ p :: lb →
  l1 ++ joined p x lb = (base, 0) :: L' → (∀ y, y ∈ l1 ++ [p] → before y x) → (∀ y, y ∈ lb → before x y) →
  chain m (l1 ++ joined p x lb) base →
  (∀ y a, y ∈ A → y.1 ≤ a < bend y → m a = u_mem s a) →
  heap (UHeap m p.1 (u_brk s) (u_grants s)) L' A.
Proof.
  intros H ER EL' H1 H2 C' M'. destruct (joined_blocks s L x A l1 p lb H ER H1 H2) as [PB HB]. rewrite EL' in C', PB, HB.
  pose proof (hp_bounds _ _ _ H) as B. split; simpl; try done.
  - change (p.1 ∈ ((base, 0) :: L').*1). rewrite <- EL', fmap_app, elem_of_app. right. destruct (joined_length p x lb) as [_ E].
    destruct (joined p x lb) as [|q Q] eqn:EQ; simpl in *; [unfold joined, down in EQ; by destruct (_ =? _)|]. rewrite <- E. by left.
  - apply PB.
  - apply (hp_used _ _ _ H).
  - intros z y Hz Hy. apply HB; [by right | done].
  - intros y Hy. rewrite <- (hp_size _ _ _ H y) by by right. apply load_le_ext. intros b Hb. apply (M' y); [done|].
    destruct (hp_range _ _ _ H y) as (_ & _ & Uy); [apply elem_of_app; right; by right|]. unfold bend. lia.
  - intros z [Hz|Hz]%elem_of_app; [|apply (hp_range _ _ _ H), elem_of_app; right; by right].
    destruct (HB z ltac:(by right)) as [[->|?] _]; [|done]. destruct PB as [PB _]. destruct (PB _ Hz). simpl in *. lia.
  - assert (E := f_equal units EL'). rewrite units_app, joined_units, units_cons in E. simpl in E.
    assert (E2 := f_equal units ER). rewrite units_app, !units_cons in E2. simpl in E2. pose proof (hp_total _ _ _ H) as T.
    rewrite units_cons in T. lia.
Qed.

Lemma free_spec fuel s L x A : heap s L (x :: A) → (2 * length L + 3 <= fuel)%nat →
  ∃ s' L', free fuel (x.1 + 16) s = Some s' ∧ heap s' L' A ∧ u_brk s' = u_brk s ∧ u_grants s' = u_grants s ∧
    (∀ y a, y ∈ A → y.1 ≤ a < bend y → u_mem s' a = u_mem s a) ∧ (∃ z, z ∈ L' ∧ x.2 ≤ snd z) ∧ (length L' <= length L + 1)%nat.
Proof.
  intros H Hf. pose proof (hp_bounds _ _ _ H) as B. destruct (ring_split _ _ _ _ H) as (l1 & p & lb & ER & H1 & H2 & H3).
  assert (Hx : x ∈ L ++ x :: A) by (apply elem_of_app; right; by left).
  destruct (hp_range _ _ _ H x Hx) as (Rx & Ry & Ux). pose proof (ring_block _ _ _ x H (or_intror Hx)) as Sx.
  assert (Hp : p ∈ l1 ++ [p]) by (apply elem_of_app; right; by left). pose proof (H1 p Hp) as [Bp1 Bp2].
  assert (H2' : ∀ y, y ∈ lb → before x y) by (intros y Hy; by apply H2).
  assert (Sy : ∀ y, y ∈ l1 ++ p :: lb → small y).
  { intros y Hy. apply (ring_block _ _ _ y H). rewrite <- ER in Hy. apply elem_of_cons in Hy as [->|Hy]; [by left|].
    right. apply elem_of_app. by left. }
  assert (Hpb : base ≤ p.1).
  { destruct (H3 p Hp) as [->|Hp']; [done|]. destruct (hp_range _ _ _ H p) as (? & _); [apply elem_of_app; by left | lia]. }
  pose proof (hp_ring _ _ _ H) as C. pose proof (ring_order _ _ _ H) as P. unfold free, sizeof_Header.
  replace (x.1 + 16 - 16) with x.1 by lia.
  rewrite (free_loop_spec (u_mem s) x.1 l1 p lb (u_freep s) fuel L ER C P); try done; [|lia..| | apply H].
  2: { intros y Hy. destruct (H2 y Hy) as [[? _] _]. lia. }
  cbn [mbind option_bind]. rewrite ER in C, P.
  destruct (joins_spec (u_mem s) l1 p x lb) as [C' M']; try done; [unfold sbrk_max, PHYSTOP, KERNBASE in B; lia | lia |
    apply (hp_size _ _ _ H); by left|].
  destruct (joined_ring l1 p x lb L ER ltac:(lia)) as (L' & EL').
  assert (Hout : ∀ y a, y ∈ A → y.1 ≤ a < bend y → join_lower x.1 p.1 (join_upper x.1 p.1 (u_mem s)) a = u_mem s a).
  { intros y a Hy Ha. destruct (used_away s L x A p y a H (H3 p Hp) Hy Ha). by apply M'. }
  eexists _, L'. split; [reflexivity|]. split; [by apply (free_heap s L x A l1 p lb)|]. do 2 (split; [done|]). split; [done|]. split.
  - destruct (joined_grows p x lb) as (z & Hz & Hxz).
    { destruct (Sy p) as [_ ?]; [apply elem_of_app; right; by left | lia]. }
    { intros z Hz. destruct (Sy z) as [_ ?]; [apply elem_of_app; right; by right | lia]. }
    exists z. split; [|done]. assert (Hz' : z ∈ (base, 0) :: L') by (rewrite <- EL'; apply elem_of_app; by right).
    apply elem_of_cons in Hz' as [->|]; [simpl in Hxz; lia | done].
  - assert (E := f_equal length EL'). assert (E2 := f_equal length ER). rewrite length_app in E, E2. simpl in E, E2.
    destruct (joined_length p x lb) as [? _]. lia.
Qed.

(** ** The search of [malloc] *)

Fixpoint lasta (prev : Z) (seg : list blk) : Z := match seg with [] => prev | y :: seg' => lasta y.1 seg' end.

Lemma lasta_snoc prev seg q : lasta prev (seg ++ [q]) = q.1.
Proof. revert prev. induction seg as [|y seg IH]; intros prev; [done | apply IH]. Qed.

Lemma walk_small s n seg r2 prev fuel : chain (u_mem s) (seg ++ r2) base → (∀ y, y ∈ seg → y.2 < n ∧ y.1 ≠ u_freep s) →
  malloc_loop (length seg + fuel) n prev (nextp (seg ++ r2) base) s = malloc_loop fuel n (lasta prev seg) (nextp r2 base) s.
Proof.
  revert prev. induction seg as [|y seg IH]; intros prev C Hs; [done|]. destruct C as (C1 & C2 & C3).
  destruct (Hs y ltac:(by left)) as [Hn Hf]. cbn [length Nat.add malloc_loop app nextp]. rewrite C1.
  rewrite (proj2 (Z.leb_gt n y.2)) by done. rewrite (proj2 (Z.eqb_neq y.1 _)) by done. rewrite C2. apply IH; [done|].
  intros z Hz. apply Hs. by right.
Qed.

Lemma first_fit n (l : list blk) : (∀ y, y ∈ l → snd y < n) ∨ ∃ seg p r, l = seg ++ p :: r ∧ (∀ y, y ∈ seg → snd y < n) ∧ n ≤ snd p.
Proof.
  induction l as [|x l IH]; [left; by intros y ?%elem_of_nil|]. destruct (Z.lt_ge_cases x.2 n) as [Hx|Hx].
  - destruct IH as [IH|(seg & p & r & -> & H1 & H2)].
    + left. intros y [->|Hy]%elem_of_cons; [done | by apply IH].
    + right. exists (x :: seg), p, r. split; [done|]. split; [|done]. intros y [->|Hy]%elem_of_cons; [done | by apply H1].
  - right. exists [], x, l. split; [done|]. split; [by intros y ?%elem_of_nil | lia].
Qed.

(** Where the search ends: at a fitting block, with the block before it in the ring, or
    once around at [freep]. *)
Lemma ring_search s L A n : heap s L A → 0 < n →
  (∃ r0 q p r2 used, (base, 0) :: L = r0 ++ q :: p :: r2 ∧ n ≤ snd p ∧ (used <= length L + 1)%nat ∧
    ∀ f, malloc_loop (used + S f) n (u_freep s) (hptr (u_mem s) (u_freep s)) s = Some (take_fit n q.1 p.1 s)) ∨
  ((∀ y, y ∈ L → snd y < n) ∧ ∃ used prev, (used <= length L + 1)%nat ∧
    ∀ f, malloc_loop (used + S f) n (u_freep s) (hptr (u_mem s) (u_freep s)) s = malloc_loop (S f) n prev (u_freep s) s).
Proof.
  intros H Hn. pose proof (hp_ring _ _ _ H) as C. pose proof (ring_order _ _ _ H) as P. pose proof (hp_freep _ _ _ H) as Hf.
  change (u_freep s ∈ ((base, 0) :: L).*1) in Hf. apply list_elem_of_fmap in Hf as (g & Eg & Hg). rewrite Eg.
  apply list_elem_of_split in Hg as (k1 & k2 & ER). assert (HR := f_equal length ER). rewrite length_app in HR. simpl in HR.
  assert (Hb : base = nextp (k1 ++ g :: k2) base) by by rewrite <- ER. rewrite ER in C, P. pose proof C as C0.
  apply chain_app in C as [C1 (_ & C2 & C3)]. apply pw_app in P as (P1 & (P2 & P3) & P4). rewrite C2.
  assert (Hk2 : ∀ y, y ∈ k2 → y.1 ≠ u_freep s) by (intros y Hy; rewrite Eg; destruct (P2 y Hy); lia).
  assert (Hk1 : ∀ y, y ∈ k1 → y.1 ≠ u_freep s) by (intros y Hy; rewrite Eg; destruct (P4 y g Hy ltac:(by left)); lia).
  destruct (first_fit n k2) as [Hs2|(seg & p & r2 & E2 & Hs & Hp)].
  - assert (W2 : ∀ f, malloc_loop (length k2 + f) n g.1 (nextp k2 base) s = malloc_loop f n (lasta g.1 k2) base s).
    { intros f. rewrite <- (app_nil_r k2) at 2. rewrite (walk_small s n k2 []); [done | by rewrite app_nil_r|].
      intros y Hy. split; [by apply Hs2 | by apply Hk2]. }
    destruct (first_fit n (k1 ++ [g])) as [Hs1|(seg & p & r2 & E1 & Hs & Hp)].
    + right. split.
      * intros y Hy. assert (Hy' : y ∈ (base, 0) :: L) by by right. rewrite ER in Hy'. apply elem_of_app in Hy' as [Hy'|Hy'].
        -- apply Hs1, elem_of_app. by left.
        -- apply elem_of_cons in Hy' as [->|Hy']; [apply Hs1, elem_of_app; right; by left | by apply Hs2].
      * exists (length k2 + length k1)%nat, (lasta (lasta g.1 k2) k1). split; [lia|]. intros f.
        rewrite <- Nat.add_assoc, W2. rewrite Hb at 1. rewrite (walk_small s n k1 (g :: k2)); [done | done|].
        intros y Hy. split; [apply Hs1, elem_of_app; by left | by apply Hk1].
    + left. destruct (exists_last (l := p :: r2)) as (r' & g' & Er); [done|].
      assert (Ek : k1 = seg ++ r' ∧ g = g') by (apply app_inj_tail; by rewrite E1, Er, (assoc_L app)). destruct Ek as [Ek <-].
      assert (ER' : k1 ++ g :: k2 = seg ++ p :: r2 ++ k2).
      { change (g :: k2) with ([g] ++ k2). by rewrite (assoc_L app), E1, <- (assoc_L app). }
      rewrite ER' in ER, Hb, C0. destruct seg as [|y0 seg]; [injection ER as <- _; simpl in Hp; lia|].
      destruct (exists_last (l := y0 :: seg)) as (r0 & q & Eq); [done|].
      exists r0, q, p, (r2 ++ k2), (length k2 + length (y0 :: seg))%nat. split; [by rewrite ER, Eq, <- (assoc_L app)|].
      split; [done|]. split; [rewrite Ek, length_app in HR; lia|]. intros f. rewrite <- Nat.add_assoc, W2. rewrite Hb at 1.
      rewrite (walk_small s n (y0 :: seg) (p :: r2 ++ k2)); [|done|].
      * rewrite Eq, lasta_snoc. cbn [nextp malloc_loop]. rewrite Eq in C0. apply chain_app in C0 as [_ (Cp & _)].
        rewrite Cp. by rewrite (proj2 (Z.leb_le n p.2)).
      * intros y Hy. split; [by apply Hs | apply Hk1; rewrite Ek; apply elem_of_app; by left].
  - left. destruct (exists_last (l := g :: seg)) as (r0 & q & Eq); [done|].
    exists (k1 ++ r0), q, p, r2, (length seg). subst k2. split.
    { rewrite ER. change (g :: seg ++ p :: r2) with ((g :: seg) ++ p :: r2). rewrite Eq, <- !(assoc_L app). done. }
    split; [done|]. split; [rewrite length_app in HR; lia|]. intros f.
    rewrite (walk_small s n seg (p :: r2)); [|done|].
    + replace (lasta g.1 seg) with q.1 by (change (lasta g.1 seg) with (lasta 0 (g :: seg)); by rewrite Eq, lasta_snoc).
      cbn [nextp malloc_loop]. apply chain_app in C3 as [_ (Cp & _)]. rewrite Cp. by rewrite (proj2 (Z.leb_le n p.2)).
    + intros y Hy. split; [by apply Hs | apply Hk2, elem_of_app; by left].
Qed.

(** ** Taking a block *)

(** The part of a block that is handed out: all of it or its end. *)
Lemma take_fit_run s n q p r2 r0 : chain (u_mem s) (r0 ++ q :: p :: r2) base → pw before (r0 ++ q :: p :: r2) →
  (∀ y, y ∈ r0 ++ q :: p :: r2 → small y) → 0 < base < 2 ^ 28 → 0 < n ≤ p.2 →
  ∃ m Q, take_fit n q.1 p.1 s = (bend p - 16 * n + 16, UHeap m q.1 (u_brk s) (u_grants s)) ∧
    Q = (if p.2 =? n then [] else [(p.1, p.2 - n)]) ∧
    chain m (r0 ++ q :: Q ++ r2) base ∧ hsize m (bend p - 16 * n) = n ∧
    ∀ a, a < q.1 ∨ q.1 + 16 ≤ a → a < p.1 ∨ bend p ≤ a → m a = u_mem s a.
Proof.
  intros C P S0 Hb Hn. apply chain_app in C as [C1 (Cq1 & Cq2 & Cp1 & Cp2 & C2)]. apply pw_app in P as (P1 & (P2 & P3 & P4) & P5).
  destruct (P2 p ltac:(by left)) as [Pqp _]. destruct (S0 p) as [Sp1 Sp2]; [apply elem_of_app; right; right; by left|].
  destruct (S0 q) as [Sq1 Sq2]; [apply elem_of_app; right; by left|].
  assert (Hx : 0 ≤ nextp r2 base < 2 ^ 28).
  { destruct r2 as [|w r2]; simpl; [lia|]. apply (S0 w), elem_of_app. right. right. right. by left. }
  unfold take_fit, hplus, sizeof_Header. rewrite Cp1. destruct (Z.eqb_spec p.2 n) as [E|E].
  - exists (set_hptr q.1 (hptr (u_mem s) p.1) (u_mem s)), []. split; [unfold bend; rewrite E; f_equal; lia|].
    split; [done|]. rewrite Cp2. split; [|split].
    + apply chain_app. split; [|split; [|split]].
      * eapply chain_only; [apply only_set_hptr | | exact C1]. intros y Hy. destruct (P5 y q Hy ltac:(by left)). unfold sep. lia.
      * simpl. by rewrite hsize_set_hptr by tauto.
      * simpl. by rewrite hptr_set by lia.
      * eapply chain_only; [apply only_set_hptr | | exact C2]. intros y Hy. destruct (P2 y ltac:(by right)). unfold sep. lia.
    + replace (bend p - 16 * n) with p.1 by (unfold bend; lia). rewrite hsize_set_hptr by (unfold sep; lia). lia.
    + intros a H1 H2. by apply only_set_hptr.
  - rewrite hsize_set by lia. set (m0 := set_hsize p.1 (p.2 - n) (u_mem s)). set (b := p.1 + 16 * (p.2 - n)).
    assert (Eb : bend p - 16 * n = b) by (unfold bend, b; lia). rewrite Eb.
    exists (set_hsize b n m0), [(p.1, p.2 - n)]. split; [f_equal; lia|]. split; [done|].
    assert (Hsep : ∀ y, y ∈ r0 ++ [q] → sep y.1 p.1 ∧ sep y.1 b).
    { intros y [Hy|Hy]%elem_of_app; [destruct (P5 y p Hy ltac:(right; by left)) | apply list_elem_of_singleton in Hy as ->]; unfold sep, b; lia. }
    assert (Hsep2 : ∀ y, y ∈ r2 → sep y.1 p.1 ∧ sep y.1 b).
    { intros y Hy. destruct (P3 y Hy). unfold sep, bend, b in *. lia. }
    split; [|split].
    + apply chain_app. split; [|split; [|split; [|split; [|split]]]].
      * eapply chain_only; [apply only_set_hsize | | eapply chain_only; [apply only_set_hsize | | exact C1]];
          intros y Hy; apply Hsep, elem_of_app; by left.
      * destruct (Hsep q) as [? ?]; [apply elem_of_app; right; by left|]. unfold m0. by rewrite !hsize_set_hsize.
      * destruct (Hsep q) as [? ?]; [apply elem_of_app; right; by left|]. unfold m0. by rewrite !hptr_set_hsize by tauto.
      * simpl. unfold m0. rewrite hsize_set_hsize by (unfold sep, b; lia). apply hsize_set. lia.
      * simpl. unfold m0. by rewrite !hptr_set_hsize by (unfold sep, b; lia).
      * eapply chain_only; [apply only_set_hsize | | eapply chain_only; [apply only_set_hsize | | exact C2]]; intros y Hy; by apply Hsep2.
    + apply hsize_set. lia.
    + intros a H1 H2. unfold bend in H2. rewrite only_set_hsize by (unfold b; lia). apply only_set_hsize. lia.
Qed.

(** The ring without the part that was taken. *)
Lemma taken_blocks r0 q p r2 n Q : pw before (r0 ++ q :: p :: r2) → 0 < n ≤ p.2 → (∀ y, y ∈ r0 ++ q :: p :: r2 → 0 ≤ y.2) →
  Q = (if p.2 =? n then [] else [(p.1, p.2 - n)]) →
  pw before (r0 ++ q :: Q ++ r2) ∧ (∀ z, z ∈ r0 ++ q :: Q ++ r2 → apart z (bend p - 16 * n, n)) ∧
  units (r0 ++ q :: Q ++ r2) + n = units (r0 ++ q :: p :: r2) ∧
  ∀ z, z ∈ r0 ++ q :: Q ++ r2 → z ∈ r0 ++ q :: p :: r2 ∨ z.1 = p.1 ∧ z.2 = p.2 - n ∧ 0 < snd z.
Proof.
  assert (E1 : ∀ l, r0 ++ q :: l = (r0 ++ [q]) ++ l) by (intros l; by rewrite <- (assoc_L app)).
  rewrite (E1 (p :: r2)), (E1 (Q ++ r2)). set (r := r0 ++ [q]). clearbody r. clear E1. intros P Hn H0 EQ. apply pw_app in P as (P1 & (P2 & P3) & P4).
  assert (HQ : ∀ z, z ∈ Q → z.1 = p.1 ∧ z.2 = p.2 - n ∧ 0 < z.2).
  { rewrite EQ. destruct (Z.eqb_spec p.2 n); intros z Hz; [by apply elem_of_nil in Hz|]. apply list_elem_of_singleton in Hz as ->. simpl. lia. }
  assert (UQ : units Q + n = p.2) by (rewrite EQ; destruct (Z.eqb_spec p.2 n); unfold units; simpl; lia).
  split; [|split; [|split]].
  - apply pw_app. split; [done|]. split.
    + apply pw_app. split; [rewrite EQ; destruct (_ =? _); simpl; [done|]; split; [by intros y ?%elem_of_nil | done]|].
      split; [done|]. intros x y Hx Hy. destruct (HQ x Hx) as (E1 & E2 & E3). destruct (P2 y Hy). unfold before, bend in *. lia.
    + intros x y Hx [Hy|Hy]%elem_of_app; [|apply P4; [done | by right]].
      destruct (HQ y Hy) as (E1 & _). destruct (P4 x p Hx ltac:(by left)). unfold before in *. lia.
  - intros z [Hz|Hz]%elem_of_app.
    + left. destruct (P4 z p Hz ltac:(by left)). unfold bend in *. simpl. lia.
    + apply elem_of_app in Hz as [Hz|Hz]; [left; destruct (HQ z Hz) as (E1 & E2 & E3) | right; destruct (P2 z Hz)];
        unfold bend in *; simpl; lia.
  - rewrite !units_app, (units_cons p). lia.
  - intros z [Hz|Hz]%elem_of_app; [left; apply elem_of_app; by left|].
    apply elem_of_app in Hz as [Hz|Hz]; [right; by apply HQ | left; apply elem_of_app; right; by right].
Qed.

Lemma take_heap s L A n r0 q p r2 : heap s L A → (base, 0) :: L = r0 ++ q :: p :: r2 → 0 < n ≤ p.2 →
  ∃ s' L', take_fit n q.1 p.1 s = (bend p - 16 * n + 16, s') ∧ heap s' L' ((bend p - 16 * n, n) :: A) ∧
    u_brk s' = u_brk s ∧ u_grants s' = u_grants s ∧ ∀ y a, y ∈ A → y.1 ≤ a < bend y → u_mem s' a = u_mem s a.
Proof.
  intros H ER Hn. pose proof (hp_bounds _ _ _ H) as B. pose proof (hp_ring _ _ _ H) as C. pose proof (ring_order _ _ _ H) as P.
  rewrite ER in C, P.
  assert (Hin : ∀ y, y ∈ r0 ++ q :: p :: r2 → y = (base, 0) ∨ y ∈ L) by (intros y; rewrite <- ER; apply elem_of_cons).
  assert (Hq : q = (base, 0) ∨ q ∈ L) by (apply Hin, elem_of_app; right; by left).
  assert (Hp : p ∈ L).
  { destruct (Hin p) as [Ep|]; [apply elem_of_app; right; right; by left | | done]. rewrite Ep in Hn. simpl in Hn. lia. }
  destruct (hp_range _ _ _ H p) as (Rp1 & Rp2 & Rp3); [apply elem_of_app; by left|].
  destruct (take_fit_run s n q p r2 r0 C P) as (m & Q & E & EQ & C' & Hs & M); [|unfold sbrk_max, PHYSTOP, KERNBASE in B; lia | done|].
  { intros y Hy. apply (ring_block _ _ _ y H). destruct (Hin y Hy); [by left | right; apply elem_of_app; by left]. }
  assert (HL' : ∃ L', (base, 0) :: L' = r0 ++ q :: Q ++ r2) by (destruct r0; simpl in *; injection ER as <- _; by eexists).
  destruct HL' as (L' & EL'). rewrite <- EL' in C'.
  destruct (taken_blocks r0 q p r2 n Q P Hn) as (T1 & T2 & T3 & T4); [|done|].
  { intros y Hy. destruct (Hin y Hy) as [->|Hy']; [done|]. destruct (hp_range _ _ _ H y); [apply elem_of_app; by left | lia]. }
  rewrite <- EL' in T1, T2, T3, T4. rewrite <- ER in T3, T4.
  assert (Hz' : ∀ z, z ∈ L' → z ∈ L ∨ z.1 = p.1 ∧ z.2 = p.2 - n ∧ 0 < z.2).
  { intros z Hz. destruct (T4 z ltac:(by right)) as [Hz'|]; [|by right]. apply elem_of_cons in Hz' as [->|]; [|by left].
    destruct T1 as [T1 _]. destruct (T1 _ Hz). simpl in *. lia. }
  assert (Hmem : ∀ y a, y ∈ A → y.1 ≤ a < bend y → m a = u_mem s a).
  { intros y a Hy Ha. pose proof (node_away s L A q y H Hq Hy). pose proof (hp_apart _ _ _ H p y Hp Hy) as Hap. unfold apart in Hap.
    apply M; lia. }
  eexists _, L'. split; [exact E|]. split; [|done]. split; simpl; try done.
  - change (q.1 ∈ ((base, 0) :: L').*1). rewrite EL', fmap_app, elem_of_app. right. by left.
  - apply T1.
  - split; [|apply H]. intros y Hy. pose proof (hp_apart _ _ _ H p y Hp Hy) as Hap. unfold apart, bend in *. simpl. lia.
  - intros z y Hz [->|Hy]%elem_of_cons; [apply T2; by right|]. destruct (Hz' z Hz) as [?|(E1 & E2 & E3)]; [by apply (hp_apart _ _ _ H)|].
    pose proof (hp_apart _ _ _ H p y Hp Hy) as Hap. unfold apart, bend in *. lia.
  - intros y [->|Hy]%elem_of_cons; [done|]. rewrite <- (hp_size _ _ _ H y) by done. apply load_le_ext. intros b Hb. apply (Hmem y); [done|].
    destruct (hp_range _ _ _ H y) as (_ & _ & Uy); [apply elem_of_app; by right|]. unfold bend. lia.
  - intros z [Hz|Hz]%elem_of_app.
    + destruct (Hz' z Hz) as [?|(E1 & E2 & E3)]; [apply (hp_range _ _ _ H), elem_of_app; by left|]. unfold bend in *. lia.
    + apply elem_of_cons in Hz as [->|Hz]; [unfold bend in *; simpl; lia | apply (hp_range _ _ _ H), elem_of_app; by right].
  - rewrite !units_cons in *. simpl in *. pose proof (hp_total _ _ _ H). lia.
Qed.

(** ** More memory *)

Lemma grown_heap s L A nu gs : heap s L A → 0 < nu → u_brk s + 16 * nu ≤ sbrk_max →
  heap (UHeap (set_hsize (u_brk s) nu (u_mem s)) (u_freep s) (u_brk s + 16 * nu) gs) L ((u_brk s, nu) :: A).
Proof.
  intros H Hn Hm. pose proof (hp_bounds _ _ _ H) as B.
  assert (Hr : ∀ y, y ∈ L ++ A → bend y ≤ u_brk s ∧ 0 < y.2) by (intros y Hy; by destruct (hp_range _ _ _ H y Hy) as (_ & ? & ?)).
  assert (Hs : ∀ y, y = (base, 0) ∨ y ∈ L ++ A → sep y.1 (u_brk s)).
  { intros y [->|Hy]; unfold sep; simpl; [lia|]. destruct (Hr y Hy). unfold bend in *. lia. }
  split; simpl; try apply H; try done.
  - destruct (hp_ring _ _ _ H) as (C1 & C2 & C3). simpl in C1, C2. pose proof (Hs (base, 0) (or_introl eq_refl)) as Sb. simpl in Sb.
    rewrite hsize_set_hsize by done. rewrite hptr_set_hsize by by right. split; [done|]. split; [done|].
    eapply chain_only; [apply only_set_hsize | | exact C3]. intros y Hy. apply Hs. right. apply elem_of_app. by left.
  - split; [|apply H]. intros y Hy. right. apply Hr, elem_of_app. by right.
  - intros z y Hz [->|Hy]%elem_of_cons; [left; simpl; apply Hr, elem_of_app; by left | by apply (hp_apart _ _ _ H)].
  - intros y [->|Hy]%elem_of_cons; simpl.
    + apply hsize_set. unfold sbrk_max, PHYSTOP, KERNBASE in *. lia.
    + rewrite hsize_set_hsize by (apply Hs; right; apply elem_of_app; by right). by apply (hp_size _ _ _ H).
  - intros y [Hy|Hy]%elem_of_app.
    + destruct (hp_range _ _ _ H y) as (? & ? & ?); [apply elem_of_app; by left|]. lia.
    + apply elem_of_cons in Hy as [->|Hy]; [unfold bend; simpl; lia|].
      destruct (hp_range _ _ _ H y) as (? & ? & ?); [apply elem_of_app; by right|]. lia.
  - lia.
  - pose proof (hp_total _ _ _ H) as T. unfold units in *. simpl in *. lia.
Qed.

Lemma refused_heap s L A gs : heap s L A → heap (UHeap (u_mem s) (u_freep s) (u_brk s) gs) L A.
Proof. by intros []. Qed.

Lemma freep_pos s L A : heap s L A → u_freep s ≠ 0.
Proof.
  intros H. pose proof (hp_bounds _ _ _ H) as B. pose proof (hp_freep _ _ _ H) as Hf. apply elem_of_cons in Hf as [->|Hf]; [lia|].
  apply list_elem_of_fmap in Hf as (y & -> & Hy). destruct (hp_range _ _ _ H y) as (? & _); [apply elem_of_app; by left | lia].
Qed.

Lemma morecore_spec fuel s L A n : heap s L A → 0 < n → 16 * n < 2 ^ 31 → (2 * length L + 3 <= fuel)%nat →
  ∃ r s', morecore fuel n s = Some (r, s') ∧ (∀ y a, y ∈ A → y.1 ≤ a < bend y → u_mem s' a = u_mem s a) ∧
    (r = 0 ∧ heap s' L A ∨
     r ≠ 0 ∧ r = u_freep s' ∧ ∃ L' z, heap s' L' A ∧ z ∈ L' ∧ n ≤ snd z ∧ (length L' <= length L + 1)%nat).
Proof.
  intros H Hn Hb Hf. unfold morecore. set (nu := if n <? 4096 then 4096 else n).
  assert (Hnu : n ≤ nu ∧ 16 * nu < 2 ^ 31) by (unfold nu; destruct (Z.ltb_spec n 4096); lia).
  unfold sbrk, sizeof_Header. rewrite (Z.mul_comm nu), i32_small by lia. pose proof (hp_bounds _ _ _ H) as B.
  assert (Hno : ∀ gs, ∃ r s', Some (0, UHeap (u_mem s) (u_freep s) (u_brk s) gs) = Some (r, s') ∧
    (∀ y a, y ∈ A → y.1 ≤ a < bend y → u_mem s' a = u_mem s a) ∧ (r = 0 ∧ heap s' L A ∨
     r ≠ 0 ∧ r = u_freep s' ∧ ∃ L' z, heap s' L' A ∧ z ∈ L' ∧ n ≤ snd z ∧ (length L' <= length L + 1)%nat)).
  { intros gs. eexists _, _. split; [reflexivity|]. split; [done|]. left. split; [done|]. by apply refused_heap. }
  destruct (u_grants s) as [|[|] gs]; [apply Hno| |apply Hno].
  destruct (Z.leb_spec (u_brk s + 16 * nu) sbrk_max) as [Hok|]; [|apply Hno].
  rewrite (proj2 (Z.eqb_neq (u_brk s) (-1))) by lia. cbn [u_mem set_umem u_freep u_brk u_grants].
  pose proof (grown_heap s L A nu gs H ltac:(lia) Hok) as G. unfold hplus, sizeof_Header. rewrite Z.mul_1_r.
  destruct (free_spec fuel _ L (u_brk s, nu) A G Hf) as (s' & L' & E & H' & _ & _ & M & (z & Hz & Hnz) & HL'). cbn [fst snd] in E, Hnz.
  unfold set_umem. cbn [u_mem u_freep u_brk u_grants]. rewrite E. cbn [mbind option_bind]. eexists _, _. split; [reflexivity|]. split.
  - intros y a Hy Ha. rewrite (M y a Hy Ha). apply only_set_hsize.
    destruct (hp_range _ _ _ H y) as (_ & ? & _); [apply elem_of_app; by right|]. lia.
  - right. split; [by eapply freep_pos|]. split; [done|]. exists L', z. split; [done|]. split; [done|]. split; [lia | done].
Qed.

(** ** [malloc] *)

Lemma malloc_loop_spec fuel s L A n : heap s L A → 0 < n → 16 * n < 2 ^ 31 → (4 * length L + 10 <= fuel)%nat →
  ∃ r s', malloc_loop fuel n (u_freep s) (hptr (u_mem s) (u_freep s)) s = Some (r, s') ∧
    (∀ y a, y ∈ A → y.1 ≤ a < bend y → u_mem s' a = u_mem s a) ∧
    (r = 0 ∧ (∃ L', heap s' L' A) ∨ r ≠ 0 ∧ ∃ L', heap s' L' ((r - 16, n) :: A)).
Proof.
  intros H Hn Hb Hf.
  assert (Take : ∀ s1 L1 r0 q p r2, heap s1 L1 A → (base, 0) :: L1 = r0 ++ q :: p :: r2 → n ≤ snd p →
    ∃ r s', Some (take_fit n q.1 p.1 s1) = Some (r, s') ∧ (∀ y a, y ∈ A → y.1 ≤ a < bend y → u_mem s' a = u_mem s1 a) ∧
      (r = 0 ∧ (∃ L', heap s' L' A) ∨ r ≠ 0 ∧ ∃ L', heap s' L' ((r - 16, n) :: A))).
  { intros s1 L1 r0 q p r2 H1 ER Hp. destruct (take_heap s1 L1 A n r0 q p r2 H1 ER ltac:(lia)) as (s' & L' & -> & H' & _ & _ & M).
    eexists _, _. split; [reflexivity|]. split; [done|]. right. destruct (hp_range _ _ _ H' (bend p - 16 * n, n)) as (? & _).
    { apply elem_of_app. right. by left. }
    pose proof (hp_bounds _ _ _ H'). simpl in *. split; [lia|]. exists L'. by replace (bend p - 16 * n + 16 - 16) with (bend p - 16 * n) by lia. }
  destruct (ring_search s L A n H Hn) as [(r0 & q & p & r2 & used & ER & Hp & Hu & E)|(Hs & used & prev & Hu & E)].
  { replace fuel with (used + S (fuel - used - 1))%nat by lia. rewrite E. by eapply Take. }
  replace fuel with (used + S (fuel - used - 1))%nat by lia. rewrite E. set (f := (fuel - used - 1)%nat). cbn [malloc_loop].
  assert (Hfs : hsize (u_mem s) (u_freep s) < n).
  { pose proof (hp_freep _ _ _ H) as Hfp. change (u_freep s ∈ ((base, 0) :: L).*1) in Hfp.
    apply list_elem_of_fmap in Hfp as (g & -> & Hg). pose proof (hp_ring _ _ _ H) as C.
    assert (Eg : hsize (u_mem s) g.1 = g.2).
    { apply list_elem_of_split in Hg as (k1 & k2 & ER). rewrite ER in C. by apply chain_app in C as [_ [C _]]. }
    rewrite Eg. apply elem_of_cons in Hg as [->|Hg]; [simpl; lia | by apply Hs]. }
  rewrite (proj2 (Z.leb_gt n _)) by done. rewrite Z.eqb_refl.
  destruct (morecore_spec (S f) s L A n H Hn Hb ltac:(lia)) as (r & s' & -> & M & [[-> H']|(Hr & -> & L' & z & H' & Hz & Hnz & HL)]); cbn [mbind option_bind].
  - eexists _, _. split; [reflexivity|]. split; [done|]. left. split; [done|]. by exists L.
  - rewrite (proj2 (Z.eqb_neq _ 0)) by done.
    destruct (ring_search s' L' A n H' Hn) as [(r0 & q & p & r2 & used' & ER & Hp & Hu' & E')|(Hs' & _)]; [|specialize (Hs' z Hz); lia].
    replace f with (used' + S (f - used' - 1))%nat by lia. rewrite E'.
    destruct (Take s' L' r0 q p r2 H' ER Hp) as (r & s2 & Er & M2 & D). exists r, s2. split; [done|]. split; [|done].
    intros y a Hy Ha. rewrite (M2 y a Hy Ha). by apply (M y).
Qed.

(** ** The allocator and its client *)

(** Every free block has at least 16 bytes of at most [sbrk_max]. *)
Lemma ring_short s L A : heap s L A → Z.of_nat (length L) ≤ 2 ^ 23.
Proof.
  intros H. pose proof (hp_total _ _ _ H) as T. pose proof (hp_bounds _ _ _ H) as B.
  assert (Hu : ∀ l, (∀ x, x ∈ l → 0 < snd x) → Z.of_nat (length l) ≤ units l).
  { induction l as [|x l IH]; intros Hl; [done|]. rewrite units_cons. simpl length. specialize (IH (λ y Hy, Hl y ltac:(by right))).
    specialize (Hl x ltac:(by left)). lia. }
  assert (HA : 0 ≤ units A).
  { transitivity (Z.of_nat (length A)); [lia|]. apply Hu. intros x Hx. apply (hp_range _ _ _ H), elem_of_app. by right. }
  transitivity (units L); [|unfold sbrk_max, PHYSTOP, KERNBASE in B; lia].
  apply Hu. intros x Hx. apply (hp_range _ _ _ H), elem_of_app. by left.
Qed.

Lemma apart_sym x y : apart x y → apart y x.
Proof. unfold apart. tauto. Qed.

Lemma pw_perm R l1 x l2 : (∀ a b, R a b → R b a) → pw R (l1 ++ x :: l2) → pw R (x :: l1 ++ l2).
Proof.
  intros HR (P1 & (P2 & P3) & P4)%pw_app. split.
  - intros y [Hy|Hy]%elem_of_app; [apply HR, P4; [done | by left] | by apply P2].
  - apply pw_app. repeat split; try done. intros a b Ha Hb. apply P4; [done | by right].
Qed.

(** The order of the blocks in use says nothing. *)
Lemma heap_pick s L A1 x A2 : heap s L (A1 ++ x :: A2) → heap s L (x :: A1 ++ A2).
Proof.
  assert (E : ∀ y : blk, y ∈ x :: A1 ++ A2 ↔ y ∈ A1 ++ x :: A2).
  { intros y. rewrite elem_of_cons, !elem_of_app, elem_of_cons. tauto. }
  intros [H1 H2 H3 H4 H5 H6 H7 H8 H9]. split; try done.
  - by apply pw_perm; [apply apart_sym|].
  - intros a b Ha Hb. apply H5; [done | by apply E].
  - intros a Ha. by apply H6, E.
  - intros a Ha. apply H7. apply elem_of_app. apply elem_of_app in Ha as [Ha|Ha]; [by left | right; by apply E].
  - rewrite units_cons, units_app. rewrite units_app, units_cons in H9. lia.
Qed.

(** The client writes inside a block of its own. *)
Lemma write_heap s L A1 x A2 a v : heap s L (A1 ++ x :: A2) → x.1 + 16 ≤ a < bend x →
  heap (set_umem (upd (u_mem s) a v) s) L (A1 ++ x :: A2).
Proof.
  intros H Ha. pose proof (heap_pick _ _ _ _ _ H) as Hk. pose proof (hp_bounds _ _ _ H) as B.
  assert (Hx : brk0 ≤ x.1) by (apply (hp_range _ _ _ Hk), elem_of_app; right; by left).
  assert (Hs : ∀ y, y = (base, 0) ∨ y ∈ L ∨ y ∈ A1 ++ x :: A2 →
    hptr (upd (u_mem s) a v) y.1 = hptr (u_mem s) y.1 ∧ hsize (upd (u_mem s) a v) y.1 = hsize (u_mem s) y.1).
  { intros y Hy. assert (Ho : a < y.1 ∨ y.1 + 16 ≤ a).
    { destruct Hy as [->|[Hy|Hy]]; [simpl; lia| |].
      - pose proof (hp_apart _ _ _ Hk y x Hy ltac:(by left)) as Q. destruct (hp_range _ _ _ Hk y) as (_ & _ & ?); [apply elem_of_app; by left|].
        unfold apart, bend in *. lia.
      - destruct (hp_range _ _ _ H y) as (_ & _ & ?); [apply elem_of_app; by right|].
        apply elem_of_app in Hy as [Hy|[->|Hy]%elem_of_cons]; [| lia |].
        all: destruct (hp_used _ _ _ Hk) as [Q _]; specialize (Q y ltac:(apply elem_of_app; tauto)); unfold apart, bend in *; lia. }
    split; apply load_le_ext; intros b Hb; apply upd_ne; lia. }
  destruct H as [H1 H2 H3 H4 H5 H6 H7 H8 H9]. split; try done.
  - eapply ring_ext; [|exact H1]. intros y Hy. apply Hs. apply elem_of_cons in Hy. tauto.
  - intros y Hy. rewrite <- (H6 y Hy). apply (Hs y). tauto.
Qed.

(** Nothing was asked for yet, or the list is there. *)
Definition sound (s : uheap) (A : list blk) : Prop :=
  u_freep s = 0 ∧ A = [] ∧ 0 < base ∧ base + 16 ≤ u_brk s ∧ u_brk s = brk0 ∧ brk0 ≤ sbrk_max ∨ ∃ L, heap s L A.

Lemma init_heap s : 0 < base → base + 16 ≤ u_brk s → u_brk s = brk0 → brk0 ≤ sbrk_max → heap (init_list base s) [] [].
Proof.
  intros H1 H2 H3 H4. assert (Hb : base < 2 ^ 64) by (unfold sbrk_max, PHYSTOP, KERNBASE in H4; lia).
  split; simpl; try done; try lia.
  - split; [by apply hsize_set|]. split; [|done]. rewrite hptr_set_hsize by by left. apply hptr_set. lia.
  - by left.
  - by intros x y ?%elem_of_nil.
  - by intros x ?%elem_of_nil.
  - by intros x ?%elem_of_nil.
Qed.

Lemma malloc_spec fuel s A nbytes : sound s A → 0 ≤ nbytes < 2 ^ 31 - 32 → (Z.to_nat (2 ^ 26) <= fuel)%nat →
  ∃ r s', malloc base fuel nbytes s = Some (r, s') ∧ (∀ y a, y ∈ A → y.1 ≤ a < bend y → u_mem s' a = u_mem s a) ∧
    (r = 0 ∧ sound s' A ∨ r ≠ 0 ∧ sound s' ((r - 16, nunits_of nbytes) :: A)) ∧ nbytes ≤ 16 * nunits_of nbytes - 16.
Proof.
  intros Hs Hn Hf. unfold malloc. rewrite (u32_small nbytes) by lia.
  assert (Hu : 0 < nunits_of nbytes ∧ 16 * nunits_of nbytes < 2 ^ 31 ∧ nbytes ≤ 16 * nunits_of nbytes - 16).
  { unfold nunits_of, sizeof_Header. pose proof (Z.div_mod (nbytes + 16 - 1) 16 ltac:(lia)). pose proof (Z.mod_pos_bound (nbytes + 16 - 1) 16 ltac:(lia)).
    rewrite u32_small by lia. lia. }
  destruct Hu as (Hu1 & Hu2 & Hu3).
  assert (Hl : ∃ L, heap (if u_freep s =? 0 then init_list base s else s) L A ∧
    ∀ y a, y ∈ A → y.1 ≤ a < bend y → u_mem (if u_freep s =? 0 then init_list base s else s) a = u_mem s a).
  { destruct Hs as [(-> & -> & ? & ? & ? & ?)|[L H]].
    - exists []. split; [by apply init_heap|]. by intros y a ?%elem_of_nil.
    - exists L. rewrite (proj2 (Z.eqb_neq _ 0)) by by eapply freep_pos. done. }
  destruct Hl as (L & H & M0). pose proof (ring_short _ _ _ H).
  destruct (malloc_loop_spec fuel _ L A (nunits_of nbytes) H Hu1 Hu2 ltac:(lia)) as (r & s' & E & M & D).
  exists r, s'. split; [exact E|]. split; [intros y a Hy Ha; rewrite (M y a Hy Ha); by apply (M0 y)|].
  split; [|done]. unfold sound. tauto.
Qed.
End Heap.

(** A program that uses the allocator and writes only in its own blocks; the list is the
    blocks it holds. *)
Inductive ustep (base : Z) (fuel : nat) : uheap * list blk → uheap * list blk → Prop :=
  | us_malloc s A nbytes r s' : 0 ≤ nbytes < 2 ^ 31 - 32 → malloc base fuel nbytes s = Some (r, s') →
      ustep base fuel (s, A) (s', if r =? 0 then A else (r - 16, nunits_of nbytes) :: A)
  | us_free s A1 x A2 s' : free fuel (x.1 + 16) s = Some s' → ustep base fuel (s, A1 ++ x :: A2) (s', A1 ++ A2)
  | us_write s A1 x A2 a v : x.1 + 16 ≤ a < bend x →
      ustep base fuel (s, A1 ++ x :: A2) (set_umem (upd (u_mem s) a v) s, A1 ++ x :: A2).

Lemma sound_free base brk0 fuel s A1 x A2 : sound base brk0 s (A1 ++ x :: A2) → (Z.to_nat (2 ^ 26) <= fuel)%nat →
  ∃ s', free fuel (x.1 + 16) s = Some s' ∧ sound base brk0 s' (A1 ++ A2) ∧
    ∀ y a, y ∈ A1 ++ A2 → y.1 ≤ a < bend y → u_mem s' a = u_mem s a.
Proof.
  intros [(_ & E & _)|[L H]] Hf; [by destruct A1|]. pose proof (ring_short _ _ _ _ _ H).
  destruct (free_spec base brk0 fuel s L x (A1 ++ A2)) as (s' & L' & E & H' & _ & _ & M & _); [by apply heap_pick | lia|].
  exists s'. split; [done|]. split; [right; by exists L' | done].
Qed.

Lemma ustep_sound base brk0 fuel c d : (Z.to_nat (2 ^ 26) <= fuel)%nat → ustep base fuel c d →
  sound base brk0 c.1 c.2 → sound base brk0 d.1 d.2.
Proof.
  intros Hf [s A nbytes r s' Hn E|s A1 x A2 s' E|s A1 x A2 a v Ha] H; cbn [fst snd] in *.
  - destruct (malloc_spec _ _ fuel s A nbytes H Hn Hf) as (r' & s2 & E' & _ & D & _). rewrite E' in E. injection E as -> ->.
    destruct D as [[-> D]|[Hr D]]; [done|]. by rewrite (proj2 (Z.eqb_neq r 0)).
  - destruct (sound_free _ _ _ _ _ _ _ H Hf) as (s2 & E' & D & _). rewrite E' in E. by injection E as ->.
  - destruct H as [(_ & E & _)|[L H]]; [by destruct A1|]. right. exists L. by apply write_heap.
Qed.

Lemma reach_sound base brk0 fuel c d : (Z.to_nat (2 ^ 26) <= fuel)%nat → rtc (ustep base fuel) c d →
  sound base brk0 c.1 c.2 → sound base brk0 d.1 d.2.
Proof. intros Hf. induction 1 as [|c c1 d Hs _ IH]; [done|]. intros H. apply IH. by eapply ustep_sound. Qed.

(** The facts of [sound] a client sees. *)
Lemma sound_blocks base brk0 s A : sound base brk0 s A →
  pw apart A ∧ (∀ x, x ∈ A → brk0 ≤ fst x ∧ bend x ≤ u_brk s) ∧ brk0 ≤ u_brk s ≤ sbrk_max ∧
  ∃ L, pw before L ∧ (u_freep s ≠ 0 → chain (u_mem s) ((base, 0) :: L) base) ∧ 16 * (units L + units A) = u_brk s - brk0.
Proof.
  intros [(E & -> & B1 & B2 & <- & B4)|[L H]].
  - split; [done|]. split; [by intros x ?%elem_of_nil|]. split; [lia|]. exists []. split; [done|]. split; [done|]. unfold units. simpl. lia.
  - split; [apply H|]. split.
    { intros x Hx. destruct (hp_range _ _ _ _ _ H x) as (? & ? & _); [apply elem_of_app; by right|]. done. }
    split; [apply H|]. exists L. split; [apply H|]. split; [intros _|]; apply H.
Qed.


Definition heap0 : uheap := UHeap (λ _, 0) 0 8192 [true].


(** [malloc] of nearly 4 GB succeeds with 16 bytes: the number of bytes [morecore] asks
    for becomes an [int] on its way to [sbrk]. *)
Example malloc_huge :
  match malloc 4096 10 (2 ^ 32 - 1) heap0 with
  | Some (r, s) => r = u_brk heap0 + 16 ∧ u_brk s = u_brk heap0 + 16
  | None => False
  end.
Proof. vm_compute. by split. Qed.
