(* ===== verification/Sh.v ===== *)
(** * The shell (user/sh.c)

    A command line in memory is parsed into a tree of commands whose words are
    addresses in the line, [nulterminate] cuts the line into strings, and [runcmd] turns
    the tree into system calls.  A tree is an inductive value: the only command the
    parser changes after it built it is the [execcmd] at the bottom of the
    redirections around it, which [add_arg] reaches.  [malloc] is taken to succeed. *)

From stdpp Require Import base numbers list strings.
From S2P Require Import Prelude Ulib.
Local Open Scope Z_scope.

(** ** Commands *)

(** Words are the addresses of their first byte and of the byte after the last. *)
Inductive cmd : Type :=
  | EXEC (argv : list (Z * Z))
  | REDIR (c : cmd) (file efile mode fd : Z)
  | PIPE (left right : cmd)
  | LIST (left right : cmd)
  | BACK (c : cmd).

Definition MAXARGS : Z := 10.
Definition O_RDONLY : Z := 0x000.
Definition O_WRONLY : Z := 0x001.
Definition O_RDWR : Z := 0x002.
Definition O_CREATE : Z := 0x200.
Definition O_TRUNC : Z := 0x400.

(** Blank, tab, carriage return, newline, vertical tab; [<|>&;()]. *)
Definition whitespace : list Z := [32; 9; 13; 10; 11].
Definition symbols : list Z := [60; 124; 62; 38; 59; 40; 41].

(** [strchr] on a constant string, as a truth value. *)
Definition inset (l : list Z) (c : Z) : bool := existsb (Z.eqb c) l.

(** [cmd->argv[argc] = q; cmd->eargv[argc] = eq], where [cmd] is the [execcmd] inside [ret]. *)
Fixpoint add_arg (w : Z * Z) (ret : cmd) : cmd :=
  match ret with
  | EXEC argv => EXEC (argv ++ [w])
  | REDIR c file efile mode fd => REDIR (add_arg w c) file efile mode fd
  | _ => ret
  end.

(** ** Tokens *)

Section Parse.
(** The line in memory, up to [es]. *)
Context (m : Z → Z) (es : Z).

(** The loops stop at [es], so the distance to it bounds them. *)
Fixpoint skip_loop (n : nat) (s : Z) : Z :=
  match n with
  | O => s
  | S n' => if (s <? es) && inset whitespace (m s) then skip_loop n' (s + 1) else s
  end.
Definition skip (s : Z) : Z := skip_loop (Z.to_nat (es - s)) s.

Fixpoint word_loop (n : nat) (s : Z) : Z :=
  match n with
  | O => s
  | S n' => if (s <? es) && negb (inset whitespace (m s)) && negb (inset symbols (m s)) then word_loop n' (s + 1) else s
  end.

(** The token, its first byte and the byte after it. *)
Definition gettoken : M Z (Z * Z * Z) := λ ps,
  let s := skip ps in
  let q := s in
  let c := m s in
  let '(ret, s) :=
    if c =? 0 then (c, s)
    else if inset [124; 40; 41; 59; 38; 60] c then (c, s + 1)
    else if c =? 62 then if m (s + 1) =? 62 then (43, s + 1 + 1) else (c, s + 1)
    else (97, word_loop (Z.to_nat (es - s)) s) in
  let eq := s in
  Ret ((ret, q, eq), skip s).

Definition peek (toks : list Z) : M Z bool := λ ps,
  let s := skip ps in Ret (nonzero (m s) && inset toks (m s), s).

(** ** The parser *)

Definition redir (tok q eq : Z) (c : cmd) : cmd :=
  if tok =? 60 then REDIR c q eq O_RDONLY 0
  else if tok =? 62 then REDIR c q eq (Z.lor (Z.lor O_WRONLY O_CREATE) O_TRUNC) 1
  else if tok =? 43 then REDIR c q eq (Z.lor O_WRONLY O_CREATE) 1
  else c.

Fixpoint parseredirs (fuel : nat) (c : cmd) : M Z cmd :=
  match fuel with
  | O => diverge
  | S f =>
      b ← peek [60; 62];
      if b : bool then
        t ← gettoken;
        w ← gettoken;
        let '(tok, _, _) := t in
        let '(tok', q, eq) := w in
        if tok' =? 97 then parseredirs f (redir tok q eq c)
        else panic "missing file for redirection"
      else mret c
  end.

Fixpoint args_loop (fuel : nat) (argc : Z) (ret : cmd) : M Z cmd :=
  match fuel with
  | O => diverge
  | S f =>
      b ← peek [124; 41; 38; 59];
      if b : bool then mret ret
      else
        w ← gettoken;
        let '(tok, q, eq) := w in
        if tok =? 0 then mret ret
        else if tok =? 97 then
          let ret := add_arg (q, eq) ret in
          let argc := argc + 1 in
          if MAXARGS <=? argc then panic "too many args"
          else ret ← parseredirs f ret; args_loop f argc ret
        else panic "syntax"
  end.

Fixpoint back_loop (fuel : nat) (c : cmd) : M Z cmd :=
  match fuel with
  | O => diverge
  | S f => b ← peek [38]; if b : bool then gettoken;; back_loop f (BACK c) else mret c
  end.

Fixpoint parseline (fuel : nat) : M Z cmd :=
  match fuel with
  | O => diverge
  | S f =>
      c ← parsepipe f;
      c ← back_loop f c;
      b ← peek [59];
      if b : bool then gettoken;; r ← parseline f; mret (LIST c r) else mret c
  end
with parsepipe (fuel : nat) : M Z cmd :=
  match fuel with
  | O => diverge
  | S f =>
      c ← parseexec f;
      b ← peek [124];
      if b : bool then gettoken;; r ← parsepipe f; mret (PIPE c r) else mret c
  end
with parseexec (fuel : nat) : M Z cmd :=
  match fuel with
  | O => diverge
  | S f =>
      b ← peek [40];
      if b : bool then parseblock f
      else ret ← parseredirs f (EXEC []); args_loop f 0 ret
  end
with parseblock (fuel : nat) : M Z cmd :=
  match fuel with
  | O => diverge
  | S f =>
      b ← peek [40];
      assert b "parseblock";;
      gettoken;;
      c ← parseline f;
      b ← peek [41];
      assert b "syntax - missing )";;
      gettoken;;
      parseredirs f c
  end.
End Parse.

Fixpoint nulterminate (c : cmd) (m : Z → Z) : Z → Z :=
  match c with
  | EXEC argv => foldl (λ m (w : Z * Z), upd m w.2 0) m argv
  | REDIR c _ efile _ _ => upd (nulterminate c m) efile 0
  | PIPE l r => nulterminate r (nulterminate l m)
  | LIST l r => nulterminate r (nulterminate l m)
  | BACK c => nulterminate c m
  end.

(** What [parsecmd] says of a line that goes on after its command: what it prints of the
    rest and the message of its [panic], after a newline. *)
Definition leftovers : string := "leftovers: %s" +:+ String (Ascii.ascii_of_nat 10) "syntax".

(** The tree and the memory with the strings; or the message of [panic]. *)
Definition parsecmd (fuel : nat) (s : Z) (m : Z → Z) : outcome (cmd * (Z → Z)) :=
  match strlen fuel s m with
  | None => Diverge
  | Some n =>
      let es := s + n in
      match (c ← parseline m es fuel; peek m es [];; mret c) s with
      | Ret (c, s) => if s =? es then Ret (c, nulterminate c m) else Panic leftovers
      | Panic e => Panic e
      | Block e => Block e
      | Diverge => Diverge
      end
  end.

(** ** Running a command *)

(** What a process does: its system calls, with what follows each result.  Pointers are
    into the memory [m]. *)
Inductive prog : Type :=
  | Exit (status : Z)
  | Exec (m : Z → Z) (path : Z) (argv : list Z) (k : prog)
  | Close (fd : Z) (k : prog)
  | Open (m : Z → Z) (file mode : Z) (k : Z → prog)
  | Dup (fd : Z) (k : prog)
  | Pipe (k : option (Z * Z) → prog)
  | Fork (k : Z → prog)
  | Wait (k : prog)
  | Chdir (m : Z → Z) (path : Z) (k : Z → prog)
  | Fprintf (fd : Z) (fmt : string) (k : prog)
  | Stuck.

Definition sh_panic (s : string) : prog := Fprintf 2 s (Exit 1).

Definition fork1 (k : Z → prog) : prog := Fork (λ pid, if pid =? -1 then sh_panic "fork" else k pid).

Fixpoint runcmd (m : Z → Z) (c : cmd) : prog :=
  match c with
  | EXEC [] => Exit 1
  | EXEC ((path, _) :: _ as argv) => Exec m path (map fst argv) (Fprintf 2 "exec %s failed" (Exit 0))
  | REDIR c file _ mode fd =>
      Close fd (Open m file mode (λ r, if r <? 0 then Fprintf 2 "open %s failed" (Exit 1) else runcmd m c))
  | LIST l r => fork1 (λ pid, if pid =? 0 then runcmd m l else Wait (runcmd m r))
  | PIPE l r =>
      Pipe (λ p,
        match p with
        | None => sh_panic "pipe"
        | Some (p0, p1) =>
            fork1 (λ pid,
              if pid =? 0 then Close 1 (Dup p1 (Close p0 (Close p1 (runcmd m l))))
              else
                fork1 (λ pid,
                  if pid =? 0 then Close 0 (Dup p0 (Close p0 (Close p1 (runcmd m r))))
                  else Close p0 (Close p1 (Wait (Wait (Exit 0))))))
        end)
  | BACK c => fork1 (λ pid, if pid =? 0 then runcmd m c else Exit 0)
  end.

(** ** The command loop *)

Definition sizeof_line : Z := 100.

(** The prompt; then [k] gets whether there is a line, what is left of the input, and the
    memory. *)
Definition getcmd (buf nbuf : Z) (inp : list Z) (m : Z → Z) (k : bool → list Z → (Z → Z) → prog) : prog :=
  Fprintf 2 "$ "
    (let m := memset buf 0 nbuf m in
     let '(inp, m) := Ulib.gets buf nbuf inp m in
     k (negb (m buf =? 0)) inp m).

(** One line: [cd] by the shell itself, anything else by a child. *)
Definition run_line (fuel : nat) (buf : Z) (m : Z → Z) (k : (Z → Z) → prog) : prog :=
  if (m buf =? 99) && (m (buf + 1) =? 100) && (m (buf + 2) =? 32) then
    match strlen fuel buf m with
    | None => Stuck
    | Some n =>
        let m := upd m (buf + n - 1) 0 in
        Chdir m (buf + 3) (λ r, if r <? 0 then Fprintf 2 "cannot cd %s" (k m) else k m)
    end
  else
    fork1 (λ pid,
      if pid =? 0 then
        match parsecmd fuel buf m with
        | Ret (c, m) => runcmd m c
        | Panic e => sh_panic e
        | _ => Stuck
        end
      else Wait (k m)).

Fixpoint main_loop (fuel : nat) (buf : Z) (inp : list Z) (m : Z → Z) : prog :=
  match fuel with
  | O => Stuck
  | S f =>
      getcmd buf sizeof_line inp m (λ more inp m, if more then run_line 1000 buf m (main_loop f buf inp) else Exit 0)
  end.

(** Opening the console until three descriptors are open. *)
Fixpoint open_loop (fuel : nat) (console : Z) (m : Z → Z) (k : prog) : prog :=
  match fuel with
  | O => Stuck
  | S f => Open m console O_RDWR (λ fd, if 0 <=? fd then if 3 <=? fd then Close fd k else open_loop f console m k else k)
  end.

Definition main (fuel : nat) (console buf : Z) (inp : list Z) (m : Z → Z) : prog :=
  open_loop fuel console m (main_loop fuel buf inp m).
