(* ===== verification/ShSpec.v ===== *)
(** * The shell: its parser against a grammar, its words, its wiring (user/sh.c)

    A line is a sequence of tokens; the recursive-descent parser returns a tree exactly
    if the grammar derives it from them, and always returns within its fuel.  The
    strings [nulterminate] makes are the words of the line, and the programs a command
    starts have the files and pipes it names on their descriptors. *)

From stdpp Require Import base numbers list strings.
From S2P Require Import Prelude Ulib Sh.
Local Open Scope Z_scope.
Local Arguments inset : simpl never.

(** ** Tokens and grammar *)

(** The kind, the first byte, the byte after. *)
Abbreviation tok := (Z * Z * Z)%type.
Definition kind (t : tok) : Z := t.1.1.
Definition word (t : tok) : Z * Z := (t.1.2, t.2).

(** A byte of a word. *)
Definition wordch (c : Z) : Prop := c ≠ 0 ∧ inset whitespace c = false ∧ inset symbols c = false.

Inductive gredirs : cmd → list tok → cmd → Prop :=
  | gr_nil c : gredirs c [] c
  | gr_cons c t w ts c' : kind t ∈ [60; 62; 43] → kind w = 97 →
      gredirs (redir (kind t) (word w).1 (word w).2 c) ts c' → gredirs c (t :: w :: ts) c'.

(** Words and redirections, after [n] words. *)
Inductive gargs : Z → cmd → list tok → cmd → Prop :=
  | ga_nil n c : gargs n c [] c
  | ga_word n c w ts1 c1 ts2 c2 : kind w = 97 → n + 1 < MAXARGS →
      gredirs (add_arg (word w) c) ts1 c1 → gargs (n + 1) c1 ts2 c2 → gargs n c (w :: ts1 ++ ts2) c2.

Definition amps (l : list tok) : Prop := Forall (λ t, kind t = 38) l.

Inductive symbol : Type := Line | Pipeline | Simple.

Inductive derives : symbol → list tok → cmd → Prop :=
  | d_line ts c l : derives Pipeline ts c → amps l → derives Line (ts ++ l) (Nat.iter (length l) BACK c)
  | d_list ts c l t ts' r : derives Pipeline ts c → amps l → kind t = 59 → derives Line ts' r →
      derives Line (ts ++ l ++ t :: ts') (LIST (Nat.iter (length l) BACK c) r)
  | d_one ts c : derives Simple ts c → derives Pipeline ts c
  | d_pipe ts c t ts' r : derives Simple ts c → kind t = 124 → derives Pipeline ts' r →
      derives Pipeline (ts ++ t :: ts') (PIPE c r)
  | d_block t ts c t' rs c' : kind t = 40 → derives Line ts c → kind t' = 41 → gredirs c rs c' →
      derives Simple (t :: ts ++ t' :: rs) c'
  | d_exec ts c ts' c' : gredirs (EXEC []) ts c → gargs 0 c ts' c' → derives Simple (ts ++ ts') c'.

Section Line.
Context (m : Z → Z) (buf es : Z).
Context (Hz : ∀ a, buf ≤ a < es → m a ≠ 0) (He : m es = 0).

Definition blank (a : Z) : Prop := inset whitespace (m a) = true.

(** [t] is the first token at or after [p]. *)
Definition token (p : Z) (t : tok) : Prop :=
  let '(k, q, e) := t in
  p ≤ q ∧ q < e ∧ e ≤ es ∧ (∀ a, p ≤ a < q → blank a) ∧
  (k ∈ [124; 40; 41; 59; 38; 60] ∧ m q = k ∧ e = q + 1 ∨
   k = 62 ∧ m q = 62 ∧ m (q + 1) ≠ 62 ∧ e = q + 1 ∨
   k = 43 ∧ m q = 62 ∧ m (q + 1) = 62 ∧ e = q + 2 ∨
   k = 97 ∧ (∀ a, q ≤ a < e → wordch (m a)) ∧ ~ wordch (m e)).

(** The tokens from [p] to the end. *)
Inductive reads : Z → list tok → Prop :=
  | rd_end p : buf ≤ p ≤ es → (∀ a, p ≤ a < es → blank a) → reads p []
  | rd_tok p t ts : buf ≤ p → token p t → reads t.2 ts → reads p (t :: ts).

Lemma inset_spec l c : inset l c = true ↔ c ∈ l.
Proof. unfold inset. rewrite existsb_exists. setoid_rewrite Z.eqb_eq. setoid_rewrite <- list_elem_of_In. split; [by intros (x & ? & ->) | intros; by exists c]. Qed.

Lemma skip_loop_spec n p : p + Z.of_nat n = es →
  p ≤ skip_loop m es n p ≤ es ∧ (∀ a, p ≤ a < skip_loop m es n p → blank a) ∧ ~ blank (skip_loop m es n p).
Proof.
  assert (Hb : ~ blank es) by (unfold blank; by rewrite He).
  revert p. induction n as [|n IH]; intros p Hn; simpl.
  - replace p with es by lia. split; [lia|]. split; [intros; exfalso; lia | done].
  - rewrite (proj2 (Z.ltb_lt p es)) by lia. simpl. destruct (inset whitespace (m p)) eqn:E.
    + destruct (IH (p + 1) ltac:(lia)) as (H1 & H2 & H3). split; [lia|]. split; [|done].
      intros a Ha. destruct (decide (a = p)) as [->|]; [done | apply H2; lia].
    + split; [lia|]. split; [intros; exfalso; lia|]. unfold blank. by rewrite E.
Qed.

Lemma skip_spec p : p ≤ es → p ≤ skip m es p ≤ es ∧ (∀ a, p ≤ a < skip m es p → blank a) ∧ ~ blank (skip m es p).
Proof. intros H. apply skip_loop_spec. lia. Qed.

Lemma word_loop_spec n p : buf ≤ p → p + Z.of_nat n = es →
  p ≤ word_loop m es n p ≤ es ∧ (∀ a, p ≤ a < word_loop m es n p → wordch (m a)) ∧ ~ wordch (m (word_loop m es n p)).
Proof.
  assert (Hb : ~ wordch (m es)) by (rewrite He; by intros [? _]).
  revert p. induction n as [|n IH]; intros p Hp Hn; simpl.
  - replace p with es by lia. split; [lia|]. split; [intros; exfalso; lia | done].
  - rewrite (proj2 (Z.ltb_lt p es)) by lia. simpl. destruct (inset whitespace (m p)) eqn:E1; simpl.
    { split; [lia|]. split; [intros; exfalso; lia|]. intros (_ & ? & _). congruence. }
    destruct (inset symbols (m p)) eqn:E2; simpl.
    { split; [lia|]. split; [intros; exfalso; lia|]. intros (_ & _ & ?). congruence. }
    destruct (IH (p + 1) ltac:(lia) ltac:(lia)) as (H1 & H2 & H3). split; [lia|]. split; [|done].
    intros a Ha. destruct (decide (a = p)) as [->|]; [|apply H2; lia]. split; [apply Hz; lia | done].
Qed.

(** A token starts at a byte that is not blank. *)
Lemma token_start p t : token p t → ~ blank t.1.2.
Proof.
  destruct t as [[k q] e]. intros (_ & ? & _ & _ & H). simpl. unfold blank.
  destruct H as [(Hk & -> & _)|[(_ & -> & _)|[(_ & -> & _)|(_ & Hw & _)]]]; [|done|done|].
  - repeat (apply elem_of_cons in Hk as [->|Hk]; [done|]). by apply elem_of_nil in Hk.
  - destruct (Hw q ltac:(lia)) as (_ & -> & _). done.
Qed.

Lemma skip_unique p q : p ≤ q ≤ es → (∀ a, p ≤ a < q → blank a) → ~ blank q → skip m es p = q.
Proof.
  intros Hq Hb Hn. destruct (skip_spec p ltac:(lia)) as (H1 & H2 & H3).
  destruct (Z.lt_trichotomy (skip m es p) q) as [L|[L|L]]; [|done|].
  - destruct H3. apply Hb. lia.
  - destruct Hn. apply H2. lia.
Qed.

Lemma reads_range p ts : reads p ts → buf ≤ p ≤ es.
Proof. intros [|? [[? ?] ?] ? ? T]; [done|]. destruct T as (? & ? & ? & _). lia. Qed.

Definition start_of (ts : list tok) : Z := match ts with [] => es | t :: _ => t.1.2 end.

Lemma skip_reads p ts : reads p ts → skip m es p = start_of ts ∧ reads (start_of ts) ts.
Proof.
  intros H. pose proof (reads_range _ _ H) as R. destruct H as [p Hp Hb|p t ts Hp T H]; simpl.
  - split; [|apply rd_end; [lia | intros; exfalso; lia]]. apply skip_unique; [lia | done|]. unfold blank. by rewrite He.
  - pose proof (token_start _ _ T) as N. destruct t as [[k q] e]. simpl in *. destruct T as (T1 & T2 & T3 & T4 & T5). split.
    + apply skip_unique; [lia | done..].
    + apply rd_tok; [lia | | done]. split; [lia|]. split; [done|]. split; [done|]. split; [intros; exfalso; lia | done].
Qed.

(** What [peek] looks at: [>>] starts like [>]. *)
Definition hd (ts : list tok) : Z := match ts with [] => 0 | t :: _ => if kind t =? 43 then 62 else kind t end.

Lemma peek_run toks p ts : reads p ts → forallb (inset symbols) toks = true →
  ∃ p', peek m es toks p = Ret (inset toks (hd ts), p') ∧ reads p' ts.
Proof.
  intros H Ht. destruct (skip_reads _ _ H) as [E H']. exists (start_of ts). split; [|done]. unfold peek. rewrite E.
  assert (Hs : ∀ c, inset toks c = true → inset symbols c = true).
  { intros c Hc. rewrite forallb_forall in Ht. apply Ht, list_elem_of_In, inset_spec. done. }
  assert (Hn : ∀ c, inset symbols c = false → inset toks c = false).
  { intros c Hc. destruct (inset toks c) eqn:F; [|done]. rewrite Hs in Hc; done. }
  f_equal. f_equal. destruct H as [p Hp Hb|p [[k q] e] ts Hp T H]; cbn [start_of hd kind fst snd].
  - rewrite He. simpl. by rewrite Hn.
  - destruct T as (_ & ? & _ & _ & T). destruct T as [(Hk & -> & _)|[(-> & -> & _)|[(-> & -> & _)|(-> & Hw & _)]]]; [|done|done|].
    + repeat (apply elem_of_cons in Hk as [->|Hk]; [done|]). by apply elem_of_nil in Hk.
    + destruct (Hw q ltac:(lia)) as (_ & _ & W). rewrite (Hn _ W). rewrite andb_false_r. simpl. by rewrite Hn.
Qed.

Lemma word_unique q e : buf ≤ q → q ≤ e ≤ es → (∀ a, q ≤ a < e → wordch (m a)) → ~ wordch (m e) →
  word_loop m es (Z.to_nat (es - q)) q = e.
Proof.
  intros Hq He' Hw Hn. destruct (word_loop_spec (Z.to_nat (es - q)) q Hq ltac:(lia)) as (H1 & H2 & H3). set (e' := word_loop _ _ _ _) in *.
  destruct (Z.lt_trichotomy e' e) as [L|[L|L]]; [|done|].
  - destruct H3. apply Hw. lia.
  - destruct Hn. apply H2. lia.
Qed.

Lemma gettoken_end p : reads p [] → ∃ p', gettoken m es p = Ret ((0, es, es), p') ∧ reads p' [].
Proof.
  intros H. destruct (skip_reads _ _ H) as [E H']. unfold gettoken. rewrite E. cbn [start_of] in *. rewrite He. simpl.
  destruct (skip_reads _ _ H') as [E' H'']. rewrite E'. cbn [start_of]. by exists es.
Qed.

Lemma gettoken_run p t ts : reads p (t :: ts) → ∃ p', gettoken m es p = Ret (t, p') ∧ reads p' ts.
Proof.
  intros H. destruct (skip_reads _ _ H) as [E _]. inversion H as [|p0 t0 ts0 Hp T H']; subst. destruct (skip_reads _ _ H') as [E' H''].
  exists (start_of ts). split; [|done]. unfold gettoken. rewrite E. destruct t as [[k q] e]. cbn [start_of fst snd] in *.
  destruct T as (T1 & T2 & T3 & T4 & T5). destruct T5 as [(Hk & -> & ->)|[(-> & -> & Hn & ->)|[(-> & -> & -> & ->)|(-> & Hw & Hn)]]].
  - rewrite (proj2 (inset_spec _ k)) by done. rewrite (proj2 (Z.eqb_neq k 0)); [by rewrite E'|].
    intros ->. repeat (apply elem_of_cons in Hk as [Hk|Hk]; [done|]). by apply elem_of_nil in Hk.
  - change (inset _ 62) with false. simpl. rewrite (proj2 (Z.eqb_neq _ 62)) by done. by rewrite E'.
  - change (inset _ 62) with false. simpl. replace (q + 1 + 1) with (q + 2) by lia. by rewrite E'.
  - destruct (Hw q ltac:(lia)) as (W1 & W2 & W3). rewrite (proj2 (Z.eqb_neq _ 0)) by done.
    destruct (inset [124; 40; 41; 59; 38; 60] (m q)) eqn:F.
    { apply inset_spec in F. exfalso. revert W3. repeat (apply elem_of_cons in F as [->|F]; [done|]). by apply elem_of_nil in F. }
    destruct (Z.eqb_spec (m q) 62) as [F2|F2]; [by rewrite F2 in W3|].
    rewrite (word_unique q e) by (done || lia). by rewrite E'.
Qed.

(** Every line is a sequence of tokens. *)
Lemma reads_total p : buf ≤ p ≤ es → ∃ ts, reads p ts.
Proof.
  remember (Z.to_nat (es - p)) as n eqn:En. revert p En. induction n as [n IH] using lt_wf_ind. intros p En Hp.
  destruct (skip_spec p ltac:(lia)) as (H1 & H2 & H3). set (q := skip m es p) in *. destruct (decide (q = es)) as [E|Hq].
  { exists []. apply rd_end; [lia|]. by rewrite <- E. }
  pose proof (Hz q ltac:(lia)) as Nz.
  assert (Hn : ∀ k e, token p (k, q, e) → ∃ ts, reads p ts).
  { intros k e T. pose proof T as (T1 & T2 & T3 & _). destruct (IH (Z.to_nat (es - e)) ltac:(lia) e eq_refl ltac:(lia)) as [ts Hts].
    exists ((k, q, e) :: ts). apply rd_tok; [lia | done..]. }
  destruct (inset symbols (m q)) eqn:F.
  - apply inset_spec in F. destruct (decide (m q = 62)) as [E|E].
    + destruct (decide (m (q + 1) = 62)) as [E2|E2].
      * assert (q + 1 ≠ es) by (intros F2; rewrite F2, He in E2; done).
        apply (Hn 43 (q + 2)). split; [lia|]. split; [lia|]. split; [lia|]. split; [done|]. tauto.
      * apply (Hn 62 (q + 1)). split; [lia|]. split; [lia|]. split; [lia|]. split; [done|]. tauto.
    + apply (Hn (m q) (q + 1)). split; [lia|]. split; [lia|]. split; [lia|]. split; [done|]. left. split; [|done].
      revert F E. generalize (m q). intros c F E. apply inset_spec. apply inset_spec in F.
      unfold inset in *. simpl in *. destruct (Z.eqb_spec c 62); [done|]. lia.
  - destruct (word_loop_spec (Z.to_nat (es - q)) q ltac:(lia) ltac:(lia)) as (W1 & W2 & W3). set (e := word_loop _ _ _ _) in *.
    assert (Wq : wordch (m q)). { split; [done|]. split; [|done]. unfold blank in H3. by destruct (inset whitespace (m q)). }
    assert (e ≠ q) by (intros Ee; rewrite Ee in W3; done).
    apply (Hn 97 e). split; [lia|]. split; [lia|]. split; [lia|]. split; [done|]. tauto.
Qed.

Lemma reads_short p ts : reads p ts → Z.of_nat (length ts) ≤ es - p.
Proof.
  induction 1 as [|p [[k q] e] ts Hp T H IH]; [simpl; lia|]. destruct T as (? & ? & ? & _). simpl in *. lia.
Qed.

Lemma kinds p t ts : reads p (t :: ts) → kind t ∈ [124; 40; 41; 59; 38; 60; 62; 43; 97].
Proof.
  intros H. inversion H as [|p0 t0 ts0 Hp T H']; subst. destruct t as [[k q] e]. destruct T as (_ & _ & _ & _ & T). cbn [kind fst].
  apply inset_spec. destruct T as [(T & _)|[(-> & _)|[(-> & _)|(-> & _)]]]; try done. apply inset_spec in T.
  unfold inset in *. simpl in *. lia.
Qed.

(** ** Every tree the parser returns is derived *)

(** [F] at [p] returns what [G] gives to some of the next tokens, or panics. *)
Definition yields (F : M Z cmd) (p : Z) (ts : list tok) (G : list tok → cmd → Prop) : Prop :=
  (∃ c ts1 ts2 p', F p = Ret (c, p') ∧ ts = ts1 ++ ts2 ∧ reads p' ts2 ∧ G ts1 c) ∨ ∃ e, F p = Panic e.

Lemma yields_ret c p ts (G : list tok → cmd → Prop) : reads p ts → G [] c → yields (mret c) p ts G.
Proof. intros H HG. left. by exists c, [], ts, p. Qed.

Lemma yields_panic e p ts G : yields (panic e) p ts G.
Proof. right. by exists e. Qed.

Lemma yields_mono F p ts (G G' : list tok → cmd → Prop) : yields F p ts G → (∀ l c, G l c → G' l c) → yields F p ts G'.
Proof. intros [(c & t1 & t2 & p' & E & -> & R & HG)|He'] H; [left; exists c, t1, t2, p'; auto | by right]. Qed.

Lemma yields_bind F K p ts G1 (G : list tok → cmd → Prop) : yields F p ts G1 →
  (∀ c ts1 ts2 p', ts = ts1 ++ ts2 → reads p' ts2 → G1 ts1 c → yields (K c) p' ts2 (λ l, G (ts1 ++ l))) →
  yields (F ≫= K) p ts G.
Proof.
  intros [(c & t1 & t2 & p' & E & -> & R & HG)|[e E]] HK.
  - unfold yields, mbind, M_bind. rewrite E. destruct (HK c t1 t2 p' eq_refl R HG) as [(c' & l1 & l2 & p2 & E' & -> & R' & HG')|[e E']].
    + left. exists c', (t1 ++ l1), l2, p2. by rewrite app_assoc.
    + right. by exists e.
  - right. exists e. unfold mbind, M_bind. by rewrite E.
Qed.

Lemma yields_peek toks K p ts G : reads p ts → forallb (inset symbols) toks = true →
  (∀ p', reads p' ts → yields (K (inset toks (hd ts))) p' ts G) → yields (peek m es toks ≫= K) p ts G.
Proof.
  intros H Ht HK. destruct (peek_run toks p ts H Ht) as (p' & E & H'). unfold yields, mbind, M_bind. rewrite E. by apply HK.
Qed.

Lemma yields_token K p t ts (G : list tok → cmd → Prop) : reads p (t :: ts) →
  (∀ p', reads p' ts → yields (K t) p' ts (λ l, G (t :: l))) → yields (gettoken m es ≫= K) p (t :: ts) G.
Proof.
  intros H HK. destruct (gettoken_run p t ts H) as (p' & E & H'). unfold yields, mbind, M_bind. rewrite E.
  destruct (HK p' H') as [(c & l1 & l2 & p2 & E' & -> & R & HG)|[e E']]; [left; by exists c, (t :: l1), l2, p2 | right; by exists e].
Qed.

Lemma yields_token_end K p (G : list tok → cmd → Prop) : reads p [] →
  (∀ p', reads p' [] → yields (K (0, es, es)) p' [] G) → yields (gettoken m es ≫= K) p [] G.
Proof. intros H HK. destruct (gettoken_end p H) as (p' & E & H'). unfold yields, mbind, M_bind. rewrite E. by apply HK. Qed.

(** The next token is one of [toks]. *)
Lemma hd_in toks ts : forallb (inset symbols) toks = true → inset toks (hd ts) = true →
  ∃ t ts', ts = t :: ts' ∧ (if kind t =? 43 then 62 else kind t) ∈ toks.
Proof.
  intros Ht H. apply inset_spec in H. destruct ts as [|t ts]; [|by exists t, ts]. simpl in H.
  rewrite forallb_forall in Ht. specialize (Ht 0 (proj1 (list_elem_of_In _ _) H)). done.
Qed.

Lemma hd_one x t : x ≠ 62 → (if kind t =? 43 then 62 else kind t) ∈ [x] → kind t = x.
Proof. intros Hx H. apply list_elem_of_singleton in H. destruct (kind t =? 43); [congruence | done]. Qed.

Lemma parseredirs_sound fuel c p ts : (length ts < fuel)%nat → reads p ts → yields (parseredirs m es fuel c) p ts (gredirs c).
Proof.
  revert c p ts. induction fuel as [|f IH]; intros c p ts Hf H; [lia|]. cbn [parseredirs]. apply yields_peek; [done | done|].
  intros p1 H1. destruct (inset [60; 62] (hd ts)) eqn:E; [|by apply yields_ret; [|constructor]].
  apply hd_in in E as (t & ts1 & -> & Ht); [|done]. apply yields_token; [done|]. intros p2 H2. destruct ts1 as [|w ts2].
  { apply yields_token_end; [done|]. intros p3 H3. destruct t as [[k q] e]. apply yields_panic. }
  apply yields_token; [done|]. intros p3 H3. destruct t as [[k q] e], w as [[k' q'] e']. cbn [kind fst snd] in *. simpl in Hf.
  destruct (Z.eqb_spec k' 97) as [->|]; [|apply yields_panic]. eapply yields_mono; [apply IH; [lia | done]|].
  intros l c' Hl. apply gr_cons; [|done..]. cbn [kind fst]. destruct (Z.eqb_spec k 43) as [->|]; [by right; right; left|].
  apply elem_of_cons in Ht as [->|Ht%list_elem_of_singleton]; [by left | subst; by right; left].
Qed.

Lemma args_sound fuel n c p ts : (length ts < fuel)%nat → reads p ts → yields (args_loop m es fuel n c) p ts (gargs n c).
Proof.
  revert n c p ts. induction fuel as [|f IH]; intros n c p ts Hf H; [lia|]. cbn [args_loop]. apply yields_peek; [done | done|].
  intros p1 H1. destruct (inset [124; 41; 38; 59] (hd ts)) eqn:E; [by apply yields_ret; [|constructor]|]. destruct ts as [|w ts].
  { apply yields_token_end; [done|]. intros p2 H2. by apply yields_ret; [|constructor]. }
  apply yields_token; [done|]. intros p2 H2. destruct w as [[k q] e]. simpl in Hf.
  destruct (Z.eqb_spec k 0) as [->|_]; [by apply kinds in H; repeat (apply elem_of_cons in H as [H|H]; [done|]); apply elem_of_nil in H|].
  destruct (Z.eqb_spec k 97) as [->|]; [|apply yields_panic]. destruct (Z.leb_spec MAXARGS (n + 1)); [apply yields_panic|].
  eapply yields_bind; [apply parseredirs_sound; [lia | done]|]. intros c1 ts1 ts2 p3 -> H3 G1. rewrite length_app in Hf.
  eapply yields_mono; [apply IH; [lia | done]|]. intros l c2 G2. by apply (ga_word n c (97, q, e) ts1 c1 l c2).
Qed.

Lemma iter_back n c : Nat.iter n BACK (BACK c) = Nat.iter (S n) BACK c.
Proof. induction n as [|n IH]; [done|]. simpl in *. by rewrite IH. Qed.

Lemma back_sound fuel c p ts : (length ts < fuel)%nat → reads p ts →
  yields (back_loop m es fuel c) p ts (λ l c', amps l ∧ c' = Nat.iter (length l) BACK c).
Proof.
  revert c p ts. induction fuel as [|f IH]; intros c p ts Hf H; [lia|]. cbn [back_loop]. apply yields_peek; [done | done|].
  intros p1 H1. destruct (inset [38] (hd ts)) eqn:E; [|by apply yields_ret; [|split; [constructor|]]].
  apply hd_in in E as (t & ts1 & -> & Ht); [|done]. apply hd_one in Ht; [|done]. apply yields_token; [done|]. intros p2 H2. simpl in Hf.
  eapply yields_mono; [apply IH; [lia | done]|]. intros l c' [Ha ->]. split; [by constructor | apply iter_back].
Qed.

(** Four nested calls per token are enough. *)
Lemma parse_sound fuel :
  (∀ p ts, reads p ts → (4 * length ts + 4 <= fuel)%nat → yields (parseline m es fuel) p ts (derives Line)) ∧
  (∀ p ts, reads p ts → (4 * length ts + 3 <= fuel)%nat → yields (parsepipe m es fuel) p ts (derives Pipeline)) ∧
  (∀ p ts, reads p ts → (4 * length ts + 2 <= fuel)%nat → yields (parseexec m es fuel) p ts (derives Simple)) ∧
  (∀ p ts, reads p ts → (4 * length ts + 1 <= fuel)%nat → yields (parseblock m es fuel) p ts (derives Simple)).
Proof.
  induction fuel as [|f (IHl & IHp & IHe & IHb)]; [repeat split; intros; lia|]. split; [|split; [|split]]; intros p ts H Hf.
  - cbn [parseline]. eapply yields_bind; [apply IHp; [done | lia]|]. intros c t1 ts2 p1 -> H1 G1. rewrite length_app in Hf.
    eapply yields_bind; [apply back_sound; [|done]; lia|]. intros c' l ts3 p2 -> H2 [Ha ->]. rewrite length_app in Hf.
    apply yields_peek; [done | done|]. intros p3 H3. destruct (inset [59] (hd ts3)) eqn:E.
    + apply hd_in in E as (t & ts4 & -> & Ht); [|done]. apply hd_one in Ht; [|done]. simpl in Hf. apply yields_token; [done|]. intros p4 H4.
      eapply yields_bind; [apply IHl; [done | lia]|]. intros r t5 ts6 p5 -> H5 G5. apply yields_ret; [done|]. rewrite app_nil_r.
      by apply d_list.
    + apply yields_ret; [done|]. rewrite app_nil_r. by apply d_line.
  - cbn [parsepipe]. eapply yields_bind; [apply IHe; [done | lia]|]. intros c t1 ts2 p1 -> H1 G1. rewrite length_app in Hf.
    apply yields_peek; [done | done|]. intros p3 H3. destruct (inset [124] (hd ts2)) eqn:E.
    + apply hd_in in E as (t & ts4 & -> & Ht); [|done]. apply hd_one in Ht; [|done]. simpl in Hf. apply yields_token; [done|]. intros p4 H4.
      eapply yields_bind; [apply IHp; [done | lia]|]. intros r t5 ts6 p5 -> H5 G5. apply yields_ret; [done|]. rewrite app_nil_r.
      by apply d_pipe.
    + apply yields_ret; [done|]. rewrite app_nil_r. by apply d_one.
  - cbn [parseexec]. apply yields_peek; [done | done|]. intros p1 H1. destruct (inset [40] (hd ts)); [apply IHb; [done | lia]|].
    eapply yields_bind; [apply parseredirs_sound; [lia | done]|]. intros c t1 ts2 p2 -> H2 G1. rewrite length_app in Hf.
    eapply yields_mono; [apply args_sound; [lia | done]|]. intros l c' G2. by eapply d_exec.
  - cbn [parseblock]. apply yields_peek; [done | done|]. intros p1 H1. destruct (inset [40] (hd ts)) eqn:E; [|apply yields_panic].
    apply hd_in in E as (t & ts1 & -> & Ht); [|done]. apply hd_one in Ht; [|done]. simpl in Hf. apply yields_token; [done|]. intros p2 H2.
    eapply yields_bind; [apply IHl; [done | lia]|]. intros c t3 ts4 p3 -> H3 G3. rewrite length_app in Hf.
    apply yields_peek; [done | done|]. intros p4 H4. destruct (inset [41] (hd ts4)) eqn:E; [|apply yields_panic].
    apply hd_in in E as (t' & ts5 & -> & Ht'); [|done]. apply hd_one in Ht'; [|done]. simpl in Hf. apply yields_token; [done|]. intros p5 H5.
    eapply yields_mono; [apply parseredirs_sound; [lia | done]|]. intros l c' G6. by eapply d_block.
Qed.

(** ** Every tree that is derived is returned *)

Definition runs (F : M Z cmd) (p : Z) (c : cmd) (rest : list tok) : Prop := ∃ p', F p = Ret (c, p') ∧ reads p' rest.

Lemma runs_ret c p rest : reads p rest → runs (mret c) p c rest.
Proof. intros H. by exists p. Qed.

Lemma runs_bind F K p c ts c' rest : runs F p c ts → (∀ p', reads p' ts → runs (K c) p' c' rest) → runs (F ≫= K) p c' rest.
Proof. intros (p' & E & H) HK. unfold runs, mbind, M_bind. rewrite E. by apply HK. Qed.

Lemma runs_peek toks K p ts c rest : reads p ts → forallb (inset symbols) toks = true →
  (∀ p', reads p' ts → runs (K (inset toks (hd ts))) p' c rest) → runs (peek m es toks ≫= K) p c rest.
Proof. intros H Ht HK. destruct (peek_run toks p ts H Ht) as (p' & E & H'). unfold runs, mbind, M_bind. rewrite E. by apply HK. Qed.

Lemma runs_token K p t ts c rest : reads p (t :: ts) → (∀ p', reads p' ts → runs (K t) p' c rest) → runs (gettoken m es ≫= K) p c rest.
Proof. intros H HK. destruct (gettoken_run p t ts H) as (p' & E & H'). unfold runs, mbind, M_bind. rewrite E. by apply HK. Qed.

Lemma redirs_hd c ts c' rest : gredirs c ts c' → ts = [] ∨ inset [60; 62] (hd (ts ++ rest)) = true.
Proof.
  intros [|? t w ts0 c0 Ht _ _]; [by left | right]. cbn [app hd]. apply inset_spec.
  destruct (Z.eqb_spec (kind t) 43); [by right; left|]. apply inset_spec in Ht. apply inset_spec. unfold inset in *. simpl in *. lia.
Qed.

Lemma args_hd n c ts c' rest : gargs n c ts c' → ts = [] ∨ hd (ts ++ rest) = 97.
Proof. intros [|n0 c0 w ts1 c1 ts2 c2 Hw _ _ _]; [by left | right]. cbn [app hd]. by rewrite Hw. Qed.

Lemma parseredirs_complete fuel c ts c' p rest : gredirs c ts c' → reads p (ts ++ rest) → (length (ts ++ rest) < fuel)%nat →
  inset [60; 62] (hd rest) = false → runs (parseredirs m es fuel c) p c' rest.
Proof.
  intros G. revert fuel p. induction G as [c|c t w ts c' Ht Hw G IH]; intros [|f] p H Hf Hr; try (simpl in Hf; lia); cbn [parseredirs].
  - apply runs_peek with (ts := rest); [done | done|]. intros p1 H1. rewrite Hr. by apply runs_ret.
  - eapply runs_peek; [done | done|]. intros p1 H1.
    destruct (redirs_hd c (t :: w :: ts) c' rest ltac:(by constructor)) as [?| ->]; [done|]. simpl in H1.
    eapply runs_token; [exact H1|]. intros p2 H2. eapply runs_token; [exact H2|]. intros p3 H3. simpl in Hf.
    destruct t as [[k q] e], w as [[k' q'] e']. cbn [kind word fst snd] in *. subst k'. apply IH; [done | lia | done].
Qed.

Lemma args_complete fuel n c ts c' p rest : gargs n c ts c' → reads p (ts ++ rest) → (length (ts ++ rest) < fuel)%nat →
  inset [0; 124; 41; 38; 59] (hd rest) = true → runs (args_loop m es fuel n c) p c' rest.
Proof.
  intros G. revert fuel p. induction G as [n c|n c w ts1 c1 ts2 c2 Hw Hn G1 G2 IH]; intros [|f] p H Hf Hr; try (simpl in Hf; lia); cbn [args_loop].
  - apply runs_peek with (ts := rest); [done | done|]. intros p1 H1. destruct (inset [124; 41; 38; 59] (hd rest)) eqn:E; [by apply runs_ret|].
    destruct rest as [|t rest].
    + destruct (gettoken_end p1 H1) as (p2 & E2 & H2). unfold runs, mbind, M_bind. rewrite E2. by apply runs_ret.
    + exfalso. apply kinds in H1. apply inset_spec in H1. cbn [hd] in *. unfold inset in *. simpl in *. destruct (kind t =? 43); lia.
  - simpl in H. rewrite <- app_assoc in H. simpl in Hf. rewrite <- app_assoc, length_app in Hf.
    eapply runs_peek; [exact H | done|]. intros p1 H1. cbn [hd]. rewrite Hw. change (inset _ _) with false.
    eapply runs_token; [exact H1|]. intros p2 H2. destruct w as [[k q] e]. cbn [kind fst snd] in Hw. subst k. cbn [word fst snd] in G1.
    change (97 =? 0) with false. change (97 =? 97) with true. cbn iota. rewrite (proj2 (Z.leb_gt _ _)) by done.
    eapply runs_bind; [eapply (parseredirs_complete _ _ ts1); [exact G1 | exact H2 | rewrite length_app; lia|]|].
    + destruct (args_hd _ _ _ _ rest G2) as [->| ->]; [|done]. simpl. unfold inset in *. simpl in *. lia.
    + intros p3 H3. apply IH; [done | lia | done].
Qed.

Lemma back_complete fuel c l p rest : amps l → reads p (l ++ rest) → (length (l ++ rest) < fuel)%nat →
  inset [38] (hd rest) = false → runs (back_loop m es fuel c) p (Nat.iter (length l) BACK c) rest.
Proof.
  intros Ha. revert fuel c p. induction Ha as [|t l Ht Ha IH]; intros [|f] c p H Hf Hr; try (simpl in Hf; lia); cbn [back_loop].
  - apply runs_peek with (ts := rest); [done | done|]. intros p1 H1. rewrite Hr. by apply runs_ret.
  - eapply runs_peek; [exact H | done|]. intros p1 H1. cbn [app hd]. rewrite Ht. change (inset _ _) with true.
    eapply runs_token; [exact H1|]. intros p2 H2. simpl in Hf. cbn [length]. rewrite <- iter_back. apply IH; [done | lia | done].
Qed.

Definition parse (s : symbol) : nat → M Z cmd :=
  match s with Line => parseline m es | Pipeline => parsepipe m es | Simple => parseexec m es end.
Definition need (s : symbol) : nat := match s with Line => 4 | Pipeline => 3 | Simple => 2 end.

(** The tokens that may come after. *)
Definition follow (s : symbol) (rest : list tok) : Prop :=
  inset (match s with Line => [0; 41] | Pipeline => [0; 41; 38; 59] | Simple => [0; 41; 38; 59; 124] end) (hd rest) = true.

Ltac chars := unfold follow, inset in *; simpl in *; lia.

Lemma follow_amps l rest : amps l → follow Line rest ∨ hd rest = 59 → follow Pipeline (l ++ rest).
Proof. intros [|t l' Ht _] H; [|cbn [app]; unfold follow; cbn [hd]; by rewrite Ht]. simpl. destruct H as [H| H]; chars. Qed.

Lemma hd_cons t ts : kind t ≠ 43 → hd (t :: ts) = kind t.
Proof. intros H. cbn [hd]. by rewrite (proj2 (Z.eqb_neq _ 43)). Qed.

Lemma parse_complete s ts c : derives s ts c → ∀ fuel p rest, reads p (ts ++ rest) →
  (4 * length (ts ++ rest) + need s <= fuel)%nat → follow s rest → runs (parse s fuel) p c rest.
Proof.
  induction 1 as [ts c l D IH Ha|ts c l t ts' r D IH Ha Ht D' IH'|ts c D IH|ts c t ts' r D IH Ht D' IH'|t ts c t' rs c' Ht D IH Ht' G|ts c ts' c' G1 G2];
    intros [|f] p rest H Hf Hr; try (simpl in Hf; lia); cbn [parse need] in *; rewrite <- ?app_assoc in H, Hf; cbn [app] in H, Hf; rewrite <- ?app_assoc in H, Hf;
    cbn [app] in H, Hf.
  - cbn [parseline]. eapply runs_bind; [apply (IH f p (l ++ rest)); [done | lia | apply follow_amps; auto]|].
    intros p1 H1. rewrite length_app in Hf.
    eapply runs_bind; [apply (back_complete _ _ l); [done | exact H1 | lia | chars]|].
    intros p2 H2. eapply runs_peek; [exact H2 | done|]. intros p3 H3. replace (inset [59] (hd rest)) with false by (symmetry; chars). by apply runs_ret.
  - assert (E : hd (t :: ts' ++ rest) = 59) by (rewrite hd_cons; [done | lia]).
    cbn [parseline]. eapply runs_bind; [apply (IH f p (l ++ t :: ts' ++ rest)); [done | lia | apply follow_amps; auto]|].
    intros p1 H1. rewrite length_app in Hf.
    eapply runs_bind; [apply (back_complete _ _ l); [done | exact H1 | lia | by rewrite E]|].
    intros p2 H2. eapply runs_peek; [exact H2 | done|]. intros p3 H3. rewrite E. change (inset _ _) with true.
    eapply runs_token; [exact H3|]. intros p4 H4. rewrite length_app in Hf. simpl in Hf.
    eapply runs_bind; [apply (IH' f p4 rest); [done | lia | done]|]. intros p5 H5. by apply runs_ret.
  - cbn [parsepipe]. eapply runs_bind; [apply (IH f p rest); [done | lia | chars]|].
    intros p2 H2. eapply runs_peek; [exact H2 | done|]. intros p3 H3. replace (inset [124] (hd rest)) with false by (symmetry; chars). by apply runs_ret.
  - assert (E : hd (t :: ts' ++ rest) = 124) by (rewrite hd_cons; [done | lia]).
    cbn [parsepipe]. eapply runs_bind; [apply (IH f p (t :: ts' ++ rest)); [done | lia | unfold follow; by rewrite E]|].
    intros p2 H2. eapply runs_peek; [exact H2 | done|]. intros p3 H3. rewrite E. change (inset _ _) with true.
    eapply runs_token; [exact H3|]. intros p4 H4. rewrite length_app in Hf. simpl in Hf.
    eapply runs_bind; [apply (IH' f p4 rest); [done | lia | done]|]. intros p5 H5. by apply runs_ret.
  - assert (E : ∀ l, hd (t :: l) = 40) by (intros l; rewrite hd_cons; [done | lia]).
    assert (E' : ∀ l, hd (t' :: l) = 41) by (intros l; rewrite hd_cons; [done | lia]).
    cbn [parseexec]. eapply runs_peek; [exact H | done|]. intros p1 H1. rewrite E. change (inset _ _) with true. cbn iota.
    destruct f as [|f]; [simpl in Hf; lia|]. simpl in Hf. rewrite length_app in Hf. simpl in Hf. cbn [parseblock].
    eapply runs_peek; [exact H1 | done|]. intros p2 H2. rewrite E. change (inset _ _) with true.
    change (runs (gettoken m es;; c ← parseline m es f; b ← peek m es [41]; assert b "syntax - missing )";; gettoken m es;; parseredirs m es f c) p2 c' rest).
    eapply runs_token; [exact H2|]. intros p3 H3.
    eapply runs_bind; [apply (IH f p3 (t' :: rs ++ rest)); [done | rewrite length_app; simpl; lia | unfold follow; by rewrite E']|].
    intros p4 H4. eapply runs_peek; [exact H4 | done|]. intros p5 H5. rewrite E'. change (inset _ _) with true.
    change (runs (gettoken m es;; parseredirs m es f c) p5 c' rest).
    eapply runs_token; [exact H5|]. intros p6 H6. apply (parseredirs_complete _ _ rs); [done | done | lia | chars].
  - assert (E : inset [60; 62] (hd (ts' ++ rest)) = false ∧ hd (ts' ++ rest) ≠ 40).
    { destruct (args_hd _ _ _ _ rest G2) as [->| ->]; [|done]. simpl. chars. }
    assert (E2 : inset [40] (hd (ts ++ ts' ++ rest)) = false).
    { destruct (redirs_hd _ _ _ (ts' ++ rest) G1) as [->|E2]; [|chars]. simpl. chars. }
    cbn [parseexec]. eapply runs_peek; [exact H | done|]. intros p1 H1. rewrite E2.
    eapply runs_bind; [apply (parseredirs_complete _ _ ts _ _ (ts' ++ rest)); [done | done | lia | apply E]|].
    intros p2 H2. rewrite length_app in Hf. apply (args_complete _ _ _ ts'); [done | done | lia | chars].
Qed.

(** ** The words of a command *)

Fixpoint words (c : cmd) : list (Z * Z) :=
  match c with
  | EXEC argv => argv
  | REDIR c file efile _ _ => words c ++ [(file, efile)]
  | PIPE l r | LIST l r => words l ++ words r
  | BACK c => words c
  end.

Definition among (ts : list tok) (w : Z * Z) : Prop := ∃ t, t ∈ ts ∧ kind t = 97 ∧ word t = w.

Lemma among_sub ts ts' w : (∀ t, t ∈ ts → t ∈ ts') → among ts w → among ts' w.
Proof. intros H (t & Ht & ? & ?). exists t. auto. Qed.

Lemma redirs_words c ts c' w : gredirs c ts c' → w ∈ words c' → w ∈ words c ∨ among ts w.
Proof.
  induction 1 as [c|c t w' ts c' Ht Hw G IH]; [by left|]. intros H. destruct (IH H) as [H1|H1].
  - assert (Hr : w ∈ words c ∨ w = word w').
    { revert H1. unfold redir. repeat case_match; simpl; rewrite ?elem_of_app, ?list_elem_of_singleton; destruct w' as [[k q] e]; tauto. }
    destruct Hr as [Hr| ->]; [by left|]. right. exists w'. split; [by right; left | done].
  - right. eapply among_sub; [|exact H1]. intros x Hx. by right; right.
Qed.

Lemma add_arg_words w c x : x ∈ words (add_arg w c) → x ∈ words c ∨ x = w.
Proof.
  induction c as [argv|c IH file efile mode fd| | |]; simpl; rewrite ?elem_of_app, ?list_elem_of_singleton; tauto.
Qed.

Lemma args_words n c ts c' w : gargs n c ts c' → w ∈ words c' → w ∈ words c ∨ among ts w.
Proof.
  induction 1 as [n c|n c w' ts1 c1 ts2 c2 Hw Hn G1 G2 IH]; [by left|]. intros H. destruct (IH H) as [H1|H1].
  - destruct (redirs_words _ _ _ _ G1 H1) as [H2|H2].
    + apply add_arg_words in H2 as [H2| ->]; [by left | right]. exists w'. split; [by left | done].
    + right. eapply among_sub; [|exact H2]. intros x Hx. right. apply elem_of_app. by left.
  - right. eapply among_sub; [|exact H1]. intros x Hx. right. apply elem_of_app. by right.
Qed.

Lemma iter_words n c : words (Nat.iter n BACK c) = words c.
Proof. by induction n. Qed.

Lemma derived_words s ts c w : derives s ts c → w ∈ words c → among ts w.
Proof.
  intros D. revert w. induction D as [ts c l D IH Ha|ts c l t ts' r D IH Ha Ht D' IH'|ts c D IH|ts c t ts' r D IH Ht D' IH'|t ts c t' rs c' Ht D IH Ht' G|ts c ts' c' G1 G2];
    intros w; cbn [words]; rewrite ?iter_words.
  - intros H. eapply among_sub; [|exact (IH _ H)]. intros x Hx. apply elem_of_app. by left.
  - intros [H|H]%elem_of_app; [eapply among_sub; [|exact (IH _ H)] | eapply among_sub; [|exact (IH' _ H)]]; intros x Hx; rewrite !elem_of_app, elem_of_cons; auto.
  - apply IH.
  - intros [H|H]%elem_of_app; [eapply among_sub; [|exact (IH _ H)] | eapply among_sub; [|exact (IH' _ H)]]; intros x Hx; rewrite !elem_of_app, elem_of_cons; auto.
  - intros H. destruct (redirs_words _ _ _ _ G H) as [H1|H1]; [eapply among_sub; [|exact (IH _ H1)] | eapply among_sub; [|exact H1]];
      intros x Hx; rewrite elem_of_cons, elem_of_app, elem_of_cons; auto.
  - intros H. destruct (args_words _ _ _ _ _ G2 H) as [H1|H1]; [|eapply among_sub; [|exact H1]; intros x Hx; apply elem_of_app; by right].
    destruct (redirs_words _ _ _ _ G1 H1) as [H2|H2]; [by apply elem_of_nil in H2|].
    eapply among_sub; [|exact H2]. intros x Hx. apply elem_of_app. by left.
Qed.

Lemma reads_word p ts q e : reads p ts → among ts (q, e) →
  buf ≤ q ∧ q < e ∧ e ≤ es ∧ (∀ a, q ≤ a < e → wordch (m a)) ∧ ~ wordch (m e).
Proof.
  induction 1 as [|p [[k q'] e'] ts Hp T H IH]; intros (t & Ht & Hk & Hw); [by apply elem_of_nil in Ht|].
  apply elem_of_cons in Ht as [->|Ht]; [|apply IH; by exists t]. cbn [kind word fst snd] in *. injection Hw as -> ->. subst k.
  destruct T as (T1 & T2 & T3 & _ & T). split; [lia|]. split; [done|]. split; [done|].
  destruct T as [(T & _)|[(? & _)|[(? & _)|(_ & T)]]]; try done.
  by repeat (apply elem_of_cons in T as [T|T]; [done|]); apply elem_of_nil in T.
Qed.

Lemma null_args (l : list (Z * Z)) m0 a : foldl (λ m (w : Z * Z), upd m w.2 0) m0 l a = if decide (a ∈ l.*2) then 0 else m0 a.
Proof.
  revert m0. induction l as [|w l IH]; intros m0; [done|]. simpl. rewrite IH. destruct (decide (a ∈ l.*2)) as [H|H].
  - rewrite decide_True; [done | by right].
  - destruct (decide (a = w.2)) as [->|Hne]; [rewrite upd_eq, decide_True; [done | by left]|].
    rewrite upd_ne by done. rewrite decide_False; [done|]. by intros [?|?]%elem_of_cons.
Qed.

Lemma null_spec c m0 a : nulterminate c m0 a = if decide (a ∈ (words c).*2) then 0 else m0 a.
Proof.
  revert m0. induction c as [argv|c IH file efile mode fd|l IHl r IHr|l IHl r IHr|c IH]; intros m0; cbn [nulterminate words].
  - apply null_args.
  - unfold upd. rewrite IH, fmap_app. destruct (Z.eqb_spec a efile) as [->|Hne].
    + rewrite decide_True; [done|]. apply elem_of_app. right. by left.
    + destruct (decide (a ∈ (words c).*2)); [rewrite decide_True; [done|]; apply elem_of_app; by left|].
      rewrite decide_False; [done|]. intros [?|?%list_elem_of_singleton]%elem_of_app; done.
  - rewrite IHr, IHl, fmap_app. repeat case_decide; rewrite ?elem_of_app in *; tauto.
  - rewrite IHr, IHl, fmap_app. repeat case_decide; rewrite ?elem_of_app in *; tauto.
  - apply IH.
Qed.

Definition text (q e : Z) : list Z := m <$> seqZ q (e - q).

Lemma word_string p ts c q e : reads p ts → derives Line ts c → (q, e) ∈ words c →
  buf ≤ q ∧ q < e ∧ e ≤ es ∧ string_at (nulterminate c m) q (text q e).
Proof.
  intros H D Hw. destruct (reads_word _ _ _ _ H (derived_words _ _ _ _ D Hw)) as (B1 & B2 & B3 & W & N).
  split; [done|]. split; [done|]. split; [done|].
  assert (Hl : length (text q e) = Z.to_nat (e - q)) by (unfold text; by rewrite length_fmap, length_seqZ).
  split; [|split].
  - intros k x Hk. unfold text in Hk. rewrite list_lookup_fmap in Hk. destruct (seqZ q (e - q) !! k) as [y|] eqn:E; [|done].
    apply lookup_seqZ in E as [-> Hk']. injection Hk as <-. rewrite null_spec, decide_False; [done|].
    intros ([q' e'] & Ea & Hx)%list_elem_of_fmap. simpl in Ea. subst e'.
    destruct (reads_word _ _ _ _ H (derived_words _ _ _ _ D Hx)) as (_ & _ & _ & _ & N'). destruct N'. apply W. lia.
  - apply Forall_forall. intros x (y & -> & Hy%elem_of_seqZ)%list_elem_of_fmap. apply W. lia.
  - rewrite Hl, null_spec, decide_True; [done|]. apply list_elem_of_fmap. exists (q, e). split; [simpl; lia | done].
Qed.
End Line.

Lemma line_bytes m buf l : string_at m buf l →
  (∀ a, buf ≤ a < buf + Z.of_nat (length l) → m a ≠ 0) ∧ m (buf + Z.of_nat (length l)) = 0.
Proof.
  intros (H1 & H2 & H3). split; [|done]. intros a Ha.
  destruct (lookup_lt_is_Some_2 l (Z.to_nat (a - buf)) ltac:(lia)) as [x Hx]. specialize (H1 _ _ Hx).
  replace (buf + Z.of_nat (Z.to_nat (a - buf))) with a in H1 by lia. rewrite H1. rewrite Forall_forall in H2. apply H2.
  by eapply list_elem_of_lookup_2.
Qed.

(** The tokens of the line at [buf]. *)
Abbreviation tokens m buf l := (reads m buf (buf + Z.of_nat (length l)) buf).

Lemma parsecmd_run fuel m buf l : string_at m buf l → (4 * length l + 4 <= fuel)%nat → Z.of_nat (length l) < 2 ^ 32 →
  ∃ ts, tokens m buf l ts ∧
    ((∃ c, derives Line ts c ∧ parsecmd fuel buf m = Ret (c, nulterminate c m)) ∨
     (∃ e, parsecmd fuel buf m = Panic e) ∧ ∀ c, ~ derives Line ts c).
Proof.
  intros H Hf Hl. destruct (line_bytes _ _ _ H) as [Hz He]. set (es := buf + Z.of_nat (length l)) in *.
  destruct (reads_total m buf es Hz He buf ltac:(lia)) as [ts Hts]. exists ts. split; [done|].
  assert (El : strlen fuel buf m = Some (Z.of_nat (length l))).
  { unfold strlen. rewrite (strlen_loop_spec fuel 0 buf m l); [|lia | by rewrite Z.add_0_r]. cbn [mbind option_bind]. by rewrite u32_small by lia. }
  unfold parsecmd. rewrite El. fold es. pose proof (reads_short _ _ _ _ _ Hts) as Hs. cbv beta. unfold mbind, M_bind.
  assert (Hfl : (4 * length ts + 4 <= fuel)%nat) by lia.
  assert (Hno : ∀ c, derives Line ts c → ∃ p', parseline m es fuel buf = Ret (c, p') ∧ reads m buf es p' []).
  { intros c D. apply (parse_complete m buf es Hz He Line ts c D fuel buf []); [by rewrite app_nil_r | by rewrite app_nil_r | done]. }
  assert (Hpk : ∀ p' ts', reads m buf es p' ts' → ∃ b, peek m es [] p' = Ret (b, start_of es ts') ∧ (ts' ≠ [] → start_of es ts' < es)).
  { intros p' ts' R. unfold peek. destruct (skip_reads m buf es He _ _ R) as [-> _]. eexists. split; [done|].
    destruct R as [|p0 [[k q] e] ts0 Hp T R]; [done|]. intros _. simpl. destruct T as (_ & ? & ? & _). lia. }
  destruct (proj1 (parse_sound m buf es Hz He fuel) buf ts Hts Hfl) as [(c & t1 & t2 & p' & E & -> & R & D)|[e E]]; rewrite E.
  - destruct (Hpk _ _ R) as (b & -> & Hlt). cbn [mret M_ret]. destruct t2 as [|t t2].
    + rewrite app_nil_r in *. left. exists c. split; [done|]. simpl. by rewrite Z.eqb_refl.
    + rewrite (proj2 (Z.eqb_neq _ es)) by (specialize (Hlt ltac:(done)); lia). right. split; [by eexists|].
      intros c' D'. destruct (Hno c' D') as (p2 & E2 & R2). rewrite E2 in E. injection E as -> ->. specialize (Hlt ltac:(done)).
      destruct (skip_reads m buf es He _ _ R) as [S1 _], (skip_reads m buf es He _ _ R2) as [S2 _]. rewrite S1 in S2. simpl in S2, Hlt. lia.
  - right. split; [by eexists|]. intros c D. destruct (Hno c D) as (p' & E' & _). congruence.
Qed.

(** C18. The shell parses every line and cuts it into its words.  A line is a sequence of
    tokens; [parsecmd] always returns, with the tree the grammar derives from the tokens
    if there is one and with a syntax error if there is none; and after it every
    argument and every file name in the tree points to a string that is exactly that
    word of the line. *)
Theorem parse_correct fuel m buf l :
  string_at m buf l → (4 * length l + 4 <= fuel)%nat → Z.of_nat (length l) < 2 ^ 32 →
  ∃ ts, tokens m buf l ts ∧
    ((∃ c m', derives Line ts c ∧ parsecmd fuel buf m = Ret (c, m') ∧
        ∀ q e, (q, e) ∈ words c → buf ≤ q ∧ q < e ≤ buf + Z.of_nat (length l) ∧ string_at m' q (text m q e)) ∨
     (∃ e, parsecmd fuel buf m = Panic e) ∧ ∀ c, ~ derives Line ts c) ∧
    ∀ c c', derives Line ts c → derives Line ts c' → c = c'.
Proof.
  intros H Hf Hl. destruct (parsecmd_run fuel m buf l H Hf Hl) as (ts & Hts & D). destruct (line_bytes _ _ _ H) as [Hz He].
  exists ts. split; [done|]. split.
  - destruct D as [(c & D & E)|D]; [left | by right]. exists c, (nulterminate c m). split; [done|]. split; [done|].
    intros q e Hw. destruct (word_string m buf _ _ _ _ _ _ Hts D Hw) as (? & ? & ? & ?). done.
  - pose proof (reads_short _ _ _ _ _ Hts) as Hs.
    assert (Hp : ∀ c, derives Line ts c → ∃ p', parseline m (buf + Z.of_nat (length l)) fuel buf = Ret (c, p')).
    { intros c Dc. destruct (parse_complete m buf _ Hz He Line ts c Dc fuel buf []) as (p' & E & _);
        [by rewrite app_nil_r | rewrite app_nil_r; simpl; lia | done | by exists p']. }
    intros c c' D1 D2. destruct (Hp c D1) as [? E1], (Hp c' D2) as [? E2]. rewrite E1 in E2. by injection E2.
Qed.

(** ** The programs a command starts *)

(** What a descriptor refers to: something the process was given, a file it opened, an
    end of a pipe. *)
Inductive handle : Type := Given (n : Z) | File (m : Z → Z) (file mode : Z) | PipeR (n : nat) | PipeW (n : nat).
Abbreviation table := (list (option handle)).

Fixpoint first_free (t : table) : option nat :=
  match t with
  | [] => None
  | None :: _ => Some O
  | Some _ :: t' => S <$> first_free t'
  end.

(** A program that was started: the memory its arguments are in, they, its descriptors. *)
Record started : Type := Started { st_mem : Z → Z; st_argv : list Z; st_fds : table }.

Section Run.
(** Which files can be opened, which programs exist, where [chdir] can go. *)
Context (opens : (Z → Z) → Z → Z → bool) (exists_ dirs : (Z → Z) → Z → bool).

(** The programs started by [p] and its children, with descriptors [t]; [n] pipes exist. *)
Fixpoint run (p : prog) (t : table) (n : nat) : list started * nat :=
  match p with
  | Exit _ | Stuck => ([], n)
  | Exec m path argv k => if exists_ m path then ([Started m argv t], n) else run k t n
  | Close fd k => run k (<[Z.to_nat fd := None]> t) n
  | Open m file mode k =>
      match first_free t with
      | Some fd => if opens m file mode then run (k (Z.of_nat fd)) (<[fd := Some (File m file mode)]> t) n else run (k (-1)) t n
      | None => run (k (-1)) t n
      end
  | Dup fd k =>
      match first_free t with
      | Some i => run k (<[i := t !! Z.to_nat fd ≫= id]> t) n
      | None => run k t n
      end
  | Pipe k =>
      match first_free t with
      | Some i =>
          let t' := <[i := Some (PipeR n)]> t in
          match first_free t' with
          | Some j => run (k (Some (Z.of_nat i, Z.of_nat j))) (<[j := Some (PipeW n)]> t') (S n)
          | None => run (k None) t n
          end
      | None => run (k None) t n
      end
  | Fork k => let '(l1, n1) := run (k 0) t n in let '(l2, n2) := run (k 1) t n1 in (l1 ++ l2, n2)
  | Wait k => run k t n
  | Chdir m path k => run (k (if dirs m path then 0 else -1)) t n
  | Fprintf _ _ k => run k t n
  end.

(** Standard input, output and error, and nothing else. *)
Definition std (i o e : handle) : table := [Some i; Some o; Some e] ++ replicate 13 None.

(** The programs of a command, each with what it reads and writes. *)
Fixpoint wires (m : Z → Z) (c : cmd) (i o e : handle) (n : nat) : list started * nat :=
  match c with
  | EXEC [] => ([], n)
  | EXEC ((path, _) :: _ as argv) => if exists_ m path then ([Started m (map fst argv) (std i o e)], n) else ([], n)
  | REDIR c file _ mode fd =>
      if opens m file mode then
        if fd =? 0 then wires m c (File m file mode) o e n else wires m c i (File m file mode) e n
      else ([], n)
  | PIPE l r =>
      let '(l1, n1) := wires m l i (PipeW n) e (S n) in
      let '(l2, n2) := wires m r (PipeR n) o e n1 in (l1 ++ l2, n2)
  | LIST l r => let '(l1, n1) := wires m l i o e n in let '(l2, n2) := wires m r i o e n1 in (l1 ++ l2, n2)
  | BACK c => wires m c i o e n
  end.

(** Redirections of input and output only. *)
Fixpoint plain (c : cmd) : Prop :=
  match c with
  | EXEC _ => True
  | REDIR c _ _ _ fd => (fd = 0 ∨ fd = 1) ∧ plain c
  | PIPE l r | LIST l r => plain l ∧ plain r
  | BACK c => plain c
  end.

(** The children of a pipe have its ends in place of standard output and input. *)
Lemma run_pipe m l r i o e n : run (runcmd m (PIPE l r)) (std i o e) n =
  let '(l1, n1) := run (runcmd m l) (std i (PipeW n) e) (S n) in
  let '(l2, n2) := (let '(l2, n2) := run (runcmd m r) (std (PipeR n) o e) n1 in (l2 ++ [], n2)) in (l1 ++ l2, n2).
Proof. reflexivity. Qed.

Lemma run_list m l r i o e n : run (runcmd m (LIST l r)) (std i o e) n =
  let '(l1, n1) := run (runcmd m l) (std i o e) n in let '(l2, n2) := run (runcmd m r) (std i o e) n1 in (l1 ++ l2, n2).
Proof. reflexivity. Qed.

Lemma run_back m c i o e n : run (runcmd m (BACK c)) (std i o e) n =
  let '(l1, n1) := run (runcmd m c) (std i o e) n in (l1 ++ [], n1).
Proof. reflexivity. Qed.

Lemma run_redir m c file efile mode fd i o e n : fd = 0 ∨ fd = 1 →
  run (runcmd m (REDIR c file efile mode fd)) (std i o e) n =
  if opens m file mode then
    run (runcmd m c) (if fd =? 0 then std (File m file mode) o e else std i (File m file mode) e) n
  else ([], n).
Proof. by intros [-> | ->]; cbn; destruct (opens m file mode). Qed.

Lemma run_wires m c i o e n : plain c → run (runcmd m c) (std i o e) n = wires m c i o e n.
Proof.
  revert i o n. induction c as [[|[path ?] argv]|c IH file efile mode fd|l IHl r IHr|l IHl r IHr|c IH]; intros i o n P; cbn [plain] in P.
  - done.
  - cbn [runcmd run wires]. by destruct (exists_ m path).
  - destruct P as [Hfd P]. rewrite run_redir by done. cbn [wires]. destruct (opens m file mode), (fd =? 0); auto.
  - destruct P as [P1 P2]. rewrite run_pipe, IHl by done. cbn [wires]. destruct (wires m l _ _ _ _) as [l1 n1]. rewrite IHr by done.
    destruct (wires m r _ _ _ _) as [l2 n2]. by rewrite app_nil_r.
  - destruct P as [P1 P2]. rewrite run_list, IHl by done. cbn [wires]. destruct (wires m l _ _ _ _) as [l1 n1]. by rewrite IHr.
  - rewrite run_back, IH by done. cbn [wires]. destruct (wires m c _ _ _ _) as [l1 n1]. by rewrite app_nil_r.
Qed.

Lemma redirs_plain c ts c' : gredirs c ts c' → plain c → plain c'.
Proof. induction 1 as [|c t w ts c' Ht Hw G IH]; [done|]. intros P. apply IH. unfold redir. repeat case_match; simpl; auto. Qed.

Lemma args_plain n c ts c' : gargs n c ts c' → plain c → plain c'.
Proof.
  induction 1 as [|n c w ts1 c1 ts2 c2 Hw Hn G1 G2 IH]; [done|]. intros P. apply IH, (redirs_plain _ _ _ G1).
  clear - P. induction c; simpl in *; tauto.
Qed.

Lemma derived_plain s ts c : derives s ts c → plain c.
Proof.
  assert (Hi : ∀ n c, plain c → plain (Nat.iter n BACK c)) by (intros n; induction n; simpl; auto).
  induction 1; simpl; auto; [by eapply redirs_plain|]. eapply args_plain; [done|]. by eapply redirs_plain.
Qed.

(** ** A session *)

(** The next line: up to a newline or carriage return, at most [n] bytes. *)
Fixpoint take_line (n : nat) (inp : list Z) : list Z * list Z :=
  match n, inp with
  | S n', c :: inp' => if (c =? 10) || (c =? 13) then ([c], inp') else let '(a, b) := take_line n' inp' in (c :: a, b)
  | _, _ => ([], inp)
  end.

Lemma take_line_app n inp : take_line n inp = ((take_line n inp).1, (take_line n inp).2) ∧ inp = (take_line n inp).1 ++ (take_line n inp).2 ∧
  (length (take_line n inp).1 <= n)%nat.
Proof.
  revert inp. induction n as [|n IH]; intros [|c inp]; simpl; try (repeat split; simpl; lia || done).
  destruct ((c =? 10) || (c =? 13)); [repeat split; simpl; lia || done|]. destruct (IH inp) as (_ & E & L).
  destruct (take_line n inp) as [a b]. simpl in *. rewrite E at 1. repeat split. lia.
Qed.

Lemma take_line_cons n c inp : (take_line (S n) (c :: inp)).1 ≠ [].
Proof. cbn [take_line]. destruct ((c =? 10) || (c =? 13)); [done|]. by destruct (take_line n inp). Qed.

Lemma gets_loop_spec j k i buf max inp m : max - 1 - i = Z.of_nat j → (j < k)%nat →
  ∃ m', gets_loop k i buf max inp m = (i + Z.of_nat (length (take_line j inp).1), (take_line j inp).2, m') ∧
    holds m' (buf + i) (take_line j inp).1 ∧ ∀ x, x < buf + i → m' x = m x.
Proof.
  revert k i inp m. induction j as [|j IH]; intros [|k] i inp m Hj Hk; try lia; cbn [gets_loop].
  - rewrite (proj2 (Z.ltb_ge _ _)) by lia. exists m. simpl. rewrite Z.add_0_r. by repeat split.
  - rewrite (proj2 (Z.ltb_lt _ _)) by lia. destruct inp as [|c inp]; cbn [take_line].
    { exists m. simpl. rewrite Z.add_0_r. by repeat split. }
    destruct ((c =? 10) || (c =? 13)).
    + eexists. split; [reflexivity|]. split; [|intros x Hx; apply upd_ne; lia]. apply holds_cons. rewrite upd_eq. by split.
    + destruct (IH k (i + 1) inp (upd m (buf + i) c) ltac:(lia) ltac:(lia)) as (m' & E & H1 & H2). exists m'. rewrite E.
      destruct (take_line j inp) as [a b]. cbn [fst snd length] in *. split; [f_equal; f_equal; lia|]. split.
      * apply holds_cons. rewrite H2 by lia. rewrite upd_eq. split; [done|]. by rewrite <- Z.add_assoc.
      * intros x Hx. rewrite H2 by lia. apply upd_ne. lia.
Qed.

Lemma getcmd_spec buf n inp m k : 0 < n → Forall (λ c, c ≠ 0) inp →
  ∃ m', getcmd buf n inp m k =
      Fprintf 2 "$ " (k (negb (bool_decide ((take_line (Z.to_nat (n - 1)) inp).1 = []))) (take_line (Z.to_nat (n - 1)) inp).2 m') ∧
    string_at m' buf (take_line (Z.to_nat (n - 1)) inp).1.
Proof.
  intros Hn Hz. unfold getcmd, Ulib.gets. set (m0 := memset _ _ _ _).
  destruct (gets_loop_spec (Z.to_nat (n - 1)) (Z.to_nat n) 0 buf n inp m0 ltac:(lia) ltac:(lia)) as (m' & E & H & _). rewrite E.
  destruct (take_line_app (Z.to_nat (n - 1)) inp) as (_ & Ea & _). destruct (take_line _ inp) as [a b]. cbn [fst snd] in *. rewrite Z.add_0_l in *. rewrite Z.add_0_r in H.
  assert (Hs : string_at (upd m' (buf + Z.of_nat (length a)) 0) buf a).
  { split; [|split].
    - eapply holds_ext; [exact H|]. intros x Hx. apply upd_ne. lia.
    - rewrite Ea in Hz. by apply Forall_app in Hz as [? _].
    - apply upd_eq. }
  eexists. split; [|exact Hs]. do 2 f_equal. destruct a as [|c a].
  - by rewrite (string_nil _ _ Hs).
  - apply string_cons in Hs as (-> & Hc & _). rewrite (proj2 (Z.eqb_neq c 0)) by done. done.
Qed.

(** The shell itself changes directory. *)
Definition cd (l : list Z) : bool :=
  match l with x :: y :: z :: _ => (x =? 99) && (y =? 100) && (z =? 32) | _ => false end.

Section Session.
Context (buf : Z) (i o e : handle).

(** The programs of a line; none if it is not a command. *)
Definition means (m : Z → Z) (l : list Z) (n : nat) (r : list started * nat) : Prop :=
  ∃ ts, tokens m buf l ts ∧
    ((∃ c, derives Line ts c ∧ r = wires (nulterminate c m) c i o e n) ∨ (∀ c, ~ derives Line ts c) ∧ r = ([], n)).

(** The programs of all lines. *)
Inductive session : list Z → nat → list started * nat → Prop :=
  | ss_end n : session [] n ([], n)
  | ss_cd inp a b n r : take_line 99 inp = (a, b) → cd a = true → session b n r → session inp n r
  | ss_cmd inp a b m n l1 n1 l2 n2 : take_line 99 inp = (a, b) → a ≠ [] → cd a = false → string_at m buf a →
      means m a n (l1, n1) → session b n1 (l2, n2) → session inp n (l1 ++ l2, n2).

Lemma cd_test m a : string_at m buf a → a ≠ [] → (m buf =? 99) && (m (buf + 1) =? 100) && (m (buf + 2) =? 32) = cd a.
Proof.
  intros H Ha. destruct a as [|x a]; [done|]. apply string_cons in H as (-> & Hx & H).
  destruct a as [|y a]; [apply string_nil in H; by rewrite H, andb_false_r|].
  apply string_cons in H as (-> & Hy & H). replace (buf + 1 + 1) with (buf + 2) in H by lia.
  destruct a as [|z a]; [apply string_nil in H; by rewrite H, andb_false_r|]. by apply string_cons in H as (-> & _ & _).
Qed.

Lemma run_line_spec m a n k : string_at m buf a → a ≠ [] → (length a <= 99)%nat →
  if cd a then ∃ m', run (run_line 1000 buf m k) (std i o e) n = run (k m') (std i o e) n
  else ∃ l1 n1, means m a n (l1, n1) ∧
    run (run_line 1000 buf m k) (std i o e) n = let '(l2, n2) := run (k m) (std i o e) n1 in (l1 ++ l2, n2).
Proof.
  intros H Ha Hl. unfold run_line. rewrite (cd_test m a H Ha). destruct (cd a).
  - assert (El : strlen 1000 buf m = Some (Z.of_nat (length a))).
    { unfold strlen. rewrite (strlen_loop_spec _ 0 buf m a); [|lia | by rewrite Z.add_0_r]. cbn [mbind option_bind]. by rewrite u32_small by lia. }
    rewrite El. exists (upd m (buf + Z.of_nat (length a) - 1) 0). cbn [run]. by destruct (dirs _ _).
  - destruct (parsecmd_run 1000 m buf a H ltac:(lia) ltac:(lia)) as (ts & Hts & D).
    change (run _ (std i o e) n) with
      (let '(l1, n1) := run match parsecmd 1000 buf m with Ret (c, m') => runcmd m' c | Panic e => sh_panic e | _ => Stuck end (std i o e) n in
       let '(l2, n2) := run (k m) (std i o e) n1 in (l1 ++ l2, n2)).
    destruct D as [(c & D & ->)|[[e0 ->] D]].
    + rewrite run_wires by by eapply derived_plain. destruct (wires _ c i o e n) as [l1 n1] eqn:E. exists l1, n1. split; [|done].
      exists ts. split; [done|]. left. exists c. by rewrite E.
    + exists [], n. split; [|done]. exists ts. split; [done|]. by right.
Qed.

Lemma main_loop_spec fuel inp m n : Forall (λ c, c ≠ 0) inp → (length inp < fuel)%nat →
  session inp n (run (main_loop fuel buf inp m) (std i o e) n).
Proof.
  revert inp m n. induction fuel as [|f IH]; intros inp m n Hz Hf; [lia|]. cbn [main_loop].
  set (k := λ more inp m, _). destruct (getcmd_spec buf sizeof_line inp m k ltac:(done) Hz) as (m' & -> & Hs). unfold k. cbn [run]. change (Z.to_nat (sizeof_line - 1)) with 99%nat in *.
  destruct (take_line_app 99 inp) as (Et & Ea & Hl). destruct (take_line 99 inp) as [a b] eqn:El. cbn [fst snd] in *. clear Et.
  destruct a as [|x a]; cbn [bool_decide_eq_true negb].
  - rewrite bool_decide_eq_true_2 by done. simpl. destruct inp as [|c inp]; [constructor|].
    by destruct (take_line_cons 98 c inp); rewrite El.
  - rewrite bool_decide_eq_false_2 by done. cbn [negb].
    assert (Hb : Forall (λ c, c ≠ 0) b) by (rewrite Ea in Hz; by apply Forall_app in Hz as [_ ?]).
    assert (Hfb : (length b < f)%nat) by (rewrite Ea in Hf; rewrite length_app in Hf; simpl in Hf; lia).
    pose proof (run_line_spec m' (x :: a) n (main_loop f buf b) Hs ltac:(done) Hl) as R. destruct (cd (x :: a)) eqn:Ec.
    + destruct R as [m2 ->]. eapply ss_cd; [done | done|]. by apply IH.
    + destruct R as (l1 & n1 & Hm & ->). pose proof (IH b m' n1 Hb Hfb) as Hr. destruct (run (main_loop f buf b m') _ n1) as [l2 n2].
      by eapply ss_cmd.
Qed.
End Session.
End Run.


(** [ls|wc] and [<] with its file, ended by newlines. *)
Definition typed : list Z := [108; 115; 124; 119; 99; 10; 60; 120; 32; 119; 99; 10].


Lemma parse_correct_witness : ∃ c m', parsecmd 20 4096 (λ a, default 0 ([97; 62; 98] !! Z.to_nat (a - 4096))) = Ret (c, m').
Proof.
  destruct (parse_correct 20 (λ a, default 0 ([97; 62; 98] !! Z.to_nat (a - 4096))) 4096 [97; 62; 98]) as (ts & _ & D & _).
  - split; [|split].
    + intros k x Hk. replace (4096 + Z.of_nat k - 4096) with (Z.of_nat k) by lia. by rewrite Nat2Z.id, Hk.
    + apply (bool_decide_unpack _). vm_compute. exact Logic.I.
    + done.
  - simpl. lia.
  - done.
  - destruct D as [(c & m' & _ & E & _)|[[x E] _]]; [by exists c, m'|]. vm_compute in E. done.
Defined.
