(* ===== verification/Mkfs.v ===== *)
(** * mkfs: the initial disk image (mkfs/mkfs.c)

    The image maps sector numbers to sectors of [BSIZE] bytes.  The host is little-endian, so the
    byte-order conversions [xshort] and [xint] keep the values, and a [struct dinode] in
    memory is the on-disk form [read_dinode] and [write_dinode] describe.  A failing
    [assert] or [die] is the outcome [Panic].  The source files are given by their names
    and by what each [read] of 1024 bytes returns; opening them succeeds, and the progress
    messages are left out. *)

From stdpp Require Import base numbers list strings.
From S2P Require Import Prelude Str Layout Kalloc Vm Bio Block Fs Dir.
Local Open Scope Z_scope.

Definition NINODES : Z := 200.
Definition nbitmap : Z := FSSIZE / (BSIZE * 8) + 1.
Definition ninodeblocks : Z := NINODES / IPB + 1.
Definition nlog : Z := LOGSIZE.
Definition nmeta : Z := 2 + nlog + ninodeblocks + nbitmap.
Definition nblocks : Z := FSSIZE - nmeta.

(** The bytes of the result, low byte first, on a little-endian host. *)
Definition xshort (x : Z) : Z := u8 x + 2 ^ 8 * u8 (Z.shiftr (u16 x) 8).
Definition xint (x : Z) : Z :=
  u8 x + 2 ^ 8 * u8 (Z.shiftr (u32 x) 8) + 2 ^ 16 * u8 (Z.shiftr (u32 x) 16) + 2 ^ 24 * u8 (Z.shiftr (u32 x) 24).

(** The superblock [main] fills in. *)
Definition mksb : superblock :=
  SuperBlock FSMAGIC (xint FSSIZE) (xint nblocks) (xint NINODES) (xint nlog) (xint 2) (xint (2 + nlog))
    (xint (2 + nlog + ninodeblocks)).

(** The image file: its sectors, how many it has; and the two counters. *)
Record mk : Type := Mk { img : Z → bdata; nsect : Z; freeinode : Z; freeblock : Z }.

Definition zeroes : bdata := λ _, 0.

(** ** Sectors *)

Definition wsect (sec : Z) (d : bdata) : M mk unit :=
  modify (λ s, Mk (upd (img s) sec d) (Z.max (nsect s) (sec + 1)) (freeinode s) (freeblock s)).

(** A read past the end of the file comes back short. *)
Definition rsect (sec : Z) : M mk bdata :=
  n ← gets nsect;
  assert (sec <? n) "read";;
  gets (λ s, img s sec).

(** [freeblock++], [freeinode++] on [uint]s. *)
Definition next_block : M mk Z :=
  b ← gets freeblock; modify (λ s, Mk (img s) (nsect s) (freeinode s) (u32 (freeblock s + 1)));; mret b.
Definition next_inode : M mk Z :=
  b ← gets freeinode; modify (λ s, Mk (img s) (nsect s) (u32 (freeinode s + 1)) (freeblock s));; mret b.

(** ** Inodes *)

Definition winode (inum : Z) (din : inode) : M mk unit :=
  let bn := IBLOCK inum mksb in
  buf ← rsect bn;
  wsect bn (write_dinode din (sizeof_dinode * (inum mod IPB)) buf).

Definition rinode (inum : Z) : M mk inode :=
  let bn := IBLOCK inum mksb in
  buf ← rsect bn;
  mret (read_dinode buf (sizeof_dinode * (inum mod IPB)) inode0).

Definition ialloc (type : Z) : M mk Z :=
  inum ← next_inode;
  winode inum (iset_size (xint 0) (iset_nlink (xshort 1) (iset_type (xshort type) inode0)));;
  mret inum.

(** ** The bitmap *)

Fixpoint balloc_loop (n : nat) (i : Z) (buf : bdata) : bdata :=
  match n with
  | O => buf
  | S n' => balloc_loop n' (i + 1) (mark_bit i buf)
  end.

Definition balloc (used : Z) : M mk unit :=
  assert (used <? BSIZE * 8) "used < BSIZE*8";;
  wsect (sb_bmapstart mksb) (balloc_loop (Z.to_nat used) 0 zeroes).

(** ** Appending to a file *)

(** The block for [fbn], allocated if there is none yet. *)
Definition direct (fbn : Z) (din : inode) : M mk (inode * Z) :=
  din ← (if xint (addr_at din fbn) =? 0 then b ← next_block; mret (iset_addr fbn (xint b) din) else mret din);
  mret (din, xint (addr_at din fbn)).

Definition indirect (fbn : Z) (din : inode) : M mk (inode * Z) :=
  din ← (if xint (addr_at din NDIRECT) =? 0 then b ← next_block; mret (iset_addr NDIRECT (xint b) din) else mret din);
  ind ← rsect (xint (addr_at din NDIRECT));
  let k := 4 * (fbn - NDIRECT) in
  ind ← (if load32 ind k =? 0 then
           b ← next_block;
           let ind := store32 ind k (xint b) in
           wsect (xint (addr_at din NDIRECT)) ind;; mret ind
         else mret ind);
  mret (din, xint (load32 ind k)).

(** The loop ends after as many rounds as there are bytes. *)
Fixpoint iappend_loop (fuel : nat) (din : inode) (off : Z) (p : list Z) : M mk (inode * Z) :=
  match p with
  | [] => mret (din, off)
  | _ =>
      match fuel with
      | O => diverge
      | S f =>
          let fbn := off / BSIZE in
          assert (fbn <? MAXFILE) "fbn < MAXFILE";;
          r ← (if fbn <? NDIRECT then direct fbn din else indirect fbn din);
          let n1 := Z.min (Z.of_nat (length p)) ((fbn + 1) * BSIZE - off) in
          buf ← rsect r.2;
          wsect r.2 (write_bytes (off - fbn * BSIZE) (take (Z.to_nat n1) p) buf);;
          iappend_loop f r.1 (off + n1) (drop (Z.to_nat n1) p)
      end
  end.

Definition iappend (inum : Z) (xp : list Z) : M mk unit :=
  din ← rinode inum;
  r ← iappend_loop (length xp) din (xint (i_size din)) xp;
  winode inum (iset_size (xint r.2) r.1).

(** ** main *)

Fixpoint zero_loop (n : nat) (i : Z) : M mk unit :=
  match n with
  | O => mret tt
  | S n' => wsect i zeroes;; zero_loop n' (i + 1)
  end.

(** The superblock at the start of a block of zeros. *)
Definition sb_block : bdata :=
  let d := store32 zeroes 0 (sb_magic mksb) in
  let d := store32 d 4 (sb_size mksb) in
  let d := store32 d 8 (sb_nblocks mksb) in
  let d := store32 d 12 (sb_ninodes mksb) in
  let d := store32 d 16 (sb_nlog mksb) in
  let d := store32 d 20 (sb_logstart mksb) in
  let d := store32 d 24 (sb_inodestart mksb) in
  store32 d 28 (sb_bmapstart mksb).

(** [bzero(&de)], the number, and [strncpy] of the name. *)
Definition de_of (inum : Z) (name : list Z) : list Z := dirent_bytes (xshort inum) (name_copy name).

(** The prefix [user/], and a leading [_]. *)
Definition strip (name : list Z) : list Z := if bool_decide (take 5 name = [117; 115; 101; 114; 47]) then drop 5 name else name.
Definition strip_ (name : list Z) : list Z := match name with 95 :: l => l | _ => name end.

Fixpoint copy_loop (inum : Z) (reads : list (list Z)) : M mk unit :=
  match reads with
  | [] => mret tt
  | buf :: l => iappend inum buf;; copy_loop inum l
  end.

Definition add_file (rootino : Z) (name : list Z) (reads : list (list Z)) : M mk unit :=
  let shortname := strip name in
  assert (negb (bool_decide (47 ∈ shortname))) "index(shortname, '/') == 0";;
  inum ← ialloc T_FILE;
  iappend rootino (de_of inum (strip_ shortname));;
  copy_loop inum reads.

Fixpoint files_loop (rootino : Z) (files : list (list Z * list (list Z))) : M mk unit :=
  match files with
  | [] => mret tt
  | (name, reads) :: l => add_file rootino name reads;; files_loop rootino l
  end.

Definition fix_root (rootino : Z) : M mk unit :=
  din ← rinode rootino;
  let off := xint (i_size din) in
  let off := u32 ((off / BSIZE + 1) * BSIZE) in
  winode rootino (iset_size (xint off) din).

Definition mkfs (files : list (list Z * list (list Z))) : M mk unit :=
  modify (λ s, Mk (img s) (nsect s) (freeinode s) nmeta);;
  zero_loop (Z.to_nat FSSIZE) 0;;
  wsect 1 sb_block;;
  rootino ← ialloc T_DIR;
  assert (rootino =? ROOTINO) "rootino == ROOTINO";;
  iappend rootino (de_of rootino [46]);;
  iappend rootino (de_of rootino [46; 46]);;
  files_loop rootino files;;
  fix_root rootino;;
  b ← gets freeblock;
  balloc b.

(** The empty file, [freeinode = 1]. *)
Definition mk0 : mk := Mk (λ _ _, 0) 0 1 0.
