(* ===== verification/MkfsFile.v ===== *)
(** * mkfs: the blocks of the files on the image (mkfs/mkfs.c)

    [iappend] gives every file blocks of its own, each the next free one, and leaves it
    with the bytes it had and the new ones. *)

From stdpp Require Import base numbers list strings.
From S2P Require Import Prelude Str Layout Kalloc Vm Bio Block Fs Dir FsAlloc FsFile FsInode FsRw DirSpec Mkfs.
Local Open Scope Z_scope.

Lemma xint_small x : 0 ≤ x < 2 ^ 32 → xint x = x.
Proof.
  intros H. unfold xint. rewrite u32_small by done. rewrite !Z.shiftr_div_pow2 by lia. unfold u8.
  change (2 ^ 8) with 256. change (2 ^ 16) with 65536. change (2 ^ 24) with 16777216. change (2 ^ 32) with 4294967296 in H. lia.
Qed.

Lemma xshort_small x : 0 ≤ x < 2 ^ 16 → xshort x = x.
Proof.
  intros H. unfold xshort, u16. rewrite (Z.mod_small x) by lia. rewrite Z.shiftr_div_pow2 by lia. unfold u8.
  change (2 ^ 8) with 256. change (2 ^ 16) with 65536 in H. lia.
Qed.

(** ** The blocks of one file *)

(** Where an inode refers to blocks: [MAXFILE] data blocks and the indirect block. *)
Definition slot (V : Z → bdata) (i : inode) (j : Z) : Z := if j =? MAXFILE then addr_at i NDIRECT else faddr V i j.

(** Byte [o] of contents [c]; zero after the end. *)
Definition cbyte (c : list Z) (o : Z) : Z := u8 (default 0 (c !! Z.to_nat o)).

(** A file: its inode, the number of its data blocks, whether it has an indirect block,
    its contents. *)
Record fl : Type := Fl { f_ino : inode; f_n : Z; f_d : bool; f_c : list Z }.

Record lay (V : Z → bdata) (f : fl) : Prop := Lay {
  l_len : length (i_addrs (f_ino f)) = 13%nat;
  l_n : 0 ≤ f_n f ≤ MAXFILE ∧ (NDIRECT < f_n f → f_d f = true);
  l_data : ∀ bn, 0 ≤ bn < MAXFILE → (faddr V (f_ino f) bn = 0 ↔ f_n f ≤ bn);
  l_ind : addr_at (f_ino f) NDIRECT = 0 ↔ f_d f = false;
  l_size : Z.of_nat (length (f_c f)) ≤ f_n f * BSIZE;
  l_bytes : ∀ o, 0 ≤ o < MAXFILE * BSIZE → fbyte V (f_ino f) o = cbyte (f_c f) o;
}.

Lemma slot_data V i bn : bn < MAXFILE → slot V i bn = faddr V i bn.
Proof. intros H. unfold slot. by rewrite (proj2 (Z.eqb_neq _ _)) by lia. Qed.

Lemma slot_ind V i : slot V i MAXFILE = addr_at i NDIRECT.
Proof. done. Qed.

(** A change of a block that is none of the file's. *)
Lemma slot_frame V V' i x j : (∀ b, b ≠ x → V' b = V b) → (∀ k, 0 ≤ k ≤ MAXFILE → slot V i k ≠ x) → 0 ≤ j ≤ MAXFILE →
  slot V' i j = slot V i j.
Proof.
  intros HV Hx Hj. unfold slot. destruct (j =? MAXFILE); [done|]. unfold faddr. destruct (j <? NDIRECT); [done|].
  destruct (addr_at i NDIRECT =? 0); [done|]. rewrite HV; [done|]. rewrite <- (slot_ind V). apply Hx. unfold MAXFILE, NDIRECT, NINDIRECT, BSIZE. lia.
Qed.

Lemma faddr_frame V V' i x bn : (∀ b, b ≠ x → V' b = V b) → (∀ k, 0 ≤ k ≤ MAXFILE → slot V i k ≠ x) → 0 ≤ bn < MAXFILE →
  faddr V' i bn = faddr V i bn.
Proof. intros HV Hx Hb. rewrite <- !slot_data by lia. apply (slot_frame V V' i x); [done | done | lia]. Qed.

Lemma div_block o : 0 ≤ o < MAXFILE * BSIZE → 0 ≤ o / BSIZE < MAXFILE.
Proof. unfold MAXFILE, NDIRECT, NINDIRECT, BSIZE. lia. Qed.

Lemma lay_frame V V' f x : (∀ b, b ≠ x → V' b = V b) → (∀ k, 0 ≤ k ≤ MAXFILE → slot V (f_ino f) k ≠ x) → lay V f → lay V' f.
Proof.
  intros HV Hx [H1 H2 H3 H4 H5 H6]. split; try done.
  - intros bn Hb. rewrite (faddr_frame V V' _ x) by done. by apply H3.
  - intros o Ho. rewrite <- H6 by done. unfold fbyte. rewrite (faddr_frame V V' _ x) by (done || by apply div_block).
    destruct (faddr V (f_ino f) (o / BSIZE) =? 0); [done|]. rewrite HV; [done|].
    pose proof (div_block o Ho). rewrite <- slot_data by lia. apply Hx. lia.
Qed.

(** ** All files *)

Record minv (s : mk) (F : Z → fl) : Prop := MInv {
  mi_lay : ∀ k, 1 ≤ k < freeinode s → lay (img s) (F k);
  mi_range : ∀ k j, 1 ≤ k < freeinode s → 0 ≤ j ≤ MAXFILE → slot (img s) (f_ino (F k)) j ≠ 0 →
    nmeta ≤ slot (img s) (f_ino (F k)) j < freeblock s;
  mi_inj : ∀ k j k' j', 1 ≤ k < freeinode s → 0 ≤ j ≤ MAXFILE → 1 ≤ k' < freeinode s → 0 ≤ j' ≤ MAXFILE →
    slot (img s) (f_ino (F k)) j = slot (img s) (f_ino (F k')) j' → slot (img s) (f_ino (F k)) j ≠ 0 → k = k' ∧ j = j';
  mi_zero : ∀ b o, freeblock s ≤ b < FSSIZE → img s b o = 0;
  mi_fb : nmeta ≤ freeblock s ≤ FSSIZE ∧ nsect s = FSSIZE;
}.

(** One file moves on: its inode may get the next free block, and one block of its own
    may change. *)
Lemma advance s F k f' V' fb' x :
  minv s F → 1 ≤ k < freeinode s → (∀ b, b ≠ x → V' b = img s b) → x < freeblock s →
  (∀ k' j, 1 ≤ k' < freeinode s → k' ≠ k → 0 ≤ j ≤ MAXFILE → slot (img s) (f_ino (F k')) j ≠ x) →
  freeblock s ≤ fb' ≤ FSSIZE → lay V' f' →
  (∃ j0, ∀ j, 0 ≤ j ≤ MAXFILE →
    if j =? j0 then slot V' (f_ino f') j = slot (img s) (f_ino (F k)) j ∨ slot V' (f_ino f') j = freeblock s ∧ freeblock s < fb'
    else slot V' (f_ino f') j = slot (img s) (f_ino (F k)) j) →
  minv (Mk V' (nsect s) (freeinode s) fb') (upd F k f').
Proof.
  intros [M1 M2 M3 M4 M5] Hk HV Hx Ho Hfb Hl (j0 & Hj).
  assert (Hold : ∀ j, 0 ≤ j ≤ MAXFILE → slot V' (f_ino f') j = slot (img s) (f_ino (F k)) j ∨
    j = j0 ∧ slot V' (f_ino f') j = freeblock s ∧ freeblock s < fb').
  { intros j Hj'. specialize (Hj j Hj'). destruct (Z.eqb_spec j j0); tauto. }
  assert (Hoth : ∀ k' j, 1 ≤ k' < freeinode s → k' ≠ k → 0 ≤ j ≤ MAXFILE → slot V' (f_ino (F k')) j = slot (img s) (f_ino (F k')) j).
  { intros k' j Hk' Hne Hj'. apply (slot_frame _ _ _ x); [done | | done]. intros i Hi. by apply Ho. }
  split; simpl.
  - intros k' Hk'. destruct (decide (k' = k)) as [->|Hne]; [by rewrite upd_eq|]. rewrite upd_ne by done.
    apply (lay_frame (img s) _ _ x); [done | | by apply M1]. intros j Hj'. by apply Ho.
  - intros k' j Hk' Hj'. destruct (decide (k' = k)) as [->|Hne].
    + rewrite upd_eq. destruct (Hold j Hj') as [->|(_ & -> & ?)]; [|lia]. intros Hn. specialize (M2 k j Hk Hj' Hn). lia.
    + rewrite upd_ne, Hoth by done. intros Hn. specialize (M2 k' j Hk' Hj' Hn). lia.
  - assert (Hfresh : ∀ k' j, 1 ≤ k' < freeinode s → 0 ≤ j ≤ MAXFILE → slot (img s) (f_ino (F k')) j ≠ freeblock s).
    { intros k' j Hk' Hj' E. destruct (M2 k' j Hk' Hj'); [rewrite E; change nmeta with 46 in *; lia | lia]. }
    intros k1 j1 k2 j2 H1 H2 H3 H4. destruct (decide (k1 = k)) as [->|N1], (decide (k2 = k)) as [->|N2];
      rewrite ?upd_eq; rewrite ?upd_ne by done; rewrite ?Hoth by done.
    + destruct (Hold j1 H2) as [->|(-> & -> & _)], (Hold j2 H4) as [->|(-> & -> & _)].
      * by apply M3.
      * intros E. by destruct (Hfresh k j1 Hk H2).
      * intros E. by destruct (Hfresh k j2 Hk H4).
      * done.
    + destruct (Hold j1 H2) as [->|(-> & -> & _)]; [by apply M3|]. intros E. by destruct (Hfresh k2 j2 H3 H4).
    + destruct (Hold j2 H4) as [->|(-> & -> & _)]; [by apply M3|]. intros E. by destruct (Hfresh k1 j1 H1 H2).
    + by apply M3.
  - intros b o Hb. rewrite HV by lia. apply M4. lia.
  - lia.
Qed.

(** ** Allocation, on one file *)

Ltac sizes := change MAXFILE with 268 in *; change NDIRECT with 12 in *; change BSIZE with 1024 in *.

(** A direct block, zero so far. *)
Lemma lay_direct V f b : lay V f → f_n f < NDIRECT → b ≠ 0 → (∀ o, V b o = 0) →
  let f' := Fl (iset_addr (f_n f) b (f_ino f)) (f_n f + 1) (f_d f) (f_c f) in
  lay V f' ∧ ∀ j, 0 ≤ j ≤ MAXFILE → slot V (f_ino f') j = if j =? f_n f then b else slot V (f_ino f) j.
Proof.
  intros [H1 [H2 H2'] H3 H4 H5 H6] Hn Hb Hz f'.
  assert (Ea : ∀ k, 0 ≤ k → addr_at (f_ino f') k = if k =? f_n f then b else addr_at (f_ino f) k).
  { intros k Hk. apply addr_at_set; [rewrite H1|]; sizes; lia. }
  assert (Ei : addr_at (f_ino f') NDIRECT = addr_at (f_ino f) NDIRECT).
  { rewrite Ea by done. by rewrite (proj2 (Z.eqb_neq _ _)) by lia. }
  assert (Ef : ∀ bn, 0 ≤ bn → faddr V (f_ino f') bn = if bn =? f_n f then b else faddr V (f_ino f) bn).
  { intros bn Hbn. unfold faddr. rewrite Ei. destruct (Z.ltb_spec bn NDIRECT); [by apply Ea|]. by rewrite (proj2 (Z.eqb_neq bn _)) by lia. }
  split; [split|]; try change (f_n f') with (f_n f + 1); try change (f_d f') with (f_d f); try change (f_c f') with (f_c f).
  - unfold f'. simpl. by rewrite length_insert.
  - split; [sizes; lia|]. intros ?. apply H2'. lia.
  - intros bn Hbn. rewrite Ef by lia. destruct (Z.eqb_spec bn (f_n f)); [lia|]. rewrite H3 by done. lia.
  - by rewrite Ei.
  - sizes; lia.
  - intros o Ho. unfold fbyte. pose proof (div_block o Ho). rewrite Ef by lia. rewrite <- H6 by done. unfold fbyte.
    destruct (Z.eqb_spec (o / BSIZE) (f_n f)) as [E|E]; [|done]. rewrite (proj2 (Z.eqb_neq b 0)) by done. rewrite Hz.
    rewrite E, (proj2 (H3 (f_n f) ltac:(sizes; lia))) by lia. done.
  - intros j Hj. unfold slot. rewrite Ei. destruct (Z.eqb_spec j MAXFILE) as [->|].
    + by rewrite (proj2 (Z.eqb_neq _ _)) by (sizes; lia).
    + apply Ef. lia.
Qed.

(** The indirect block, zero so far. *)
Lemma lay_indirect V f b : lay V f → f_d f = false → b ≠ 0 → (∀ o, V b o = 0) →
  let f' := Fl (iset_addr NDIRECT b (f_ino f)) (f_n f) true (f_c f) in
  lay V f' ∧ ∀ j, 0 ≤ j ≤ MAXFILE → slot V (f_ino f') j = if j =? MAXFILE then b else slot V (f_ino f) j.
Proof.
  intros [H1 [H2 H2'] H3 H4 H5 H6] Hd Hb Hz f'.
  assert (Ea : ∀ k, 0 ≤ k → addr_at (f_ino f') k = if k =? NDIRECT then b else addr_at (f_ino f) k).
  { intros k Hk. apply addr_at_set; [rewrite H1|]; sizes; lia. }
  assert (Ei : addr_at (f_ino f) NDIRECT = 0) by by apply H4.
  assert (Ef : ∀ bn, 0 ≤ bn → faddr V (f_ino f') bn = faddr V (f_ino f) bn).
  { intros bn Hbn. unfold faddr. rewrite !Ea by (done || sizes; lia). destruct (Z.ltb_spec bn NDIRECT).
    - by rewrite (proj2 (Z.eqb_neq _ _)) by lia.
    - rewrite Z.eqb_refl, (proj2 (Z.eqb_neq b 0)), Ei by done. simpl. apply load_le_zero. intros o _. by rewrite Hz. }
  split; [split|]; try change (f_n f') with (f_n f); try change (f_d f') with true; try change (f_c f') with (f_c f).
  - unfold f'. simpl. by rewrite length_insert.
  - done.
  - intros bn Hbn. rewrite Ef by lia. by apply H3.
  - rewrite Ea, Z.eqb_refl by done. done.
  - done.
  - intros o Ho. unfold fbyte. pose proof (div_block o Ho). rewrite Ef by lia. by apply H6.
  - intros j Hj. unfold slot. destruct (Z.eqb_spec j MAXFILE) as [->|]; [by rewrite Ea, Z.eqb_refl by done|]. apply Ef. lia.
Qed.

(** An entry of the indirect block. *)
Lemma lay_entry V f b x : lay V f → f_d f = true → NDIRECT ≤ f_n f < MAXFILE → 0 < b < 2 ^ 32 → (∀ o, V b o = 0) →
  x = addr_at (f_ino f) NDIRECT → x ≠ b → (∀ bn, 0 ≤ bn < MAXFILE → faddr V (f_ino f) bn ≠ 0 → faddr V (f_ino f) bn ≠ x) →
  let V' := upd V x (store32 (V x) (4 * (f_n f - NDIRECT)) b) in
  let f' := Fl (f_ino f) (f_n f + 1) true (f_c f) in
  lay V' f' ∧ ∀ j, 0 ≤ j ≤ MAXFILE → slot V' (f_ino f') j = if j =? f_n f then b else slot V (f_ino f) j.
Proof.
  intros [H1 [H2 H2'] H3 H4 H5 H6] Hd Hn Hb Hz Ex Hxb Hx V' f'.
  assert (Hx0 : x ≠ 0) by (rewrite Ex; intros E; apply H4 in E; congruence).
  assert (Ef : ∀ bn, 0 ≤ bn → faddr V' (f_ino f) bn = if bn =? f_n f then b else faddr V (f_ino f) bn).
  { intros bn Hbn. unfold faddr. rewrite <- Ex. destruct (Z.ltb_spec bn NDIRECT); [by rewrite (proj2 (Z.eqb_neq bn _)) by lia|].
    rewrite (proj2 (Z.eqb_neq x 0)) by done. unfold V'. rewrite upd_eq. destruct (Z.eqb_spec bn (f_n f)) as [->|Hne].
    - rewrite load32_store32. apply u32_small. lia.
    - apply load32_store32_ne. lia. }
  split; [split|]; try change (f_ino f') with (f_ino f); try change (f_n f') with (f_n f + 1); try change (f_d f') with true; try change (f_c f') with (f_c f).
  - done.
  - split; [lia | done].
  - intros bn Hbn. rewrite Ef by lia. destruct (Z.eqb_spec bn (f_n f)); [lia|]. rewrite H3 by done. lia.
  - by rewrite H4, Hd.
  - sizes; lia.
  - intros o Ho. unfold fbyte. pose proof (div_block o Ho) as Hb'. rewrite Ef by lia. rewrite <- H6 by done. unfold fbyte.
    destruct (Z.eqb_spec (o / BSIZE) (f_n f)) as [E|E].
    + rewrite (proj2 (Z.eqb_neq b 0)) by lia. unfold V'. rewrite upd_ne, Hz by done. rewrite E, (proj2 (H3 (f_n f) ltac:(lia))) by lia. done.
    + destruct (Z.eqb_spec (faddr V (f_ino f) (o / BSIZE)) 0); [done|]. unfold V'. by rewrite upd_ne by (apply Hx; done).
  - intros j Hj. unfold slot. destruct (Z.eqb_spec j MAXFILE) as [->|]; [by rewrite (proj2 (Z.eqb_neq _ _)) by lia|]. apply Ef. lia.
Qed.

Lemma cbyte_app c bs o : 0 ≤ o → cbyte (c ++ bs) o =
  if o <? Z.of_nat (length c) then cbyte c o else u8 (default 0 (bs !! Z.to_nat (o - Z.of_nat (length c)))).
Proof.
  intros Ho. unfold cbyte. destruct (Z.ltb_spec o (Z.of_nat (length c))).
  - by rewrite lookup_app_l by lia.
  - rewrite lookup_app_r by lia. by replace (Z.to_nat o - length c)%nat with (Z.to_nat (o - Z.of_nat (length c))) by lia.
Qed.

(** Bytes at the end of the contents. *)
Lemma lay_write V f bs bn x : lay V f → bn = Z.of_nat (length (f_c f)) / BSIZE → bn < f_n f →
  Z.of_nat (length (f_c f)) mod BSIZE + Z.of_nat (length bs) ≤ BSIZE → x = faddr V (f_ino f) bn → x ≠ addr_at (f_ino f) NDIRECT →
  (∀ bn', 0 ≤ bn' < MAXFILE → bn' ≠ bn → faddr V (f_ino f) bn' ≠ x) →
  let V' := upd V x (write_bytes (Z.of_nat (length (f_c f)) - bn * BSIZE) bs (V x)) in
  let f' := Fl (f_ino f) (f_n f) (f_d f) (f_c f ++ bs) in
  lay V' f' ∧ ∀ j, 0 ≤ j ≤ MAXFILE → slot V' (f_ino f') j = slot V (f_ino f) j.
Proof.
  intros [H1 [H2 H2'] H3 H4 H5 H6] Hbn Hn Hl Ex Hi Hx V' f'. set (off := Z.of_nat (length (f_c f))) in *.
  assert (Hbn' : 0 ≤ bn < MAXFILE) by (rewrite Hbn; sizes; lia).
  assert (Hx0 : x ≠ 0) by (rewrite Ex, H3 by done; lia).
  assert (Ef : ∀ b, faddr V' (f_ino f) b = faddr V (f_ino f) b).
  { intros b. unfold faddr. destruct (b <? NDIRECT); [done|]. destruct (_ =? 0); [done|]. unfold V'. by rewrite upd_ne by done. }
  split; [split|]; try change (f_ino f') with (f_ino f); try change (f_n f') with (f_n f); try change (f_d f') with (f_d f); try change (f_c f') with (f_c f ++ bs); try done.
  - intros b Hb. rewrite Ef. by apply H3.
  - rewrite length_app. fold off. sizes. lia.
  - intros o Ho. unfold fbyte. rewrite Ef. pose proof (div_block o Ho) as Hb. rewrite cbyte_app by lia. fold off. specialize (H6 o Ho). unfold fbyte in H6.
    destruct (decide (o / BSIZE = bn)) as [E|E].
    + rewrite E, <- Ex in *. rewrite (proj2 (Z.eqb_neq x 0)) in * by done. unfold V'. rewrite upd_eq, write_bytes_spec.
      assert (Eo : o mod BSIZE - (off - bn * BSIZE) = o - off) by (sizes; lia). rewrite Eo.
      assert (El : (off - bn * BSIZE <=? o mod BSIZE) = (off <=? o)).
      { destruct (Z.leb_spec off o); [apply Z.leb_le; lia | apply Z.leb_gt; lia]. }
      rewrite El. destruct (Z.ltb_spec o off).
      * rewrite (proj2 (Z.leb_gt off o)) by done. by destruct (bs !! _).
      * rewrite (proj2 (Z.leb_le off o)) by done. destruct (bs !! Z.to_nat (o - off)) as [y|]; simpl; [unfold u8; lia|].
        rewrite H6. unfold cbyte. by rewrite lookup_ge_None_2 by lia.
    + transitivity (cbyte (f_c f) o).
      * rewrite <- H6. destruct (Z.eqb_spec (faddr V (f_ino f) (o / BSIZE)) 0); [done|]. unfold V'. by rewrite upd_ne by (apply Hx; done).
      * destruct (Z.ltb_spec o off); [done|]. unfold cbyte. rewrite (lookup_ge_None_2 (f_c f)) by lia.
        rewrite lookup_ge_None_2; [done|]. sizes. lia.
  - intros j Hj. unfold slot. destruct (j =? MAXFILE); [done|]. apply Ef.
Qed.

(** ** Allocation, on the image *)

Lemma minv_ext s F F' : (∀ k, F' k = F k) → minv s F → minv s F'.
Proof. intros E [M1 M2 M3 M4 M5]. split; try done; intros *; rewrite ?E; auto. Qed.

Lemma upd_same {A} (F : Z → A) k j : upd F k (F k) j = F j.
Proof. destruct (decide (j = k)) as [->|]; [by rewrite upd_eq | by rewrite upd_ne]. Qed.

Lemma upd_upd {A} (F : Z → A) k x y j : upd (upd F k x) k y j = upd F k y j.
Proof. destruct (decide (j = k)) as [->|]; [by rewrite !upd_eq | by rewrite !upd_ne]. Qed.

Lemma slot_low s F k j : minv s F → 1 ≤ k < freeinode s → 0 ≤ j ≤ MAXFILE →
  slot (img s) (f_ino (F k)) j = 0 ∨ 46 ≤ slot (img s) (f_ino (F k)) j < freeblock s.
Proof. intros M Hk Hj. destruct (decide (slot (img s) (f_ino (F k)) j = 0)); [by left|]. right. by apply (mi_range _ _ M). Qed.

Lemma fresh_block s F : minv s F → freeblock s + 1 ≤ FSSIZE → 46 ≤ freeblock s < 2000 ∧ ∀ o, img s (freeblock s) o = 0.
Proof. intros M H. pose proof (mi_fb _ _ M) as [? _]. change nmeta with 46 in *. change FSSIZE with 2000 in *. split; [lia|]. intros o. apply (mi_zero _ _ M). change FSSIZE with 2000. lia. Qed.

(** The next free block, with image [V]. *)
Definition took (s : mk) (V : Z → bdata) : mk := Mk V (nsect s) (freeinode s) (freeblock s + 1).

Section Alloc.
Context (s : mk) (F : Z → fl) (k : Z) (M : minv s F) (Hk : 1 ≤ k < freeinode s) (Hroom : freeblock s + 1 ≤ FSSIZE).

Lemma take_direct : f_n (F k) < NDIRECT →
  minv (took s (img s)) (upd F k (Fl (iset_addr (f_n (F k)) (freeblock s) (f_ino (F k))) (f_n (F k) + 1) (f_d (F k)) (f_c (F k)))).
Proof.
  intros Hn. destruct (fresh_block s F M Hroom) as [Hb Hz]. pose proof (mi_lay _ _ M k Hk) as L.
  destruct (lay_direct (img s) (F k) (freeblock s) L Hn ltac:(lia) Hz) as [L' Hs].
  apply (advance s F k _ (img s) _ (-1)); try done; try lia.
  - intros k' j Hk' _ Hj. destruct (slot_low s F k' j M Hk' Hj); lia.
  - exists (f_n (F k)). intros j Hj. rewrite (Hs j Hj). destruct (j =? f_n (F k)); [right; lia | done].
Qed.

Lemma take_indirect : f_d (F k) = false →
  minv (took s (img s)) (upd F k (Fl (iset_addr NDIRECT (freeblock s) (f_ino (F k))) (f_n (F k)) true (f_c (F k)))).
Proof.
  intros Hn. destruct (fresh_block s F M Hroom) as [Hb Hz]. pose proof (mi_lay _ _ M k Hk) as L.
  destruct (lay_indirect (img s) (F k) (freeblock s) L Hn ltac:(lia) Hz) as [L' Hs].
  apply (advance s F k _ (img s) _ (-1)); try done; try lia.
  - intros k' j Hk' _ Hj. destruct (slot_low s F k' j M Hk' Hj); lia.
  - exists MAXFILE. intros j Hj. rewrite (Hs j Hj). destruct (j =? MAXFILE); [right; lia | done].
Qed.

Lemma take_entry x : f_d (F k) = true → NDIRECT ≤ f_n (F k) < MAXFILE → x = addr_at (f_ino (F k)) NDIRECT →
  let V' := upd (img s) x (store32 (img s x) (4 * (f_n (F k) - NDIRECT)) (freeblock s)) in
  minv (took s V') (upd F k (Fl (f_ino (F k)) (f_n (F k) + 1) true (f_c (F k)))) ∧ faddr V' (f_ino (F k)) (f_n (F k)) = freeblock s.
Proof.
  intros Hd Hn Ex V'. destruct (fresh_block s F M Hroom) as [Hb Hz]. pose proof (mi_lay _ _ M k Hk) as L.
  assert (Hm : 0 ≤ MAXFILE ≤ MAXFILE) by done.
  assert (Hx0 : x ≠ 0) by (rewrite Ex; intros E; apply (l_ind _ _ L) in E; congruence).
  assert (Hx : 46 ≤ x < freeblock s) by (rewrite Ex, <- (slot_ind (img s)); destruct (slot_low s F k MAXFILE M Hk Hm) as [E|]; [rewrite slot_ind in E; lia | done]).
  destruct (lay_entry (img s) (F k) (freeblock s) x L Hd Hn ltac:(lia) Hz Ex ltac:(lia)) as [L' Hs].
  { intros bn Hbn H0 E. rewrite <- slot_data in H0, E by lia. rewrite Ex, <- (slot_ind (img s)) in E.
    destruct (mi_inj _ _ M k bn k MAXFILE Hk ltac:(lia) Hk Hm E H0). lia. }
  fold V' in L', Hs. split.
  - apply (advance s F k _ V' _ x); try done; try lia.
    + intros b Hne. by apply upd_ne.
    + intros k' j Hk' Hne Hj E. rewrite Ex, <- (slot_ind (img s)) in E.
      destruct (mi_inj _ _ M k' j k MAXFILE Hk' Hj Hk Hm E) as [? _]; [rewrite E, slot_ind, <- Ex; done | done].
    + exists (f_n (F k)). intros j Hj. cbn [f_ino] in Hs |- *. rewrite (Hs j Hj). destruct (j =? f_n (F k)); [right; lia | done].
  - specialize (Hs (f_n (F k)) ltac:(sizes; lia)). rewrite Z.eqb_refl, slot_data in Hs by lia. done.
Qed.
End Alloc.

Lemma put_end s F k bs bn : minv s F → 1 ≤ k < freeinode s → bn = Z.of_nat (length (f_c (F k))) / BSIZE → bn < f_n (F k) →
  Z.of_nat (length (f_c (F k))) mod BSIZE + Z.of_nat (length bs) ≤ BSIZE →
  let x := faddr (img s) (f_ino (F k)) bn in
  minv (Mk (upd (img s) x (write_bytes (Z.of_nat (length (f_c (F k))) - bn * BSIZE) bs (img s x))) (nsect s) (freeinode s) (freeblock s))
    (upd F k (Fl (f_ino (F k)) (f_n (F k)) (f_d (F k)) (f_c (F k) ++ bs))) ∧ 46 ≤ x < freeblock s.
Proof.
  intros M Hk Hbn Hn Hl x. pose proof (mi_lay _ _ M k Hk) as L. pose proof (l_n _ _ L) as [Hnn _].
  assert (Hb : 0 ≤ bn < MAXFILE) by (rewrite Hbn in *; sizes; lia).
  assert (Es : x = slot (img s) (f_ino (F k)) bn) by (unfold x; by rewrite slot_data by lia).
  assert (Hx0 : slot (img s) (f_ino (F k)) bn ≠ 0) by (rewrite <- Es; intros E; apply (l_data _ _ L) in E; [lia | done]).
  assert (Hx : 46 ≤ x < freeblock s) by (rewrite Es; destruct (slot_low s F k bn M Hk ltac:(lia)); [done | lia]).
  destruct (lay_write (img s) (F k) bs bn x L Hbn Hn Hl eq_refl) as [L' Hs].
  - rewrite Es, <- (slot_ind (img s)). intros E. destruct (mi_inj _ _ M k bn k MAXFILE Hk ltac:(lia) Hk ltac:(done) E Hx0). lia.
  - intros bn' Hb' Hne E. rewrite <- slot_data in E by lia. rewrite Es in E. symmetry in E.
    destruct (mi_inj _ _ M k bn k bn' Hk ltac:(lia) Hk ltac:(lia) E Hx0). lia.
  - split; [|done]. apply (advance s F k _ _ _ x); try done; try lia.
    + intros b Hne. by apply upd_ne.
    + intros k' j Hk' Hne Hj E. rewrite Es in E. destruct (mi_inj _ _ M k bn k' j Hk ltac:(lia) Hk' Hj (eq_sym E) Hx0). congruence.
    + pose proof (mi_fb _ _ M). lia.
    + exists 0. intros j Hj. rewrite (Hs j Hj). destruct (j =? 0); [by left | done].
Qed.

(** ** Appending *)

(** The blocks a file with [n] data blocks takes. *)
Definition nblk (n : Z) : Z := n + (if NDIRECT <? n then 1 else 0).
Definition nb (len : Z) : Z := (len + BSIZE - 1) / BSIZE.

Definition with_addrs (i : inode) (l : list Z) : inode :=
  Inode (i_dev i) (i_inum i) (i_ref i) (i_lock i) (i_valid i) (i_type i) (i_major i) (i_minor i) (i_nlink i) (i_size i) l.

(** What work on the blocks of a file leaves alone. *)
Definition low_same (s s' : mk) : Prop := freeinode s' = freeinode s ∧ ∀ b, b < nmeta → img s' b = img s b.

Lemma low_trans s1 s2 s3 : low_same s1 s2 → low_same s2 s3 → low_same s1 s3.
Proof. intros [E1 H1] [E2 H2]. split; [congruence|]. intros b Hb. by rewrite H2, H1. Qed.

Lemma rsect_wp x s Q : x < nsect s → Q (img s x) s → wp (rsect x) s Q.
Proof. intros H HQ. unfold rsect. wp_steps. rewrite (proj2 (Z.ltb_lt _ _)) by done. by wp_steps. Qed.

Lemma wsect_wp x d s Q : Q tt (Mk (upd (img s) x d) (Z.max (nsect s) (x + 1)) (freeinode s) (freeblock s)) → wp (wsect x d) s Q.
Proof. done. Qed.

Lemma next_block_wp s F Q : minv s F → freeblock s + 1 ≤ FSSIZE → Q (freeblock s) (took s (img s)) → wp next_block s Q.
Proof.
  intros M H HQ. destruct (fresh_block s F M H) as [Hb _]. unfold next_block. wp_steps. unfold took in HQ. by rewrite u32_small by lia.
Qed.

(** The state and the file after the block for [fbn] is there. *)
Record ensured (s : mk) (F : Z → fl) (k fbn : Z) (r : inode * Z) (s' : mk) (f' : fl) : Prop := Ensured {
  en_ret : r = (f_ino f', faddr (img s') (f_ino f') fbn);
  en_inv : minv s' (upd F k f');
  en_c : f_c f' = f_c (F k);
  en_n : f_n f' = Z.max (f_n (F k)) (fbn + 1);
  en_d : f_d f' = (NDIRECT <? f_n f');
  en_fb : freeblock s' = freeblock s + nblk (f_n f') - nblk (f_n (F k));
  en_low : low_same s s';
  en_meta : ∃ l, f_ino f' = with_addrs (f_ino (F k)) l;
}.

Lemma meta_self i : ∃ l, i = with_addrs i l.
Proof. exists (i_addrs i). by destruct i. Qed.

(** The second half of [indirect]: the entry for [fbn]. *)
Lemma entry_wp s F k fbn : minv s F → 1 ≤ k < freeinode s → NDIRECT ≤ fbn < MAXFILE → fbn ≤ f_n (F k) → f_d (F k) = true →
  (fbn = f_n (F k) → freeblock s + 1 ≤ FSSIZE) →
  wp (ind ← rsect (xint (addr_at (f_ino (F k)) NDIRECT));
      ind ← (if load32 ind (4 * (fbn - NDIRECT)) =? 0 then
               b ← next_block;
               wsect (xint (addr_at (f_ino (F k)) NDIRECT)) (store32 ind (4 * (fbn - NDIRECT)) (xint b));;
               mret (store32 ind (4 * (fbn - NDIRECT)) (xint b))
             else mret ind);
      mret (f_ino (F k), xint (load32 ind (4 * (fbn - NDIRECT))))) s
    (λ r s', ∃ f', r = (f_ino f', faddr (img s') (f_ino f') fbn) ∧ minv s' (upd F k f') ∧ f_c f' = f_c (F k) ∧
      f_n f' = Z.max (f_n (F k)) (fbn + 1) ∧ f_d f' = true ∧ f_ino f' = f_ino (F k) ∧
      freeblock s' = freeblock s + f_n f' - f_n (F k) ∧ low_same s s').
Proof.
  intros M Hk Hb Hn Hd Hroom. pose proof (mi_lay _ _ M k Hk) as L. pose proof (mi_fb _ _ M) as [Hfb Hns]. change FSSIZE with 2000 in *.
  set (x := addr_at (f_ino (F k)) NDIRECT) in *.
  assert (Hx0 : x ≠ 0) by (intros E; apply (l_ind _ _ L) in E; congruence).
  assert (Hx : 46 ≤ x < freeblock s) by (unfold x; rewrite <- (slot_ind (img s)); destruct (slot_low s F k MAXFILE M Hk ltac:(done)); [done | lia]).
  assert (Ef : ∀ V, faddr V (f_ino (F k)) fbn = load32 (V x) (4 * (fbn - NDIRECT))).
  { intros V. unfold faddr. rewrite (proj2 (Z.ltb_ge _ _)) by lia. fold x. by rewrite (proj2 (Z.eqb_neq x 0)). }
  rewrite (xint_small x) by lia. apply wp_bind, rsect_wp; [lia|]. apply wp_bind. rewrite <- Ef.
  destruct (Z.eqb_spec (faddr (img s) (f_ino (F k)) fbn) 0) as [E|E].
  - apply (l_data _ _ L) in E; [|sizes; lia]. assert (En : fbn = f_n (F k)) by lia. specialize (Hroom En).
    destruct (fresh_block s F M Hroom) as [Hf _].
    apply wp_bind. apply (next_block_wp s F); [done | done|]. apply wp_bind, wsect_wp, wp_ret, wp_ret.
    rewrite (xint_small (freeblock s)) by lia. unfold took. cbn [img nsect freeinode freeblock].
    destruct (take_entry s F k M Hk Hroom x Hd ltac:(lia) eq_refl) as [M' Ea]. cbv zeta in M', Ea. rewrite <- En in M', Ea.
    exists (Fl (f_ino (F k)) (fbn + 1) true (f_c (F k))). cbn [f_ino f_n f_d f_c]. rewrite load32_store32, u32_small, xint_small by lia.
    split; [by rewrite Ea|]. split; [unfold took in M'; by rewrite Z.max_l by lia|]. split; [done|]. split; [lia|]. split; [done|]. split; [done|].
    split; [lia|]. split; [done|]. intros b Hlt. cbn [img]. change nmeta with 46 in Hlt. by rewrite upd_ne by lia.
  - apply wp_ret, wp_ret. rewrite <- Ef.
    assert (Hlt : fbn < f_n (F k)).
    { destruct (decide (fbn < f_n (F k))); [done|]. destruct E. apply (l_data _ _ L); [sizes; lia | lia]. }
    exists (F k). split; [|split; [by apply (minv_ext s F); [intros j; apply upd_same|]|]].
    + f_equal. apply xint_small. rewrite <- slot_data by lia. destruct (slot_low s F k fbn M Hk ltac:(sizes; lia)); lia.
    + split; [done|]. split; [lia|]. split; [done|]. split; [done|]. split; [lia | done].
Qed.

Lemma ensured_old s F k fbn : minv s F → fbn < f_n (F k) → f_d (F k) = (NDIRECT <? f_n (F k)) →
  ensured s F k fbn (f_ino (F k), faddr (img s) (f_ino (F k)) fbn) s (F k).
Proof.
  intros M Hn Hd. split; try done; try lia.
  - by apply (minv_ext s F); [intros j; apply upd_same|].
  - apply meta_self.
Qed.

Section Ensure.
Context (s : mk) (F : Z → fl) (k fbn : Z) (M : minv s F) (Hk : 1 ≤ k < freeinode s) (Hb : 0 ≤ fbn < MAXFILE) (Hn : fbn ≤ f_n (F k)).
Context (Hd : f_d (F k) = (NDIRECT <? f_n (F k))).
Context (Hroom : fbn = f_n (F k) → freeblock s + nblk (fbn + 1) - nblk fbn ≤ FSSIZE).

Lemma slot_word j : 0 ≤ j ≤ MAXFILE → xint (slot (img s) (f_ino (F k)) j) = slot (img s) (f_ino (F k)) j.
Proof. intros Hj. apply xint_small. pose proof (mi_fb _ _ M). change FSSIZE with 2000 in *. destruct (slot_low s F k j M Hk Hj); lia. Qed.

Lemma direct_wp : fbn < NDIRECT → wp (direct fbn (f_ino (F k))) s (λ r s', ∃ f', ensured s F k fbn r s' f').
Proof.
  intros Hlt. pose proof (mi_lay _ _ M k Hk) as L. assert (Ea : ∀ V i, addr_at i fbn = faddr V i fbn) by (intros V i; unfold faddr; by rewrite (proj2 (Z.ltb_lt _ _))).
  pose proof (slot_word fbn ltac:(lia)) as Ew. rewrite slot_data in Ew by lia. unfold direct. apply wp_bind.
  rewrite (Ea (img s)), Ew. destruct (Z.eqb_spec (faddr (img s) (f_ino (F k)) fbn) 0) as [E|E].
  - apply (l_data _ _ L) in E; [|done]. assert (En : fbn = f_n (F k)) by lia. specialize (Hroom En).
    assert (Ek : nblk (fbn + 1) - nblk fbn = 1).
    { unfold nblk. rewrite !(proj2 (Z.ltb_ge _ _)) by lia. lia. }
    apply wp_bind. apply (next_block_wp s F); [done | lia|]. apply wp_ret. apply wp_ret.
    destruct (fresh_block s F M ltac:(lia)) as [Hfb _].
    assert (Ef : addr_at (iset_addr fbn (freeblock s) (f_ino (F k))) fbn = freeblock s).
    { rewrite addr_at_set, Z.eqb_refl; [done | rewrite (l_len _ _ L); sizes; lia | lia]. }
    rewrite (xint_small (freeblock s)), Ef, xint_small by lia.
    exists (Fl (iset_addr fbn (freeblock s) (f_ino (F k))) (f_n (F k) + 1) (f_d (F k)) (f_c (F k))).
    split; cbn [f_ino f_n f_d f_c].
    + rewrite <- (Ea (img (took s (img s)))), Ef. done.
    + rewrite En. apply take_direct; [done | done | lia | lia].
    + done.
    + lia.
    + rewrite Hd. destruct (Z.ltb_spec NDIRECT (f_n (F k))), (Z.ltb_spec NDIRECT (f_n (F k) + 1)); lia || done.
    + simpl. rewrite <- En. lia.
    + done.
    + by eexists.
  - apply wp_ret. apply wp_ret. rewrite (Ea (img s)), Ew. exists (F k). apply ensured_old; [done | | done].
    destruct (decide (fbn < f_n (F k))); [done|]. destruct E. apply (l_data _ _ L); [done | lia].
Qed.

Lemma indirect_wp : NDIRECT ≤ fbn → wp (indirect fbn (f_ino (F k))) s (λ r s', ∃ f', ensured s F k fbn r s' f').
Proof.
  intros Hge. pose proof (mi_lay _ _ M k Hk) as L. pose proof (slot_word MAXFILE ltac:(done)) as Ew. rewrite slot_ind in Ew.
  unfold indirect. apply wp_bind. rewrite Ew. destruct (Z.eqb_spec (addr_at (f_ino (F k)) NDIRECT) 0) as [E|E].
  - apply (l_ind _ _ L) in E. rewrite E in Hd. symmetry in Hd. apply Z.ltb_ge in Hd. assert (En : fbn = 12 ∧ f_n (F k) = 12) by (sizes; lia).
    destruct En as [En1 En2]. specialize (Hroom ltac:(lia)). rewrite En1 in Hroom. change (nblk (12 + 1) - nblk 12) with 2 in Hroom.
    assert (Hr2 : freeblock s + 2 ≤ FSSIZE) by (change (nblk (12 + 1)) with 14 in Hroom; change (nblk 12) with 12 in Hroom; lia).
    destruct (fresh_block s F M ltac:(lia)) as [Hf _].
    apply wp_bind. apply (next_block_wp s F); [done | lia|]. apply wp_ret. rewrite (xint_small (freeblock s)) by lia.
    set (f1 := Fl (iset_addr NDIRECT (freeblock s) (f_ino (F k))) (f_n (F k)) true (f_c (F k))).
    pose proof (take_indirect s F k M Hk ltac:(lia) E) as M1. fold f1 in M1.
    eapply wp_mono; [pose proof (entry_wp (took s (img s)) (upd F k f1) k fbn M1 Hk) as W; rewrite upd_eq in W; apply W; [sizes; lia | simpl; lia | done | simpl; lia]|].
    intros r s' (f' & Er & M' & Ec & En & Ed & Ei & Efb & El). exists f'. cbn [f1 f_n f_c f_ino] in *. split; try done.
    + eapply minv_ext; [|exact M']. intros j. symmetry. apply upd_upd.
    + rewrite Ed, En, En1, En2. done.
    + rewrite Efb, En, En1, En2. simpl. unfold nblk. simpl. lia.
    + rewrite Ei. by eexists.
  - apply wp_ret. assert (Ed : f_d (F k) = true) by (destruct (f_d (F k)) eqn:Ed; [done|]; destruct E; by apply (l_ind _ _ L)).
    eapply wp_mono; [apply entry_wp; [done | done | lia | done | done|]|].
    { intros En. specialize (Hroom En). unfold nblk in Hroom. destruct (Z.ltb_spec NDIRECT (fbn + 1)), (Z.ltb_spec NDIRECT fbn); lia. }
    intros r s' (f' & Er & M' & Ec & En & Ed' & Ei & Efb & El). exists f'. rewrite Ed in Hd. symmetry in Hd. apply Z.ltb_lt in Hd. split; try done.
    + rewrite Ed'. symmetry. apply Z.ltb_lt. lia.
    + rewrite Efb. unfold nblk. rewrite !(proj2 (Z.ltb_lt _ _)) by lia. lia.
    + rewrite Ei. apply meta_self.
Qed.

Lemma ensure_wp : wp (if fbn <? NDIRECT then direct fbn (f_ino (F k)) else indirect fbn (f_ino (F k))) s (λ r s', ∃ f', ensured s F k fbn r s' f').
Proof. destruct (Z.ltb_spec fbn NDIRECT); [by apply direct_wp | by apply indirect_wp]. Qed.
End Ensure.

Lemma nblk_mono n n' : n ≤ n' → nblk n ≤ nblk n'.
Proof. intros H. unfold nblk. destruct (Z.ltb_spec NDIRECT n), (Z.ltb_spec NDIRECT n'); lia. Qed.

(** A file between two calls of [iappend]: no block more than its contents need. *)
Definition tight (f : fl) : Prop := f_n f = nb (Z.of_nat (length (f_c f))) ∧ f_d f = (NDIRECT <? f_n f).

(** The file after [p] has been appended. *)
Record appended (s : mk) (F : Z → fl) (k : Z) (p : list Z) (s' : mk) (f' : fl) : Prop := Appended {
  ap_inv : minv s' (upd F k f');
  ap_c : f_c f' = f_c (F k) ++ p;
  ap_tight : tight f';
  ap_fb : freeblock s' = freeblock s + nblk (f_n f') - nblk (f_n (F k));
  ap_low : low_same s s';
  ap_meta : ∃ l, f_ino f' = with_addrs (f_ino (F k)) l;
}.

Lemma appended_nil s F k : minv s F → tight (F k) → appended s F k [] s (F k).
Proof.
  intros M T. split; [|by rewrite app_nil_r | done | lia | done | apply meta_self].
  by apply (minv_ext s F); [intros j; apply upd_same|].
Qed.

Lemma iappend_loop_wp fuel s F k p : (length p <= fuel)%nat → minv s F → 1 ≤ k < freeinode s → tight (F k) →
  Z.of_nat (length (f_c (F k))) + Z.of_nat (length p) ≤ MAXFILE * BSIZE →
  freeblock s + nblk (nb (Z.of_nat (length (f_c (F k))) + Z.of_nat (length p))) - nblk (f_n (F k)) ≤ FSSIZE →
  wp (iappend_loop fuel (f_ino (F k)) (Z.of_nat (length (f_c (F k)))) p) s (λ r s', ∃ f',
    r = (f_ino f', Z.of_nat (length (f_c (F k))) + Z.of_nat (length p)) ∧ appended s F k p s' f').
Proof.
  revert s F p. induction fuel as [|fuel IH]; intros s F p Hp M Hk [Tn Td] Hmax Hroom.
  { destruct p; [|simpl in Hp; lia]. apply wp_ret. exists (F k). split; [f_equal; simpl; lia | by apply appended_nil]. }
  destruct p as [|y p']; [apply wp_ret; exists (F k); split; [f_equal; simpl; lia | by apply appended_nil]|].
  cbn [iappend_loop]. set (p := y :: p') in *. set (off := Z.of_nat (length (f_c (F k)))) in *. assert (Hl : 0 < Z.of_nat (length p)) by (unfold p; simpl; lia).
  set (fbn := off / BSIZE). assert (Hfbn : 0 ≤ fbn < MAXFILE) by (unfold fbn; sizes; lia).
  assert (Hnb : fbn ≤ nb off ≤ fbn + 1) by (unfold fbn, nb; sizes; lia).
  apply wp_bind. unfold assert. rewrite (proj2 (Z.ltb_lt _ _)) by lia. apply wp_ret. apply wp_bind.
  eapply wp_mono; [apply (ensure_wp s F k fbn M Hk Hfbn); [lia | done|]|].
  { intros E. rewrite Tn in E. pose proof (nblk_mono (fbn + 1) (nb (off + Z.of_nat (length p)))) as Hm. rewrite Tn, <- E in Hroom.
    assert (fbn + 1 ≤ nb (off + Z.of_nat (length p))) by (rewrite E; unfold nb in *; sizes; lia). lia. }
  intros r s1 (f1 & [Er M1 Ec En Ed Efb El Em]). rewrite Er. cbn [fst snd].
  assert (En1 : f_n f1 = fbn + 1) by lia.
  set (n1 := Z.min (Z.of_nat (length p)) ((fbn + 1) * BSIZE - off)). assert (Hn1 : 0 < n1 ≤ Z.of_nat (length p)) by (unfold n1, fbn; sizes; lia).
  assert (Hlt : Z.of_nat (length (take (Z.to_nat n1) p)) = n1) by (rewrite length_take; lia).
  assert (Hk1 : 1 ≤ k < freeinode s1) by (destruct El as [-> _]; done).
  pose proof (put_end s1 (upd F k f1) k (take (Z.to_nat n1) p) fbn M1 Hk1) as W. rewrite upd_eq, Ec in W. fold off in W.
  destruct W as [M2 Hx]; [done | lia | rewrite Hlt; unfold n1, fbn; sizes; lia|]. set (x := faddr (img s1) (f_ino f1) fbn) in *.
  pose proof (mi_fb _ _ M1) as [Hfb Hns]. apply wp_bind, rsect_wp; [lia|]. apply wp_bind, wsect_wp.
  replace (Z.max (nsect s1) (x + 1)) with (nsect s1) by lia. set (s2 := Mk _ _ _ _) in *.
  set (f2 := Fl (f_ino f1) (f_n f1) (f_d f1) (f_c (F k) ++ take (Z.to_nat n1) p)) in *. set (F2 := upd (upd F k f1) k f2) in *.
  assert (E2 : F2 k = f2) by apply upd_eq.
  assert (Ho : Z.of_nat (length (f_c f2)) = off + n1) by (cbn [f2 f_c]; rewrite length_app, Nat2Z.inj_add, Hlt; done).
  assert (Hd : Z.of_nat (length (drop (Z.to_nat n1) p)) = Z.of_nat (length p) - n1) by (rewrite length_drop; lia).
  assert (T2 : tight f2).
  { split; [rewrite Ho; cbn [f2 f_n]; rewrite En1; unfold n1, fbn, nb; sizes; lia | cbn [f2 f_d f_n]; done]. }
  pose proof (IH s2 F2 (drop (Z.to_nat n1) p)) as W. rewrite E2, Ho in W. cbn [f2 f_ino f_n] in W.
  eapply wp_mono; [apply W; [lia | done | done | done | lia|]|].
  - replace (off + n1 + Z.of_nat (length (drop (Z.to_nat n1) p))) with (off + Z.of_nat (length p)) by lia. cbn [s2 freeblock]. rewrite Efb. lia.
  - intros r' s' (f' & Er' & [A1 A2 A3 A4 A5 A6]). rewrite E2 in A2, A4, A6. cbn [f2 f_c f_n f_ino s2 freeblock] in A2, A4, A6.
    exists f'. split; [rewrite Er'; f_equal; lia|]. split.
    + eapply minv_ext; [|exact A1]. intros j. unfold F2. by rewrite !upd_upd.
    + by rewrite A2, <- app_assoc, take_drop.
    + done.
    + rewrite A4, Efb. lia.
    + eapply low_trans; [exact El|]. eapply low_trans; [|exact A5]. split; [done|]. intros b Hb. cbn [s2 img]. rewrite upd_ne by (change nmeta with 46 in Hb; lia). done.
    + destruct Em as [l Em], A6 as [l' A6]. exists l'. by rewrite A6, Em.
Qed.
