(* ===== verification/MkfsSpec.v ===== *)
(** * The image mkfs makes is a file system (mkfs/mkfs.c against kernel/fs.c)

    Every file is on the image with its bytes, in blocks of its own that the bitmap marks,
    and the root directory has its entry: the invariants under which the kernel's file
    system is proved correct hold of the first disk it sees. *)

From Stdlib Require Import FunctionalExtensionality.
From stdpp Require Import base numbers list strings.
From S2P Require Import Prelude Str Layout Kalloc Vm Bio BioProofs BioSpec BioView Log LogProofs LogSpec LogOps Block Fs Dir FsAlloc FsFile FsInode FsRw Txn FsSpec DirSpec Mkfs MkfsFile.
Local Open Scope Z_scope.

(** ** Inodes on the image *)

(** What [rinode] reads. *)
Definition dn (V : Z → bdata) (k : Z) : inode := read_dinode (V (IBLOCK k mksb)) (islot k) inode0.

Lemma read_dinode_ext d d' a i : (∀ o, 0 ≤ o < 64 → d' (a + o) = d (a + o)) → read_dinode d' a i = read_dinode d a i.
Proof.
  intros H. assert (E : ∀ x n, a ≤ x → x + Z.of_nat n ≤ a + 64 → load_le d' x n = load_le d x n).
  { intros x n Hx Hn. apply load_le_ext. intros b Hb. replace b with (a + (b - a)) by lia. apply H. lia. }
  unfold read_dinode, dinode_type, dinode_addrs, load16, load32. rewrite !E by lia. f_equal.
  apply list_fmap_ext. intros j x Hj. apply lookup_seq in Hj as [-> Hj]. apply E; simpl; lia.
Qed.

(** The fields a dinode does not have. *)
Definition bare (i : inode) : Prop := ∃ t a b n z l, i = Inode 0 0 0 (SleepLock 0 0) 0 t a b n z l.

Lemma read_bare d a i : bare i → read_dinode d a inode0 = read_dinode d a i.
Proof. by intros (t & a' & b & n & z & l & ->). Qed.

Lemma dn_bare V k : bare (dn V k).
Proof. unfold dn, read_dinode, bare. simpl. by repeat eexists. Qed.

Lemma iblock_range k : 0 ≤ k < 208 → 32 ≤ IBLOCK k mksb < 45.
Proof. intros H. unfold IBLOCK. change IPB with 16. change (sb_inodestart mksb) with 32. lia. Qed.

(** Inodes share blocks, not bytes. *)
Lemma islot_apart k k' o : 0 ≤ k < 208 → 0 ≤ k' < 208 → k ≠ k' → IBLOCK k mksb = IBLOCK k' mksb → 0 ≤ o < 64 →
  islot k' + o < islot k ∨ islot k + 64 ≤ islot k' + o.
Proof. unfold IBLOCK, islot, sizeof_dinode. change IPB with 16. lia. Qed.

(** The image after [winode]. *)
Definition wi (V : Z → bdata) (k : Z) (i : inode) : Z → bdata :=
  upd V (IBLOCK k mksb) (write_dinode i (islot k) (V (IBLOCK k mksb))).

Lemma wi_self V k i : inode_typed i → bare i → dn (wi V k i) k = i.
Proof. intros T B. unfold dn, wi. rewrite upd_eq, (read_bare _ _ i) by done. by apply dinode_roundtrip. Qed.

Lemma wi_bytes V k i k' o : length (i_addrs i) = 13%nat → 0 ≤ k < 208 → 0 ≤ k' < 208 → k ≠ k' → 0 ≤ o < 64 →
  wi V k i (IBLOCK k' mksb) (islot k' + o) = V (IBLOCK k' mksb) (islot k' + o).
Proof.
  intros Hl Hk Hk' Hne Ho. unfold wi. destruct (decide (IBLOCK k' mksb = IBLOCK k mksb)) as [E|E]; [|by rewrite upd_ne].
  rewrite E, upd_eq. apply write_dinode_out; [done|]. unfold sizeof_dinode. apply islot_apart; done.
Qed.

Lemma wi_other V k i k' : length (i_addrs i) = 13%nat → 0 ≤ k < 208 → 0 ≤ k' < 208 → k ≠ k' → dn (wi V k i) k' = dn V k'.
Proof. intros Hl Hk Hk' Hne. apply read_dinode_ext. intros o Ho. by apply wi_bytes. Qed.

Lemma winode_wp k i s Q : nsect s = FSSIZE → 0 ≤ k < 208 →
  Q tt (Mk (wi (img s) k i) (nsect s) (freeinode s) (freeblock s)) → wp (winode k i) s Q.
Proof.
  intros Hn Hk HQ. pose proof (iblock_range k Hk). change FSSIZE with 2000 in Hn. unfold winode. apply wp_bind, rsect_wp; [lia|].
  apply wsect_wp. replace (Z.max (nsect s) (IBLOCK k mksb + 1)) with (nsect s) by lia. exact HQ.
Qed.

Lemma rinode_wp k s Q : nsect s = FSSIZE → 0 ≤ k < 208 → Q (dn (img s) k) s → wp (rinode k) s Q.
Proof.
  intros Hn Hk HQ. pose proof (iblock_range k Hk). change FSSIZE with 2000 in Hn. unfold rinode. apply wp_bind, rsect_wp; [lia|]. by apply wp_ret.
Qed.

(** ** The image between two operations *)

(** The inode of a file of [type]. *)
Definition plain_ino (t : Z) (i : inode) : Prop := i_type i = t ∧ i_major i = 0 ∧ i_minor i = 0 ∧ i_nlink i = 1.

Record wf (s : mk) (F : Z → fl) : Prop := Wf {
  wf_inv : minv s F;
  wf_fi : 1 ≤ freeinode s ≤ 200;
  wf_disk : ∀ k, 1 ≤ k < freeinode s → f_ino (F k) = dn (img s) k;
  wf_tight : ∀ k, 1 ≤ k < freeinode s → tight (F k) ∧ i_size (f_ino (F k)) = Z.of_nat (length (f_c (F k)));
  wf_sb : img s 1 = sb_block;
  wf_zero : ∀ b o, b = 0 ∨ 2 ≤ b < 32 ∨ b = 45 → img s b o = 0;
  wf_free : ∀ k o, freeinode s ≤ k < 208 → 0 ≤ o < 64 → img s (IBLOCK k mksb) (islot k + o) = 0;
}.

Lemma lay_size V f z : lay V f → lay V (Fl (iset_size z (f_ino f)) (f_n f) (f_d f) (f_c f)).
Proof. intros [H1 H2 H3 H4 H5 H6]. split; assumption. Qed.

Lemma file_addrs s F k : minv s F → 1 ≤ k < freeinode s → Forall (λ a, 0 ≤ a < 2 ^ 32) (i_addrs (f_ino (F k))).
Proof.
  intros M Hk. pose proof (mi_lay _ _ M k Hk) as L. pose proof (mi_fb _ _ M) as [Hfb _]. change FSSIZE with 2000 in Hfb.
  apply Forall_lookup. intros j x Hj. pose proof (lookup_lt_Some _ _ _ Hj) as Hl. rewrite (l_len _ _ L) in Hl.
  assert (Ea : addr_at (f_ino (F k)) (Z.of_nat j) = x) by (unfold addr_at; by rewrite Nat2Z.id, Hj).
  assert (Hs : ∃ j', 0 ≤ j' ≤ MAXFILE ∧ slot (img s) (f_ino (F k)) j' = x).
  { destruct (decide (Z.of_nat j = NDIRECT)) as [E|E]; [exists MAXFILE; by rewrite slot_ind, <- E|].
    exists (Z.of_nat j). split; [sizes; lia|]. rewrite slot_data by (sizes; lia). unfold faddr. by rewrite (proj2 (Z.ltb_lt _ _)) by (sizes; lia). }
  destruct Hs as (j' & Hj' & <-). destruct (slot_low s F k j' M Hk Hj'); lia.
Qed.

Lemma file_typed s F k t : minv s F → 1 ≤ k < freeinode s → plain_ino t (f_ino (F k)) → 0 < t < 4 →
  0 ≤ i_size (f_ino (F k)) < 2 ^ 32 → inode_typed (f_ino (F k)).
Proof.
  intros M Hk (E1 & E2 & E3 & E4) Ht Hz.
  split; [lia | lia | lia | lia | done | apply (mi_lay _ _ M k Hk) | by apply (file_addrs s)].
Qed.

(** A change outside the data blocks. *)
Lemma minv_low s F V : minv s F → (∃ x, x < 46 ∧ x ≠ 0 ∧ ∀ b, b ≠ x → V b = img s b) → minv (Mk V (nsect s) (freeinode s) (freeblock s)) F.
Proof.
  intros M (x & Hx & Hx0 & HV). assert (Hn : ∀ k, 1 ≤ k < freeinode s → ∀ j, 0 ≤ j ≤ MAXFILE → slot (img s) (f_ino (F k)) j ≠ x).
  { intros k Hk j Hj. destruct (slot_low s F k j M Hk Hj); lia. }
  assert (Es : ∀ k j, 1 ≤ k < freeinode s → 0 ≤ j ≤ MAXFILE → slot V (f_ino (F k)) j = slot (img s) (f_ino (F k)) j).
  { intros k j Hk Hj. apply (slot_frame _ _ _ x); [done | by apply Hn | done]. }
  pose proof (mi_fb _ _ M) as [Hfb Hns]. change nmeta with 46 in Hfb. split; simpl; try done.
  - intros k Hk. apply (lay_frame (img s) _ _ x); [done | by apply Hn | by apply (mi_lay _ _ M)].
  - intros k j Hk Hj. rewrite Es by done. by apply (mi_range _ _ M).
  - intros k j k' j' H1 H2 H3 H4. rewrite !Es by done. by apply (mi_inj _ _ M).
  - intros b o Hb. rewrite HV by lia. by apply (mi_zero _ _ M).
Qed.

(** Another inode with the same blocks. *)
Lemma minv_set s F k z : minv s F → 1 ≤ k < freeinode s →
  minv s (upd F k (Fl (iset_size z (f_ino (F k))) (f_n (F k)) (f_d (F k)) (f_c (F k)))).
Proof.
  intros M Hk. assert (Es : ∀ k' j, slot (img s) (f_ino (upd F k (Fl (iset_size z (f_ino (F k))) (f_n (F k)) (f_d (F k)) (f_c (F k))) k')) j =
    slot (img s) (f_ino (F k')) j).
  { intros k' j. destruct (decide (k' = k)) as [->|]; [by rewrite upd_eq | by rewrite upd_ne]. }
  split; try apply M.
  - intros k' Hk'. destruct (decide (k' = k)) as [->|]; [rewrite upd_eq; by apply lay_size, M | rewrite upd_ne by done; by apply M].
  - intros k' j. rewrite Es. apply M.
  - intros k1 j1 k2 j2. rewrite !Es. apply M.
Qed.

(** Storing the inode of a file whose blocks are in place. *)
Lemma store_wf s F k f z s1 : wf s F → 1 ≤ k < freeinode s → low_same s s1 → minv s1 (upd F k f) → tight f →
  z = Z.of_nat (length (f_c f)) → z ≤ MAXFILE * BSIZE → bare (f_ino f) → (∃ t, plain_ino t (f_ino f) ∧ 0 < t < 4) →
  wf (Mk (wi (img s1) k (iset_size z (f_ino f))) (nsect s1) (freeinode s1) (freeblock s1))
    (upd F k (Fl (iset_size z (f_ino f)) (f_n f) (f_d f) (f_c f))).
Proof.
  intros W Hk [Efi El] M1 T Ez Hz B (t & Hp & Ht). pose proof (wf_fi _ _ W) as Hfi.
  assert (Hk1 : 1 ≤ k < freeinode s1) by lia. pose proof (iblock_range k ltac:(lia)) as Hib. set (i := iset_size z (f_ino f)).
  set (f' := Fl i (f_n f) (f_d f) (f_c f)).
  assert (M2 : minv s1 (upd F k f')).
  { pose proof (minv_set s1 _ k z M1 Hk1) as M2. rewrite upd_eq in M2. eapply minv_ext; [|exact M2]. intros j. by rewrite upd_upd. }
  assert (Ty : inode_typed i).
  { pose proof (file_typed _ _ k t M2 Hk1) as Q. rewrite upd_eq in Q. apply Q; [exact Hp | done | cbn [f' f_ino i i_size iset_size]; sizes; lia]. }
  assert (Hi : bare i) by (destruct B as (t0 & a & b & n & z0 & l & B); unfold i; rewrite B; by repeat eexists).
  assert (Hother : ∀ k', 1 ≤ k' < 208 → k' ≠ k → dn (wi (img s1) k i) k' = dn (img s) k').
  { intros k' Hk' Hne. rewrite wi_other by (apply Ty || lia). unfold dn. rewrite El; [done|]. pose proof (iblock_range k' ltac:(lia)). change nmeta with 46. lia. }
  split; simpl.
  - apply minv_low; [done|]. exists (IBLOCK k mksb). split; [lia|]. split; [lia|]. intros b Hb. by apply upd_ne.
  - lia.
  - intros k' Hk'. destruct (decide (k' = k)) as [->|Hne]; [rewrite upd_eq; symmetry; exact (wi_self _ _ _ Ty Hi)|].
    rewrite upd_ne, Hother by (done || lia). apply (wf_disk _ _ W). lia.
  - intros k' Hk'. destruct (decide (k' = k)) as [->|Hne]; [by rewrite upd_eq|]. rewrite upd_ne by done. apply (wf_tight _ _ W). lia.
  - unfold wi. rewrite upd_ne, El by (change nmeta with 46; lia). apply W.
  - intros b o Hb. unfold wi. rewrite upd_ne, El by (change nmeta with 46; lia). by apply (wf_zero _ _ W).
  - intros k' o Hk' Ho. rewrite wi_bytes by (apply Ty || lia). pose proof (iblock_range k' ltac:(lia)). rewrite El by (change nmeta with 46; lia).
    apply (wf_free _ _ W); lia.
Qed.

(** ** The files on the image *)

(** The blocks of files of the given types and contents. *)
Definition cost (cs : list (Z * list Z)) : Z := foldr (λ (tc : Z * list Z) n, nblk (nb (Z.of_nat (length tc.2))) + n) 0 cs.

(** Inodes 1, 2, ... have these types and contents. *)
Definition has (s : mk) (cs : list (Z * list Z)) : Prop := ∃ F, wf s F ∧ freeinode s = 1 + Z.of_nat (length cs) ∧
  (∀ j t c, cs !! j = Some (t, c) → f_c (F (1 + Z.of_nat j)) = c ∧ plain_ino t (f_ino (F (1 + Z.of_nat j))) ∧ 0 < t < 4) ∧
  freeblock s = nmeta + cost cs.

Lemma cost_app l1 l2 : cost (l1 ++ l2) = cost l1 + cost l2.
Proof. induction l1 as [|x l1 IH]; [done|]. unfold cost in *. simpl. rewrite IH. lia. Qed.

Lemma cost_cons t c cs : cost ((t, c) :: cs) = nblk (nb (Z.of_nat (length c))) + cost cs.
Proof. done. Qed.

Lemma cost_insert cs j t c t' c' : cs !! j = Some (t, c) →
  cost (<[j := (t', c')]> cs) = cost cs - nblk (nb (Z.of_nat (length c))) + nblk (nb (Z.of_nat (length c'))).
Proof.
  intros Hj. pose proof (lookup_lt_Some _ _ _ Hj) as Hl. rewrite (insert_take_drop cs j) by done. rewrite <- (take_drop_middle cs j _ Hj) at 3.
  rewrite !cost_app, !cost_cons. lia.
Qed.

Lemma iappend_has s cs j t c p : has s cs → cs !! j = Some (t, c) →
  Z.of_nat (length c) + Z.of_nat (length p) ≤ MAXFILE * BSIZE → nmeta + cost (<[j := (t, c ++ p)]> cs) ≤ FSSIZE →
  wp (iappend (1 + Z.of_nat j) p) s (λ _ s', has s' (<[j := (t, c ++ p)]> cs)).
Proof.
  intros (F & W & Efi & Hcs & Efb) Hj Hmax Hroom. pose proof (lookup_lt_Some _ _ _ Hj) as Hl. pose proof (wf_fi _ _ W) as Hfi.
  set (k := 1 + Z.of_nat j) in *. assert (Hk : 1 ≤ k < freeinode s) by lia. destruct (Hcs j t c Hj) as (Ec & Hp & Ht). fold k in Ec, Hp.
  pose proof (wf_inv _ _ W) as M. pose proof (mi_fb _ _ M) as [_ Hns]. destruct (wf_tight _ _ W k Hk) as [T Ez].
  rewrite (cost_insert _ _ _ _ _ _ Hj), length_app, Nat2Z.inj_add in Hroom. unfold iappend.
  apply wp_bind, rinode_wp; [done | lia|]. rewrite <- (wf_disk _ _ W k Hk). rewrite Ez, xint_small by (rewrite Ec; sizes; lia).
  apply wp_bind. eapply wp_mono; [apply (iappend_loop_wp (length p) s F k p); [done | done | done | done | by rewrite Ec | rewrite (proj1 T), Ec; lia]|].
  intros r s1 (f' & -> & [A1 A2 A3 A4 A5 A6]). cbn [fst snd]. pose proof (mi_fb _ _ A1) as [_ Hns1]. rewrite Ec in A2 |- *.
  apply winode_wp; [done | lia|]. rewrite xint_small by (sizes; lia).
  assert (Hz : Z.of_nat (length c) + Z.of_nat (length p) = Z.of_nat (length (f_c f'))) by (rewrite A2, length_app; lia).
  destruct A6 as [l A6]. assert (B : bare (f_ino f')).
  { rewrite A6, (wf_disk _ _ W k Hk). destruct (dn_bare (img s) k) as (t0 & a & b & n & z & l0 & ->). by repeat eexists. }
  assert (Hp' : plain_ino t (f_ino f')) by (rewrite A6; exact Hp).
  exists (upd F k (Fl (iset_size (Z.of_nat (length c) + Z.of_nat (length p)) (f_ino f')) (f_n f') (f_d f') (f_c f'))). split; [|split; [|split]].
  - apply (store_wf s F k f' _ s1); try done. by exists t.
  - simpl. rewrite (proj1 A5), length_insert. done.
  - intros j' t' c' Hj'. destruct (decide (j' = j)) as [->|Hne].
    + rewrite list_lookup_insert_eq in Hj' by done. injection Hj' as <- <-. fold k. rewrite upd_eq. done.
    + rewrite list_lookup_insert_ne in Hj' by done. rewrite upd_ne by lia. by apply Hcs.
  - simpl. rewrite (cost_insert _ _ _ _ _ _ Hj), A4, (proj1 A3), (proj1 T), Ec, <- Hz. rewrite length_app, Nat2Z.inj_add. lia.
Qed.

(** A new inode. *)
Definition fresh_ino (t : Z) : inode := Inode 0 0 0 (SleepLock 0 0) 0 t 0 0 1 0 (replicate 13 0).

Lemma fresh_slot V t j : 0 ≤ j ≤ MAXFILE → slot V (fresh_ino t) j = 0.
Proof.
  intros Hj. assert (E : ∀ n, addr_at (fresh_ino t) n = 0).
  { intros n. unfold addr_at. change (i_addrs (fresh_ino t)) with (replicate 13 (0 : Z)). destruct (_ !! _) as [x|] eqn:Ex; [|done].
    by apply lookup_replicate in Ex as [-> _]. }
  unfold slot, faddr. rewrite !E. simpl. destruct (j =? MAXFILE); [done|]. by destruct (j <? NDIRECT).
Qed.

Lemma fresh_lay V t : lay V (Fl (fresh_ino t) 0 false []).
Proof.
  assert (E : ∀ bn, 0 ≤ bn < MAXFILE → faddr V (fresh_ino t) bn = 0) by (intros bn Hb; rewrite <- slot_data by lia; apply fresh_slot; lia).
  split; try done.
  - intros bn Hb. cbn [f_ino f_n]. rewrite E by done. lia.
  - intros o Ho. unfold fbyte. cbn [f_ino f_c]. by rewrite E by by apply div_block.
Qed.

Lemma fresh_minv s F t : minv s F → 1 ≤ freeinode s →
  minv (Mk (img s) (nsect s) (freeinode s + 1) (freeblock s)) (upd F (freeinode s) (Fl (fresh_ino t) 0 false [])).
Proof.
  intros M Hfi.
  assert (Es : ∀ k j, 0 ≤ j ≤ MAXFILE → slot (img s) (f_ino (upd F (freeinode s) (Fl (fresh_ino t) 0 false []) k)) j =
    if k =? freeinode s then 0 else slot (img s) (f_ino (F k)) j).
  { intros k j Hj. destruct (Z.eqb_spec k (freeinode s)) as [->|]; [rewrite upd_eq; by apply fresh_slot | by rewrite upd_ne]. }
  split; simpl; try apply M.
  - intros k Hk. destruct (decide (k = freeinode s)) as [->|]; [rewrite upd_eq; apply fresh_lay | rewrite upd_ne by done; apply M; lia].
  - intros k j Hk Hj. rewrite Es by done. destruct (Z.eqb_spec k (freeinode s)); [done|]. apply M; [lia | done].
  - intros k1 j1 k2 j2 H1 H2 H3 H4. rewrite !Es by done. destruct (Z.eqb_spec k1 (freeinode s)); [done|].
    destruct (Z.eqb_spec k2 (freeinode s)); [intros E E'; congruence|]. apply M; lia.
Qed.

Lemma ialloc_has s cs t : has s cs → Z.of_nat (length cs) < 199 → 0 < t < 4 →
  wp (ialloc t) s (λ r s', r = 1 + Z.of_nat (length cs) ∧ has s' (cs ++ [(t, [])])).
Proof.
  intros (F & W & Efi & Hcs & Efb) Hl Ht. pose proof (wf_fi _ _ W) as Hfi. pose proof (wf_inv _ _ W) as M. pose proof (mi_fb _ _ M) as [_ Hns].
  set (k := freeinode s) in *. unfold ialloc, next_inode. wp_steps. rewrite u32_small by lia. rewrite (xshort_small t), (xshort_small 1), (xint_small 0) by lia.
  change (iset_size 0 (iset_nlink 1 (iset_type t inode0))) with (fresh_ino t).
  apply winode_wp; [done | fold k; lia|]. wp_steps. split; [done|]. fold k.
  pose proof (fresh_minv s F t M ltac:(lia)) as M'. fold k in M'. pose proof (iblock_range k ltac:(lia)) as Hib.
  assert (Ty : inode_typed (fresh_ino t)) by (split; simpl; try lia; repeat constructor; lia).
  exists (upd F k (Fl (fresh_ino t) 0 false [])). split; [|split; [|split]].
  - split; simpl.
    + apply (minv_low (Mk (img s) (nsect s) (k + 1) (freeblock s))); [done|]. exists (IBLOCK k mksb). split; [lia|]. split; [lia|]. intros b Hb. by apply upd_ne.
    + lia.
    + intros k' Hk'. destruct (decide (k' = k)) as [->|Hne]; [rewrite upd_eq; symmetry; apply wi_self; [done | by repeat eexists]|].
      rewrite upd_ne, wi_other by (done || lia). apply (wf_disk _ _ W). fold k. lia.
    + intros k' Hk'. destruct (decide (k' = k)) as [->|Hne]; [by rewrite upd_eq|]. rewrite upd_ne by done. apply (wf_tight _ _ W). fold k. lia.
    + unfold wi. rewrite upd_ne by lia. apply W.
    + intros b o Hb. unfold wi. rewrite upd_ne by lia. by apply (wf_zero _ _ W).
    + intros k' o Hk' Ho. rewrite wi_bytes by (done || lia). apply (wf_free _ _ W); [fold k; lia | done].
  - simpl. rewrite length_app. simpl. lia.
  - intros j t' c' Hj. apply lookup_app_Some in Hj as [Hj|[Hj1 Hj2]].
    + pose proof (lookup_lt_Some _ _ _ Hj). rewrite upd_ne by lia. by apply Hcs.
    + destruct (j - length cs)%nat as [|n] eqn:En; [|done]. injection Hj2 as <- <-. replace (1 + Z.of_nat j) with k by lia. rewrite upd_eq. split; [done|]. split; done.
  - simpl. rewrite cost_app. change (cost [(t, [])]) with 0. lia.
Qed.

(** ** The files, one after the other *)

Lemma nb_mono a b : a ≤ b → nb a ≤ nb b.
Proof. unfold nb. change BSIZE with 1024. lia. Qed.

Lemma cost_mono (c c' : list Z) : (length c <= length c')%nat → nblk (nb (Z.of_nat (length c))) ≤ nblk (nb (Z.of_nat (length c'))).
Proof. intros H. apply nblk_mono, nb_mono. lia. Qed.

Lemma cost_pos l : 0 ≤ cost l.
Proof.
  induction l as [|[t c] l IH]; [done|]. rewrite cost_cons. assert (0 ≤ nblk (nb (Z.of_nat (length c)))); [|lia].
  change 0 with (nblk (nb (Z.of_nat (length (@nil Z))))). apply cost_mono. simpl. lia.
Qed.

Lemma copy_loop_has reads s cs j t c : has s cs → cs !! j = Some (t, c) →
  Z.of_nat (length c) + Z.of_nat (length (concat reads)) ≤ MAXFILE * BSIZE → nmeta + cost (<[j := (t, c ++ concat reads)]> cs) ≤ FSSIZE →
  wp (copy_loop (1 + Z.of_nat j) reads) s (λ _ s', has s' (<[j := (t, c ++ concat reads)]> cs)).
Proof.
  revert s cs c. induction reads as [|b reads IH]; intros s cs c H Hj Hmax Hroom; cbn [copy_loop concat] in *.
  - apply wp_ret. rewrite app_nil_r. by rewrite list_insert_id.
  - rewrite length_app in Hmax. pose proof (lookup_lt_Some _ _ _ Hj) as Hl. apply wp_bind. eapply wp_mono; [apply (iappend_has s cs j t c b); [done | done | lia|]|].
    + rewrite (cost_insert _ _ _ _ _ _ Hj) in Hroom. rewrite (cost_insert _ _ _ _ _ _ Hj). pose proof (cost_mono (c ++ b) (c ++ b ++ concat reads)) as Hm. rewrite !length_app in *. lia.
    + intros [] s1 H1. eapply wp_mono; [apply (IH s1 (<[j := (t, c ++ b)]> cs) (c ++ b)); [exact H1 | by apply list_lookup_insert_eq | rewrite length_app; lia|]|].
      * by rewrite list_insert_insert_eq, <- app_assoc.
      * intros [] s2. by rewrite list_insert_insert_eq, <- app_assoc.
Qed.

(** The root directory's entries for the files from inode [n] on, and the files. *)
Fixpoint entries (n : Z) (files : list (list Z * list (list Z))) : list Z :=
  match files with
  | [] => []
  | f :: l => de_of n (strip_ (strip f.1)) ++ entries (n + 1) l
  end.
Definition as_file (f : list Z * list (list Z)) : Z * list Z := (T_FILE, concat f.2).

Lemma length_de n name : length (de_of n name) = 16%nat.
Proof. unfold de_of, dirent_bytes. cbn [length]. by rewrite length_name_copy. Qed.

Lemma length_entries n files : length (entries n files) = (16 * length files)%nat.
Proof. revert n. induction files as [|f l IH]; intros n; cbn [entries length]; [done|]. rewrite length_app, length_de, IH. lia. Qed.

(** A file mkfs can take: no slash in its name, not too large. *)
Definition acceptable (f : list Z * list (list Z)) : Prop :=
  (47 ∉ strip f.1) ∧ Z.of_nat (length (concat f.2)) ≤ MAXFILE * BSIZE.

Definition done_with (root : list Z) (fs : list (Z * list Z)) (files : list (list Z * list (list Z))) : list (Z * list Z) :=
  (T_DIR, root ++ entries (2 + Z.of_nat (length fs)) files) :: fs ++ (as_file <$> files).

Lemma cost_done root fs f files : cost ((T_DIR, root ++ de_of (2 + Z.of_nat (length fs)) (strip_ (strip f.1))) :: fs ++ [as_file f]) ≤
  cost (done_with root fs (f :: files)).
Proof.
  unfold done_with. rewrite fmap_cons. change (as_file f) with (T_FILE, concat f.2). rewrite !cost_cons, !cost_app, !cost_cons. cbn [entries].
  assert (Hm := cost_mono (root ++ de_of (2 + Z.of_nat (length fs)) (strip_ (strip f.1))) (root ++ de_of (2 + Z.of_nat (length fs)) (strip_ (strip f.1)) ++ entries (2 + Z.of_nat (length fs) + 1) files)).
  rewrite !length_app in *. pose proof (cost_pos (as_file <$> files)) as Hp. change (cost []) with 0. lia.
Qed.

Lemma add_file_has s root fs f files : has s ((T_DIR, root) :: fs) → Z.of_nat (length fs) + 2 < 200 → acceptable f →
  Z.of_nat (length root) + 16 ≤ MAXFILE * BSIZE → nmeta + cost (done_with root fs (f :: files)) ≤ FSSIZE →
  wp (add_file 1 f.1 f.2) s (λ _ s', has s' ((T_DIR, root ++ de_of (2 + Z.of_nat (length fs)) (strip_ (strip f.1))) :: fs ++ [as_file f])).
Proof.
  intros H Hl [Hn Hs] Hr Hroom. pose proof (cost_done root fs f files) as Hc. unfold add_file. apply wp_bind. unfold assert.
  rewrite bool_decide_eq_false_2 by done. apply wp_ret. apply wp_bind. eapply wp_mono; [apply (ialloc_has s _ T_FILE H); [simpl; lia | done]|].
  intros r s1 [-> H1]. cbn [length] in *. replace (1 + Z.of_nat (S (length fs))) with (2 + Z.of_nat (length fs)) by lia.
  set (n := 2 + Z.of_nat (length fs)) in *. set (de := de_of n (strip_ (strip f.1))) in *. apply wp_bind.
  assert (Hd : length de = 16%nat) by apply length_de. change (as_file f) with (T_FILE, concat f.2) in Hc. rewrite cost_cons, cost_app, cost_cons in Hc.
  assert (Hm := cost_mono [] (concat f.2) ltac:(simpl; lia)).
  eapply wp_mono; [apply (iappend_has s1 ((T_DIR, root) :: fs ++ [(T_FILE, [])]) 0 T_DIR root de); [exact H1 | done | rewrite Hd; lia|]|].
  - change (<[0%nat := _]> _) with ((T_DIR, root ++ de) :: fs ++ [(T_FILE, [])]). rewrite cost_cons, cost_app, cost_cons. lia.
  - intros [] s2 H2. change (has s2 ((T_DIR, root ++ de) :: fs ++ [(T_FILE, [])])) in H2.
    assert (Ej : 2 + Z.of_nat (length fs) = 1 + Z.of_nat (S (length fs))) by lia. unfold n at 1. rewrite Ej.
    assert (El : ((T_DIR, root ++ de) :: fs ++ [(T_FILE, [])]) !! S (length fs) = Some (T_FILE, [])) by (simpl; by rewrite lookup_app_r, Nat.sub_diag by lia).
    assert (Ei : <[S (length fs) := (T_FILE, [] ++ concat f.2)]> ((T_DIR, root ++ de) :: fs ++ [(T_FILE, [])]) = (T_DIR, root ++ de) :: fs ++ [as_file f]).
    { simpl. f_equal. rewrite insert_app_r_alt by lia. by rewrite Nat.sub_diag. }
    eapply wp_mono; [apply (copy_loop_has f.2 s2 ((T_DIR, root ++ de) :: fs ++ [(T_FILE, [])]) (S (length fs)) T_FILE []); [exact H2 | exact El | simpl; lia|]|].
    + rewrite Ei, cost_cons, cost_app. unfold as_file. rewrite cost_cons. lia.
    + intros [] s3. by rewrite Ei.
Qed.

Lemma files_loop_has files s root fs : has s ((T_DIR, root) :: fs) → Z.of_nat (length fs) + Z.of_nat (length files) < 199 → Forall acceptable files →
  Z.of_nat (length root) = 16 * (2 + Z.of_nat (length fs)) → nmeta + cost (done_with root fs files) ≤ FSSIZE →
  wp (files_loop 1 files) s (λ _ s', has s' (done_with root fs files)).
Proof.
  revert s root fs. induction files as [|[name reads] files IH]; intros s root fs H Hl Ha Hr Hroom; cbn [files_loop].
  - apply wp_ret. unfold done_with. simpl. by rewrite !app_nil_r.
  - apply Forall_cons in Ha as [Hf Ha]. cbn [length] in Hl. apply wp_bind.
    eapply wp_mono; [apply (add_file_has s root fs (name, reads) files H); [lia | done | sizes; lia | done]|]. intros [] s1 H1. cbn [fst snd] in H1.
    assert (E : done_with (root ++ de_of (2 + Z.of_nat (length fs)) (strip_ (strip name))) (fs ++ [as_file (name, reads)]) files = done_with root fs ((name, reads) :: files)).
    { unfold done_with. rewrite length_app, fmap_cons. cbn [length entries fst]. rewrite <- !app_assoc.
      by replace (2 + Z.of_nat (length fs + 1)) with (2 + Z.of_nat (length fs) + 1) by lia. }
    rewrite <- E. apply IH; [done | rewrite length_app; simpl; lia | done | rewrite !length_app, length_de; simpl; lia | by rewrite E].
Qed.

(** ** Before and after the files *)

Lemma zero_loop_wp n i s : (∀ b o, img s b o = 0) → nsect s = i →
  wp (zero_loop n i) s (λ _ s', (∀ b o, img s' b o = 0) ∧ nsect s' = i + Z.of_nat n ∧ freeinode s' = freeinode s ∧ freeblock s' = freeblock s).
Proof.
  revert i s. induction n as [|n IH]; intros i s Hz Hn; cbn [zero_loop].
  - apply wp_ret. split; [done|]. split; [lia | done].
  - apply wp_bind, wsect_wp. eapply wp_mono; [apply IH; simpl; [|lia]|].
    + intros b o. unfold upd. by destruct (b =? i).
    + intros [] s' (H1 & H2 & H3 & H4). simpl in *. split; [done|]. split; [lia | done].
Qed.

Lemma empty_has s : (∀ b o, img s b o = 0) → nsect s = FSSIZE → freeinode s = 1 → freeblock s = nmeta →
  has (Mk (upd (img s) 1 sb_block) (nsect s) (freeinode s) (freeblock s)) [].
Proof.
  intros Hz Hn Hi Hb. exists (λ _, Fl inode0 0 false []). split; [|split; [simpl; lia | split; [done | simpl; by rewrite Hb]]].
  split; simpl; try lia.
  - split; simpl; rewrite ?Hi, ?Hb; try lia; [|done]. intros b o H. change nmeta with 46 in H. by rewrite upd_ne by lia.
  - apply upd_eq.
  - intros b o H. by rewrite upd_ne by lia.
  - intros k o Hk Ho. pose proof (iblock_range k ltac:(lia)). by rewrite upd_ne by lia.
Qed.

(** The entries of the root directory. *)
Definition dots : list Z := de_of 1 [46] ++ de_of 1 [46; 46].
Definition on_image (files : list (list Z * list (list Z))) : list (Z * list Z) := done_with dots [] files.

Lemma setup_has (K : Z → M mk unit) files Q : nmeta + cost (on_image files) ≤ FSSIZE →
  (∀ s, has s [(T_DIR, dots)] → wp (K 1) s Q) →
  wp (modify (λ s, Mk (img s) (nsect s) (freeinode s) nmeta);;
      zero_loop (Z.to_nat FSSIZE) 0;;
      wsect 1 sb_block;;
      rootino ← ialloc T_DIR;
      assert (rootino =? ROOTINO) "rootino == ROOTINO";;
      iappend rootino (de_of rootino [46]);;
      iappend rootino (de_of rootino [46; 46]);;
      K rootino) mk0 Q.
Proof.
  intros Hc HK. apply wp_bind, wp_modify. apply wp_bind. eapply wp_mono; [apply zero_loop_wp; done|].
  intros [] s (H1 & H2 & H3 & H4). simpl in H2, H3, H4. apply wp_bind, wsect_wp.
  assert (Hr : nmeta + cost [(T_DIR, dots)] ≤ FSSIZE).
  { apply (Z.le_trans _ (nmeta + cost (on_image files))); [|done]. unfold on_image, done_with. rewrite !cost_cons.
    assert (Hm := cost_mono dots (dots ++ entries (2 + Z.of_nat (length (@nil (Z * list Z)))) files)). rewrite length_app in *.
    pose proof (cost_pos ([] ++ (as_file <$> files))) as Hp. change (cost []) with 0. lia. }
  pose proof (empty_has s H1 H2 H3 H4) as H. replace (Z.max (nsect s) (1 + 1)) with (nsect s) by (rewrite H2; done).
  apply wp_bind. eapply wp_mono; [apply (ialloc_has _ [] T_DIR H); [simpl; lia | done]|]. intros r s1 [-> Ha]. simpl in Ha.
  apply wp_bind. unfold assert. change (1 + Z.of_nat (length []) =? ROOTINO) with true. apply wp_ret. change (1 + Z.of_nat (length [])) with (1 + Z.of_nat 0).
  apply wp_bind. eapply wp_mono; [apply (iappend_has s1 [(T_DIR, [])] 0 T_DIR [] _ Ha); [done | by rewrite length_de | by vm_compute]|].
  intros [] s2 Hb. apply wp_bind.
  eapply wp_mono; [apply (iappend_has s2 [(T_DIR, de_of 1 [46])] 0 T_DIR (de_of 1 [46]) _ Hb); [done | by rewrite !length_de | by vm_compute]|].
  intros [] s3 Hd. apply HK. exact Hd.
Qed.

Lemma balloc_loop_bits n i d c : 0 ≤ i → 0 ≤ c →
  bit_set (balloc_loop n i d) c = ((i <=? c) && (c <? i + Z.of_nat n)) || bit_set d c.
Proof.
  revert i d. induction n as [|n IH]; intros i d Hi Hc; cbn [balloc_loop].
  - rewrite Z.add_0_r. destruct (Z.leb_spec i c), (Z.ltb_spec c i); simpl; lia || done.
  - rewrite IH, bit_set_mark by lia. destruct (Z.eqb_spec c i), (Z.leb_spec i c), (Z.leb_spec (i + 1) c), (Z.ltb_spec c (i + 1 + Z.of_nat n)), (Z.ltb_spec c (i + Z.of_nat (S n)));
      simpl; try lia; done.
Qed.

(** The finished image. *)
Record image (V : Z → bdata) (cs : list (Z * list Z)) (fb : Z) (F : Z → fl) : Prop := Image {
  im_inv : minv (Mk V FSSIZE (1 + Z.of_nat (length cs)) fb) F;
  im_len : Z.of_nat (length cs) ≤ 199;
  im_sb : V 1 = sb_block;
  im_log : ∀ o, V 2 o = 0;
  im_used : ∀ b, 0 ≤ b < FSSIZE → used mksb V b = (b <? fb);
  im_file : ∀ j t c, cs !! j = Some (t, c) → f_c (F (1 + Z.of_nat j)) = c ∧ plain_ino t (f_ino (F (1 + Z.of_nat j))) ∧ 0 < t < 4 ∧
    tight (F (1 + Z.of_nat j)) ∧ f_ino (F (1 + Z.of_nat j)) = dn V (1 + Z.of_nat j) ∧
    i_size (f_ino (F (1 + Z.of_nat j))) = if (j =? 0)%nat then (Z.of_nat (length c) / BSIZE + 1) * BSIZE else Z.of_nat (length c);
}.

Lemma finish_wp s root fs : has s ((T_DIR, root) :: fs) → Z.of_nat (length root) < 2 ^ 20 →
  wp (fix_root 1;; b ← gets freeblock; balloc b) s (λ _ s', ∃ F, image (img s') ((T_DIR, root) :: fs) (freeblock s') F).
Proof.
  intros (F & W & Efi & Hcs & Efb) Hr. pose proof (wf_inv _ _ W) as M. pose proof (mi_fb _ _ M) as [Hfb Hns]. pose proof (wf_fi _ _ W) as Hfi.
  cbn [length] in Efi. assert (Hk : 1 ≤ 1 < freeinode s) by lia. destruct (Hcs 0%nat _ _ eq_refl) as (Ec & Hp & Ht). change (1 + Z.of_nat 0) with 1 in *.
  destruct (wf_tight _ _ W 1 Hk) as [T Ez]. rewrite Ec in Ez. apply wp_bind. unfold fix_root. apply wp_bind, rinode_wp; [done | lia|].
  rewrite <- (wf_disk _ _ W 1 Hk), Ez, (xint_small (Z.of_nat _)) by lia. set (z := (Z.of_nat (length root) / BSIZE + 1) * BSIZE).
  assert (Hz : 0 ≤ z < 2 ^ 21) by (unfold z; change BSIZE with 1024; lia). rewrite (u32_small z), (xint_small z) by lia.
  apply winode_wp; [done | lia|]. apply wp_bind, wp_gets. change nmeta with 46 in *. change FSSIZE with 2000 in *. simpl freeblock.
  unfold balloc. apply wp_bind. unfold assert. rewrite (proj2 (Z.ltb_lt _ _)) by (change BSIZE with 1024; lia). apply wp_ret, wsect_wp.
  set (i := iset_size z (f_ino (F 1))). set (F' := upd F 1 (Fl i (f_n (F 1)) (f_d (F 1)) (f_c (F 1)))).
  set (V1 := wi (img s) 1 i). set (V := upd V1 45 (balloc_loop (Z.to_nat (freeblock s)) 0 zeroes)).
  change (∃ F0, image V ((T_DIR, root) :: fs) (freeblock s) F0).
  pose proof (minv_set s F 1 z M Hk) as M1. fold i F' in M1.
  assert (M2 : minv (Mk V1 (nsect s) (freeinode s) (freeblock s)) F').
  { apply minv_low; [done|]. exists 32. split; [lia|]. split; [lia|]. intros b Hb. by apply upd_ne. }
  assert (M3 : minv (Mk V (nsect s) (freeinode s) (freeblock s)) F').
  { apply (minv_low _ _ V M2). exists 45. split; [lia|]. split; [lia|]. intros b Hb. by apply upd_ne. }
  assert (Ty : inode_typed i). { pose proof (file_typed _ _ 1 T_DIR M3 Hk) as Q. unfold F' in Q. rewrite upd_eq in Q. apply Q; [exact Hp | done | simpl; lia]. }
  assert (Bi : bare i) by (unfold i; rewrite (wf_disk _ _ W 1 Hk); destruct (dn_bare (img s) 1) as (t0 & a & b & n & z0 & l0 & ->); by repeat eexists).
  assert (Ed : ∀ k, 0 ≤ k < 208 → dn V k = dn V1 k) by (intros k Hk'; unfold dn, V; pose proof (iblock_range k Hk'); by rewrite upd_ne by lia).
  exists F'. split.
  - change FSSIZE with 2000. rewrite <- Hns. cbn [length]. rewrite <- Efi. exact M3.
  - cbn [length]. lia.
  - unfold V, V1, wi. rewrite !upd_ne by done. apply W.
  - intros o. unfold V, V1, wi. rewrite !upd_ne by done. apply (wf_zero _ _ W). lia.
  - intros b Hb. change FSSIZE with 2000 in Hb. unfold used, BBLOCK. change (sb_bmapstart mksb) with 45. change BPB with 8192. rewrite (Z.div_small b 8192), (Z.mod_small b) by lia.
    unfold V. rewrite upd_eq, balloc_loop_bits by lia. rewrite orb_false_r, (proj2 (Z.leb_le 0 b)) by lia. simpl. f_equal. lia.
  - intros j t c Hj. destruct (Hcs j t c Hj) as (E1 & E2 & E3). pose proof (lookup_lt_Some _ _ _ Hj) as Hl. cbn [length] in Hl.
    assert (Hkj : 1 ≤ 1 + Z.of_nat j < freeinode s) by lia. destruct (wf_tight _ _ W _ Hkj) as [T1 T2]. rewrite Ed by lia. destruct j as [|j].
    + injection Hj as <- <-. change (1 + Z.of_nat 0) with 1 in *. unfold F'. rewrite upd_eq. cbn [f_c f_ino].
      split; [done|]. split; [done|]. split; [done|]. split; [done|]. split; [symmetry; by apply wi_self | done].
    + unfold F'. rewrite upd_ne by lia. split; [done|]. split; [done|]. split; [done|]. split; [done|].
      split; [unfold V1; rewrite wi_other by (apply Ty || lia); by apply (wf_disk _ _ W) | by rewrite T2, E1].
Qed.

(** ** What the kernel finds *)

(** Inode [k] as [ilock] reads it into slot [i0] of the inode table. *)
Definition ik (V : Z → bdata) (k : Z) (i0 : inode) : inode := read_dinode (V (IBLOCK k mksb)) (islot k) i0.

Lemma owned_slot V i x : owned V i x → ∃ j, 0 ≤ j ≤ MAXFILE ∧ x = slot V i j ∧ x ≠ 0.
Proof.
  intros [Hx [E|(bn & Hb & E)]]; [by exists MAXFILE|]. exists bn. rewrite slot_data by lia. split; [lia | done].
Qed.

Section Kernel.
Context (dev : Z) (Hdev : dev ≠ 0).
#[local] Instance klaws : BlockLaws lstate dev := log_block_laws dev Hdev.
Context (b : lstate) (V : Z → bdata) (cs : list (Z * list Z)) (fb : Z) (F : Z → fl).
Context (I : image V cs fb F) (Hv : bview b = V) (Hs : lg_start (lg b) = sb_logstart mksb).

Lemma img_fb : 46 ≤ fb ≤ 2000.
Proof. exact (proj1 (mi_fb _ _ (im_inv _ _ _ _ I))). Qed.

Lemma img_valid x : 32 ≤ x < 2000 → bvalid b x.
Proof.
  intros Hx. change (log_valid b x). unfold log_valid, in_log. rewrite Hs. change (sb_logstart mksb) with 2. change (LOGSIZE - 1) with 29. lia.
Qed.

Lemma img_bblock c : 0 ≤ c < 2000 → BBLOCK c mksb = 45.
Proof. intros Hc. unfold BBLOCK. change BPB with 8192. change (sb_bmapstart mksb) with 45. rewrite Z.div_small by lia. done. Qed.

Lemma img_used c : 0 ≤ c < 2000 → used mksb (bview b) c = (c <? fb).
Proof. rewrite Hv. apply (im_used _ _ _ _ I). Qed.

Lemma img_data x : 46 ≤ x < 2000 → data_block dev mksb b x.
Proof.
  intros Hx. split; [change (sb_size mksb) with 2000; lia|]. split; [apply img_valid; lia|].
  intros c Hc. change (sb_size mksb) with 2000 in Hc. rewrite img_bblock by done. lia.
Qed.

Lemma img_bitmap : bitmap_ok dev mksb b.
Proof.
  pose proof img_fb. split; change (sb_size mksb) with 2000.
  - lia.
  - intros c Hc. rewrite img_bblock by done. apply img_valid. lia.
  - intros c Hc. rewrite img_used by done. intros E%Z.ltb_ge. apply img_data. lia.
Qed.

Section One.
Context (j : nat) (t : Z) (c : list Z) (i0 : inode) (Hj : cs !! j = Some (t, c)) (Hd : i_dev i0 = dev) (Hi : i_inum i0 = 1 + Z.of_nat j).
Let k : Z := 1 + Z.of_nat j.
Let i : inode := ik V k i0.

Lemma img_in : 1 ≤ k < 1 + Z.of_nat (length cs).
Proof. pose proof (lookup_lt_Some _ _ _ Hj). unfold k. lia. Qed.

(** It has the addresses the image has. *)
Lemma img_slot W n : slot W i n = slot W (f_ino (F k)) n.
Proof. destruct (im_file _ _ _ _ I j t c Hj) as (_ & _ & _ & _ & E & _). fold k in E. rewrite E. reflexivity. Qed.

Lemma img_faddr W n : faddr W i n = faddr W (f_ino (F k)) n.
Proof. destruct (im_file _ _ _ _ I j t c Hj) as (_ & _ & _ & _ & E & _). fold k in E. rewrite E. reflexivity. Qed.

Lemma img_addr n : addr_at i n = addr_at (f_ino (F k)) n.
Proof. destruct (im_file _ _ _ _ I j t c Hj) as (_ & _ & _ & _ & E & _). fold k in E. rewrite E. reflexivity. Qed.

Lemma img_owned x : owned V i x → 46 ≤ x < fb.
Proof.
  intros (n & Hn & -> & Hx)%owned_slot. rewrite img_slot in *.
  exact (mi_range _ _ (im_inv _ _ _ _ I) k n img_in Hn Hx).
Qed.

Lemma img_file_ok : file_ok dev mksb b i.
Proof.
  pose proof img_fb as Hfb. pose proof (im_inv _ _ _ _ I) as M. pose proof img_in as Hk. pose proof (im_len _ _ _ _ I) as Hl.
  assert (Ek : iblock mksb i = IBLOCK k mksb) by (unfold iblock, i, ik; simpl; by rewrite Hi).
  pose proof (iblock_range k ltac:(lia)) as Hib. rewrite <- Ek in Hib. split; rewrite ?Hv; change (sb_size mksb) with 2000.
  - done.
  - done.
  - intros x Hx. apply img_owned in Hx. split; [apply img_data; lia|]. split; [|lia].
    rewrite <- Hv, img_used by lia. apply Z.ltb_lt. lia.
  - intros bn bn' H1 H2. rewrite !img_faddr, <- !slot_data by lia. intros E H0.
    by destruct (mi_inj _ _ M k bn k bn' Hk ltac:(lia) Hk ltac:(lia) E H0).
  - intros bn H1. rewrite img_faddr, img_addr, <- slot_data by lia. rewrite <- (slot_ind V (f_ino (F k))). intros H0 E.
    destruct (mi_inj _ _ M k bn k MAXFILE Hk ltac:(lia) Hk ltac:(done) E H0). lia.
  - split; [apply img_valid; lia|]. split; [lia|]. split; [rewrite <- Hv, img_used by lia; apply Z.ltb_lt; lia|].
    intros x Hx. rewrite img_bblock by done. lia.
Qed.

Lemma img_file_inv : (j = 0%nat → Z.of_nat (length c) mod BSIZE ≠ 0) → Z.of_nat (length c) < MAXFILE * BSIZE ∨ j ≠ 0%nat →
  file_inv dev mksb b i.
Proof.
  intros Hm Hsz. destruct (im_file _ _ _ _ I j t c Hj) as (Ec & Hp & Ht & [T1 T2] & E & Ez). fold k in Ec, Hp, T1, T2, E, Ez.
  pose proof (im_inv _ _ _ _ I) as M. pose proof (mi_lay _ _ M k img_in) as L. pose proof (l_n _ _ L) as [Hn _]. pose proof (l_size _ _ L) as Hls.
  rewrite Ec in *. assert (Es : i_size i = i_size (f_ino (F k))) by (rewrite E; reflexivity).
  assert (Hz : 0 ≤ i_size i ≤ f_n (F k) * BSIZE).
  { rewrite Es, Ez. destruct j as [|j']; simpl; [|lia]. specialize (Hm eq_refl). rewrite T1. unfold nb. change BSIZE with 1024 in *. lia. }
  assert (Ty : inode_typed (f_ino (F k))).
  { apply (file_typed _ _ k t M img_in Hp Ht). rewrite <- Es. sizes. lia. }
  split.
  - exact img_bitmap.
  - exact img_file_ok.
  - intros bn H1 H2. rewrite Hv, img_faddr, (l_data _ _ L); [sizes; lia|]. sizes. lia.
  - rewrite E in Ty. destruct Ty as [Y1 Y2 Y3 Y4 Y5 Y6 Y7]. split; assumption.
  - sizes. lia.
Qed.

Lemma img_bytes o : 0 ≤ o < MAXFILE * BSIZE → fbyte V i o = cbyte c o.
Proof.
  intros Ho. destruct (im_file _ _ _ _ I j t c Hj) as (Ec & _). fold k in Ec. rewrite <- Ec.
  rewrite <- (l_bytes _ _ (mi_lay _ _ (im_inv _ _ _ _ I) k img_in) o Ho). unfold fbyte. by rewrite img_faddr.
Qed.
End One.

(** Different files have no block in common. *)
Lemma img_disjoint j1 j2 f1 f2 i1 i2 x : cs !! j1 = Some f1 → cs !! j2 = Some f2 →
  owned V (ik V (1 + Z.of_nat j1) i1) x → owned V (ik V (1 + Z.of_nat j2) i2) x → j1 = j2.
Proof.
  destruct f1 as [t1 c1], f2 as [t2 c2]. intros H1 H2 (n1 & Hn1 & E1 & Hx)%owned_slot (n2 & Hn2 & E2 & _)%owned_slot.
  rewrite (img_slot j1 t1 c1 i1 H1) in E1. rewrite (img_slot j2 t2 c2 i2 H2) in E2.
  destruct (mi_inj _ _ (im_inv _ _ _ _ I) _ n1 _ n2 (img_in j1 t1 c1 H1) Hn1 (img_in j2 t2 c2 H2) Hn2); [simpl; congruence | simpl; congruence | lia].
Qed.
End Kernel.

(** ** The root directory *)

Fixpoint ents (n : Z) (files : list (list Z * list (list Z))) : list (list Z) :=
  match files with
  | [] => []
  | f :: l => de_of n (strip_ (strip f.1)) :: ents (n + 1) l
  end.

Lemma entries_concat n files : entries n files = concat (ents n files).
Proof. revert n. induction files as [|f l IH]; intros n; [done|]. cbn [entries ents concat]. by rewrite IH. Qed.

Lemma ents_16 n files : Forall (λ e : list Z, length e = 16%nat) (ents n files).
Proof. revert n. induction files as [|f l IH]; intros n; cbn [ents]; constructor; [apply length_de | done]. Qed.

Lemma length_ents n files : length (ents n files) = length files.
Proof. revert n. induction files as [|f l IH]; intros n; cbn [ents length]; [done|]. by rewrite IH. Qed.

Lemma concat_16 (E : list (list Z)) k o : Forall (λ e : list Z, length e = 16%nat) E → (o < 16)%nat →
  concat E !! (16 * k + o)%nat = E !! k ≫= (.!! o).
Proof.
  intros HE Ho. revert k. induction HE as [|e E He HE IH]; intros k; [done|]. cbn [concat]. destruct k as [|k].
  - rewrite Nat.mul_0_r, lookup_app_l by lia. done.
  - rewrite lookup_app_r by lia. rewrite He. replace (16 * S k + o - 16)%nat with (16 * k + o)%nat by lia. apply IH.
Qed.

Lemma length_concat_16 (E : list (list Z)) : Forall (λ e : list Z, length e = 16%nat) E → length (concat E) = (16 * length E)%nat.
Proof. induction 1 as [|e E He HE IH]; [done|]. cbn [concat length]. rewrite length_app, He, IH. lia. Qed.

Definition ebytes (e : list Z) : list Z := u8 <$> e.

(** A directory with the entries [E], whose size is [z]. *)
Lemma dirents_of V i E z : Forall (λ e : list Z, length e = 16%nat) E → i_size i = z → 16 * Z.of_nat (length E) ≤ z ≤ MAXFILE * BSIZE → z mod 16 = 0 →
  (∀ o, 0 ≤ o < MAXFILE * BSIZE → fbyte V i o = cbyte (concat E) o) →
  dirents V i = (ebytes <$> E) ++ replicate (Z.to_nat (z / 16) - length E) (replicate 16 0).
Proof.
  intros HE Ez Hz Hm Hb. apply list_eq_same_length with (n := Z.to_nat (z / 16)).
  - rewrite length_app, length_fmap, length_replicate. lia.
  - unfold dirents. rewrite length_fmap, length_seq, Ez. done.
  - intros k x y Hk Hx Hy. rewrite dirents_lookup in Hx by (rewrite Ez; done). injection Hx as <-. unfold sizeof_dirent.
    assert (Hby : ∀ o, (o < 16)%nat → fbytes V i (16 * Z.of_nat k) 16 !! o = Some (u8 (default 0 (E !! k ≫= (.!! o))))).
    { intros o Ho. unfold fbytes. rewrite list_lookup_fmap, lookup_seq_lt by done. simpl. rewrite Hb by lia. unfold cbyte.
      replace (Z.to_nat (16 * Z.of_nat k + Z.of_nat o)) with (16 * k + o)%nat by lia. by rewrite concat_16. }
    apply list_eq_same_length with (n := 16%nat).
    + apply lookup_app_Some in Hy as [Hy|[_ Hy]]; [|apply lookup_replicate in Hy as [-> _]; done].
      apply list_lookup_fmap_Some_1 in Hy as (e & -> & He). unfold ebytes. rewrite length_fmap. rewrite Forall_lookup in HE. by rewrite (HE _ _ He).
    + unfold fbytes. by rewrite length_fmap, length_seq.
    + intros o a a' Ho Ha Ha'. rewrite Hby in Ha by done. injection Ha as <-.
      apply lookup_app_Some in Hy as [Hy|[Hge Hy]].
      * apply list_lookup_fmap_Some_1 in Hy as (e & -> & He). rewrite He. simpl. unfold ebytes in Ha'. rewrite list_lookup_fmap in Ha'.
        destruct (e !! o); [|done]. simpl in *. congruence.
      * apply lookup_replicate in Hy as [-> _]. apply lookup_replicate in Ha' as [-> _]. rewrite length_fmap in Hge.
        by rewrite (lookup_ge_None_2 E) by lia.
Qed.

(** The entries of the files from inode [n] on. *)
Fixpoint listing (n : Z) (files : list (list Z * list (list Z))) : list (list Z) :=
  match files with
  | [] => []
  | f :: l => new_entry n (strip_ (strip f.1)) :: listing (n + 1) l
  end.

Lemma de_entry n name : 0 ≤ n < 2 ^ 16 → ebytes (de_of n name) = new_entry n name.
Proof. intros H. unfold ebytes, de_of, new_entry. by rewrite xshort_small. Qed.

Lemma ents_listing n files : 0 ≤ n → n + Z.of_nat (length files) < 2 ^ 16 → ebytes <$> ents n files = listing n files.
Proof.
  revert n. induction files as [|f l IH]; intros n H1 H2; [done|]. cbn [ents listing length] in *. rewrite fmap_cons, de_entry, IH by lia. done.
Qed.

Lemma mkfs_wp files : Forall acceptable files → Z.of_nat (length files) < 199 → nmeta + cost (on_image files) ≤ FSSIZE →
  wp (mkfs files) mk0 (λ _ s, ∃ F, image (img s) (on_image files) (freeblock s) F).
Proof.
  intros Ha Hl Hc. unfold mkfs. apply (setup_has (λ r, files_loop r files;; fix_root r;; b ← gets freeblock; balloc b) files); [done|].
  intros s H. apply wp_bind. eapply wp_mono; [apply (files_loop_has files s dots [] H); [simpl; lia | done | done | done]|].
  intros [] s1 H1. eapply wp_mono; [apply (finish_wp s1 _ _ H1)|done]. rewrite length_app, length_entries. change (length dots) with 32%nat. lia.
Qed.

Section Found.
Context (files : list (list Z * list (list Z))) (Ha : Forall acceptable files) (Hl : Z.of_nat (length files) < 199).
Context (V : Z → bdata) (fb : Z) (F : Z → fl) (I : image V (on_image files) fb F).

Lemma root_at : on_image files !! 0%nat = Some (T_DIR, dots ++ entries 2 files).
Proof. done. Qed.

Lemma root_length : Z.of_nat (length (dots ++ entries 2 files)) = 16 * (2 + Z.of_nat (length files)).
Proof. rewrite length_app, length_entries. change (length dots) with 32%nat. lia. Qed.

Lemma file_at j f : files !! j = Some f → on_image files !! S j = Some (T_FILE, concat f.2).
Proof. intros Hj. unfold on_image, done_with. simpl. by rewrite list_lookup_fmap, Hj. Qed.

(** What the inode of an entry of [on_image] says. *)
Lemma ik_meta j t c i0 : on_image files !! j = Some (t, c) → let i := ik V (1 + Z.of_nat j) i0 in
  i_type i = t ∧ i_nlink i = 1 ∧ i_size i = if (j =? 0)%nat then (Z.of_nat (length c) / BSIZE + 1) * BSIZE else Z.of_nat (length c).
Proof.
  intros Hj i. destruct (im_file _ _ _ _ I _ _ _ Hj) as (_ & (P1 & _ & _ & P4) & _ & _ & Ed & Ez).
  split; [rewrite <- P1, Ed; reflexivity|]. split; [rewrite <- P4, Ed; reflexivity|]. rewrite <- Ez, Ed. reflexivity.
Qed.

Lemma root_dirents i0 : ∃ m,
  dirents V (ik V ROOTINO i0) = new_entry 1 [46] :: new_entry 1 [46; 46] :: listing 2 files ++ replicate m (replicate 16 0).
Proof.
  destruct (ik_meta _ _ _ i0 root_at) as (_ & _ & Ez). change (1 + Z.of_nat 0) with ROOTINO in Ez. cbn [Nat.eqb] in Ez. rewrite root_length in Ez.
  eexists. rewrite (dirents_of _ _ (de_of 1 [46] :: de_of 1 [46; 46] :: ents 2 files) _ ltac:(constructor; [apply length_de|]; constructor; [apply length_de | apply ents_16]) Ez).
  - rewrite !fmap_cons, !de_entry, ents_listing by lia. reflexivity.
  - cbn [length]. rewrite length_ents. sizes. lia.
  - sizes. lia.
  - intros o Ho. rewrite (img_bytes V (on_image files) fb F I 0 _ _ i0 root_at) by done.
    unfold dots. cbn [concat]. by rewrite entries_concat, <- app_assoc.
Qed.

Lemma found_disjoint k1 k2 i1 i2 x : 1 ≤ k1 < 2 + Z.of_nat (length files) → 1 ≤ k2 < 2 + Z.of_nat (length files) →
  owned V (ik V k1 i1) x → owned V (ik V k2 i2) x → k1 = k2.
Proof.
  assert (Hall : ∀ k, 1 ≤ k < 2 + Z.of_nat (length files) → ∃ f, on_image files !! Z.to_nat (k - 1) = Some f).
  { intros k Hk. apply lookup_lt_is_Some_2. unfold on_image, done_with. simpl. rewrite length_fmap. lia. }
  intros H1 H2 O1 O2. destruct (Hall k1 H1) as [f1 E1], (Hall k2 H2) as [f2 E2].
  assert (Z.to_nat (k1 - 1) = Z.to_nat (k2 - 1)); [|lia].
  apply (img_disjoint V (on_image files) fb F I _ _ f1 f2 i1 i2 x E1 E2).
  - by replace (1 + Z.of_nat (Z.to_nat (k1 - 1))) with k1 by lia.
  - by replace (1 + Z.of_nat (Z.to_nat (k2 - 1))) with k2 by lia.
Qed.
End Found.


(** [user/_hi] with two bytes. *)
Definition demo_files : list (list Z * list (list Z)) := [([117; 115; 101; 114; 47; 95; 104; 105], [[79]; [75]])].

(** The slot of the inode table for the file. *)
Definition demo_slot : inode := Inode 1 2 1 (SleepLock 0 0) 0 0 0 0 0 0 [].

Lemma boot_idle d : hdr_n (d 2) = 0 → idle 1 (boot_cache d) boot_lru demo_log.
Proof.
  intros H. destruct (boot_cache_ok d) as (Hi & Hz & Hd & _). split; [done | by apply quiet_boot | done | done|]. by rewrite Hd.
Qed.

