(* ===== verification/Uprog.v ===== *)
(** * Small user programs (user/wc.c, user/cat.c, user/echo.c, user/ls.c)

    The input of [wc] and [cat] is the pieces that [read] returned before the first result
    that is not positive, and whether that was an error; the output is the bytes written to descriptor 1. *)

From stdpp Require Import base numbers list strings.
From S2P Require Import Prelude Str Layout Ulib.
Local Open Scope Z_scope.

(** ** wc *)

(** [l], [w], [c] and [inword]. *)
Record counts : Type := Counts { n_l : Z; n_w : Z; n_c : Z; n_in : bool }.

(** Blank, carriage return, tab, newline, vertical tab. *)
Definition blank (c : Z) : bool := existsb (Z.eqb c) [32; 13; 9; 10; 11].

Definition wc_byte (x : Z) (s : counts) : counts :=
  let c := i32 (n_c s + 1) in
  let l := if x =? 10 then i32 (n_l s + 1) else n_l s in
  if blank x then Counts l (n_w s) c false
  else if negb (n_in s) then Counts l (i32 (n_w s + 1)) c true
  else Counts l (n_w s) c (n_in s).

Fixpoint wc_buf (buf : list Z) (s : counts) : counts :=
  match buf with
  | [] => s
  | x :: buf' => wc_buf buf' (wc_byte x s)
  end.

Fixpoint wc_loop (reads : list (list Z)) (s : counts) : counts :=
  match reads with
  | [] => s
  | buf :: l => wc_loop l (wc_buf buf s)
  end.

(** The output and, for an error, the exit status. *)
Definition wc (reads : list (list Z)) (failed : bool) (name : list Z) : option (list Z * option Z) :=
  let s := wc_loop reads (Counts 0 0 0 false) in
  if failed then out ← vprintf 0 [119; 99; 58; 32; 114; 101; 97; 100; 32; 101; 114; 114; 111; 114; 10] []; Some (out, Some 1)
  else
    out ← vprintf 0 [37; 100; 32; 37; 100; 32; 37; 100; 32; 37; 115; 10] [VInt (n_l s); VInt (n_w s); VInt (n_c s); VStr (Some name)];
    Some (out, None).

(** ** cat and echo *)

(** [accepts] says of each [write] how many bytes it wrote. *)
Fixpoint cat (reads : list (list Z)) (failed : bool) (accepts : list Z) : list Z * option Z :=
  match reads with
  | [] => ([], if failed then Some 1 else None)
  | buf :: l =>
      let n := match accepts with n :: _ => n | [] => Z.of_nat (length buf) end in
      if n =? Z.of_nat (length buf) then let '(out, e) := cat l failed (tail accepts) in (buf ++ out, e)
      else (take (Z.to_nat n) buf, Some 1)
  end.

Fixpoint echo (args : list (list Z)) : list Z :=
  match args with
  | [] => []
  | [a] => a ++ [10]
  | a :: l => a ++ 32 :: echo l
  end.

(** ** The name [ls] prints *)

Definition NAMESIZ : Z := 14.

Section Fmt.
(** The address of the static buffer, zero but for what earlier calls wrote. *)
Context (buf : Z).

(** Back to the last slash, or before the start. *)
Fixpoint last_slash (n : nat) (path p : Z) (m : Z → Z) : option Z :=
  match n with
  | O => None
  | S n' => if (path <=? p) && negb (m p =? 47) then last_slash n' path (p - 1) m else Some p
  end.

Definition fmtname (fuel : nat) (path : Z) (m : Z → Z) : option (Z * (Z → Z)) :=
  n ← strlen fuel path m;
  p ← last_slash fuel path (path + n) m;
  let p := p + 1 in
  n ← strlen fuel p m;
  if NAMESIZ <=? n then Some (p, m)
  else
    let m := memmove buf p (i32 n) m in
    n ← strlen fuel p m;
    Some (buf, memset (buf + n) 32 (u32 (NAMESIZ - n)) m).
End Fmt.

(** ** The counts of [wc] *)

(** The words of a text: its maximal runs of bytes that are not blank; [cur] is the run
    under way. *)
Fixpoint runs (cur l : list Z) : list (list Z) :=
  match l with
  | [] => match cur with [] => [] | _ => [cur] end
  | x :: l' => if blank x then match cur with [] => runs [] l' | _ => cur :: runs [] l' end else runs (cur ++ [x]) l'
  end.

Definition newlines (l : list Z) : Z := Z.of_nat (length (filter (λ x, x = 10) l)).

Lemma i32_add a b : i32 (i32 a + b) = i32 (a + b).
Proof. unfold i32. replace ((a + 2 ^ 31) mod 2 ^ 32 - 2 ^ 31 + b + 2 ^ 31) with ((a + 2 ^ 31) mod 2 ^ 32 + b) by lia. rewrite Zplus_mod_idemp_l. do 2 f_equal. lia. Qed.

Lemma wc_loop_concat reads s : wc_loop reads s = wc_buf (concat reads) s.
Proof.
  assert (Ha : ∀ l1 l2 s, wc_buf (l1 ++ l2) s = wc_buf l2 (wc_buf l1 s)) by (induction l1 as [|x l1 IH]; intros l2 s'; simpl; auto).
  revert s. induction reads as [|buf l IH]; intros s; [done|]. simpl. by rewrite Ha, IH.
Qed.

Lemma newlines_cons x l : newlines (x :: l) = (if x =? 10 then 1 else 0) + newlines l.
Proof. unfold newlines. rewrite filter_cons. destruct (Z.eqb_spec x 10); case_decide; try done; simpl length; lia. Qed.

Lemma wc_buf_counts text cur l w c : let k := match cur with [] => 0 | _ => 1 end in
  ∃ b, wc_buf text (Counts (i32 l) (i32 (w + k)) (i32 c) (match cur with [] => false | _ => true end)) =
    Counts (i32 (l + newlines text)) (i32 (w + Z.of_nat (length (runs cur text)))) (i32 (c + Z.of_nat (length text))) b.
Proof.
  revert cur l w c. induction text as [|x text IH]; intros cur l w c k; subst k.
  { exists (match cur with [] => false | _ => true end). unfold newlines. simpl. rewrite !Z.add_0_r. by destruct cur. }
  cbn [wc_buf runs]. unfold wc_byte. cbn [n_l n_w n_c n_in]. rewrite newlines_cons.
  assert (El : (if x =? 10 then i32 (i32 l + 1) else i32 l) = i32 (l + (if x =? 10 then 1 else 0))).
  { destruct (x =? 10); [by rewrite i32_add | by rewrite Z.add_0_r]. }
  rewrite El, i32_add, Z.add_assoc. replace (c + Z.of_nat (length (x :: text))) with (c + 1 + Z.of_nat (length text)) by (simpl length; lia).
  set (l1 := l + (if x =? 10 then 1 else 0)). destruct (blank x).
  - destruct cur as [|y cur].
    + destruct (IH [] l1 w (c + 1)) as (b & E). exists b. by rewrite <- E.
    + destruct (IH [] l1 (w + 1) (c + 1)) as (b & E). exists b. rewrite Z.add_0_r in E. rewrite E. simpl length. do 2 f_equal. lia.
  - destruct cur as [|y cur]; cbn [negb].
    + destruct (IH [x] l1 w (c + 1)) as (b & E). exists b. rewrite Z.add_0_r, i32_add. exact E.
    + destruct (IH ((y :: cur) ++ [x]) l1 w (c + 1)) as (b & E). exists b. exact E.
Qed.

Lemma vprintf_int v fmt ap : vprintf 37 (100 :: fmt) (VInt v :: ap) = (out ← vprintf 0 fmt ap; Some (printint v 10 true ++ out)).
Proof. reflexivity. Qed.

Lemma vprintf_char c fmt ap : c ≠ 37 → vprintf 0 (c :: fmt) ap = (out ← vprintf 0 fmt ap; Some (c :: out)).
Proof. intros H. cbn [vprintf]. by rewrite (proj2 (Z.eqb_neq c 37)). Qed.

Lemma vprintf_percent fmt ap : vprintf 0 (37 :: fmt) ap = vprintf 37 fmt ap.
Proof. reflexivity. Qed.

(** The line printed. *)
Lemma wc_line l w c name :
  (out ← vprintf 0 [37; 100; 32; 37; 100; 32; 37; 100; 32; 37; 115; 10] [VInt l; VInt w; VInt c; VStr (Some name)]; Some (out, @None Z)) =
  Some (printint l 10 true ++ 32 :: printint w 10 true ++ 32 :: printint c 10 true ++ 32 :: name ++ [10], None).
Proof. by repeat (rewrite vprintf_percent, vprintf_int, vprintf_char by done). Qed.

(** [wc] prints the numbers of newlines, of words and of bytes of its input, whatever
    pieces [read] returns it in; a word is a maximal run of bytes that are not blank. *)
Theorem wc_counts reads name : let text := concat reads in
  wc reads false name = Some (printint (i32 (newlines text)) 10 true ++ 32 ::
    printint (i32 (Z.of_nat (length (runs [] text)))) 10 true ++ 32 :: printint (i32 (Z.of_nat (length text))) 10 true ++ 32 :: name ++ [10], None).
Proof.
  intros text. unfold wc. rewrite wc_loop_concat. destruct (wc_buf_counts text [] 0 0 0) as (b & E).
  change (wc_buf text (Counts 0 0 0 false) = Counts (i32 (newlines text)) (i32 (Z.of_nat (length (runs [] text)))) (i32 (Z.of_nat (length text))) b) in E.
  fold text. rewrite E. cbn [n_l n_w n_c]. apply wc_line.
Qed.

(** ** The name of [ls] *)

Lemma umemset_loop n i dst c m a : memset_loop n i dst c m a = if (dst + i <=? a) && (a <? dst + i + Z.of_nat n) then u8 c else m a.
Proof.
  revert i m. induction n as [|n IH]; intros i m; cbn [memset_loop].
  - rewrite Z.add_0_r. destruct (Z.leb_spec (dst + i) a), (Z.ltb_spec a (dst + i)); simpl; lia || done.
  - rewrite IH. unfold upd. destruct (Z.eqb_spec a (dst + i)), (Z.leb_spec (dst + (i + 1)) a), (Z.ltb_spec a (dst + (i + 1) + Z.of_nat n)), (Z.leb_spec (dst + i) a), (Z.ltb_spec a (dst + i + Z.of_nat (S n))); simpl; lia || done.
Qed.

Lemma last_slash_spec name fuel path p m : path - 1 ≤ p → holds m (p + 1) name → Forall (λ c, c ≠ 47) name → p = path - 1 ∨ m p = 47 →
  (length name < fuel)%nat → last_slash fuel path (p + Z.of_nat (length name)) m = Some p.
Proof.
  revert fuel. induction name as [|c name IH] using rev_ind; intros [|fuel] Hp Hh Hf Hs Hl; try lia.
  - simpl. rewrite Z.add_0_r. destruct Hs as [->|Hs]; [by rewrite (proj2 (Z.leb_gt _ _)) by lia|]. rewrite Hs. by rewrite andb_false_r.
  - rewrite length_app in Hl |- *. simpl in Hl. cbn [last_slash]. apply holds_app in Hh as [Hh Hc]. apply holds_cons in Hc as [Hc _].
    apply Forall_app in Hf as [Hf Hx]. apply Forall_cons in Hx as [Hx _]. simpl length.
    replace (p + Z.of_nat (length name + 1)) with (p + 1 + Z.of_nat (length name)) by lia. rewrite Hc, (proj2 (Z.leb_le _ _)), (proj2 (Z.eqb_neq c 47)) by (done || lia).
    simpl. replace (p + 1 + Z.of_nat (length name) - 1) with (p + Z.of_nat (length name)) by lia. apply IH; done || lia.
Qed.

Lemma strlen_string fuel s m l : (length l < fuel)%nat → Z.of_nat (length l) < 2 ^ 32 → string_at m s l → strlen fuel s m = Some (Z.of_nat (length l)).
Proof.
  intros Hf Hl Hs. unfold strlen. rewrite (strlen_loop_spec fuel 0 s m l); [|done|by rewrite Z.add_0_r]. simpl. rewrite u32_small; [done|lia].
Qed.

(** The name of a listing: what follows the last slash, padded with blanks to DIRSIZ
    columns in the static buffer, whose last byte no call writes; a longer name is returned
    in place. *)
Lemma fmtname_spec buf fuel path m dir name : string_at m path (dir ++ name) → dir = [] ∨ last dir = Some 47 → Forall (λ c, c ≠ 47) name →
  (S (length dir + length name) < fuel)%nat → Z.of_nat (length dir + length name) < 2 ^ 31 →
  (path + Z.of_nat (length dir + length name) < buf ∨ buf + NAMESIZ < path) → m (buf + NAMESIZ) = 0 →
  ∃ p m', fmtname buf fuel path m = Some (p, m') ∧
    string_at m' p (name ++ replicate (14 - length name) 32) ∧ (∀ a, a < buf ∨ buf + NAMESIZ ≤ a → m' a = m a).
Proof.
  intros Hs Hd Hn Hf Hl Hb Hz. pose proof Hs as (Hh & Hnz & He). apply holds_app in Hh as [Hhd Hhn]. apply Forall_app in Hnz as [_ Hnz].
  rewrite length_app in He. unfold fmtname. rewrite (strlen_string _ _ _ (dir ++ name)) by (rewrite ?length_app; done || lia).
  rewrite length_app. cbn [mbind option_bind]. set (p := path + Z.of_nat (length dir)) in *.
  assert (He' : m (p + Z.of_nat (length name)) = 0) by (rewrite <- He; f_equal; lia).
  replace (path + Z.of_nat (length dir + length name)) with (p - 1 + Z.of_nat (length (name ++ [0]))) by (rewrite length_app; simpl; lia).
  rewrite (last_slash_spec (name ++ [0])); [|lia| | |destruct Hd as [->|Hd]; [left; simpl in *; lia|right]|rewrite length_app; simpl; lia]; cbn [mbind option_bind]; cbv zeta.
  2:{ replace (p - 1 + 1) with p by lia. apply holds_app. split; [done|]. intros [|[|]] x [= <-]. by rewrite Z.add_0_r. }
  2:{ apply Forall_app. split; [done|]. by repeat constructor. }
  2:{ rewrite last_lookup in Hd. rewrite <- (Hhd _ _ Hd). f_equal. destruct dir; [done|]. simpl in *. lia. }
  replace (p - 1 + 1) with p by lia. assert (Hsn : string_at m p name) by done. rewrite (strlen_string _ _ _ name) by (done || lia). cbn [mbind option_bind].
  unfold NAMESIZ in *. destruct (Z.leb_spec 14 (Z.of_nat (length name))).
  { exists p, m. split; [done|]. split; [|done]. replace (14 - length name)%nat with 0%nat by lia. by rewrite app_nil_r. }
  rewrite i32_small by lia. set (m1 := memmove buf p (Z.of_nat (length name)) m).
  assert (Hm1 : ∀ a, m1 a = if (buf <=? a) && (a <? buf + Z.of_nat (length name)) then m (p + (a - buf)) else m a) by (intros a; by apply memmove_spec; lia).
  assert (Hout : ∀ a, a < buf ∨ buf + 14 ≤ a → m1 a = m a).
  { intros a Ha. rewrite Hm1. destruct (Z.leb_spec buf a), (Z.ltb_spec a (buf + Z.of_nat (length name))); simpl; lia || done. }
  assert (Hs1 : string_at m1 p name).
  { split; [|split; [done|]]; [eapply holds_ext; [done|]; intros a Ha; apply Hout; lia|]. rewrite Hout; [done|]. lia. }
  rewrite (strlen_string _ _ _ name) by (done || lia). cbn [mbind option_bind]. eexists buf, _. split; [reflexivity|].
  unfold memset. rewrite u32_small, u32_small by (rewrite ?u32_small; lia).
  set (m2 := memset_loop _ _ _ _ _).
  assert (Hm2 : ∀ a, m2 a = if (buf + Z.of_nat (length name) <=? a) && (a <? buf + 14) then 32 else m1 a).
  { intros a. unfold m2. rewrite umemset_loop. rewrite Z2Nat.id by lia. rewrite Z.add_0_r. by replace (buf + Z.of_nat (length name) + (14 - Z.of_nat (length name))) with (buf + 14) by lia. }
  split; [|intros a Ha; rewrite Hm2, <- (Hout a Ha); destruct (Z.leb_spec (buf + Z.of_nat (length name)) a), (Z.ltb_spec a (buf + 14)); simpl; lia || done].
  split; [apply holds_app; split|split].
  - intros k x Hk. rewrite Hm2, Hm1, <- (Hhn k x Hk). pose proof (lookup_lt_Some _ _ _ Hk).
    rewrite (proj2 (Z.leb_gt _ _)), (proj2 (Z.leb_le buf _)), (proj2 (Z.ltb_lt _ (buf + Z.of_nat (length name)))) by lia. simpl. f_equal. lia.
  - intros k x Hk. apply lookup_replicate in Hk as [-> Hk]. rewrite Hm2. by rewrite (proj2 (Z.leb_le _ _)), (proj2 (Z.ltb_lt _ _)) by lia.
  - apply Forall_app. split; [done|]. by apply Forall_replicate.
  - rewrite length_app, length_replicate, Hm2, (proj2 (Z.ltb_ge _ _)), andb_false_r, Hout by lia. rewrite <- Hz. f_equal. lia.
Qed.
